(* ===== verification/_CoqProject ===== *)
-Q . S2P
Prelude.v
BigMath.v
Params.v
OpCodes.v
VmAnalysis.v
VmMemory.v
Rlp.v
VmTypes.v
VmGas.v
VmInstructions.v
VmPrecompiles.v
VmJumpTable.v
VmInterp.v
VmLaws.v
VmSample.v
VmSpec.v
VmExec.v
VmCallExec.v
VmGasOk.v
VmTables.v
VmPrecompilesOk.v
VmSafety.v
VmCallSafety.v
VmTheorems.v
VmArith.v
Nov2019.v
StateDb.v
StateObs.v
StateInv.v
StateOps.v
StateOk.v
StateFinal.v
Chain.v
StateTheorems.v
Transition.v
TransitionTheorems.v
BlockTypes.v
Transactions.v
PowSizes.v
PowHash.v
PowHashOk.v
PowTheorems.v
Yochash.v
YochashTheorems.v
Rewards.v
TrieEncoding.v
TrieNode.v
Trie.v
TrieTree.v
TrieRep.v
TrieOps.v
TrieDb.v
TrieHash.v
TrieCodec.v
TrieFlush.v
TrieDbOk.v
TrieHashOk.v
TrieTheorems.v
TrieProof.v
TrieStore.v
TrieStoreTheorems.v
CliqueVotes.v
CliqueVotesOk.v
CliqueApply.v
CliqueEngine.v
CliqueSample.v
CliqueTheorems.v
CliqueEngineOk.v
CliqueEngineTheorems.v
Keccakf.v
KeccakRef.v
Sha3.v
Sha3Spec.v
Sha3Ok.v
Sha3Theorems.v
Bitutil.v
BloomBits.v
BloomBitsTheorems.v
ChainIndexer.v
ChainIndexerOk.v
