(* ===== verification/Prelude.v ===== *)
(** * A verification of the YoCoin node

    The node executes transactions on a state of accounts, decides which blocks
    are valid, and keeps the accounts in a Merkle tree.  This library models the
    parts that decide what a valid chain is: the virtual machine
    ([core/vm]), the journalled state ([core/state]), the state transition of a
    transaction ([core]), transactions, headers and receipts ([core/types]), the
    proof of work and its consensus rules ([consensus/yochash],
    [consensus/misc]), the proof of authority ([consensus/clique]), the Merkle tree
    and its database ([trie]), the hash functions ([crypto/sha3]), the index of logs
    ([core/bloombits], [yoc/filters]), the migration of November 2019 ([nov2019]), the encoding
    ([rlp]), the chain parameters ([params]) and the helpers they share
    ([common], [common/math]).  All paths are under [src/].

    ** How code is modelled

    A pure function is a function.  A function that changes state is a
    computation of the monad [M St A] below: it ends with a result and a state
    ([Done]), or in a [fault]: a Go panic, a jump analysis that belongs to
    another code ([StaleAnalysis]), or fuel that ran out.  A function that can
    only panic returns an [option].  A returned [error] is a value of the result.
    [*big.Int] is [Z], written out in full where the code reduces it; [uint64],
    [uint32] and [int64] are [Z] with the conversions that wrap around; bytes are
    [Byte.byte]; [common.Address] and [common.Hash] are the numbers their bytes
    spell; a map is a [gmap], and where the code ranges over one the order is a
    parameter ([MapOrder]).  Go constants are abbreviations.

    ** Which file models what

    - [Prelude]: integers, bytes, lists, the monad, its Hoare rules ([wp]), the
      tactics and hint databases.
    - [BigMath]: [common/math/big.go], [common/math/integer.go],
      [common/bytes.go], [common/types.go].  [Params]: [params/*.go], the fork
      schedule and its compatibility check.
    - [Rlp]: [rlp/encode.go] with its buffer of list headers, [rlp/raw.go].
    - [OpCodes], [VmAnalysis], [VmMemory], [VmTypes], [VmGas],
      [VmInstructions], [VmPrecompiles], [VmJumpTable], [VmInterp]: the files of
      [core/vm], from opcodes to [Interpreter.Run] ([loop]) and the calls of
      [evm.go].  The state is the class [StateDB] of [core/vm/interface.go], the
      hashes and curves are the class [Crypto].
    - [VmLaws] states what the machine expects of a state ([StateLaws]) and of
      its environment; [VmSample] is a small state that has these laws.
      [VmSpec] is the invariant of a frame, [VmExec], [VmCallExec], [VmGasOk]
      and [VmTables] show that every entry of every jump table keeps it,
      [VmPrecompilesOk] and [VmCallSafety] that the contracts and calls do,
      [VmSafety] that the loop does.  [VmTheorems] and [VmArith] hold the
      theorems.
    - [StateDb]: [statedb.go], [state_object.go] and [journal.go], over the class
      [Database] of [core/state/database.go].  [StateObs], [StateInv],
      [StateOps], [StateFinal] hold its invariant and what each
      operation does to it, [StateOk] shows that it has the laws of [StateLaws] and
      has a database with the laws of [DatabaseLaws];
      [StateTheorems] the theorems.
    - [Nov2019]: the package [nov2019] and the checksummed form of addresses.
    - [Chain], [Transition], [TransitionTheorems]: [core/evm.go],
      [core/state_transition.go], [core/gaspool.go].
    - [BlockTypes], [Transactions]: [core/types].
    - [PowSizes], [PowHash], [PowHashOk], [PowTheorems]:
      [consensus/yochash/algorithm.go].
    - [Yochash], [YochashTheorems], [Rewards]: [consensus/yochash/consensus.go]
      and [consensus/misc].
    - [CliqueVotes]: [consensus/clique/snapshot.go]; [CliqueVotesOk] the rule of
      the vote on sets and that a header follows it, [CliqueApply] runs of headers,
      [CliqueTheorems] the theorems.  [CliqueEngine]: [consensus/clique/clique.go];
      [CliqueEngineOk] the search for snapshots, [CliqueEngineTheorems] the
      theorems.  [CliqueSample] is a concrete chain.
    - [Keccakf]: [crypto/sha3/keccakf.go]; [KeccakRef]: the permutation of the
      standard, and that the unrolled rounds compute it.  [Sha3]: the sponge
      ([sha3.go], [hashes.go], [shake.go], the files [xor*.go]) and the Keccak
      functions of [crypto/crypto.go]; [Sha3Spec] the sponge of the standard on
      byte strings, [Sha3Ok] its relation to the states of the code,
      [Sha3Theorems] the theorems.
    - [Bitutil]: [common/bitutil], bulk operations and compression.  [BloomBits]:
      the index of logs, from the generator of [core/bloombits/generator.go], the
      indexer of [yoc/bloombits.go] and the sections of [core/chain_indexer.go] to
      the matcher of [core/bloombits/matcher.go] and the filters of
      [yoc/filters/filter.go]; [BloomBitsTheorems] what they compute together.
      [ChainIndexer]: the two loops of [core/chain_indexer.go] as steps on a state
      they share with the chain; [ChainIndexerOk] their invariant and the theorems.
    - [TrieEncoding], [TrieNode], [Trie]: [trie/encoding.go], [trie/node.go],
      [trie/trie.go].  [TrieDb]: the node cache of [trie/database.go] over
      [yocdb/memory_database.go].  [TrieHash]: [trie/hasher.go], with [Hash] and
      [Commit] of a trie.  [TrieProof]: [trie/proof.go].  [TrieTree] is the
      mathematical tree in minimal form, [TrieRep] says when a live node, of which
      parts may be known by their hash only, stands for a tree; [TrieOps],
      [TrieCodec] (which nodes an encoding refers to), [TrieFlush] (the flush
      list), [TrieDbOk], [TrieHashOk] and [TrieStore] (writing to disk and
      freeing memory) show that the operations keep that, [TrieTheorems] and
      [TrieStoreTheorems] hold the theorems.

    ** What the theorems show

    - The machine: every call and creation ends, without a panic, for any code,
      input and gas up to [max_gas]; the loop keeps the invariant of its frame;
      a failed call leaves everything observable as it was; a static call
      changes nothing; no call or creation makes money; the arithmetic
      instructions compute what their specification says, with one exception
      ([opSAR_zero]); the jump analysis marks exactly the push data.
    - The state: reverting to a snapshot restores everything observable and
      keeps the invariant; the state refines the laws the machine is verified
      against, so the theorems on the machine hold on it ([Call_on_stateDB]);
      what the end of a transaction leaves of every account; what a transfer
      does, and the transfers the migration loses.
    - A transaction: applying it ends; the gas taken from the pool, paid by the
      sender and reported are the same; a refused one changes nothing.
    - Consensus: which headers and uncles are accepted; bounds of the
      difficulty; the rewards, and that they leak between blocks; a miner and a
      verifier compute the same hash up to epoch 384, and from epoch 385 on the
      dataset is not filled.
    - Proof of authority: the signers follow the rule of the vote; a majority gets
      what it wants, and at least half of the signers may sign the next block; the
      caches of snapshots change nothing; a block that was prepared and sealed is
      accepted.  The check of a seal ignores the window in the first blocks, and
      the last signer can vote itself out.
    - Signatures: a signed transaction has its signer as sender, and no signer
      of another chain accepts it.
    - Hashing: the permutation is the one of the standard; every sequence of
      calls of a hash returns what an abstract sponge returns, however the writes
      are cut, with both ways of accessing the state; so do Keccak-256 and the
      other functions.  A copy of a hash that has been read is wrong.
    - The index of logs: a search through the index returns exactly the logs of the
      range, in every state that the loops of the indexer reach while the chain
      changes, unless a section is made from blocks that are then taken away;
      in that case it can be recorded although it has left the chain.  The index
      catches up.  Compressed vectors are read back as they were.
    - Encodings: the encoder writes the encoding of the specification, and
      [rlp.Split] reads back what it wrote and nothing that is not canonical.
    - The trie: it is a finite map, whatever part of it is loaded; its root hash
      depends on the contents only, and determines them where the encodings that
      occur do not clash; what has been committed survives a restart, and freeing
      memory loses nothing; proofs that are made verify, and proofs that verify are
      right; the encodings of keys are inverse to each other.  Reference counts wrap
      around at 16 bits, and a blob hides the trie node it is equal to.

    ** Bounds and fuel

    [loop] takes fuel; a round costs gas, so fuel above the gas of a call is
    enough, and the theorems say so ([max_gas] is 2^62: above it the gas cost of
    the modular exponentiation overflows and it does panic).  Memory is bounded
    by [max_memory], the bound the code itself checks.  The search for primes in
    [PowHash] takes fuel; the sizes of the first 2048 epochs come from the
    tables.  Allocation is assumed to succeed; identifiers of revisions and
    counts of dirty entries are not bounded.  The search for a snapshot of the
    clique engine takes as many rounds as the number of the block; walks over the
    trie take the length of the key or the number of cached nodes.

    ** What is not modelled

    The goroutines and channels of the matcher of logs are modelled by the functions
    they compute on a section; sessions that are closed early and retrievals that
    fail are left out.  The chain switches to another head in one step, with one
    event, and a node is stopped only when its indexer has taken all events.  Networking, storage on disk, the key store, the command line, the light
    client, and the goroutines that hold them together ([p2p], [yoc], [les],
    [accounts], [cmd], [node], [rpc], [swarm], [whisper] and others): they are
    input and output around the parts above.  The block chain manager
    ([core/blockchain.go]) and the transaction pool, which are concurrent.
    Reflection in [rlp]: the encoder is modelled on values of
    the types it is used with.  Elliptic curves and the hash functions of other
    packages are parameters, with the lengths of their results as hypotheses; the
    other components take Keccak-256 as such a parameter, and [with_sha3] puts the
    modelled one in its place.  The assembly versions of the permutation.
    Logging, metrics and tracing change nothing that is computed. *)
From stdpp Require Export base list gmap strings numbers.
From Stdlib Require Export ZArith Lia.
From Stdlib Require Strings.Byte.

#[global] Open Scope Z_scope.

(** ** Machine integers *)

Definition MaxUint64 : Z := 2 ^ 64 - 1.

(** [uint64(z)]: the conversion wraps around. *)
Definition uint64 (z : Z) : Z := z mod 2 ^ 64.

(** [int64(z)]: two's complement reading of the low 64 bits. *)
Definition int64 (z : Z) : Z := (z + 2 ^ 63) mod 2 ^ 64 - 2 ^ 63.

Definition is_uint64 (z : Z) : Prop := 0 <= z < 2 ^ 64.
Definition is_u256 (z : Z) : Prop := 0 <= z < 2 ^ 256.

(** ** Bytes *)

Notation byte := Byte.byte.

Definition bz (b : byte) : Z := Z.of_N (Byte.to_N b).

(** [byte(z)]: keeps the low eight bits. *)
Definition zb (z : Z) : byte :=
  match Byte.of_N (Z.to_N (z mod 256)) with
  | Some b => b
  | None => Byte.x00
  end.

#[global] Instance byte_eq_dec : EqDecision byte.
Proof. intros a b. exact (Byte.byte_eq_dec a b). Defined.

#[global] Program Instance byte_countable : Countable byte := inj_countable Byte.to_N Byte.of_N _.
Next Obligation. apply Byte.of_to_N. Qed.

(** Big-endian value of a byte string: [new(big.Int).SetBytes]. *)
Definition SetBytes (l : list byte) : Z := foldl (λ acc b, acc * 256 + bz b) 0 l.

(** The [n] low bytes of [z], least significant first. *)
Fixpoint le_bytes (n : nat) (z : Z) : list byte :=
  match n with
  | O => []
  | S n => zb z :: le_bytes n (z / 256)
  end.

(** The [n] low bytes of [z], most significant first. *)
Definition be_bytes (n : nat) (z : Z) : list byte := reverse (le_bytes n z).

(** [make([]byte, n)] *)
Definition zeros (n : nat) : list byte := replicate n Byte.x00.

(** Length of a slice as the Go integer it is compared with. *)
Definition zlen {A} (l : list A) : Z := Z.of_nat (length l).

(** [copy(dst, src)]: overwrites the front of [dst], as far as both reach. *)
Fixpoint overlay {A} (src dst : list A) : list A :=
  match src, dst with
  | x :: src', _ :: dst' => x :: overlay src' dst'
  | _, _ => dst
  end.

(** ** Ranging over a map *)

(** The order in which [for k, v := range m] visits a map: any order. *)
Class MapOrder := {
  range : ∀ {A}, gmap Z A → list (Z * A);
  range_perm {A} (m : gmap Z A) : range m ≡ₚ map_to_list m
}.

(** ** Outcome of a stateful call

    A Go function that mutates its receiver ends with a value and the new
    state, or it does not return: it panics (index out of range, nil
    dereference, explicit panic).  The jump destination analysis has a fault of
    its own, an index past a memoized bit vector, because only two programs
    with the same code hash lead there.  A bounded run of a loop may also use
    up its fuel. *)
Inductive fault := Panic | StaleAnalysis | OutOfFuel.

Inductive outcome (St A : Type) : Type :=
  | Done (a : A) (s : St)
  | Fault (f : fault).
Arguments Done {_ _} _ _.
Arguments Fault {_ _} _.

Definition M (St A : Type) : Type := St → outcome St A.

#[global] Instance M_ret {St} : MRet (M St) := λ A a s, Done a s.
#[global] Instance M_bind {St} : MBind (M St) := λ A B k m s,
  match m s with
  | Done a s' => k a s'
  | Fault f => Fault f
  end.

Definition fail {St A} (f : fault) : M St A := λ _, Fault f.
Definition panic {St A} : M St A := fail Panic.
Definition gets {St A} (f : St → A) : M St A := λ s, Done (f s) s.
Definition modify {St} (f : St → St) : M St () := λ s, Done () (f s).

(** A value that may be missing, where a missing one is a panic. *)
Definition must {St A} (o : option A) : M St A :=
  match o with Some a => mret a | None => panic end.

(** A computation on a part of the state. *)
Definition zoom {St T A} (get : St → T) (put : T → St → St) (m : M T A) : M St A := λ s,
  match m (get s) with
  | Done a t => Done a (put t s)
  | Fault f => Fault f
  end.

(** [wp F m Q s]: run from [s], [m] returns a value and a final state that
    satisfy [Q], or ends in a fault of [F]. *)
Definition wp {St A} (F : fault → Prop) (m : M St A) (Q : A → St → Prop) (s : St) : Prop :=
  match m s with
  | Done a s' => Q a s'
  | Fault f => F f
  end.

(** ** Shared tactics *)

(** Splits conjunctions and existentials of the context. *)
Ltac destr_ands :=
  repeat match goal with
  | H : _ ∧ _ |- _ => destruct H
  | H : ∃ _, _ |- _ => destruct H
  end.

(** Case analysis on the boolean comparisons on [Z] of the goal. *)
Ltac zcases :=
  repeat match goal with
  | |- context [?x >? ?y] => rewrite (Z.gtb_ltb x y)
  | |- context [?x >=? ?y] => rewrite (Z.geb_leb x y)
  | |- context [?x <? ?y] => destruct (Z.ltb_spec x y)
  | |- context [?x <=? ?y] => destruct (Z.leb_spec x y)
  | |- context [?x =? ?y] => destruct (Z.eqb_spec x y)
  end.

Ltac zcases_in H :=
  repeat match type of H with
  | context [?x >? ?y] => rewrite (Z.gtb_ltb x y) in H
  | context [?x >=? ?y] => rewrite (Z.geb_leb x y) in H
  | context [?x <? ?y] => destruct (Z.ltb_spec x y)
  | context [?x <=? ?y] => destruct (Z.leb_spec x y)
  | context [?x =? ?y] => destruct (Z.eqb_spec x y)
  end.

Create HintDb yoc.

(** ** Lemmas on bytes *)

Lemma bz_range b : 0 <= bz b < 256.
Proof. unfold bz. pose proof (Byte.to_N_bounded b). lia. Qed.

Lemma zb_bz b : zb (bz b) = b.
Proof.
  unfold zb. rewrite Z.mod_small by apply bz_range.
  unfold bz. rewrite N2Z.id, Byte.of_to_N. done.
Qed.

Lemma bz_zb z : bz (zb z) = z mod 256.
Proof.
  unfold zb. pose proof (Z.mod_pos_bound z 256 ltac:(lia)).
  destruct (Byte.of_N (Z.to_N (z mod 256))) as [b|] eqn:E.
  - apply Byte.to_of_N in E. unfold bz. rewrite E. lia.
  - apply Byte.of_N_None_iff in E. lia.
Qed.

Lemma bz_inj a b : bz a = bz b → a = b.
Proof. intros H. rewrite <- (zb_bz a), <- (zb_bz b). by rewrite H. Qed.

Lemma zb_mod z : zb (z mod 256) = zb z.
Proof. unfold zb. by rewrite Z.mod_mod by lia. Qed.

Lemma length_le_bytes n z : length (le_bytes n z) = n.
Proof. revert z; induction n; intros; simpl; auto. Qed.

Lemma length_be_bytes n z : length (be_bytes n z) = n.
Proof. unfold be_bytes. by rewrite length_reverse, length_le_bytes. Qed.

Lemma SetBytes_snoc l b : SetBytes (l ++ [b]) = SetBytes l * 256 + bz b.
Proof. unfold SetBytes. by rewrite foldl_app. Qed.

Lemma SetBytes_nonneg l : 0 <= SetBytes l.
Proof.
  induction l as [|b l IH] using rev_ind; [done|].
  rewrite SetBytes_snoc. pose proof (bz_range b). lia.
Qed.

Lemma SetBytes_bound l : SetBytes l < 256 ^ zlen l.
Proof.
  induction l as [|b l IH] using rev_ind; [done|].
  rewrite SetBytes_snoc. unfold zlen in *. rewrite length_app. simpl.
  replace (Z.of_nat (length l + 1)) with (Z.succ (Z.of_nat (length l))) by lia.
  rewrite Z.pow_succ_r by lia. pose proof (bz_range b). lia.
Qed.

Lemma SetBytes_app l k : SetBytes (l ++ k) = SetBytes l * 256 ^ zlen k + SetBytes k.
Proof.
  induction k as [|b k IH] using rev_ind.
  - rewrite app_nil_r. change (SetBytes []) with 0. change (zlen []) with 0. lia.
  - rewrite app_assoc, !SetBytes_snoc, IH. unfold zlen. rewrite length_app. simpl.
    replace (Z.of_nat (length k + 1)) with (Z.succ (Z.of_nat (length k))) by lia.
    rewrite Z.pow_succ_r by lia. ring.
Qed.

Lemma SetBytes_zeros n : SetBytes (zeros n) = 0.
Proof.
  induction n as [|n IH]; [done|]. unfold zeros.
  rewrite replicate_S_end, SetBytes_snoc. fold (zeros n). rewrite IH. done.
Qed.

Lemma pow256_S n : 256 ^ Z.of_nat (S n) = 256 * 256 ^ Z.of_nat n.
Proof.
  replace (Z.of_nat (S n)) with (Z.succ (Z.of_nat n)) by lia.
  by rewrite Z.pow_succ_r by lia.
Qed.

Lemma pow256_pos n : 0 < 256 ^ Z.of_nat n.
Proof. apply Z.pow_pos_nonneg; lia. Qed.

Lemma SetBytes_be_bytes n z : SetBytes (be_bytes n z) = z mod 256 ^ Z.of_nat n.
Proof.
  revert z; induction n as [|n IH]; intros z.
  - change (SetBytes (be_bytes 0 z)) with 0. by rewrite Z.mod_1_r.
  - unfold be_bytes. simpl le_bytes. rewrite reverse_cons, SetBytes_snoc.
    fold (be_bytes n (z / 256)). rewrite IH, bz_zb, pow256_S.
    rewrite Z.rem_mul_r by (pose proof (pow256_pos n); lia). ring.
Qed.

Lemma be_bytes_SetBytes l : be_bytes (length l) (SetBytes l) = l.
Proof.
  induction l as [|b l IH] using rev_ind; [done|].
  rewrite length_app, Nat.add_comm, SetBytes_snoc. simpl. unfold be_bytes.
  pose proof (bz_range b). simpl le_bytes. rewrite reverse_cons. f_equal.
  - rewrite Z.div_add_l, (Z.div_small (bz b)), Z.add_0_r by lia. exact IH.
  - f_equal. rewrite <- zb_mod, Z.add_comm, Z.mod_add, zb_mod by lia. apply zb_bz.
Qed.

#[export] Hint Resolve bz_range SetBytes_nonneg : yoc.

(** ** Lemmas on lists *)

Lemma length_overlay {A} (src dst : list A) : length (overlay src dst) = length dst.
Proof.
  revert dst; induction src as [|x src IH]; intros [|y dst]; simpl; auto.
Qed.

Lemma overlay_full {A} (src dst : list A) :
  length src = length dst → overlay src dst = src.
Proof.
  revert dst; induction src as [|x src IH]; intros [|y dst]; simpl; intros; try done.
  f_equal. apply IH. lia.
Qed.

Lemma overlay_app {A} (src dst : list A) :
  (length src <= length dst)%nat → overlay src dst = src ++ drop (length src) dst.
Proof.
  revert dst; induction src as [|x src IH]; intros [|y dst]; simpl; intros; try done; [lia|].
  f_equal. apply IH. lia.
Qed.

Lemma zlen_nonneg {A} (l : list A) : 0 <= zlen l.
Proof. unfold zlen. lia. Qed.

Lemma zlen_app {A} (l r : list A) : zlen (l ++ r) = zlen l + zlen r.
Proof. unfold zlen. rewrite length_app. lia. Qed.

#[export] Hint Resolve zlen_nonneg : yoc.

(** ** Lemmas on machine integers *)

Lemma uint64_range z : is_uint64 (uint64 z).
Proof. unfold is_uint64, uint64. apply Z.mod_pos_bound. lia. Qed.

Lemma uint64_id z : is_uint64 z → uint64 z = z.
Proof. unfold is_uint64, uint64. intros. by apply Z.mod_small. Qed.

Lemma int64_id z : - 2 ^ 63 <= z < 2 ^ 63 → int64 z = z.
Proof. intros Hz. unfold int64. rewrite Z.mod_small by lia. lia. Qed.

Lemma uint64_idemp z : uint64 (uint64 z) = uint64 z.
Proof. apply uint64_id, uint64_range. Qed.

#[export] Hint Resolve uint64_range : yoc.

(** ** Lemmas on outcomes *)

Section Outcome.
Context {St : Type}.

Lemma wp_ret {A} F (a : A) Q (s : St) : Q a s → wp F (mret a) Q s.
Proof. done. Qed.

Lemma wp_bind {A B} F (m : M St A) (k : A → M St B) Q s :
  wp F m (λ a s', wp F (k a) Q s') s → wp F (m ≫= k) Q s.
Proof. unfold wp, mbind, M_bind. by destruct (m s). Qed.

Lemma wp_gets {A} F (f : St → A) Q s : Q (f s) s → wp F (gets f) Q s.
Proof. done. Qed.

Lemma wp_modify F (f : St → St) Q s : Q () (f s) → wp F (modify f) Q s.
Proof. done. Qed.

Lemma wp_mono {A} F (m : M St A) (Q Q' : A → St → Prop) s :
  wp F m Q s → (∀ a s', Q a s' → Q' a s') → wp F m Q' s.
Proof. unfold wp. destruct (m s); auto. Qed.

Lemma wp_conj {A} F (m : M St A) (Q Q' : A → St → Prop) s :
  wp F m Q s → wp F m Q' s → wp F m (λ a s', Q a s' ∧ Q' a s') s.
Proof. unfold wp. destruct (m s); auto. Qed.

Lemma wp_must {A} F (o : option A) a Q (s : St) : o = Some a → Q a s → wp F (must o) Q s.
Proof. by intros ->. Qed.

Lemma wp_zoom {T A} F (get : St → T) put (m : M T A) Q s :
  wp F m (λ a t, Q a (put t s)) (get s) → wp F (zoom get put m) Q s.
Proof. unfold wp, zoom. by destruct (m (get s)). Qed.

End Outcome.
