(* ===== verification/BigMath.v ===== *)
(** * Integer and byte-string helpers

    [common/math/big.go], [common/math/integer.go], the padding helpers of
    [common/bytes.go] and the conversions of [common/types.go].  A [*big.Int]
    is its value, a [Z]; a [common.Address] and a [common.Hash] are the
    big-endian values of their byte arrays. *)
From Stdlib Require Import Zpow_facts.
From S2P Require Import Prelude.

(** ** The methods of [math/big.Int] the code calls *)

Definition Sign (x : Z) : Z := Z.sgn x.

Definition BitLen (x : Z) : Z := if x =? 0 then 0 else Z.log2 (Z.abs x) + 1.

(** The low 64 bits of the absolute value. *)
Definition Uint64 (x : Z) : Z := uint64 (Z.abs x).

Definition Int64 (x : Z) : Z :=
  if x <? 0 then int64 (- int64 (Z.abs x)) else int64 x.

(** [Div] and [Mod] are Euclidean. *)
Definition bigDiv (x y : Z) : Z := Z.sgn y * (x / Z.abs y).
Definition bigMod (x y : Z) : Z := x mod Z.abs y.

(** [Bits]: the 64-bit words of the absolute value, least significant first,
    without leading zero words. *)
Definition Bits (x : Z) : list Z :=
  (λ i : nat, (Z.abs x / 2 ^ (64 * Z.of_nat i)) mod 2 ^ 64)
    <$> seq 0 (Z.to_nat ((BitLen x + 63) / 64)).

(** [Bytes]: the big-endian bytes of the absolute value, without leading zeros. *)
Definition Bytes (x : Z) : list byte :=
  be_bytes (Z.to_nat ((BitLen x + 7) / 8)) (Z.abs x).

(** ** common/math/big.go *)

Definition BigPow (a b : Z) : Z := a ^ b.

Definition tt255 : Z := BigPow 2 255.
Definition tt256 : Z := BigPow 2 256.
Definition tt256m1 : Z := tt256 - 1.
Definition wordBits : nat := 64.
Definition wordBytes : nat := 8.

Definition BigMax (x y : Z) : Z := if x <? y then y else x.
Definition BigMin (x y : Z) : Z := if x >? y then y else x.

(** The loop of [FirstBitSet], with the iterations left. *)
Fixpoint FirstBitSet_loop (n : nat) (i : Z) (v : Z) : Z :=
  match n with
  | O => BitLen v
  | S n => if Z.testbit v i then i else FirstBitSet_loop n (i + 1) v
  end.

Definition FirstBitSet (v : Z) : Z := FirstBitSet_loop (Z.to_nat (BitLen v)) 0 v.

(** [ReadBits] fills [buf] from its end with the bytes of the words, least
    significant first, and leaves the front of [buf] as it was. *)
Definition ReadBits (bigint : Z) (buf : list byte) : list byte :=
  reverse (overlay (concat (le_bytes wordBytes <$> Bits bigint)) (reverse buf)).

Definition PaddedBigBytes (bigint : Z) (n : Z) : list byte :=
  if n <=? BitLen bigint / 8 then Bytes bigint
  else ReadBits bigint (zeros (Z.to_nat n)).

Definition bigEndianByteAt (bigint : Z) (n : Z) : byte :=
  match Bits bigint !! Z.to_nat (n / Z.of_nat wordBytes) with
  | None => Byte.x00
  | Some word => zb (Z.shiftr word (8 * (n mod Z.of_nat wordBytes)))
  end.

Definition Byte_at (bigint padlength n : Z) : byte :=
  if padlength <=? n then Byte.x00 else bigEndianByteAt bigint (padlength - 1 - n).

Definition U256 (x : Z) : Z := Z.land x tt256m1.

Definition S256 (x : Z) : Z := if x <? tt255 then x else x - tt256.

(** The inner loop of [Exp]: [n] bits of [word]; the accumulator and the base
    are both updated in place. *)
Fixpoint Exp_word (n : nat) (word result base : Z) : Z * Z :=
  match n with
  | O => (result, base)
  | S n =>
      let result' := if Z.land word 1 =? 1 then U256 (result * base) else result in
      Exp_word n (Z.shiftr word 1) result' (U256 (base * base))
  end.

(** [Exp] with the value its argument [base] is left with. *)
Definition Exp (base exponent : Z) : Z * Z :=
  foldl (λ acc word, Exp_word wordBits word acc.1 acc.2) (1, base) (Bits exponent).

(** ** common/math/integer.go *)

Definition SafeSub (x y : Z) : Z * bool := (uint64 (x - y), x <? y).

Definition SafeAdd (x y : Z) : Z * bool := (uint64 (x + y), y >? MaxUint64 - x).

Definition SafeMul (x y : Z) : Z * bool :=
  if (x =? 0) || (y =? 0) then (0, false)
  else (uint64 (x * y), y >? MaxUint64 / x).

(** ** common/bytes.go *)

Definition RightPadBytes (slice : list byte) (l : Z) : list byte :=
  if l <=? zlen slice then slice
  else overlay slice (zeros (Z.to_nat l)).

Definition LeftPadBytes (slice : list byte) (l : Z) : list byte :=
  if l <=? zlen slice then slice
  else zeros (Z.to_nat l - length slice) ++ slice.

(** ** common/types.go *)

Notation Address := Z (only parsing).
Notation Hash := Z (only parsing).

Definition HashLength : nat := 32.
Definition AddressLength : nat := 20.

Definition BytesToHash (b : list byte) : Hash :=
  SetBytes (if decide (HashLength < length b)%nat then drop (length b - HashLength) b else b).

Definition BytesToAddress (b : list byte) : Address :=
  SetBytes (if decide (AddressLength < length b)%nat then drop (length b - AddressLength) b else b).

Definition BigToHash (b : Z) : Hash := BytesToHash (Bytes b).
Definition BigToAddress (b : Z) : Address := BytesToAddress (Bytes b).

(** [h.Bytes()], [a.Bytes()] *)
Definition HashBytes (h : Hash) : list byte := be_bytes HashLength h.
Definition AddressBytes (a : Address) : list byte := be_bytes AddressLength a.

(** ** Lemmas: [math/big] *)

Lemma BitLen_nonneg x : 0 <= BitLen x.
Proof. unfold BitLen. pose proof (Z.log2_nonneg (Z.abs x)). zcases; lia. Qed.

Lemma BitLen_bound x : Z.abs x < 2 ^ BitLen x.
Proof.
  unfold BitLen. zcases; [subst; done|].
  apply (Z.log2_spec (Z.abs x)). lia.
Qed.

Lemma BitLen_le x n : 0 <= n → BitLen x <= n ↔ Z.abs x < 2 ^ n.
Proof.
  intros Hn. split.
  - intros H. pose proof (BitLen_bound x).
    pose proof (Z.pow_le_mono_r 2 (BitLen x) n). lia.
  - intros H. unfold BitLen. zcases; [lia|].
    assert (Z.log2 (Z.abs x) < n); [|lia].
    apply Z.log2_lt_pow2; lia.
Qed.

Lemma Uint64_range x : is_uint64 (Uint64 x).
Proof. apply uint64_range. Qed.

Lemma Uint64_id x : is_uint64 x → Uint64 x = x.
Proof. intros H. unfold Uint64. rewrite Z.abs_eq by (destruct H; lia). by apply uint64_id. Qed.

Lemma Int64_id x : 0 <= x < 2 ^ 63 → Int64 x = x.
Proof.
  intros H. unfold Int64. zcases; [lia|]. unfold int64.
  rewrite Z.mod_small by lia. lia.
Qed.

Lemma Bits_length x : length (Bits x) = Z.to_nat ((BitLen x + 63) / 64).
Proof. unfold Bits. by rewrite length_fmap, length_seq. Qed.

Lemma Bits_lookup x i :
  Bits x !! i = if decide (i < length (Bits x))%nat
                then Some ((Z.abs x / 2 ^ (64 * Z.of_nat i)) mod 2 ^ 64) else None.
Proof.
  case_decide as H.
  - rewrite Bits_length in H. unfold Bits. rewrite list_lookup_fmap, lookup_seq_lt by done. done.
  - apply lookup_ge_None. lia.
Qed.

(** Bytes beyond the last word are zero. *)
Lemma Bits_beyond x i :
  (length (Bits x) <= i)%nat → Z.abs x / 2 ^ (64 * Z.of_nat i) = 0.
Proof.
  intros H. rewrite Bits_length in H.
  apply Z.div_small. split; [lia|].
  assert (BitLen x <= 64 * Z.of_nat i).
  { pose proof (BitLen_nonneg x). pose proof (Z.div_mod (BitLen x + 63) 64).
    pose proof (Z.mod_pos_bound (BitLen x + 63) 64). lia. }
  pose proof (BitLen_bound x).
  pose proof (Z.pow_le_mono_r 2 (BitLen x) (64 * Z.of_nat i)). lia.
Qed.

Lemma SetBytes_Bytes x : SetBytes (Bytes x) = Z.abs x.
Proof.
  unfold Bytes. rewrite SetBytes_be_bytes. apply Z.mod_small. split; [lia|].
  pose proof (BitLen_nonneg x). pose proof (BitLen_bound x).
  pose proof (Z.div_mod (BitLen x + 7) 8). pose proof (Z.mod_pos_bound (BitLen x + 7) 8).
  rewrite Z2Nat.id by (apply Z.div_pos; lia).
  change 256 with (2 ^ 8). rewrite <- Z.pow_mul_r by (try apply Z.div_pos; lia).
  pose proof (Z.pow_le_mono_r 2 (BitLen x) (8 * ((BitLen x + 7) / 8))). lia.
Qed.

(** ** Lemmas: [common/math] *)

Lemma U256_mod x : U256 x = x mod 2 ^ 256.
Proof.
  unfold U256, tt256m1, tt256, BigPow.
  replace (2 ^ 256 - 1) with (Z.ones 256) by (rewrite Z.ones_equiv; lia).
  apply Z.land_ones. lia.
Qed.

Lemma U256_range x : is_u256 (U256 x).
Proof. rewrite U256_mod. apply Z.mod_pos_bound. lia. Qed.

Lemma U256_id x : is_u256 x → U256 x = x.
Proof. intros. rewrite U256_mod. by apply Z.mod_small. Qed.

Lemma S256_range x : is_u256 x → - 2 ^ 255 <= S256 x < 2 ^ 255.
Proof. unfold is_u256, S256, tt255, tt256, BigPow. zcases; lia. Qed.

Lemma U256_S256 x : is_u256 x → U256 (S256 x) = x.
Proof.
  unfold is_u256. intros Hx. rewrite U256_mod.
  unfold S256, tt255, tt256, BigPow. zcases; [by apply Z.mod_small|].
  rewrite <- (Z.mod_add _ 1) by lia. rewrite Z.mod_small; lia.
Qed.

Lemma S256_U256 y : - 2 ^ 255 <= y < 2 ^ 255 → S256 (U256 y) = y.
Proof.
  intros Hy. rewrite U256_mod. unfold S256, tt255, tt256, BigPow.
  destruct (Z.ltb_spec y 0).
  - replace (y mod 2 ^ 256) with (y + 2 ^ 256).
    + zcases; lia.
    + rewrite <- (Z.mod_add _ 1) by lia. rewrite Z.mod_small; lia.
  - rewrite Z.mod_small by lia. zcases; lia.
Qed.

Lemma BigMin_min x y : BigMin x y = Z.min x y.
Proof. unfold BigMin. zcases; lia. Qed.

Lemma BigMax_max x y : BigMax x y = Z.max x y.
Proof. unfold BigMax. zcases; lia. Qed.

Lemma land_1 x : Z.land x 1 = x mod 2.
Proof. exact (Z.land_ones x 1 ltac:(lia)). Qed.

(** The accumulator and the base after [n] bits of a word below [2^n]. *)
Lemma Exp_word_spec n word result base :
  0 <= word < 2 ^ Z.of_nat n → is_u256 result →
  let r := Exp_word n word result base in
  r.1 = (result * base ^ word) mod 2 ^ 256 ∧ r.2 mod 2 ^ 256 = base ^ (2 ^ Z.of_nat n) mod 2 ^ 256.
Proof.
  revert word result base; induction n as [|n IH]; intros word result base Hw Hr; simpl.
  - assert (word = 0) as -> by (simpl in Hw; lia). simpl.
    rewrite Z.pow_0_r, Z.pow_1_r, Z.mul_1_r. split; [symmetry; by apply Z.mod_small|done].
  - replace (2 ^ Z.of_nat (S n)) with (2 * 2 ^ Z.of_nat n) in *
      by (rewrite Nat2Z.inj_succ, Z.pow_succ_r; lia).
    rewrite land_1, Z.shiftr_div_pow2 by lia. change (2 ^ 1) with 2. pose proof (Z.div_mod word 2). pose proof (Z.mod_pos_bound word 2).
    set (w' := word / 2) in *.
    destruct (IH w' (if word mod 2 =? 1 then U256 (result * base) else result) (U256 (base * base)))
      as [IH1 IH2].
    { lia. }
    { destruct (_ =? _); [apply U256_range|done]. }
    split.
    + rewrite IH1, !U256_mod. clear IH1 IH2 IH.
      assert (base ^ word = base ^ (word mod 2) * (base * base) ^ w') as ->.
      { rewrite <- Z.pow_2_r, <- Z.pow_mul_r, <- Z.pow_add_r by lia. f_equal. lia. }
      rewrite Z.mul_mod, <- Zpower_mod, <- Z.mul_mod by lia.
      destruct (Z.eqb_spec (word mod 2) 1) as [E|E].
      * rewrite E, Z.pow_1_r, Z.mul_mod_idemp_l by lia. f_equal. ring.
      * assert (word mod 2 = 0) as -> by lia. f_equal. rewrite Z.pow_0_r. ring.
    + rewrite IH2, U256_mod, <- Zpower_mod by lia. f_equal.
      rewrite <- Z.pow_2_r, <- Z.pow_mul_r by lia. done.
Qed.

Lemma Exp_words_spec ws result base :
  Forall (λ w, 0 <= w < 2 ^ 64) ws → is_u256 result →
  let e := foldr (λ w acc, w + 2 ^ 64 * acc) 0 ws in
  (foldl (λ acc word, Exp_word wordBits word acc.1 acc.2) (result, base) ws).1
  = (result * base ^ e) mod 2 ^ 256.
Proof.
  intros Hws. revert result base. induction Hws as [|w ws Hw Hws IH]; intros result base Hr;
    cbn [foldl foldr fst snd].
  - rewrite Z.pow_0_r, Z.mul_1_r. symmetry. by apply Z.mod_small.
  - destruct (Exp_word_spec wordBits w result base Hw Hr) as [E1 E2].
    destruct (Exp_word wordBits w result base) as [r' b'] eqn:E. cbn [fst snd] in *.
    set (e := foldr _ 0 ws) in *.
    assert (0 <= e).
    { subst e. clear -Hws. induction Hws; cbn [foldr]; [done|]. lia. }
    rewrite IH by (subst r'; apply Z.mod_pos_bound; lia). fold e.
    rewrite <- Z.mul_mod_idemp_r, (Zpower_mod b'), E2, <- Zpower_mod, Z.mul_mod_idemp_r, E1,
      Z.mul_mod_idemp_l by lia. f_equal.
    rewrite Z.pow_add_r, <- Z.pow_mul_r by lia. change (Z.of_nat wordBits) with 64. ring.
Qed.

Lemma words_sum (k i : nat) (x : Z) :
  0 <= x → x / 2 ^ (64 * Z.of_nat (i + k)) = 0 →
  foldr (λ w acc, w + 2 ^ 64 * acc) 0
    ((λ j : nat, (x / 2 ^ (64 * Z.of_nat j)) mod 2 ^ 64) <$> seq i k) = x / 2 ^ (64 * Z.of_nat i).
Proof.
  intros Hx. revert i. induction k as [|k IH]; intros i H0.
  - rewrite Nat.add_0_r in H0. done.
  - cbn [seq fmap list_fmap foldr]. rewrite IH by (replace (S i + k)%nat with (i + S k)%nat by lia; done).
    replace (64 * Z.of_nat (S i)) with (64 * Z.of_nat i + 64) by lia.
    rewrite Z.pow_add_r, <- Z.div_div by (try apply Z.pow_pos_nonneg; lia).
    pose proof (Z.div_mod (x / 2 ^ (64 * Z.of_nat i)) (2 ^ 64)). lia.
Qed.

(** The words of [Bits] add up to the absolute value. *)
Lemma Bits_sum x : foldr (λ w acc, w + 2 ^ 64 * acc) 0 (Bits x) = Z.abs x.
Proof.
  unfold Bits. rewrite words_sum; [by rewrite Z.div_1_r|lia|].
  apply Bits_beyond. rewrite Bits_length. done.
Qed.

Lemma Bits_word x : Forall (λ w, 0 <= w < 2 ^ 64) (Bits x).
Proof.
  apply Forall_fmap, Forall_forall. intros i _. simpl. apply Z.mod_pos_bound. lia.
Qed.

Lemma Exp_pow base exponent : 0 <= exponent → (Exp base exponent).1 = base ^ exponent mod 2 ^ 256.
Proof.
  intros He. unfold Exp. rewrite Exp_words_spec; [|apply Bits_word|done].
  by rewrite Bits_sum, Z.abs_eq, Z.mul_1_l.
Qed.

(** [math.Exp] computes the power modulo 2^256, for every base and every
    non-negative exponent. *)
Theorem Exp_correct base exponent :
  0 <= exponent → (Exp base exponent).1 = base ^ exponent mod 2 ^ 256.
Proof. apply Exp_pow. Qed.

Lemma Exp_correct_witness : 0 <= 5 ∧ (Exp 3 5).1 = 3 ^ 5 mod 2 ^ 256.
Proof. split; [lia|]. apply (Exp_correct 3 5). lia. Defined.

Lemma le_bytes_mod n z : le_bytes n (z mod 256 ^ Z.of_nat n) = le_bytes n z.
Proof.
  revert z; induction n as [|n IH]; intros z; [done|]. cbn [le_bytes].
  rewrite pow256_S. pose proof (pow256_pos n).
  f_equal.
  - rewrite <- zb_mod, Z.rem_mul_r by lia.
    rewrite (Z.mul_comm 256), Z.mod_add, Z.mod_mod, zb_mod by lia. done.
  - rewrite Z.rem_mul_r by lia. rewrite (Z.mul_comm 256), Z.div_add by lia.
    rewrite (Z.div_small (z mod 256)) by (apply Z.mod_pos_bound; lia). apply IH.
Qed.

Lemma le_bytes_add n m z :
  le_bytes (n + m) z = le_bytes n z ++ le_bytes m (z / 256 ^ Z.of_nat n).
Proof.
  revert z; induction n as [|n IH]; intros z.
  - cbn. by rewrite Z.div_1_r.
  - cbn [Nat.add le_bytes app]. rewrite IH, pow256_S, Z.div_div; [done|lia|apply pow256_pos].
Qed.

Lemma le_bytes_zero n : le_bytes n 0 = zeros n.
Proof.
  induction n as [|n IH]; [done|]. cbn [le_bytes]. rewrite Z.div_0_l by lia. by rewrite IH.
Qed.

Lemma concat_words_bytes ws :
  Forall (λ w, 0 <= w < 2 ^ 64) ws →
  concat (le_bytes wordBytes <$> ws) =
  le_bytes (8 * length ws) (foldr (λ w acc, w + 2 ^ 64 * acc) 0 ws).
Proof.
  intros H. induction H as [|w ws Hw Hws IH]; [done|].
  cbn [fmap list_fmap concat foldr length].
  replace (8 * S (length ws))%nat with (8 + 8 * length ws)%nat by lia.
  rewrite le_bytes_add. change (256 ^ Z.of_nat 8) with (2 ^ 64).
  set (e := foldr _ 0 ws) in *. f_equal.
  - rewrite <- (le_bytes_mod 8 (w + 2 ^ 64 * e)). change (256 ^ Z.of_nat 8) with (2 ^ 64).
    rewrite Z.mul_comm, Z.mod_add, Z.mod_small by lia. done.
  - rewrite IH. f_equal. rewrite Z.mul_comm, Z.div_add, Z.div_small by lia. done.
Qed.

Lemma overlay_take {A} (src dst : list A) :
  (length dst <= length src)%nat → overlay src dst = take (length dst) src.
Proof.
  revert dst; induction src as [|x src IH]; intros [|y dst]; simpl; intros; try done; [lia|].
  f_equal. apply IH. lia.
Qed.

Lemma drop_zeros n m : drop n (zeros m) = zeros (m - n).
Proof. unfold zeros. apply drop_replicate. Qed.

(** On a zeroed buffer [ReadBits] leaves the big-endian encoding, cut to the
    length of the buffer. *)
Lemma ReadBits_zeros x n : ReadBits x (zeros n) = be_bytes n (Z.abs x).
Proof.
  unfold ReadBits, be_bytes. f_equal.
  rewrite concat_words_bytes, Bits_sum by apply Bits_word.
  unfold zeros. rewrite reverse_replicate. fold (zeros n).
  set (k := (8 * length (Bits x))%nat).
  destruct (decide (n <= k)%nat) as [H|H].
  - rewrite overlay_take by (unfold zeros; rewrite length_replicate, length_le_bytes; done).
    unfold zeros at 1. rewrite length_replicate.
    replace k with (n + (k - n))%nat by lia. rewrite le_bytes_add.
    by rewrite take_app_length' by (symmetry; apply length_le_bytes).
  - rewrite overlay_app by (unfold zeros; rewrite length_replicate, length_le_bytes; lia).
    rewrite length_le_bytes, drop_zeros.
    replace n with (k + (n - k))%nat at 2 by lia. rewrite le_bytes_add. f_equal.
    replace (256 ^ Z.of_nat k) with (2 ^ (64 * Z.of_nat (length (Bits x)))).
    + rewrite Bits_beyond by done. by rewrite le_bytes_zero.
    + change 256 with (2 ^ 8). rewrite <- Z.pow_mul_r by lia. f_equal. lia.
Qed.

(** [math.PaddedBigBytes] encodes every non-negative integer so that
    reading the bytes back gives the integer, in at least [n] bytes. *)
Theorem PaddedBigBytes_roundtrip x n :
  0 <= x → 0 <= n →
  SetBytes (PaddedBigBytes x n) = x ∧ n <= zlen (PaddedBigBytes x n).
Proof.
  intros Hx Hn. unfold PaddedBigBytes.
  pose proof (BitLen_nonneg x) as HB.
  pose proof (Z.div_mod (BitLen x) 8). pose proof (Z.mod_pos_bound (BitLen x) 8).
  zcases.
  - rewrite SetBytes_Bytes, Z.abs_eq by lia. split; [done|].
    unfold zlen, Bytes. rewrite length_be_bytes, Z2Nat.id by (apply Z.div_pos; lia).
    pose proof (Z.div_le_mono (BitLen x) (BitLen x + 7) 8). lia.
  - rewrite ReadBits_zeros, SetBytes_be_bytes, Z.abs_eq by lia. unfold zlen.
    rewrite length_be_bytes, Z2Nat.id by lia. split; [|lia].
    apply Z.mod_small. split; [done|].
    assert (BitLen x <= 8 * n) as Hle by lia.
    apply BitLen_le in Hle; [|lia]. rewrite Z.abs_eq in Hle by done.
    change 256 with (2 ^ 8). by rewrite <- Z.pow_mul_r by lia.
Qed.

Lemma PaddedBigBytes_roundtrip_witness :
  SetBytes (PaddedBigBytes 258 4) = 258 ∧ 4 <= zlen (PaddedBigBytes 258 4).
Proof. apply (PaddedBigBytes_roundtrip 258 4); lia. Defined.

(** The byte [n] places from the least significant one. *)
Lemma bigEndianByteAt_spec x n :
  0 <= n → bz (bigEndianByteAt x n) = (Z.abs x / 256 ^ n) mod 256.
Proof.
  intros Hn. unfold bigEndianByteAt. change (Z.of_nat wordBytes) with 8.
  pose proof (Z.div_mod n 8 ltac:(lia)) as Hdm. pose proof (Z.mod_pos_bound n 8 ltac:(lia)).
  assert (0 <= n / 8) by (apply Z.div_pos; lia).
  assert (256 ^ n = 2 ^ (64 * (n / 8)) * 2 ^ (8 * (n mod 8))) as Hp.
  { change 256 with (2 ^ 8). rewrite <- Z.pow_mul_r, <- Z.pow_add_r by lia. f_equal. lia. }
  rewrite Hp, <- Z.div_div by (try apply Z.pow_nonzero; try apply Z.pow_pos_nonneg; lia).
  rewrite Bits_lookup, Z2Nat.id by lia. case_decide as Hi.
  - rewrite bz_zb, Z.shiftr_div_pow2 by lia. set (y := Z.abs x / 2 ^ (64 * (n / 8))).
    assert (2 ^ 64 = 2 ^ (8 * (n mod 8)) * 256 ^ (8 - n mod 8)) as H64.
    { change 256 with (2 ^ 8). rewrite <- Z.pow_mul_r, <- Z.pow_add_r by lia. f_equal. lia. }
    pose proof (Z.pow_pos_nonneg 2 (8 * (n mod 8))). pose proof (Z.pow_pos_nonneg 256 (8 - n mod 8)).
    rewrite H64, Z.rem_mul_r by lia. set (P := 2 ^ (8 * (n mod 8))) in *.
    rewrite (Z.mul_comm P), Z.div_add by lia.
    rewrite (Z.div_small (y mod _)) by (apply Z.mod_pos_bound; lia). rewrite Z.add_0_l.
    replace (8 - n mod 8) with (Z.succ (7 - n mod 8)) by lia. rewrite Z.pow_succ_r by lia.
    pose proof (Z.pow_pos_nonneg 256 (7 - n mod 8)).
    rewrite Z.rem_mul_r by lia. rewrite (Z.mul_comm 256), Z.mod_add, Z.mod_mod by lia. done.
  - rewrite <- (Z2Nat.id (n / 8)) by lia. rewrite (Bits_beyond x) by lia.
    by rewrite Z.div_0_l by (apply Z.pow_nonzero; lia).
Qed.

Lemma Byte_at_spec x padlength n :
  0 <= n < padlength → bz (Byte_at x padlength n) = (Z.abs x / 256 ^ (padlength - 1 - n)) mod 256.
Proof. intros H. unfold Byte_at. zcases; [lia|]. apply bigEndianByteAt_spec. lia. Qed.

(** ** Lemmas: checked arithmetic *)

Lemma SafeAdd_spec x y :
  is_uint64 x → is_uint64 y →
  SafeAdd x y = if x + y <=? MaxUint64 then (x + y, false) else (x + y - 2 ^ 64, true).
Proof.
  unfold is_uint64, SafeAdd, MaxUint64, uint64. intros. zcases; try lia.
  - rewrite <- (Z.mod_add _ (-1)) by lia. by rewrite Z.mod_small by lia.
  - by rewrite Z.mod_small by lia.
Qed.

Lemma SafeMul_spec x y :
  is_uint64 x → is_uint64 y →
  SafeMul x y = if x * y <=? MaxUint64 then (x * y, false) else (uint64 (x * y), true).
Proof.
  unfold is_uint64, SafeMul, MaxUint64. intros Hx Hy.
  destruct (Z.eqb_spec x 0) as [->|Hx0]; [done|].
  destruct (Z.eqb_spec y 0) as [->|Hy0]; [by rewrite Z.mul_0_r|]. simpl.
  pose proof (Z.div_mod (2 ^ 64 - 1) x ltac:(lia)).
  pose proof (Z.mod_pos_bound (2 ^ 64 - 1) x ltac:(lia)).
  zcases; try (exfalso; nia); try done. rewrite uint64_id; [done|]. unfold is_uint64. nia.
Qed.

(** the overflow flag of [SafeAdd], [SafeSub] and [SafeMul] is set exactly
    when the mathematical result is outside the 64-bit range, and the result is
    exact when it is not. *)
Theorem Safe_ops_exact x y :
  is_uint64 x → is_uint64 y →
  ((SafeAdd x y).2 = true ↔ ¬ is_uint64 (x + y)) ∧
  ((SafeSub x y).2 = true ↔ ¬ is_uint64 (x - y)) ∧
  ((SafeMul x y).2 = true ↔ ¬ is_uint64 (x * y)) ∧
  ((SafeAdd x y).2 = false → (SafeAdd x y).1 = x + y) ∧
  ((SafeSub x y).2 = false → (SafeSub x y).1 = x - y) ∧
  ((SafeMul x y).2 = false → (SafeMul x y).1 = x * y).
Proof.
  intros Hx Hy. rewrite SafeAdd_spec, SafeMul_spec by done.
  unfold SafeSub, is_uint64, MaxUint64 in *.
  assert (0 <= x * y) by nia.
  zcases; simpl; repeat split; intros; try done; try lia; apply uint64_id; unfold is_uint64; lia.
Qed.

Lemma Safe_ops_exact_witness :
  (SafeMul (2 ^ 40) (2 ^ 40)).2 = true ∧ (SafeAdd 5 7).1 = 12.
Proof.
  destruct (Safe_ops_exact (2 ^ 40) (2 ^ 40)) as (_ & _ & Hm & _);
    [unfold is_uint64; lia..|].
  destruct (Safe_ops_exact 5 7) as (_ & _ & _ & Ha & _); [unfold is_uint64; lia..|].
  split; [apply Hm; unfold is_uint64; lia|]. rewrite Ha; reflexivity.
Defined.

Lemma FirstBitSet_loop_spec n i v :
  (∀ j, 0 <= j < i → Z.testbit v j = false) → 0 <= i →
  i + Z.of_nat n = BitLen v →
  let r := FirstBitSet_loop n i v in
  (∀ j, 0 <= j < r → Z.testbit v j = false) ∧ (r < BitLen v → Z.testbit v r = true) ∧
  0 <= r <= BitLen v.
Proof.
  revert i; induction n as [|n IH]; intros i Hlow Hi Hn; cbn [FirstBitSet_loop].
  - replace (BitLen v) with i by lia. repeat split; [done|lia..].
  - destruct (Z.testbit v i) eqn:E.
    + repeat split; [done|done|lia..].
    + apply IH; [|lia..]. intros j Hj.
      destruct (decide (j = i)) as [->|]; [done|]. apply Hlow. lia.
Qed.

Lemma FirstBitSet_spec v :
  let r := FirstBitSet v in
  (∀ j, 0 <= j < r → Z.testbit v j = false) ∧ (r < BitLen v → Z.testbit v r = true) ∧
  0 <= r <= BitLen v.
Proof.
  apply FirstBitSet_loop_spec; [lia..|].
  pose proof (BitLen_nonneg v). lia.
Qed.

(** ** Lemmas: padding *)

Lemma RightPadBytes_spec slice l :
  RightPadBytes slice l = slice ++ zeros (Z.to_nat (l - zlen slice)).
Proof.
  unfold RightPadBytes, zlen. zcases.
  - replace (Z.to_nat (l - Z.of_nat (length slice))) with 0%nat by lia.
    by rewrite app_nil_r.
  - rewrite overlay_app by (unfold zeros; rewrite length_replicate; lia).
    rewrite drop_zeros. do 2 f_equal. lia.
Qed.

Lemma zlen_RightPadBytes slice l : zlen (RightPadBytes slice l) = Z.max l (zlen slice).
Proof.
  rewrite RightPadBytes_spec. unfold zlen, zeros. rewrite length_app, length_replicate. lia.
Qed.

Lemma SetBytes_LeftPadBytes slice l : SetBytes (LeftPadBytes slice l) = SetBytes slice.
Proof.
  unfold LeftPadBytes. zcases; [done|]. rewrite SetBytes_app, SetBytes_zeros. lia.
Qed.

(** ** Lemmas: addresses and hashes *)

Lemma SetBytes_drop l n :
  (n <= length l)%nat → SetBytes (drop n l) = SetBytes l mod 256 ^ Z.of_nat (length l - n).
Proof.
  intros Hn. rewrite <- (take_drop n l) at 2. rewrite SetBytes_app.
  assert (zlen (drop n l) = Z.of_nat (length l - n)) as E by (unfold zlen; rewrite length_drop; lia).
  rewrite E, Z.add_comm, Z.mod_add by (pose proof (pow256_pos (length l - n)); lia).
  symmetry. apply Z.mod_small. split; [apply SetBytes_nonneg|].
  rewrite <- E. apply SetBytes_bound.
Qed.

Lemma BytesToHash_mod b : BytesToHash b = SetBytes b mod 2 ^ 256.
Proof.
  unfold BytesToHash, HashLength. case_decide as H.
  - rewrite SetBytes_drop by lia. replace (length b - (length b - 32))%nat with 32%nat by lia. done.
  - symmetry. apply Z.mod_small. split; [apply SetBytes_nonneg|].
    pose proof (SetBytes_bound b). change (2 ^ 256) with (256 ^ 32).
    pose proof (Z.pow_le_mono_r 256 (zlen b) 32 ltac:(lia) ltac:(unfold zlen; lia)). lia.
Qed.

Lemma HashBytes_BytesToHash l : length l = 32%nat → HashBytes (BytesToHash l) = l.
Proof.
  intros Hl. rewrite BytesToHash_mod. unfold HashBytes, HashLength. rewrite Z.mod_small.
  - rewrite <-Hl. apply be_bytes_SetBytes.
  - split; [apply SetBytes_nonneg|]. pose proof (SetBytes_bound l) as Hb. unfold zlen in Hb.
    by rewrite Hl in Hb.
Qed.

Lemma BytesToHash_HashBytes h : 0 <= h < 2 ^ 256 → BytesToHash (HashBytes h) = h.
Proof. intros Hh. rewrite BytesToHash_mod. unfold HashBytes, HashLength. rewrite SetBytes_be_bytes, Z.mod_mod by done. by apply Z.mod_small. Qed.

Lemma length_HashBytes h : length (HashBytes h) = 32%nat.
Proof. apply length_be_bytes. Qed.

Lemma BytesToHash_inj a b : length a = 32%nat → length b = 32%nat → BytesToHash a = BytesToHash b → a = b.
Proof. intros Ha Hb E. rewrite <-(HashBytes_BytesToHash a), <-(HashBytes_BytesToHash b), E by done. done. Qed.

Lemma BytesToHash_range b : 0 <= BytesToHash b < 2 ^ 256.
Proof. rewrite BytesToHash_mod. apply Z.mod_pos_bound. lia. Qed.

Lemma BytesToAddress_mod b : BytesToAddress b = SetBytes b mod 2 ^ 160.
Proof.
  unfold BytesToAddress, AddressLength. case_decide as H.
  - rewrite SetBytes_drop by lia. replace (length b - (length b - 20))%nat with 20%nat by lia. done.
  - symmetry. apply Z.mod_small. split; [apply SetBytes_nonneg|].
    pose proof (SetBytes_bound b). change (2 ^ 160) with (256 ^ 20).
    pose proof (Z.pow_le_mono_r 256 (zlen b) 20 ltac:(lia) ltac:(unfold zlen; lia)). lia.
Qed.

Lemma BigToHash_id x : is_u256 x → BigToHash x = x.
Proof.
  intros H. unfold BigToHash. rewrite BytesToHash_mod, SetBytes_Bytes, Z.abs_eq by (destruct H; lia).
  by apply Z.mod_small.
Qed.

Lemma BigToAddress_mod x : 0 <= x → BigToAddress x = x mod 2 ^ 160.
Proof.
  intros H. unfold BigToAddress. by rewrite BytesToAddress_mod, SetBytes_Bytes, Z.abs_eq.
Qed.

Lemma zlen_Bytes_bound x n : 0 <= n → 0 <= x < 256 ^ n → zlen (Bytes x) <= n.
Proof.
  intros Hn Hx. unfold Bytes, zlen. rewrite length_be_bytes.
  assert (BitLen x <= 8 * n).
  { apply BitLen_le; [lia|]. rewrite Z.pow_mul_r, Z.abs_eq by lia. apply Hx. }
  pose proof (BitLen_nonneg x). pose proof (Z.div_mod (BitLen x + 7) 8).
  pose proof (Z.mod_pos_bound (BitLen x + 7) 8). lia.
Qed.

#[export] Hint Resolve U256_range Uint64_range BitLen_nonneg : yoc.
