(* ===== verification/Params.v ===== *)
(** * Chain parameters

    [params/config.go] (fork schedule and its compatibility check),
    [params/gas_table.go] and [params/protocol_params.go]. *)
From S2P Require Import Prelude BigMath.

(** ** params/protocol_params.go *)

Notation GasLimitBoundDivisor := 1024 (only parsing).
Notation MinGasLimit := 5000 (only parsing).
Notation GenesisGasLimit := 4712388 (only parsing).
Notation MaximumExtraDataSize := 32 (only parsing).
Notation CallValueTransferGas := 9000 (only parsing).
Notation CallNewAccountGas := 25000 (only parsing).
Notation TxGas := 21000 (only parsing).
Notation TxGasContractCreation := 53000 (only parsing).
Notation TxDataZeroGas := 4 (only parsing).
Notation QuadCoeffDiv := 512 (only parsing).
Notation SstoreSetGas := 20000 (only parsing).
Notation LogDataGas := 8 (only parsing).
Notation CallStipend := 2300 (only parsing).
Notation Sha3Gas := 30 (only parsing).
Notation Sha3WordGas := 6 (only parsing).
Notation SstoreResetGas := 5000 (only parsing).
Notation SstoreClearGas := 5000 (only parsing).
Notation SstoreRefundGas := 15000 (only parsing).
Notation JumpdestGas := 1 (only parsing).
Notation CreateDataGas := 200 (only parsing).
Notation CallCreateDepth := 1024 (only parsing).
Notation LogGas := 375 (only parsing).
Notation CopyGas := 3 (only parsing).
Notation StackLimit := 1024 (only parsing).
Notation LogTopicGas := 375 (only parsing).
Notation CreateGas := 32000 (only parsing).
Notation Create2Gas := 32000 (only parsing).
Notation SuicideRefundGas := 24000 (only parsing).
Notation MemoryGas := 3 (only parsing).
Notation TxDataNonZeroGas := 68 (only parsing).
Notation MaxCodeSize := 24576 (only parsing).
Notation EcrecoverGas := 3000 (only parsing).
Notation Sha256BaseGas := 60 (only parsing).
Notation Sha256PerWordGas := 12 (only parsing).
Notation Ripemd160BaseGas := 600 (only parsing).
Notation Ripemd160PerWordGas := 120 (only parsing).
Notation IdentityBaseGas := 15 (only parsing).
Notation IdentityPerWordGas := 3 (only parsing).
Notation ModExpQuadCoeffDiv := 20 (only parsing).
Notation Bn256AddGas := 500 (only parsing).
Notation Bn256ScalarMulGas := 40000 (only parsing).
Notation Bn256PairingBaseGas := 100000 (only parsing).
Notation Bn256PairingPerPointGas := 80000 (only parsing).

(** ** params/gas_table.go *)

Record GasTable := {
  gtExtcodeSize : Z;
  gtExtcodeCopy : Z;
  gtExtcodeHash : Z;
  gtBalance : Z;
  gtSLoad : Z;
  gtCalls : Z;
  gtSuicide : Z;
  gtExpByte : Z;
  gtCreateBySuicide : Z
}.

Definition GasTableHomestead : GasTable := {|
  gtExtcodeSize := 20; gtExtcodeCopy := 20; gtExtcodeHash := 0; gtBalance := 20;
  gtSLoad := 50; gtCalls := 40; gtSuicide := 0; gtExpByte := 10; gtCreateBySuicide := 0 |}.

Definition GasTableEIP150 : GasTable := {|
  gtExtcodeSize := 700; gtExtcodeCopy := 700; gtExtcodeHash := 0; gtBalance := 400;
  gtSLoad := 200; gtCalls := 700; gtSuicide := 5000; gtExpByte := 10; gtCreateBySuicide := 25000 |}.

Definition GasTableEIP158 : GasTable := {|
  gtExtcodeSize := 700; gtExtcodeCopy := 700; gtExtcodeHash := 0; gtBalance := 400;
  gtSLoad := 200; gtCalls := 700; gtSuicide := 5000; gtExpByte := 50; gtCreateBySuicide := 25000 |}.

Definition GasTableConstantinople : GasTable := {|
  gtExtcodeSize := 700; gtExtcodeCopy := 700; gtExtcodeHash := 400; gtBalance := 400;
  gtSLoad := 200; gtCalls := 700; gtSuicide := 5000; gtExpByte := 50; gtCreateBySuicide := 25000 |}.

(** ** params/config.go *)

Record CliqueConfig := {
  cliquePeriod : Z;
  cliqueEpoch : Z
}.

(** A [nil] block number is [None]; [Yochash] says whether that engine's
    (empty) configuration is present. *)
Record ChainConfig := {
  ChainID : option Z;
  HomesteadBlock : option Z;
  DAOForkBlock : option Z;
  DAOForkSupport : bool;
  EIP150Block : option Z;
  EIP150Hash : Hash;
  EIP155Block : option Z;
  EIP158Block : option Z;
  ByzantiumBlock : option Z;
  ConstantinopleBlock : option Z;
  Yochash : bool;
  Clique : option CliqueConfig
}.

Definition MainnetChainConfig : ChainConfig := {|
  ChainID := Some 13; HomesteadBlock := Some 0; DAOForkBlock := None; DAOForkSupport := false;
  EIP150Block := None; EIP150Hash := 0; EIP155Block := Some 0; EIP158Block := Some 0;
  ByzantiumBlock := None; ConstantinopleBlock := None; Yochash := true; Clique := None |}.

Definition TestnetChainConfig : ChainConfig := {|
  ChainID := Some 3; HomesteadBlock := Some 0; DAOForkBlock := None; DAOForkSupport := true;
  EIP150Block := Some 0;
  EIP150Hash := 0x41941023680923e0fe4d74a34bdac8141f2540e3ae90623718e47d66d1ca4a2d;
  EIP155Block := Some 10; EIP158Block := Some 10;
  ByzantiumBlock := Some 1700000; ConstantinopleBlock := None; Yochash := true; Clique := None |}.

Definition RinkebyChainConfig : ChainConfig := {|
  ChainID := Some 4; HomesteadBlock := Some 1; DAOForkBlock := None; DAOForkSupport := true;
  EIP150Block := Some 2;
  EIP150Hash := 0x9b095b36c15eaf13044373aef8ee0bd3a382a5abb92e402afa44b8249c3a90e9;
  EIP155Block := Some 3; EIP158Block := Some 3;
  ByzantiumBlock := Some 1035301; ConstantinopleBlock := None; Yochash := false;
  Clique := Some {| cliquePeriod := 15; cliqueEpoch := 30000 |} |}.

Definition isForked (s head : option Z) : bool :=
  match s, head with
  | Some s, Some head => s <=? head
  | _, _ => false
  end.

Definition IsHomestead (c : ChainConfig) (num : Z) : bool := isForked (HomesteadBlock c) (Some num).
Definition IsDAOFork (c : ChainConfig) (num : Z) : bool := isForked (DAOForkBlock c) (Some num).
Definition IsEIP150 (c : ChainConfig) (num : Z) : bool := isForked (EIP150Block c) (Some num).
Definition IsEIP155 (c : ChainConfig) (num : Z) : bool := isForked (EIP155Block c) (Some num).
Definition IsEIP158 (c : ChainConfig) (num : Z) : bool := isForked (EIP158Block c) (Some num).
Definition IsByzantium (c : ChainConfig) (num : Z) : bool := isForked (ByzantiumBlock c) (Some num).
Definition IsConstantinople (c : ChainConfig) (num : Z) : bool :=
  isForked (ConstantinopleBlock c) (Some num).

Definition getGasTable (c : ChainConfig) (num : Z) : GasTable :=
  if IsConstantinople c num then GasTableConstantinople
  else if IsEIP158 c num then GasTableEIP158
  else if IsEIP150 c num then GasTableEIP150
  else GasTableHomestead.

Definition configNumEqual (x y : option Z) : bool :=
  match x, y with
  | None, None => true
  | Some x, Some y => x =? y
  | _, _ => false
  end.

Definition isForkIncompatible (s1 s2 : option Z) (head : Z) : bool :=
  (isForked s1 (Some head) || isForked s2 (Some head)) && negb (configNumEqual s1 s2).

Record ConfigCompatError := {
  What : string;
  StoredConfig : option Z;
  NewConfig : option Z;
  RewindTo : Z
}.

Definition newCompatError (what : string) (storedblock newblock : option Z) : ConfigCompatError :=
  let rew :=
    match storedblock, newblock with
    | None, _ => newblock
    | _, None => storedblock
    | Some s, Some n => if s <? n then storedblock else newblock
    end in
  {| What := what; StoredConfig := storedblock; NewConfig := newblock;
     RewindTo := match rew with
                 | Some r => if 0 <? r then uint64 (Uint64 r - 1) else 0
                 | None => 0
                 end |}.

Definition checkCompatible (c newcfg : ChainConfig) (head : Z) : option ConfigCompatError :=
  if isForkIncompatible (HomesteadBlock c) (HomesteadBlock newcfg) head then
    Some (newCompatError "Homestead fork block" (HomesteadBlock c) (HomesteadBlock newcfg))
  else if isForkIncompatible (DAOForkBlock c) (DAOForkBlock newcfg) head then
    Some (newCompatError "DAO fork block" (DAOForkBlock c) (DAOForkBlock newcfg))
  else if IsDAOFork c head && negb (eqb (DAOForkSupport c) (DAOForkSupport newcfg)) then
    Some (newCompatError "DAO fork support flag" (DAOForkBlock c) (DAOForkBlock newcfg))
  else if isForkIncompatible (EIP150Block c) (EIP150Block newcfg) head then
    Some (newCompatError "EIP150 fork block" (EIP150Block c) (EIP150Block newcfg))
  else if isForkIncompatible (EIP155Block c) (EIP155Block newcfg) head then
    Some (newCompatError "EIP155 fork block" (EIP155Block c) (EIP155Block newcfg))
  else if isForkIncompatible (EIP158Block c) (EIP158Block newcfg) head then
    Some (newCompatError "EIP158 fork block" (EIP158Block c) (EIP158Block newcfg))
  else if IsEIP158 c head && negb (configNumEqual (ChainID c) (ChainID newcfg)) then
    Some (newCompatError "EIP158 chain ID" (EIP158Block c) (EIP158Block newcfg))
  else if isForkIncompatible (ByzantiumBlock c) (ByzantiumBlock newcfg) head then
    Some (newCompatError "Byzantium fork block" (ByzantiumBlock c) (ByzantiumBlock newcfg))
  else if isForkIncompatible (ConstantinopleBlock c) (ConstantinopleBlock newcfg) head then
    Some (newCompatError "Constantinople fork block" (ConstantinopleBlock c) (ConstantinopleBlock newcfg))
  else None.

(** The loop of [CheckCompatible]; [None] when the fuel runs out. *)
Fixpoint CheckCompatible_loop (fuel : nat) (c newcfg : ChainConfig) (bhead : Z)
    (lasterr : option ConfigCompatError) : option (option ConfigCompatError) :=
  match fuel with
  | O => None
  | S fuel =>
      match checkCompatible c newcfg bhead with
      | None => Some lasterr
      | Some err =>
          match lasterr with
          | Some l =>
              if RewindTo err =? RewindTo l then Some lasterr
              else CheckCompatible_loop fuel c newcfg (RewindTo err) (Some err)
          | None => CheckCompatible_loop fuel c newcfg (RewindTo err) (Some err)
          end
      end
  end.

(** The head decreases at each round but the last two. *)
Definition CheckCompatible (c newcfg : ChainConfig) (height : Z) : option (option ConfigCompatError) :=
  CheckCompatible_loop (Z.to_nat height + 2) c newcfg height None.

Record Rules := {
  rulesChainID : Z;
  rulesIsHomestead : bool;
  rulesIsEIP150 : bool;
  rulesIsEIP155 : bool;
  rulesIsEIP158 : bool;
  rulesIsByzantium : bool
}.

Definition getRules (c : ChainConfig) (num : Z) : Rules := {|
  rulesChainID := match ChainID c with Some i => i | None => 0 end;
  rulesIsHomestead := IsHomestead c num;
  rulesIsEIP150 := IsEIP150 c num;
  rulesIsEIP155 := IsEIP155 c num;
  rulesIsEIP158 := IsEIP158 c num;
  rulesIsByzantium := IsByzantium c num |}.

(** ** Lemmas *)

(** The table in force is one of the four of [params/gas_table.go]. *)
Lemma getGasTable_cases c num :
  getGasTable c num = GasTableHomestead ∨ getGasTable c num = GasTableEIP150 ∨
  getGasTable c num = GasTableEIP158 ∨ getGasTable c num = GasTableConstantinople.
Proof. unfold getGasTable. repeat case_match; auto. Qed.

Lemma newCompatError_rewind what s1 s2 head :
  is_uint64 head →
  isForked s1 (Some head) || isForked s2 (Some head) = true →
  0 <= RewindTo (newCompatError what s1 s2) ∧
  (0 < RewindTo (newCompatError what s1 s2) → RewindTo (newCompatError what s1 s2) < head) ∧
  RewindTo (newCompatError what s1 s2) <= head.
Proof.
  assert (∀ r, 0 < r <= head → is_uint64 head →
            uint64 (Uint64 r - 1) = r - 1) as Hr.
  { intros r ? [? ?]. rewrite Uint64_id by (unfold is_uint64; lia).
    apply uint64_id. unfold is_uint64. lia. }
  intros Hh Hf. destruct Hh as [Hh0 Hh1] eqn:E. clear E.
  unfold newCompatError. cbn [RewindTo].
  destruct s1 as [s|], s2 as [n|]; simpl in Hf; zcases_in Hf; try discriminate;
    zcases; try lia; rewrite !Hr by (try split; lia); lia.
Qed.

Lemma checkCompatible_rewind c n head err :
  is_uint64 head → checkCompatible c n head = Some err →
  0 <= RewindTo err ∧ (0 < RewindTo err → RewindTo err < head) ∧ RewindTo err <= head.
Proof.
  intros Hh. unfold checkCompatible, isForkIncompatible, IsDAOFork, IsEIP158.
  repeat case_match; intros He; simplify_eq; apply newCompatError_rewind; try done;
    match goal with H : _ && _ = true |- _ => apply andb_true_iff in H as [H _] end;
    (done || by apply orb_true_intro; left).
Qed.

Lemma CheckCompatible_loop_spec fuel c n bhead l :
  is_uint64 bhead → bhead = RewindTo l → bhead + 1 <= Z.of_nat fuel →
  ∃ e, CheckCompatible_loop fuel c n bhead (Some l) = Some (Some e) ∧
       is_uint64 (RewindTo e) ∧ RewindTo e <= bhead ∧
       (checkCompatible c n (RewindTo e) = None ∨ RewindTo e = 0).
Proof.
  revert bhead l; induction fuel as [|fuel IH]; intros bhead l [Hb0 Hb1] Hl Hf; [lia|].
  cbn [CheckCompatible_loop].
  destruct (checkCompatible c n bhead) as [err|] eqn:E.
  - destruct (checkCompatible_rewind c n bhead err) as (H0 & H1 & H2); [done..|].
    zcases.
    + exists l. split; [done|]. split; [split; lia|]. split; [lia|right; lia].
    + destruct (IH (RewindTo err) err) as (e & -> & ? & ? & ?);
        [split; lia|done|lia|]. exists e. do 2 (split; [done|]). split; [lia|done].
  - exists l. split; [done|]. split; [split; lia|]. split; [lia|]. left. by rewrite <- Hl.
Qed.

(** [CheckCompatible] terminates on every pair of configurations; it
    reports no conflict exactly when there is none at the given height, and a
    reported conflict carries a height to rewind to, not above the given one,
    at which the two configurations no longer conflict (or 0). *)
Theorem CheckCompatible_correct c n height :
  is_uint64 height →
  match CheckCompatible c n height with
  | None => False
  | Some None => checkCompatible c n height = None
  | Some (Some e) =>
      checkCompatible c n height ≠ None ∧ 0 <= RewindTo e <= height ∧
      (checkCompatible c n (RewindTo e) = None ∨ RewindTo e = 0)
  end.
Proof.
  intros [Hh0 Hh1]. unfold CheckCompatible.
  replace (Z.to_nat height + 2)%nat with (S (Z.to_nat height + 1)) by lia.
  cbn [CheckCompatible_loop]. destruct (checkCompatible c n height) as [err|] eqn:E; [|done].
  destruct (checkCompatible_rewind c n height err) as (H0 & H1 & H2); [done..|].
  destruct (CheckCompatible_loop_spec (Z.to_nat height + 1) c n (RewindTo err) err)
    as (e & -> & [? ?] & ? & ?); [split; lia|done|lia|].
  repeat split; [done|lia..|done].
Qed.

Lemma CheckCompatible_correct_witness :
  match CheckCompatible TestnetChainConfig RinkebyChainConfig 5 with
  | None => False
  | Some None => checkCompatible TestnetChainConfig RinkebyChainConfig 5 = None
  | Some (Some e) =>
      checkCompatible TestnetChainConfig RinkebyChainConfig 5 ≠ None ∧ 0 <= RewindTo e <= 5 ∧
      (checkCompatible TestnetChainConfig RinkebyChainConfig (RewindTo e) = None ∨ RewindTo e = 0)
  end.
Proof. apply (CheckCompatible_correct TestnetChainConfig RinkebyChainConfig 5). unfold is_uint64. lia. Defined.
