(* ===== verification/OpCodes.v ===== *)
(** * Opcodes: [core/vm/opcodes.go]

    The constants are abbreviations; the two tables of names and the functions
    that read them, with the round trip between opcodes and their names. *)
From Stdlib Require Import Strings.String.
From S2P Require Import Prelude.

Notation OpCode := Z (only parsing).

(** 0x0 range - arithmetic ops. *)
Notation STOP := 0x00 (only parsing).
Notation ADD := 0x01 (only parsing).
Notation MUL := 0x02 (only parsing).
Notation SUB := 0x03 (only parsing).
Notation DIV := 0x04 (only parsing).
Notation SDIV := 0x05 (only parsing).
Notation MOD := 0x06 (only parsing).
Notation SMOD := 0x07 (only parsing).
Notation ADDMOD := 0x08 (only parsing).
Notation MULMOD := 0x09 (only parsing).
Notation EXP := 0x0a (only parsing).
Notation SIGNEXTEND := 0x0b (only parsing).

(** 0x10 range - comparison ops. *)
Notation LT := 0x10 (only parsing).
Notation GT := 0x11 (only parsing).
Notation SLT := 0x12 (only parsing).
Notation SGT := 0x13 (only parsing).
Notation EQ := 0x14 (only parsing).
Notation ISZERO := 0x15 (only parsing).
Notation AND := 0x16 (only parsing).
Notation OR := 0x17 (only parsing).
Notation XOR := 0x18 (only parsing).
Notation NOT := 0x19 (only parsing).
Notation BYTE := 0x1a (only parsing).
Notation SHL := 0x1b (only parsing).
Notation SHR := 0x1c (only parsing).
Notation SAR := 0x1d (only parsing).
Notation SHA3 := 0x20 (only parsing).

(** 0x30 range - closure state. *)
Notation ADDRESS := 0x30 (only parsing).
Notation BALANCE := 0x31 (only parsing).
Notation ORIGIN := 0x32 (only parsing).
Notation CALLER := 0x33 (only parsing).
Notation CALLVALUE := 0x34 (only parsing).
Notation CALLDATALOAD := 0x35 (only parsing).
Notation CALLDATASIZE := 0x36 (only parsing).
Notation CALLDATACOPY := 0x37 (only parsing).
Notation CODESIZE := 0x38 (only parsing).
Notation CODECOPY := 0x39 (only parsing).
Notation GASPRICE := 0x3a (only parsing).
Notation EXTCODESIZE := 0x3b (only parsing).
Notation EXTCODECOPY := 0x3c (only parsing).
Notation RETURNDATASIZE := 0x3d (only parsing).
Notation RETURNDATACOPY := 0x3e (only parsing).
Notation EXTCODEHASH := 0x3f (only parsing).

(** 0x40 range - block operations. *)
Notation BLOCKHASH := 0x40 (only parsing).
Notation COINBASE := 0x41 (only parsing).
Notation TIMESTAMP := 0x42 (only parsing).
Notation NUMBER := 0x43 (only parsing).
Notation DIFFICULTY := 0x44 (only parsing).
Notation GASLIMIT := 0x45 (only parsing).

(** 0x50 range - 'storage' and execution. *)
Notation POP := 0x50 (only parsing).
Notation MLOAD := 0x51 (only parsing).
Notation MSTORE := 0x52 (only parsing).
Notation MSTORE8 := 0x53 (only parsing).
Notation SLOAD := 0x54 (only parsing).
Notation SSTORE := 0x55 (only parsing).
Notation JUMP := 0x56 (only parsing).
Notation JUMPI := 0x57 (only parsing).
Notation PC := 0x58 (only parsing).
Notation MSIZE := 0x59 (only parsing).
Notation GAS := 0x5a (only parsing).
Notation JUMPDEST := 0x5b (only parsing).

(** 0x60 range. *)
Notation PUSH1 := 0x60 (only parsing).
Notation PUSH2 := 0x61 (only parsing).
Notation PUSH3 := 0x62 (only parsing).
Notation PUSH4 := 0x63 (only parsing).
Notation PUSH5 := 0x64 (only parsing).
Notation PUSH6 := 0x65 (only parsing).
Notation PUSH7 := 0x66 (only parsing).
Notation PUSH8 := 0x67 (only parsing).
Notation PUSH9 := 0x68 (only parsing).
Notation PUSH10 := 0x69 (only parsing).
Notation PUSH11 := 0x6a (only parsing).
Notation PUSH12 := 0x6b (only parsing).
Notation PUSH13 := 0x6c (only parsing).
Notation PUSH14 := 0x6d (only parsing).
Notation PUSH15 := 0x6e (only parsing).
Notation PUSH16 := 0x6f (only parsing).
Notation PUSH17 := 0x70 (only parsing).
Notation PUSH18 := 0x71 (only parsing).
Notation PUSH19 := 0x72 (only parsing).
Notation PUSH20 := 0x73 (only parsing).
Notation PUSH21 := 0x74 (only parsing).
Notation PUSH22 := 0x75 (only parsing).
Notation PUSH23 := 0x76 (only parsing).
Notation PUSH24 := 0x77 (only parsing).
Notation PUSH25 := 0x78 (only parsing).
Notation PUSH26 := 0x79 (only parsing).
Notation PUSH27 := 0x7a (only parsing).
Notation PUSH28 := 0x7b (only parsing).
Notation PUSH29 := 0x7c (only parsing).
Notation PUSH30 := 0x7d (only parsing).
Notation PUSH31 := 0x7e (only parsing).
Notation PUSH32 := 0x7f (only parsing).
Notation DUP1 := 0x80 (only parsing).
Notation DUP2 := 0x81 (only parsing).
Notation DUP3 := 0x82 (only parsing).
Notation DUP4 := 0x83 (only parsing).
Notation DUP5 := 0x84 (only parsing).
Notation DUP6 := 0x85 (only parsing).
Notation DUP7 := 0x86 (only parsing).
Notation DUP8 := 0x87 (only parsing).
Notation DUP9 := 0x88 (only parsing).
Notation DUP10 := 0x89 (only parsing).
Notation DUP11 := 0x8a (only parsing).
Notation DUP12 := 0x8b (only parsing).
Notation DUP13 := 0x8c (only parsing).
Notation DUP14 := 0x8d (only parsing).
Notation DUP15 := 0x8e (only parsing).
Notation DUP16 := 0x8f (only parsing).
Notation SWAP1 := 0x90 (only parsing).
Notation SWAP2 := 0x91 (only parsing).
Notation SWAP3 := 0x92 (only parsing).
Notation SWAP4 := 0x93 (only parsing).
Notation SWAP5 := 0x94 (only parsing).
Notation SWAP6 := 0x95 (only parsing).
Notation SWAP7 := 0x96 (only parsing).
Notation SWAP8 := 0x97 (only parsing).
Notation SWAP9 := 0x98 (only parsing).
Notation SWAP10 := 0x99 (only parsing).
Notation SWAP11 := 0x9a (only parsing).
Notation SWAP12 := 0x9b (only parsing).
Notation SWAP13 := 0x9c (only parsing).
Notation SWAP14 := 0x9d (only parsing).
Notation SWAP15 := 0x9e (only parsing).
Notation SWAP16 := 0x9f (only parsing).

(** 0xa0 range - logging ops. *)
Notation LOG0 := 0xa0 (only parsing).
Notation LOG1 := 0xa1 (only parsing).
Notation LOG2 := 0xa2 (only parsing).
Notation LOG3 := 0xa3 (only parsing).
Notation LOG4 := 0xa4 (only parsing).

(** unofficial opcodes used for parsing. *)
Notation PUSH := 0xb0 (only parsing).
Notation DUP := 0xb1 (only parsing).
Notation SWAP := 0xb2 (only parsing).

(** 0xf0 range - closures. *)
Notation CREATE := 0xf0 (only parsing).
Notation CALL := 0xf1 (only parsing).
Notation CALLCODE := 0xf2 (only parsing).
Notation RETURN := 0xf3 (only parsing).
Notation DELEGATECALL := 0xf4 (only parsing).
Notation CREATE2 := 0xf5 (only parsing).
Notation STATICCALL := 0xfa (only parsing).
Notation REVERT := 0xfd (only parsing).
Notation SELFDESTRUCT := 0xff (only parsing).

Definition IsPush (op : OpCode) : bool := (PUSH1 <=? op) && (op <=? PUSH32).

Definition IsStaticJump (op : OpCode) : bool := op =? JUMP.

(** ** Names *)

Definition opCodeToString : list (OpCode * string) :=
  [(STOP, "STOP"); (ADD, "ADD"); (MUL, "MUL"); (SUB, "SUB"); (DIV, "DIV"); (SDIV, "SDIV");
   (MOD, "MOD"); (SMOD, "SMOD"); (EXP, "EXP"); (NOT, "NOT"); (LT, "LT"); (GT, "GT"); (SLT, "SLT");
   (SGT, "SGT"); (EQ, "EQ"); (ISZERO, "ISZERO"); (SIGNEXTEND, "SIGNEXTEND"); (AND, "AND");
   (OR, "OR"); (XOR, "XOR"); (BYTE, "BYTE"); (SHL, "SHL"); (SHR, "SHR"); (SAR, "SAR");
   (ADDMOD, "ADDMOD"); (MULMOD, "MULMOD"); (SHA3, "SHA3"); (ADDRESS, "ADDRESS");
   (BALANCE, "BALANCE"); (ORIGIN, "ORIGIN"); (CALLER, "CALLER"); (CALLVALUE, "CALLVALUE");
   (CALLDATALOAD, "CALLDATALOAD"); (CALLDATASIZE, "CALLDATASIZE"); (CALLDATACOPY, "CALLDATACOPY");
   (CODESIZE, "CODESIZE"); (CODECOPY, "CODECOPY"); (GASPRICE, "GASPRICE");
   (EXTCODESIZE, "EXTCODESIZE"); (EXTCODECOPY, "EXTCODECOPY"); (RETURNDATASIZE, "RETURNDATASIZE");
   (RETURNDATACOPY, "RETURNDATACOPY"); (EXTCODEHASH, "EXTCODEHASH"); (BLOCKHASH, "BLOCKHASH");
   (COINBASE, "COINBASE"); (TIMESTAMP, "TIMESTAMP"); (NUMBER, "NUMBER");
   (DIFFICULTY, "DIFFICULTY"); (GASLIMIT, "GASLIMIT"); (POP, "POP"); (MLOAD, "MLOAD");
   (MSTORE, "MSTORE"); (MSTORE8, "MSTORE8"); (SLOAD, "SLOAD"); (SSTORE, "SSTORE"); (JUMP, "JUMP");
   (JUMPI, "JUMPI"); (PC, "PC"); (MSIZE, "MSIZE"); (GAS, "GAS"); (JUMPDEST, "JUMPDEST");
   (PUSH1, "PUSH1"); (PUSH2, "PUSH2"); (PUSH3, "PUSH3"); (PUSH4, "PUSH4"); (PUSH5, "PUSH5");
   (PUSH6, "PUSH6"); (PUSH7, "PUSH7"); (PUSH8, "PUSH8"); (PUSH9, "PUSH9"); (PUSH10, "PUSH10");
   (PUSH11, "PUSH11"); (PUSH12, "PUSH12"); (PUSH13, "PUSH13"); (PUSH14, "PUSH14");
   (PUSH15, "PUSH15"); (PUSH16, "PUSH16"); (PUSH17, "PUSH17"); (PUSH18, "PUSH18");
   (PUSH19, "PUSH19"); (PUSH20, "PUSH20"); (PUSH21, "PUSH21"); (PUSH22, "PUSH22");
   (PUSH23, "PUSH23"); (PUSH24, "PUSH24"); (PUSH25, "PUSH25"); (PUSH26, "PUSH26");
   (PUSH27, "PUSH27"); (PUSH28, "PUSH28"); (PUSH29, "PUSH29"); (PUSH30, "PUSH30");
   (PUSH31, "PUSH31"); (PUSH32, "PUSH32"); (DUP1, "DUP1"); (DUP2, "DUP2"); (DUP3, "DUP3");
   (DUP4, "DUP4"); (DUP5, "DUP5"); (DUP6, "DUP6"); (DUP7, "DUP7"); (DUP8, "DUP8"); (DUP9, "DUP9");
   (DUP10, "DUP10"); (DUP11, "DUP11"); (DUP12, "DUP12"); (DUP13, "DUP13"); (DUP14, "DUP14");
   (DUP15, "DUP15"); (DUP16, "DUP16"); (SWAP1, "SWAP1"); (SWAP2, "SWAP2"); (SWAP3, "SWAP3");
   (SWAP4, "SWAP4"); (SWAP5, "SWAP5"); (SWAP6, "SWAP6"); (SWAP7, "SWAP7"); (SWAP8, "SWAP8");
   (SWAP9, "SWAP9"); (SWAP10, "SWAP10"); (SWAP11, "SWAP11"); (SWAP12, "SWAP12");
   (SWAP13, "SWAP13"); (SWAP14, "SWAP14"); (SWAP15, "SWAP15"); (SWAP16, "SWAP16"); (LOG0, "LOG0");
   (LOG1, "LOG1"); (LOG2, "LOG2"); (LOG3, "LOG3"); (LOG4, "LOG4"); (CREATE, "CREATE");
   (CALL, "CALL"); (RETURN, "RETURN"); (CALLCODE, "CALLCODE"); (DELEGATECALL, "DELEGATECALL");
   (CREATE2, "CREATE2"); (STATICCALL, "STATICCALL"); (REVERT, "REVERT");
   (SELFDESTRUCT, "SELFDESTRUCT"); (PUSH, "PUSH"); (DUP, "DUP"); (SWAP, "SWAP")].

Definition stringToOp : list (string * OpCode) :=
  [("STOP", STOP); ("ADD", ADD); ("MUL", MUL); ("SUB", SUB); ("DIV", DIV); ("SDIV", SDIV);
   ("MOD", MOD); ("SMOD", SMOD); ("EXP", EXP); ("NOT", NOT); ("LT", LT); ("GT", GT); ("SLT", SLT);
   ("SGT", SGT); ("EQ", EQ); ("ISZERO", ISZERO); ("SIGNEXTEND", SIGNEXTEND); ("AND", AND);
   ("OR", OR); ("XOR", XOR); ("BYTE", BYTE); ("SHL", SHL); ("SHR", SHR); ("SAR", SAR);
   ("ADDMOD", ADDMOD); ("MULMOD", MULMOD); ("SHA3", SHA3); ("ADDRESS", ADDRESS);
   ("BALANCE", BALANCE); ("ORIGIN", ORIGIN); ("CALLER", CALLER); ("CALLVALUE", CALLVALUE);
   ("CALLDATALOAD", CALLDATALOAD); ("CALLDATASIZE", CALLDATASIZE); ("CALLDATACOPY", CALLDATACOPY);
   ("DELEGATECALL", DELEGATECALL); ("STATICCALL", STATICCALL); ("CODESIZE", CODESIZE);
   ("CODECOPY", CODECOPY); ("GASPRICE", GASPRICE); ("EXTCODESIZE", EXTCODESIZE);
   ("EXTCODECOPY", EXTCODECOPY); ("RETURNDATASIZE", RETURNDATASIZE);
   ("RETURNDATACOPY", RETURNDATACOPY); ("EXTCODEHASH", EXTCODEHASH); ("BLOCKHASH", BLOCKHASH);
   ("COINBASE", COINBASE); ("TIMESTAMP", TIMESTAMP); ("NUMBER", NUMBER);
   ("DIFFICULTY", DIFFICULTY); ("GASLIMIT", GASLIMIT); ("POP", POP); ("MLOAD", MLOAD);
   ("MSTORE", MSTORE); ("MSTORE8", MSTORE8); ("SLOAD", SLOAD); ("SSTORE", SSTORE); ("JUMP", JUMP);
   ("JUMPI", JUMPI); ("PC", PC); ("MSIZE", MSIZE); ("GAS", GAS); ("JUMPDEST", JUMPDEST);
   ("PUSH1", PUSH1); ("PUSH2", PUSH2); ("PUSH3", PUSH3); ("PUSH4", PUSH4); ("PUSH5", PUSH5);
   ("PUSH6", PUSH6); ("PUSH7", PUSH7); ("PUSH8", PUSH8); ("PUSH9", PUSH9); ("PUSH10", PUSH10);
   ("PUSH11", PUSH11); ("PUSH12", PUSH12); ("PUSH13", PUSH13); ("PUSH14", PUSH14);
   ("PUSH15", PUSH15); ("PUSH16", PUSH16); ("PUSH17", PUSH17); ("PUSH18", PUSH18);
   ("PUSH19", PUSH19); ("PUSH20", PUSH20); ("PUSH21", PUSH21); ("PUSH22", PUSH22);
   ("PUSH23", PUSH23); ("PUSH24", PUSH24); ("PUSH25", PUSH25); ("PUSH26", PUSH26);
   ("PUSH27", PUSH27); ("PUSH28", PUSH28); ("PUSH29", PUSH29); ("PUSH30", PUSH30);
   ("PUSH31", PUSH31); ("PUSH32", PUSH32); ("DUP1", DUP1); ("DUP2", DUP2); ("DUP3", DUP3);
   ("DUP4", DUP4); ("DUP5", DUP5); ("DUP6", DUP6); ("DUP7", DUP7); ("DUP8", DUP8); ("DUP9", DUP9);
   ("DUP10", DUP10); ("DUP11", DUP11); ("DUP12", DUP12); ("DUP13", DUP13); ("DUP14", DUP14);
   ("DUP15", DUP15); ("DUP16", DUP16); ("SWAP1", SWAP1); ("SWAP2", SWAP2); ("SWAP3", SWAP3);
   ("SWAP4", SWAP4); ("SWAP5", SWAP5); ("SWAP6", SWAP6); ("SWAP7", SWAP7); ("SWAP8", SWAP8);
   ("SWAP9", SWAP9); ("SWAP10", SWAP10); ("SWAP11", SWAP11); ("SWAP12", SWAP12);
   ("SWAP13", SWAP13); ("SWAP14", SWAP14); ("SWAP15", SWAP15); ("SWAP16", SWAP16); ("LOG0", LOG0);
   ("LOG1", LOG1); ("LOG2", LOG2); ("LOG3", LOG3); ("LOG4", LOG4); ("CREATE", CREATE);
   ("CREATE2", CREATE2); ("CALL", CALL); ("RETURN", RETURN); ("CALLCODE", CALLCODE);
   ("REVERT", REVERT); ("SELFDESTRUCT", SELFDESTRUCT)].

(** [m[k]] on a map literal: the zero value for a missing key. *)
Fixpoint map_get {K V} (eqb : K → K → bool) (zero : V) (k : K) (m : list (K * V)) : V :=
  match m with
  | [] => zero
  | (k', v) :: m => if eqb k k' then v else map_get eqb zero k m
  end.

(** [fmt.Sprintf("%x", n)] of a byte. *)
Definition hex_byte (n : Z) : string :=
  let digit d := String.substring (Z.to_nat d) 1 "0123456789abcdef" in
  if n <? 16 then digit n else (digit (n / 16) ++ digit (n mod 16))%string.

Definition OpCode_String (op : OpCode) : string :=
  let str := map_get Z.eqb EmptyString op opCodeToString in
  if String.eqb str EmptyString then ("Missing opcode 0x" ++ hex_byte op)%string else str.

Definition StringToOp (str : string) : OpCode := map_get String.eqb 0 str stringToOp.

(** The opcodes of the instruction set: all named ones but the three used for parsing. *)
Definition instruction_codes : list OpCode :=
  filter (λ op, op ∉ [PUSH; DUP; SWAP]) opCodeToString.*1.

(** The name of an instruction is read back as the instruction, and a
    byte that names no instruction is never taken for another one. *)
Theorem StringToOp_String op :
  0 <= op < 256 →
  StringToOp (OpCode_String op) = if bool_decide (op ∈ instruction_codes) then op else STOP.
Proof.
  intros Hop.
  assert (Forall (λ op, StringToOp (OpCode_String op) =
                        if bool_decide (op ∈ instruction_codes) then op else STOP)
                 (Z.of_nat <$> seq 0 256)) as Hall.
  { apply (bool_decide_unpack _). by vm_compute. }
  rewrite Forall_forall in Hall. apply Hall, list_elem_of_In, list_elem_of_fmap.
  exists (Z.to_nat op). split; [lia|]. apply elem_of_seq. lia.
Qed.

Lemma StringToOp_String_witness : StringToOp (OpCode_String 0x60) = 0x60.
Proof. rewrite (StringToOp_String 0x60) by lia. by vm_compute. Defined.
