(* ===== verification/VmAnalysis.v ===== *)
(** * Jump destination analysis: [core/vm/analysis.go]

    [codeBitmap] marks the push data of a program in a bit vector; the
    reference is [code_start], the set of positions instructions start at.
    Vector accesses out of range panic, and are [None] here. *)
From S2P Require Import Prelude BigMath OpCodes.

(** ** The bit vector *)

Notation bitvec := (list byte) (only parsing).

(** [bits[i] |= v] *)
Definition or_byte (bits : bitvec) (i : nat) (v : Z) : option bitvec :=
  b ← bits !! i; Some (<[i := zb (Z.lor (bz b) v)]> bits).

Definition set (bits : bitvec) (pos : nat) : option bitvec :=
  or_byte bits (pos / 8) (Z.shiftr 0x80 (Z.of_nat (pos mod 8))).

Definition set8 (bits : bitvec) (pos : nat) : option bitvec :=
  bits ← or_byte bits (pos / 8) (Z.shiftr 0xFF (Z.of_nat (pos mod 8)));
  or_byte bits (pos / 8 + 1) (Z.lxor 0xFF (Z.shiftr 0xFF (Z.of_nat (pos mod 8)))).

Definition codeSegment (bits : bitvec) (pos : nat) : option bool :=
  b ← bits !! (pos / 8)%nat;
  Some (Z.land (bz b) (Z.shiftr 0x80 (Z.of_nat (pos mod 8))) =? 0).

(** ** codeBitmap *)

(** The two inner loops: eight bits at a time, then one at a time. *)
Fixpoint mark8 (n : nat) (bits : bitvec) (pc : nat) : option (bitvec * nat) :=
  match n with
  | O => Some (bits, pc)
  | S n => bits ← set8 bits pc; mark8 n bits (pc + 8)
  end.

Fixpoint mark1 (n : nat) (bits : bitvec) (pc : nat) : option (bitvec * nat) :=
  match n with
  | O => Some (bits, pc)
  | S n => bits ← set bits pc; mark1 n bits (pc + 1)
  end.

Definition mark_push (numbits : nat) (bits : bitvec) (pc : nat) : option (bitvec * nat) :=
  '(bits, pc) ← mark8 (numbits / 8) bits pc; mark1 (numbits mod 8) bits pc.

(** The outer loop; a round advances [pc], so the length of the code bounds
    the number of rounds. *)
Fixpoint codeBitmap_loop (fuel : nat) (code : list byte) (bits : bitvec) (pc : nat) : option bitvec :=
  match fuel with
  | O => Some bits
  | S fuel =>
      match code !! pc with
      | None => Some bits
      | Some b =>
          let op := bz b in
          if (PUSH1 <=? op) && (op <=? PUSH32) then
            '(bits, pc) ← mark_push (Z.to_nat (op - PUSH1 + 1)) bits (pc + 1);
            codeBitmap_loop fuel code bits pc
          else codeBitmap_loop fuel code bits (pc + 1)
      end
  end.

Definition codeBitmap (code : list byte) : option bitvec :=
  codeBitmap_loop (length code) code (zeros (length code / 8 + 1 + 4)) 0.

(** ** destinations *)

Notation destinations := (gmap Z (list byte)) (only parsing).

(** [d.has(codehash, code, dest)]: the answer and the map with the analysis
    memoized. *)
Definition has (d : destinations) (codehash : Z) (code : list byte) (dest : Z)
    : option (bool * destinations) :=
  let udest := Uint64 dest in
  if (63 <=? BitLen dest) || (zlen code <=? udest) then Some (false, d)
  else
    '(m, d') ← match d !! codehash with
               | Some m => Some (m, d)
               | None => m ← codeBitmap code; Some (m, <[codehash := m]> d)
               end;
    b ← code !! Z.to_nat udest;
    if bz b =? JUMPDEST then
      seg ← codeSegment m (Z.to_nat udest); Some (seg, d')
    else Some (false, d').

(** ** Reference: where instructions start *)

Definition push_len (b : byte) : nat :=
  if IsPush (bz b) then Z.to_nat (bz b - PUSH1 + 1) else 0.

Inductive code_start (code : list byte) : nat → Prop :=
  | code_start_0 : code_start code 0
  | code_start_next pc b :
      code_start code pc → code !! pc = Some b → code_start code (pc + 1 + push_len b).

(** The bit of position [p], from the most significant bit of byte [p/8]. *)
Definition bit (bits : bitvec) (p : nat) : bool :=
  match bits !! (p / 8)%nat with
  | Some b => Z.testbit (bz b) (7 - Z.of_nat (p mod 8))
  | None => false
  end.

(** ** Bits of the vector operations *)

Lemma testbit_zb z k : 0 <= k < 8 → Z.testbit (bz (zb z)) k = Z.testbit z k.
Proof. intros. rewrite bz_zb. change 256 with (2 ^ 8). apply Z.mod_pow2_bits_low. lia. Qed.

(** The masks used by the code, bit by bit. *)
Lemma mask_bits (k j : nat) :
  (k < 8)%nat → (j < 8)%nat →
  Z.testbit (Z.shiftr 0x80 (Z.of_nat k)) (7 - Z.of_nat j) = bool_decide (j = k) ∧
  Z.testbit (Z.shiftr 0xFF (Z.of_nat k)) (7 - Z.of_nat j) = bool_decide (k <= j)%nat ∧
  Z.testbit (Z.lxor 0xFF (Z.shiftr 0xFF (Z.of_nat k))) (7 - Z.of_nat j) = bool_decide (j < k)%nat.
Proof.
  intros Hk Hj.
  do 8 (destruct k as [|k]; [do 8 (destruct j as [|j]; [done|]); lia|]). lia.
Qed.

Lemma land_mask_zero z (k : nat) :
  0 <= z → (k < 8)%nat →
  (Z.land z (Z.shiftr 0x80 (Z.of_nat k)) =? 0) = negb (Z.testbit z (7 - Z.of_nat k)).
Proof.
  intros Hz Hk.
  assert (Z.shiftr 0x80 (Z.of_nat k) = 2 ^ (7 - Z.of_nat k)) as ->.
  { do 8 (destruct k as [|k]; [done|]). lia. }
  set (m := 7 - Z.of_nat k). assert (0 <= m) by lia.
  destruct (Z.testbit z m) eqn:E; simpl.
  - apply Z.eqb_neq. intros H0. assert (Z.testbit (Z.land z (2 ^ m)) m = false) as Hf by by rewrite H0, Z.bits_0.
    rewrite Z.land_spec, E, Z.pow2_bits_true in Hf by done. done.
  - apply Z.eqb_eq, Z.bits_inj_0. intros n. rewrite Z.land_spec.
    destruct (decide (n = m)) as [->|]; [by rewrite E|].
    rewrite Z.pow2_bits_false by done. apply andb_false_r.
Qed.

Lemma or_byte_Some bits i v :
  (i < length bits)%nat →
  ∃ bits', or_byte bits i v = Some bits' ∧ length bits' = length bits ∧
    ∀ p, bit bits' p =
      bit bits p || (bool_decide (p / 8 = i)%nat && Z.testbit v (7 - Z.of_nat (p mod 8))).
Proof.
  intros Hi. apply lookup_lt_is_Some_2 in Hi as [b Hb]. unfold or_byte. rewrite Hb. simpl.
  eexists. split; [done|]. split; [apply length_insert|]. intros p. unfold bit.
  pose proof (Nat.mod_upper_bound p 8).
  destruct (decide (p / 8 = i)%nat) as [<-|Hne].
  - rewrite list_lookup_insert_eq by (eapply lookup_lt_Some; done).
    rewrite bool_decide_eq_true_2, Hb, testbit_zb, Z.lor_spec by (done || lia). done.
  - rewrite list_lookup_insert_ne, bool_decide_eq_false_2 by done. by rewrite orb_false_r.
Qed.

Lemma set_Some bits pos :
  (pos / 8 < length bits)%nat →
  ∃ bits', set bits pos = Some bits' ∧ length bits' = length bits ∧
    ∀ p, bit bits' p = bit bits p || bool_decide (p = pos).
Proof.
  intros H. destruct (or_byte_Some bits (pos / 8) (Z.shiftr 0x80 (Z.of_nat (pos mod 8))) H)
    as (bits' & E & Hl & Hb).
  exists bits'. split; [done|]. split; [done|]. intros p. rewrite Hb. f_equal.
  pose proof (Nat.mod_upper_bound p 8). pose proof (Nat.mod_upper_bound pos 8).
  destruct (mask_bits (pos mod 8) (p mod 8)) as (-> & _); [lia..|].
  rewrite <- bool_decide_and. apply bool_decide_ext.
  pose proof (Nat.div_mod_eq p 8). pose proof (Nat.div_mod_eq pos 8). lia.
Qed.

Lemma set8_Some bits pos :
  (pos / 8 + 1 < length bits)%nat →
  ∃ bits', set8 bits pos = Some bits' ∧ length bits' = length bits ∧
    ∀ p, bit bits' p = bit bits p || bool_decide (pos <= p < pos + 8)%nat.
Proof.
  intros H. unfold set8.
  destruct (or_byte_Some bits (pos / 8) (Z.shiftr 0xFF (Z.of_nat (pos mod 8))))
    as (b1 & -> & Hl1 & Hb1); [lia|]. cbn [mbind option_bind].
  destruct (or_byte_Some b1 (pos / 8 + 1) (Z.lxor 0xFF (Z.shiftr 0xFF (Z.of_nat (pos mod 8)))))
    as (b2 & -> & Hl2 & Hb2); [lia|].
  eexists. split; [done|]. split; [lia|]. intros p. rewrite Hb2, Hb1, <- orb_assoc. f_equal.
  pose proof (Nat.mod_upper_bound p 8). pose proof (Nat.mod_upper_bound pos 8).
  destruct (mask_bits (pos mod 8) (p mod 8)) as (_ & -> & ->); [lia..|].
  rewrite <- !bool_decide_and, <- bool_decide_or. apply bool_decide_ext.
  pose proof (Nat.div_mod_eq p 8). pose proof (Nat.div_mod_eq pos 8). lia.
Qed.

Lemma mark8_Some n bits pc :
  ((pc + 8 * n) / 8 < length bits)%nat →
  ∃ bits', mark8 n bits pc = Some (bits', (pc + 8 * n)%nat) ∧ length bits' = length bits ∧
    ∀ p, bit bits' p = bit bits p || bool_decide (pc <= p < pc + 8 * n)%nat.
Proof.
  revert bits pc; induction n as [|n IH]; intros bits pc Hl.
  - exists bits. rewrite Nat.mul_0_r, Nat.add_0_r. do 2 (split; [done|]). intros p.
    rewrite bool_decide_eq_false_2, orb_false_r by lia. done.
  - cbn [mark8].
    assert ((pc + 8 * S n) / 8 = pc / 8 + S n)%nat as Hd.
    { rewrite (Nat.mul_comm 8), Nat.div_add by lia. done. }
    destruct (set8_Some bits pc) as (b1 & -> & Hl1 & Hb1); [lia|]. cbn [mbind option_bind].
    destruct (IH b1 (pc + 8)%nat) as (b2 & -> & Hl2 & Hb2).
    { replace (pc + 8 + 8 * n)%nat with (pc + 8 * S n)%nat by lia. lia. }
    exists b2. split; [do 2 f_equal; lia|]. split; [lia|]. intros p.
    rewrite Hb2, Hb1, <- orb_assoc. f_equal. rewrite <- bool_decide_or.
    apply bool_decide_ext. lia.
Qed.

Lemma mark1_Some n bits pc :
  (n < 8)%nat → ((pc + n) / 8 < length bits)%nat →
  ∃ bits', mark1 n bits pc = Some (bits', (pc + n)%nat) ∧ length bits' = length bits ∧
    ∀ p, bit bits' p = bit bits p || bool_decide (pc <= p < pc + n)%nat.
Proof.
  revert bits pc; induction n as [|n IH]; intros bits pc Hn Hl.
  - exists bits. rewrite Nat.add_0_r. do 2 (split; [done|]). intros p.
    rewrite bool_decide_eq_false_2, orb_false_r by lia. done.
  - cbn [mark1]. pose proof (Nat.Div0.div_le_mono pc (pc + S n) 8).
    destruct (set_Some bits pc) as (b1 & -> & Hl1 & Hb1); [lia|]. cbn [mbind option_bind].
    destruct (IH b1 (pc + 1)%nat) as (b2 & -> & Hl2 & Hb2); [lia| |].
    { replace (pc + 1 + n)%nat with (pc + S n)%nat by lia. lia. }
    exists b2. split; [do 2 f_equal; lia|]. split; [lia|]. intros p.
    rewrite Hb2, Hb1, <- orb_assoc. f_equal. rewrite <- bool_decide_or.
    apply bool_decide_ext. lia.
Qed.

(** Marking [n] data bytes from [pc] sets exactly their bits. *)
Lemma mark_push_Some n bits pc :
  ((pc + n) / 8 < length bits)%nat →
  ∃ bits', mark_push n bits pc = Some (bits', (pc + n)%nat) ∧ length bits' = length bits ∧
    ∀ p, bit bits' p = bit bits p || bool_decide (pc <= p < pc + n)%nat.
Proof.
  intros Hl. unfold mark_push.
  pose proof (Nat.div_mod_eq n 8). pose proof (Nat.mod_upper_bound n 8).
  pose proof (Nat.Div0.div_le_mono (pc + 8 * (n / 8)) (pc + n) 8).
  destruct (mark8_Some (n / 8) bits pc) as (b1 & -> & Hl1 & Hb1); [lia|].
  cbn [mbind option_bind].
  destruct (mark1_Some (n mod 8) b1 (pc + 8 * (n / 8))) as (b2 & -> & Hl2 & Hb2); [lia| |].
  { replace (pc + 8 * (n / 8) + n mod 8)%nat with (pc + n)%nat by lia. lia. }
  exists b2. split; [do 2 f_equal; lia|]. split; [lia|]. intros p.
  rewrite Hb2, Hb1, <- orb_assoc. f_equal. rewrite <- bool_decide_or.
  apply bool_decide_ext. lia.
Qed.

(** ** The reference positions *)

Lemma push_len_le b : (push_len b <= 32)%nat.
Proof.
  unfold push_len, IsPush. zcases; simpl; lia.
Qed.

(** No instruction starts inside another one. *)
Lemma code_start_gap code pc b q :
  code_start code pc → code !! pc = Some b → code_start code q → (pc < q)%nat →
  (pc + 1 + push_len b <= q)%nat.
Proof.
  revert pc b. induction q as [q IH] using lt_wf_ind. intros pc b Hpc Hb Hq Hlt.
  destruct Hq as [|q0 b0 Hq0 Hb0]; [lia|].
  destruct (decide (q0 < pc)%nat).
  - pose proof (IH pc ltac:(lia) q0 b0 Hq0 Hb0 Hpc ltac:(lia)). lia.
  - destruct (decide (q0 = pc)) as [->|].
    + simplify_eq. lia.
    + pose proof (IH q0 ltac:(lia) pc b Hpc Hb Hq0 ltac:(lia)). lia.
Qed.

Lemma code_start_or code q : code_start code q ∨ ¬ code_start code q.
Proof.
  induction q as [q IH] using lt_wf_ind.
  destruct (decide (q = 0%nat)) as [->|Hq]; [left; constructor|].
  assert (∀ n, (n <= q)%nat →
    let P pc := ∃ b, (pc < n)%nat ∧ code_start code pc ∧ code !! pc = Some b ∧
                     (pc + 1 + push_len b = q)%nat in
    (∃ pc, P pc) ∨ ¬ ∃ pc, P pc) as Hsearch.
  { intros n. induction n as [|n IHn]; intros Hn; [right; intros (? & ? & ? & _); lia|].
    destruct IHn as [(pc & b & ? & ?)|Hno]; [lia|left; exists pc, b; split; [lia|done]|].
    destruct (code !! n) as [b|] eqn:Eb; cycle 1.
    { right. intros (pc & b & ? & ? & ? & ?). destruct (decide (pc = n)) as [->|]; [congruence|].
      apply Hno. exists pc, b. split; [lia|done]. }
    destruct (decide (n + 1 + push_len b = q)%nat) as [Hnb|Hnb], (IH n ltac:(lia)) as [Hs|Hs];
      [left; exists n, b; split; [lia|done]|right..];
      (intros (pc & b' & ? & ? & ? & ?); destruct (decide (pc = n)) as [->|]; [simplify_eq; done|]);
      apply Hno; exists pc, b'; (split; [lia|done]). }
  destruct (Hsearch q ltac:(lia)) as [(pc & b & ? & ? & ? & <-)|Hno].
  - left. by constructor.
  - right. intros Hs. destruct Hs as [|pc b Hpc Hb]; [done|].
    apply Hno. exists pc, b. split; [lia|done].
Qed.

(** ** The analysis is exact *)

Lemma codeBitmap_loop_spec fuel code bits pc :
  (length code <= fuel + pc)%nat →
  length bits = (length code / 8 + 5)%nat →
  code_start code pc →
  (∀ q, (q < length code)%nat → bit bits q = true ↔ (q < pc)%nat ∧ ¬ code_start code q) →
  ∃ bits', codeBitmap_loop fuel code bits pc = Some bits' ∧ length bits' = length bits ∧
    ∀ q, (q < length code)%nat → bit bits' q = true ↔ ¬ code_start code q.
Proof.
  revert bits pc; induction fuel as [|fuel IH]; intros bits pc Hf Hl Hpc Hinv; simpl.
  - exists bits. do 2 (split; [done|]). intros q Hq. rewrite Hinv by done. split; [tauto|].
    split; [lia|done].
  - destruct (code !! pc) as [b|] eqn:Hb; cycle 1.
    { apply lookup_ge_None in Hb. exists bits. do 2 (split; [done|]). intros q Hq.
      rewrite Hinv by done. split; [tauto|]. split; [lia|done]. }
    pose proof (lookup_lt_Some _ _ _ Hb) as Hpcl.
    pose proof (code_start_next code pc b Hpc Hb) as Hnext.
    assert (push_len b = if (PUSH1 <=? bz b) && (bz b <=? PUSH32)
                         then Z.to_nat (bz b - PUSH1 + 1) else 0%nat) as Hpl by done.
    destruct ((PUSH1 <=? bz b) && (bz b <=? PUSH32)).
    + rewrite <- Hpl. pose proof (push_len_le b).
      assert ((pc + 1 + push_len b) / 8 < length bits)%nat.
      { rewrite Hl. apply Nat.Div0.div_lt_upper_bound. pose proof (Nat.div_mod_eq (length code) 8).
        pose proof (Nat.mod_upper_bound (length code) 8). lia. }
      destruct (mark_push_Some (push_len b) bits (pc + 1)) as (b1 & -> & Hl1 & Hb1); [done|].
      cbn [mbind option_bind].
      destruct (IH b1 (pc + 1 + push_len b)%nat) as (b2 & -> & Hl2 & Hb2); [lia..|done| |].
      * intros q Hq. rewrite Hb1, orb_true_iff, Hinv, bool_decide_eq_true by done.
        split.
        -- intros [[? ?]|?]; [split; [lia|done]|]. split; [lia|]. intros Hs.
           pose proof (code_start_gap code pc b q Hpc Hb Hs). lia.
        -- intros [? ?]. destruct (decide (q < pc)%nat); [by left|].
           destruct (decide (q = pc)) as [->|]; [done|]. right. lia.
      * exists b2. split; [done|]. split; [lia|]. done.
    + rewrite Hpl, Nat.add_0_r in Hnext.
      destruct (IH bits (pc + 1)%nat) as (b2 & -> & Hl2 & Hb2); [lia|done|done| |].
      * intros q Hq. rewrite Hinv by done. split.
        -- intros [? ?]. split; [lia|done].
        -- intros [? ?]. split; [|done]. destruct (decide (q = pc)) as [->|]; [done|lia].
      * exists b2. split; [done|]. split; [lia|]. done.
Qed.

Lemma bit_zeros n q : bit (zeros n) q = false.
Proof.
  unfold bit, zeros. destruct (decide (q / 8 < n)%nat).
  - rewrite lookup_replicate_2 by done. apply Z.testbit_0_l.
  - rewrite lookup_ge_None_2 by (rewrite length_replicate; lia). done.
Qed.

Lemma codeBitmap_spec code :
  ∃ bits, codeBitmap code = Some bits ∧ length bits = (length code / 8 + 5)%nat ∧
    ∀ q, (q < length code)%nat → bit bits q = true ↔ ¬ code_start code q.
Proof.
  unfold codeBitmap.
  destruct (codeBitmap_loop_spec (length code) code (zeros (length code / 8 + 1 + 4)) 0)
    as (bits & -> & Hl & Hb).
  - lia.
  - unfold zeros. rewrite length_replicate. lia.
  - constructor.
  - intros q _. rewrite bit_zeros. split; [done|lia].
  - exists bits. split; [done|]. split; [|done]. rewrite Hl. unfold zeros.
    rewrite length_replicate. lia.
Qed.

Lemma codeSegment_bit bits pos :
  (pos / 8 < length bits)%nat → codeSegment bits pos = Some (negb (bit bits pos)).
Proof.
  intros H. apply lookup_lt_is_Some_2 in H as [b Hb]. unfold codeSegment, bit. rewrite Hb.
  cbn [mbind option_bind]. pose proof (Nat.mod_upper_bound pos 8).
  rewrite land_mask_zero; [done|apply bz_range|lia].
Qed.

(** The marks of the bitmap, read back by [codeSegment]. *)
Lemma codeBitmap_segments code :
  ∃ bits, codeBitmap code = Some bits ∧
    ∀ pos, (pos < length code)%nat →
      ∃ seg, codeSegment bits pos = Some seg ∧ (seg = true ↔ code_start code pos).
Proof.
  destruct (codeBitmap_spec code) as (bits & E & Hl & Hb). exists bits. split; [done|].
  intros pos Hpos. assert (pos / 8 < length bits)%nat.
  { rewrite Hl. pose proof (Nat.Div0.div_le_mono pos (length code) 8). lia. }
  rewrite codeSegment_bit by done. eexists. split; [done|].
  specialize (Hb pos Hpos). destruct (bit bits pos) eqn:Eb; simpl.
  - split; [done|]. intros Hs. by destruct (proj1 Hb eq_refl).
  - split; [intros _|done].
    destruct (code_start_or code pos) as [Hs|Hs]; [done|]. apply Hb in Hs. congruence.
Qed.

(** [codeBitmap] never runs past its bit vector, and for every position of
    the program [codeSegment] on its result tells exactly whether an
    instruction starts there (the byte is not push data). *)
Theorem codeBitmap_exact code :
  ∃ bits, codeBitmap code = Some bits ∧
    ∀ pos, (pos < length code)%nat →
      ∃ seg, codeSegment bits pos = Some seg ∧ (seg = true ↔ code_start code pos).
Proof. apply codeBitmap_segments. Qed.

(** Every memoized analysis filed under [codehash] is the one of [code]: the
    code hash identifies the code. *)
Definition dests_for (d : destinations) (codehash : Z) (code : list byte) : Prop :=
  ∀ m, d !! codehash = Some m → codeBitmap code = Some m.

(** [destinations.has] does not panic and answers yes exactly for the
    positions that hold a JUMPDEST instruction outside push data; the analysis
    it memoizes is the one of the code. *)
Theorem has_correct d codehash code dest :
  0 <= dest → dests_for d codehash code →
  ∃ r d', has d codehash code dest = Some (r, d') ∧
    (r = true ↔ ∃ b, code !! Z.to_nat dest = Some b ∧ bz b = JUMPDEST ∧
                     BitLen dest < 63 ∧ code_start code (Z.to_nat dest)) ∧
    dests_for d' codehash code ∧ (∀ h, h ≠ codehash → d' !! h = d !! h).
Proof.
  intros Hd Hok. unfold has.
  destruct (Z.leb_spec 63 (BitLen dest)) as [Hbl|Hbl]; simpl.
  { exists false, d. split; [done|]. split; [|done]. split; [done|]. intros (? & ? & ? & ? & ?). lia. }
  assert (dest < 2 ^ 63) as Hd63.
  { pose proof (proj1 (BitLen_le dest 63 ltac:(lia)) ltac:(lia)). lia. }
  rewrite Uint64_id by (unfold is_uint64; lia).
  destruct (Z.leb_spec (zlen code) dest) as [Hlen|Hlen].
  { exists false, d. split; [done|]. split; [|done]. split; [done|]. intros (b & Hb & _).
    apply lookup_lt_Some in Hb. unfold zlen in Hlen. lia. }
  destruct (codeBitmap_segments code) as (bits & Ebits & Hseg).
  assert (∃ d', (match d !! codehash with
                 | Some m => Some (m, d)
                 | None => m ← codeBitmap code; Some (m, <[codehash := m]> d)
                 end) = Some (bits, d') ∧ dests_for d' codehash code ∧
                 (∀ h, h ≠ codehash → d' !! h = d !! h)) as (d' & -> & Hok' & Hother).
  { destruct (d !! codehash) as [m|] eqn:Em.
    - exists d. apply Hok in Em. split; [congruence|done].
    - rewrite Ebits. exists (<[codehash := bits]> d). split; [done|]. split.
      + intros m. rewrite lookup_insert_eq. congruence.
      + intros h Hh. by rewrite lookup_insert_ne. }
  cbn [mbind option_bind].
  destruct (lookup_lt_is_Some_2 code (Z.to_nat dest)) as [b Hb]; [unfold zlen in Hlen; lia|].
  rewrite Hb. cbn [mbind option_bind]. destruct (Z.eqb_spec (bz b) JUMPDEST) as [Hj|Hj].
  - destruct (Hseg (Z.to_nat dest)) as (seg & -> & Hs); [by eapply lookup_lt_Some|].
    exists seg, d'. split; [done|]. split; [|done]. rewrite Hs. split.
    + intros. exists b. done.
    + intros (? & ? & ? & ? & ?). done.
  - exists false, d'. split; [done|]. split; [|done]. split; [done|].
    intros (b' & Hb' & Hj' & _). congruence.
Qed.

(** PUSH1 0x5b; JUMPDEST: position 1 is data, position 2 a destination. *)
Lemma has_correct_witness :
  let code := [zb PUSH1; zb JUMPDEST; zb JUMPDEST] in
  0 <= 2 ∧ (∃ d', has ∅ 7 code 2 = Some (true, d')) ∧ (∃ d', has ∅ 7 code 1 = Some (false, d')).
Proof.
  simpl. split; [lia|].
  assert (dests_for ∅ 7 [zb PUSH1; zb JUMPDEST; zb JUMPDEST]) as Hok by done.
  destruct (has_correct ∅ 7 [zb PUSH1; zb JUMPDEST; zb JUMPDEST] 2 ltac:(lia) Hok)
    as (r & d' & E & _).
  split; eexists; vm_compute; reflexivity.
Defined.
