(* ===== verification/VmMemory.v ===== *)
(** * Errors, slicing helpers and memory of the virtual machine

    [core/vm/errors.go], [core/vm/common.go], [core/vm/memory.go] and
    [memoryGasCost] of [core/vm/gas_table.go].  A Go panic is [None]. *)
From S2P Require Import Prelude BigMath Params.

(** ** Errors the virtual machine returns *)

Inductive error :=
  | ErrOutOfGas
  | ErrCodeStoreOutOfGas
  | ErrDepth
  | ErrInsufficientBalance
  | ErrContractAddressCollision
  | ErrNoCompatibleInterpreter
  | errGasUintOverflow
  | errWriteProtection
  | errReturnDataOutOfBounds
  | errExecutionReverted
  | errMaxCodeSizeExceeded
  | errInvalidOpcode (op : Z)
  | errInvalidJump (op pos : Z)
  | errStackUnderflow (have want : Z)
  | errStackLimit (have limit : Z)
  | errBadPairingInput
  | errInvalidPoint.

#[global] Instance error_eq_dec : EqDecision error.
Proof. solve_decision. Defined.

(** ** core/vm/common.go *)

Definition calcMemSize (off l : Z) : Z := if Sign l =? 0 then 0 else off + l.

(** The slice expression panics when [start + size] wraps below [start]. *)
Definition getData (data : list byte) (start size : Z) : option (list byte) :=
  let length := zlen data in
  let start := if start >? length then length else start in
  let end_ := uint64 (start + size) in
  let end_ := if end_ >? length then length else end_ in
  if start <=? end_ then
    Some (RightPadBytes (take (Z.to_nat (end_ - start)) (drop (Z.to_nat start) data)) (int64 size))
  else None.

Definition getDataBig (data : list byte) (start size : Z) : list byte :=
  let dlen := zlen data in
  let s := BigMin start dlen in
  let e := BigMin (s + size) dlen in
  RightPadBytes (take (Z.to_nat (Uint64 e - Uint64 s)) (drop (Z.to_nat (Uint64 s)) data))
    (int64 (Uint64 size)).

Definition bigUint64 (v : Z) : Z * bool := (Uint64 v, BitLen v >? 64).

Definition toWordSize (size : Z) : Z :=
  if size >? MaxUint64 - 31 then MaxUint64 / 32 + 1 else (size + 31) / 32.

Definition allZero (b : list byte) : bool := forallb (λ x, bz x =? 0) b.

(** ** core/vm/memory.go *)

Record Memory := {
  store : list byte;
  lastGasCost : Z
}.

Definition NewMemory : Memory := {| store := []; lastGasCost := 0 |}.

Definition Len (m : Memory) : Z := zlen (store m).

(** The window [store[off:off+len]] replaced by [copy(window, value)]. *)
Definition splice (off len : nat) (value st : list byte) : list byte :=
  take off st ++ overlay value (take len (drop off st)) ++ drop (off + len) st.

Definition mem_Set (m : Memory) (offset size : Z) (value : list byte) : option Memory :=
  if size >? 0 then
    let hi := uint64 (offset + size) in
    if hi >? Len m then None
    else if offset <=? hi then
      Some {| store := splice (Z.to_nat offset) (Z.to_nat (hi - offset)) value (store m);
              lastGasCost := lastGasCost m |}
    else None
  else Some m.

Definition mem_Set32 (m : Memory) (offset val : Z) : option Memory :=
  let hi := uint64 (offset + 32) in
  if hi >? Len m then None
  else if offset <=? hi then
    Some {| store := splice (Z.to_nat offset) 32 (ReadBits val (zeros 32)) (store m);
            lastGasCost := lastGasCost m |}
  else None.

Definition Resize (m : Memory) (size : Z) : Memory :=
  if Len m <? size then
    {| store := store m ++ zeros (Z.to_nat (size - Len m)); lastGasCost := lastGasCost m |}
  else m.

(** [Get] and [GetPtr] slice the backing array.  Go slices up to the capacity;
    a window past the length is a panic here, and the interpreter never asks
    for one. *)
Definition mem_Get (m : Memory) (offset size : Z) : option (list byte) :=
  if size =? 0 then Some []
  else if Len m >? offset then
    if (0 <=? offset) && (0 <=? size) && (offset + size <=? Len m) then
      Some (take (Z.to_nat size) (drop (Z.to_nat offset) (store m)))
    else None
  else Some [].

Definition mem_GetPtr (m : Memory) (offset size : Z) : option (list byte) :=
  if size =? 0 then Some []
  else if Len m >? offset then
    if (0 <=? offset) && (0 <=? size) && (offset + size <=? Len m) then
      Some (take (Z.to_nat size) (drop (Z.to_nat offset) (store m)))
    else None
  else Some [].

(** [memory.store[off] = b] *)
Definition mem_store1 (m : Memory) (off : Z) (b : byte) : option Memory :=
  if (0 <=? off) && (off <? Len m) then
    Some {| store := <[Z.to_nat off := b]> (store m); lastGasCost := lastGasCost m |}
  else None.

(** ** memoryGasCost of core/vm/gas_table.go *)

Definition memoryGasCost (mem : Memory) (newMemSize : Z) : (Z * option error) * Memory :=
  if newMemSize =? 0 then ((0, None), mem)
  else if newMemSize >? 0xffffffffe0 then ((0, Some errGasUintOverflow), mem)
  else
    let newMemSizeWords := toWordSize newMemSize in
    let newMemSize := uint64 (newMemSizeWords * 32) in
    if newMemSize >? Len mem then
      let square := uint64 (newMemSizeWords * newMemSizeWords) in
      let linCoef := uint64 (newMemSizeWords * MemoryGas) in
      let quadCoef := square / QuadCoeffDiv in
      let newTotalFee := uint64 (linCoef + quadCoef) in
      let fee := uint64 (newTotalFee - lastGasCost mem) in
      ((fee, None), {| store := store mem; lastGasCost := newTotalFee |})
    else ((0, None), mem).

(** ** Lemmas: helpers *)

Lemma toWordSize_ceil size :
  0 <= size <= MaxUint64 → size <= 32 * toWordSize size < size + 32.
Proof.
  unfold toWordSize, MaxUint64. intros H. zcases.
  - change ((2 ^ 64 - 1) / 32 + 1) with (2 ^ 59). lia.
  - pose proof (Z.div_mod (size + 31) 32). pose proof (Z.mod_pos_bound (size + 31) 32). lia.
Qed.

Lemma calcMemSize_le off l : 0 <= off → 0 <= l → l = 0 ∨ calcMemSize off l = off + l.
Proof. unfold calcMemSize, Sign. zcases; lia. Qed.

Lemma calcMemSize_nonneg off l : 0 <= off → 0 <= l → 0 <= calcMemSize off l.
Proof. unfold calcMemSize. zcases; lia. Qed.

(** [getDataBig] reads [size] bytes at [start], zero beyond the data. *)
Lemma zlen_getDataBig data start size :
  0 <= start → 0 <= size < 2 ^ 63 → zlen data < 2 ^ 63 → zlen (getDataBig data start size) = size.
Proof.
  intros Hs Hz Hd. unfold getDataBig. rewrite !BigMin_min. pose proof (zlen_nonneg data).
  rewrite !Uint64_id by (unfold is_uint64; lia).
  unfold int64. rewrite Z.mod_small by lia.
  rewrite zlen_RightPadBytes. unfold zlen in *. rewrite length_take, length_drop. lia.
Qed.

Lemma getDataBig_lookup data start size i :
  0 <= start → 0 <= size < 2 ^ 63 → zlen data < 2 ^ 63 → 0 <= i < size →
  getDataBig data start size !! Z.to_nat i =
  Some (default Byte.x00 (data !! Z.to_nat (start + i))).
Proof.
  intros Hs Hz Hd Hi. pose proof (zlen_getDataBig data start size Hs Hz Hd) as Hl.
  unfold getDataBig in *. rewrite !BigMin_min in *. pose proof (zlen_nonneg data).
  rewrite !Uint64_id in * by (unfold is_uint64; lia).
  unfold int64 in *. rewrite Z.mod_small in * by lia.
  rewrite RightPadBytes_spec. set (s := Z.min start (zlen data)) in *.
  set (e := Z.min (s + size) (zlen data)) in *.
  set (l := take (Z.to_nat (e - s)) (drop (Z.to_nat s) data)).
  assert (length l = Z.to_nat (e - s)) as Hll.
  { unfold l. rewrite length_take, length_drop. unfold zlen in *. lia. }
  destruct (decide (Z.to_nat i < length l)%nat) as [Hin|Hout].
  - rewrite lookup_app_l by done. unfold l.
    rewrite lookup_take_lt by lia. rewrite lookup_drop.
    replace (Z.to_nat s + Z.to_nat i)%nat with (Z.to_nat (start + i)) by lia.
    destruct (lookup_lt_is_Some_2 data (Z.to_nat (start + i))) as [b ->]; [|done].
    unfold zlen in *. lia.
  - rewrite lookup_app_r by lia. unfold zeros.
    rewrite lookup_replicate_2 by (unfold zlen in *; lia).
    rewrite (lookup_ge_None_2 data) by (unfold zlen in *; lia). done.
Qed.

(** ** Lemmas: windows of the store *)

Lemma length_splice off len value st :
  (off + len <= length st)%nat → length (splice off len value st) = length st.
Proof.
  intros H. unfold splice. rewrite !length_app, length_overlay, !length_take, !length_drop. lia.
Qed.

Lemma splice_lookup_out off len value st i :
  (off + len <= length st)%nat → (i < off ∨ off + len <= i)%nat →
  splice off len value st !! i = st !! i.
Proof.
  intros Hl [Hi|Hi]; unfold splice.
  - rewrite lookup_app_l by (rewrite length_take; lia). by rewrite lookup_take_lt.
  - rewrite lookup_app_r by (rewrite length_take; lia).
    rewrite lookup_app_r by (rewrite length_overlay, !length_take, length_drop; lia).
    rewrite length_overlay, !length_take, length_drop, lookup_drop. f_equal. lia.
Qed.

Lemma splice_window off len value st :
  (off + len <= length st)%nat → length value = len →
  take len (drop off (splice off len value st)) = value.
Proof.
  intros Hl Hv. unfold splice.
  rewrite drop_app_length' by (rewrite length_take; lia).
  rewrite overlay_full by (rewrite length_take, length_drop; lia).
  by rewrite take_app_length' by done.
Qed.

(** A window that lies inside the store: writing it does not panic. *)
Lemma mem_Set_ok m offset size value :
  0 <= offset → 0 <= size → (0 < size → offset + size <= Len m) → Len m < 2 ^ 64 →
  mem_Set m offset size value =
    Some (if 0 <? size then
            {| store := splice (Z.to_nat offset) (Z.to_nat size) value (store m);
               lastGasCost := lastGasCost m |}
          else m).
Proof.
  intros Ho Hs Hin Hlen. unfold mem_Set. rewrite Z.gtb_ltb. destruct (Z.ltb_spec 0 size); [|done].
  specialize (Hin ltac:(lia)). rewrite uint64_id by (unfold is_uint64; lia).
  zcases; try lia. do 3 f_equal. lia.
Qed.

Lemma mem_Set_len m offset size value m' :
  0 <= offset → mem_Set m offset size value = Some m' →
  Len m' = Len m ∧ lastGasCost m' = lastGasCost m.
Proof.
  intros Ho. unfold mem_Set. rewrite Z.gtb_ltb. destruct (Z.ltb_spec 0 size); [|intros; by simplify_eq].
  zcases; intros; simplify_eq. split; [|done]. unfold Len, zlen in *. simpl.
  rewrite length_splice; [done|]. pose proof (uint64_range (offset + size)) as [? ?]. lia.
Qed.

Lemma mem_Get_ok m offset size :
  0 <= offset → 0 <= size → (0 < size → offset + size <= Len m) →
  mem_Get m offset size = Some (take (Z.to_nat size) (drop (Z.to_nat offset) (store m))).
Proof.
  intros Ho Hs Hin. unfold mem_Get. rewrite Z.gtb_ltb.
  destruct (Z.eqb_spec size 0) as [->|]; [by rewrite take_0|].
  specialize (Hin ltac:(lia)). zcases; simpl; try lia. done.
Qed.

Lemma Resize_Len m size : Len (Resize m size) = Z.max (Len m) size.
Proof.
  unfold Resize, Len, zlen. zcases; simpl; [|lia].
  rewrite length_app. unfold zeros. rewrite length_replicate. lia.
Qed.

(** a write and a read of the same memory window give the written bytes
    back; a read of a window that does not meet the written one is unchanged;
    the length and the fee counter do not change. *)
Theorem mem_Set_Get m offset size value :
  0 <= offset → 0 < size → offset + size <= Len m → Len m < 2 ^ 64 → zlen value = size →
  ∃ m', mem_Set m offset size value = Some m' ∧
    mem_Get m' offset size = Some value ∧ Len m' = Len m ∧ lastGasCost m' = lastGasCost m ∧
    ∀ i, 0 <= i → i < offset ∨ offset + size <= i → store m' !! Z.to_nat i = store m !! Z.to_nat i.
Proof.
  intros Ho Hs Hin Hlen Hv. rewrite mem_Set_ok by lia.
  destruct (Z.ltb_spec 0 size); [|lia]. eexists. split; [done|].
  assert (Z.to_nat offset + Z.to_nat size <= length (store m))%nat as Hw
    by (unfold Len, zlen in *; lia).
  assert (Len {| store := splice (Z.to_nat offset) (Z.to_nat size) value (store m);
                 lastGasCost := lastGasCost m |} = Len m) as HL
    by (unfold Len, zlen; simpl; by rewrite length_splice).
  split; [|split; [done|split; [done|]]].
  - rewrite mem_Get_ok by lia. f_equal. apply splice_window; [done|]. unfold zlen in Hv. lia.
  - intros i Hi Hout. simpl. apply splice_lookup_out; [done|]. lia.
Qed.

Lemma mem_Set_Get_witness :
  ∃ m', mem_Set {| store := zeros 32; lastGasCost := 3 |} 4 2 [Byte.x01; Byte.x02] = Some m' ∧
        mem_Get m' 4 2 = Some [Byte.x01; Byte.x02].
Proof.
  destruct (mem_Set_Get {| store := zeros 32; lastGasCost := 3 |} 4 2 [Byte.x01; Byte.x02])
    as (m' & ? & ? & _); [vm_compute; congruence..|reflexivity|]. by exists m'.
Defined.

(** MSTORE then MLOAD of the same address. *)
Lemma mem_Set32_ok m offset val :
  0 <= offset → offset + 32 <= Len m → Len m < 2 ^ 64 →
  mem_Set32 m offset val =
    Some {| store := splice (Z.to_nat offset) 32 (be_bytes 32 (Z.abs val)) (store m);
            lastGasCost := lastGasCost m |}.
Proof.
  intros Ho Hin Hlen. unfold mem_Set32. rewrite uint64_id by (unfold is_uint64; lia).
  rewrite Z.gtb_ltb. zcases; try lia. by rewrite ReadBits_zeros.
Qed.

(** the word stored by [Set32] is read back by a 32-byte [Get], for every
    256-bit value and every address inside the memory. *)
Theorem mem_Set32_Get m offset val :
  0 <= offset → offset + 32 <= Len m → Len m < 2 ^ 64 → is_u256 val →
  ∃ m' l, mem_Set32 m offset val = Some m' ∧ mem_Get m' offset 32 = Some l ∧
    SetBytes l = val ∧ zlen l = 32 ∧ Len m' = Len m.
Proof.
  intros Ho Hin Hlen [Hv0 Hv1]. rewrite mem_Set32_ok by done.
  assert (Z.to_nat offset + 32 <= length (store m))%nat as Hw by (unfold Len, zlen in *; lia).
  assert (Len {| store := splice (Z.to_nat offset) 32 (be_bytes 32 (Z.abs val)) (store m);
                 lastGasCost := lastGasCost m |} = Len m) as HL
    by (unfold Len, zlen; simpl; by rewrite length_splice).
  eexists _, (be_bytes 32 (Z.abs val)). split; [done|]. split.
  - rewrite mem_Get_ok by lia. simpl store. change (Z.to_nat 32) with 32%nat.
    rewrite splice_window; [done..|apply length_be_bytes].
  - split; [|split; [unfold zlen; by rewrite length_be_bytes|done]].
    rewrite SetBytes_be_bytes, Z.abs_eq by done. apply Z.mod_small. done.
Qed.

Lemma mem_Set32_Get_witness :
  ∃ m' l, mem_Set32 {| store := zeros 64; lastGasCost := 6 |} 7 258 = Some m' ∧
          mem_Get m' 7 32 = Some l ∧ SetBytes l = 258.
Proof.
  destruct (mem_Set32_Get {| store := zeros 64; lastGasCost := 6 |} 7 258)
    as (m' & l & ? & ? & ? & _); [vm_compute; congruence..|split; vm_compute; congruence|].
  exists m', l. done.
Defined.

(** ** The expansion fee *)

(** The Yellow Paper's cumulative fee of a memory of [w] words. *)
Definition memFee (w : Z) : Z := MemoryGas * w + w * w / QuadCoeffDiv.

(** What the interpreter keeps true of a frame's memory: whole words, and the
    counter [lastGasCost] is the fee of the current size. *)
Definition mem_wf (m : Memory) : Prop :=
  Len m mod 32 = 0 ∧ Len m < 2 ^ 37 ∧ lastGasCost m = memFee (Len m / 32).

Lemma mem_wf_NewMemory : mem_wf NewMemory.
Proof. done. Qed.

Lemma memFee_mono v w : 0 <= v <= w → memFee v <= memFee w.
Proof.
  intros H. unfold memFee.
  assert (v * v / 512 <= w * w / 512) by (apply Z.div_le_mono; nia). lia.
Qed.

Lemma memFee_bound w : 0 <= w < 2 ^ 32 → 0 <= memFee w < 2 ^ 64.
Proof.
  intros H. unfold memFee.
  assert (0 <= w * w < 2 ^ 64) by nia.
  assert (0 <= w * w / 512 <= 2 ^ 55).
  { split; [apply Z.div_pos; lia|]. change (2 ^ 55) with (2 ^ 64 / 512). apply Z.div_le_mono; lia. }
  lia.
Qed.

(** The charge of an instruction that needs [n] bytes, and the memory after the
    interpreter has paid it and grown the store, in the range where the square
    does not wrap. *)
Lemma memoryGasCost_spec m n :
  mem_wf m → 0 <= n <= 2 ^ 37 - 32 →
  let w := toWordSize n in
  ∃ m', memoryGasCost m n = ((memFee (Z.max w (Len m / 32)) - memFee (Len m / 32), None), m') ∧
    store m' = store m ∧ mem_wf (Resize m' (w * 32)).
Proof.
  intros (Hmod & Hlt & Hfee) Hn w. unfold memoryGasCost. fold w.
  assert (n <= 32 * w < n + 32) as Hw by (apply toWordSize_ceil; unfold MaxUint64; lia).
  pose proof (zlen_nonneg (store m)) as Hl0. fold (Len m) in Hl0.
  pose proof (Z.div_mod (Len m) 32 ltac:(lia)) as Hdm. rewrite Hmod in Hdm.
  set (k := Len m / 32) in *.
  destruct (Z.eqb_spec n 0) as [->|Hn0].
  { exists m. rewrite Z.max_r, Z.sub_diag by lia. split; [done|]. split; [done|].
    unfold mem_wf. rewrite Resize_Len, Z.max_l by lia. unfold Resize. by destruct (_ <? _). }
  rewrite (Z.gtb_ltb n). destruct (Z.ltb_spec 0xffffffffe0 n); [lia|].
  rewrite (uint64_id (w * 32)) by (unfold is_uint64; lia). rewrite Z.gtb_ltb.
  destruct (Z.ltb_spec (Len m) (w * 32)) as [Hg|Hg].
  - rewrite Z.max_l by lia. pose proof (memFee_bound w ltac:(lia)) as Hb.
    pose proof (memFee_bound k ltac:(lia)). pose proof (memFee_mono k w ltac:(lia)).
    assert (uint64 (uint64 (w * MemoryGas) + uint64 (w * w) / QuadCoeffDiv) = memFee w) as ->.
    { rewrite (uint64_id (w * MemoryGas)) by (unfold is_uint64; lia).
      rewrite (uint64_id (w * w)) by (unfold is_uint64; nia).
      rewrite uint64_id; unfold memFee in *; [lia|]. unfold is_uint64. lia. }
    exists {| store := store m; lastGasCost := memFee w |}. split; [|split; [done|]].
    + by rewrite Hfee, uint64_id by (unfold is_uint64; lia).
    + unfold mem_wf. rewrite Resize_Len.
      change (Len {| store := store m; lastGasCost := memFee w |}) with (Len m).
      rewrite Z.max_r by lia. rewrite Z.mod_mul, Z.div_mul by lia.
      split; [done|]. split; [lia|]. unfold Resize. by destruct (_ <? _).
  - exists m. rewrite Z.max_r, Z.sub_diag by lia. split; [done|]. split; [done|].
    unfold mem_wf. rewrite Resize_Len, Z.max_l by lia. unfold Resize. by destruct (_ <? _).
Qed.

(** Below 2^37 bytes the memory charge is the exact difference of the
    cumulative fees 3w + w^2/512 of the sizes in words, for every previous
    size, and growing the memory to the charged size keeps the memory
    word-aligned with the counter equal to the cumulative fee. *)
Theorem memoryGasCost_exact m n :
  mem_wf m → 0 <= n <= 2 ^ 37 - 32 →
  let w := toWordSize n in
  32 * (w - 1) < n <= 32 * w ∧
  ∃ m', memoryGasCost m n = ((memFee (Z.max w (Len m / 32)) - memFee (Len m / 32), None), m') ∧
    store m' = store m ∧ mem_wf (Resize m' (w * 32)).
Proof.
  intros Hm Hn w. split; [|by apply memoryGasCost_spec].
  pose proof (toWordSize_ceil n ltac:(unfold MaxUint64; lia)). fold w in H. lia.
Qed.

Lemma memoryGasCost_exact_witness :
  mem_wf NewMemory ∧ (memoryGasCost NewMemory 70).1 = (9, None).
Proof.
  split; [done|].
  destruct (memoryGasCost_exact NewMemory 70 mem_wf_NewMemory ltac:(lia)) as (_ & m' & -> & _).
  vm_compute. reflexivity.
Defined.

(** The guard of [memoryGasCost] does not exclude overflow.  A new memory
    of 2^37 bytes passes it, its squared word count wraps to zero, and the fee
    is only the linear 3 gas per word instead of the cumulative fee. *)
Theorem memoryGasCost_overflow :
  (memoryGasCost NewMemory (2 ^ 37)).1 = (3 * 2 ^ 32, None) ∧
  memFee (toWordSize (2 ^ 37)) = 3 * 2 ^ 32 + 2 ^ 55 ∧ 2 ^ 37 <= 0xffffffffe0.
Proof. vm_compute. split; [done|]. split; [done|congruence]. Qed.

(** [getData] is not safe against wrap-around: a size for which
    [start + size] passes 2^64 makes the slice bounds cross. *)
Theorem getData_overflow data start size :
  0 <= start <= zlen data → zlen data < 2 ^ 63 →
  0 <= size < 2 ^ 64 → 2 ^ 64 <= start + size →
  getData data start size = None.
Proof.
  intros Hs Hd Hz Hw. unfold getData.
  replace (start >? zlen data) with false by (symmetry; rewrite Z.gtb_ltb; apply Z.ltb_ge; lia).
  assert (uint64 (start + size) = start + size - 2 ^ 64) as ->.
  { unfold uint64. symmetry. apply (Z.mod_unique _ _ 1); lia. }
  destruct (Z.leb_spec start (if start + size - 2 ^ 64 >? zlen data then zlen data
                              else start + size - 2 ^ 64)) as [H|]; [|done].
  revert H. rewrite Z.gtb_ltb. destruct (Z.ltb_spec (zlen data) (start + size - 2 ^ 64)); lia.
Qed.

Lemma getData_overflow_witness : getData (zeros 10) 8 (2 ^ 64 - 4) = None.
Proof. apply getData_overflow; [vm_compute; intuition congruence|done|lia..]. Defined.

(** Otherwise it reads [size] bytes at [start], zero beyond the data. *)
Lemma getData_getDataBig data start size :
  0 <= start → 0 <= size < 2 ^ 63 → zlen data < 2 ^ 63 →
  getData data start size = Some (getDataBig data start size).
Proof.
  intros Hs Hz Hd. pose proof (zlen_nonneg data). unfold getData, getDataBig.
  rewrite !BigMin_min. rewrite !Uint64_id by (unfold is_uint64; lia).
  replace (if start >? zlen data then zlen data else start) with (Z.min start (zlen data))
    by (zcases; lia).
  rewrite uint64_id by (unfold is_uint64; lia).
  replace (if Z.min start (zlen data) + size >? zlen data then zlen data
           else Z.min start (zlen data) + size)
    with (Z.min (Z.min start (zlen data) + size) (zlen data)) by (zcases; lia).
  destruct (Z.leb_spec (Z.min start (zlen data))
              (Z.min (Z.min start (zlen data) + size) (zlen data))); [done|lia].
Qed.
