(* ===== verification/Rlp.v ===== *)
(** * RLP encoding: [rlp/encode.go] and [rlp/raw.go]

    The encoder writes string data to one buffer and keeps the list headers
    aside, with the offset they belong at; [toBytes] merges the two.  The
    reference is the recursive encoding [enc] of the specification.  Reflection
    (the choice of a writer for a Go type) is resolved in the constructors of
    [value]; raw values and types with their own encoder are left out. *)
From S2P Require Import Prelude BigMath.

Module Rlp.

(** ** Integers and headers *)

Definition putint (i : Z) : list byte :=
  if i <? 2 ^ 8 then [zb i]
  else if i <? 2 ^ 16 then [zb (Z.shiftr i 8); zb i]
  else if i <? 2 ^ 24 then [zb (Z.shiftr i 16); zb (Z.shiftr i 8); zb i]
  else if i <? 2 ^ 32 then [zb (Z.shiftr i 24); zb (Z.shiftr i 16); zb (Z.shiftr i 8); zb i]
  else if i <? 2 ^ 40 then
    [zb (Z.shiftr i 32); zb (Z.shiftr i 24); zb (Z.shiftr i 16); zb (Z.shiftr i 8); zb i]
  else if i <? 2 ^ 48 then
    [zb (Z.shiftr i 40); zb (Z.shiftr i 32); zb (Z.shiftr i 24); zb (Z.shiftr i 16);
     zb (Z.shiftr i 8); zb i]
  else if i <? 2 ^ 56 then
    [zb (Z.shiftr i 48); zb (Z.shiftr i 40); zb (Z.shiftr i 32); zb (Z.shiftr i 24);
     zb (Z.shiftr i 16); zb (Z.shiftr i 8); zb i]
  else
    [zb (Z.shiftr i 56); zb (Z.shiftr i 48); zb (Z.shiftr i 40); zb (Z.shiftr i 32);
     zb (Z.shiftr i 24); zb (Z.shiftr i 16); zb (Z.shiftr i 8); zb i].

(** [i >>= 8] of a 64-bit value is zero after eight rounds. *)
Fixpoint intsize_loop (fuel : nat) (size i : Z) : Z :=
  match fuel with
  | O => size
  | S fuel => let i := Z.shiftr i 8 in
              if i =? 0 then size else intsize_loop fuel (size + 1) i
  end.
Definition intsize (i : Z) : Z := intsize_loop 8 1 i.

Definition headsize (size : Z) : Z := if size <? 56 then 1 else 1 + intsize size.

(** The bytes [puthead] writes to the front of its buffer. *)
Definition puthead (smalltag largetag size : Z) : list byte :=
  if size <? 56 then [zb (smalltag + size)]
  else let b := putint size in zb (largetag + zlen b) :: b.

(** ** The encoder's buffer *)

Record listhead := { offset : nat; size : Z }.

Record encbuf := {
  str : list byte;
  lheads : list listhead;
  lhsize : Z
}.

Definition reset : encbuf := {| str := []; lheads := []; lhsize := 0 |}.

Definition enc_Write (w : encbuf) (b : list byte) : encbuf :=
  {| str := str w ++ b; lheads := lheads w; lhsize := lhsize w |}.

Definition encodeStringHeader (w : encbuf) (size : Z) : encbuf :=
  if size <? 56 then enc_Write w [zb (0x80 + size)]
  else let b := putint size in enc_Write w (zb (0xB7 + zlen b) :: b).

Definition encodeString (w : encbuf) (b : list byte) : encbuf :=
  match b with
  | [b0] => if bz b0 <=? 0x7F then enc_Write w [b0] else enc_Write (encodeStringHeader w 1) b
  | _ => enc_Write (encodeStringHeader w (zlen b)) b
  end.

Definition enc_size (w : encbuf) : Z := zlen (str w) + lhsize w.

(** [list] returns a pointer into [lheads]; here its index. *)
Definition enc_list (w : encbuf) : nat * encbuf :=
  (length (lheads w),
   {| str := str w;
      lheads := lheads w ++ [{| offset := length (str w); size := lhsize w |}];
      lhsize := lhsize w |}).

Definition listEnd (w : encbuf) (lh : nat) : option encbuf :=
  h ← lheads w !! lh;
  let sz := enc_size w - Z.of_nat (offset h) - size h in
  Some {| str := str w;
          lheads := <[lh := {| offset := offset h; size := sz |}]> (lheads w);
          lhsize := if sz <? 56 then lhsize w + 1 else lhsize w + (1 + intsize sz) |}.

(** ** Writers *)

Inductive value :=
  | VUint (i : Z)
  | VBool (b : bool)
  | VBigInt (i : Z)
  | VBytes (b : list byte)
  | VNil
  | VList (vs : list value).

Definition writeUint (i : Z) (w : encbuf) : encbuf :=
  if i =? 0 then enc_Write w [zb 0x80]
  else if i <? 128 then enc_Write w [zb i]
  else let s := putint i in enc_Write w (zb (0x80 + zlen s) :: s).

Definition writeBool (b : bool) (w : encbuf) : encbuf :=
  enc_Write w [if b then zb 0x01 else zb 0x80].

(** [None] is the error for a negative integer. *)
Definition writeBigInt (i : Z) (w : encbuf) : option encbuf :=
  if i <? 0 then None
  else if i =? 0 then Some (enc_Write w [zb 0x80])
  else Some (encodeString w (Bytes i)).

Definition writeNil (w : encbuf) : encbuf := enc_Write w [zb 0xC0].

Fixpoint write (v : value) (w : encbuf) : option encbuf :=
  match v with
  | VUint i => Some (writeUint i w)
  | VBool b => Some (writeBool b w)
  | VBigInt i => writeBigInt i w
  | VBytes b => Some (encodeString w b)
  | VNil => Some (writeNil w)
  | VList vs =>
      let '(lh, w) := enc_list w in
      w ← (fix writes (vs : list value) (w : encbuf) : option encbuf :=
             match vs with
             | [] => Some w
             | v :: vs => w ← write v w; writes vs w
             end) vs w;
      listEnd w lh
  end.

Fixpoint writes (vs : list value) (w : encbuf) : option encbuf :=
  match vs with
  | [] => Some w
  | v :: vs => w ← write v w; writes vs w
  end.

(** ** Merging headers and string data *)

(** [copy(out[pos:], src)]: the slice panics past the end. *)
Definition copy_at (out : list byte) (pos : nat) (src : list byte) : option (list byte * nat) :=
  if (pos <=? length out)%nat then
    Some (take pos out ++ overlay src (drop pos out), Nat.min (length src) (length out - pos))
  else None.

(** The header's bytes stored from [out[pos]] on; an index past the end panics. *)
Definition store_at (out : list byte) (pos : nat) (src : list byte) : option (list byte) :=
  if (pos + length src <=? length out)%nat then
    Some (take pos out ++ src ++ drop (pos + length src) out)
  else None.

(** [s[lo:hi]] *)
Definition slice (s : list byte) (lo hi : nat) : option (list byte) :=
  if ((lo <=? hi) && (hi <=? length s))%nat then Some (take (hi - lo) (drop lo s)) else None.

Fixpoint toBytes_loop (heads : list listhead) (s out : list byte) (strpos pos : nat)
    : option (list byte) :=
  match heads with
  | [] =>
      piece ← slice s strpos (length s);
      '(out, _) ← copy_at out pos piece; Some out
  | head :: heads =>
      piece ← slice s strpos (offset head);
      '(out, n) ← copy_at out pos piece;
      let pos := (pos + n)%nat in
      let strpos := (strpos + n)%nat in
      let enc := puthead 0xC0 0xF7 (size head) in
      out ← store_at out pos enc;
      toBytes_loop heads s out strpos (pos + length enc)
  end.

Definition toBytes (w : encbuf) : option (list byte) :=
  toBytes_loop (lheads w) (str w) (zeros (Z.to_nat (enc_size w))) 0 0.

(** The inner option is the error of [encode], the outer a panic. *)
Definition EncodeToBytes (v : value) : option (option (list byte)) :=
  match write v reset with
  | None => Some None
  | Some w => out ← toBytes w; Some (Some out)
  end.

(** ** Reference encoding *)

Inductive item :=
  | Str (l : list byte)
  | Lst (its : list item).

(** The header of a string or list with [n] bytes of content. *)
Definition enc_head (small large n : Z) : list byte :=
  if n <? 56 then [zb (small + n)] else zb (large + zlen (Bytes n)) :: Bytes n.

Definition enc_str (l : list byte) : list byte :=
  match l with
  | [b] => if bz b <=? 0x7F then l else enc_head 0x80 0xB7 1 ++ l
  | _ => enc_head 0x80 0xB7 (zlen l) ++ l
  end.

Fixpoint enc (i : item) : list byte :=
  match i with
  | Str l => enc_str l
  | Lst its => let c := concat (map enc its) in enc_head 0xC0 0xF7 (zlen c) ++ c
  end.

(** The item a value stands for; a negative integer stands for none. *)
Fixpoint denote (v : value) : option item :=
  match v with
  | VUint i => Some (Str (Bytes i))
  | VBool b => Some (Str (if b then [zb 1] else []))
  | VBigInt i => if i <? 0 then None else Some (Str (Bytes i))
  | VBytes b => Some (Str b)
  | VNil => Some (Lst [])
  | VList vs => its ← (fix denotes (vs : list value) : option (list item) :=
                        match vs with
                        | [] => Some []
                        | v :: vs => i ← denote v; its ← denotes vs; Some (i :: its)
                        end) vs;
                Some (Lst its)
  end.

Fixpoint denotes (vs : list value) : option (list item) :=
  match vs with
  | [] => Some []
  | v :: vs => i ← denote v; its ← denotes vs; Some (i :: its)
  end.

(** The values a [uint] field can hold. *)
Fixpoint value_ok (v : value) : Prop :=
  match v with
  | VUint i => is_uint64 i
  | VList vs => (fix go (vs : list value) : Prop :=
                   match vs with [] => True | v :: vs => value_ok v ∧ go vs end) vs
  | _ => True
  end.

Fixpoint values_ok (vs : list value) : Prop :=
  match vs with [] => True | v :: vs => value_ok v ∧ values_ok vs end.

(** String data and headers of a value, offsets relative to its start. *)
Definition shift (k : nat) (h : listhead) : listhead :=
  {| offset := k + offset h; size := size h |}.
Definition hsum (hs : list listhead) : Z := foldr (λ h acc, headsize (size h) + acc) 0 hs.

Definition append_parts (w : encbuf) (p : list byte * list listhead) : encbuf :=
  {| str := str w ++ p.1; lheads := lheads w ++ map (shift (length (str w))) p.2;
     lhsize := lhsize w + hsum p.2 |}.

(** Headers merged into the rest of the string data, from position [p] on. *)
Fixpoint flat (p : nat) (hs : list listhead) (s : list byte) : list byte :=
  match hs with
  | [] => s
  | h :: hs => take (offset h - p) s ++ puthead 0xC0 0xF7 (size h)
               ++ flat (offset h) hs (drop (offset h - p) s)
  end.

Fixpoint valid (p : nat) (hs : list listhead) (s : list byte) : Prop :=
  match hs with
  | [] => True
  | h :: hs => (p <= offset h <= p + length s)%nat ∧ valid (offset h) hs (drop (offset h - p) s)
  end.

(** ** Lemmas: structure *)

Section ValueInd.
Variable P : value → Prop.
Hypothesis HUint : ∀ i, P (VUint i).
Hypothesis HBool : ∀ b, P (VBool b).
Hypothesis HBigInt : ∀ i, P (VBigInt i).
Hypothesis HBytes : ∀ b, P (VBytes b).
Hypothesis HNil : P VNil.
Hypothesis HList : ∀ vs, Forall P vs → P (VList vs).
Fixpoint value_ind' (v : value) : P v :=
  match v with
  | VUint i => HUint i
  | VBool b => HBool b
  | VBigInt i => HBigInt i
  | VBytes b => HBytes b
  | VNil => HNil
  | VList vs => HList vs ((fix go vs := match vs return Forall P vs with
                          | [] => Forall_nil_2 _
                          | v :: vs => Forall_cons_2 _ _ _ (value_ind' v) (go vs) end) vs)
  end.
End ValueInd.

(** ** Lemmas: integers and headers *)

Lemma Bytes_size n i :
  (0 < n)%nat → 256 ^ (Z.of_nat n - 1) <= i < 256 ^ Z.of_nat n → Bytes i = be_bytes n i.
Proof.
  intros Hn [Hlo Hhi]. assert (0 < i) as Hi by (pose proof (Z.pow_pos_nonneg 256 (Z.of_nat n - 1)); lia).
  change 256 with (2 ^ 8) in Hlo, Hhi. rewrite <-Z.pow_mul_r in Hlo, Hhi by lia.
  unfold Bytes, BitLen. rewrite Z.abs_eq by lia.
  destruct (Z.eqb_spec i 0); [lia|].
  assert (8 * (Z.of_nat n - 1) <= Z.log2 i) by (apply Z.log2_le_pow2; lia).
  assert (Z.log2 i < 8 * Z.of_nat n) by (apply Z.log2_lt_pow2; lia).
  f_equal. assert ((Z.log2 i + 1 + 7) / 8 = Z.of_nat n) as ->; [|lia].
  symmetry. apply (Z.div_unique _ _ _ (Z.log2 i + 8 - 8 * Z.of_nat n)); lia.
Qed.

Lemma intsize_loop_spec f n sz i :
  (0 < n <= f)%nat → (n = 1%nat ∨ 256 ^ (Z.of_nat n - 1) <= i) → 0 <= i < 256 ^ Z.of_nat n →
  intsize_loop f sz i = sz + Z.of_nat n - 1.
Proof.
  revert n sz i. induction f as [|f IH]; intros n sz i Hn Hlo Hhi; [lia|]. cbn [intsize_loop].
  rewrite Z.shiftr_div_pow2 by lia. change (2 ^ 8) with 256.
  destruct n as [|[|n]]; [lia| |].
  - rewrite Z.div_small by (simpl in Hhi; lia). simpl. lia.
  - destruct Hlo as [|Hlo]; [lia|].
    replace (Z.of_nat (S (S n)) - 1) with (Z.succ (Z.of_nat n)) in Hlo by lia.
    replace (Z.of_nat (S (S n))) with (Z.succ (Z.of_nat (S n))) in Hhi by lia.
    rewrite Z.pow_succ_r in Hlo, Hhi by lia.
    pose proof (Z.pow_pos_nonneg 256 (Z.of_nat n)).
    assert (256 ^ Z.of_nat n <= i / 256) by (apply Z.div_le_lower_bound; lia).
    destruct (Z.eqb_spec (i / 256) 0); [lia|].
    rewrite (IH (S n)); [lia|lia| |].
    + right. replace (Z.of_nat (S n) - 1) with (Z.of_nat n) by lia. done.
    + split; [apply Z.div_pos; lia|]. apply Z.div_lt_upper_bound; lia.
Qed.

(** The number of bytes of a 64-bit integer. *)
Lemma byte_count i :
  0 < i < 2 ^ 64 → ∃ n, (0 < n <= 8)%nat ∧ 256 ^ (Z.of_nat n - 1) <= i < 256 ^ Z.of_nat n.
Proof.
  intros Hi. exists (Z.to_nat (Z.log2 i / 8 + 1)).
  pose proof (Z.log2_spec i ltac:(lia)) as [Hlo Hhi]. pose proof (Z.log2_nonneg i).
  assert (Z.log2 i < 64) by (apply Z.log2_lt_pow2; lia).
  pose proof (Z.div_mod (Z.log2 i) 8 ltac:(lia)) as Hdm.
  pose proof (Z.mod_pos_bound (Z.log2 i) 8 ltac:(lia)).
  split; [lia|]. change 256 with (2 ^ 8). rewrite <-!Z.pow_mul_r by lia. split.
  - etrans; [|exact Hlo]. apply Z.pow_le_mono_r; lia.
  - eapply Z.lt_le_trans; [exact Hhi|]. apply Z.pow_le_mono_r; lia.
Qed.

Lemma putint_spec i : 0 < i < 2 ^ 64 → putint i = Bytes i.
Proof.
  intros Hi. destruct (byte_count i Hi) as (n & Hn & Hb). rewrite (Bytes_size n) by (done || lia).
  unfold putint, be_bytes. rewrite !Z.shiftr_div_pow2 by lia.
  assert (n = 1 ∨ n = 2 ∨ n = 3 ∨ n = 4 ∨ n = 5 ∨ n = 6 ∨ n = 7 ∨ n = 8)%nat as Hc by lia.
  destruct_or! Hc; subst n; simpl in Hb; zcases; try lia;
    cbn [le_bytes reverse rev_append]; rewrite ?Z.div_div by lia; reflexivity.
Qed.

Lemma intsize_spec i : 0 < i < 2 ^ 64 → intsize i = zlen (Bytes i).
Proof.
  intros Hi. destruct (byte_count i Hi) as (n & Hn & Hb). rewrite (Bytes_size n) by (done || lia).
  unfold intsize. rewrite (intsize_loop_spec 8 n) by (lia || (right; lia) || done).
  unfold zlen. rewrite length_be_bytes. lia.
Qed.

Lemma puthead_spec small large n :
  0 <= n < 2 ^ 64 → puthead small large n = enc_head small large n.
Proof.
  intros Hn. unfold puthead, enc_head. destruct (Z.ltb_spec n 56); [done|].
  by rewrite putint_spec by lia.
Qed.

Lemma zlen_enc_head small large n : 0 <= n < 2 ^ 64 → zlen (enc_head small large n) = headsize n.
Proof.
  intros Hn. unfold enc_head, headsize. destruct (Z.ltb_spec n 56); [done|].
  rewrite intsize_spec by lia. unfold zlen. simpl. lia.
Qed.

Lemma headsize_pos n : 0 <= n < 2 ^ 64 → 1 <= headsize n.
Proof.
  intros Hn. unfold headsize. destruct (Z.ltb_spec n 56); [lia|].
  rewrite intsize_spec by lia. pose proof (zlen_nonneg (Bytes n)). lia.
Qed.

(** ** Lemmas: merging *)

Lemma hsum_app hs hs' : hsum (hs ++ hs') = hsum hs + hsum hs'.
Proof. induction hs; simpl; lia. Qed.

Lemma hsum_shift k hs : hsum (map (shift k) hs) = hsum hs.
Proof. induction hs; simpl; lia. Qed.

Lemma shift_shift j k h : shift j (shift k h) = shift (j + k) h.
Proof. unfold shift. simpl. f_equal. lia. Qed.

Lemma map_shift_shift j k hs : map (shift j) (map (shift k) hs) = map (shift (j + k)) hs.
Proof. rewrite map_map. apply map_ext. intros. apply shift_shift. Qed.

Lemma flat_shift k p hs s : flat (k + p) (map (shift k) hs) s = flat p hs s.
Proof.
  revert p s. induction hs as [|h hs IH]; intros p s; [done|]. simpl.
  replace (k + offset h - (k + p))%nat with (offset h - p)%nat by lia. by rewrite IH.
Qed.

Lemma valid_shift k p hs s : valid p hs s → valid (k + p) (map (shift k) hs) s.
Proof.
  revert p s. induction hs as [|h hs IH]; intros p s; [done|]. simpl. intros [H1 H2].
  replace (k + offset h - (k + p))%nat with (offset h - p)%nat by lia. split; [lia|auto].
Qed.

Lemma valid_app p hs1 hs2 s1 s2 :
  valid p hs1 s1 → valid (p + length s1) hs2 s2 → valid p (hs1 ++ hs2) (s1 ++ s2).
Proof.
  revert p s1. induction hs1 as [|h hs1 IH]; intros p s1; simpl.
  - intros _. destruct hs2 as [|h hs2]; [done|]. simpl. intros [H1 H2]. split.
    + rewrite length_app. lia.
    + rewrite drop_app_ge by lia. by replace (offset h - p - length s1)%nat
        with (offset h - (p + length s1))%nat by lia.
  - intros [H1 H2] H3. split; [rewrite length_app; lia|].
    rewrite drop_app_le by lia. apply IH; [done|].
    rewrite length_drop. by replace (offset h + (length s1 - (offset h - p)))%nat
      with (p + length s1)%nat by lia.
Qed.

Lemma flat_app p hs1 hs2 s1 s2 :
  valid p hs1 s1 → valid (p + length s1) hs2 s2 →
  flat p (hs1 ++ hs2) (s1 ++ s2) = flat p hs1 s1 ++ flat (p + length s1) hs2 s2.
Proof.
  revert p s1. induction hs1 as [|h hs1 IH]; intros p s1; simpl.
  - intros _. destruct hs2 as [|h hs2]; [done|]. simpl. intros [H1 H2].
    rewrite take_app_ge, drop_app_ge, <-app_assoc by lia.
    by replace (offset h - p - length s1)%nat with (offset h - (p + length s1))%nat by lia.
  - intros [H1 H2] H3. rewrite take_app_le, drop_app_le, <-!app_assoc by lia. do 2 f_equal.
    rewrite IH; rewrite ?length_drop;
      replace (offset h + (length s1 - (offset h - p)))%nat with (p + length s1)%nat by lia; done.
Qed.

Lemma length_flat p hs s :
  valid p hs s → Forall (λ h, 0 <= size h < 2 ^ 64) hs →
  zlen (flat p hs s) = zlen s + hsum hs.
Proof.
  revert p s. induction hs as [|h hs IH]; intros p s; simpl; [lia|].
  intros [H1 H2] [Hh Hs]%Forall_cons_1. pose proof (IH _ _ H2 Hs) as HI.
  pose proof (zlen_enc_head 0xC0 0xF7 _ Hh) as He. rewrite <-puthead_spec in He by done.
  unfold zlen in *. rewrite !length_app, length_take. rewrite length_drop in HI. lia.
Qed.

(** [toBytes] on a buffer whose tail has just the room that is needed. *)
Lemma toBytes_loop_spec hs s d r strpos :
  (strpos <= length s)%nat → valid strpos hs (drop strpos s) →
  Forall (λ h, 0 <= size h < 2 ^ 64) hs →
  length r = length (flat strpos hs (drop strpos s)) →
  toBytes_loop hs s (d ++ r) strpos (length d) = Some (d ++ flat strpos hs (drop strpos s)).
Proof.
  revert d r strpos. induction hs as [|h hs IH]; intros d r strpos Hp Hv Hf Hr; simpl in *.
  - unfold slice, copy_at. rewrite length_app.
    replace ((strpos <=? length s) && (length s <=? length s))%nat with true
      by (symmetry; apply andb_true_intro; split; apply Nat.leb_le; lia).
    cbn [mbind option_bind]. destruct (Nat.leb_spec (length d) (length d + length r)); [|lia].
    cbn [mbind option_bind]. rewrite take_app_length, drop_app_length. do 2 f_equal.
    rewrite take_ge by (rewrite length_drop; lia). by rewrite overlay_full.
  - destruct Hv as [Ho Hv]. apply Forall_cons_1 in Hf as [Hh Hf].
    rewrite !length_app, length_take, length_drop in Hr. rewrite length_drop in Ho.
    unfold slice. replace ((strpos <=? offset h) && (offset h <=? length s))%nat with true
      by (symmetry; apply andb_true_intro; split; apply Nat.leb_le; lia).
    cbn [mbind option_bind]. unfold copy_at. rewrite length_app.
    destruct (Nat.leb_spec (length d) (length d + length r)); [|lia]. cbn [mbind option_bind].
    rewrite take_app_length, drop_app_length, length_take, length_drop.
    replace (Nat.min (Nat.min (offset h - strpos) (length s - strpos))
      (length d + length r - length d))%nat with (offset h - strpos)%nat by lia.
    set (piece := take (offset h - strpos) (drop strpos s)).
    assert (length piece = offset h - strpos)%nat as Hpl
      by (unfold piece; rewrite length_take, length_drop; lia).
    rewrite overlay_app by lia. unfold store_at.
    rewrite !length_app, length_drop, Hpl.
    destruct (Nat.leb_spec (length d + (offset h - strpos) + length (puthead 0xC0 0xF7 (size h)))
      (length d + (offset h - strpos + (length r - (offset h - strpos))))); [|lia].
    cbn [mbind option_bind].
    replace (strpos + (offset h - strpos))%nat with (offset h) by lia.
    rewrite drop_drop in Hr, Hv |- *.
    replace (strpos + (offset h - strpos))%nat with (offset h) in Hr, Hv |- * by lia.
    rewrite (app_assoc d piece), take_app_length' by (rewrite length_app; lia).
    rewrite drop_app_ge by (rewrite length_app; lia). rewrite !app_assoc.
    replace (length d + (offset h - strpos) + length (puthead 0xC0 0xF7 (size h)))%nat
      with (length ((d ++ piece) ++ puthead 0xC0 0xF7 (size h))) by (rewrite !length_app; lia).
    rewrite IH; [by rewrite <-!app_assoc|lia|done|done|].
    rewrite !length_drop, !length_app. lia.
Qed.

(** ** Lemmas: parts that merge to an encoding *)

Definition parts_good (p : list byte * list listhead) (e : list byte) : Prop :=
  valid 0 p.2 p.1 ∧ flat 0 p.2 p.1 = e ∧ Forall (λ h, 0 <= size h < 2 ^ 64) p.2.

Lemma parts_good_len p e : parts_good p e → zlen p.1 + hsum p.2 = zlen e.
Proof. intros (Hv & <- & Hf). symmetry. by apply length_flat. Qed.

Lemma parts_good_str s : parts_good (s, []) s.
Proof. by repeat split. Qed.

Lemma parts_good_app p1 p2 e1 e2 :
  parts_good p1 e1 → parts_good p2 e2 →
  parts_good (p1.1 ++ p2.1, p1.2 ++ map (shift (length p1.1)) p2.2) (e1 ++ e2).
Proof.
  destruct p1 as [s1 hs1], p2 as [s2 hs2]. intros (V1 & <- & F1) (V2 & <- & F2). simpl in *.
  pose proof (valid_shift (length s1) 0 hs2 s2 V2) as V2'. rewrite Nat.add_0_r in V2'.
  split; [by apply valid_app|]. split.
  - simpl. rewrite flat_app by done. f_equal. simpl.
    rewrite <-(flat_shift (length s1) 0 hs2 s2). by rewrite Nat.add_0_r.
  - apply Forall_app. split; [done|]. by apply Forall_fmap.
Qed.

Lemma parts_good_list p e :
  parts_good p e → zlen e < 2 ^ 64 →
  parts_good (p.1, {| offset := 0; size := zlen p.1 + hsum p.2 |} :: p.2)
    (enc_head 0xC0 0xF7 (zlen e) ++ e).
Proof.
  intros Hg Hc. pose proof (parts_good_len _ _ Hg) as Hl. destruct Hg as (V & E & F).
  pose proof (zlen_nonneg e).
  split; [|split]; cbn [valid flat offset size fst snd];
    rewrite ?Nat.sub_diag, ?take_0, ?drop_0.
  - split; [lia|done].
  - rewrite Hl, E, puthead_spec by done. done.
  - constructor; [simpl; lia|done].
Qed.

(** ** Lemmas: writers append the parts *)

Lemma encodeString_append w l :
  zlen l < 2 ^ 64 → encodeString w l = append_parts w (enc_str l, []).
Proof.
  intros Hl. unfold append_parts. simpl. rewrite app_nil_r, Z.add_0_r.
  assert (∀ n, n = zlen l → enc_Write (encodeStringHeader w n) l = enc_Write w (enc_head 0x80 0xB7 n ++ l))
    as Hh.
  { intros n ->. unfold encodeStringHeader, enc_head. pose proof (zlen_nonneg l).
    destruct (Z.ltb_spec (zlen l) 56); unfold enc_Write; simpl; rewrite <-app_assoc; [done|].
    by rewrite putint_spec by lia. }
  unfold encodeString, enc_str. destruct l as [|b0 [|b1 l]]; [by rewrite Hh| |by rewrite Hh].
  destruct (bz b0 <=? 127); [done|]. by rewrite Hh.
Qed.

Lemma zlen_enc_str l : zlen l <= zlen (enc_str l).
Proof.
  unfold enc_str. destruct l as [|b0 [|b1 l]]; [unfold zlen; simpl; lia| |].
  - destruct (bz b0 <=? 127); [lia|]. unfold zlen. rewrite length_app. lia.
  - unfold zlen. rewrite length_app. lia.
Qed.

Lemma zb_small z : 0 <= z < 256 → bz (zb z) = z.
Proof. intros. rewrite bz_zb. by apply Z.mod_small. Qed.

Lemma writeUint_append w i : is_uint64 i → writeUint i w = append_parts w (enc_str (Bytes i), []).
Proof.
  intros [Hi0 Hi1]. unfold writeUint, append_parts. simpl. rewrite app_nil_r, Z.add_0_r.
  destruct (Z.eqb_spec i 0) as [->|Hn]; [done|].
  destruct (Z.ltb_spec i 128) as [Hs|Hb].
  - rewrite (Bytes_size 1) by (simpl; lia). unfold enc_Write, be_bytes, reverse. simpl.
    unfold enc_str. rewrite zb_small by lia. destruct (Z.leb_spec i 127); [done|lia].
  - assert (enc_str (Bytes i) = zb (0x80 + zlen (Bytes i)) :: Bytes i) as ->.
    { destruct (byte_count i ltac:(lia)) as (n & Hn' & Hr). rewrite (Bytes_size n) by (done || lia).
      pose proof (length_be_bytes n i) as Hl. pose proof (SetBytes_be_bytes n i) as Hsb.
      rewrite Z.mod_small in Hsb by lia. unfold enc_str, enc_head, zlen.
      destruct (be_bytes n i) as [|b0 [|b1 l]]; simpl in Hl; [lia| |].
      - unfold SetBytes in Hsb. simpl in Hsb. destruct (Z.leb_spec (bz b0) 127); [lia|done].
      - simpl length. destruct (Z.ltb_spec (Z.of_nat (S (S (length l)))) 56); [done|lia]. }
    by rewrite putint_spec by lia.
Qed.

Lemma append_parts_append w p1 p2 :
  append_parts (append_parts w p1) p2 =
  append_parts w (p1.1 ++ p2.1, p1.2 ++ map (shift (length p1.1)) p2.2).
Proof.
  unfold append_parts. simpl. rewrite length_app, map_app, map_shift_shift, hsum_app, hsum_shift.
  by rewrite !app_assoc, Z.add_assoc.
Qed.

Lemma write_VList vs w :
  write (VList vs) w = (w' ← writes vs (enc_list w).2; listEnd w' (enc_list w).1).
Proof. reflexivity. Qed.

Lemma denote_VList vs : denote (VList vs) = (its ← denotes vs; Some (Lst its)).
Proof. reflexivity. Qed.

(** A value appends parts that do not depend on the buffer and that merge to
    the encoding of its item. *)
Definition appends (v : value) : Prop :=
  ∀ i, denote v = Some i → value_ok v → zlen (enc i) < 2 ^ 64 →
  ∃ p, parts_good p (enc i) ∧ ∀ w, write v w = Some (append_parts w p).

Lemma writes_append vs its :
  Forall appends vs →
  denotes vs = Some its → values_ok vs → zlen (concat (map enc its)) < 2 ^ 64 →
  ∃ p, parts_good p (concat (map enc its)) ∧ ∀ w, writes vs w = Some (append_parts w p).
Proof.
  intros HF. revert its. induction HF as [|v vs Hv _ IH]; intros its; simpl.
  - intros [= <-] _ _. exists ([], []). split; [apply parts_good_str|]. intros w. f_equal.
    unfold append_parts. simpl. rewrite !app_nil_r, Z.add_0_r. by destruct w.
  - destruct (denote v) as [i|] eqn:Ei; [|done]. cbn [mbind option_bind].
    destruct (denotes vs) as [its'|]; [|done]. cbn [mbind option_bind].
    intros [= <-] [Hok Hoks] Hlen. simpl in Hlen. unfold zlen in Hlen. rewrite length_app in Hlen.
    destruct (Hv i Ei Hok) as (p1 & G1 & E1); [unfold zlen; lia|].
    destruct (IH its' eq_refl Hoks) as (p2 & G2 & E2); [unfold zlen; lia|].
    eexists. split; [by apply parts_good_app|]. intros w.
    rewrite E1. cbn [mbind option_bind]. by rewrite E2, append_parts_append.
Qed.

(** Closing a list sets the header [list] reserved. *)
Lemma listEnd_append w p :
  listEnd (append_parts (enc_list w).2 p) (enc_list w).1 =
  Some (append_parts w (p.1, {| offset := 0; size := zlen p.1 + hsum p.2 |} :: p.2)).
Proof.
  unfold listEnd, enc_list, append_parts, enc_size. simpl.
  rewrite <-app_assoc. cbn [app]. rewrite list_lookup_middle by done.
  cbn [mbind option_bind offset size].
  assert (zlen (str w ++ p.1) + (lhsize w + hsum p.2) - Z.of_nat (length (str w)) - lhsize w
          = zlen p.1 + hsum p.2) as -> by (unfold zlen; rewrite length_app; lia).
  f_equal. rewrite insert_app_r_alt by lia. rewrite Nat.sub_diag. simpl.
  unfold shift at 2. simpl. rewrite Nat.add_0_r. f_equal. unfold headsize.
  destruct (zlen p.1 + hsum p.2 <? 56); lia.
Qed.

Lemma write_append v : appends v.
Proof.
  induction v as [i0|b|i0|b| |vs IH] using value_ind'; intros i.
  - simpl. intros [= <-] Hok _. eexists. split; [apply parts_good_str|]. intros w.
    by rewrite writeUint_append.
  - simpl. intros [= <-] _ _. eexists. split; [apply parts_good_str|]. intros w.
    unfold writeBool, append_parts, enc_Write. simpl. rewrite app_nil_r, Z.add_0_r. by destruct b.
  - simpl. unfold writeBigInt. destruct (Z.ltb_spec i0 0); [done|]. intros [= <-] _ Hlen.
    eexists. split; [apply parts_good_str|]. intros w. destruct (Z.eqb_spec i0 0) as [->|].
    + change (enc (Str (Bytes 0))) with [zb 128]. unfold append_parts, enc_Write.
      cbn [fst snd map hsum foldr]. by rewrite app_nil_r, Z.add_0_r.
    + pose proof (zlen_enc_str (Bytes i0)). simpl in Hlen. by rewrite encodeString_append by lia.
  - simpl. intros [= <-] _ Hlen. eexists. split; [apply parts_good_str|]. intros w.
    pose proof (zlen_enc_str b). simpl in Hlen. by rewrite encodeString_append by lia.
  - intros [= <-] _ _. eexists. split; [apply parts_good_str|]. intros w. cbn [write]. f_equal.
    change (enc (Lst [])) with [zb 0xC0]. unfold writeNil, append_parts, enc_Write.
    cbn [fst snd map hsum foldr]. by rewrite app_nil_r, Z.add_0_r.
  - rewrite denote_VList. destruct (denotes vs) as [its|] eqn:E; [|done].
    intros [= <-] Hok Hlen. cbn [enc] in *.
    assert (zlen (concat (map enc its)) < 2 ^ 64) as Hc
      by (revert Hlen; unfold zlen; rewrite length_app; lia).
    destruct (writes_append vs its IH E Hok Hc) as (p & G & Ew).
    eexists. split; [by apply parts_good_list|]. intros w.
    rewrite write_VList, Ew. cbn [mbind option_bind]. apply listEnd_append.
Qed.

Lemma EncodeToBytes_enc v i :
  denote v = Some i → value_ok v → zlen (enc i) < 2 ^ 63 →
  EncodeToBytes v = Some (Some (enc i)).
Proof.
  intros Hd Hok Hlen. destruct (write_append v i Hd Hok ltac:(lia)) as (p & G & E).
  unfold EncodeToBytes. rewrite E. unfold toBytes, append_parts, reset, enc_size. simpl.
  pose proof (parts_good_len _ _ G) as Hl. destruct G as (V & E' & F).
  assert (map (shift 0) p.2 = p.2) as ->.
  { rewrite <-(map_id p.2) at 2. apply map_ext. by intros []. }
  pose proof (toBytes_loop_spec p.2 p.1 [] (zeros (Z.to_nat (zlen p.1 + hsum p.2))) 0
    ltac:(lia) V F) as HT.
  rewrite drop_0 in HT. simpl in HT.
  rewrite Z.add_0_l, HT, E'; [done|].
  unfold zeros. rewrite length_replicate, Hl, E'. unfold zlen. lia.
Qed.

(** The two-buffer encoder never panics and never writes out of range, and
    its output is the recursive RLP encoding of the value, for every nesting of
    lists, strings and integers whose encoding fits an int64. *)
Theorem EncodeToBytes_correct v i :
  denote v = Some i → value_ok v → zlen (enc i) < 2 ^ 63 →
  EncodeToBytes v = Some (Some (enc i)).
Proof. apply EncodeToBytes_enc. Qed.

Lemma EncodeToBytes_correct_witness :
  EncodeToBytes (VList [VBytes [zb 100; zb 111; zb 103]; VUint 1024; VList []; VNil]) =
  Some (Some (map zb [0xc9; 0x83; 100; 111; 103; 0x82; 4; 0; 0xc0; 0xc0])).
Proof.
  rewrite (EncodeToBytes_correct _
    (Lst [Str [zb 100; zb 111; zb 103]; Str [zb 4; zb 0]; Lst []; Lst []]));
    [reflexivity..|vm_compute; intuition congruence|reflexivity].
Defined.

(** A negative integer is an error. *)
Lemma EncodeToBytes_negative i : i < 0 → EncodeToBytes (VBigInt i) = Some None.
Proof.
  intros Hi. unfold EncodeToBytes. simpl. unfold writeBigInt.
  by destruct (Z.ltb_spec i 0); [|lia].
Qed.

(** ** rlp/raw.go *)

Inductive Kind := Byte | String | List.

Inductive rlp_error := ErrUnexpectedEOF | ErrCanonSize | ErrValueTooLarge
  | ErrExpectedString | ErrExpectedList.

Definition readSize (b : list byte) (slen : Z) : Z + rlp_error :=
  if slen >? zlen b then inr ErrUnexpectedEOF
  else
    let s := if (1 <=? slen) && (slen <=? 8)
             then foldl (λ s x, Z.lor (Z.shiftl s 8) (bz x)) 0 (take (Z.to_nat slen) b) else 0 in
    match b with
    | b0 :: _ => if (s <? 56) || (bz b0 =? 0) then inr ErrCanonSize else inl s
    | [] => if s <? 56 then inr ErrCanonSize else inl s
    end.

Definition readKind (buf : list byte) : (Kind * Z * Z) + rlp_error :=
  match buf with
  | [] => inr ErrUnexpectedEOF
  | b :: buf1 =>
      let b := bz b in
      let r :=
        if b <? 0x80 then inl (Byte, 0, 1)
        else if b <? 0xB8 then
          let contentsize := b - 0x80 in
          match buf1 with
          | b1 :: _ => if (contentsize =? 1) && (bz b1 <? 128) then inr ErrCanonSize
                       else inl (String, 1, contentsize)
          | [] => inl (String, 1, contentsize)
          end
        else if b <? 0xC0 then
          match readSize buf1 (b - 0xB7) with
          | inl cs => inl (String, b - 0xB7 + 1, cs)
          | inr e => inr e
          end
        else if b <? 0xF8 then inl (List, 1, b - 0xC0)
        else
          match readSize buf1 (b - 0xF7) with
          | inl cs => inl (List, b - 0xF7 + 1, cs)
          | inr e => inr e
          end in
      match r with
      | inr e => inr e
      | inl (k, tagsize, contentsize) =>
          if contentsize >? uint64 (zlen buf - tagsize) then inr ErrValueTooLarge
          else inl (k, tagsize, contentsize)
      end
  end.

(** Kind, content and rest; the slice bounds hold by the check in [readKind]. *)
Definition Split (b : list byte) : (Kind * list byte * list byte) + rlp_error :=
  match readKind b with
  | inr e => inr e
  | inl (k, ts, cs) =>
      inl (k, take (Z.to_nat cs) (drop (Z.to_nat ts) b), drop (Z.to_nat (ts + cs)) b)
  end.

Definition SplitString (b : list byte) : (list byte * list byte) + rlp_error :=
  match Split b with
  | inr e => inr e
  | inl (List, _, _) => inr ErrExpectedString
  | inl (_, content, rest) => inl (content, rest)
  end.

Definition SplitList (b : list byte) : (list byte * list byte) + rlp_error :=
  match Split b with
  | inr e => inr e
  | inl (List, content, rest) => inl (content, rest)
  | inl _ => inr ErrExpectedList
  end.

(** Every round removes at least one byte, so the length bounds the rounds. *)
Fixpoint CountValues_loop (fuel : nat) (i : Z) (b : list byte) : Z + rlp_error :=
  match fuel with
  | O => inl i
  | S fuel =>
      match b with
      | [] => inl i
      | _ => match readKind b with
             | inr e => inr e
             | inl (_, tagsize, size) => CountValues_loop fuel (i + 1) (drop (Z.to_nat (tagsize + size)) b)
             end
      end
  end.
Definition CountValues (b : list byte) : Z + rlp_error := CountValues_loop (length b) 0 b.

(** ** Lemmas: reading a header *)

Lemma lor_shiftl_8 a x : 0 <= x < 256 → Z.lor (Z.shiftl a 8) x = a * 256 + x.
Proof.
  intros Hx. assert (Z.land (Z.shiftl a 8) x = 0) as Hl.
  { apply Z.bits_inj'. intros n Hn. rewrite Z.land_spec, Z.bits_0.
    destruct (Z.ltb_spec n 8).
    - by rewrite Z.shiftl_spec_low.
    - rewrite <-(Z.mod_small x (2 ^ 8)) by lia. rewrite Z.mod_pow2_bits_high by lia.
      apply andb_false_r. }
  rewrite <-Z.lxor_lor, <-Z.add_nocarry_lxor by done. rewrite Z.shiftl_mul_pow2 by lia. lia.
Qed.

Lemma foldl_lor_SetBytes l : foldl (λ s x, Z.lor (Z.shiftl s 8) (bz x)) 0 l = SetBytes l.
Proof.
  unfold SetBytes. generalize 0. induction l as [|x l IH]; intros acc; simpl; [done|].
  rewrite lor_shiftl_8 by apply bz_range. apply IH.
Qed.

Lemma readSize_spec b slen :
  1 <= slen <= 8 → slen <= zlen b →
  readSize b slen =
    let s := SetBytes (take (Z.to_nat slen) b) in
    if (s <? 56) || (default 0 (bz <$> head b) =? 0) then inr ErrCanonSize else inl s.
Proof.
  intros Hs Hb. unfold readSize. rewrite foldl_lor_SetBytes.
  destruct (Z.gtb_spec slen (zlen b)); [lia|].
  replace ((1 <=? slen) && (slen <=? 8)) with true
    by (symmetry; apply andb_true_intro; split; apply Z.leb_le; lia).
  destruct b as [|b0 b]; [unfold zlen in Hb; simpl in Hb; lia|]. done.
Qed.

Lemma Bytes_head i b l : 0 < i → Bytes i = b :: l → bz b ≠ 0.
Proof.
  intros Hi E Hb. pose proof (SetBytes_Bytes i) as Hs. rewrite E in Hs.
  assert (SetBytes (b :: l) = SetBytes l) as Hd.
  { change (b :: l) with ([b] ++ l). rewrite SetBytes_app. unfold SetBytes at 1. simpl. lia. }
  pose proof (SetBytes_bound l) as Hl.
  assert (8 * zlen l < BitLen i) as HB.
  { assert (length (Bytes i) = S (length l)) as HL by (by rewrite E).
    unfold Bytes in HL. rewrite length_be_bytes in HL. unfold zlen.
    pose proof (BitLen_nonneg i). pose proof (Z.div_mod (BitLen i + 7) 8 ltac:(lia)).
    pose proof (Z.mod_pos_bound (BitLen i + 7) 8 ltac:(lia)). lia. }
  assert (BitLen i <= 8 * zlen l); [|lia].
  apply BitLen_le; [pose proof (zlen_nonneg l); lia|].
  rewrite Z.pow_mul_r by (pose proof (zlen_nonneg l); lia). change (2 ^ 8) with 256. lia.
Qed.

(** The length bytes of a long header read back. *)
Lemma readSize_Bytes n rest :
  56 <= n < 2 ^ 64 → readSize (Bytes n ++ rest) (zlen (Bytes n)) = inl n.
Proof.
  intros Hn. destruct (byte_count n ltac:(lia)) as (k & Hk & Hb).
  assert (zlen (Bytes n) = Z.of_nat k) as Hl.
  { rewrite (Bytes_size k) by (done || lia). unfold zlen. by rewrite length_be_bytes. }
  rewrite readSize_spec; [|lia|unfold zlen in *; rewrite length_app; lia]. simpl.
  rewrite take_app_length' by (unfold zlen in *; lia).
  rewrite SetBytes_Bytes, Z.abs_eq by lia. destruct (Z.ltb_spec n 56); [lia|]. simpl.
  destruct (Bytes n) as [|b l] eqn:E; [unfold zlen in Hl; simpl in Hl; lia|]. simpl.
  destruct (Z.eqb_spec (bz b) 0) as [H0|]; [|done]. exfalso.
  by apply (Bytes_head n b l); [lia|..].
Qed.

(** [Bytes] is the only encoding without a leading zero. *)
Lemma Bytes_SetBytes b l : bz b ≠ 0 → Bytes (SetBytes (b :: l)) = b :: l.
Proof.
  intros Hb. pose proof (bz_range b).
  rewrite (Bytes_size (length (b :: l))); [apply be_bytes_SetBytes|simpl; lia|].
  split; [|apply SetBytes_bound].
  change (b :: l) with ([b] ++ l). rewrite SetBytes_app.
  pose proof (SetBytes_nonneg l). unfold SetBytes at 1. simpl foldl. rewrite length_app. simpl length.
  replace (Z.of_nat (1 + length l) - 1) with (zlen l) by (unfold zlen; lia).
  pose proof (Z.pow_pos_nonneg 256 (zlen l)). pose proof (zlen_nonneg l). nia.
Qed.

(** The cascade of tests on the tag byte. *)
Ltac ltcases :=
  repeat match goal with |- context [?x <? ?y] => destruct (Z.ltb_spec x y); try lia end.

Lemma zlen_Bytes_long n : 56 <= n < 2 ^ 64 → 1 <= zlen (Bytes n) <= 8.
Proof.
  intros Hn. destruct (byte_count n ltac:(lia)) as (k & Hk & Hb).
  rewrite (Bytes_size k) by (done || lia). unfold zlen. rewrite length_be_bytes. lia.
Qed.

(** The guard against a value larger than its input. *)
Lemma room_ok {A} (l : list A) ts cs :
  0 <= ts → 0 <= cs → ts + cs <= zlen l → zlen l < 2 ^ 64 → cs >? uint64 (zlen l - ts) = false.
Proof.
  intros. rewrite uint64_id by (unfold is_uint64; lia). rewrite Z.gtb_ltb. apply Z.ltb_ge. lia.
Qed.

Lemma readKind_list c rest :
  zlen (enc_head 0xC0 0xF7 (zlen c) ++ c ++ rest) < 2 ^ 64 →
  readKind (enc_head 0xC0 0xF7 (zlen c) ++ c ++ rest) =
    inl (List, zlen (enc_head 0xC0 0xF7 (zlen c)), zlen c).
Proof.
  intros Hl. pose proof (zlen_nonneg c). unfold enc_head in *.
  destruct (Z.ltb_spec (zlen c) 56) as [Hs|Hb].
  - cbn [app] in *. unfold readKind. rewrite zb_small by lia. ltcases.
    rewrite room_ok; [|lia|lia| |done].
    + repeat f_equal. lia.
    + unfold zlen in *. simpl. rewrite length_app. lia.
  - assert (zlen c < 2 ^ 64) as Hc by (unfold zlen in *; simpl in Hl; rewrite !length_app in Hl; lia).
    pose proof (zlen_Bytes_long (zlen c) ltac:(lia)). rewrite <-app_comm_cons in *. unfold readKind.
    rewrite zb_small by lia. ltcases.
    replace (0xF7 + zlen (Bytes (zlen c)) - 0xF7) with (zlen (Bytes (zlen c))) by lia.
    rewrite readSize_Bytes by lia. rewrite room_ok; [|lia|lia| |done].
    + repeat f_equal. unfold zlen. simpl. lia.
    + unfold zlen in *. simpl. rewrite !length_app. lia.
Qed.

Lemma readKind_string c rest :
  (∀ b, c = [b] → 127 < bz b) → zlen (enc_head 0x80 0xB7 (zlen c) ++ c ++ rest) < 2 ^ 64 →
  readKind (enc_head 0x80 0xB7 (zlen c) ++ c ++ rest) =
    inl (String, zlen (enc_head 0x80 0xB7 (zlen c)), zlen c).
Proof.
  intros Hone Hl. pose proof (zlen_nonneg c). unfold enc_head in *.
  destruct (Z.ltb_spec (zlen c) 56) as [Hs|Hb].
  - cbn [app] in *. unfold readKind. rewrite zb_small by lia. ltcases.
    replace (128 + zlen c - 128) with (zlen c) by lia.
    assert (∀ X, match c ++ rest with
      | [] => X
      | b1 :: _ => if (zlen c =? 1) && (bz b1 <? 128) then inr ErrCanonSize else X
      end = X) as ->.
    { intros X. destruct c as [|b0 [|b1 c]]; cbn [app].
      - by destruct rest.
      - specialize (Hone b0 eq_refl). destruct (Z.ltb_spec (bz b0) 128); [lia|done].
      - destruct (Z.eqb_spec (zlen (b0 :: b1 :: c)) 1) as [E|]; [|done].
        unfold zlen in E. simpl in E. lia. }
    rewrite room_ok; [done|lia|lia| |done]. unfold zlen in *. simpl. rewrite length_app. lia.
  - assert (zlen c < 2 ^ 64) as Hc by (unfold zlen in *; simpl in Hl; rewrite !length_app in Hl; lia).
    pose proof (zlen_Bytes_long (zlen c) ltac:(lia)). rewrite <-app_comm_cons in *. unfold readKind.
    rewrite zb_small by lia. ltcases.
    replace (0xB7 + zlen (Bytes (zlen c)) - 0xB7) with (zlen (Bytes (zlen c))) by lia.
    rewrite readSize_Bytes by lia. rewrite room_ok; [|lia|lia| |done].
    + repeat f_equal. unfold zlen. simpl. lia.
    + unfold zlen in *. simpl. rewrite !length_app. lia.
Qed.

Lemma Split_readKind h c rest k :
  readKind (h ++ c ++ rest) = inl (k, zlen h, zlen c) → Split (h ++ c ++ rest) = inl (k, c, rest).
Proof.
  intros E. unfold Split. rewrite E. unfold zlen. rewrite <-Nat2Z.inj_add, !Nat2Z.id.
  rewrite drop_app_length, take_app_length. rewrite app_assoc, drop_app_length' by
    (rewrite length_app; lia). done.
Qed.

Definition kind_of (i : item) : Kind :=
  match i with
  | Str [b] => if bz b <=? 0x7F then Byte else String
  | Str _ => String
  | Lst _ => List
  end.

Definition content_of (i : item) : list byte :=
  match i with Str l => l | Lst its => concat (map enc its) end.

Lemma Split_enc_lemma i rest :
  zlen (enc i ++ rest) < 2 ^ 64 → Split (enc i ++ rest) = inl (kind_of i, content_of i, rest).
Proof.
  destruct i as [l|its]; simpl; intros Hl.
  - unfold enc_str in *. destruct l as [|b0 [|b1 l]].
    + rewrite <-app_assoc in *. apply Split_readKind, readKind_string; [done|exact Hl].
    + destruct (Z.leb_spec (bz b0) 127).
      * unfold Split, readKind. pose proof (bz_range b0). cbn [app] in *. ltcases.
        rewrite room_ok; [done|lia|lia| |done]. unfold zlen. simpl. lia.
      * rewrite <-app_assoc in *. apply Split_readKind.
        apply (readKind_string [b0]); [by intros b [= <-]|exact Hl].
    + rewrite <-app_assoc in *. apply Split_readKind, readKind_string; [done|exact Hl].
  - rewrite <-app_assoc in *. by apply Split_readKind, readKind_list.
Qed.

(** [Split] inverts the encoder: of an encoded item followed by anything it
    returns the item's kind, its content and exactly the bytes that follow. *)
Theorem Split_enc i rest :
  zlen (enc i ++ rest) < 2 ^ 64 → Split (enc i ++ rest) = inl (kind_of i, content_of i, rest).
Proof. apply Split_enc_lemma. Qed.

Lemma Split_enc_witness :
  Split (enc (Lst [Str (zeros 60); Str [zb 200]]) ++ [zb 7]) =
  inl (List, concat (map enc [Str (zeros 60); Str [zb 200]]), [zb 7]).
Proof. apply (Split_enc (Lst [Str (zeros 60); Str [zb 200]]) [zb 7]). reflexivity. Defined.

(** ** Lemmas: only canonical encodings are accepted *)

Lemma readSize_canonical b slen cs :
  1 <= slen <= 8 → readSize b slen = inl cs →
  56 <= cs ∧ ∃ b', b = Bytes cs ++ b' ∧ zlen (Bytes cs) = slen.
Proof.
  intros Hs. destruct (Z.leb_spec slen (zlen b)) as [Hb|Hb].
  - rewrite readSize_spec by done. simpl. set (s := SetBytes _).
    destruct (Z.ltb_spec s 56); [done|]. simpl. destruct (Z.eqb_spec (default 0 (bz <$> head b)) 0);
      [done|]. intros [= <-]. split; [done|].
    exists (drop (Z.to_nat slen) b). unfold s.
    destruct b as [|b0 b]; [done|]. simpl in *.
    destruct (Z.to_nat slen) as [|k] eqn:Ek; [lia|]. cbn [take drop].
    rewrite Bytes_SetBytes by done. split; [simpl; by rewrite take_drop|].
    unfold zlen in *. simpl in *. rewrite length_take. lia.
  - unfold readSize. destruct (Z.gtb_spec slen (zlen b)); [done|lia].
Qed.

Lemma Split_inv b k content rest :
  zlen b < 2 ^ 64 → Split b = inl (k, content, rest) →
  ∃ ts cs, readKind b = inl (k, ts, cs) ∧
    content = take (Z.to_nat cs) (drop (Z.to_nat ts) b) ∧ rest = drop (Z.to_nat (ts + cs)) b.
Proof.
  intros _. unfold Split. destruct (readKind b) as [[[k' ts] cs]|]; [|done].
  intros [= <- <- <-]. eauto.
Qed.

Lemma room_inv {A} (l : list A) ts cs :
  0 <= ts <= zlen l → zlen l < 2 ^ 64 → (cs >? uint64 (zlen l - ts)) = false → ts + cs <= zlen l.
Proof.
  intros H1 H2. rewrite uint64_id by (unfold is_uint64; lia). rewrite Z.gtb_ltb, Z.ltb_ge. lia.
Qed.

(** A long header determines the split. *)
Lemma long_header_split tag b0 (b : list byte) slen cs :
  bz b0 = tag + slen → 1 <= slen <= 8 → readSize b slen = inl cs →
  1 + slen + cs <= zlen (b0 :: b) →
  let content := take (Z.to_nat cs) (drop (Z.to_nat (slen + 1)) (b0 :: b)) in
  zlen content = cs ∧
  b0 :: b = (zb (tag + zlen (Bytes cs)) :: Bytes cs) ++ content
            ++ drop (Z.to_nat (slen + 1 + cs)) (b0 :: b).
Proof.
  intros Hb0 Hs Hr Hroom. destruct (readSize_canonical _ _ _ Hs Hr) as (Hcs & b' & -> & Hl).
  rewrite Hl. replace (zb (tag + slen)) with b0 by (rewrite <-Hb0; symmetry; apply zb_bz).
  assert (Z.to_nat (slen + 1) = S (length (Bytes cs))) as -> by (unfold zlen in Hl; lia).
  assert (Z.to_nat (slen + 1 + cs) = S (length (Bytes cs) + Z.to_nat cs)) as ->
    by (unfold zlen in Hl; lia).
  cbn [drop]. rewrite drop_app_length. split.
  - unfold zlen in *. rewrite length_take. simpl in Hroom. rewrite length_app in Hroom. lia.
  - rewrite drop_app_add'; [|done]. rewrite <-app_comm_cons. f_equal. by rewrite take_drop.
Qed.

(** A short header of [n] bytes of content. *)
Lemma short_header_split tag b0 (b : list byte) n :
  bz b0 = tag + n → 0 <= n < 56 → 1 + n <= zlen (b0 :: b) →
  let content := take (Z.to_nat n) (drop (Z.to_nat 1) (b0 :: b)) in
  zlen content = n ∧
  b0 :: b = [zb (tag + n)] ++ content ++ drop (Z.to_nat (1 + n)) (b0 :: b).
Proof.
  intros Hb0 Hn Hroom. replace (zb (tag + n)) with b0 by (rewrite <-Hb0; symmetry; apply zb_bz).
  replace (Z.to_nat (1 + n)) with (S (Z.to_nat n)) by lia.
  change (Z.to_nat 1) with 1%nat. cbn [drop app]. rewrite drop_0, take_drop. split; [|done].
  unfold zlen in *. rewrite length_take. simpl in Hroom. lia.
Qed.

Lemma enc_str_head c :
  (∀ b, c = [b] → 127 < bz b) → enc_str c = enc_head 0x80 0xB7 (zlen c) ++ c.
Proof.
  intros H. unfold enc_str. destruct c as [|b0 [|b1 c]]; [done| |done].
  specialize (H b0 eq_refl). by destruct (Z.leb_spec (bz b0) 127); [lia|].
Qed.

Lemma Split_canonical_lemma b k content rest :
  zlen b < 2 ^ 64 → Split b = inl (k, content, rest) →
  b = match k with
      | List => enc_head 0xC0 0xF7 (zlen content) ++ content ++ rest
      | _ => enc_str content ++ rest
      end.
Proof.
  intros Hlen HS. destruct (Split_inv _ _ _ _ Hlen HS) as (ts & cs & Hk & -> & ->). clear HS.
  destruct b as [|b0 b]; [done|]. unfold readKind in Hk. pose proof (bz_range b0).
  assert (1 <= zlen (b0 :: b)) as H1 by (unfold zlen; simpl; lia).
  assert (∀ sl c, readSize b sl = inl c → sl <= zlen b) as Hsl.
  { intros sl c. unfold readSize. by destruct (Z.gtb_spec sl (zlen b)). }
  assert (zlen (b0 :: b) = 1 + zlen b) as Hcons by (unfold zlen; simpl; lia).
  destruct (Z.ltb_spec (bz b0) 0x80); [|destruct (Z.ltb_spec (bz b0) 0xB8);
    [|destruct (Z.ltb_spec (bz b0) 0xC0); [|destruct (Z.ltb_spec (bz b0) 0xF8)]]].
  - destruct (1 >? _); [done|]. injection Hk as <- <- <-. simpl. rewrite drop_0, take_0.
    simpl. by destruct (Z.leb_spec (bz b0) 127); [|lia].
  - assert (k = String ∧ ts = 1 ∧ cs = bz b0 - 128 ∧ 1 + cs <= zlen (b0 :: b) ∧
      (cs = 1 → ∀ b1, head b = Some b1 → 127 < bz b1)) as (-> & -> & -> & Hroom & Hone).
    { destruct b as [|b1 b].
      - destruct (_ >? _) eqn:R in Hk; [done|]. injection Hk as <- <- <-.
        apply room_inv in R; [|lia|done]. done.
      - destruct (Z.eqb_spec (bz b0 - 128) 1); simpl in Hk;
          [destruct (Z.ltb_spec (bz b1) 128); [done|]|];
          (destruct (_ >? _) eqn:R in Hk; [done|]; injection Hk as <- <- <-;
           apply room_inv in R; [|lia|done]; repeat split; try done; try lia).
        intros _ b2 [= <-]. lia. }
    destruct (short_header_split 128 b0 b (bz b0 - 128)) as [Hc Hb]; [lia..|].
    rewrite enc_str_head, Hc.
    + unfold enc_head. destruct (Z.ltb_spec (bz b0 - 128) 56); [|lia]. by rewrite <-app_assoc.
    + intros b1 E. rewrite E in Hc. apply (Hone ltac:(unfold zlen in Hc; simpl in Hc; lia)).
      destruct b as [|b2 b]; [by rewrite drop_ge, take_nil in E by (simpl; lia)|].
      change (drop (Z.to_nat 1) (b0 :: b2 :: b)) with (b2 :: b) in E.
      destruct (Z.to_nat (bz b0 - 128)); [done|]. simpl in E. by injection E as -> _.
  - destruct (readSize b (bz b0 - 183)) as [c|] eqn:Er; [|done].
    destruct (_ >? _) eqn:R in Hk; [done|]. injection Hk as <- <- <-.
    apply room_inv in R; [|specialize (Hsl _ _ Er); lia|done].
    destruct (long_header_split 183 b0 b (bz b0 - 183) c) as [Hc Hb]; [lia|lia|done|lia|].
    destruct (readSize_canonical b (bz b0 - 183) c ltac:(lia) Er) as (H56 & _).
    rewrite enc_str_head, Hc.
    + unfold enc_head. destruct (Z.ltb_spec c 56); [lia|]. by rewrite <-app_assoc.
    + intros b1 E. rewrite E in Hc. unfold zlen in Hc. simpl in Hc. lia.
  - destruct (_ >? _) eqn:R in Hk; [done|]. injection Hk as <- <- <-.
    apply room_inv in R; [|lia|done].
    destruct (short_header_split 192 b0 b (bz b0 - 192)) as [Hc Hb]; [lia..|].
    rewrite Hc. unfold enc_head. by destruct (Z.ltb_spec (bz b0 - 192) 56); [|lia].
  - destruct (readSize b (bz b0 - 247)) as [c|] eqn:Er; [|done].
    destruct (_ >? _) eqn:R in Hk; [done|]. injection Hk as <- <- <-.
    apply room_inv in R; [|specialize (Hsl _ _ Er); lia|done].
    destruct (long_header_split 247 b0 b (bz b0 - 247) c) as [Hc Hb]; [lia|lia|done|lia|].
    destruct (readSize_canonical b (bz b0 - 247) c ltac:(lia) Er) as (H56 & _).
    rewrite Hc. unfold enc_head. by destruct (Z.ltb_spec c 56); [lia|].
Qed.

(** [Split] accepts canonical encodings only: whatever it accepts is the
    encoding of the content it returns, followed by the rest it returns, so no
    two byte strings split to the same value. *)
Theorem Split_canonical b k content rest :
  zlen b < 2 ^ 64 → Split b = inl (k, content, rest) →
  b = match k with
      | List => enc_head 0xC0 0xF7 (zlen content) ++ content ++ rest
      | _ => enc_str content ++ rest
      end.
Proof. apply Split_canonical_lemma. Qed.

Lemma Split_canonical_witness :
  Split [zb 0x82; zb 5; zb 6; zb 9] = inl (String, [zb 5; zb 6], [zb 9]) ∧
  [zb 0x82; zb 5; zb 6; zb 9] = enc_str [zb 5; zb 6] ++ [zb 9].
Proof.
  split; [reflexivity|].
  apply (Split_canonical [zb 0x82; zb 5; zb 6; zb 9] String [zb 5; zb 6] [zb 9]); reflexivity.
Defined.

(** [CountValues] of a concatenation of items. *)
Lemma enc_nonempty i : (0 < length (enc i))%nat.
Proof.
  destruct i as [l|its]; simpl.
  - unfold enc_str, enc_head. destruct l as [|b0 [|b1 l]]; [simpl; lia| |];
      [destruct (bz b0 <=? 127)|destruct (_ <? 56)]; simpl; lia.
  - unfold enc_head. destruct (_ <? 56); simpl; lia.
Qed.

Lemma Split_drop b k c r :
  Split b = inl (k, c, r) →
  ∃ ts cs, readKind b = inl (k, ts, cs) ∧ r = drop (Z.to_nat (ts + cs)) b.
Proof.
  unfold Split. destruct (readKind b) as [[[k' ts] cs]|]; [|done]. intros [= <- <- <-]. eauto.
Qed.

(** [CountValues] of a concatenation of encoded items is their number. *)
Theorem CountValues_enc its :
  zlen (concat (map enc its)) < 2 ^ 64 → CountValues (concat (map enc its)) = inl (zlen its).
Proof.
  intros Hl. unfold CountValues.
  assert (∀ f n, (length (concat (map enc its)) <= f)%nat →
    CountValues_loop f n (concat (map enc its)) = inl (n + zlen its)) as HG; [|by apply HG].
  induction its as [|i its IH]; intros f n Hf.
  { destruct f; simpl; by rewrite Z.add_0_r. }
  simpl in Hf, Hl |- *. rewrite length_app in Hf. pose proof (enc_nonempty i).
  destruct f as [|f]; [lia|]. simpl.
  pose proof (Split_enc_lemma i (concat (map enc its)) Hl) as HS.
  apply Split_drop in HS as (ts & cs & Hk & Hd).
  destruct (enc i ++ concat (map enc its)) eqn:E;
    [apply (f_equal length) in E; rewrite length_app in E; simpl in E; lia|].
  rewrite Hk, <-Hd. rewrite IH; [f_equal; unfold zlen; simpl; lia| |lia].
  rewrite <-E in Hl. revert Hl. unfold zlen. rewrite length_app. lia.
Qed.

Lemma CountValues_enc_witness :
  CountValues (enc (Str [zb 1]) ++ enc (Lst []) ++ enc (Str (zeros 70))) = inl 3.
Proof. apply (CountValues_enc [Str [zb 1]; Lst []; Str (zeros 70)]). reflexivity. Defined.

End Rlp.
