(* ===== verification/VmTypes.v ===== *)
(** * Types of the virtual machine

    The interface to the state ([core/vm/interface.go]), the cryptographic
    functions the machine calls, the block context and configuration
    ([core/vm/evm.go], [core/vm/interpreter.go]), contracts
    ([core/vm/contract.go]), the stack ([core/vm/stack.go],
    [core/vm/stack_table.go]) and the frame one run of the interpreter works
    on.  Tracing ([Config.Debug], [Config.Tracer]) and the pool of reusable
    integers are left out: they do not change what is computed. *)
From S2P Require Import Prelude BigMath Params OpCodes VmAnalysis VmMemory Rlp.

(** ** The state interface *)

Record Log := {
  log_Address : Address;
  log_Topics : list Hash;
  log_Data : list byte;
  log_BlockNumber : Z
}.

(** A method works on its receiver: it returns a value and the state after it. *)
Class StateDB (DB : Type) := {
  CreateAccount : Address → M DB ();
  SubBalance : Address → Z → Z → M DB ();
  AddBalance : Address → Z → Z → M DB ();
  GetBalance : Address → M DB Z;
  GetNonce : Address → M DB Z;
  SetNonce : Address → Z → M DB ();
  GetCodeHash : Address → M DB Hash;
  GetCode : Address → M DB (list byte);
  SetCode : Address → list byte → M DB ();
  GetCodeSize : Address → M DB Z;
  AddRefund : Z → M DB ();
  GetRefund : M DB Z;
  GetState : Address → Hash → M DB Hash;
  SetState : Address → Hash → Hash → M DB ();
  Suicide : Address → M DB bool;
  HasSuicided : Address → M DB bool;
  Exist : Address → M DB bool;
  Empty : Address → M DB bool;
  RevertToSnapshot : Z → M DB ();
  Snapshot : M DB Z;
  AddLog : Log → M DB ();
  AddPreimage : Hash → list byte → M DB ()
}.

(** ** Cryptographic functions *)

Class Crypto := {
  Keccak256 : list byte → list byte;
  length_Keccak256 : ∀ l, length (Keccak256 l) = 32%nat;
  sha256_Sum256 : list byte → list byte;
  length_sha256 : ∀ l, length (sha256_Sum256 l) = 32%nat;
  ripemd160_Sum : list byte → list byte;
  length_ripemd160 : ∀ l, length (ripemd160_Sum l) = 20%nat;
  Ecrecover : list byte → list byte → option (list byte);
  length_Ecrecover : ∀ h s p, Ecrecover h s = Some p → length p = 65%nat;
  G1 : Type;
  G2 : Type;
  G1_Unmarshal : list byte → option G1;
  G2_Unmarshal : list byte → option G2;
  G1_Marshal : G1 → list byte;
  length_G1_Marshal : ∀ p, length (G1_Marshal p) = 64%nat;
  G1_Add : G1 → G1 → G1;
  G1_ScalarMult : G1 → Z → G1;
  PairingCheck : list G1 → list G2 → bool
}.

Definition Keccak256Hash `{Crypto} (data : list byte) : Hash := BytesToHash (Keccak256 data).

(** [rlp.EncodeToBytes([]interface{}{b, nonce})] cannot fail. *)
Definition CreateAddress `{Crypto} (b : Address) (nonce : Z) : Address :=
  let data := match Rlp.EncodeToBytes (Rlp.VList [Rlp.VBytes (AddressBytes b); Rlp.VUint nonce]) with
              | Some (Some data) => data
              | _ => []
              end in
  BytesToAddress (drop 12 (Keccak256 data)).

Definition CreateAddress2 `{Crypto} (b : Address) (salt : Hash) (code : list byte) : Address :=
  BytesToAddress (drop 12 (Keccak256 ([zb 0xff] ++ AddressBytes b ++ HashBytes salt ++ code))).

(** ** Context and configuration *)

(** [CanTransfer] and [Transfer] take the state as their first argument. *)
Record Context (DB : Type) := {
  CanTransfer : Address → Z → M DB bool;
  Transfer : Address → Address → Z → Z → M DB ();
  GetHash : Z → Hash;
  Origin : Address;
  GasPrice : Z;
  Coinbase : Address;
  ctx_GasLimit : Z;
  BlockNumber : Z;
  BlockTime : Z;
  Difficulty : Z
}.
Arguments CanTransfer {_} _ _ _.
Arguments Transfer {_} _ _ _ _ _.
Arguments GetHash {_} _ _.
Arguments Origin {_} _.
Arguments GasPrice {_} _.
Arguments Coinbase {_} _.
Arguments ctx_GasLimit {_} _.
Arguments BlockNumber {_} _.
Arguments BlockTime {_} _.
Arguments Difficulty {_} _.

Record Config := {
  NoRecursion : bool;
  EnablePreimageRecording : bool
}.

(** The fields of [YVM] and [YVMInterpreter] that are set once. *)
Record Env (DB : Type) := {
  ctx : Context DB;
  chainConfig : ChainConfig;
  chainRules : Rules;
  vmConfig : Config;
  gasTable : GasTable
}.
Arguments ctx {_} _.
Arguments chainConfig {_} _.
Arguments chainRules {_} _.
Arguments vmConfig {_} _.
Arguments gasTable {_} _.

(** ** Contracts *)

(** What a callee reads of its caller: an account, or a running contract's
    address, its own caller and its value. *)
Inductive ContractRef :=
  | AccountRef (a : Address)
  | ContractOf (self callerAddress : Address) (value : option Z).

Definition ref_Address (r : ContractRef) : Address :=
  match r with AccountRef a => a | ContractOf self _ _ => self end.

(** [value] is nil only between [NewContract] and [AsDelegate]. *)
Record Contract := {
  CallerAddress : Address;
  caller : ContractRef;
  self : Address;
  Code : list byte;
  CodeHash : Hash;
  CodeAddr : option Address;
  Input : list byte;
  Gas : Z;
  value : option Z;
  IsDelegateCall : bool
}.

Definition contract_ref (c : Contract) : ContractRef := ContractOf (self c) (CallerAddress c) (value c).

Definition with_Gas (g : Z) (c : Contract) : Contract :=
  {| CallerAddress := CallerAddress c; caller := caller c; self := self c; Code := Code c;
     CodeHash := CodeHash c; CodeAddr := CodeAddr c; Input := Input c; Gas := g;
     value := value c; IsDelegateCall := IsDelegateCall c |}.

Definition with_Input (i : list byte) (c : Contract) : Contract :=
  {| CallerAddress := CallerAddress c; caller := caller c; self := self c; Code := Code c;
     CodeHash := CodeHash c; CodeAddr := CodeAddr c; Input := i; Gas := Gas c;
     value := value c; IsDelegateCall := IsDelegateCall c |}.

(** A type assertion on a caller that is not a contract panics. *)
Definition AsDelegate (c : Contract) : option Contract :=
  match caller c with
  | ContractOf _ callerAddress value =>
      Some {| CallerAddress := callerAddress; caller := caller c; self := self c; Code := Code c;
              CodeHash := CodeHash c; CodeAddr := CodeAddr c; Input := Input c; Gas := Gas c;
              value := value; IsDelegateCall := true |}
  | AccountRef _ => None
  end.

Definition GetByte (c : Contract) (n : Z) : Z :=
  if n <? zlen (Code c) then default 0 (bz <$> Code c !! Z.to_nat n) else 0.

Definition GetOp (c : Contract) (n : Z) : Z := GetByte c n.

Definition UseGas (c : Contract) (gas : Z) : bool * Contract :=
  if Gas c <? gas then (false, c) else (true, with_Gas (uint64 (Gas c - gas)) c).

Definition SetCallCode (c : Contract) (addr : Address) (hash : Hash) (code : list byte) : Contract :=
  {| CallerAddress := CallerAddress c; caller := caller c; self := self c; Code := code;
     CodeHash := hash; CodeAddr := Some addr; Input := Input c; Gas := Gas c;
     value := value c; IsDelegateCall := IsDelegateCall c |}.

(** ** The machine and a frame *)

(** The fields of [YVM] and of its interpreter that change.  [jumpdests] is
    the analysis cache the contracts of one call tree share.  [cancel] stands
    for the flag another goroutine may set at any time ([Cancel]): the number
    of loop rounds after which the flag is seen, none when it never is. *)
Record YVM (DB : Type) := {
  statedb : DB;
  depth : Z;
  readOnly : bool;
  returnData : list byte;
  callGasTemp : Z;
  jumpdests : destinations;
  cancel : option nat
}.
Arguments statedb {_} _.
Arguments depth {_} _.
Arguments readOnly {_} _.
Arguments returnData {_} _.
Arguments callGasTemp {_} _.
Arguments jumpdests {_} _.
Arguments cancel {_} _.

(** The local variables of the interpreter's loop; the top of the stack is the
    head of the list. *)
Record Frame (DB : Type) := {
  pc : Z;
  stack : list Z;
  memory : Memory;
  contract : Contract;
  yvm : YVM DB
}.
Arguments pc {_} _.
Arguments stack {_} _.
Arguments memory {_} _.
Arguments contract {_} _.
Arguments yvm {_} _.

Section Machine.
Context {DB : Type}.

Definition with_statedb (d : DB) (y : YVM DB) : YVM DB :=
  {| statedb := d; depth := depth y; readOnly := readOnly y; returnData := returnData y;
     callGasTemp := callGasTemp y; jumpdests := jumpdests y; cancel := cancel y |}.
Definition with_depth (d : Z) (y : YVM DB) : YVM DB :=
  {| statedb := statedb y; depth := d; readOnly := readOnly y; returnData := returnData y;
     callGasTemp := callGasTemp y; jumpdests := jumpdests y; cancel := cancel y |}.
Definition with_readOnly (b : bool) (y : YVM DB) : YVM DB :=
  {| statedb := statedb y; depth := depth y; readOnly := b; returnData := returnData y;
     callGasTemp := callGasTemp y; jumpdests := jumpdests y; cancel := cancel y |}.
Definition with_returnData (l : list byte) (y : YVM DB) : YVM DB :=
  {| statedb := statedb y; depth := depth y; readOnly := readOnly y; returnData := l;
     callGasTemp := callGasTemp y; jumpdests := jumpdests y; cancel := cancel y |}.
Definition with_callGasTemp (g : Z) (y : YVM DB) : YVM DB :=
  {| statedb := statedb y; depth := depth y; readOnly := readOnly y; returnData := returnData y;
     callGasTemp := g; jumpdests := jumpdests y; cancel := cancel y |}.
Definition with_jumpdests (d : destinations) (y : YVM DB) : YVM DB :=
  {| statedb := statedb y; depth := depth y; readOnly := readOnly y; returnData := returnData y;
     callGasTemp := callGasTemp y; jumpdests := d; cancel := cancel y |}.
Definition with_cancel (c : option nat) (y : YVM DB) : YVM DB :=
  {| statedb := statedb y; depth := depth y; readOnly := readOnly y; returnData := returnData y;
     callGasTemp := callGasTemp y; jumpdests := jumpdests y; cancel := c |}.

Definition with_pc (p : Z) (f : Frame DB) : Frame DB :=
  {| pc := p; stack := stack f; memory := memory f; contract := contract f; yvm := yvm f |}.
Definition with_stack (st : list Z) (f : Frame DB) : Frame DB :=
  {| pc := pc f; stack := st; memory := memory f; contract := contract f; yvm := yvm f |}.
Definition with_memory (m : Memory) (f : Frame DB) : Frame DB :=
  {| pc := pc f; stack := stack f; memory := m; contract := contract f; yvm := yvm f |}.
Definition with_contract (c : Contract) (f : Frame DB) : Frame DB :=
  {| pc := pc f; stack := stack f; memory := memory f; contract := c; yvm := yvm f |}.
Definition with_yvm (y : YVM DB) (f : Frame DB) : Frame DB :=
  {| pc := pc f; stack := stack f; memory := memory f; contract := contract f; yvm := y |}.

(** A state method called on the machine, and on a frame's machine. *)
Definition on_db {A} (m : M DB A) : M (YVM DB) A := zoom statedb with_statedb m.
Definition on_yvm {A} (m : M (YVM DB) A) : M (Frame DB) A := zoom yvm with_yvm m.
Definition on_state {A} (m : M DB A) : M (Frame DB) A := on_yvm (on_db m).

(** [Cancel] stores the abort flag; the next round of the loop sees it. *)
Definition Cancel : M (YVM DB) () := modify (with_cancel (Some O)).

(** [atomic.LoadInt32(&yvm.abort)] *)
Definition load_abort : M (YVM DB) bool := λ y,
  match cancel y with
  | None => Done false y
  | Some O => Done true y
  | Some (S n) => Done false (with_cancel (Some n) y)
  end.

(** [NewContract]: a call from an account starts with an empty analysis cache,
    a call from a contract shares its caller's. *)
Definition NewContract (caller : ContractRef) (object : Address) (value : option Z) (gas : Z)
    : M (YVM DB) Contract :=
  _ ← match caller with
      | ContractOf _ _ _ => mret ()
      | AccountRef _ => modify (with_jumpdests ∅)
      end;
  mret {| CallerAddress := ref_Address caller; caller := caller; self := object; Code := [];
          CodeHash := 0; CodeAddr := None; Input := []; Gas := gas; value := value;
          IsDelegateCall := false |}.

(** ** The stack *)

Definition push (d : Z) : M (Frame DB) () := modify (λ f, with_stack (d :: stack f) f).

Definition pop : M (Frame DB) Z := λ f,
  match stack f with
  | x :: st => Done x (with_stack st f)
  | [] => Fault Panic
  end.

Definition peek : M (Frame DB) Z := λ f,
  match stack f with
  | x :: _ => Done x f
  | [] => Fault Panic
  end.

(** An instruction that peeks mutates the integer it got in place. *)
Definition set_top (v : Z) : M (Frame DB) () := λ f,
  match stack f with
  | _ :: st => Done () (with_stack (v :: st) f)
  | [] => Fault Panic
  end.

Definition swap (n : nat) : M (Frame DB) () := λ f,
  match stack f !! (n - 1)%nat, stack f !! 0%nat with
  | Some x, Some y => Done () (with_stack (<[0%nat := x]> (<[(n - 1)%nat := y]> (stack f))) f)
  | _, _ => Fault Panic
  end.

Definition dup (n : nat) : M (Frame DB) () := λ f,
  match stack f !! (n - 1)%nat with
  | Some x => Done () (with_stack (x :: stack f) f)
  | None => Fault Panic
  end.

(** [Back(n)]: the [n]'th item from the top. *)
Definition Back (n : nat) : M (Frame DB) Z := λ f,
  match stack f !! n with
  | Some x => Done x f
  | None => Fault Panic
  end.

End Machine.

(** [stack.require] *)
Definition require (st : list Z) (n : Z) : option error :=
  if zlen st <? n then Some (errStackUnderflow (zlen st) n) else None.

Definition makeStackFunc (pop push : Z) (st : list Z) : option error :=
  match require st pop with
  | Some err => Some err
  | None =>
      if zlen st + push - pop >? StackLimit then Some (errStackLimit (zlen st) StackLimit) else None
  end.

Definition makeDupStackFunc (n : Z) : list Z → option error := makeStackFunc n (n + 1).
Definition makeSwapStackFunc (n : Z) : list Z → option error := makeStackFunc n n.

(** ** Operations *)

(** What [YVM.Call] and its variants return. *)
Notation call_result := (list byte * Z * option error)%type.
Notation create_result := (list byte * Address * Z * option error)%type.
(** What an instruction returns. *)
Notation exec_result := (list byte * option error)%type.

(** The entry points of the machine that instructions call back into. *)
Record CallOps (DB : Type) := {
  do_Call : ContractRef → Address → list byte → Z → Z → M (YVM DB) call_result;
  do_CallCode : ContractRef → Address → list byte → Z → Z → M (YVM DB) call_result;
  do_DelegateCall : ContractRef → Address → list byte → Z → M (YVM DB) call_result;
  do_StaticCall : ContractRef → Address → list byte → Z → M (YVM DB) call_result;
  do_Create : ContractRef → list byte → Z → Z → M (YVM DB) create_result;
  do_Create2 : ContractRef → list byte → Z → Z → Z → M (YVM DB) create_result
}.
Arguments do_Call {_} _ _ _ _ _ _.
Arguments do_CallCode {_} _ _ _ _ _ _.
Arguments do_DelegateCall {_} _ _ _ _ _.
Arguments do_StaticCall {_} _ _ _ _ _.
Arguments do_Create {_} _ _ _ _ _.
Arguments do_Create2 {_} _ _ _ _ _ _.

Notation executionFunc DB := (Env DB → CallOps DB → M (Frame DB) exec_result) (only parsing).
Notation gasFunc DB := (Env DB → Z → M (Frame DB) (Z * option error)) (only parsing).
(** A memory size function reads the stack; an index out of range panics. *)
Notation memorySizeFunc := (list Z → option Z) (only parsing).

Record operation (DB : Type) := {
  execute : executionFunc DB;
  gasCost : gasFunc DB;
  validateStack : list Z → option error;
  memorySize : option memorySizeFunc;
  halts : bool;
  jumps : bool;
  writes : bool;
  valid : bool;
  reverts : bool;
  returns : bool
}.
Arguments execute {_} _ _ _.
Arguments gasCost {_} _ _ _.
Arguments validateStack {_} _ _.
Arguments memorySize {_} _.
Arguments halts {_} _.
Arguments jumps {_} _.
Arguments writes {_} _.
Arguments valid {_} _.
Arguments reverts {_} _.
Arguments returns {_} _.
