(* ===== verification/VmGas.v ===== *)
(** * Gas: [core/vm/gas.go], [core/vm/gas_table.go], [core/vm/memory_table.go]

    A gas function returns the cost of an instruction or an error.  It may
    change the memory's fee counter, [callGasTemp] and the refund counter. *)
From S2P Require Import Prelude BigMath Params OpCodes VmAnalysis VmMemory VmTypes.

(** ** gas.go *)

Notation GasQuickStep := 2 (only parsing).
Notation GasFastestStep := 3 (only parsing).
Notation GasFastStep := 5 (only parsing).
Notation GasMidStep := 8 (only parsing).
Notation GasSlowStep := 10 (only parsing).
Notation GasExtStep := 20 (only parsing).
Notation GasReturn := 0 (only parsing).
Notation GasStop := 0 (only parsing).
Notation GasContractByte := 200 (only parsing).

Definition callGas (gt : GasTable) (availableGas base callCost : Z) : Z * option error :=
  let rest :=
    if BitLen callCost >? 64 then (0, Some errGasUintOverflow) else (Uint64 callCost, None) in
  if gtCreateBySuicide gt >? 0 then
    let availableGas := uint64 (availableGas - base) in
    let gas := uint64 (availableGas - availableGas / 64) in
    if (BitLen callCost >? 64) || (gas <? Uint64 callCost) then (gas, None) else rest
  else rest.

(** ** memory_table.go *)

Definition memorySha3 (st : list Z) : option Z :=
  off ← st !! 0%nat; l ← st !! 1%nat; Some (calcMemSize off l).
Definition memoryCallDataCopy (st : list Z) : option Z :=
  off ← st !! 0%nat; l ← st !! 2%nat; Some (calcMemSize off l).
Definition memoryReturnDataCopy (st : list Z) : option Z :=
  off ← st !! 0%nat; l ← st !! 2%nat; Some (calcMemSize off l).
Definition memoryCodeCopy (st : list Z) : option Z :=
  off ← st !! 0%nat; l ← st !! 2%nat; Some (calcMemSize off l).
Definition memoryExtCodeCopy (st : list Z) : option Z :=
  off ← st !! 1%nat; l ← st !! 3%nat; Some (calcMemSize off l).
Definition memoryMLoad (st : list Z) : option Z :=
  off ← st !! 0%nat; Some (calcMemSize off 32).
Definition memoryMStore8 (st : list Z) : option Z :=
  off ← st !! 0%nat; Some (calcMemSize off 1).
Definition memoryMStore (st : list Z) : option Z :=
  off ← st !! 0%nat; Some (calcMemSize off 32).
Definition memoryCreate (st : list Z) : option Z :=
  off ← st !! 1%nat; l ← st !! 2%nat; Some (calcMemSize off l).
Definition memoryCreate2 (st : list Z) : option Z :=
  off ← st !! 1%nat; l ← st !! 2%nat; Some (calcMemSize off l).
Definition memoryCall (st : list Z) : option Z :=
  o1 ← st !! 5%nat; l1 ← st !! 6%nat; o2 ← st !! 3%nat; l2 ← st !! 4%nat;
  Some (BigMax (calcMemSize o1 l1) (calcMemSize o2 l2)).
Definition memoryDelegateCall (st : list Z) : option Z :=
  o1 ← st !! 4%nat; l1 ← st !! 5%nat; o2 ← st !! 2%nat; l2 ← st !! 3%nat;
  Some (BigMax (calcMemSize o1 l1) (calcMemSize o2 l2)).
Definition memoryStaticCall (st : list Z) : option Z :=
  o1 ← st !! 4%nat; l1 ← st !! 5%nat; o2 ← st !! 2%nat; l2 ← st !! 3%nat;
  Some (BigMax (calcMemSize o1 l1) (calcMemSize o2 l2)).
Definition memoryReturn (st : list Z) : option Z :=
  off ← st !! 0%nat; l ← st !! 1%nat; Some (calcMemSize off l).
Definition memoryRevert (st : list Z) : option Z :=
  off ← st !! 0%nat; l ← st !! 1%nat; Some (calcMemSize off l).
Definition memoryLog (st : list Z) : option Z :=
  mSize ← st !! 1%nat; mStart ← st !! 0%nat; Some (calcMemSize mStart mSize).

(** ** gas_table.go *)

Section Gas.
Context {DB : Type} `{!StateDB DB}.

Implicit Types e : Env DB.

Notation gas_result := (M (Frame DB) (Z * option error)).

(** [if err != nil { return 0, err }] *)
Definition gas_then (m : gas_result) (k : Z → gas_result) : gas_result :=
  '(gas, err) ← m;
  match err with
  | Some err => mret (0, Some err)
  | None => k gas
  end.

(** [if x, overflow = f(); overflow { return 0, errGasUintOverflow }] *)
Definition no_overflow (r : Z * bool) (k : Z → gas_result) : gas_result :=
  if r.2 then mret (0, Some errGasUintOverflow) else k r.1.

Definition memGas (size : Z) : gas_result :=
  zoom memory with_memory (λ m, let '(r, m) := memoryGasCost m size in Done r m).

Definition constGasFunc (gas : Z) e (size : Z) : gas_result := mret (gas, None).

Definition gasCallDataCopy e (size : Z) : gas_result :=
  gas_then (memGas size) (λ gas,
  no_overflow (SafeAdd gas GasFastestStep) (λ gas,
  w ← Back 2;
  no_overflow (bigUint64 w) (λ words,
  no_overflow (SafeMul (toWordSize words) CopyGas) (λ words,
  no_overflow (SafeAdd gas words) (λ gas,
  mret (gas, None)))))).

Definition gasReturnDataCopy e (size : Z) : gas_result :=
  gas_then (memGas size) (λ gas,
  no_overflow (SafeAdd gas GasFastestStep) (λ gas,
  w ← Back 2;
  no_overflow (bigUint64 w) (λ words,
  no_overflow (SafeMul (toWordSize words) CopyGas) (λ words,
  no_overflow (SafeAdd gas words) (λ gas,
  mret (gas, None)))))).

Definition gasSStore e (size : Z) : gas_result :=
  y ← Back 1; x ← Back 0;
  c ← gets contract;
  val ← on_state (GetState (self c) (BigToHash x));
  if (val =? 0) && negb (Sign y =? 0) then mret (SstoreSetGas, None)
  else if negb (val =? 0) && (Sign y =? 0) then
    _ ← on_state (AddRefund SstoreRefundGas);
    mret (SstoreClearGas, None)
  else mret (SstoreResetGas, None).

Definition makeGasLog (n : Z) e (size : Z) : gas_result :=
  w ← Back 1;
  no_overflow (bigUint64 w) (λ requestedSize,
  gas_then (memGas size) (λ gas,
  no_overflow (SafeAdd gas LogGas) (λ gas,
  no_overflow (SafeAdd gas (uint64 (n * LogTopicGas))) (λ gas,
  no_overflow (SafeMul requestedSize LogDataGas) (λ memorySizeGas,
  no_overflow (SafeAdd gas memorySizeGas) (λ gas,
  mret (gas, None))))))).

Definition gasSha3 e (size : Z) : gas_result :=
  gas_then (memGas size) (λ gas,
  no_overflow (SafeAdd gas Sha3Gas) (λ gas,
  w ← Back 1;
  no_overflow (bigUint64 w) (λ wordGas,
  no_overflow (SafeMul (toWordSize wordGas) Sha3WordGas) (λ wordGas,
  no_overflow (SafeAdd gas wordGas) (λ gas,
  mret (gas, None)))))).

Definition gasCodeCopy e (size : Z) : gas_result :=
  gas_then (memGas size) (λ gas,
  no_overflow (SafeAdd gas GasFastestStep) (λ gas,
  w ← Back 2;
  no_overflow (bigUint64 w) (λ wordGas,
  no_overflow (SafeMul (toWordSize wordGas) CopyGas) (λ wordGas,
  no_overflow (SafeAdd gas wordGas) (λ gas,
  mret (gas, None)))))).

Definition gasExtCodeCopy e (size : Z) : gas_result :=
  gas_then (memGas size) (λ gas,
  no_overflow (SafeAdd gas (gtExtcodeCopy (gasTable e))) (λ gas,
  w ← Back 3;
  no_overflow (bigUint64 w) (λ wordGas,
  no_overflow (SafeMul (toWordSize wordGas) CopyGas) (λ wordGas,
  no_overflow (SafeAdd gas wordGas) (λ gas,
  mret (gas, None)))))).

Definition gasExtCodeHash e (size : Z) : gas_result := mret (gtExtcodeHash (gasTable e), None).

(** [if err != nil { return 0, errGasUintOverflow }] *)
Definition gas_then_overflow (m : gas_result) (k : Z → gas_result) : gas_result :=
  '(gas, err) ← m;
  match err with
  | Some _ => mret (0, Some errGasUintOverflow)
  | None => k gas
  end.

Definition gasMLoad e (size : Z) : gas_result :=
  gas_then_overflow (memGas size) (λ gas,
  no_overflow (SafeAdd gas GasFastestStep) (λ gas, mret (gas, None))).

Definition gasMStore8 e (size : Z) : gas_result :=
  gas_then_overflow (memGas size) (λ gas,
  no_overflow (SafeAdd gas GasFastestStep) (λ gas, mret (gas, None))).

Definition gasMStore e (size : Z) : gas_result :=
  gas_then_overflow (memGas size) (λ gas,
  no_overflow (SafeAdd gas GasFastestStep) (λ gas, mret (gas, None))).

Definition gasCreate e (size : Z) : gas_result :=
  gas_then (memGas size) (λ gas,
  no_overflow (SafeAdd gas CreateGas) (λ gas, mret (gas, None))).

Definition gasCreate2 e (size : Z) : gas_result :=
  gas_then (memGas size) (λ gas,
  no_overflow (SafeAdd gas Create2Gas) (λ gas, mret (gas, None))).

Definition gasBalance e (size : Z) : gas_result := mret (gtBalance (gasTable e), None).
Definition gasExtCodeSize e (size : Z) : gas_result := mret (gtExtcodeSize (gasTable e), None).
Definition gasSLoad e (size : Z) : gas_result := mret (gtSLoad (gasTable e), None).

Definition gasExp e (size : Z) : gas_result :=
  x ← Back 1;
  let expByteLen := (BitLen x + 7) / 8 in
  no_overflow (SafeAdd (uint64 (expByteLen * gtExpByte (gasTable e))) GasSlowStep) (λ gas,
  mret (gas, None)).

Definition gasCall e (size : Z) : gas_result :=
  v ← Back 2; a ← Back 1;
  let gas := gtCalls (gasTable e) in
  let transfersValue := negb (Sign v =? 0) in
  let address := BigToAddress a in
  let eip158 := IsEIP158 (chainConfig e) (BlockNumber (ctx e)) in
  gas ← (if eip158 then
           (* the state is asked only when a value is transferred *)
           if transfersValue then
             empty ← on_state (Empty address);
             mret (if (empty : bool) then uint64 (gas + CallNewAccountGas) else gas)
           else mret gas
         else
           exist ← on_state (Exist address);
           mret (if (exist : bool) then gas else uint64 (gas + CallNewAccountGas)));
  let gas := if transfersValue then uint64 (gas + CallValueTransferGas) else gas in
  gas_then (memGas size) (λ memoryGas,
  no_overflow (SafeAdd gas memoryGas) (λ gas,
  c ← gets contract; cost ← Back 0;
  let '(temp, err) := callGas (gasTable e) (Gas c) gas cost in
  _ ← on_yvm (modify (with_callGasTemp temp));
  match err with
  | Some err => mret (0, Some err)
  | None => no_overflow (SafeAdd gas temp) (λ gas, mret (gas, None))
  end)).

Definition gasCallCode e (size : Z) : gas_result :=
  v ← Back 2;
  let gas := gtCalls (gasTable e) in
  let gas := if negb (Sign v =? 0) then uint64 (gas + CallValueTransferGas) else gas in
  gas_then (memGas size) (λ memoryGas,
  no_overflow (SafeAdd gas memoryGas) (λ gas,
  c ← gets contract; cost ← Back 0;
  let '(temp, err) := callGas (gasTable e) (Gas c) gas cost in
  _ ← on_yvm (modify (with_callGasTemp temp));
  match err with
  | Some err => mret (0, Some err)
  | None => no_overflow (SafeAdd gas temp) (λ gas, mret (gas, None))
  end)).

Definition gasReturn e (size : Z) : gas_result := memGas size.
Definition gasRevert e (size : Z) : gas_result := memGas size.

Definition gasSuicide e (size : Z) : gas_result :=
  c ← gets contract;
  gas ← (if IsEIP150 (chainConfig e) (BlockNumber (ctx e)) then
           let gas := gtSuicide (gasTable e) in
           a ← Back 0;
           let address := BigToAddress a in
           if IsEIP158 (chainConfig e) (BlockNumber (ctx e)) then
             empty ← on_state (Empty address);
             if (empty : bool) then
               bal ← on_state (GetBalance (self c));
               mret (if negb (Sign bal =? 0)
                     then uint64 (gas + gtCreateBySuicide (gasTable e)) else gas)
             else mret gas
           else
             exist ← on_state (Exist address);
             mret (if (exist : bool) then gas else uint64 (gas + gtCreateBySuicide (gasTable e)))
         else mret 0);
  suicided ← on_state (HasSuicided (self c));
  _ ← (if (suicided : bool) then mret () else on_state (AddRefund SuicideRefundGas));
  mret (gas, None).

Definition gasDelegateCall e (size : Z) : gas_result :=
  gas_then (memGas size) (λ gas,
  no_overflow (SafeAdd gas (gtCalls (gasTable e))) (λ gas,
  c ← gets contract; cost ← Back 0;
  let '(temp, err) := callGas (gasTable e) (Gas c) gas cost in
  _ ← on_yvm (modify (with_callGasTemp temp));
  match err with
  | Some err => mret (0, Some err)
  | None => no_overflow (SafeAdd gas temp) (λ gas, mret (gas, None))
  end)).

Definition gasStaticCall e (size : Z) : gas_result :=
  gas_then (memGas size) (λ gas,
  no_overflow (SafeAdd gas (gtCalls (gasTable e))) (λ gas,
  c ← gets contract; cost ← Back 0;
  let '(temp, err) := callGas (gasTable e) (Gas c) gas cost in
  _ ← on_yvm (modify (with_callGasTemp temp));
  match err with
  | Some err => mret (0, Some err)
  | None => no_overflow (SafeAdd gas temp) (λ gas, mret (gas, None))
  end)).

Definition gasPush e (size : Z) : gas_result := mret (GasFastestStep, None).
Definition gasSwap e (size : Z) : gas_result := mret (GasFastestStep, None).
Definition gasDup e (size : Z) : gas_result := mret (GasFastestStep, None).

End Gas.
