(* ===== verification/VmInstructions.v ===== *)
(** * Instructions: [core/vm/instructions.go]

    One definition per instruction.  An instruction that peeks at the top of
    the stack and mutates that integer is [peek] followed by [set_top]. *)
From S2P Require Import Prelude BigMath Params OpCodes VmAnalysis VmMemory VmTypes VmGas.

Section Instructions.
Context {DB : Type} `{!StateDB DB} `{!Crypto}.

Implicit Types e : Env DB.
Implicit Types o : CallOps DB.

Notation exec := (M (Frame DB) exec_result).

(** [return nil, nil] *)
Definition done_nil : exec := mret ([], None).

(** ** Arithmetic *)

Definition opAdd e o : exec :=
  x ← pop; y ← peek; _ ← set_top (U256 (x + y)); done_nil.

Definition opSub e o : exec :=
  x ← pop; y ← peek; _ ← set_top (U256 (x - y)); done_nil.

Definition opMul e o : exec :=
  x ← pop; y ← pop; _ ← push (U256 (x * y)); done_nil.

Definition opDiv e o : exec :=
  x ← pop; y ← peek;
  _ ← (if negb (Sign y =? 0) then set_top (U256 (bigDiv x y)) else set_top 0);
  done_nil.

Definition opSdiv e o : exec :=
  x ← pop; y ← pop;
  let x := S256 x in let y := S256 y in
  _ ← (if (Sign y =? 0) || (Sign x =? 0) then push 0
       else
         let res := if negb (Sign x =? Sign y) then - bigDiv (Z.abs x) (Z.abs y)
                    else bigDiv (Z.abs x) (Z.abs y) in
         push (U256 res));
  done_nil.

Definition opMod e o : exec :=
  x ← pop; y ← pop;
  _ ← (if Sign y =? 0 then push 0 else push (U256 (bigMod x y)));
  done_nil.

Definition opSmod e o : exec :=
  x ← pop; y ← pop;
  let x := S256 x in let y := S256 y in
  _ ← (if Sign y =? 0 then push 0
       else
         let res := if Sign x <? 0 then - bigMod (Z.abs x) (Z.abs y)
                    else bigMod (Z.abs x) (Z.abs y) in
         push (U256 res));
  done_nil.

Definition opExp e o : exec :=
  base ← pop; exponent ← pop; _ ← push (Exp base exponent).1; done_nil.

Definition opSignExtend e o : exec :=
  back ← pop;
  _ ← (if back <? 31 then
         let bit := Uint64 back * 8 + 7 in
         num ← pop;
         let mask := Z.shiftl 1 bit - 1 in
         push (U256 (if Z.testbit num bit then Z.lor num (Z.lnot mask) else Z.land num mask))
       else mret ());
  done_nil.

Definition opNot e o : exec :=
  x ← peek; _ ← set_top (U256 (Z.lnot x)); done_nil.

(** ** Comparison and bits *)

Definition opLt e o : exec :=
  x ← pop; y ← peek; _ ← set_top (if x <? y then 1 else 0); done_nil.

Definition opGt e o : exec :=
  x ← pop; y ← peek; _ ← set_top (if x >? y then 1 else 0); done_nil.

Definition opSlt e o : exec :=
  x ← pop; y ← peek;
  _ ← (if (tt255 <=? x) && (y <? tt255) then set_top 1
       else if (x <? tt255) && (tt255 <=? y) then set_top 0
       else set_top (if x <? y then 1 else 0));
  done_nil.

Definition opSgt e o : exec :=
  x ← pop; y ← peek;
  _ ← (if (tt255 <=? x) && (y <? tt255) then set_top 0
       else if (x <? tt255) && (tt255 <=? y) then set_top 1
       else set_top (if x >? y then 1 else 0));
  done_nil.

Definition opEq e o : exec :=
  x ← pop; y ← peek; _ ← set_top (if x =? y then 1 else 0); done_nil.

Definition opIszero e o : exec :=
  x ← peek; _ ← set_top (if Sign x >? 0 then 0 else 1); done_nil.

Definition opAnd e o : exec :=
  x ← pop; y ← pop; _ ← push (Z.land x y); done_nil.

Definition opOr e o : exec :=
  x ← pop; y ← peek; _ ← set_top (Z.lor x y); done_nil.

Definition opXor e o : exec :=
  x ← pop; y ← peek; _ ← set_top (Z.lxor x y); done_nil.

Definition opByte e o : exec :=
  th ← pop; val ← peek;
  _ ← (if th <? 32 then set_top (bz (Byte_at val 32 (Int64 th))) else set_top 0);
  done_nil.

Definition opAddmod e o : exec :=
  x ← pop; y ← pop; z ← pop;
  _ ← (if z >? 0 then push (U256 (bigMod (x + y) z)) else push 0);
  done_nil.

Definition opMulmod e o : exec :=
  x ← pop; y ← pop; z ← pop;
  _ ← (if z >? 0 then push (U256 (bigMod (x * y) z)) else push 0);
  done_nil.

Definition opSHL e o : exec :=
  shift ← pop; value ← peek;
  let shift := U256 shift in let value := U256 value in
  _ ← (if 256 <=? shift then set_top 0 else set_top (U256 (Z.shiftl value (Uint64 shift))));
  done_nil.

Definition opSHR e o : exec :=
  shift ← pop; value ← peek;
  let shift := U256 shift in let value := U256 value in
  _ ← (if 256 <=? shift then set_top 0 else set_top (U256 (Z.shiftr value (Uint64 shift))));
  done_nil.

Definition opSAR e o : exec :=
  shift ← pop; value ← pop;
  let shift := U256 shift in let value := S256 value in
  _ ← (if 256 <=? shift then push (U256 (if Sign value >? 0 then 0 else -1))
       else push (U256 (Z.shiftr value (Uint64 shift))));
  done_nil.

(** ** Environment and data *)

(** [memory.Get], [memory.Set] and the like panic out of range. *)
Definition memory_Get (offset size : Z) : M (Frame DB) (list byte) :=
  m ← gets memory; must (mem_Get m offset size).
Definition memory_GetPtr (offset size : Z) : M (Frame DB) (list byte) :=
  m ← gets memory; must (mem_GetPtr m offset size).
Definition memory_Set (offset size : Z) (value : list byte) : M (Frame DB) () :=
  m ← gets memory; m' ← must (mem_Set m offset size value); modify (with_memory m').

Definition opSha3 e o : exec :=
  offset ← pop; size ← pop;
  data ← memory_Get (Int64 offset) (Int64 size);
  let hash := Keccak256 data in
  _ ← (if EnablePreimageRecording (vmConfig e)
       then on_state (AddPreimage (BytesToHash hash) data) else mret ());
  _ ← push (SetBytes hash);
  done_nil.

Definition opAddress e o : exec :=
  c ← gets contract; _ ← push (self c); done_nil.

Definition opBalance e o : exec :=
  slot ← peek; b ← on_state (GetBalance (BigToAddress slot)); _ ← set_top b; done_nil.

Definition opOrigin e o : exec := _ ← push (Origin (ctx e)); done_nil.

Definition opCaller e o : exec :=
  c ← gets contract; _ ← push (CallerAddress c); done_nil.

Definition opCallValue e o : exec :=
  c ← gets contract; v ← must (value c); _ ← push v; done_nil.

Definition opCallDataLoad e o : exec :=
  c ← gets contract; x ← pop; _ ← push (SetBytes (getDataBig (Input c) x 32)); done_nil.

Definition opCallDataSize e o : exec :=
  c ← gets contract; _ ← push (zlen (Input c)); done_nil.

Definition opCallDataCopy e o : exec :=
  memOffset ← pop; dataOffset ← pop; length ← pop;
  c ← gets contract;
  _ ← memory_Set (Uint64 memOffset) (Uint64 length) (getDataBig (Input c) dataOffset length);
  done_nil.

Definition opReturnDataSize e o : exec :=
  y ← gets yvm; _ ← push (zlen (returnData y)); done_nil.

Definition opReturnDataCopy e o : exec :=
  memOffset ← pop; dataOffset ← pop; length ← pop;
  let end_ := dataOffset + length in
  y ← gets yvm;
  if (BitLen end_ >? 64) || (zlen (returnData y) <? Uint64 end_) then
    mret ([], Some errReturnDataOutOfBounds)
  else
    (* returnData[dataOffset:end] *)
    data ← must (if Uint64 dataOffset <=? Uint64 end_ then
                   Some (take (Z.to_nat (Uint64 end_ - Uint64 dataOffset))
                           (drop (Z.to_nat (Uint64 dataOffset)) (returnData y)))
                 else None);
    _ ← memory_Set (Uint64 memOffset) (Uint64 length) data;
    done_nil.

Definition opExtCodeSize e o : exec :=
  slot ← peek; n ← on_state (GetCodeSize (BigToAddress slot)); _ ← set_top (uint64 n); done_nil.

Definition opCodeSize e o : exec :=
  c ← gets contract; _ ← push (zlen (Code c)); done_nil.

Definition opCodeCopy e o : exec :=
  memOffset ← pop; codeOffset ← pop; length ← pop;
  c ← gets contract;
  let codeCopy := getDataBig (Code c) codeOffset length in
  _ ← memory_Set (Uint64 memOffset) (Uint64 length) codeCopy;
  done_nil.

Definition opExtCodeCopy e o : exec :=
  a ← pop; memOffset ← pop; codeOffset ← pop; length ← pop;
  code ← on_state (GetCode (BigToAddress a));
  let codeCopy := getDataBig code codeOffset length in
  _ ← memory_Set (Uint64 memOffset) (Uint64 length) codeCopy;
  done_nil.

Definition opExtCodeHash e o : exec :=
  slot ← peek; h ← on_state (GetCodeHash (BigToAddress slot)); _ ← set_top h; done_nil.

Definition opGasprice e o : exec := _ ← push (GasPrice (ctx e)); done_nil.

Definition opBlockhash e o : exec :=
  num ← pop;
  let n := BlockNumber (ctx e) - 257 in
  _ ← (if (num >? n) && (num <? BlockNumber (ctx e)) then push (GetHash (ctx e) (Uint64 num))
       else push 0);
  done_nil.

Definition opCoinbase e o : exec := _ ← push (Coinbase (ctx e)); done_nil.
Definition opTimestamp e o : exec := _ ← push (U256 (BlockTime (ctx e))); done_nil.
Definition opNumber e o : exec := _ ← push (U256 (BlockNumber (ctx e))); done_nil.
Definition opDifficulty e o : exec := _ ← push (U256 (Difficulty (ctx e))); done_nil.
Definition opGasLimit e o : exec := _ ← push (U256 (ctx_GasLimit (ctx e))); done_nil.

(** ** Stack, memory, storage and control flow *)

Definition opPop e o : exec := _ ← pop; done_nil.

Definition opMload e o : exec :=
  offset ← pop; data ← memory_Get (Int64 offset) 32; _ ← push (SetBytes data); done_nil.

Definition opMstore e o : exec :=
  mStart ← pop; val ← pop;
  m ← gets memory; m' ← must (mem_Set32 m (Uint64 mStart) val); _ ← modify (with_memory m');
  done_nil.

Definition opMstore8 e o : exec :=
  off ← pop; val ← pop;
  m ← gets memory;
  m' ← must (mem_store1 m (Int64 off) (zb (Z.land (Int64 val) 0xff)));
  _ ← modify (with_memory m');
  done_nil.

Definition opSload e o : exec :=
  loc ← peek; c ← gets contract;
  val ← on_state (GetState (self c) (BigToHash loc));
  _ ← set_top val;
  done_nil.

Definition opSstore e o : exec :=
  loc ← pop; val ← pop; c ← gets contract;
  _ ← on_state (SetState (self c) (BigToHash loc) (BigToHash val));
  done_nil.

(** [contract.jumpdests.has(contract.CodeHash, contract.Code, pos)] *)
Definition jumpdest_has (pos : Z) : M (Frame DB) bool := λ f,
  match has (jumpdests (yvm f)) (CodeHash (contract f)) (Code (contract f)) pos with
  | Some (r, d) => Done r (with_yvm (with_jumpdests d (yvm f)) f)
  | None => Fault StaleAnalysis
  end.

Definition opJump e o : exec :=
  pos ← pop;
  ok ← jumpdest_has pos;
  c ← gets contract;
  if (ok : bool) then _ ← modify (with_pc (Uint64 pos)); done_nil
  else mret ([], Some (errInvalidJump (GetOp c (Uint64 pos)) pos)).

Definition opJumpi e o : exec :=
  pos ← pop; cond ← pop;
  if negb (Sign cond =? 0) then
    ok ← jumpdest_has pos;
    c ← gets contract;
    if (ok : bool) then _ ← modify (with_pc (Uint64 pos)); done_nil
    else mret ([], Some (errInvalidJump (GetOp c (Uint64 pos)) pos))
  else
    _ ← modify (λ f, with_pc (uint64 (pc f + 1)) f);
    done_nil.

Definition opJumpdest e o : exec := done_nil.
Definition opPc e o : exec := p ← gets pc; _ ← push p; done_nil.
Definition opMsize e o : exec := m ← gets memory; _ ← push (Len m); done_nil.
Definition opGas e o : exec := c ← gets contract; _ ← push (Gas c); done_nil.

(** ** Calls and creations *)

Definition use_gas (gas : Z) : M (Frame DB) bool := λ f,
  let '(ok, c) := UseGas (contract f) gas in Done ok (with_contract c f).

(** [contract.Gas += returnGas] *)
Definition add_gas (returnGas : Z) : M (Frame DB) () :=
  modify (λ f, with_contract (with_Gas (uint64 (Gas (contract f) + returnGas)) (contract f)) f).

Definition opCreate e o : exec :=
  value ← pop; offset ← pop; size ← pop;
  input ← memory_Get (Int64 offset) (Int64 size);
  c ← gets contract;
  let gas := Gas c in
  let gas := if IsEIP150 (chainConfig e) (BlockNumber (ctx e)) then uint64 (gas - gas / 64) else gas in
  _ ← use_gas gas;
  '(res, addr, returnGas, suberr) ← on_yvm (do_Create o (contract_ref c) input gas value);
  _ ← (if IsHomestead (chainConfig e) (BlockNumber (ctx e)) &&
          bool_decide (suberr = Some ErrCodeStoreOutOfGas) then push 0
       else if bool_decide (suberr ≠ None) && bool_decide (suberr ≠ Some ErrCodeStoreOutOfGas)
       then push 0
       else push addr);
  _ ← add_gas returnGas;
  if bool_decide (suberr = Some errExecutionReverted) then mret (res, None) else done_nil.

Definition opCreate2 e o : exec :=
  endowment ← pop; offset ← pop; size ← pop; salt ← pop;
  input ← memory_Get (Int64 offset) (Int64 size);
  c ← gets contract;
  let gas := Gas c in
  let gas := uint64 (gas - gas / 64) in
  _ ← use_gas gas;
  '(res, addr, returnGas, suberr) ← on_yvm (do_Create2 o (contract_ref c) input gas endowment salt);
  _ ← (if bool_decide (suberr ≠ None) then push 0 else push addr);
  _ ← add_gas returnGas;
  if bool_decide (suberr = Some errExecutionReverted) then mret (res, None) else done_nil.

(** The end of the four call instructions: the success flag, the return data
    copied to memory, the gas handed back. *)
Definition call_return (r : call_result) (retOffset retSize : Z) : exec :=
  let '(ret, returnGas, err) := r in
  _ ← (if bool_decide (err ≠ None) then push 0 else push 1);
  _ ← (if bool_decide (err = None) || bool_decide (err = Some errExecutionReverted)
       then memory_Set (Uint64 retOffset) (Uint64 retSize) ret else mret ());
  _ ← add_gas returnGas;
  mret (ret, None).

Definition opCall e o : exec :=
  _ ← pop;
  y ← gets yvm;
  let gas := callGasTemp y in
  addr ← pop; value ← pop; inOffset ← pop; inSize ← pop; retOffset ← pop; retSize ← pop;
  let toAddr := BigToAddress addr in
  let value := U256 value in
  args ← memory_Get (Int64 inOffset) (Int64 inSize);
  let gas := if negb (Sign value =? 0) then uint64 (gas + CallStipend) else gas in
  c ← gets contract;
  r ← on_yvm (do_Call o (contract_ref c) toAddr args gas value);
  call_return r retOffset retSize.

Definition opCallCode e o : exec :=
  _ ← pop;
  y ← gets yvm;
  let gas := callGasTemp y in
  addr ← pop; value ← pop; inOffset ← pop; inSize ← pop; retOffset ← pop; retSize ← pop;
  let toAddr := BigToAddress addr in
  let value := U256 value in
  args ← memory_Get (Int64 inOffset) (Int64 inSize);
  let gas := if negb (Sign value =? 0) then uint64 (gas + CallStipend) else gas in
  c ← gets contract;
  r ← on_yvm (do_CallCode o (contract_ref c) toAddr args gas value);
  call_return r retOffset retSize.

Definition opDelegateCall e o : exec :=
  _ ← pop;
  y ← gets yvm;
  let gas := callGasTemp y in
  addr ← pop; inOffset ← pop; inSize ← pop; retOffset ← pop; retSize ← pop;
  let toAddr := BigToAddress addr in
  args ← memory_Get (Int64 inOffset) (Int64 inSize);
  c ← gets contract;
  r ← on_yvm (do_DelegateCall o (contract_ref c) toAddr args gas);
  call_return r retOffset retSize.

Definition opStaticCall e o : exec :=
  _ ← pop;
  y ← gets yvm;
  let gas := callGasTemp y in
  addr ← pop; inOffset ← pop; inSize ← pop; retOffset ← pop; retSize ← pop;
  let toAddr := BigToAddress addr in
  args ← memory_Get (Int64 inOffset) (Int64 inSize);
  c ← gets contract;
  r ← on_yvm (do_StaticCall o (contract_ref c) toAddr args gas);
  call_return r retOffset retSize.

Definition opReturn e o : exec :=
  offset ← pop; size ← pop;
  ret ← memory_GetPtr (Int64 offset) (Int64 size);
  mret (ret, None).

Definition opRevert e o : exec :=
  offset ← pop; size ← pop;
  ret ← memory_GetPtr (Int64 offset) (Int64 size);
  mret (ret, None).

Definition opStop e o : exec := done_nil.

Definition opSuicide e o : exec :=
  c ← gets contract;
  balance ← on_state (GetBalance (self c));
  a ← pop;
  _ ← on_state (AddBalance (BigToAddress a) balance (BlockNumber (ctx e)));
  _ ← on_state (Suicide (self c));
  done_nil.

(** ** Families *)

Fixpoint pop_topics (n : nat) : M (Frame DB) (list Hash) :=
  match n with
  | O => mret []
  | S n => t ← pop; ts ← pop_topics n; mret (BigToHash t :: ts)
  end.

Definition makeLog (size : nat) e o : exec :=
  mStart ← pop; mSize ← pop;
  topics ← pop_topics size;
  d ← memory_Get (Int64 mStart) (Int64 mSize);
  c ← gets contract;
  _ ← on_state (AddLog {| log_Address := self c; log_Topics := topics; log_Data := d;
                          log_BlockNumber := Uint64 (BlockNumber (ctx e)) |});
  done_nil.

(** [contract.Code[startMin:endMin]] panics when the bounds are out of order. *)
Definition makePush (size pushByteSize : Z) e o : exec :=
  c ← gets contract;
  p ← gets pc;
  let codeLen := zlen (Code c) in
  let startMin := if int64 (uint64 (p + 1)) <? codeLen then int64 (uint64 (p + 1)) else codeLen in
  let endMin := if startMin + pushByteSize <? codeLen then startMin + pushByteSize else codeLen in
  data ← must (if (0 <=? startMin) && (startMin <=? endMin)
               then Some (take (Z.to_nat (endMin - startMin)) (drop (Z.to_nat startMin) (Code c)))
               else None);
  _ ← push (SetBytes (RightPadBytes data pushByteSize));
  _ ← modify (λ f, with_pc (uint64 (pc f + size)) f);
  done_nil.

Definition makeDup (size : nat) e o : exec := _ ← dup size; done_nil.

Definition makeSwap (size : nat) e o : exec := _ ← swap (size + 1); done_nil.

End Instructions.
