(* ===== verification/VmPrecompiles.v ===== *)
(** * Precompiled contracts: [core/vm/contracts.go]

    The hash functions, signature recovery and curve operations are the
    functions of [Crypto]; what surrounds them is modelled. *)
From S2P Require Import Prelude BigMath Params VmAnalysis VmMemory VmTypes.

(** Order of the curve: [crypto.secp256k1N]. *)
Definition secp256k1N : Z := 0xfffffffffffffffffffffffffffffffebaaedce6af48a03bbfd25e8cd0364141.
Definition secp256k1halfN : Z := bigDiv secp256k1N 2.

Definition ValidateSignatureValues (v r s : Z) (homestead : bool) : bool :=
  if (r <? 1) || (s <? 1) then false
  else if homestead && (s >? secp256k1halfN) then false
  else (r <? secp256k1N) && (s <? secp256k1N) && ((v =? 0) || (v =? 1)).

Section Precompiles.
Context `{!Crypto}.

(** A panic of the outer option, the contract's result inside. *)
Notation run_result := (option exec_result).

(** [s[lo:hi]] *)
Definition sub_slice (s : list byte) (lo hi : nat) : option (list byte) :=
  if decide (lo <= hi <= length s)%nat then Some (take (hi - lo) (drop lo s)) else None.

(** ** ecrecover *)

Definition ecrecover_RequiredGas (input : list byte) : Z := EcrecoverGas.

Definition ecrecover_Run (input : list byte) : run_result :=
  let input := RightPadBytes input 128 in
  rb ← sub_slice input 64 96; sb ← sub_slice input 96 128;
  let r := SetBytes rb in
  let s := SetBytes sb in
  b63 ← input !! 63%nat;
  let v := (bz b63 - 27) mod 256 in
  hi ← sub_slice input 32 63;
  if negb (allZero hi) || negb (ValidateSignatureValues v r s false) then Some ([], None)
  else
    h ← sub_slice input 0 32; sig ← sub_slice input 64 128;
    match Ecrecover h (sig ++ [zb v]) with
    | None => Some ([], None)
    | Some pubKey =>
        pk ← sub_slice pubKey 1 (length pubKey);
        Some (LeftPadBytes (drop 12 (Keccak256 pk)) 32, None)
    end.

(** ** Hashes and identity *)

Definition sha256hash_RequiredGas (input : list byte) : Z :=
  uint64 (uint64 (zlen input + 31) / 32 * Sha256PerWordGas + Sha256BaseGas).
Definition sha256hash_Run (input : list byte) : run_result := Some (sha256_Sum256 input, None).

Definition ripemd160hash_RequiredGas (input : list byte) : Z :=
  uint64 (uint64 (zlen input + 31) / 32 * Ripemd160PerWordGas + Ripemd160BaseGas).
Definition ripemd160hash_Run (input : list byte) : run_result :=
  Some (LeftPadBytes (ripemd160_Sum input) 32, None).

Definition dataCopy_RequiredGas (input : list byte) : Z :=
  uint64 (uint64 (zlen input + 31) / 32 * IdentityPerWordGas + IdentityBaseGas).
Definition dataCopy_Run (input : list byte) : run_result := Some (input, None).

(** ** Modular exponentiation *)

(** [if len(input) > 96 { input = input[96:] } else { input = input[:0] }] *)
Definition skip96 (input : list byte) : list byte :=
  if zlen input >? 96 then drop 96 input else [].

Definition bigModExp_RequiredGas (input : list byte) : option Z :=
  b ← getData input 0 32; ex ← getData input 32 32; m ← getData input 64 32;
  let baseLen := SetBytes b in
  let expLen := SetBytes ex in
  let modLen := SetBytes m in
  let input := skip96 input in
  expHead ← (if zlen input <=? baseLen then Some 0
             else if expLen >? 32 then h ← getData input (Uint64 baseLen) 32; Some (SetBytes h)
             else h ← getData input (Uint64 baseLen) (Uint64 expLen); Some (SetBytes h));
  let msb := if BitLen expHead >? 0 then BitLen expHead - 1 else 0 in
  let adjExpLen := if expLen >? 32 then 8 * (expLen - 32) else 0 in
  let adjExpLen := adjExpLen + msb in
  let gas := BigMax modLen baseLen in
  let gas := if gas <=? 64 then gas * gas
             else if gas <=? 1024 then bigDiv (gas * gas) 4 + (96 * gas - 3072)
             else bigDiv (gas * gas) 16 + (480 * gas - 199680) in
  let gas := gas * BigMax adjExpLen 1 in
  let gas := bigDiv gas ModExpQuadCoeffDiv in
  Some (if BitLen gas >? 64 then MaxUint64 else Uint64 gas).

(** [base.Exp(base, exp, mod)] for a positive modulus. *)
Definition big_Exp (base exp mod_ : Z) : Z := Zpow_facts.Zpow_mod base exp mod_.

Definition bigModExp_Run (input : list byte) : run_result :=
  b ← getData input 0 32; ex ← getData input 32 32; m ← getData input 64 32;
  let baseLen := Uint64 (SetBytes b) in
  let expLen := Uint64 (SetBytes ex) in
  let modLen := Uint64 (SetBytes m) in
  let input := skip96 input in
  if (baseLen =? 0) && (modLen =? 0) then Some ([], None)
  else
    bb ← getData input 0 baseLen;
    eb ← getData input baseLen expLen;
    mb ← getData input (uint64 (baseLen + expLen)) modLen;
    let base := SetBytes bb in
    let exp := SetBytes eb in
    let mod_ := SetBytes mb in
    if BitLen mod_ =? 0 then Some (LeftPadBytes [] (int64 modLen), None)
    else Some (LeftPadBytes (Bytes (big_Exp base exp mod_)) (int64 modLen), None).

(** ** Curve operations *)

Definition newCurvePoint (blob : list byte) : G1 + error :=
  match G1_Unmarshal blob with Some p => inl p | None => inr errInvalidPoint end.

Definition newTwistPoint (blob : list byte) : G2 + error :=
  match G2_Unmarshal blob with Some p => inl p | None => inr errInvalidPoint end.

Definition bn256Add_RequiredGas (input : list byte) : Z := Bn256AddGas.

Definition bn256Add_Run (input : list byte) : run_result :=
  b1 ← getData input 0 64;
  match newCurvePoint b1 with
  | inr err => Some ([], Some err)
  | inl x =>
      b2 ← getData input 64 64;
      match newCurvePoint b2 with
      | inr err => Some ([], Some err)
      | inl y => Some (G1_Marshal (G1_Add x y), None)
      end
  end.

Definition bn256ScalarMul_RequiredGas (input : list byte) : Z := Bn256ScalarMulGas.

Definition bn256ScalarMul_Run (input : list byte) : run_result :=
  b1 ← getData input 0 64;
  match newCurvePoint b1 with
  | inr err => Some ([], Some err)
  | inl p => k ← getData input 64 32; Some (G1_Marshal (G1_ScalarMult p (SetBytes k)), None)
  end.

Definition true32Byte : list byte := zeros 31 ++ [zb 1].
Definition false32Byte : list byte := zeros 32.

Definition bn256Pairing_RequiredGas (input : list byte) : Z :=
  uint64 (Bn256PairingBaseGas + zlen input / 192 * Bn256PairingPerPointGas).

(** [rounds] is the number of 192-byte pieces that are left, [i] the offset. *)
Fixpoint bn256Pairing_loop (rounds i : nat) (input : list byte) (cs : list G1) (ts : list G2)
    : option ((list G1 * list G2) + error) :=
  match rounds with
  | O => Some (inl (cs, ts))
  | S rounds =>
      b1 ← sub_slice input i (i + 64);
      match newCurvePoint b1 with
      | inr err => Some (inr err)
      | inl c =>
          b2 ← sub_slice input (i + 64) (i + 192);
          match newTwistPoint b2 with
          | inr err => Some (inr err)
          | inl t => bn256Pairing_loop rounds (i + 192) input (cs ++ [c]) (ts ++ [t])
          end
      end
  end.

Definition bn256Pairing_Run (input : list byte) : run_result :=
  if zlen input mod 192 >? 0 then Some ([], Some errBadPairingInput)
  else
    r ← bn256Pairing_loop (length input / 192) 0 input [] [];
    match r with
    | inr err => Some ([], Some err)
    | inl (cs, ts) => Some (if PairingCheck cs ts then true32Byte else false32Byte, None)
    end.

(** ** The tables *)

Inductive PrecompiledContract :=
  | ecrecover | sha256hash | ripemd160hash | dataCopy
  | bigModExp | bn256Add | bn256ScalarMul | bn256Pairing.

Definition RequiredGas (p : PrecompiledContract) (input : list byte) : option Z :=
  match p with
  | ecrecover => Some (ecrecover_RequiredGas input)
  | sha256hash => Some (sha256hash_RequiredGas input)
  | ripemd160hash => Some (ripemd160hash_RequiredGas input)
  | dataCopy => Some (dataCopy_RequiredGas input)
  | bigModExp => bigModExp_RequiredGas input
  | bn256Add => Some (bn256Add_RequiredGas input)
  | bn256ScalarMul => Some (bn256ScalarMul_RequiredGas input)
  | bn256Pairing => Some (bn256Pairing_RequiredGas input)
  end.

Definition precompiled_Run (p : PrecompiledContract) (input : list byte) : run_result :=
  match p with
  | ecrecover => ecrecover_Run input
  | sha256hash => sha256hash_Run input
  | ripemd160hash => ripemd160hash_Run input
  | dataCopy => dataCopy_Run input
  | bigModExp => bigModExp_Run input
  | bn256Add => bn256Add_Run input
  | bn256ScalarMul => bn256ScalarMul_Run input
  | bn256Pairing => bn256Pairing_Run input
  end.

Definition PrecompiledContractsHomestead (a : Address) : option PrecompiledContract :=
  if a =? 1 then Some ecrecover else if a =? 2 then Some sha256hash
  else if a =? 3 then Some ripemd160hash else if a =? 4 then Some dataCopy
  else None.

Definition PrecompiledContractsByzantium (a : Address) : option PrecompiledContract :=
  if a =? 1 then Some ecrecover else if a =? 2 then Some sha256hash
  else if a =? 3 then Some ripemd160hash else if a =? 4 then Some dataCopy
  else if a =? 5 then Some bigModExp else if a =? 6 then Some bn256Add
  else if a =? 7 then Some bn256ScalarMul else if a =? 8 then Some bn256Pairing
  else None.

Definition RunPrecompiledContract (p : PrecompiledContract) (input : list byte) (c : Contract)
    : option (exec_result * Contract) :=
  gas ← RequiredGas p input;
  let '(ok, c) := UseGas c gas in
  if (ok : bool) then r ← precompiled_Run p input; Some (r, c)
  else Some (([], Some ErrOutOfGas), c).

End Precompiles.
