(* ===== verification/VmJumpTable.v ===== *)
(** * Jump tables: [core/vm/jump_table.go]

    An instruction set is the list of its entries; a later assignment of the
    source comes first, and [get_operation] takes the first entry of an opcode.  An
    opcode without an entry has the zero operation, which is not valid. *)
From S2P Require Import Prelude BigMath Params OpCodes VmAnalysis VmMemory VmTypes VmGas.
From S2P Require Import VmInstructions.

Section JumpTable.
Context {DB : Type} `{!StateDB DB} `{!Crypto}.

Notation table := (list (Z * operation DB)).

(** STOP to BYTE. *)
Definition newFrontierInstructionSet_1 : table := [
    (STOP, {| execute := opStop; gasCost := constGasFunc 0;
       validateStack := makeStackFunc 0 0; memorySize := None;
       halts := true; jumps := false; writes := false; valid := true;
       reverts := false; returns := false |});
    (ADD, {| execute := opAdd; gasCost := constGasFunc GasFastestStep;
       validateStack := makeStackFunc 2 1; memorySize := None;
       halts := false; jumps := false; writes := false; valid := true;
       reverts := false; returns := false |});
    (MUL, {| execute := opMul; gasCost := constGasFunc GasFastStep;
       validateStack := makeStackFunc 2 1; memorySize := None;
       halts := false; jumps := false; writes := false; valid := true;
       reverts := false; returns := false |});
    (SUB, {| execute := opSub; gasCost := constGasFunc GasFastestStep;
       validateStack := makeStackFunc 2 1; memorySize := None;
       halts := false; jumps := false; writes := false; valid := true;
       reverts := false; returns := false |});
    (DIV, {| execute := opDiv; gasCost := constGasFunc GasFastStep;
       validateStack := makeStackFunc 2 1; memorySize := None;
       halts := false; jumps := false; writes := false; valid := true;
       reverts := false; returns := false |});
    (SDIV, {| execute := opSdiv; gasCost := constGasFunc GasFastStep;
       validateStack := makeStackFunc 2 1; memorySize := None;
       halts := false; jumps := false; writes := false; valid := true;
       reverts := false; returns := false |});
    (MOD, {| execute := opMod; gasCost := constGasFunc GasFastStep;
       validateStack := makeStackFunc 2 1; memorySize := None;
       halts := false; jumps := false; writes := false; valid := true;
       reverts := false; returns := false |});
    (SMOD, {| execute := opSmod; gasCost := constGasFunc GasFastStep;
       validateStack := makeStackFunc 2 1; memorySize := None;
       halts := false; jumps := false; writes := false; valid := true;
       reverts := false; returns := false |});
    (ADDMOD, {| execute := opAddmod; gasCost := constGasFunc GasMidStep;
       validateStack := makeStackFunc 3 1; memorySize := None;
       halts := false; jumps := false; writes := false; valid := true;
       reverts := false; returns := false |});
    (MULMOD, {| execute := opMulmod; gasCost := constGasFunc GasMidStep;
       validateStack := makeStackFunc 3 1; memorySize := None;
       halts := false; jumps := false; writes := false; valid := true;
       reverts := false; returns := false |});
    (EXP, {| execute := opExp; gasCost := gasExp;
       validateStack := makeStackFunc 2 1; memorySize := None;
       halts := false; jumps := false; writes := false; valid := true;
       reverts := false; returns := false |});
    (SIGNEXTEND, {| execute := opSignExtend; gasCost := constGasFunc GasFastStep;
       validateStack := makeStackFunc 2 1; memorySize := None;
       halts := false; jumps := false; writes := false; valid := true;
       reverts := false; returns := false |});
    (LT, {| execute := opLt; gasCost := constGasFunc GasFastestStep;
       validateStack := makeStackFunc 2 1; memorySize := None;
       halts := false; jumps := false; writes := false; valid := true;
       reverts := false; returns := false |});
    (GT, {| execute := opGt; gasCost := constGasFunc GasFastestStep;
       validateStack := makeStackFunc 2 1; memorySize := None;
       halts := false; jumps := false; writes := false; valid := true;
       reverts := false; returns := false |});
    (SLT, {| execute := opSlt; gasCost := constGasFunc GasFastestStep;
       validateStack := makeStackFunc 2 1; memorySize := None;
       halts := false; jumps := false; writes := false; valid := true;
       reverts := false; returns := false |});
    (SGT, {| execute := opSgt; gasCost := constGasFunc GasFastestStep;
       validateStack := makeStackFunc 2 1; memorySize := None;
       halts := false; jumps := false; writes := false; valid := true;
       reverts := false; returns := false |});
    (EQ, {| execute := opEq; gasCost := constGasFunc GasFastestStep;
       validateStack := makeStackFunc 2 1; memorySize := None;
       halts := false; jumps := false; writes := false; valid := true;
       reverts := false; returns := false |});
    (ISZERO, {| execute := opIszero; gasCost := constGasFunc GasFastestStep;
       validateStack := makeStackFunc 1 1; memorySize := None;
       halts := false; jumps := false; writes := false; valid := true;
       reverts := false; returns := false |});
    (AND, {| execute := opAnd; gasCost := constGasFunc GasFastestStep;
       validateStack := makeStackFunc 2 1; memorySize := None;
       halts := false; jumps := false; writes := false; valid := true;
       reverts := false; returns := false |});
    (XOR, {| execute := opXor; gasCost := constGasFunc GasFastestStep;
       validateStack := makeStackFunc 2 1; memorySize := None;
       halts := false; jumps := false; writes := false; valid := true;
       reverts := false; returns := false |});
    (OR, {| execute := opOr; gasCost := constGasFunc GasFastestStep;
       validateStack := makeStackFunc 2 1; memorySize := None;
       halts := false; jumps := false; writes := false; valid := true;
       reverts := false; returns := false |});
    (NOT, {| execute := opNot; gasCost := constGasFunc GasFastestStep;
       validateStack := makeStackFunc 1 1; memorySize := None;
       halts := false; jumps := false; writes := false; valid := true;
       reverts := false; returns := false |});
    (BYTE, {| execute := opByte; gasCost := constGasFunc GasFastestStep;
       validateStack := makeStackFunc 2 1; memorySize := None;
       halts := false; jumps := false; writes := false; valid := true;
       reverts := false; returns := false |})].

(** SHA3 to MLOAD. *)
Definition newFrontierInstructionSet_2 : table := [
    (SHA3, {| execute := opSha3; gasCost := gasSha3;
       validateStack := makeStackFunc 2 1; memorySize := Some memorySha3;
       halts := false; jumps := false; writes := false; valid := true;
       reverts := false; returns := false |});
    (ADDRESS, {| execute := opAddress; gasCost := constGasFunc GasQuickStep;
       validateStack := makeStackFunc 0 1; memorySize := None;
       halts := false; jumps := false; writes := false; valid := true;
       reverts := false; returns := false |});
    (BALANCE, {| execute := opBalance; gasCost := gasBalance;
       validateStack := makeStackFunc 1 1; memorySize := None;
       halts := false; jumps := false; writes := false; valid := true;
       reverts := false; returns := false |});
    (ORIGIN, {| execute := opOrigin; gasCost := constGasFunc GasQuickStep;
       validateStack := makeStackFunc 0 1; memorySize := None;
       halts := false; jumps := false; writes := false; valid := true;
       reverts := false; returns := false |});
    (CALLER, {| execute := opCaller; gasCost := constGasFunc GasQuickStep;
       validateStack := makeStackFunc 0 1; memorySize := None;
       halts := false; jumps := false; writes := false; valid := true;
       reverts := false; returns := false |});
    (CALLVALUE, {| execute := opCallValue; gasCost := constGasFunc GasQuickStep;
       validateStack := makeStackFunc 0 1; memorySize := None;
       halts := false; jumps := false; writes := false; valid := true;
       reverts := false; returns := false |});
    (CALLDATALOAD, {| execute := opCallDataLoad; gasCost := constGasFunc GasFastestStep;
       validateStack := makeStackFunc 1 1; memorySize := None;
       halts := false; jumps := false; writes := false; valid := true;
       reverts := false; returns := false |});
    (CALLDATASIZE, {| execute := opCallDataSize; gasCost := constGasFunc GasQuickStep;
       validateStack := makeStackFunc 0 1; memorySize := None;
       halts := false; jumps := false; writes := false; valid := true;
       reverts := false; returns := false |});
    (CALLDATACOPY, {| execute := opCallDataCopy; gasCost := gasCallDataCopy;
       validateStack := makeStackFunc 3 0; memorySize := Some memoryCallDataCopy;
       halts := false; jumps := false; writes := false; valid := true;
       reverts := false; returns := false |});
    (CODESIZE, {| execute := opCodeSize; gasCost := constGasFunc GasQuickStep;
       validateStack := makeStackFunc 0 1; memorySize := None;
       halts := false; jumps := false; writes := false; valid := true;
       reverts := false; returns := false |});
    (CODECOPY, {| execute := opCodeCopy; gasCost := gasCodeCopy;
       validateStack := makeStackFunc 3 0; memorySize := Some memoryCodeCopy;
       halts := false; jumps := false; writes := false; valid := true;
       reverts := false; returns := false |});
    (GASPRICE, {| execute := opGasprice; gasCost := constGasFunc GasQuickStep;
       validateStack := makeStackFunc 0 1; memorySize := None;
       halts := false; jumps := false; writes := false; valid := true;
       reverts := false; returns := false |});
    (EXTCODESIZE, {| execute := opExtCodeSize; gasCost := gasExtCodeSize;
       validateStack := makeStackFunc 1 1; memorySize := None;
       halts := false; jumps := false; writes := false; valid := true;
       reverts := false; returns := false |});
    (EXTCODECOPY, {| execute := opExtCodeCopy; gasCost := gasExtCodeCopy;
       validateStack := makeStackFunc 4 0; memorySize := Some memoryExtCodeCopy;
       halts := false; jumps := false; writes := false; valid := true;
       reverts := false; returns := false |});
    (BLOCKHASH, {| execute := opBlockhash; gasCost := constGasFunc GasExtStep;
       validateStack := makeStackFunc 1 1; memorySize := None;
       halts := false; jumps := false; writes := false; valid := true;
       reverts := false; returns := false |});
    (COINBASE, {| execute := opCoinbase; gasCost := constGasFunc GasQuickStep;
       validateStack := makeStackFunc 0 1; memorySize := None;
       halts := false; jumps := false; writes := false; valid := true;
       reverts := false; returns := false |});
    (TIMESTAMP, {| execute := opTimestamp; gasCost := constGasFunc GasQuickStep;
       validateStack := makeStackFunc 0 1; memorySize := None;
       halts := false; jumps := false; writes := false; valid := true;
       reverts := false; returns := false |});
    (NUMBER, {| execute := opNumber; gasCost := constGasFunc GasQuickStep;
       validateStack := makeStackFunc 0 1; memorySize := None;
       halts := false; jumps := false; writes := false; valid := true;
       reverts := false; returns := false |});
    (DIFFICULTY, {| execute := opDifficulty; gasCost := constGasFunc GasQuickStep;
       validateStack := makeStackFunc 0 1; memorySize := None;
       halts := false; jumps := false; writes := false; valid := true;
       reverts := false; returns := false |});
    (GASLIMIT, {| execute := opGasLimit; gasCost := constGasFunc GasQuickStep;
       validateStack := makeStackFunc 0 1; memorySize := None;
       halts := false; jumps := false; writes := false; valid := true;
       reverts := false; returns := false |});
    (POP, {| execute := opPop; gasCost := constGasFunc GasQuickStep;
       validateStack := makeStackFunc 1 0; memorySize := None;
       halts := false; jumps := false; writes := false; valid := true;
       reverts := false; returns := false |});
    (MLOAD, {| execute := opMload; gasCost := gasMLoad;
       validateStack := makeStackFunc 1 1; memorySize := Some memoryMLoad;
       halts := false; jumps := false; writes := false; valid := true;
       reverts := false; returns := false |})].

(** MSTORE to PUSH12. *)
Definition newFrontierInstructionSet_3 : table := [
    (MSTORE, {| execute := opMstore; gasCost := gasMStore;
       validateStack := makeStackFunc 2 0; memorySize := Some memoryMStore;
       halts := false; jumps := false; writes := false; valid := true;
       reverts := false; returns := false |});
    (MSTORE8, {| execute := opMstore8; gasCost := gasMStore8;
       validateStack := makeStackFunc 2 0; memorySize := Some memoryMStore8;
       halts := false; jumps := false; writes := false; valid := true;
       reverts := false; returns := false |});
    (SLOAD, {| execute := opSload; gasCost := gasSLoad;
       validateStack := makeStackFunc 1 1; memorySize := None;
       halts := false; jumps := false; writes := false; valid := true;
       reverts := false; returns := false |});
    (SSTORE, {| execute := opSstore; gasCost := gasSStore;
       validateStack := makeStackFunc 2 0; memorySize := None;
       halts := false; jumps := false; writes := true; valid := true;
       reverts := false; returns := false |});
    (JUMP, {| execute := opJump; gasCost := constGasFunc GasMidStep;
       validateStack := makeStackFunc 1 0; memorySize := None;
       halts := false; jumps := true; writes := false; valid := true;
       reverts := false; returns := false |});
    (JUMPI, {| execute := opJumpi; gasCost := constGasFunc GasSlowStep;
       validateStack := makeStackFunc 2 0; memorySize := None;
       halts := false; jumps := true; writes := false; valid := true;
       reverts := false; returns := false |});
    (PC, {| execute := opPc; gasCost := constGasFunc GasQuickStep;
       validateStack := makeStackFunc 0 1; memorySize := None;
       halts := false; jumps := false; writes := false; valid := true;
       reverts := false; returns := false |});
    (MSIZE, {| execute := opMsize; gasCost := constGasFunc GasQuickStep;
       validateStack := makeStackFunc 0 1; memorySize := None;
       halts := false; jumps := false; writes := false; valid := true;
       reverts := false; returns := false |});
    (GAS, {| execute := opGas; gasCost := constGasFunc GasQuickStep;
       validateStack := makeStackFunc 0 1; memorySize := None;
       halts := false; jumps := false; writes := false; valid := true;
       reverts := false; returns := false |});
    (JUMPDEST, {| execute := opJumpdest; gasCost := constGasFunc JumpdestGas;
       validateStack := makeStackFunc 0 0; memorySize := None;
       halts := false; jumps := false; writes := false; valid := true;
       reverts := false; returns := false |});
    (PUSH1, {| execute := makePush 1 1; gasCost := gasPush;
       validateStack := makeStackFunc 0 1; memorySize := None;
       halts := false; jumps := false; writes := false; valid := true;
       reverts := false; returns := false |});
    (PUSH2, {| execute := makePush 2 2; gasCost := gasPush;
       validateStack := makeStackFunc 0 1; memorySize := None;
       halts := false; jumps := false; writes := false; valid := true;
       reverts := false; returns := false |});
    (PUSH3, {| execute := makePush 3 3; gasCost := gasPush;
       validateStack := makeStackFunc 0 1; memorySize := None;
       halts := false; jumps := false; writes := false; valid := true;
       reverts := false; returns := false |});
    (PUSH4, {| execute := makePush 4 4; gasCost := gasPush;
       validateStack := makeStackFunc 0 1; memorySize := None;
       halts := false; jumps := false; writes := false; valid := true;
       reverts := false; returns := false |});
    (PUSH5, {| execute := makePush 5 5; gasCost := gasPush;
       validateStack := makeStackFunc 0 1; memorySize := None;
       halts := false; jumps := false; writes := false; valid := true;
       reverts := false; returns := false |});
    (PUSH6, {| execute := makePush 6 6; gasCost := gasPush;
       validateStack := makeStackFunc 0 1; memorySize := None;
       halts := false; jumps := false; writes := false; valid := true;
       reverts := false; returns := false |});
    (PUSH7, {| execute := makePush 7 7; gasCost := gasPush;
       validateStack := makeStackFunc 0 1; memorySize := None;
       halts := false; jumps := false; writes := false; valid := true;
       reverts := false; returns := false |});
    (PUSH8, {| execute := makePush 8 8; gasCost := gasPush;
       validateStack := makeStackFunc 0 1; memorySize := None;
       halts := false; jumps := false; writes := false; valid := true;
       reverts := false; returns := false |});
    (PUSH9, {| execute := makePush 9 9; gasCost := gasPush;
       validateStack := makeStackFunc 0 1; memorySize := None;
       halts := false; jumps := false; writes := false; valid := true;
       reverts := false; returns := false |});
    (PUSH10, {| execute := makePush 10 10; gasCost := gasPush;
       validateStack := makeStackFunc 0 1; memorySize := None;
       halts := false; jumps := false; writes := false; valid := true;
       reverts := false; returns := false |});
    (PUSH11, {| execute := makePush 11 11; gasCost := gasPush;
       validateStack := makeStackFunc 0 1; memorySize := None;
       halts := false; jumps := false; writes := false; valid := true;
       reverts := false; returns := false |});
    (PUSH12, {| execute := makePush 12 12; gasCost := gasPush;
       validateStack := makeStackFunc 0 1; memorySize := None;
       halts := false; jumps := false; writes := false; valid := true;
       reverts := false; returns := false |})].

(** PUSH13 to DUP3. *)
Definition newFrontierInstructionSet_4 : table := [
    (PUSH13, {| execute := makePush 13 13; gasCost := gasPush;
       validateStack := makeStackFunc 0 1; memorySize := None;
       halts := false; jumps := false; writes := false; valid := true;
       reverts := false; returns := false |});
    (PUSH14, {| execute := makePush 14 14; gasCost := gasPush;
       validateStack := makeStackFunc 0 1; memorySize := None;
       halts := false; jumps := false; writes := false; valid := true;
       reverts := false; returns := false |});
    (PUSH15, {| execute := makePush 15 15; gasCost := gasPush;
       validateStack := makeStackFunc 0 1; memorySize := None;
       halts := false; jumps := false; writes := false; valid := true;
       reverts := false; returns := false |});
    (PUSH16, {| execute := makePush 16 16; gasCost := gasPush;
       validateStack := makeStackFunc 0 1; memorySize := None;
       halts := false; jumps := false; writes := false; valid := true;
       reverts := false; returns := false |});
    (PUSH17, {| execute := makePush 17 17; gasCost := gasPush;
       validateStack := makeStackFunc 0 1; memorySize := None;
       halts := false; jumps := false; writes := false; valid := true;
       reverts := false; returns := false |});
    (PUSH18, {| execute := makePush 18 18; gasCost := gasPush;
       validateStack := makeStackFunc 0 1; memorySize := None;
       halts := false; jumps := false; writes := false; valid := true;
       reverts := false; returns := false |});
    (PUSH19, {| execute := makePush 19 19; gasCost := gasPush;
       validateStack := makeStackFunc 0 1; memorySize := None;
       halts := false; jumps := false; writes := false; valid := true;
       reverts := false; returns := false |});
    (PUSH20, {| execute := makePush 20 20; gasCost := gasPush;
       validateStack := makeStackFunc 0 1; memorySize := None;
       halts := false; jumps := false; writes := false; valid := true;
       reverts := false; returns := false |});
    (PUSH21, {| execute := makePush 21 21; gasCost := gasPush;
       validateStack := makeStackFunc 0 1; memorySize := None;
       halts := false; jumps := false; writes := false; valid := true;
       reverts := false; returns := false |});
    (PUSH22, {| execute := makePush 22 22; gasCost := gasPush;
       validateStack := makeStackFunc 0 1; memorySize := None;
       halts := false; jumps := false; writes := false; valid := true;
       reverts := false; returns := false |});
    (PUSH23, {| execute := makePush 23 23; gasCost := gasPush;
       validateStack := makeStackFunc 0 1; memorySize := None;
       halts := false; jumps := false; writes := false; valid := true;
       reverts := false; returns := false |});
    (PUSH24, {| execute := makePush 24 24; gasCost := gasPush;
       validateStack := makeStackFunc 0 1; memorySize := None;
       halts := false; jumps := false; writes := false; valid := true;
       reverts := false; returns := false |});
    (PUSH25, {| execute := makePush 25 25; gasCost := gasPush;
       validateStack := makeStackFunc 0 1; memorySize := None;
       halts := false; jumps := false; writes := false; valid := true;
       reverts := false; returns := false |});
    (PUSH26, {| execute := makePush 26 26; gasCost := gasPush;
       validateStack := makeStackFunc 0 1; memorySize := None;
       halts := false; jumps := false; writes := false; valid := true;
       reverts := false; returns := false |});
    (PUSH27, {| execute := makePush 27 27; gasCost := gasPush;
       validateStack := makeStackFunc 0 1; memorySize := None;
       halts := false; jumps := false; writes := false; valid := true;
       reverts := false; returns := false |});
    (PUSH28, {| execute := makePush 28 28; gasCost := gasPush;
       validateStack := makeStackFunc 0 1; memorySize := None;
       halts := false; jumps := false; writes := false; valid := true;
       reverts := false; returns := false |});
    (PUSH29, {| execute := makePush 29 29; gasCost := gasPush;
       validateStack := makeStackFunc 0 1; memorySize := None;
       halts := false; jumps := false; writes := false; valid := true;
       reverts := false; returns := false |});
    (PUSH30, {| execute := makePush 30 30; gasCost := gasPush;
       validateStack := makeStackFunc 0 1; memorySize := None;
       halts := false; jumps := false; writes := false; valid := true;
       reverts := false; returns := false |});
    (PUSH31, {| execute := makePush 31 31; gasCost := gasPush;
       validateStack := makeStackFunc 0 1; memorySize := None;
       halts := false; jumps := false; writes := false; valid := true;
       reverts := false; returns := false |});
    (PUSH32, {| execute := makePush 32 32; gasCost := gasPush;
       validateStack := makeStackFunc 0 1; memorySize := None;
       halts := false; jumps := false; writes := false; valid := true;
       reverts := false; returns := false |});
    (DUP1, {| execute := makeDup 1; gasCost := gasDup;
       validateStack := makeDupStackFunc 1; memorySize := None;
       halts := false; jumps := false; writes := false; valid := true;
       reverts := false; returns := false |});
    (DUP2, {| execute := makeDup 2; gasCost := gasDup;
       validateStack := makeDupStackFunc 2; memorySize := None;
       halts := false; jumps := false; writes := false; valid := true;
       reverts := false; returns := false |});
    (DUP3, {| execute := makeDup 3; gasCost := gasDup;
       validateStack := makeDupStackFunc 3; memorySize := None;
       halts := false; jumps := false; writes := false; valid := true;
       reverts := false; returns := false |})].

(** DUP4 to SWAP10. *)
Definition newFrontierInstructionSet_5 : table := [
    (DUP4, {| execute := makeDup 4; gasCost := gasDup;
       validateStack := makeDupStackFunc 4; memorySize := None;
       halts := false; jumps := false; writes := false; valid := true;
       reverts := false; returns := false |});
    (DUP5, {| execute := makeDup 5; gasCost := gasDup;
       validateStack := makeDupStackFunc 5; memorySize := None;
       halts := false; jumps := false; writes := false; valid := true;
       reverts := false; returns := false |});
    (DUP6, {| execute := makeDup 6; gasCost := gasDup;
       validateStack := makeDupStackFunc 6; memorySize := None;
       halts := false; jumps := false; writes := false; valid := true;
       reverts := false; returns := false |});
    (DUP7, {| execute := makeDup 7; gasCost := gasDup;
       validateStack := makeDupStackFunc 7; memorySize := None;
       halts := false; jumps := false; writes := false; valid := true;
       reverts := false; returns := false |});
    (DUP8, {| execute := makeDup 8; gasCost := gasDup;
       validateStack := makeDupStackFunc 8; memorySize := None;
       halts := false; jumps := false; writes := false; valid := true;
       reverts := false; returns := false |});
    (DUP9, {| execute := makeDup 9; gasCost := gasDup;
       validateStack := makeDupStackFunc 9; memorySize := None;
       halts := false; jumps := false; writes := false; valid := true;
       reverts := false; returns := false |});
    (DUP10, {| execute := makeDup 10; gasCost := gasDup;
       validateStack := makeDupStackFunc 10; memorySize := None;
       halts := false; jumps := false; writes := false; valid := true;
       reverts := false; returns := false |});
    (DUP11, {| execute := makeDup 11; gasCost := gasDup;
       validateStack := makeDupStackFunc 11; memorySize := None;
       halts := false; jumps := false; writes := false; valid := true;
       reverts := false; returns := false |});
    (DUP12, {| execute := makeDup 12; gasCost := gasDup;
       validateStack := makeDupStackFunc 12; memorySize := None;
       halts := false; jumps := false; writes := false; valid := true;
       reverts := false; returns := false |});
    (DUP13, {| execute := makeDup 13; gasCost := gasDup;
       validateStack := makeDupStackFunc 13; memorySize := None;
       halts := false; jumps := false; writes := false; valid := true;
       reverts := false; returns := false |});
    (DUP14, {| execute := makeDup 14; gasCost := gasDup;
       validateStack := makeDupStackFunc 14; memorySize := None;
       halts := false; jumps := false; writes := false; valid := true;
       reverts := false; returns := false |});
    (DUP15, {| execute := makeDup 15; gasCost := gasDup;
       validateStack := makeDupStackFunc 15; memorySize := None;
       halts := false; jumps := false; writes := false; valid := true;
       reverts := false; returns := false |});
    (DUP16, {| execute := makeDup 16; gasCost := gasDup;
       validateStack := makeDupStackFunc 16; memorySize := None;
       halts := false; jumps := false; writes := false; valid := true;
       reverts := false; returns := false |});
    (SWAP1, {| execute := makeSwap 1; gasCost := gasSwap;
       validateStack := makeSwapStackFunc 2; memorySize := None;
       halts := false; jumps := false; writes := false; valid := true;
       reverts := false; returns := false |});
    (SWAP2, {| execute := makeSwap 2; gasCost := gasSwap;
       validateStack := makeSwapStackFunc 3; memorySize := None;
       halts := false; jumps := false; writes := false; valid := true;
       reverts := false; returns := false |});
    (SWAP3, {| execute := makeSwap 3; gasCost := gasSwap;
       validateStack := makeSwapStackFunc 4; memorySize := None;
       halts := false; jumps := false; writes := false; valid := true;
       reverts := false; returns := false |});
    (SWAP4, {| execute := makeSwap 4; gasCost := gasSwap;
       validateStack := makeSwapStackFunc 5; memorySize := None;
       halts := false; jumps := false; writes := false; valid := true;
       reverts := false; returns := false |});
    (SWAP5, {| execute := makeSwap 5; gasCost := gasSwap;
       validateStack := makeSwapStackFunc 6; memorySize := None;
       halts := false; jumps := false; writes := false; valid := true;
       reverts := false; returns := false |});
    (SWAP6, {| execute := makeSwap 6; gasCost := gasSwap;
       validateStack := makeSwapStackFunc 7; memorySize := None;
       halts := false; jumps := false; writes := false; valid := true;
       reverts := false; returns := false |});
    (SWAP7, {| execute := makeSwap 7; gasCost := gasSwap;
       validateStack := makeSwapStackFunc 8; memorySize := None;
       halts := false; jumps := false; writes := false; valid := true;
       reverts := false; returns := false |});
    (SWAP8, {| execute := makeSwap 8; gasCost := gasSwap;
       validateStack := makeSwapStackFunc 9; memorySize := None;
       halts := false; jumps := false; writes := false; valid := true;
       reverts := false; returns := false |});
    (SWAP9, {| execute := makeSwap 9; gasCost := gasSwap;
       validateStack := makeSwapStackFunc 10; memorySize := None;
       halts := false; jumps := false; writes := false; valid := true;
       reverts := false; returns := false |});
    (SWAP10, {| execute := makeSwap 10; gasCost := gasSwap;
       validateStack := makeSwapStackFunc 11; memorySize := None;
       halts := false; jumps := false; writes := false; valid := true;
       reverts := false; returns := false |})].

(** SWAP11 to SELFDESTRUCT. *)
Definition newFrontierInstructionSet_6 : table := [
    (SWAP11, {| execute := makeSwap 11; gasCost := gasSwap;
       validateStack := makeSwapStackFunc 12; memorySize := None;
       halts := false; jumps := false; writes := false; valid := true;
       reverts := false; returns := false |});
    (SWAP12, {| execute := makeSwap 12; gasCost := gasSwap;
       validateStack := makeSwapStackFunc 13; memorySize := None;
       halts := false; jumps := false; writes := false; valid := true;
       reverts := false; returns := false |});
    (SWAP13, {| execute := makeSwap 13; gasCost := gasSwap;
       validateStack := makeSwapStackFunc 14; memorySize := None;
       halts := false; jumps := false; writes := false; valid := true;
       reverts := false; returns := false |});
    (SWAP14, {| execute := makeSwap 14; gasCost := gasSwap;
       validateStack := makeSwapStackFunc 15; memorySize := None;
       halts := false; jumps := false; writes := false; valid := true;
       reverts := false; returns := false |});
    (SWAP15, {| execute := makeSwap 15; gasCost := gasSwap;
       validateStack := makeSwapStackFunc 16; memorySize := None;
       halts := false; jumps := false; writes := false; valid := true;
       reverts := false; returns := false |});
    (SWAP16, {| execute := makeSwap 16; gasCost := gasSwap;
       validateStack := makeSwapStackFunc 17; memorySize := None;
       halts := false; jumps := false; writes := false; valid := true;
       reverts := false; returns := false |});
    (LOG0, {| execute := makeLog 0; gasCost := makeGasLog 0;
       validateStack := makeStackFunc 2 0; memorySize := Some memoryLog;
       halts := false; jumps := false; writes := true; valid := true;
       reverts := false; returns := false |});
    (LOG1, {| execute := makeLog 1; gasCost := makeGasLog 1;
       validateStack := makeStackFunc 3 0; memorySize := Some memoryLog;
       halts := false; jumps := false; writes := true; valid := true;
       reverts := false; returns := false |});
    (LOG2, {| execute := makeLog 2; gasCost := makeGasLog 2;
       validateStack := makeStackFunc 4 0; memorySize := Some memoryLog;
       halts := false; jumps := false; writes := true; valid := true;
       reverts := false; returns := false |});
    (LOG3, {| execute := makeLog 3; gasCost := makeGasLog 3;
       validateStack := makeStackFunc 5 0; memorySize := Some memoryLog;
       halts := false; jumps := false; writes := true; valid := true;
       reverts := false; returns := false |});
    (LOG4, {| execute := makeLog 4; gasCost := makeGasLog 4;
       validateStack := makeStackFunc 6 0; memorySize := Some memoryLog;
       halts := false; jumps := false; writes := true; valid := true;
       reverts := false; returns := false |});
    (CREATE, {| execute := opCreate; gasCost := gasCreate;
       validateStack := makeStackFunc 3 1; memorySize := Some memoryCreate;
       halts := false; jumps := false; writes := true; valid := true;
       reverts := false; returns := true |});
    (CALL, {| execute := opCall; gasCost := gasCall;
       validateStack := makeStackFunc 7 1; memorySize := Some memoryCall;
       halts := false; jumps := false; writes := false; valid := true;
       reverts := false; returns := true |});
    (CALLCODE, {| execute := opCallCode; gasCost := gasCallCode;
       validateStack := makeStackFunc 7 1; memorySize := Some memoryCall;
       halts := false; jumps := false; writes := false; valid := true;
       reverts := false; returns := true |});
    (RETURN, {| execute := opReturn; gasCost := gasReturn;
       validateStack := makeStackFunc 2 0; memorySize := Some memoryReturn;
       halts := true; jumps := false; writes := false; valid := true;
       reverts := false; returns := false |});
    (SELFDESTRUCT, {| execute := opSuicide; gasCost := gasSuicide;
       validateStack := makeStackFunc 1 0; memorySize := None;
       halts := true; jumps := false; writes := true; valid := true;
       reverts := false; returns := false |})].

Definition newFrontierInstructionSet : table :=
  newFrontierInstructionSet_1 ++
  newFrontierInstructionSet_2 ++
  newFrontierInstructionSet_3 ++
  newFrontierInstructionSet_4 ++
  newFrontierInstructionSet_5 ++
  newFrontierInstructionSet_6.

Definition newHomesteadInstructionSet : table := [
    (DELEGATECALL, {| execute := opDelegateCall; gasCost := gasDelegateCall;
       validateStack := makeStackFunc 6 1; memorySize := Some memoryDelegateCall;
       halts := false; jumps := false; writes := false; valid := true;
       reverts := false; returns := true |})] ++
  newFrontierInstructionSet.

Definition newByzantiumInstructionSet : table := [
    (REVERT, {| execute := opRevert; gasCost := gasRevert;
       validateStack := makeStackFunc 2 0; memorySize := Some memoryRevert;
       halts := false; jumps := false; writes := false; valid := true;
       reverts := true; returns := true |});
    (RETURNDATACOPY, {| execute := opReturnDataCopy; gasCost := gasReturnDataCopy;
       validateStack := makeStackFunc 3 0; memorySize := Some memoryReturnDataCopy;
       halts := false; jumps := false; writes := false; valid := true;
       reverts := false; returns := false |});
    (RETURNDATASIZE, {| execute := opReturnDataSize; gasCost := constGasFunc GasQuickStep;
       validateStack := makeStackFunc 0 1; memorySize := None;
       halts := false; jumps := false; writes := false; valid := true;
       reverts := false; returns := false |});
    (STATICCALL, {| execute := opStaticCall; gasCost := gasStaticCall;
       validateStack := makeStackFunc 6 1; memorySize := Some memoryStaticCall;
       halts := false; jumps := false; writes := false; valid := true;
       reverts := false; returns := true |})] ++
  newHomesteadInstructionSet.

Definition newConstantinopleInstructionSet : table := [
    (CREATE2, {| execute := opCreate2; gasCost := gasCreate2;
       validateStack := makeStackFunc 4 1; memorySize := Some memoryCreate2;
       halts := false; jumps := false; writes := true; valid := true;
       reverts := false; returns := true |});
    (EXTCODEHASH, {| execute := opExtCodeHash; gasCost := gasExtCodeHash;
       validateStack := makeStackFunc 1 1; memorySize := None;
       halts := false; jumps := false; writes := false; valid := true;
       reverts := false; returns := false |});
    (SAR, {| execute := opSAR; gasCost := constGasFunc GasFastestStep;
       validateStack := makeStackFunc 2 1; memorySize := None;
       halts := false; jumps := false; writes := false; valid := true;
       reverts := false; returns := false |});
    (SHR, {| execute := opSHR; gasCost := constGasFunc GasFastestStep;
       validateStack := makeStackFunc 2 1; memorySize := None;
       halts := false; jumps := false; writes := false; valid := true;
       reverts := false; returns := false |});
    (SHL, {| execute := opSHL; gasCost := constGasFunc GasFastestStep;
       validateStack := makeStackFunc 2 1; memorySize := None;
       halts := false; jumps := false; writes := false; valid := true;
       reverts := false; returns := false |})] ++
  newByzantiumInstructionSet.

(** [cfg.JumpTable[op]], none for the zero operation. *)
Definition get_operation (t : table) (op : Z) : option (operation DB) :=
  snd <$> find (λ entry, entry.1 =? op) t.

End JumpTable.
