(* ===== verification/VmInterp.v ===== *)
(** * Interpreter and calls: [core/vm/interpreter.go], [core/vm/evm.go]

    [loop] is the interpreter's main loop.  It and the calls it makes are
    mutually recursive; both are cut by one fuel argument, which every round
    of the loop and every nested run decreases. *)
From S2P Require Import Prelude BigMath Params OpCodes VmAnalysis VmMemory VmTypes VmGas.
From S2P Require Import VmInstructions VmPrecompiles VmJumpTable.

Section Interp.
Context {DB : Type} `{!StateDB DB} `{!Crypto}.

Implicit Types e : Env DB.

(** ** Construction *)

Definition JumpTable e : list (Z * operation DB) :=
  let num := BlockNumber (ctx e) in
  if IsConstantinople (chainConfig e) num then newConstantinopleInstructionSet
  else if IsByzantium (chainConfig e) num then newByzantiumInstructionSet
  else if IsHomestead (chainConfig e) num then newHomesteadInstructionSet
  else newFrontierInstructionSet.

Definition NewYVM (c : Context DB) (db : DB) (cfg : ChainConfig) (vmcfg : Config)
    : Env DB * YVM DB :=
  ({| ctx := c; chainConfig := cfg; chainRules := getRules cfg (BlockNumber c); vmConfig := vmcfg;
      gasTable := getGasTable cfg (BlockNumber c) |},
   {| statedb := db; depth := 0; readOnly := false; returnData := []; callGasTemp := 0;
      jumpdests := ∅; cancel := None |}).

(** ** One round of the loop *)

Definition enforceRestrictions e (op : Z) (operation : operation DB) : M (Frame DB) (option error) :=
  y ← gets yvm;
  if rulesIsByzantium (chainRules e) && readOnly y then
    if writes operation then mret (Some errWriteProtection)
    else if op =? CALL then
      v ← Back 2; mret (if BitLen v >? 0 then Some errWriteProtection else None)
    else mret None
  else mret None.

(** The memory size an operation asks for, rounded up to words. *)
Definition required_memory (operation : operation DB) : M (Frame DB) (Z + error) :=
  match memorySize operation with
  | None => mret (inl 0)
  | Some f =>
      st ← gets stack;
      m ← must (f st);
      let '(memSize, overflow) := bigUint64 m in
      if (overflow : bool) then mret (inr errGasUintOverflow)
      else
        let '(size, overflow) := SafeMul (toWordSize memSize) 32 in
        if (overflow : bool) then mret (inr errGasUintOverflow) else mret (inl size)
  end.

(** The cost is charged, then the memory grows; false when the gas is short. *)
Definition charge e (operation : operation DB) (size : Z) : M (Frame DB) bool :=
  '(cost, err) ← gasCost operation e size;
  match err with
  | Some _ => mret false
  | None =>
      ok ← use_gas cost;
      if (ok : bool) then
        _ ← (if size >? 0 then modify (λ f, with_memory (Resize (memory f) size) f) else mret ());
        mret true
      else mret false
  end.

(** The instruction, and what the loop does with its result: [Some] ends it. *)
Definition perform e (o : CallOps DB) (operation : operation DB)
    : M (Frame DB) (option exec_result) :=
  '(res, err) ← execute operation e o;
  _ ← (if returns operation then on_yvm (modify (with_returnData res)) else mret ());
  match err with
  | Some err => mret (Some ([], Some err))
  | None =>
      if reverts operation then mret (Some (res, Some errExecutionReverted))
      else if halts operation then mret (Some (res, None))
      else
        _ ← (if jumps operation then mret ()
             else modify (λ f, with_pc (uint64 (pc f + 1)) f));
        mret None
  end.

Definition step e (o : CallOps DB) : M (Frame DB) (option exec_result) :=
  c ← gets contract; p ← gets pc;
  let op := GetOp c p in
  match get_operation (JumpTable e) op with
  | None => mret (Some ([], Some (errInvalidOpcode op)))
  | Some operation =>
      if negb (valid operation) then mret (Some ([], Some (errInvalidOpcode op)))
      else
        st ← gets stack;
        match validateStack operation st with
        | Some err => mret (Some ([], Some err))
        | None =>
            restricted ← enforceRestrictions e op operation;
            match restricted with
            | Some err => mret (Some ([], Some err))
            | None =>
                size ← required_memory operation;
                match size with
                | inr err => mret (Some ([], Some err))
                | inl size =>
                    ok ← charge e operation size;
                    if (ok : bool) then perform e o operation
                    else mret (Some ([], Some ErrOutOfGas))
                end
            end
        end
  end.

(** ** Running a contract *)

(** [Run], with [lp] for the loop: the result and the contract after the run. *)
Definition Run (lp : M (Frame DB) exec_result) (c : Contract) (input : list byte)
    : M (YVM DB) (exec_result * Contract) :=
  _ ← modify (λ y, with_depth (depth y + 1) y);
  _ ← modify (with_returnData []);
  match Code c with
  | [] => _ ← modify (λ y, with_depth (depth y - 1) y); mret (([], None), c)
  | _ =>
      r ← (λ y,
        match lp {| pc := 0; stack := []; memory := NewMemory; contract := with_Input input c; yvm := y |} with
        | Done r f => Done (r, contract f) (yvm f)
        | Fault x => Fault x
        end);
      _ ← modify (λ y, with_depth (depth y - 1) y);
      mret r
  end.

Definition precompiles e (a : Address) : option PrecompiledContract :=
  if IsByzantium (chainConfig e) (BlockNumber (ctx e)) then PrecompiledContractsByzantium a
  else PrecompiledContractsHomestead a.

(** [run]: a precompiled contract, or the interpreter. *)
Definition run e (lp : M (Frame DB) exec_result) (c : Contract) (input : list byte)
    : M (YVM DB) (exec_result * Contract) :=
  match CodeAddr c ≫= precompiles e with
  | Some p => must (RunPrecompiledContract p input c)
  | None => Run lp c input
  end.

(** ** Calls *)

(** What every call does with the result of [run]: an error reverts the state,
    and all but a revert takes the remaining gas. *)
Definition call_end (snapshot : Z) (r : exec_result * Contract) : M (YVM DB) call_result :=
  let '((ret, err), c) := r in
  match err with
  | None => mret (ret, Gas c, err)
  | Some x =>
      _ ← on_db (RevertToSnapshot snapshot);
      let c := if bool_decide (x ≠ errExecutionReverted) then (UseGas c (Gas c)).2 else c in
      mret (ret, Gas c, err)
  end.

(** [contract.SetCallCode(&addr, StateDB.GetCodeHash(addr), StateDB.GetCode(addr))] *)
Definition load_code (c : Contract) (addr : Address) : M (YVM DB) Contract :=
  hash ← on_db (GetCodeHash addr);
  code ← on_db (GetCode addr);
  mret (SetCallCode c addr hash code).

Definition Call e (lp : M (Frame DB) exec_result) (caller : ContractRef) (addr : Address)
    (input : list byte) (gas value : Z) : M (YVM DB) call_result :=
  y ← gets id;
  if NoRecursion (vmConfig e) && (depth y >? 0) then mret ([], gas, None)
  else if depth y >? CallCreateDepth then mret ([], gas, Some ErrDepth)
  else
    can ← on_db (CanTransfer (ctx e) (ref_Address caller) value);
    if negb can then mret ([], gas, Some ErrInsufficientBalance)
    else
      snapshot ← on_db Snapshot;
      exist ← on_db (Exist addr);
      if negb exist && bool_decide (precompiles e addr = None) &&
         IsEIP158 (chainConfig e) (BlockNumber (ctx e)) && (Sign value =? 0)
      then mret ([], gas, None)
      else
        _ ← (if negb exist then on_db (CreateAccount addr) else mret ());
        _ ← on_db (Transfer (ctx e) (ref_Address caller) addr value (BlockNumber (ctx e)));
        c ← NewContract caller addr (Some value) gas;
        c ← load_code c addr;
        r ← run e lp c input;
        call_end snapshot r.

Definition CallCode e (lp : M (Frame DB) exec_result) (caller : ContractRef) (addr : Address)
    (input : list byte) (gas value : Z) : M (YVM DB) call_result :=
  y ← gets id;
  if NoRecursion (vmConfig e) && (depth y >? 0) then mret ([], gas, None)
  else if depth y >? CallCreateDepth then mret ([], gas, Some ErrDepth)
  else
    can ← on_db (CanTransfer (ctx e) (ref_Address caller) value);
    if negb can then mret ([], gas, Some ErrInsufficientBalance)
    else
      snapshot ← on_db Snapshot;
      c ← NewContract caller (ref_Address caller) (Some value) gas;
      c ← load_code c addr;
      r ← run e lp c input;
      call_end snapshot r.

Definition DelegateCall e (lp : M (Frame DB) exec_result) (caller : ContractRef) (addr : Address)
    (input : list byte) (gas : Z) : M (YVM DB) call_result :=
  y ← gets id;
  if NoRecursion (vmConfig e) && (depth y >? 0) then mret ([], gas, None)
  else if depth y >? CallCreateDepth then mret ([], gas, Some ErrDepth)
  else
    snapshot ← on_db Snapshot;
    c ← NewContract caller (ref_Address caller) None gas;
    c ← must (AsDelegate c);
    c ← load_code c addr;
    r ← run e lp c input;
    call_end snapshot r.

(** The read-only flag is set for the time of the call, unless it is set
    already. *)
Definition StaticCall e (lp : M (Frame DB) exec_result) (caller : ContractRef) (addr : Address)
    (input : list byte) (gas : Z) : M (YVM DB) call_result :=
  y ← gets id;
  if NoRecursion (vmConfig e) && (depth y >? 0) then mret ([], gas, None)
  else if depth y >? CallCreateDepth then mret ([], gas, Some ErrDepth)
  else
    _ ← (if readOnly y then mret () else modify (with_readOnly true));
    snapshot ← on_db Snapshot;
    c ← NewContract caller addr (Some 0) gas;
    c ← load_code c addr;
    r ← run e lp c input;
    r ← call_end snapshot r;
    _ ← (if readOnly y then mret () else modify (with_readOnly false));
    mret r.

(** The end of a creation: the code is paid for and stored, or the state is
    reverted. *)
Definition create_end e (address : Address) (snapshot : Z) (r : exec_result * Contract)
    : M (YVM DB) create_result :=
  let '((ret, err), c) := r in
  let num := BlockNumber (ctx e) in
  let maxCodeSizeExceeded := IsEIP158 (chainConfig e) num && (zlen ret >? MaxCodeSize) in
  '(c, err) ← (if bool_decide (err = None) && negb maxCodeSizeExceeded then
                 let createDataGas := uint64 (zlen ret * CreateDataGas) in
                 let '(ok, c) := UseGas c createDataGas in
                 if (ok : bool) then _ ← on_db (SetCode address ret); mret (c, err)
                 else mret (c, Some ErrCodeStoreOutOfGas)
               else mret (c, err));
  c ← (if maxCodeSizeExceeded ||
          (bool_decide (err ≠ None) &&
           (IsHomestead (chainConfig e) num || bool_decide (err ≠ Some ErrCodeStoreOutOfGas))) then
         _ ← on_db (RevertToSnapshot snapshot);
         mret (if bool_decide (err ≠ Some errExecutionReverted) then (UseGas c (Gas c)).2 else c)
       else mret c);
  let err := if maxCodeSizeExceeded && bool_decide (err = None)
             then Some errMaxCodeSizeExceeded else err in
  mret (ret, address, Gas c, err).

Definition emptyCodeHash : Hash := Keccak256Hash [].

Definition create e (lp : M (Frame DB) exec_result) (caller : ContractRef) (code : list byte)
    (gas value : Z) (address : Address) : M (YVM DB) create_result :=
  y ← gets id;
  if depth y >? CallCreateDepth then mret ([], 0, gas, Some ErrDepth)
  else
    can ← on_db (CanTransfer (ctx e) (ref_Address caller) value);
    if negb can then mret ([], 0, gas, Some ErrInsufficientBalance)
    else
      nonce ← on_db (GetNonce (ref_Address caller));
      _ ← on_db (SetNonce (ref_Address caller) (uint64 (nonce + 1)));
      contractHash ← on_db (GetCodeHash address);
      nonce' ← on_db (GetNonce address);
      if negb (nonce' =? 0) || (negb (contractHash =? 0) && negb (contractHash =? emptyCodeHash))
      then mret ([], 0, 0, Some ErrContractAddressCollision)
      else
        snapshot ← on_db Snapshot;
        _ ← on_db (CreateAccount address);
        _ ← (if IsEIP158 (chainConfig e) (BlockNumber (ctx e)) then on_db (SetNonce address 1)
             else mret ());
        _ ← on_db (Transfer (ctx e) (ref_Address caller) address value (BlockNumber (ctx e)));
        c ← NewContract caller address (Some value) gas;
        let c := SetCallCode c address (Keccak256Hash code) code in
        if NoRecursion (vmConfig e) && (depth y >? 0) then mret ([], address, gas, None)
        else
          r ← run e lp c [];
          create_end e address snapshot r.

Definition Create e (lp : M (Frame DB) exec_result) (caller : ContractRef) (code : list byte)
    (gas value : Z) : M (YVM DB) create_result :=
  nonce ← on_db (GetNonce (ref_Address caller));
  create e lp caller code gas value (CreateAddress (ref_Address caller) nonce).

Definition Create2 e (lp : M (Frame DB) exec_result) (caller : ContractRef) (code : list byte)
    (gas endowment salt : Z) : M (YVM DB) create_result :=
  create e lp caller code gas endowment (CreateAddress2 (ref_Address caller) (BigToHash salt) code).

Definition call_ops e (lp : M (Frame DB) exec_result) : CallOps DB :=
  {| do_Call := Call e lp; do_CallCode := CallCode e lp; do_DelegateCall := DelegateCall e lp;
     do_StaticCall := StaticCall e lp; do_Create := Create e lp; do_Create2 := Create2 e lp |}.

(** ** The loop *)

Fixpoint loop (fuel : nat) e : M (Frame DB) exec_result :=
  match fuel with
  | O => fail OutOfFuel
  | S fuel =>
      aborted ← on_yvm load_abort;
      if (aborted : bool) then mret ([], None)
      else
        r ← step e (call_ops e (loop fuel e));
        match r with
        | Some r => mret r
        | None => loop fuel e
        end
  end.

End Interp.
