(* ===== verification/VmLaws.v ===== *)
(** * What the machine relies on

    [StateLaws] states what a state promises to the virtual machine: an
    invariant, what can be observed of it, and how snapshots behave.
    [env_ok] states what the machine's environment provides; the transfer
    functions of [core/evm.go] are shown to provide it for every lawful state. *)
From S2P Require Import Prelude BigMath Params OpCodes VmAnalysis VmMemory VmTypes.

(** ** Observations *)

Record view := {
  v_exist : Address → bool;
  v_balance : Address → Z;
  v_nonce : Address → Z;
  v_code : Address → list byte;
  v_codehash : Address → Hash;
  v_storage : Address → Hash → Hash;
  v_suicided : Address → bool;
  v_empty : Address → bool;
  v_refund : Z;
  v_logs : list Log
}.

(** Everything a read-only call leaves as it was: all observations but the
    existence of empty accounts. *)
Record view_static (v w : view) : Prop := {
  vs_balance a : v_balance v a = v_balance w a;
  vs_nonce a : v_nonce v a = v_nonce w a;
  vs_code a : v_code v a = v_code w a;
  vs_storage a k : v_storage v a k = v_storage w a k;
  vs_suicided a : v_suicided v a = v_suicided w a;
  vs_empty a : v_empty v a = v_empty w a;
  vs_refund : v_refund v = v_refund w;
  vs_logs : v_logs v = v_logs w
}.

(** All observations agree. *)
Record view_eq (v w : view) : Prop := {
  ve_exist a : v_exist v a = v_exist w a;
  ve_codehash a : v_codehash v a = v_codehash w a;
  ve_static : view_static v w
}.

#[global] Instance view_static_equiv : Equivalence view_static.
Proof.
  split.
  - intros v. by split.
  - intros v w []. by split.
  - intros u v w [] []. split; intros; etrans; eauto.
Qed.

#[global] Instance view_eq_equiv : Equivalence view_eq.
Proof.
  split.
  - intros v. by split.
  - intros v w []. by split.
  - intros u v w [] []. split; intros; etrans; eauto.
Qed.

(** ** Supply *)

(** What the accounts of a list have together. *)
Definition supply (v : view) (l : list Address) : Z := foldr (λ a acc, v_balance v a + acc) 0 l.

(** From [v] to [w] the accounts together gain at most [c]: on all lists that
    hold the accounts concerned. *)
Definition gains (v w : view) (c : Z) : Prop :=
  ∃ touched, ∀ l, NoDup l → touched ⊆ l → supply w l <= supply v l + c.

(** Nobody's balance changes. *)
Definition same_balances (v w : view) : Prop := ∀ a, v_balance w a = v_balance v a.

(** The balance of [a], and no other, changes by [c]. *)
Definition changes (v w : view) (a : Address) (c : Z) : Prop :=
  ∀ b, v_balance w b = v_balance v b + if decide (a = b) then c else 0.

Lemma same_balances_gains v w : same_balances v w → gains v w 0.
Proof.
  intros Hs. exists []. intros l _ _. rewrite Z.add_0_r. apply Z.eq_le_incl.
  induction l as [|a l IH]; cbn; [done|]. unfold supply in IH. by rewrite Hs, IH.
Qed.

Lemma gains_refl v : gains v v 0.
Proof. by apply same_balances_gains. Qed.

Lemma gains_mono v w c c' : gains v w c → c <= c' → gains v w c'.
Proof. intros [t Ht] Hc. exists t. intros l Hn Hl. specialize (Ht l Hn Hl). lia. Qed.

Lemma gains_trans u v w c d : gains u v c → gains v w d → gains u w (c + d).
Proof.
  intros [t Ht] [t' Ht']. exists (t ++ t'). intros l Hn Hl.
  specialize (Ht l Hn ltac:(set_solver)). specialize (Ht' l Hn ltac:(set_solver)). lia.
Qed.

Lemma supply_changes v w a c l :
  changes v w a c → NoDup l → supply w l = supply v l + if decide (a ∈ l) then c else 0.
Proof.
  intros Hc. induction l as [|b l IH]; intros Hn; cbn; [done|]. unfold supply in IH.
  apply list.NoDup_cons in Hn as [Hb Hn]. rewrite IH, Hc by done.
  destruct (decide (a = b)) as [->|Hne].
  - rewrite (decide_False (P := b ∈ l)), (decide_True (P := b ∈ b :: l)) by set_solver. lia.
  - destruct (decide (a ∈ l)); [rewrite decide_True by set_solver|rewrite decide_False by set_solver]; lia.
Qed.

Lemma changes_gains v w a c : changes v w a c → gains v w c.
Proof.
  intros Hc. exists [a]. intros l Hn Hl. rewrite (supply_changes _ _ _ _ _ Hc Hn).
  rewrite decide_True by set_solver. lia.
Qed.

#[global] Instance same_balances_PreOrder : PreOrder same_balances.
Proof. split; [by intros ??|]. intros u v w H1 H2 a. by rewrite H2, H1. Qed.

Lemma view_static_same v w : view_static v w → same_balances v w.
Proof. intros [] a. done. Qed.

Lemma view_eq_same v w : view_eq v w → same_balances v w.
Proof. intros [_ _ Hs]. by apply view_static_same. Qed.

Lemma view_eq_gains v w : view_eq v w → gains v w 0.
Proof. intros. by apply same_balances_gains, view_eq_same. Qed.

#[export] Hint Resolve gains_refl same_balances_gains view_eq_same view_eq_gains changes_gains : yoc.

Lemma changes_after u v w a c : same_balances u v → changes v w a c → changes u w a c.
Proof. intros H1 H2 b. by rewrite H2, H1. Qed.

Lemma same_changes v w a : same_balances v w → changes v w a 0.
Proof. intros Hs b. rewrite Hs. case_decide; lia. Qed.

Lemma changes_eq v w a c d : changes v w a c → c = d → changes v w a d.
Proof. by intros ? <-. Qed.

(** What [a] has moves to [b], or part of it, before [a] is emptied. *)
Lemma gains_moved u v w a b c :
  changes u v b c → 0 <= c <= v_balance u a → changes v w a (- v_balance v a) → gains u w 0.
Proof.
  intros H1 Hc H2. eapply gains_mono;
    [exact (gains_trans _ _ _ _ _ (changes_gains _ _ _ _ H1) (changes_gains _ _ _ _ H2))|].
  rewrite H1. case_decide; lia.
Qed.

(** ** Laws of a state *)

Class StateLaws (DB : Type) `{!StateDB DB} := {
  SInv : DB → Prop;
  sview : DB → view;
  (** [sext s s']: the snapshots of [s] can still be reverted to in [s']. *)
  sext : DB → DB → Prop;
  sext_refl s : sext s s;
  sext_trans s1 s2 s3 : sext s1 s2 → sext s2 s3 → sext s1 s3;

  reads {A} (m : M DB A) (s : DB) (P : A → Prop) : Prop :=
    ∃ v s', m s = Done v s' ∧ SInv s' ∧ sext s s' ∧ view_eq (sview s) (sview s') ∧ P v;
  updates {A} (m : M DB A) (s : DB) (P : A → view → Prop) : Prop :=
    ∃ v s', m s = Done v s' ∧ SInv s' ∧ sext s s' ∧ P v (sview s');

  GetBalance_law s a : SInv s → reads (GetBalance a) s (λ v, v = v_balance (sview s) a ∧ 0 <= v);
  GetNonce_law s a : SInv s → reads (GetNonce a) s (λ v, v = v_nonce (sview s) a ∧ is_uint64 v);
  GetCodeHash_law s a : SInv s →
    reads (GetCodeHash a) s (λ v, v = v_codehash (sview s) a ∧ is_u256 v);
  GetCode_law s a : SInv s →
    reads (GetCode a) s (λ v, v = v_code (sview s) a ∧ zlen v < 2 ^ 62);
  GetCodeSize_law s a : SInv s → reads (GetCodeSize a) s (λ v, v = zlen (v_code (sview s) a));
  GetState_law s a k : SInv s →
    reads (GetState a k) s (λ v, v = v_storage (sview s) a k ∧ is_u256 v);
  HasSuicided_law s a : SInv s → reads (HasSuicided a) s (λ v, v = v_suicided (sview s) a);
  Exist_law s a : SInv s → reads (Exist a) s (λ v, v = v_exist (sview s) a);
  Empty_law s a : SInv s → reads (Empty a) s (λ v, v = v_empty (sview s) a);
  GetRefund_law s : SInv s → reads GetRefund s (λ v, v = v_refund (sview s) ∧ 0 <= v);
  AddPreimage_law s h d : SInv s → reads (AddPreimage h d) s (λ _, True);

  (** A new account keeps the balance; where there was none it is empty. *)
  CreateAccount_law s a : SInv s →
    updates (CreateAccount a) s (λ _ v, same_balances (sview s) v ∧
      (v_exist (sview s) a = false → view_static (sview s) v));
  (** Adding or subtracting nothing changes nothing; less may be added than asked for. *)
  SubBalance_law s a amount h : SInv s → 0 <= amount <= v_balance (sview s) a →
    updates (SubBalance a amount h) s (λ _ v, changes (sview s) v a (- amount) ∧
      (amount = 0 → view_static (sview s) v));
  AddBalance_law s a amount h : SInv s → 0 <= amount →
    updates (AddBalance a amount h) s (λ _ v, (∃ c, 0 <= c <= amount ∧ changes (sview s) v a c) ∧
      (amount = 0 → view_static (sview s) v));
  SetNonce_law s a n : SInv s → is_uint64 n →
    updates (SetNonce a n) s (λ _ v, same_balances (sview s) v);
  SetCode_law s a c : SInv s → zlen c < 2 ^ 62 →
    updates (SetCode a c) s (λ _ v, same_balances (sview s) v);
  SetState_law s a k v : SInv s → is_u256 v →
    updates (SetState a k v) s (λ _ w, same_balances (sview s) w);
  AddRefund_law s g : SInv s → is_uint64 g → updates (AddRefund g) s (λ _ v, same_balances (sview s) v);
  Suicide_law s a : SInv s →
    updates (Suicide a) s (λ _ v, changes (sview s) v a (- v_balance (sview s) a));
  AddLog_law s l : SInv s → updates (AddLog l) s (λ _ v, same_balances (sview s) v);

  (** A snapshot can be reverted to from every later state, with everything
      observable as it was, and the reverted state counts as a later one. *)
  Snapshot_law s : SInv s →
    ∃ id s', Snapshot s = Done id s' ∧ SInv s' ∧ sext s s' ∧ view_eq (sview s) (sview s') ∧
      ∀ s'', SInv s'' → sext s' s'' →
        ∃ s3, RevertToSnapshot id s'' = Done () s3 ∧ SInv s3 ∧ sext s s3 ∧
              view_eq (sview s) (sview s3)
}.

#[global] Instance sext_preorder `{StateLaws DB} : PreOrder sext.
Proof. split; [intros ?; apply sext_refl|intros ???; apply sext_trans]. Qed.

(** ** core/evm.go *)

Definition core_CanTransfer `{StateDB DB} (addr : Address) (amount : Z) : M DB bool :=
  b ← GetBalance addr; mret (amount <=? b).

Definition core_Transfer `{StateDB DB} (sender recipient : Address) (amount height : Z) : M DB () :=
  _ ← SubBalance sender amount height; AddBalance recipient amount height.

(** ** Laws of an environment *)

Definition byz {DB} (e : Env DB) : bool := rulesIsByzantium (chainRules e).

Record env_ok `{StateLaws DB} (e : Env DB) : Prop := {
  eo_rules : chainRules e = getRules (chainConfig e) (BlockNumber (ctx e));
  eo_table : gasTable e = getGasTable (chainConfig e) (BlockNumber (ctx e));
  eo_origin : 0 <= Origin (ctx e);
  eo_price : 0 <= GasPrice (ctx e);
  eo_coinbase : 0 <= Coinbase (ctx e);
  eo_hash n : 0 <= GetHash (ctx e) n;
  eo_CanTransfer s a v : SInv s → 0 <= v →
    reads (CanTransfer (ctx e) a v) s (λ b, b = true → v <= v_balance (sview s) a);
  eo_Transfer s a a' v h : SInv s → 0 <= v <= v_balance (sview s) a →
    updates (Transfer (ctx e) a a' v h) s (λ _ w, gains (sview s) w 0 ∧ (v = 0 → view_static (sview s) w))
}.

Section CoreEvm.
Context `{StateLaws DB}.

Lemma core_CanTransfer_ok s a v :
  SInv s → reads (core_CanTransfer a v) s (λ b, b = (v <=? v_balance (sview s) a)).
Proof.
  intros Hs. destruct (GetBalance_law s a Hs) as (b & s' & E & Hi & Hx & Hv & -> & _).
  exists (v <=? v_balance (sview s) a), s'. unfold core_CanTransfer, mbind, M_bind. by rewrite E.
Qed.

Lemma core_Transfer_ok s a a' v h :
  SInv s → 0 <= v <= v_balance (sview s) a →
  updates (core_Transfer a a' v h) s (λ _ w, gains (sview s) w 0 ∧ (v = 0 → view_static (sview s) w)).
Proof.
  intros Hs Hv. destruct (SubBalance_law s a v h Hs Hv) as ([] & s1 & E1 & H1 & X1 & C1 & V1).
  destruct (AddBalance_law s1 a' v h H1 ltac:(lia)) as ([] & s2 & E2 & H2 & X2 & (c & Hc & C2) & V2).
  exists (), s2. unfold core_Transfer, mbind, M_bind. rewrite E1, E2.
  split; [done|]. split; [done|]. split; [by etrans|]. split; [|intros Hz; etrans; eauto].
  eapply gains_mono; [exact (gains_trans _ _ _ _ _ (changes_gains _ _ _ _ C1) (changes_gains _ _ _ _ C2))|lia].
Qed.

End CoreEvm.
