(* ===== verification/VmSample.v ===== *)
(** * A reference state

    The simplest state with the laws of [StateLaws]: a finite map of accounts,
    and a copy of everything for each snapshot.  It shows that the laws can be
    met and is the state of the concrete runs; the journalled state of
    [core/state] is modelled separately.  [sample_crypto] stands for the
    cryptographic functions in concrete runs. *)
From S2P Require Import Prelude BigMath Params OpCodes VmAnalysis VmMemory VmTypes VmLaws.

(** A checksum in the place of each hash, and a curve with one point. *)
Definition checksum (n : nat) (l : list byte) : list byte := be_bytes n (SetBytes l * 257 + 1).

#[refine] Definition sample_crypto : Crypto :=
  {| Keccak256 := checksum 32; sha256_Sum256 := checksum 32; ripemd160_Sum := checksum 20;
     Ecrecover := λ h sig, Some (checksum 65 (h ++ sig)); G1 := (); G2 := ();
     G1_Unmarshal := λ _, Some (); G2_Unmarshal := λ _, Some (); G1_Marshal := λ _, zeros 64;
     G1_Add := λ _ _, (); G1_ScalarMult := λ _ _, (); PairingCheck := λ _ _, true |}.
Proof.
  - intros. apply length_be_bytes.
  - intros. apply length_be_bytes.
  - intros. apply length_be_bytes.
  - intros h s p [= <-]. apply length_be_bytes.
  - done.
Defined.

(** Maps are visited in the order of their keys' codes. *)
#[refine] Definition sample_order : MapOrder := {| range := λ _ m, map_to_list m |}.
Proof. done. Defined.

Record ref_account := {
  ra_balance : Z; ra_nonce : Z; ra_code : list byte; ra_storage : gmap Z Z; ra_suicided : bool
}.

Definition new_account : ref_account :=
  {| ra_balance := 0; ra_nonce := 0; ra_code := []; ra_storage := ∅; ra_suicided := false |}.

Record ref_core := { rc_accounts : gmap Z ref_account; rc_refund : Z; rc_logs : list Log }.
Record ref_state := { rs_core : ref_core; rs_snapshots : list ref_core }.

Definition ref_empty : ref_state :=
  {| rs_core := {| rc_accounts := ∅; rc_refund := 0; rc_logs := [] |}; rs_snapshots := [] |}.

Definition ref_get (s : ref_state) (a : Address) : ref_account :=
  default new_account (rc_accounts (rs_core s) !! a).

Definition ref_set (a : Address) (acc : ref_account) (s : ref_state) : ref_state :=
  {| rs_core := {| rc_accounts := <[a := acc]> (rc_accounts (rs_core s));
                   rc_refund := rc_refund (rs_core s); rc_logs := rc_logs (rs_core s) |};
     rs_snapshots := rs_snapshots s |}.

Definition ref_upd (a : Address) (g : ref_account → ref_account) : M ref_state () :=
  modify (λ s, ref_set a (g (ref_get s a)) s).

Definition set_balance b acc :=
  {| ra_balance := b; ra_nonce := ra_nonce acc; ra_code := ra_code acc;
     ra_storage := ra_storage acc; ra_suicided := ra_suicided acc |}.
Definition set_nonce n acc :=
  {| ra_balance := ra_balance acc; ra_nonce := n; ra_code := ra_code acc;
     ra_storage := ra_storage acc; ra_suicided := ra_suicided acc |}.
Definition set_code c acc :=
  {| ra_balance := ra_balance acc; ra_nonce := ra_nonce acc; ra_code := c;
     ra_storage := ra_storage acc; ra_suicided := ra_suicided acc |}.
Definition set_storage k v acc :=
  {| ra_balance := ra_balance acc; ra_nonce := ra_nonce acc; ra_code := ra_code acc;
     ra_storage := <[k := v]> (ra_storage acc); ra_suicided := ra_suicided acc |}.
Definition set_suicided acc :=
  {| ra_balance := 0; ra_nonce := ra_nonce acc; ra_code := ra_code acc;
     ra_storage := ra_storage acc; ra_suicided := true |}.

Definition acc_empty (acc : ref_account) : bool :=
  (ra_balance acc =? 0) && (ra_nonce acc =? 0) && bool_decide (ra_code acc = []).

Definition with_core (g : ref_core → ref_core) (s : ref_state) : ref_state :=
  {| rs_core := g (rs_core s); rs_snapshots := rs_snapshots s |}.

Section Ref.
Context `{!Crypto}.

Definition code_hash (s : ref_state) (a : Address) : Hash :=
  match rc_accounts (rs_core s) !! a with
  | None => 0
  | Some acc => Keccak256Hash (ra_code acc)
  end.

#[global] Instance ref_StateDB : StateDB ref_state := {|
  CreateAccount := λ a, ref_upd a (λ acc, set_balance (ra_balance acc) new_account);
  SubBalance := λ a v _, ref_upd a (λ acc, set_balance (ra_balance acc - v) acc);
  AddBalance := λ a v _, ref_upd a (λ acc, set_balance (ra_balance acc + v) acc);
  GetBalance := λ a, gets (λ s, ra_balance (ref_get s a));
  GetNonce := λ a, gets (λ s, ra_nonce (ref_get s a));
  SetNonce := λ a n, ref_upd a (set_nonce n);
  GetCodeHash := λ a, gets (λ s, code_hash s a);
  GetCode := λ a, gets (λ s, ra_code (ref_get s a));
  SetCode := λ a c, ref_upd a (set_code c);
  GetCodeSize := λ a, gets (λ s, zlen (ra_code (ref_get s a)));
  AddRefund := λ g, modify (with_core (λ c,
    {| rc_accounts := rc_accounts c; rc_refund := rc_refund c + g; rc_logs := rc_logs c |}));
  GetRefund := gets (λ s, rc_refund (rs_core s));
  GetState := λ a k, gets (λ s, default 0 (ra_storage (ref_get s a) !! k));
  SetState := λ a k v, ref_upd a (set_storage k v);
  Suicide := λ a, s ← gets id;
    (if bool_decide (is_Some (rc_accounts (rs_core s) !! a))
     then _ ← ref_upd a set_suicided; mret true else mret false);
  HasSuicided := λ a, gets (λ s, ra_suicided (ref_get s a));
  Exist := λ a, gets (λ s, bool_decide (is_Some (rc_accounts (rs_core s) !! a)));
  Empty := λ a, gets (λ s, acc_empty (ref_get s a));
  RevertToSnapshot := λ id s,
    match (if id <? 0 then None else rs_snapshots s !! Z.to_nat id) with
    | Some c => Done () {| rs_core := c; rs_snapshots := take (Z.to_nat id) (rs_snapshots s) |}
    | None => Fault Panic
    end;
  Snapshot := λ s,
    Done (zlen (rs_snapshots s)) {| rs_core := rs_core s; rs_snapshots := rs_snapshots s ++ [rs_core s] |};
  AddLog := λ l, modify (with_core (λ c,
    {| rc_accounts := rc_accounts c; rc_refund := rc_refund c; rc_logs := rc_logs c ++ [l] |}));
  AddPreimage := λ _ _, mret ()
|}.

Definition acc_ok (acc : ref_account) : Prop :=
  0 <= ra_balance acc ∧ is_uint64 (ra_nonce acc) ∧ zlen (ra_code acc) < 2 ^ 62 ∧
  map_Forall (λ _ v, is_u256 v) (ra_storage acc).

Definition core_ok (c : ref_core) : Prop :=
  map_Forall (λ _, acc_ok) (rc_accounts c) ∧ 0 <= rc_refund c.

Definition ref_ok_state (s : ref_state) : Prop := core_ok (rs_core s) ∧ Forall core_ok (rs_snapshots s).

Definition ref_view (s : ref_state) : view :=
  {| v_exist := λ a, bool_decide (is_Some (rc_accounts (rs_core s) !! a));
     v_balance := λ a, ra_balance (ref_get s a);
     v_nonce := λ a, ra_nonce (ref_get s a);
     v_code := λ a, ra_code (ref_get s a);
     v_codehash := code_hash s;
     v_storage := λ a k, default 0 (ra_storage (ref_get s a) !! k);
     v_suicided := λ a, ra_suicided (ref_get s a);
     v_empty := λ a, acc_empty (ref_get s a);
     v_refund := rc_refund (rs_core s);
     v_logs := rc_logs (rs_core s) |}.

Definition ref_ext (s s' : ref_state) : Prop := rs_snapshots s `prefix_of` rs_snapshots s'.

Lemma ref_get_ok s a : ref_ok_state s → acc_ok (ref_get s a).
Proof.
  intros [[Hc _] _]. unfold ref_get. destruct (_ !! a) as [acc|] eqn:E; [by apply (Hc a)|].
  unfold acc_ok. cbn. repeat split; done.
Qed.

Lemma ref_set_ok s a acc : ref_ok_state s → acc_ok acc → ref_ok_state (ref_set a acc s).
Proof. intros [[Hc Hr] Hs] Ha. do 2 (split; [|done]). by apply map_Forall_insert_2. Qed.

Lemma ref_get_set s a acc b : ref_get (ref_set a acc s) b = if decide (a = b) then acc else ref_get s b.
Proof.
  unfold ref_get, ref_set. cbn. destruct (decide (a = b)) as [->|Hne].
  - by rewrite lookup_insert_eq.
  - by rewrite lookup_insert_ne.
Qed.

(** The balance of the account written. *)
Lemma ref_set_changes s a acc c :
  ra_balance acc = ra_balance (ref_get s a) + c → changes (ref_view s) (ref_view (ref_set a acc s)) a c.
Proof.
  intros E b. cbn. rewrite ref_get_set. case_decide as Hb; [subst b; lia|lia].
Qed.

Lemma ref_set_same s a acc :
  ra_balance acc = ra_balance (ref_get s a) → same_balances (ref_view s) (ref_view (ref_set a acc s)).
Proof. intros E b. cbn. rewrite ref_get_set. case_decide as Hb; [by subst b|done]. Qed.

(** An update that leaves what is observed of the account. *)
Lemma ref_set_static s a acc :
  ra_balance acc = ra_balance (ref_get s a) → ra_nonce acc = ra_nonce (ref_get s a) →
  ra_code acc = ra_code (ref_get s a) → ra_storage acc = ra_storage (ref_get s a) →
  ra_suicided acc = ra_suicided (ref_get s a) →
  view_static (ref_view s) (ref_view (ref_set a acc s)).
Proof.
  intros E1 E2 E3 E4 E5.
  split; intros; cbn; unfold acc_empty; rewrite ?ref_get_set; try done;
    case_decide; subst; rewrite ?E1, ?E2, ?E3, ?E4, ?E5; done.
Qed.

Lemma ref_get_none s a : bool_decide (is_Some (rc_accounts (rs_core s) !! a)) = false → ref_get s a = new_account.
Proof.
  intros Hn%bool_decide_eq_false. unfold ref_get.
  by destruct (_ !! a); [destruct Hn; eauto|].
Qed.

Lemma ref_ext_refl s s' : rs_snapshots s = rs_snapshots s' → ref_ext s s'.
Proof. intros E. unfold ref_ext. by rewrite E. Qed.

Ltac ref_read :=
  intros; do 2 eexists; split; [reflexivity|]; split; [assumption|]; split; [by apply ref_ext_refl|];
  split; [reflexivity|].
Ltac ref_write H a :=
  do 2 eexists; split; [reflexivity|]; split;
  [apply ref_set_ok; [exact H|]; pose proof (ref_get_ok _ a H) as (? & ? & ? & ?);
   split; [|split; [|split]]; cbn; try assumption; try done; try lia | split; [by apply ref_ext_refl|]].

#[refine, global] Instance ref_StateLaws : StateLaws ref_state :=
  {| SInv := ref_ok_state; sview := ref_view; sext := ref_ext |}.
Proof.
  - intros s. by apply ref_ext_refl.
  - intros s1 s2 s3 H1 H2. unfold ref_ext in *. by etrans.
  - ref_read. split; [done|]. by apply ref_get_ok.
  - ref_read. split; [done|]. by apply ref_get_ok.
  - ref_read. split; [done|]. cbn. unfold code_hash. case_match; [|done].
    unfold Keccak256Hash. rewrite BytesToHash_mod. apply Z.mod_pos_bound. lia.
  - ref_read. split; [done|]. by apply ref_get_ok.
  - ref_read. done.
  - ref_read. split; [done|]. cbn. destruct (_ !! k) as [v|] eqn:E; [|done].
    by eapply (ref_get_ok s a).
  - ref_read. done.
  - ref_read. done.
  - ref_read. done.
  - intros s Hs. ref_read. split; [done|apply Hs].
  - ref_read. done.
  - intros s a Hs. ref_write Hs a. split; [by apply ref_set_same|].
    intros Hn. apply ref_get_none in Hn. apply ref_set_static; by rewrite Hn.
  - intros s a v h Hs Hv. cbn in Hv. ref_write Hs a. split; [by apply ref_set_changes|].
    intros ->. apply ref_set_static; try done. cbn. lia.
  - intros s a v h Hs Hv. ref_write Hs a.
    split; [exists v; split; [lia|by apply ref_set_changes]|].
    intros ->. apply ref_set_static; try done. cbn. lia.
  - intros s a n Hs Hn. ref_write Hs a. by apply ref_set_same.
  - intros s a c Hs Hc. ref_write Hs a. by apply ref_set_same.
  - intros s a k v Hs Hv. ref_write Hs a; [by apply map_Forall_insert_2|by apply ref_set_same].
  - intros s g [[Hc Hr] Hs] Hg. do 2 eexists. split; [reflexivity|]. unfold is_uint64 in Hg.
    split; [split; [split; [done|cbn; lia]|done]|]. split; [by apply ref_ext_refl|done].
  - intros s a Hs. unfold Suicide. cbn. unfold mbind, M_bind, gets. cbn.
    case_bool_decide as Hb; [ref_write Hs a; apply ref_set_changes; cbn; lia|]. do 2 eexists.
    split; [reflexivity|]. split; [done|]. split; [by apply ref_ext_refl|].
    rewrite (ref_get_none s a) by by apply bool_decide_eq_false. intros b. cbn. case_decide; lia.
  - intros s l Hs. do 2 eexists. split; [reflexivity|]. split; [done|]. split; [by apply ref_ext_refl|done].
  - intros s [Hc Hs]. do 2 eexists. split; [reflexivity|].
    split; [split; [done|]; apply Forall_app; split; [done|by apply Forall_singleton]|].
    split; [by apply prefix_app_r|]. split; [reflexivity|].
    intros s'' [Hc2 Hs2] [l El]. cbn in El. cbn -[take].
    rewrite (proj2 (Z.ltb_ge _ _)) by apply zlen_nonneg. unfold zlen. rewrite Nat2Z.id.
    rewrite El, <-app_assoc. cbn [app]. rewrite list_lookup_middle by done. eexists. split; [reflexivity|].
    rewrite take_app_length. split; [by split|]. split; [by apply ref_ext_refl|reflexivity].
Defined.

End Ref.
