(* ===== verification/VmSpec.v ===== *)
(** * Invariants of a frame and specification of an operation

    [frame_ok] is the invariant of the interpreter's loop, [exec_ok] and
    [gas_ok] what the two functions of a jump table entry must satisfy to keep
    it, [ops_ok] what the calls an instruction makes must satisfy. *)
From S2P Require Import Prelude BigMath Params OpCodes VmAnalysis VmMemory VmTypes VmLaws.

(** The only fault the machine can end in. *)
Definition stale (f : fault) : Prop := f = StaleAnalysis.

(** Gas a run may start with.  A block's gas limit is far below; the precompiled
    modular exponentiation panics for more (see [bigModExp_panics]). *)
Definition max_gas : Z := 2 ^ 62.

(** The largest memory [memoryGasCost] lets through. *)
Definition max_memory : Z := 0xffffffffe0.

Notation words_ok := (Forall (λ w : Z, 0 <= w)).

Record contract_ok (c : Contract) : Prop := {
  co_caller : 0 <= CallerAddress c;
  co_self : 0 <= self c;
  co_code : zlen (Code c) < 2 ^ 62;
  co_input : zlen (Input c) < 2 ^ 60;
  co_gas : 0 <= Gas c <= max_gas;
  co_value : ∃ v, value c = Some v ∧ 0 <= v
}.

Definition ref_ok (r : ContractRef) : Prop :=
  match r with
  | AccountRef a => 0 <= a
  | ContractOf self caller value => 0 <= self ∧ 0 <= caller ∧ ∃ v, value = Some v ∧ 0 <= v
  end.

Record mem_ok (m : Memory) : Prop := {
  mo_words : Len m mod 32 = 0;
  mo_max : Len m <= max_memory;
  mo_fee : is_uint64 (lastGasCost m)
}.

Section Spec.
Context `{StateLaws DB}.

Implicit Types f : Frame DB.
Implicit Types y : YVM DB.
Implicit Types e : Env DB.

Record frame_ok f : Prop := {
  fo_words : words_ok (stack f);
  fo_stack : zlen (stack f) <= StackLimit;
  fo_mem : mem_ok (memory f);
  fo_contract : contract_ok (contract f);
  fo_pc : 0 <= pc f <= zlen (Code (contract f)) + 32;
  fo_state : SInv (statedb (yvm f))
}.

(** The machine after a computation: a later state, the same depth and mode, no
    more money, and nothing observable changed in read-only mode. *)
Record yvm_rel e y y' : Prop := {
  yr_inv : SInv (statedb y');
  yr_ext : sext (statedb y) (statedb y');
  yr_depth : depth y' = depth y;
  yr_readOnly : readOnly y' = readOnly y;
  yr_gains : gains (sview (statedb y)) (sview (statedb y')) 0;
  yr_static : byz e = true → readOnly y = true →
              view_static (sview (statedb y)) (sview (statedb y'))
}.

Lemma yvm_rel_refl e y : SInv (statedb y) → yvm_rel e y y.
Proof. intros Hs. split; [done|apply sext_refl|done|done|by apply same_balances_gains|done]. Qed.

Lemma yvm_rel_trans e y1 y2 y3 : yvm_rel e y1 y2 → yvm_rel e y2 y3 → yvm_rel e y1 y3.
Proof.
  intros [] []. split; [done|by eapply sext_trans|congruence|congruence|by apply (gains_trans _ _ _ 0 0 yr_gains0)|].
  intros Hb Hr. etrans; [by apply yr_static0|]. apply yr_static1; [done|congruence].
Qed.

(** Fields of the machine that are not part of [yvm_rel]. *)
Lemma yvm_rel_fields e y y' z :
  yvm_rel e y y' → statedb z = statedb y' → depth z = depth y' → readOnly z = readOnly y' →
  yvm_rel e y z.
Proof. intros [] E1 E2 E3. split; rewrite ?E1, ?E2, ?E3; done. Qed.

(** ** The calls an instruction may make *)

Definition call_post e y (gas : Z) (r : call_result) y' : Prop :=
  0 <= r.1.2 <= gas ∧ yvm_rel e y y'.

Definition create_post e y (gas : Z) (r : create_result) y' : Prop :=
  0 <= r.1.2 <= gas ∧ 0 <= r.1.1.2 ∧ yvm_rel e y y'.

(** [n] bounds the gas of the calls. *)
Record ops_ok e (o : CallOps DB) (n : Z) : Prop := {
  oo_Call r a i g v y : ref_ok r → 0 <= a → zlen i < 2 ^ 60 → 0 <= g < n → 0 <= v → SInv (statedb y) →
    (byz e = true → readOnly y = true → v = 0) →
    wp stale (do_Call o r a i g v) (call_post e y g) y;
  oo_CallCode r a i g v y : ref_ok r → 0 <= a → zlen i < 2 ^ 60 → 0 <= g < n → 0 <= v →
    SInv (statedb y) → wp stale (do_CallCode o r a i g v) (call_post e y g) y;
  oo_DelegateCall s c v a i g y : ref_ok (ContractOf s c v) → 0 <= a → zlen i < 2 ^ 60 →
    0 <= g < n → SInv (statedb y) →
    wp stale (do_DelegateCall o (ContractOf s c v) a i g) (call_post e y g) y;
  oo_StaticCall r a i g y : ref_ok r → 0 <= a → zlen i < 2 ^ 60 → 0 <= g < n → SInv (statedb y) →
    wp stale (do_StaticCall o r a i g) (call_post e y g) y;
  oo_Create r i g v y : ref_ok r → zlen i < 2 ^ 60 → 0 <= g < n → 0 <= v → SInv (statedb y) →
    (byz e = true → readOnly y = false) →
    wp stale (do_Create o r i g v) (create_post e y g) y;
  oo_Create2 r i g v salt y : ref_ok r → zlen i < 2 ^ 60 → 0 <= g < n → 0 <= v → SInv (statedb y) →
    (byz e = true → readOnly y = false) →
    wp stale (do_Create2 o r i g v salt) (create_post e y g) y
}.

(** ** Entries of the jump table *)

(** The numbers of words an operation takes and leaves, whether it sets the
    program counter itself, whether it ends the run. *)
Record shape := { npop : nat; npush : nat; sh_jumps : bool; sh_ends : bool }.

Record exec_post e (sh : shape) (B : Z) f (r : exec_result) f' : Prop := {
  ep_stack : r.2 = None → (length (stack f') + npop sh = length (stack f) + npush sh)%nat;
  ep_words : words_ok (stack f');
  ep_len : Len (memory f') = Len (memory f);
  ep_fee : lastGasCost (memory f') = lastGasCost (memory f);
  ep_contract : with_Gas 0 (contract f') = with_Gas 0 (contract f);
  ep_gas : 0 <= Gas (contract f') ∧
           (Gas (contract f') <= Gas (contract f) ∨ Gas (contract f') < B);
  ep_pc : r.2 = None → sh_ends sh = false →
          0 <= pc f' + (if sh_jumps sh then 0 else 1) <= zlen (Code (contract f)) + 32;
  ep_yvm : yvm_rel e (yvm f) (yvm f');
  ep_ret : sh_ends sh = true → zlen r.1 <= max_memory
}.

(** [ready] is what the gas function leaves for the instruction: the gas
    reserved for a call. *)
Definition exec_ok e (opcode : Z) (ex : executionFunc DB) (ms : option memorySizeFunc) (wr : bool)
    (sh : shape) (ready : Frame DB → Z → Prop) : Prop :=
  ∀ o B f,
    ops_ok e o B → B <= max_gas → frame_ok f → (npop sh <= length (stack f))%nat →
    (∀ g m, ms = Some g → g (stack f) = Some m → m <= Len (memory f)) →
    (sh_ends sh = false → pc f < zlen (Code (contract f)) ∧ Gas (contract f) < B) →
    ready f B →
    (byz e = true → readOnly (yvm f) = true →
     wr = false ∧ (opcode = CALL → stack f !! 2%nat = Some 0)) →
    wp stale (ex e o) (exec_post e sh B f) f.

Record gas_post e (sh : shape) (ready : Frame DB → Z → Prop) (size : Z) f (r : Z * option error) f'
    : Prop := {
  gp_stack : stack f' = stack f;
  gp_pc : pc f' = pc f;
  gp_contract : contract f' = contract f;
  gp_store : store (memory f') = store (memory f);
  gp_fee : is_uint64 (lastGasCost (memory f'));
  gp_yvm : yvm_rel e (yvm f) (yvm f');
  gp_size : r.2 = None → size <= max_memory;
  gp_cost : r.2 = None → is_uint64 r.1 ∧ (sh_ends sh = false → 1 <= r.1);
  gp_ready : r.2 = None → r.1 <= Gas (contract f) → ∀ m,
             ready (with_memory m (with_contract (with_Gas (Gas (contract f) - r.1) (contract f)) f'))
                   (Gas (contract f))
}.

Definition gas_ok e (gc : gasFunc DB) (ms : option memorySizeFunc) (wr : bool)
    (sh : shape) (ready : Frame DB → Z → Prop) : Prop :=
  ∀ size f,
    frame_ok f → (npop sh <= length (stack f))%nat → 0 <= size < 2 ^ 64 →
    (ms = None → size = 0) →
    (byz e = true → readOnly (yvm f) = true → wr = false) →
    wp stale (gc e size) (gas_post e sh ready size f) f.

Definition entry_ok e (opcode : Z) (op : operation DB) : Prop :=
  ∃ sh ready,
    valid op = true ∧
    validateStack op = makeStackFunc (Z.of_nat (npop sh)) (Z.of_nat (npush sh)) ∧
    (∀ g st, memorySize op = Some g → (npop sh <= length st)%nat → words_ok st →
             ∃ m, g st = Some m ∧ 0 <= m) ∧
    sh_ends sh = halts op || reverts op ∧
    sh_jumps sh = jumps op ∧
    (opcode = STOP → halts op = true) ∧
    (opcode = CALL → (3 <= npop sh)%nat) ∧
    gas_ok e (gasCost op) (memorySize op) (writes op) sh ready ∧
    exec_ok e opcode (execute op) (memorySize op) (writes op) sh ready.

(** ** Instructions that make no call *)

Record simple_post e (sh : shape) f (r : exec_result) f' : Prop := {
  sp_stack : r.2 = None → (length (stack f') + npop sh = length (stack f) + npush sh)%nat;
  sp_words : words_ok (stack f');
  sp_len : Len (memory f') = Len (memory f);
  sp_fee : lastGasCost (memory f') = lastGasCost (memory f);
  sp_contract : contract f' = contract f;
  sp_pc : r.2 = None → sh_ends sh = false →
          0 <= pc f' + (if sh_jumps sh then 0 else 1) <= zlen (Code (contract f)) + 32;
  sp_yvm : yvm_rel e (yvm f) (yvm f');
  sp_ret : sh_ends sh = true → zlen r.1 <= max_memory
}.

Definition simple_ok e (ex : executionFunc DB) (ms : option memorySizeFunc) (wr : bool)
    (sh : shape) : Prop :=
  ∀ o f,
    frame_ok f → (npop sh <= length (stack f))%nat →
    (∀ g m, ms = Some g → g (stack f) = Some m → m <= Len (memory f)) →
    (sh_ends sh = false → pc f < zlen (Code (contract f))) →
    (byz e = true → readOnly (yvm f) = true → wr = false) →
    wp stale (ex e o) (simple_post e sh f) f.

Definition no_call (f : Frame DB) (B : Z) : Prop := True.

Lemma simple_exec e opcode ex ms wr sh :
  simple_ok e ex ms wr sh → exec_ok e opcode ex ms wr sh no_call.
Proof.
  intros Hs o B f _ HB Hf Hl Hm Hp _ Hst.
  eapply wp_mono; [apply Hs; try done|].
  - intros He. by apply Hp.
  - intros Hb Hr. by apply Hst.
  - intros r f' []. split; try done.
    + by rewrite sp_contract0.
    + rewrite sp_contract0. split; [apply Hf|by left].
Qed.

(** ** Stack shapes and single steps *)

Lemma wp_on_state_reads {A B} F (m : M DB A) (k : A → M (Frame DB) B) P Q f :
  reads m (statedb (yvm f)) P →
  (∀ v s', SInv s' → sext (statedb (yvm f)) s' → view_eq (sview (statedb (yvm f))) (sview s') → P v →
    wp F (k v) Q (with_yvm (with_statedb s' (yvm f)) f)) →
  wp F (on_state m ≫= k) Q f.
Proof.
  intros (v & s' & E & Hi & Hx & Hv & HP) Hk. apply wp_bind. do 2 apply wp_zoom.
  unfold wp. rewrite E. by apply Hk.
Qed.

Lemma wp_on_state_updates {A B} F (m : M DB A) (k : A → M (Frame DB) B) P Q f :
  updates m (statedb (yvm f)) P →
  (∀ v s', SInv s' → sext (statedb (yvm f)) s' → P v (sview s') →
    wp F (k v) Q (with_yvm (with_statedb s' (yvm f)) f)) →
  wp F (on_state m ≫= k) Q f.
Proof.
  intros (v & s' & E & Hi & Hx & HP) Hk. apply wp_bind. do 2 apply wp_zoom.
  unfold wp. rewrite E. by apply Hk.
Qed.

(** A read of the state, or a write outside read-only mode. *)
Lemma yvm_rel_read e y s' :
  SInv s' → sext (statedb y) s' → view_eq (sview (statedb y)) (sview s') →
  yvm_rel e y (with_statedb s' y).
Proof. intros Hi Hx Hv. split; try done; [by apply view_eq_gains|]. intros _ _. apply Hv. Qed.

Lemma yvm_rel_write e y s' :
  SInv s' → sext (statedb y) s' → gains (sview (statedb y)) (sview s') 0 →
  (byz e = true → readOnly y = true → true = false) → yvm_rel e y (with_statedb s' y).
Proof. intros Hi Hx Hg Hro. split; try done. intros Hb Hr. by specialize (Hro Hb Hr). Qed.

End Spec.
