(* ===== verification/VmExec.v ===== *)
(** * Instructions keep the frame invariant

    For every instruction of [instructions.go] that makes no call: run on a
    frame that satisfies the invariant, with enough words on the stack and
    enough memory, it does not panic, leaves the number of words its jump
    table entry announces, and changes nothing in read-only mode. *)
From S2P Require Import Prelude BigMath Params OpCodes VmAnalysis VmMemory VmTypes VmLaws.
From S2P Require Import VmSpec VmGas VmInstructions.

(** ** Words stay non-negative *)

Create HintDb words.

Lemma U256_nonneg x : 0 <= U256 x.
Proof. apply U256_range. Qed.
Lemma Exp_nonneg x y : 0 <= (Exp x y).1.
Proof.
  unfold Exp. rewrite Exp_words_spec; [|apply Bits_word|done].
  apply Z.mod_pos_bound. lia.
Qed.

Lemma land_nonneg x y : 0 <= x → 0 <= Z.land x y.
Proof. intros. apply Z.land_nonneg. by left. Qed.
Lemma lor_nonneg x y : 0 <= x → 0 <= y → 0 <= Z.lor x y.
Proof. intros. by apply Z.lor_nonneg. Qed.
Lemma lxor_nonneg x y : 0 <= x → 0 <= y → 0 <= Z.lxor x y.
Proof. intros. by apply Z.lxor_nonneg. Qed.

Lemma bz_nonneg b : 0 <= bz b.
Proof. apply bz_range. Qed.

Lemma Z_01_nonneg (b : bool) : 0 <= (if b then 1 else 0).
Proof. by destruct b. Qed.
Lemma Z_10_nonneg (b : bool) : 0 <= (if b then 0 else 1).
Proof. by destruct b. Qed.

Lemma Len_nonneg m : 0 <= Len m.
Proof. apply zlen_nonneg. Qed.
Lemma Gas_nonneg c : contract_ok c → 0 <= Gas c.
Proof. intros Hc. apply co_gas, Hc. Qed.

Lemma uint64_nonneg x : 0 <= uint64 x.
Proof. apply uint64_range. Qed.
Lemma is_u256_nonneg x : is_u256 x → 0 <= x.
Proof. by intros []. Qed.

#[export] Hint Resolve uint64_nonneg is_u256_nonneg Len_nonneg Gas_nonneg U256_nonneg bz_nonneg Z_01_nonneg Z_10_nonneg SetBytes_nonneg zlen_nonneg
  Z.le_refl Z.le_0_1 Exp_nonneg land_nonneg lor_nonneg lxor_nonneg
  co_caller co_self eo_origin eo_price eo_coinbase eo_hash : words.

(** Runs an instruction on an explicit frame. *)
Ltac vm_run :=
  cbv beta iota zeta delta
    [mbind M_bind mret M_ret pop push peek set_top gets modify must fail panic
     with_pc with_stack with_memory with_contract with_yvm
     pc stack memory contract yvm done_nil id].

Ltac vm_branch :=
  match goal with |- context [if ?b then _ else _] => destruct b eqn:? end.

(** Takes a frame apart, with the words the instruction needs on its stack. *)
Ltac vm_words_start Hf Hl :=
  cbn [npop npush sh_jumps sh_ends stack pc memory contract yvm] in *;
  repeat match type of Hl with
  | (S _ <= length ?st)%nat =>
      destruct st as [|? st]; [exfalso; cbn [length] in Hl; lia|];
      cbn [length] in Hl; apply le_S_n in Hl
  end;
  let Hw := fresh "Hw" in
  let Hc := fresh "Hc" in
  pose proof (fo_words _ Hf) as Hw; pose proof (fo_contract _ Hf) as Hc;
  let Hp := fresh "Hp" in pose proof (fo_pc _ Hf) as Hp;
  cbn [stack contract pc] in Hw, Hc, Hp;
  repeat match goal with H : Forall _ (_ :: _) |- _ => apply Forall_cons_1 in H as [? ?] end.

Ltac vm_start :=
  let Hf := fresh "Hf" in let Hl := fresh "Hl" in
  intros o [p st m c y] Hf Hl Hmem Hpc Hst; vm_words_start Hf Hl.

(** The state invariant of the frame at hand. *)
Ltac frame_state := match goal with Hf : frame_ok _ |- _ => exact (fo_state _ Hf) end.

Ltac vm_words :=
  repeat first [apply Forall_cons_2 | apply Forall_nil_2 | assumption
               | solve [eauto 3 with words] | lia].

(** ** Windows of the memory that was sized for them *)

Lemma calcMemSize_window m off l :
  0 <= off → 0 <= l → calcMemSize off l <= Len m → mem_ok m →
  l = 0 ∨ 0 < l ∧ off + l <= Len m ∧ off + l < 2 ^ 63.
Proof.
  unfold calcMemSize, Sign. intros Ho Hl Hc Hm. pose proof (mo_max _ Hm) as Hx.
  unfold max_memory in Hx. destruct (Z.eqb_spec (Z.sgn l) 0); [left; lia|right; lia].
Qed.

Lemma get_window m off l :
  0 <= off → 0 <= l → calcMemSize off l <= Len m → mem_ok m →
  ∃ d, mem_Get m (Int64 off) (Int64 l) = Some d ∧ zlen d <= max_memory.
Proof.
  intros Ho Hl Hc Hm. pose proof (mo_max _ Hm) as Hx.
  destruct (calcMemSize_window m off l Ho Hl Hc Hm) as [->|(Hp & Hw & Hb)].
  - exists []. done.
  - rewrite !Int64_id, mem_Get_ok by lia. eexists. split; [done|].
    unfold zlen. rewrite length_take, length_drop. unfold Len, zlen in *. lia.
Qed.

Lemma get_ptr_window m off l :
  0 <= off → 0 <= l → calcMemSize off l <= Len m → mem_ok m →
  ∃ d, mem_GetPtr m (Int64 off) (Int64 l) = Some d ∧ zlen d <= max_memory.
Proof. intros. destruct (get_window m off l) as (d & E & ?); eauto. Qed.

Lemma set_window m off l v :
  0 <= off → 0 <= l → calcMemSize off l <= Len m → mem_ok m →
  ∃ m', mem_Set m (Uint64 off) (Uint64 l) v = Some m' ∧
        Len m' = Len m ∧ lastGasCost m' = lastGasCost m.
Proof.
  intros Ho Hl Hc Hm. pose proof (mo_max _ Hm) as Hx. unfold max_memory in Hx.
  assert (∃ m', mem_Set m (Uint64 off) (Uint64 l) v = Some m') as [m' E].
  { destruct (calcMemSize_window m off l Ho Hl Hc Hm) as [->|(Hp & Hw & Hb)].
    - by exists m.
    - rewrite !Uint64_id, mem_Set_ok by (unfold is_uint64; lia). eauto. }
  exists m'. split; [done|]. eapply mem_Set_len; [|exact E].
  unfold Uint64. apply uint64_range.
Qed.

(** ** Single steps on an explicit frame *)

Section Steps.
Context {DB A : Type}.
Variable F : fault → Prop.
Variables (p : Z) (m : Memory) (c : Contract) (y : YVM DB).
Variable Q : A → Frame DB → Prop.

Notation frame st := {| pc := p; stack := st; memory := m; contract := c; yvm := y |}.

Lemma wp_pop x st (k : Z → M (Frame DB) A) :
  wp F (k x) Q (frame st) → wp F (pop ≫= k) Q (frame (x :: st)).
Proof. done. Qed.
Lemma wp_peek x st (k : Z → M (Frame DB) A) :
  wp F (k x) Q (frame (x :: st)) → wp F (peek ≫= k) Q (frame (x :: st)).
Proof. done. Qed.
Lemma wp_set_top x v st (k : () → M (Frame DB) A) :
  wp F (k ()) Q (frame (v :: st)) → wp F (set_top v ≫= k) Q (frame (x :: st)).
Proof. done. Qed.
Lemma wp_push v st (k : () → M (Frame DB) A) :
  wp F (k ()) Q (frame (v :: st)) → wp F (push v ≫= k) Q (frame st).
Proof. done. Qed.
Lemma wp_gets_pc st (k : Z → M (Frame DB) A) :
  wp F (k p) Q (frame st) → wp F (gets pc ≫= k) Q (frame st).
Proof. done. Qed.
Lemma wp_gets_memory st (k : Memory → M (Frame DB) A) :
  wp F (k m) Q (frame st) → wp F (gets memory ≫= k) Q (frame st).
Proof. done. Qed.
Lemma wp_gets_contract st (k : Contract → M (Frame DB) A) :
  wp F (k c) Q (frame st) → wp F (gets contract ≫= k) Q (frame st).
Proof. done. Qed.
Lemma wp_gets_yvm st (k : YVM DB → M (Frame DB) A) :
  wp F (k y) Q (frame st) → wp F (gets yvm ≫= k) Q (frame st).
Proof. done. Qed.
Lemma wp_Back n x st (k : Z → M (Frame DB) A) :
  st !! n = Some x → wp F (k x) Q (frame st) → wp F (Back n ≫= k) Q (frame st).
Proof. intros E Hk. unfold wp, Back, mbind, M_bind. simpl. by rewrite E. Qed.
End Steps.

Section MemorySteps.
Context {DB : Type}.

Lemma wp_memory_Get {A} F off l d (k : list byte → M (Frame DB) A) Q f :
  mem_Get (memory f) off l = Some d → wp F (k d) Q f → wp F (memory_Get off l ≫= k) Q f.
Proof. destruct f as [p st mm c y]. cbn [memory]. intros E Hk. unfold wp, memory_Get. vm_run. by rewrite E. Qed.

Lemma wp_memory_GetPtr {A} F off l d (k : list byte → M (Frame DB) A) Q f :
  mem_GetPtr (memory f) off l = Some d → wp F (k d) Q f → wp F (memory_GetPtr off l ≫= k) Q f.
Proof. destruct f as [p st mm c y]. cbn [memory]. intros E Hk. unfold wp, memory_GetPtr. vm_run. by rewrite E. Qed.

Lemma wp_memory_Set {A} F off l v m' (k : () → M (Frame DB) A) Q f :
  mem_Set (memory f) off l v = Some m' → wp F (k ()) Q (with_memory m' f) →
  wp F (memory_Set off l v ≫= k) Q f.
Proof. destruct f as [p st mm c y]. cbn [memory]. intros E Hk. unfold wp, memory_Set. vm_run. by rewrite E. Qed.

End MemorySteps.

(** ** Tactics for the calls an instruction makes *)

(** A call of a state method that only reads, by its law. *)
Ltac state_read L :=
  eapply wp_on_state_reads;
  [apply L; cbn [yvm statedb]; first [frame_state | assumption]
  |let HP := fresh "HP" in
   intros ? ? ? ? ? HP; cbv beta in HP; cbn [yvm statedb with_yvm with_statedb] in *; destr_ands].

(** Runs the instruction up to its next call of a state or memory method. *)
Ltac vm_to_state :=
  repeat first
    [ apply wp_pop | apply wp_peek | apply wp_gets_pc | apply wp_gets_memory
    | apply wp_gets_contract | apply wp_gets_yvm ];
  cbv beta iota zeta delta [pc stack memory contract yvm].

Ltac state_write L :=
  eapply wp_on_state_updates;
  [eapply L; cbn [yvm statedb with_yvm with_statedb]; try first [frame_state | assumption]
  |let HP := fresh "HP" in
   intros ? ? ? ? HP; cbv beta in HP; cbn [yvm statedb with_yvm with_statedb] in *; destr_ands].

(** The size the jump table asked for, as a fact about the operands. *)
Ltac mem_fact :=
  match goal with
  | Hm : ∀ g m, Some _ = Some g → _, Hf : frame_ok _ |- _ =>
      let Hms := fresh "Hms" in pose proof (Hm _ _ eq_refl eq_refl) as Hms;
      let Hmo := fresh "Hmo" in pose proof (fo_mem _ Hf) as Hmo; cbn [memory] in Hms, Hmo
  end.

(** Reads, or overwrites, the window the operands [off] and [l] describe. *)
Ltac read_window m off l :=
  let d := fresh "d" in let E := fresh "E" in let Hd := fresh "Hd" in
  destruct (get_window m off l) as (d & E & Hd); [..|eapply wp_memory_Get; [exact E|]];
  [lia|lia|eassumption|eassumption|].
Ltac write_window m off l v :=
  let m' := fresh "m'" in let E := fresh "E" in
  destruct (set_window m off l v) as (m' & E & ? & ?); [..|eapply wp_memory_Set; [exact E|]];
  [lia|lia|eassumption|eassumption|vm_run].

Section Exec.
Context `{StateLaws DB} `{!Crypto}.
Variable e : Env DB.
Hypothesis He : env_ok e.

Lemma simple_intro sh f f' ret :
  frame_ok f → contract f' = contract f → pc f' = pc f → words_ok (stack f') →
  (length (stack f') + npop sh = length (stack f) + npush sh)%nat →
  Len (memory f') = Len (memory f) → lastGasCost (memory f') = lastGasCost (memory f) →
  yvm_rel e (yvm f) (yvm f') →
  (sh_ends sh = false → pc f < zlen (Code (contract f))) → sh_jumps sh = false →
  (sh_ends sh = true → zlen ret <= max_memory) →
  simple_post e sh f (ret, None) f'.
Proof.
  intros Hf Hc Hp Hw Hl Hm Hm' Hy Hpc Hj Hr. split; cbn; try done.
  intros _ Hend. rewrite Hj, Hp. specialize (Hpc Hend). pose proof (fo_pc _ Hf). lia.
Qed.

Ltac simple_done :=
  apply simple_intro;
  cbn [stack length npop npush sh_jumps sh_ends pc contract memory yvm];
  [done|done|done|vm_words|lia|try done|try done|try (apply yvm_rel_refl; frame_state)
  |try done|done|try done].

Tactic Notation "pure_op" reference(op) :=
  vm_start; unfold wp, op; vm_run; repeat (vm_branch; vm_run); simple_done.

Notation sh n m := {| npop := n; npush := m; sh_jumps := false; sh_ends := false |}.

Lemma opAdd_ok : simple_ok e opAdd None false (sh 2 1).
Proof. pure_op opAdd. Qed.
Lemma opSub_ok : simple_ok e opSub None false (sh 2 1).
Proof. pure_op opSub. Qed.
Lemma opMul_ok : simple_ok e opMul None false (sh 2 1).
Proof. pure_op opMul. Qed.
Lemma opDiv_ok : simple_ok e opDiv None false (sh 2 1).
Proof. pure_op opDiv. Qed.
Lemma opSdiv_ok : simple_ok e opSdiv None false (sh 2 1).
Proof. pure_op opSdiv. Qed.
Lemma opMod_ok : simple_ok e opMod None false (sh 2 1).
Proof. pure_op opMod. Qed.
Lemma opSmod_ok : simple_ok e opSmod None false (sh 2 1).
Proof. pure_op opSmod. Qed.
Lemma opExp_ok : simple_ok e opExp None false (sh 2 1).
Proof. pure_op opExp. Qed.
Lemma opSignExtend_ok : simple_ok e opSignExtend None false (sh 2 1).
Proof. pure_op opSignExtend. Qed.
Lemma opNot_ok : simple_ok e opNot None false (sh 1 1).
Proof. pure_op opNot. Qed.
Lemma opLt_ok : simple_ok e opLt None false (sh 2 1).
Proof. pure_op opLt. Qed.
Lemma opGt_ok : simple_ok e opGt None false (sh 2 1).
Proof. pure_op opGt. Qed.
Lemma opSlt_ok : simple_ok e opSlt None false (sh 2 1).
Proof. pure_op opSlt. Qed.
Lemma opSgt_ok : simple_ok e opSgt None false (sh 2 1).
Proof. pure_op opSgt. Qed.
Lemma opEq_ok : simple_ok e opEq None false (sh 2 1).
Proof. pure_op opEq. Qed.
Lemma opIszero_ok : simple_ok e opIszero None false (sh 1 1).
Proof. pure_op opIszero. Qed.
Lemma opAnd_ok : simple_ok e opAnd None false (sh 2 1).
Proof. pure_op opAnd. Qed.
Lemma opOr_ok : simple_ok e opOr None false (sh 2 1).
Proof. pure_op opOr. Qed.
Lemma opXor_ok : simple_ok e opXor None false (sh 2 1).
Proof. pure_op opXor. Qed.
Lemma opByte_ok : simple_ok e opByte None false (sh 2 1).
Proof. pure_op opByte. Qed.
Lemma opAddmod_ok : simple_ok e opAddmod None false (sh 3 1).
Proof. pure_op opAddmod. Qed.
Lemma opMulmod_ok : simple_ok e opMulmod None false (sh 3 1).
Proof. pure_op opMulmod. Qed.
Lemma opSHL_ok : simple_ok e opSHL None false (sh 2 1).
Proof. pure_op opSHL. Qed.
Lemma opSHR_ok : simple_ok e opSHR None false (sh 2 1).
Proof. pure_op opSHR. Qed.
Lemma opSAR_ok : simple_ok e opSAR None false (sh 2 1).
Proof. pure_op opSAR. Qed.
Lemma opAddress_ok : simple_ok e opAddress None false (sh 0 1).
Proof. pure_op opAddress. Qed.
Lemma opOrigin_ok : simple_ok e opOrigin None false (sh 0 1).
Proof. pure_op opOrigin. Qed.
Lemma opCaller_ok : simple_ok e opCaller None false (sh 0 1).
Proof. pure_op opCaller. Qed.
Lemma opCallDataLoad_ok : simple_ok e opCallDataLoad None false (sh 1 1).
Proof. pure_op opCallDataLoad. Qed.
Lemma opCallDataSize_ok : simple_ok e opCallDataSize None false (sh 0 1).
Proof. pure_op opCallDataSize. Qed.
Lemma opReturnDataSize_ok : simple_ok e opReturnDataSize None false (sh 0 1).
Proof. pure_op opReturnDataSize. Qed.
Lemma opCodeSize_ok : simple_ok e opCodeSize None false (sh 0 1).
Proof. pure_op opCodeSize. Qed.
Lemma opGasprice_ok : simple_ok e opGasprice None false (sh 0 1).
Proof. pure_op opGasprice. Qed.
Lemma opBlockhash_ok : simple_ok e opBlockhash None false (sh 1 1).
Proof. pure_op opBlockhash. Qed.
Lemma opCoinbase_ok : simple_ok e opCoinbase None false (sh 0 1).
Proof. pure_op opCoinbase. Qed.
Lemma opTimestamp_ok : simple_ok e opTimestamp None false (sh 0 1).
Proof. pure_op opTimestamp. Qed.
Lemma opNumber_ok : simple_ok e opNumber None false (sh 0 1).
Proof. pure_op opNumber. Qed.
Lemma opDifficulty_ok : simple_ok e opDifficulty None false (sh 0 1).
Proof. pure_op opDifficulty. Qed.
Lemma opGasLimit_ok : simple_ok e opGasLimit None false (sh 0 1).
Proof. pure_op opGasLimit. Qed.
Lemma opPop_ok : simple_ok e opPop None false (sh 1 0).
Proof. pure_op opPop. Qed.
Lemma opPc_ok : simple_ok e opPc None false (sh 0 1).
Proof. pure_op opPc. Qed.
Lemma opMsize_ok : simple_ok e opMsize None false (sh 0 1).
Proof. pure_op opMsize. Qed.
Lemma opGas_ok : simple_ok e opGas None false (sh 0 1).
Proof. pure_op opGas. Qed.
Lemma opJumpdest_ok : simple_ok e opJumpdest None false (sh 0 0).
Proof. pure_op opJumpdest. Qed.

(** ** Reading the state *)

Ltac state_done := unfold wp; vm_run; simple_done; cbn; try (by apply yvm_rel_read).

Lemma opBalance_ok : simple_ok e opBalance None false (sh 1 1).
Proof. vm_start. unfold opBalance. vm_to_state. state_read GetBalance_law. state_done. Qed.

Lemma opExtCodeSize_ok : simple_ok e opExtCodeSize None false (sh 1 1).
Proof.
  vm_start. unfold opExtCodeSize. vm_to_state. state_read GetCodeSize_law. state_done.
Qed.

Lemma opExtCodeHash_ok : simple_ok e opExtCodeHash None false (sh 1 1).
Proof.
  vm_start. unfold opExtCodeHash. vm_to_state. state_read GetCodeHash_law. state_done.
Qed.

Lemma opSload_ok : simple_ok e opSload None false (sh 1 1).
Proof. vm_start. unfold opSload. vm_to_state. state_read GetState_law. state_done. Qed.

Lemma opCallValue_ok : simple_ok e opCallValue None false (sh 0 1).
Proof.
  vm_start. destruct (co_value _ Hc) as (v & Ev & Hv). unfold wp, opCallValue. vm_run.
  rewrite Ev. simple_done.
Qed.

(** ** Reading and writing memory *)

Lemma opMload_ok : simple_ok e opMload (Some memoryMLoad) false (sh 1 1).
Proof.
  vm_start. mem_fact. unfold opMload. vm_to_state. change 32 with (Int64 32) at 1.
  read_window m z 32. state_done.
Qed.

Lemma opSha3_ok : simple_ok e opSha3 (Some memorySha3) false (sh 2 1).
Proof.
  vm_start. mem_fact. unfold opSha3. vm_to_state. read_window m z z0.
  destruct (EnablePreimageRecording (vmConfig e)).
  - state_read AddPreimage_law. state_done.
  - state_done.
Qed.

Lemma opCallDataCopy_ok : simple_ok e opCallDataCopy (Some memoryCallDataCopy) false (sh 3 0).
Proof.
  vm_start. mem_fact. unfold opCallDataCopy. vm_to_state.
  write_window m z z1 (getDataBig (Input c) z0 z1). state_done.
Qed.

Lemma opCodeCopy_ok : simple_ok e opCodeCopy (Some memoryCodeCopy) false (sh 3 0).
Proof.
  vm_start. mem_fact. unfold opCodeCopy. vm_to_state.
  write_window m z z1 (getDataBig (Code c) z0 z1). state_done.
Qed.

Lemma opExtCodeCopy_ok : simple_ok e opExtCodeCopy (Some memoryExtCodeCopy) false (sh 4 0).
Proof.
  vm_start. mem_fact. unfold opExtCodeCopy. vm_to_state. state_read GetCode_law.
  write_window m z0 z2 (getDataBig v z1 z2). state_done.
Qed.

Lemma opMstore_ok : simple_ok e opMstore (Some memoryMStore) false (sh 2 0).
Proof.
  vm_start. mem_fact. unfold calcMemSize in Hms. simpl in Hms. pose proof (mo_max _ Hmo) as Hx.
  unfold max_memory in Hx. unfold wp, opMstore. vm_run.
  rewrite Uint64_id, mem_Set32_ok by (unfold is_uint64; lia). simple_done. simpl.
  unfold Len, zlen in *. simpl. by rewrite length_splice by lia.
Qed.

Lemma opMstore8_ok : simple_ok e opMstore8 (Some memoryMStore8) false (sh 2 0).
Proof.
  vm_start. mem_fact. unfold calcMemSize in Hms. simpl in Hms. pose proof (mo_max _ Hmo) as Hx.
  unfold max_memory in Hx. unfold wp, opMstore8, mem_store1. vm_run.
  rewrite (Int64_id z) by lia. destruct ((0 <=? z) && (z <? Len m)) eqn:E.
  - simple_done. unfold Len, zlen. simpl. by rewrite length_insert.
  - exfalso. apply andb_false_iff in E as [E|E]; [apply Z.leb_gt in E|apply Z.ltb_ge in E]; lia.
Qed.

Lemma opReturnDataCopy_ok : simple_ok e opReturnDataCopy (Some memoryReturnDataCopy) false (sh 3 0).
Proof.
  vm_start. mem_fact. unfold opReturnDataCopy. vm_to_state.
  destruct ((BitLen (z0 + z1) >? 64) || (zlen (returnData y) <? Uint64 (z0 + z1))) eqn:Eb.
  - unfold wp. vm_run. split; cbn; try done. apply yvm_rel_refl. frame_state.
  - apply orb_false_iff in Eb as [Eb _]. rewrite Z.gtb_ltb in Eb. apply Z.ltb_ge in Eb.
    apply BitLen_le in Eb; [|lia].
    rewrite (Uint64_id (z0 + z1)), (Uint64_id z0) by (unfold is_uint64; lia).
    destruct (Z.leb_spec z0 (z0 + z1)); [|lia]. apply wp_bind, wp_ret.
    write_window m z z1 (take (Z.to_nat (z0 + z1 - z0)) (drop (Z.to_nat z0) (returnData y))).
    state_done.
Qed.

Lemma opReturn_ok : simple_ok e opReturn (Some memoryReturn) false
  {| npop := 2; npush := 0; sh_jumps := false; sh_ends := true |}.
Proof.
  vm_start. mem_fact. unfold opReturn. vm_to_state.
  destruct (get_ptr_window m z z0) as (d & E & ?); [lia|lia|done|done|].
  eapply wp_memory_GetPtr; [exact E|]. state_done.
Qed.

Lemma opRevert_ok : simple_ok e opRevert (Some memoryRevert) false
  {| npop := 2; npush := 0; sh_jumps := false; sh_ends := true |}.
Proof.
  vm_start. mem_fact. unfold opRevert. vm_to_state.
  destruct (get_ptr_window m z z0) as (d & E & ?); [lia|lia|done|done|].
  eapply wp_memory_GetPtr; [exact E|]. state_done.
Qed.

Lemma opStop_ok : simple_ok e opStop None false
  {| npop := 0; npush := 0; sh_jumps := false; sh_ends := true |}.
Proof. pure_op opStop. Qed.

(** ** Writing the state *)

Lemma BigToHash_range x : is_u256 (BigToHash x).
Proof. unfold BigToHash. rewrite BytesToHash_mod. apply Z.mod_pos_bound. lia. Qed.

Lemma opSstore_ok : simple_ok e opSstore None true (sh 2 0).
Proof.
  vm_start. unfold opSstore. vm_to_state. state_write SetState_law; [apply BigToHash_range|].
  state_done. apply yvm_rel_write; try done. by apply same_balances_gains.
Qed.

Lemma opSuicide_ok : simple_ok e opSuicide None true
  {| npop := 1; npush := 0; sh_jumps := false; sh_ends := true |}.
Proof.
  vm_start. unfold opSuicide. vm_to_state. state_read GetBalance_law. vm_to_state.
  state_write AddBalance_law. state_write Suicide_law.
  state_done. apply (yvm_rel_write e y); [done|by do 2 (etrans; [eassumption|])| |done].
  match goal with
  | Hv : view_eq ?u ?v, Hc : changes ?v ?w _ _ |- _ =>
    apply (gains_trans _ v _ 0 0); [by apply view_eq_gains|];
    eapply gains_moved; [exact Hc| |eassumption];
    rewrite (view_eq_same _ _ Hv); lia
  end.
Qed.

(** ** Jumps *)

Lemma has_true d h code dest d' :
  has d h code dest = Some (true, d') → Uint64 dest < zlen code.
Proof.
  unfold has. destruct (Z.leb_spec 63 (BitLen dest)); [done|]. simpl.
  by destruct (Z.leb_spec (zlen code) (Uint64 dest)).
Qed.

Lemma wp_jumpdest_has {A} p st m c y pos (k : bool → M (Frame DB) A) Q :
  (∀ r d, (r = true → Uint64 pos < zlen (Code c)) →
    wp stale (k r) Q {| pc := p; stack := st; memory := m; contract := c;
                        yvm := with_jumpdests d y |}) →
  wp stale (jumpdest_has pos ≫= k) Q {| pc := p; stack := st; memory := m; contract := c; yvm := y |}.
Proof.
  intros Hk. apply wp_bind. unfold wp at 1, jumpdest_has. cbn [yvm contract with_yvm pc stack memory].
  destruct (has (jumpdests y) (CodeHash c) (Code c) pos) as [[r d]|] eqn:E; [|done].
  apply Hk. intros ->. by eapply has_true.
Qed.

Notation jsh n := {| npop := n; npush := 0; sh_jumps := true; sh_ends := false |}.

(** A jump to a valid destination, and the error of an invalid one. *)
Lemma jump_post n p st m c y d pos st' :
  frame_ok {| pc := p; stack := st'; memory := m; contract := c; yvm := y |} →
  words_ok st → (length st + n = length st')%nat → Uint64 pos < zlen (Code c) →
  simple_post e (jsh n) {| pc := p; stack := st'; memory := m; contract := c; yvm := y |} ([], None)
    {| pc := Uint64 pos; stack := st; memory := m; contract := c; yvm := with_jumpdests d y |}.
Proof.
  intros Hf Hw Hl Hp. split; cbn; try done.
  - intros _. lia.
  - intros _ _. pose proof (uint64_range (Z.abs pos)) as [? ?]. unfold Uint64 in *. lia.
  - eapply yvm_rel_fields; [apply yvm_rel_refl; apply (fo_state _ Hf)|done..].
Qed.

Lemma jump_error n p st m c y d st' err :
  frame_ok {| pc := p; stack := st'; memory := m; contract := c; yvm := y |} → words_ok st →
  simple_post e (jsh n) {| pc := p; stack := st'; memory := m; contract := c; yvm := y |}
    ([], Some err) {| pc := p; stack := st; memory := m; contract := c; yvm := with_jumpdests d y |}.
Proof.
  intros Hf Hw. split; cbn; try done.
  eapply yvm_rel_fields; [apply yvm_rel_refl; apply (fo_state _ Hf)|done..].
Qed.

Lemma opJump_ok : simple_ok e opJump None false (jsh 1).
Proof.
  vm_start. unfold opJump. vm_to_state. apply wp_jumpdest_has. intros [] d Hr.
  - unfold wp. vm_run. apply jump_post; [done|done|cbn; lia|auto].
  - unfold wp. vm_run. by apply jump_error.
Qed.

Lemma opJumpi_ok : simple_ok e opJumpi None false (jsh 2).
Proof.
  vm_start. unfold opJumpi. vm_to_state. destruct (negb (Sign z0 =? 0)).
  - apply wp_jumpdest_has. intros [] d Hr.
    + unfold wp. vm_run. apply jump_post; [done|done|cbn; lia|auto].
    + unfold wp. vm_run. by apply jump_error.
  - unfold wp. vm_run. split; cbn; try done; [lia| |].
    + intros _ _. pose proof (co_code _ Hc). rewrite uint64_id by (unfold is_uint64; lia).
      specialize (Hpc eq_refl). lia.
    + apply yvm_rel_refl. frame_state.
Qed.

(** ** Families *)

Lemma makeDup_ok n : (0 < n)%nat → simple_ok e (makeDup n) None false (sh n (n + 1)).
Proof.
  intros Hn. vm_start. unfold wp, makeDup, dup. vm_run.
  destruct (lookup_lt_is_Some_2 st (n - 1)) as [x Ex]; [lia|]. rewrite Ex.
  pose proof (Forall_lookup_1 _ _ _ _ Hw Ex) as Hx. simpl in Hx. simple_done.
Qed.

Lemma makeSwap_ok n : simple_ok e (makeSwap n) None false (sh (n + 1) (n + 1)).
Proof.
  vm_start. unfold wp, makeSwap, swap. vm_run. replace (n + 1 - 1)%nat with n by lia.
  destruct (lookup_lt_is_Some_2 st n) as [x Ex]; [lia|].
  destruct (lookup_lt_is_Some_2 st 0) as [x0 Ex0]; [lia|]. rewrite Ex, Ex0.
  pose proof (Forall_lookup_1 _ _ _ _ Hw Ex) as Hx. pose proof (Forall_lookup_1 _ _ _ _ Hw Ex0) as Hx0.
  apply simple_intro; cbn [stack length npop npush sh_jumps sh_ends pc contract memory yvm]; try done.
  - by do 2 (apply Forall_insert; [|done]).
  - rewrite !length_insert. lia.
  - apply yvm_rel_refl. frame_state.
Qed.

Lemma pop_topics_run n p st m c (y : YVM DB) :
  (n <= length st)%nat →
  ∃ ts, pop_topics n {| pc := p; stack := st; memory := m; contract := c; yvm := y |} =
        Done ts {| pc := p; stack := drop n st; memory := m; contract := c; yvm := y |}.
Proof.
  revert st. induction n as [|n IH]; intros st Hl.
  - exists []. by rewrite drop_0.
  - destruct st as [|x st]; [cbn in Hl; lia|].
    destruct (IH st) as (ts & E); [cbn in Hl; lia|]. exists (BigToHash x :: ts).
    cbn [pop_topics]. unfold mbind, M_bind, pop. cbn [stack with_stack]. unfold with_stack. cbn [pc stack memory contract yvm]. by rewrite E.
Qed.

Lemma pop_topics_ok {A} F n p st m c y (k : list Hash → M (Frame DB) A) Q :
  (n <= length st)%nat →
  (∀ ts, wp F (k ts) Q {| pc := p; stack := drop n st; memory := m; contract := c; yvm := y |}) →
  wp F (pop_topics n ≫= k) Q {| pc := p; stack := st; memory := m; contract := c; yvm := y |}.
Proof.
  intros Hl Hk. destruct (pop_topics_run n p st m c y Hl) as (ts & E).
  apply wp_bind. unfold wp at 1. rewrite E. apply Hk.
Qed.

Lemma makeLog_ok n : simple_ok e (makeLog n) (Some memoryLog) true (sh (n + 2) 0).
Proof.
  vm_start. assert (∃ z z0 st', st = z :: z0 :: st') as (z & z0 & st' & ->).
  { destruct st as [|z [|z0 st']]; cbn in Hl; [lia|lia|eauto]. }
  repeat match goal with H : Forall _ (_ :: _) |- _ => apply Forall_cons_1 in H as [? ?] end.
  mem_fact. unfold makeLog. vm_to_state. apply pop_topics_ok; [cbn in Hl; lia|]. intros ts.
  read_window m z z0. vm_to_state. state_write AddLog_law. unfold wp. vm_run.
  apply simple_intro; cbn [stack length npop npush sh_jumps sh_ends pc contract memory yvm]; try done.
  - by apply Forall_drop.
  - rewrite length_drop. cbn in Hl. lia.
  - apply yvm_rel_write; try done. by apply same_balances_gains.
Qed.

Lemma makePush_ok n : 0 < n <= 32 → simple_ok e (makePush n n) None false (sh 0 1).
Proof.
  intros Hn. vm_start. pose proof (co_code _ Hc) as Hcode. specialize (Hpc eq_refl).
  unfold makePush. vm_to_state.
  assert (int64 (uint64 (p + 1)) = p + 1) as ->.
  { rewrite uint64_id by (unfold is_uint64; lia). unfold int64. rewrite Z.mod_small by lia. lia. }
  set (s := if p + 1 <? zlen (Code c) then p + 1 else zlen (Code c)).
  assert (0 <= s <= zlen (Code c)) as Hs by (unfold s; zcases; lia).
  set (t := if s + n <? zlen (Code c) then s + n else zlen (Code c)).
  assert (s <= t) as Ht by (unfold t; zcases; lia).
  replace ((0 <=? s) && (s <=? t)) with true
    by (symmetry; apply andb_true_intro; split; apply Z.leb_le; lia).
  unfold wp. vm_run. rewrite uint64_id by (unfold is_uint64; lia).
  split; cbn; try done; [vm_words|intros _ _; lia|apply yvm_rel_refl; frame_state].
Qed.

End Exec.
