(* ===== verification/VmCallExec.v ===== *)
(** * Instructions that call: CREATE, CREATE2, CALL, CALLCODE, DELEGATECALL, STATICCALL

    They keep the frame invariant when the calls they make behave ([ops_ok])
    and the gas function has reserved the gas of the call. *)
From S2P Require Import Prelude BigMath Params OpCodes VmAnalysis VmMemory VmTypes VmLaws.
From S2P Require Import VmSpec VmGas VmInstructions VmExec.

(** The gas set aside for a call, with the stipend of a call that transfers
    value, is below what the frame had before it was charged. *)
Definition ready_value {DB} (f : Frame DB) (B : Z) : Prop :=
  0 <= callGasTemp (yvm f) ∧
  ∀ v, stack f !! 2%nat = Some v →
       callGasTemp (yvm f) + (if Sign v =? 0 then 0 else CallStipend) + Gas (contract f) < B.

Definition ready_plain {DB} (f : Frame DB) (B : Z) : Prop :=
  0 <= callGasTemp (yvm f) ∧ callGasTemp (yvm f) + Gas (contract f) < B.

Lemma BigToAddress_nonneg x : 0 <= BigToAddress x.
Proof. unfold BigToAddress. rewrite BytesToAddress_mod. apply Z.mod_pos_bound. lia. Qed.

#[export] Hint Resolve BigToAddress_nonneg : words.

Lemma contract_ref_ok c : contract_ok c → ref_ok (contract_ref c).
Proof. intros []. by repeat split. Qed.

Section CallExec.
Context `{StateLaws DB} `{!Crypto}.
Variable e : Env DB.
Hypothesis He : env_ok e.

Lemma wp_on_yvm {A B} F (m : M (YVM DB) A) (k : A → M (Frame DB) B) Q p st mm c y :
  wp F m (λ a y', wp F (k a) Q {| pc := p; stack := st; memory := mm; contract := c; yvm := y' |}) y →
  wp F (on_yvm m ≫= k) Q {| pc := p; stack := st; memory := mm; contract := c; yvm := y |}.
Proof. intros Hm. apply wp_bind. by apply wp_zoom. Qed.

Notation csh n := {| npop := n; npush := 1; sh_jumps := false; sh_ends := false |}.

(** A frame with one word pushed and the gas handed back. *)
Lemma call_frame_post n B p st0 st m m' c y y' g gas w ret :
  frame_ok {| pc := p; stack := st0; memory := m; contract := c; yvm := y |} →
  words_ok st → (length st + n = length st0)%nat → 0 <= w →
  p < zlen (Code c) → Len m' = Len m → lastGasCost m' = lastGasCost m →
  B <= max_gas → 0 <= g <= gas → Gas c + gas < B → yvm_rel e y y' →
  exec_post e (csh n) B {| pc := p; stack := st0; memory := m; contract := c; yvm := y |} (ret, None)
    {| pc := p; stack := w :: st; memory := m'; contract := with_Gas (uint64 (Gas c + g)) c; yvm := y' |}.
Proof.
  intros Hf Hw Hl Hw0 Hp Hm Hm' HB Hg Hgas Hy. pose proof (fo_contract _ Hf) as Hc.
  pose proof (co_gas _ Hc) as Hcg. pose proof (fo_pc _ Hf) as Hpc. cbn in *.
  unfold max_gas in *. rewrite uint64_id by (unfold is_uint64; lia).
  split; cbn; try done; [intros _; lia|by constructor|lia|intros _ _; lia].
Qed.

(** The common end of the call instructions. *)
Lemma call_return_ok n B p st0 st m c y y' r gas retOffset retSize :
  frame_ok {| pc := p; stack := st0; memory := m; contract := c; yvm := y |} →
  words_ok st → (length st + n = length st0)%nat →
  p < zlen (Code c) → B <= max_gas → Gas c + gas < B →
  0 <= retOffset → 0 <= retSize → calcMemSize retOffset retSize <= Len m →
  call_post e y gas r y' →
  wp stale (call_return r retOffset retSize)
    (exec_post e (csh n) B {| pc := p; stack := st0; memory := m; contract := c; yvm := y |})
    {| pc := p; stack := st; memory := m; contract := c; yvm := y' |}.
Proof.
  intros Hf Hw Hl Hp HB Hgas Ho Hs Hm [Hg Hy]. destruct r as [[ret g] err]. cbn in Hg.
  pose proof (fo_mem _ Hf) as Hmo. cbn in Hmo.
  destruct (set_window m retOffset retSize ret) as (m' & E & Hl' & Hf'); [done..|].
  unfold call_return. cbv zeta.
  assert (∀ w m'', 0 <= w → Len m'' = Len m → lastGasCost m'' = lastGasCost m →
    wp stale (_ ← add_gas g; mret (ret, None))
      (exec_post e (csh n) B {| pc := p; stack := st0; memory := m; contract := c; yvm := y |})
      {| pc := p; stack := w :: st; memory := m''; contract := c; yvm := y' |}) as Hend.
  { intros w m'' Hw0 Hm1 Hm2. unfold wp, add_gas. vm_run. by eapply call_frame_post. }
  destruct (bool_decide (err ≠ None)); apply wp_push;
    (destruct (bool_decide (err = None) || bool_decide (err = Some errExecutionReverted));
     [eapply wp_memory_Set; [exact E|]; vm_run|apply wp_bind, wp_ret]; by apply Hend).
Qed.

(** The same for an instruction that calls: [B] bounds the gas, [Hready] is
    what the gas function left. *)
Ltac vm_start_call :=
  let Hf := fresh "Hf" in let Hl := fresh "Hl" in
  intros o B [p st m c y] Hops HB Hf Hl Hmem Hpc Hready Hst; vm_words_start Hf Hl;
  destruct Hpc as [Hpc HgasB]; [done|].

Lemma BigMax_le x y z : BigMax x y <= z → x <= z ∧ y <= z.
Proof. rewrite BigMax_max. lia. Qed.

Lemma max_memory_input (d : list byte) : zlen d <= max_memory → zlen d < 2 ^ 60.
Proof. unfold max_memory. lia. Qed.

Lemma U256_sign v : 0 <= v → negb (Sign (U256 v) =? 0) = true → (Sign v =? 0) = false.
Proof.
  unfold Sign. intros Hv. destruct (Z.eqb_spec (Z.sgn v) 0) as [E|]; [|done].
  assert (v = 0) as -> by lia. done.
Qed.

(** The gas passed on: the reserved gas and the stipend. *)
Lemma stipend_gas t v g B :
  0 <= t → 0 <= v → 0 <= g → B <= max_gas →
  t + (if Sign v =? 0 then 0 else CallStipend) + g < B →
  let gas := if negb (Sign (U256 v) =? 0) then uint64 (t + CallStipend) else t in
  0 <= gas ∧ g + gas < B.
Proof.
  intros Ht Hv Hg HB Hs gas. unfold max_gas in *.
  destruct (negb (Sign (U256 v) =? 0)) eqn:E; unfold gas.
  - rewrite (U256_sign v Hv E) in Hs. rewrite uint64_id by (unfold is_uint64; lia). lia.
  - destruct (Sign v =? 0); lia.
Qed.

Lemma opCall_ok : exec_ok e CALL opCall (Some memoryCall) false (csh 7) ready_value.
Proof.
  vm_start_call. mem_fact. apply BigMax_le in Hms as [Hret Hin].
  destruct Hready as [Ht Hready]. specialize (Hready _ eq_refl). cbn in Ht, Hready.
  unfold opCall. vm_to_state. read_window m z2 z3. vm_to_state.
  destruct (stipend_gas (callGasTemp y) z1 (Gas c) B) as [Hg0 Hg1];
    [done|done|by apply Gas_nonneg|done|done|].
  set (gas := if negb _ then _ else _) in *.
  apply wp_on_yvm. eapply wp_mono.
  - apply (oo_Call _ _ _ Hops); [by apply contract_ref_ok|apply BigToAddress_nonneg
      |by apply max_memory_input| |apply U256_nonneg|frame_state|].
    + pose proof (Gas_nonneg c Hc). lia.
    + intros Hb Hr. destruct (Hst Hb Hr) as [_ Hz]. specialize (Hz eq_refl).
      cbn in Hz. by injection Hz as ->.
  - intros r y' Hr. eapply call_return_ok; try done; cbn; lia.
Qed.

Lemma opCallCode_ok opc : exec_ok e opc opCallCode (Some memoryCall) false (csh 7) ready_value.
Proof.
  vm_start_call. mem_fact. apply BigMax_le in Hms as [Hret Hin].
  destruct Hready as [Ht Hready]. specialize (Hready _ eq_refl). cbn in Ht, Hready.
  unfold opCallCode. vm_to_state. read_window m z2 z3. vm_to_state.
  destruct (stipend_gas (callGasTemp y) z1 (Gas c) B) as [Hg0 Hg1];
    [done|done|by apply Gas_nonneg|done|done|].
  set (gas := if negb _ then _ else _) in *.
  apply wp_on_yvm. eapply wp_mono.
  - apply (oo_CallCode _ _ _ Hops); [by apply contract_ref_ok|apply BigToAddress_nonneg
      |by apply max_memory_input| |apply U256_nonneg|frame_state].
    pose proof (Gas_nonneg c Hc). lia.
  - intros r y' Hr. eapply call_return_ok; try done; cbn; lia.
Qed.

Lemma opDelegateCall_ok opc :
  exec_ok e opc opDelegateCall (Some memoryDelegateCall) false (csh 6) ready_plain.
Proof.
  vm_start_call. mem_fact. apply BigMax_le in Hms as [Hret Hin].
  destruct Hready as [Ht Hready]. cbn in Ht, Hready.
  unfold opDelegateCall. vm_to_state. read_window m z1 z2. vm_to_state.
  apply wp_on_yvm. eapply wp_mono.
  - apply (oo_DelegateCall _ _ _ Hops); [by apply contract_ref_ok|apply BigToAddress_nonneg
      |by apply max_memory_input| |frame_state].
    pose proof (Gas_nonneg c Hc). lia.
  - intros r y' Hr. eapply call_return_ok; try done; cbn; lia.
Qed.

Lemma opStaticCall_ok opc :
  exec_ok e opc opStaticCall (Some memoryStaticCall) false (csh 6) ready_plain.
Proof.
  vm_start_call. mem_fact. apply BigMax_le in Hms as [Hret Hin].
  destruct Hready as [Ht Hready]. cbn in Ht, Hready.
  unfold opStaticCall. vm_to_state. read_window m z1 z2. vm_to_state.
  apply wp_on_yvm. eapply wp_mono.
  - apply (oo_StaticCall _ _ _ Hops); [by apply contract_ref_ok|apply BigToAddress_nonneg
      |by apply max_memory_input| |frame_state].
    pose proof (Gas_nonneg c Hc). lia.
  - intros r y' Hr. eapply call_return_ok; try done; cbn; lia.
Qed.

(** ** Creations *)

Lemma wp_use_gas {A} F g p st m c y (k : bool → M (Frame DB) A) Q :
  0 <= g <= Gas c → Gas c <= max_gas →
  wp F (k true) Q {| pc := p; stack := st; memory := m; contract := with_Gas (Gas c - g) c; yvm := y |} →
  wp F (use_gas g ≫= k) Q {| pc := p; stack := st; memory := m; contract := c; yvm := y |}.
Proof.
  intros Hg Hm Hk. apply wp_bind. unfold wp at 1, use_gas, UseGas. cbn [contract].
  destruct (Z.ltb_spec (Gas c) g); [lia|]. cbv zeta beta iota.
  unfold max_gas in Hm. rewrite uint64_id by (unfold is_uint64; lia). exact Hk.
Qed.

Notation wsh n := {| npop := n; npush := 1; sh_jumps := false; sh_ends := false |}.

Lemma create_end_post n B p st0 st m c y y' g gas w ret :
  frame_ok {| pc := p; stack := st0; memory := m; contract := c; yvm := y |} →
  words_ok st → (length st + n = length st0)%nat → 0 <= w → p < zlen (Code c) →
  B <= max_gas → Gas c < B → 0 <= g <= gas → gas <= Gas c → yvm_rel e y y' →
  wp stale (_ ← add_gas g; mret (ret, None))
    (exec_post e (wsh n) B {| pc := p; stack := st0; memory := m; contract := c; yvm := y |})
    {| pc := p; stack := w :: st; memory := m; contract := with_Gas (Gas c - gas) c; yvm := y' |}.
Proof.
  intros Hf Hw Hl Hw0 Hp HB HgB Hg Hgas Hy. unfold wp, add_gas. vm_run.
  pose proof (fo_pc _ Hf) as Hpc. cbn in *. unfold max_gas in *.
  rewrite uint64_id by (unfold is_uint64; lia).
  split; cbn; try done; [intros _; lia|by constructor|lia|intros _ _; lia].
Qed.

Lemma gas_63_64 g : 0 <= g <= max_gas → uint64 (g - g / 64) = g - g / 64 ∧ 0 <= g - g / 64 <= g.
Proof.
  intros Hg. unfold max_gas in Hg. pose proof (Z.div_pos g 64 ltac:(lia) ltac:(lia)).
  pose proof (Z.div_le_upper_bound g 64 g ltac:(lia) ltac:(lia)).
  rewrite uint64_id by (unfold is_uint64; lia). lia.
Qed.

Lemma not_read_only (b r : bool) : (b = true → r = true → true = false ∧ True) → b = true → r = false.
Proof. destruct r; [|done]. intros Hst Hb. by destruct (Hst Hb eq_refl). Qed.

Lemma opCreate_ok opc : exec_ok e opc opCreate (Some memoryCreate) true (wsh 3) no_call.
Proof.
  vm_start_call. mem_fact. unfold opCreate. vm_to_state. read_window m z0 z1. vm_to_state.
  pose proof (co_gas _ Hc) as Hcg.
  set (gas := if IsEIP150 (chainConfig e) (BlockNumber (ctx e)) then _ else _).
  assert (0 <= gas <= Gas c) as Hg.
  { unfold gas. destruct (gas_63_64 _ Hcg) as [-> ?]. destruct (IsEIP150 _ _); lia. }
  apply wp_use_gas; [done|lia|]. apply wp_on_yvm. eapply wp_mono.
  - apply (oo_Create _ _ _ Hops); [by apply contract_ref_ok|by apply max_memory_input
      |lia|done|frame_state|]. apply not_read_only. intros Hb Hr. destruct (Hst Hb Hr) as [Hx _]. discriminate Hx.
  - intros [[[res addr] rg] suberr] y' (Hrg & Ha & Hy). cbn in Hrg, Ha. cbv iota beta.
    assert (∀ w, 0 <= w → wp stale
      (_ ← add_gas rg; if bool_decide (suberr = Some errExecutionReverted) then mret (res, None)
                       else done_nil)
      (exec_post e (wsh 3) B {| pc := p; stack := z :: z0 :: z1 :: st; memory := m; contract := c;
                                yvm := y |})
      {| pc := p; stack := w :: st; memory := m; contract := with_Gas (Gas c - gas) c; yvm := y' |})
      as Hend.
    { intros w Hw0. destruct (bool_decide _); (eapply create_end_post; try done; cbn; lia). }
    repeat case_match; apply wp_push, Hend; (done || lia).
Qed.

Lemma opCreate2_ok opc : exec_ok e opc opCreate2 (Some memoryCreate2) true (wsh 4) no_call.
Proof.
  vm_start_call. mem_fact. unfold opCreate2. vm_to_state. read_window m z0 z1. vm_to_state.
  pose proof (co_gas _ Hc) as Hcg. destruct (gas_63_64 _ Hcg) as [-> Hg].
  apply wp_use_gas; [done|lia|]. apply wp_on_yvm. eapply wp_mono.
  - apply (oo_Create2 _ _ _ Hops); [by apply contract_ref_ok|by apply max_memory_input
      |lia|done|frame_state|]. apply not_read_only. intros Hb Hr. destruct (Hst Hb Hr) as [Hx _]. discriminate Hx.
  - intros [[[res addr] rg] suberr] y' (Hrg & Ha & Hy). cbn in Hrg, Ha. cbv iota beta.
    destruct (bool_decide (suberr ≠ None)); apply wp_push;
      (case_match; (eapply create_end_post; try done; cbn; lia)).
Qed.

End CallExec.
