(* ===== verification/VmGasOk.v ===== *)
(** * Gas functions keep the frame invariant and charge every round

    A gas function does not panic, changes nothing but the memory's fee
    counter, the reserved call gas and (outside read-only mode) the refund
    counter, returns a 64-bit cost of at least one unit for every instruction
    that does not end the run, and reserves less for a call than it charges. *)
From S2P Require Import Prelude BigMath Params OpCodes VmAnalysis VmMemory VmTypes VmLaws.
From S2P Require Import VmSpec VmGas VmInstructions VmExec VmCallExec.

(** ** Arithmetic facts *)

Lemma memoryGasCost_facts m n :
  0 <= n → is_uint64 (lastGasCost m) →
  let r := memoryGasCost m n in
  store r.2 = store m ∧ is_uint64 (lastGasCost r.2) ∧ is_uint64 r.1.1 ∧
  (r.1.2 = None → n <= max_memory).
Proof.
  intros Hn Hm r. unfold r, memoryGasCost, max_memory.
  assert (is_uint64 0) by done.
  destruct (Z.eqb_spec n 0) as [->|]; [done|].
  rewrite Z.gtb_ltb. destruct (Z.ltb_spec 0xffffffffe0 n); [done|].
  destruct (uint64 (toWordSize n * 32) >? Len m); cbn [fst snd store lastGasCost];
    repeat split; try apply uint64_range; try done; apply Hm.
Qed.

Lemma SafeAdd_ok x y :
  is_uint64 x → is_uint64 y → (SafeAdd x y).2 = false →
  (SafeAdd x y).1 = x + y ∧ is_uint64 (x + y).
Proof.
  intros Hx Hy. rewrite SafeAdd_spec by done. unfold MaxUint64. destruct (Z.leb_spec (x + y) (2 ^ 64 - 1));
    [|done]. intros _. unfold is_uint64 in *. simpl. lia.
Qed.

Lemma SafeMul_ok x y :
  is_uint64 x → is_uint64 y → (SafeMul x y).2 = false →
  (SafeMul x y).1 = x * y ∧ is_uint64 (x * y).
Proof.
  intros Hx Hy. rewrite SafeMul_spec by done. unfold MaxUint64. destruct (Z.leb_spec (x * y) (2 ^ 64 - 1));
    [|done]. intros _. unfold is_uint64 in *. simpl. nia.
Qed.

Lemma bigUint64_range x : is_uint64 (bigUint64 x).1.
Proof. apply uint64_range. Qed.

Lemma toWordSize_range x : is_uint64 x → is_uint64 (toWordSize x).
Proof.
  intros Hx. pose proof (toWordSize_ceil x) as Hc. unfold is_uint64, MaxUint64 in *. lia.
Qed.

(** Every table charges for every instruction it prices, and little. *)
Lemma table_facts c num :
  let t := getGasTable c num in
  (1 <= gtExtcodeSize t < 2 ^ 32) ∧ (1 <= gtExtcodeCopy t < 2 ^ 32) ∧ (0 <= gtExtcodeHash t < 2 ^ 32) ∧
  (1 <= gtBalance t < 2 ^ 32) ∧ (1 <= gtSLoad t < 2 ^ 32) ∧ (1 <= gtCalls t < 2 ^ 32) ∧
  (0 <= gtSuicide t < 2 ^ 32) ∧ (0 <= gtExpByte t < 2 ^ 32) ∧ (0 <= gtCreateBySuicide t < 2 ^ 32).
Proof. intros t. destruct (getGasTable_cases c num) as [E|[E|[E|E]]]; unfold t; rewrite E; cbn; lia. Qed.

(** The gas a call gets: 64 bits, and with the base cost it overdraws the
    account when the base cost does. *)
Lemma callGas_range gt a b c t err : callGas gt a b c = (t, err) → is_uint64 t.
Proof.
  unfold callGas. repeat case_match; intros; simplify_eq;
    first [apply uint64_range | done].
Qed.

Section GasOk.
Context `{StateLaws DB} `{!Crypto}.
Variable e : Env DB.
Hypothesis He : env_ok e.

(** What gas functions may change. *)
Record gas_rel (f f' : Frame DB) : Prop := {
  gr_stack : stack f' = stack f;
  gr_pc : pc f' = pc f;
  gr_contract : contract f' = contract f;
  gr_store : store (memory f') = store (memory f);
  gr_fee : is_uint64 (lastGasCost (memory f'));
  gr_yvm : yvm_rel e (yvm f) (yvm f')
}.

Lemma gas_rel_refl f : frame_ok f → gas_rel f f.
Proof.
  intros Hf. split; try reflexivity; [apply (mo_fee _ (fo_mem _ Hf))|apply yvm_rel_refl, Hf].
Qed.

Lemma gas_rel_trans f1 f2 f3 : gas_rel f1 f2 → gas_rel f2 f3 → gas_rel f1 f3.
Proof. intros [] []. split; try congruence. by eapply yvm_rel_trans. Qed.

(** A gas function's result: on success a cost of at least [k], and [R] of the
    cost and the frame. *)
Definition cost_post (size k : Z) (R : Z → Frame DB → Prop) (f : Frame DB) (r : Z * option error)
    (f' : Frame DB) : Prop :=
  gas_rel f f' ∧ (r.2 = None → size <= max_memory ∧ is_uint64 r.1 ∧ k <= r.1 ∧ R r.1 f').

Lemma cost_gas_post size k R sh ready f r f' :
  cost_post size k R f r f' →
  (sh_ends sh = true ∨ 1 <= k) →
  (∀ cost m, R cost f' → cost <= Gas (contract f) →
    ready (with_memory m (with_contract (with_Gas (Gas (contract f) - cost) (contract f)) f'))
          (Gas (contract f))) →
  gas_post e sh ready size f r f'.
Proof.
  intros [[] Hr] Hk HR. split; try done.
  - intros Hn. by apply Hr.
  - intros Hn. destruct (Hr Hn) as (_ & Hu & Hc & _). split; [done|]. intros Hend.
    destruct Hk as [Hk|Hk]; [congruence|lia].
  - intros Hn Hle m. destruct (Hr Hn) as (_ & _ & _ & HRc). by apply HR.
Qed.

(** ** Rules *)

Lemma wp_gas_then F m k Q (f : Frame DB) :
  wp F m (λ r f', match r.2 with Some err => Q (0, Some err) f' | None => wp F (k r.1) Q f' end) f →
  wp F (gas_then m k) Q f.
Proof.
  intros Hm. unfold gas_then. apply wp_bind. eapply wp_mono; [exact Hm|].
  intros [g [err|]] f'; cbn; auto.
Qed.

Lemma wp_gas_then_overflow F m k Q (f : Frame DB) :
  wp F m (λ r f', match r.2 with Some _ => Q (0, Some errGasUintOverflow) f' | None => wp F (k r.1) Q f' end) f →
  wp F (gas_then_overflow m k) Q f.
Proof.
  intros Hm. unfold gas_then_overflow. apply wp_bind. eapply wp_mono; [exact Hm|].
  intros [g [err|]] f'; cbn; auto.
Qed.

Lemma wp_no_overflow F r k Q (f : Frame DB) :
  Q (0, Some errGasUintOverflow) f → (r.2 = false → wp F (k r.1) Q f) → wp F (no_overflow r k) Q f.
Proof. intros H1 H2. unfold no_overflow. destruct r as [x []]; cbn in *; auto. Qed.

Lemma wp_memGas size Q (f : Frame DB) :
  0 <= size → frame_ok f →
  (∀ r f', gas_rel f f' → yvm f' = yvm f → is_uint64 r.1 → (r.2 = None → size <= max_memory) → Q r f') →
  wp stale (memGas size) Q f.
Proof.
  intros Hs Hf HQ. unfold memGas. apply wp_zoom. unfold wp.
  pose proof (memoryGasCost_facts (memory f) size Hs (mo_fee _ (fo_mem _ Hf))) as (H1 & H2 & H3 & H4).
  destruct (memoryGasCost (memory f) size) as [r m'] eqn:E. cbn in *.
  apply HQ; try done. split; try done. apply yvm_rel_refl. apply Hf.
Qed.

Lemma wp_Back_in F n x Q (k : Z → M (Frame DB) (Z * option error)) (f : Frame DB) :
  stack f !! n = Some x → wp F (k x) Q f → wp F (Back n ≫= k) Q f.
Proof. intros E Hk. apply wp_bind. unfold wp at 1, Back. by rewrite E. Qed.

Lemma cost_error size k R f f' err : gas_rel f f' → cost_post size k R f (0, Some err) f'.
Proof. intros Hr. by split. Qed.

(** The cost of an instruction that makes no call. *)
Definition costs (gc : gasFunc DB) (ms : option memorySizeFunc) (wr : bool) (n : nat) (k : Z) : Prop :=
  ∀ size f, frame_ok f → (n <= length (stack f))%nat → 0 <= size < 2 ^ 64 → (ms = None → size = 0) →
    (byz e = true → readOnly (yvm f) = true → wr = false) →
    wp stale (gc e size) (cost_post size k (λ _ _, True) f) f.

Lemma costs_gas_ok gc ms wr sh k :
  costs gc ms wr (npop sh) k → (sh_ends sh = true ∨ 1 <= k) → gas_ok e gc ms wr sh no_call.
Proof.
  intros Hc Hk size f Hf Hl Hs Hms Hst. eapply wp_mono; [by apply Hc|].
  intros r f' Hr. by eapply cost_gas_post.
Qed.

(** A cost that does not depend on the frame. *)
Lemma const_costs g gc wr n :
  (∀ size f, gc e size f = Done (g, None) f) → is_uint64 g → costs gc None wr n g.
Proof.
  intros Hg Hu size f Hf _ _ Hms _. unfold wp. rewrite Hg. rewrite (Hms eq_refl).
  split; [by apply gas_rel_refl|]. intros _. done.
Qed.

(** Only the memory is charged, or the memory and a base cost. *)
Lemma mem_costs gc ms wr n :
  (∀ size, gc e size = memGas size) → costs gc ms wr n 0.
Proof.
  intros Hg size f Hf _ Hs _ _. rewrite Hg. apply wp_memGas; [lia|done|].
  intros r f' Hr _ Hu Hm. split; [done|]. intros Hn. split; [by apply Hm|]. split; [done|].
  split; [apply Hu|done].
Qed.

Lemma mem_base_costs gc ms wr n base :
  (∀ size, gc e size = gas_then (memGas size) (λ gas, no_overflow (SafeAdd gas base) (λ gas, mret (gas, None)))
         ∨ gc e size = gas_then_overflow (memGas size) (λ gas, no_overflow (SafeAdd gas base) (λ gas, mret (gas, None)))) →
  is_uint64 base → costs gc ms wr n base.
Proof.
  intros Hg Hb size f Hf _ Hs _ _.
  assert (∀ (r : Z * option error) f', gas_rel f f' → is_uint64 r.1 → (r.2 = None → size <= max_memory) → r.2 = None →
    wp stale (no_overflow (SafeAdd r.1 base) (λ gas, mret (gas, None)))
      (cost_post size base (λ _ _, True) f) f') as Hend.
  { intros r f' Hr Hu Hm Hn. apply wp_no_overflow; [by apply cost_error|]. intros Ho.
    destruct (SafeAdd_ok _ _ Hu Hb Ho) as [-> Hu']. apply wp_ret. split; [done|]. intros _. cbn.
    split; [by apply Hm|]. split; [done|]. split; [destruct Hu; lia|done]. }
  destruct (Hg size) as [-> | ->]; [apply wp_gas_then|apply wp_gas_then_overflow];
    (apply wp_memGas; [lia|done|]; intros r f' Hr _ Hu Hm;
     destruct r.2 eqn:En; [by apply cost_error|apply Hend; auto; by rewrite En]).
Qed.

(** The memory, a base cost and a price per word of operand [i]. *)
Lemma copy_costs gc ms wr n base K i :
  (∀ size, gc e size =
    gas_then (memGas size) (λ gas, no_overflow (SafeAdd gas base) (λ gas,
    w ← Back i; no_overflow (bigUint64 w) (λ words, no_overflow (SafeMul (toWordSize words) K) (λ words,
    no_overflow (SafeAdd gas words) (λ gas, mret (gas, None))))))) →
  is_uint64 base → is_uint64 K → (i < n)%nat → costs gc ms wr n base.
Proof.
  intros Hg Hb HK Hi size f Hf Hl Hs _ _. rewrite Hg. apply wp_gas_then.
  apply wp_memGas; [lia|done|]. intros r f' Hr _ Hu Hm.
  destruct r.2 eqn:En; [by apply cost_error|].
  apply wp_no_overflow; [by apply cost_error|]. intros Ho.
  destruct (SafeAdd_ok _ _ Hu Hb Ho) as [-> Hu1].
  destruct (lookup_lt_is_Some_2 (stack f') i) as [x Ex]; [rewrite (gr_stack _ _ Hr); lia|].
  eapply wp_Back_in; [exact Ex|].
  apply wp_no_overflow; [by apply cost_error|]. intros _.
  apply wp_no_overflow; [by apply cost_error|]. intros Ho2.
  destruct (SafeMul_ok _ _ (toWordSize_range _ (bigUint64_range x)) HK Ho2) as [-> Hu2].
  apply wp_no_overflow; [by apply cost_error|]. intros Ho3.
  destruct (SafeAdd_ok _ _ Hu1 Hu2 Ho3) as [-> Hu3]. apply wp_ret.
  split; [done|]. intros _. cbn [fst snd]. split; [by apply Hm|]. split; [done|].
  split; [destruct Hu, Hu2; lia|done].
Qed.

Lemma makeGasLog_costs k ms wr n : 0 <= k <= 4 → (1 < n)%nat → costs (makeGasLog k) ms wr n 1.
Proof.
  intros Hk Hn size f Hf Hl Hs _ _. unfold makeGasLog.
  destruct (lookup_lt_is_Some_2 (stack f) 1) as [x Ex]; [lia|].
  eapply wp_Back_in; [exact Ex|].
  apply wp_no_overflow; [apply cost_error; by apply gas_rel_refl|]. intros _.
  apply wp_gas_then. apply wp_memGas; [lia|done|]. intros r f' Hr _ Hu Hm.
  destruct r.2 eqn:En; [by apply cost_error|].
  apply wp_no_overflow; [by apply cost_error|]. intros Ho.
  destruct (SafeAdd_ok _ LogGas Hu ltac:(done) Ho) as [-> Hu1].
  apply wp_no_overflow; [by apply cost_error|]. intros Ho2.
  destruct (SafeAdd_ok _ _ Hu1 (uint64_range _) Ho2) as [-> Hu2].
  apply wp_no_overflow; [by apply cost_error|]. intros Ho3.
  destruct (SafeMul_ok _ LogDataGas (bigUint64_range x) ltac:(done) Ho3) as [-> Hu3].
  apply wp_no_overflow; [by apply cost_error|]. intros Ho4.
  destruct (SafeAdd_ok _ _ Hu2 Hu3 Ho4) as [-> Hu4]. apply wp_ret.
  split; [done|]. intros _. cbn [fst snd]. split; [by apply Hm|]. split; [done|]. split; [|done].
  pose proof (uint64_range (k * LogTopicGas)) as [? _]. destruct Hu, Hu3. lia.
Qed.

Lemma gasExp_costs wr n : (1 < n)%nat → costs gasExp None wr n 1.
Proof.
  intros Hn size f Hf Hl Hs Hms _. rewrite (Hms eq_refl). unfold gasExp.
  destruct (lookup_lt_is_Some_2 (stack f) 1) as [x Ex]; [lia|].
  eapply wp_Back_in; [exact Ex|]. apply wp_no_overflow; [apply cost_error; by apply gas_rel_refl|].
  intros Ho. destruct (SafeAdd_ok _ GasSlowStep (uint64_range _) ltac:(done) Ho) as [-> Hu].
  apply wp_ret. split; [by apply gas_rel_refl|]. intros _. cbn [fst snd]. split; [done|]. split; [done|].
  split; [|done]. pose proof (uint64_range ((BitLen x + 7) / 8 * gtExpByte (gasTable e))) as [? _].
  lia.
Qed.

(** ** Gas functions that use the state *)

Lemma gas_rel_ok f f' : frame_ok f → gas_rel f f' → frame_ok f'.
Proof.
  intros [] []. split; rewrite ?gr_stack0, ?gr_pc0, ?gr_contract0; try done.
  - destruct fo_mem. split; [| |done]; unfold Len in *; by rewrite gr_store0.
  - apply gr_yvm0.
Qed.

Lemma gas_rel_read f s' :
  frame_ok f → SInv s' → sext (statedb (yvm f)) s' → view_eq (sview (statedb (yvm f))) (sview s') →
  gas_rel f (with_yvm (with_statedb s' (yvm f)) f).
Proof.
  intros Hf Hi Hx Hv. split; try done; [apply (fo_mem _ Hf)|by apply yvm_rel_read].
Qed.

Lemma gas_rel_write f s' :
  frame_ok f → SInv s' → sext (statedb (yvm f)) s' →
  same_balances (sview (statedb (yvm f))) (sview s') →
  (byz e = true → readOnly (yvm f) = true → true = false) →
  gas_rel f (with_yvm (with_statedb s' (yvm f)) f).
Proof.
  intros Hf Hi Hx Hb Hv. split; try done; [apply (fo_mem _ Hf)|].
  apply yvm_rel_write; try done. by apply same_balances_gains.
Qed.

Lemma wp_gets_in {A B} F (g : Frame DB → A) (k : A → M (Frame DB) B) Q f :
  wp F (k (g f)) Q f → wp F (gets g ≫= k) Q f.
Proof. done. Qed.

Lemma gasSStore_costs n : (1 < n)%nat → costs gasSStore None true n 1.
Proof.
  intros Hn size f Hf Hl Hs Hms Hst. rewrite (Hms eq_refl). unfold gasSStore.
  destruct (lookup_lt_is_Some_2 (stack f) 1) as [y Ey]; [lia|].
  destruct (lookup_lt_is_Some_2 (stack f) 0) as [x Ex]; [lia|].
  eapply wp_Back_in; [exact Ey|]. eapply wp_Back_in; [exact Ex|]. apply wp_gets_in.
  eapply wp_on_state_reads; [apply GetState_law, Hf|]. intros v s' Hi Hx Hv _.
  pose proof (gas_rel_read f s' Hf Hi Hx Hv) as Hr.
  set (f1 := with_yvm (with_statedb s' (yvm f)) f) in *.
  destruct ((v =? 0) && negb (Sign y =? 0)); [by split|].
  destruct (negb (v =? 0) && (Sign y =? 0)); [|by split].
  eapply wp_on_state_updates; [apply AddRefund_law; [exact Hi|done]|]. intros u s2 Hi2 Hx2 Hb2.
  split; [|done]. eapply gas_rel_trans; [exact Hr|]. apply gas_rel_write; try done.
  by eapply gas_rel_ok.
Qed.

Lemma gasSuicide_costs n : (0 < n)%nat → costs gasSuicide None true n 0.
Proof.
  intros Hn size f Hf Hl Hs Hms Hst. rewrite (Hms eq_refl). unfold gasSuicide. apply wp_gets_in.
  pose proof (table_facts (chainConfig e) (BlockNumber (ctx e))) as Ht.
  rewrite <-(eo_table _ He) in Ht. cbv zeta in Ht. destr_ands.
  apply wp_bind. eapply wp_mono with (Q := λ g f', gas_rel f f' ∧ is_uint64 g).
  - destruct (IsEIP150 _ _); [|split; [by apply gas_rel_refl|done]].
    destruct (lookup_lt_is_Some_2 (stack f) 0) as [x Ex]; [lia|].
    apply wp_bind. unfold wp at 1, Back. rewrite Ex.
    destruct (IsEIP158 _ _).
    + eapply wp_on_state_reads; [apply Empty_law, Hf|]. intros v s' Hi Hx Hv _.
      pose proof (gas_rel_read f s' Hf Hi Hx Hv) as Hr.
      destruct v; [|split; [done|unfold is_uint64; lia]].
      eapply wp_on_state_reads; [apply GetBalance_law, Hi|]. intros b s2 Hi2 Hx2 Hv2 _.
      split; [|case_match; [apply uint64_range|unfold is_uint64; lia]].
      eapply gas_rel_trans; [exact Hr|]. apply gas_rel_read; try done. by eapply gas_rel_ok.
    + eapply wp_on_state_reads; [apply Exist_law, Hf|]. intros v s' Hi Hx Hv _.
      split; [by apply gas_rel_read|]. case_match; [unfold is_uint64; lia|apply uint64_range].
  - intros g f1 [Hr Hg]. pose proof (gas_rel_ok _ _ Hf Hr) as Hf1.
    eapply wp_on_state_reads; [apply HasSuicided_law, Hf1|]. intros v s' Hi Hx Hv _.
    pose proof (gas_rel_trans _ _ _ Hr (gas_rel_read f1 s' Hf1 Hi Hx Hv)) as Hr2.
    set (f2 := with_yvm (with_statedb s' (yvm f1)) f1) in *.
    destruct v.
    + split; [done|]. intros _. cbn. split; [done|]. split; [done|]. split; [apply Hg|done].
    + eapply wp_on_state_updates; [apply AddRefund_law; [exact Hi|done]|]. intros u s3 Hi3 Hx3 Hb3.
      split; [|intros _; cbn; split; [done|]; split; [done|]; split; [apply Hg|done]].
      eapply gas_rel_trans; [exact Hr2|]. apply gas_rel_write; try done.
      * exact (gas_rel_ok _ _ Hf Hr2).
      * intros Hb Hro. apply Hst; [done|]. by rewrite (yr_readOnly _ _ _ (gr_yvm _ _ Hr2)) in Hro.
Qed.

(** ** Calls *)

(** What is reserved for the call, and [gas] on top, is charged. *)
Definition reserved (gas cost : Z) (f' : Frame DB) : Prop :=
  0 <= callGasTemp (yvm f') ∧ callGasTemp (yvm f') + gas <= cost.

Lemma call_gas_tail size gas f f1 :
  frame_ok f → (0 < length (stack f))%nat → gas_rel f f1 → size <= max_memory →
  is_uint64 gas → 1 <= gas →
  wp stale (c ← gets contract; cost ← Back 0;
    let '(temp, err) := callGas (gasTable e) (Gas c) gas cost in
    _ ← on_yvm (modify (with_callGasTemp temp));
    match err with
    | Some err => mret (0, Some err)
    | None => no_overflow (SafeAdd gas temp) (λ gas, mret (gas, None))
    end) (cost_post size 1 (reserved gas) f) f1.
Proof.
  intros Hf Hl Hr Hs Hg H1. apply wp_gets_in.
  destruct (lookup_lt_is_Some_2 (stack f1) 0) as [x Ex]; [rewrite (gr_stack _ _ Hr); lia|].
  eapply wp_Back_in; [exact Ex|].
  destruct (callGas (gasTable e) (Gas (contract f1)) gas x) as [temp err] eqn:Ec.
  pose proof (callGas_range _ _ _ _ _ _ Ec) as Ht.
  apply wp_bind. apply wp_zoom. unfold wp at 1, modify.
  set (f2 := with_yvm (with_callGasTemp temp (yvm f1)) f1).
  assert (gas_rel f f2) as Hr2.
  { destruct Hr. split; try done. eapply yvm_rel_fields; [exact gr_yvm0|done..]. }
  destruct err as [err|]; [by apply cost_error|].
  apply wp_no_overflow; [by apply cost_error|]. intros Ho.
  destruct (SafeAdd_ok _ _ Hg Ht Ho) as [-> Hu]. apply wp_ret. split; [done|]. intros _.
  cbn [fst snd]. split; [done|]. split; [done|]. destruct Ht. split; [lia|].
  unfold reserved, f2. cbn. lia.
Qed.

Lemma reserved_value size gas v f r f' sh :
  cost_post size 1 (reserved gas) f r f' → stack f !! 2%nat = Some v →
  1 + (if Sign v =? 0 then 0 else CallStipend) <= gas → gas_post e sh ready_value size f r f'.
Proof.
  intros Hc Hv Hg. eapply cost_gas_post; [exact Hc|by right|]. intros cost m [H1 H2] Hle.
  split; [done|]. cbn. rewrite (gr_stack _ _ (proj1 Hc)). intros v' E. simplify_eq. lia.
Qed.

Lemma reserved_plain size gas f r f' sh :
  cost_post size 1 (reserved gas) f r f' → 1 <= gas → gas_post e sh ready_plain size f r f'.
Proof.
  intros Hc Hg. eapply cost_gas_post; [exact Hc|by right|]. intros cost m [H1 H2] Hle.
  split; [done|]. cbn. lia.
Qed.

(** CALL and CALLCODE from the point where the base cost is known. *)
Lemma value_call_gas size gas v f f1 sh :
  frame_ok f → (0 < length (stack f))%nat → stack f !! 2%nat = Some v → gas_rel f f1 → 0 <= size →
  is_uint64 gas → 1 + (if Sign v =? 0 then 0 else CallStipend) <= gas →
  wp stale (gas_then (memGas size) (λ memoryGas,
    no_overflow (SafeAdd gas memoryGas) (λ gas,
    c ← gets contract; cost ← Back 0;
    let '(temp, err) := callGas (gasTable e) (Gas c) gas cost in
    _ ← on_yvm (modify (with_callGasTemp temp));
    match err with
    | Some err => mret (0, Some err)
    | None => no_overflow (SafeAdd gas temp) (λ gas, mret (gas, None))
    end))) (gas_post e sh ready_value size f) f1.
Proof.
  intros Hf Hl Hv Hr Hs Hg H1. apply wp_gas_then. apply wp_memGas; [done|by eapply gas_rel_ok|].
  intros r f2 Hr2 _ Hu Hm. pose proof (gas_rel_trans _ _ _ Hr Hr2) as Hr3.
  assert (∀ err, gas_post e sh ready_value size f (0, Some err) f2) as Herr.
  { intros err. eapply reserved_value; [by apply cost_error|exact Hv|exact H1]. }
  destruct r.2 eqn:En; [apply Herr|]. apply wp_no_overflow; [apply Herr|]. intros Ho.
  destruct (SafeAdd_ok _ _ Hg Hu Ho) as [-> Hu2]. destruct Hu.
  eapply wp_mono; [apply (call_gas_tail size); try done; [by apply Hm|destruct (Sign v =? 0); lia]|].
  intros r' f' Hc. eapply reserved_value; [exact Hc|exact Hv|lia].
Qed.

(** DELEGATECALL and STATICCALL. *)
Lemma plain_call_gas size f sh :
  frame_ok f → (0 < length (stack f))%nat → 0 <= size →
  wp stale (gas_then (memGas size) (λ gas,
    no_overflow (SafeAdd gas (gtCalls (gasTable e))) (λ gas,
    c ← gets contract; cost ← Back 0;
    let '(temp, err) := callGas (gasTable e) (Gas c) gas cost in
    _ ← on_yvm (modify (with_callGasTemp temp));
    match err with
    | Some err => mret (0, Some err)
    | None => no_overflow (SafeAdd gas temp) (λ gas, mret (gas, None))
    end))) (gas_post e sh ready_plain size f) f.
Proof.
  intros Hf Hl Hs. apply wp_gas_then. apply wp_memGas; [done|done|].
  intros r f2 Hr _ Hu Hm.
  assert (∀ err, gas_post e sh ready_plain size f (0, Some err) f2) as Herr.
  { intros err. eapply (reserved_plain size 1); [by apply cost_error|done]. }
  destruct r.2 eqn:En; [apply Herr|]. apply wp_no_overflow; [apply Herr|]. intros Ho.
  pose proof (table_facts (chainConfig e) (BlockNumber (ctx e))) as Ht.
  rewrite <-(eo_table _ He) in Ht. cbv zeta in Ht. destr_ands.
  destruct (SafeAdd_ok _ (gtCalls (gasTable e)) Hu ltac:(unfold is_uint64; lia) Ho) as [-> Hu2]. destruct Hu.
  eapply wp_mono; [apply (call_gas_tail size); try done; [by apply Hm|lia]|].
  intros r' f' Hc. eapply reserved_plain; [exact Hc|lia].
Qed.

Lemma gasCallCode_ok ms wr sh : (3 <= npop sh)%nat → gas_ok e gasCallCode ms wr sh ready_value.
Proof.
  intros Hn size f Hf Hl Hs _ _. unfold gasCallCode.
  destruct (lookup_lt_is_Some_2 (stack f) 2) as [v Ev]; [lia|].
  eapply wp_Back_in; [exact Ev|]. cbv zeta.
  pose proof (table_facts (chainConfig e) (BlockNumber (ctx e))) as Ht.
  rewrite <-(eo_table _ He) in Ht. cbv zeta in Ht. destr_ands.
  eapply value_call_gas; [done|lia|exact Ev|by apply gas_rel_refl|lia|..];
    destruct (Sign v =? 0); cbn [negb]; unfold is_uint64; try lia;
    rewrite uint64_id; unfold is_uint64; lia.
Qed.

Lemma gasCall_ok ms wr sh : (3 <= npop sh)%nat → gas_ok e gasCall ms wr sh ready_value.
Proof.
  intros Hn size f Hf Hl Hs _ _. unfold gasCall.
  destruct (lookup_lt_is_Some_2 (stack f) 2) as [v Ev]; [lia|].
  destruct (lookup_lt_is_Some_2 (stack f) 1) as [a Ea]; [lia|].
  eapply wp_Back_in; [exact Ev|]. eapply wp_Back_in; [exact Ea|]. cbv zeta.
  pose proof (table_facts (chainConfig e) (BlockNumber (ctx e))) as Ht.
  rewrite <-(eo_table _ He) in Ht. cbv zeta in Ht. destr_ands.
  apply wp_bind. eapply wp_mono with (Q := λ g f', gas_rel f f' ∧ 1 <= g < 2 ^ 33).
  - destruct (IsEIP158 _ _).
    + destruct (negb _); [|split; [by apply gas_rel_refl|lia]].
      eapply wp_on_state_reads; [apply Empty_law, Hf|]. intros b s' Hi Hx Hv _.
      split; [by apply gas_rel_read|]. destruct b; [|lia]. rewrite uint64_id; unfold is_uint64; lia.
    + eapply wp_on_state_reads; [apply Exist_law, Hf|]. intros b s' Hi Hx Hv _.
      split; [by apply gas_rel_read|]. destruct b; [lia|]. rewrite uint64_id; unfold is_uint64; lia.
  - intros g f1 [Hr Hg].
    eapply value_call_gas; [done|lia|exact Ev|exact Hr|lia|..];
      destruct (Sign v =? 0); cbn [negb]; unfold is_uint64; try lia;
      rewrite uint64_id; unfold is_uint64; lia.
Qed.

Lemma gasDelegateCall_ok ms wr sh : (1 <= npop sh)%nat → gas_ok e gasDelegateCall ms wr sh ready_plain.
Proof. intros Hn size f Hf Hl Hs _ _. apply plain_call_gas; [done|lia..]. Qed.

Lemma gasStaticCall_ok ms wr sh : (1 <= npop sh)%nat → gas_ok e gasStaticCall ms wr sh ready_plain.
Proof. intros Hn size f Hf Hl Hs _ _. apply plain_call_gas; [done|lia..]. Qed.

End GasOk.
