(* ===== verification/VmTables.v ===== *)
(** * Every entry of every jump table keeps the frame invariant

    The instruction and gas lemmas are collected in two hint databases; each
    table is then checked entry by entry: the instruction's stack effect is the
    one the stack validation assumes, the memory size function is defined on
    every stack that passes it, and the flags are the instruction's. *)
From S2P Require Import Prelude BigMath Params OpCodes VmAnalysis VmMemory VmTypes VmLaws.
From S2P Require Import VmSpec VmGas VmInstructions VmJumpTable VmInterp VmExec VmCallExec.
From S2P Require Import VmGasOk.

Create HintDb vm_exec discriminated.
#[export] Hint Constants Opaque : vm_exec.
Create HintDb vm_gas.

#[export] Hint Resolve opAdd_ok opSub_ok opMul_ok opDiv_ok opSdiv_ok opMod_ok opSmod_ok opExp_ok
  opSignExtend_ok opNot_ok opLt_ok opGt_ok opSlt_ok opSgt_ok opEq_ok opIszero_ok opAnd_ok opOr_ok
  opXor_ok opByte_ok opAddmod_ok opMulmod_ok opSHL_ok opSHR_ok opSAR_ok opAddress_ok opOrigin_ok
  opCaller_ok opCallDataLoad_ok opCallDataSize_ok opReturnDataSize_ok opCodeSize_ok opGasprice_ok
  opBlockhash_ok opCoinbase_ok opTimestamp_ok opNumber_ok opDifficulty_ok opGasLimit_ok opPop_ok
  opPc_ok opMsize_ok opGas_ok opJumpdest_ok opBalance_ok opExtCodeSize_ok opExtCodeHash_ok
  opSload_ok opCallValue_ok opMload_ok opSha3_ok opCallDataCopy_ok opCodeCopy_ok opExtCodeCopy_ok
  opMstore_ok opMstore8_ok opReturnDataCopy_ok opReturn_ok opRevert_ok opStop_ok opSstore_ok
  opSuicide_ok opJump_ok opJumpi_ok makeSwap_ok makeLog_ok : vm_exec.

#[export] Hint Extern 1 (simple_ok _ (makeDup _) _ _ _) => apply makeDup_ok; lia : vm_exec.
#[export] Hint Extern 1 (simple_ok _ (makePush _ _) _ _ _) => apply makePush_ok; lia : vm_exec.

(** ** Memory sizes *)

Lemma BigMax_nonneg x y : 0 <= x → 0 <= y → 0 <= BigMax x y.
Proof. unfold BigMax. case_match; lia. Qed.

(** The memory size function is defined on every stack of [n] words. *)
Definition memory_total (ms : option memorySizeFunc) (n : nat) : Prop :=
  ∀ g st, ms = Some g → (n <= length st)%nat → words_ok st → ∃ m, g st = Some m ∧ 0 <= m.

Ltac memory_size :=
  let g := fresh in let st := fresh "st" in let E := fresh in let Hl := fresh in let Hw := fresh in
  intros g st E Hl Hw;
  first
  [ discriminate E
  | injection E as <-; simpl in Hl;
    repeat lazymatch type of Hl with
    | (S _ <= length ?st)%nat =>
        let x := fresh "x" in destruct st as [|x ?]; simpl in Hl; [lia|apply le_S_n in Hl];
        apply Forall_cons_1 in Hw as [? Hw]
    end;
    eexists; split; [reflexivity|];
    repeat first [apply BigMax_nonneg | apply calcMemSize_nonneg]; auto; lia ].

Section Tables.
Context `{StateLaws DB} `{!Crypto}.
Variable e : Env DB.
Hypothesis He : env_ok e.

Lemma simple_entry opcode (op : operation DB) sh k :
  simple_ok e (execute op) (memorySize op) (writes op) sh →
  costs e (gasCost op) (memorySize op) (writes op) (npop sh) k →
  (sh_ends sh = true ∨ 1 <= k) →
  valid op = true → validateStack op = makeStackFunc (Z.of_nat (npop sh)) (Z.of_nat (npush sh)) →
  memory_total (memorySize op) (npop sh) →
  sh_ends sh = halts op || reverts op → sh_jumps sh = jumps op →
  (opcode = STOP → halts op = true) → (opcode = CALL → (3 <= npop sh)%nat) →
  entry_ok e opcode op.
Proof.
  intros He1 Hc Hk. intros. exists sh, no_call. repeat split; try done.
  - by eapply costs_gas_ok.
  - by apply simple_exec.
Qed.

Lemma constGasFunc_costs g wr n : is_uint64 g → costs e (constGasFunc g) None wr n g.
Proof. by apply const_costs. Qed.

Lemma gasPush_costs wr n : costs e gasPush None wr n GasFastestStep.
Proof. by apply const_costs. Qed.
Lemma gasSwap_costs wr n : costs e gasSwap None wr n GasFastestStep.
Proof. by apply const_costs. Qed.
Lemma gasDup_costs wr n : costs e gasDup None wr n GasFastestStep.
Proof. by apply const_costs. Qed.

Lemma costs_weaken gc ms wr n k k' : k' <= k → costs e gc ms wr n k → costs e gc ms wr n k'.
Proof.
  intros Hk Hc size f Hf Hl Hs Hms Hst. eapply wp_mono; [by apply Hc|].
  intros r f' [Hrel Hr]. split; [done|]. intros Hn. destruct (Hr Hn) as (? & ? & ? & ?).
  split; [done|]. split; [done|]. split; [lia|done].
Qed.

(** Prices of the gas table: at least one unit. *)
Lemma table_costs g gc wr n :
  (∀ size f, gc e size f = Done (g (gasTable e), None) f) → 1 <= g (gasTable e) < 2 ^ 32 →
  costs e gc None wr n 1.
Proof.
  intros Hg Hr. apply (costs_weaken _ _ _ _ (g (gasTable e))); [lia|].
  apply const_costs; [done|]. unfold is_uint64. lia.
Qed.

Lemma gasBalance_costs wr n : costs e gasBalance None wr n 1.
Proof. apply (table_costs gtBalance); [done|]. rewrite (eo_table _ He). apply table_facts. Qed.
Lemma gasExtCodeSize_costs wr n : costs e gasExtCodeSize None wr n 1.
Proof. apply (table_costs gtExtcodeSize); [done|]. rewrite (eo_table _ He). apply table_facts. Qed.
Lemma gasSLoad_costs wr n : costs e gasSLoad None wr n 1.
Proof. apply (table_costs gtSLoad); [done|]. rewrite (eo_table _ He). apply table_facts. Qed.

(** EXTCODEHASH is free in the gas tables before Constantinople; its entry is
    in no earlier jump table. *)
Lemma gasExtCodeHash_costs wr n :
  IsConstantinople (chainConfig e) (BlockNumber (ctx e)) = true → costs e gasExtCodeHash None wr n 1.
Proof.
  intros Hc. apply (table_costs gtExtcodeHash); [done|]. rewrite (eo_table _ He).
  unfold getGasTable. rewrite Hc. cbn. lia.
Qed.

Lemma gasCallDataCopy_costs ms wr n : (2 < n)%nat → costs e gasCallDataCopy ms wr n GasFastestStep.
Proof. intros Hn. by apply (copy_costs e _ _ _ _ _ CopyGas 2). Qed.
Lemma gasReturnDataCopy_costs ms wr n : (2 < n)%nat → costs e gasReturnDataCopy ms wr n GasFastestStep.
Proof. intros Hn. by apply (copy_costs e _ _ _ _ _ CopyGas 2). Qed.
Lemma gasCodeCopy_costs ms wr n : (2 < n)%nat → costs e gasCodeCopy ms wr n GasFastestStep.
Proof. intros Hn. by apply (copy_costs e _ _ _ _ _ CopyGas 2). Qed.
Lemma gasSha3_costs ms wr n : (1 < n)%nat → costs e gasSha3 ms wr n Sha3Gas.
Proof. intros Hn. by apply (copy_costs e _ _ _ _ _ Sha3WordGas 1). Qed.

Lemma gasExtCodeCopy_costs ms wr n : (3 < n)%nat → costs e gasExtCodeCopy ms wr n 1.
Proof.
  intros Hn.
  pose proof (table_facts (chainConfig e) (BlockNumber (ctx e))) as Ht.
  rewrite <-(eo_table _ He) in Ht. cbv zeta in Ht. destr_ands.
  apply (costs_weaken _ _ _ _ (gtExtcodeCopy (gasTable e))); [lia|].
  apply (copy_costs e _ _ _ _ _ CopyGas 3); try done. unfold is_uint64. lia.
Qed.

Lemma gasMLoad_costs ms wr n : costs e gasMLoad ms wr n GasFastestStep.
Proof. apply mem_base_costs; [intros; by right|done]. Qed.
Lemma gasMStore_costs ms wr n : costs e gasMStore ms wr n GasFastestStep.
Proof. apply mem_base_costs; [intros; by right|done]. Qed.
Lemma gasMStore8_costs ms wr n : costs e gasMStore8 ms wr n GasFastestStep.
Proof. apply mem_base_costs; [intros; by right|done]. Qed.
Lemma gasCreate_costs ms wr n : costs e gasCreate ms wr n CreateGas.
Proof. apply mem_base_costs; [intros; by left|done]. Qed.
Lemma gasCreate2_costs ms wr n : costs e gasCreate2 ms wr n Create2Gas.
Proof. apply mem_base_costs; [intros; by left|done]. Qed.
Lemma gasReturn_costs ms wr n : costs e gasReturn ms wr n 0.
Proof. by apply mem_costs. Qed.
Lemma gasRevert_costs ms wr n : costs e gasRevert ms wr n 0.
Proof. by apply mem_costs. Qed.

End Tables.

#[export] Hint Resolve constGasFunc_costs gasPush_costs gasSwap_costs gasDup_costs gasBalance_costs
  gasExtCodeSize_costs gasSLoad_costs gasExtCodeHash_costs gasCallDataCopy_costs
  gasReturnDataCopy_costs gasCodeCopy_costs gasSha3_costs gasExtCodeCopy_costs gasMLoad_costs
  gasMStore_costs gasMStore8_costs gasCreate_costs gasCreate2_costs gasReturn_costs gasRevert_costs
  gasExp_costs gasSStore_costs gasSuicide_costs makeGasLog_costs : vm_gas.
#[export] Hint Extern 1 (is_uint64 _) => done : vm_gas.
#[export] Hint Extern 1 (_ < _)%nat => cbn; lia : vm_gas.
#[export] Hint Extern 1 (_ <= _ <= _) => lia : vm_gas.

(** An opcode is another than STOP or CALL by evaluation. *)
Ltac opcode_case := let E := fresh in intros E; first [reflexivity | by vm_compute in E].

Ltac simple_entry_tac :=
  eapply simple_entry;
  [ cbn; by eauto with vm_exec
  | cbn; by eauto with vm_gas
  | first [left; reflexivity | right; done]
  | reflexivity | reflexivity | cbn; memory_size | reflexivity | reflexivity | opcode_case | opcode_case ].

Ltac call_entry_tac n ready ok_gas ok_exec :=
  exists {| npop := n; npush := 1; sh_jumps := false; sh_ends := false |}, ready;
  split; [reflexivity|]; split; [reflexivity|]; split; [cbn; memory_size|];
  split; [reflexivity|]; split; [reflexivity|]; split; [opcode_case|];
  split; [let E := fresh in intros E; first [cbn; lia | by vm_compute in E]|];
  split; [cbn; ok_gas | cbn; ok_exec].

Ltac creates := (eapply costs_gas_ok; [by eauto with vm_gas | right; done]).

Section Tables2.
Context `{StateLaws DB} `{!Crypto}.
Variable e : Env DB.
Hypothesis He : env_ok e.

Notation table_ok := (Forall (λ p : Z * operation DB, entry_ok e p.1 p.2)).

Ltac entry_tac :=
  lazymatch goal with
  | |- context [opCreate] => call_entry_tac 3%nat (@no_call DB) creates ltac:(by apply opCreate_ok)
  | |- context [opCreate2] => call_entry_tac 4%nat (@no_call DB) creates ltac:(by apply opCreate2_ok)
  | |- context [opCall] =>
      call_entry_tac 7%nat (@ready_value DB) ltac:(apply gasCall_ok; [done|cbn; lia]) ltac:(by apply opCall_ok)
  | |- context [opCallCode] =>
      call_entry_tac 7%nat (@ready_value DB) ltac:(apply gasCallCode_ok; [done|cbn; lia])
        ltac:(by apply opCallCode_ok)
  | |- context [opDelegateCall] =>
      call_entry_tac 6%nat (@ready_plain DB) ltac:(apply gasDelegateCall_ok; [done|cbn; lia])
        ltac:(by apply opDelegateCall_ok)
  | |- context [opStaticCall] =>
      call_entry_tac 6%nat (@ready_plain DB) ltac:(apply gasStaticCall_ok; [done|cbn; lia])
        ltac:(by apply opStaticCall_ok)
  | _ => simple_entry_tac
  end.

Ltac table_tac := repeat (apply Forall_cons_2; [entry_tac|]); apply Forall_nil_2.

Lemma Frontier_1_ok : table_ok newFrontierInstructionSet_1.
Proof. unfold newFrontierInstructionSet_1. table_tac. Qed.
Lemma Frontier_2_ok : table_ok newFrontierInstructionSet_2.
Proof. unfold newFrontierInstructionSet_2. table_tac. Qed.
Lemma Frontier_3_ok : table_ok newFrontierInstructionSet_3.
Proof. unfold newFrontierInstructionSet_3. table_tac. Qed.
Lemma Frontier_4_ok : table_ok newFrontierInstructionSet_4.
Proof. unfold newFrontierInstructionSet_4. table_tac. Qed.
Lemma Frontier_5_ok : table_ok newFrontierInstructionSet_5.
Proof. unfold newFrontierInstructionSet_5. table_tac. Qed.
Lemma Frontier_6_ok : table_ok newFrontierInstructionSet_6.
Proof. unfold newFrontierInstructionSet_6. table_tac. Qed.

Lemma Frontier_ok : table_ok newFrontierInstructionSet.
Proof.
  unfold newFrontierInstructionSet. rewrite !Forall_app.
  auto 10 using Frontier_1_ok, Frontier_2_ok, Frontier_3_ok, Frontier_4_ok, Frontier_5_ok, Frontier_6_ok.
Qed.

Lemma Homestead_ok : table_ok newHomesteadInstructionSet.
Proof. apply Forall_app. split; [table_tac|apply Frontier_ok]. Qed.

Lemma Byzantium_ok : table_ok newByzantiumInstructionSet.
Proof. apply Forall_app. split; [table_tac|apply Homestead_ok]. Qed.

Lemma Constantinople_ok :
  IsConstantinople (chainConfig e) (BlockNumber (ctx e)) = true →
  table_ok newConstantinopleInstructionSet.
Proof. intros Hc. apply Forall_app. split; [table_tac|apply Byzantium_ok]. Qed.

Lemma JumpTable_ok : table_ok (JumpTable e).
Proof.
  unfold JumpTable. destruct (IsConstantinople _ _) eqn:Ec; [by apply Constantinople_ok|].
  destruct (IsByzantium _ _); [apply Byzantium_ok|].
  destruct (IsHomestead _ _); [apply Homestead_ok|apply Frontier_ok].
Qed.

Lemma get_operation_ok op operation :
  get_operation (JumpTable e) op = Some operation → entry_ok e op operation.
Proof.
  unfold get_operation. destruct (find _ _) as [[op' o]|] eqn:E; [|done]. intros [= <-].
  apply find_some in E as [Hin Hop]. apply Z.eqb_eq in Hop. cbn in Hop. subst op'.
  pose proof (proj1 (Forall_forall _ _) JumpTable_ok (op, o)) as Hok. apply Hok.
  exact Hin.
Qed.

End Tables2.
