(* ===== verification/VmPrecompilesOk.v ===== *)
(** * Precompiled contracts do not panic

    With no more gas than [max_gas] every precompiled contract returns, and
    takes no gas but the gas it requires.  Above that bound the modular
    exponentiation does panic. *)
From S2P Require Import Prelude BigMath Params OpCodes VmAnalysis VmMemory VmTypes VmLaws.
From S2P Require Import VmSample VmSpec VmPrecompiles.

Lemma getData_some data start size :
  0 <= start → 0 <= size < 2 ^ 64 - 2 ^ 60 → zlen data < 2 ^ 60 → is_Some (getData data start size).
Proof.
  intros Hs Hz Hd. pose proof (zlen_nonneg data). unfold getData.
  set (st := if start >? zlen data then zlen data else start).
  assert (0 <= st <= zlen data) as Hst by (subst st; zcases; lia).
  rewrite (uint64_id (st + size)) by (unfold is_uint64; lia).
  destruct (Z.leb_spec st (if st + size >? zlen data then zlen data else st + size)) as [|Hlt]; [done|].
  exfalso. zcases_in Hlt; lia.
Qed.

(** ** Modular exponentiation *)

(** The multiplication complexity grows with the length of the operands. *)
Lemma modexp_gas_bound x adj M :
  1 <= x → 0 <= adj →
  M = (if x <=? 64 then x * x
       else if x <=? 1024 then bigDiv (x * x) 4 + (96 * x - 3072)
       else bigDiv (x * x) 16 + (480 * x - 199680)) →
  bigDiv (M * BigMax adj 1) ModExpQuadCoeffDiv <= max_gas →
  x < 2 ^ 36 ∧ adj <= 20 * max_gas + 20.
Proof.
  intros Hx Hadj HM. unfold bigDiv in *. change (Z.abs 4) with 4 in HM. change (Z.abs 16) with 16 in HM.
  change (Z.sgn 4) with 1 in HM. change (Z.sgn 16) with 1 in HM. rewrite !Z.mul_1_l in HM.
  change (Z.sgn ModExpQuadCoeffDiv) with 1. change (Z.abs ModExpQuadCoeffDiv) with 20. rewrite BigMax_max.
  rewrite Z.mul_1_l. intros Hg.
  assert (M * Z.max adj 1 <= 20 * max_gas + 19) as Hb.
  { pose proof (Z.div_mod (M * Z.max adj 1) 20 ltac:(lia)).
    pose proof (Z.mod_pos_bound (M * Z.max adj 1) 20 ltac:(lia)). lia. }
  assert (1 <= M ∧ (2 ^ 36 <= x → 2 ^ 68 <= M)) as [HM1 HM2].
  { pose proof (Z.div_mod (x * x) 4 ltac:(lia)). pose proof (Z.mod_pos_bound (x * x) 4 ltac:(lia)).
    pose proof (Z.div_mod (x * x) 16 ltac:(lia)). pose proof (Z.mod_pos_bound (x * x) 16 ltac:(lia)).
    split; subst M; zcases; try nia. }
  unfold max_gas in *. split; [|nia].
  destruct (Z.lt_ge_cases x (2 ^ 36)) as [|Hge]; [done|]. specialize (HM2 Hge). nia.
Qed.

Lemma getData_start data start size :
  0 <= start → 0 <= size <= 32 → zlen data < 2 ^ 60 → is_Some (getData data start size).
Proof. intros. apply getData_some; lia. Qed.

Lemma zlen_skip96 input : zlen (skip96 input) <= zlen input.
Proof. unfold skip96. zcases; unfold zlen; rewrite ?length_drop; simpl; lia. Qed.

(** The cap at 64 bits does not hide a cost within [max_gas]. *)
Lemma capped_gas g : (if BitLen g >? 64 then MaxUint64 else Uint64 g) <= max_gas → g <= max_gas.
Proof.
  destruct (Z.gtb_spec (BitLen g) 64) as [|Hb]; [by unfold MaxUint64, max_gas|].
  apply BitLen_le in Hb; [|done]. intros Hg. destruct (Z.le_gt_cases 0 g) as [H0|]; [|unfold max_gas; lia].
  rewrite Uint64_id in Hg; [done|]. unfold is_uint64. lia.
Qed.

(** The gas of a run that is within [max_gas] bounds the lengths of the operands. *)
Lemma modexp_lens_bound input b ex m g :
  zlen input < 2 ^ 60 →
  getData input 0 32 = Some b → getData input 32 32 = Some ex → getData input 64 32 = Some m →
  bigModExp_RequiredGas input = Some g → g <= max_gas →
  (SetBytes b = 0 ∧ SetBytes m = 0) ∨
  (SetBytes b < 2 ^ 36 ∧ SetBytes m < 2 ^ 36 ∧ SetBytes ex < 2 ^ 64 - 2 ^ 60).
Proof.
  intros Hi Eb Ee Em. unfold bigModExp_RequiredGas. rewrite Eb, Ee, Em. cbv zeta. cbn [mbind option_bind].
  pose proof (SetBytes_nonneg b). pose proof (SetBytes_nonneg ex). pose proof (SetBytes_nonneg m).
  set (x := BigMax (SetBytes m) (SetBytes b)).
  destruct (if zlen (skip96 input) <=? SetBytes b then _ else _) as [head|]; [|done].
  cbn [mbind option_bind].
  set (adj := (if SetBytes ex >? 32 then 8 * (SetBytes ex - 32) else 0)
    + (if BitLen head >? 0 then BitLen head - 1 else 0)).
  set (M := if x <=? 64 then _ else _). intros [= <-] Hg.
  destruct (Z.eq_dec x 0) as [Hx|Hx].
  { left. unfold x in Hx. rewrite BigMax_max in Hx. lia. }
  assert (0 < x) as Hx0 by (unfold x in *; rewrite BigMax_max in *; lia).
  assert (8 * (SetBytes ex - 32) <= adj ∧ 0 <= adj) as [Hadj Hadj0].
  { unfold adj. pose proof (BitLen_nonneg head). zcases; lia. }
  right. destruct (modexp_gas_bound x adj M ltac:(lia) Hadj0 eq_refl) as [Hxb Hab].
  - by apply capped_gas.
  - unfold x, max_gas in *. rewrite BigMax_max in *. lia.
Qed.

Lemma bigModExp_RequiredGas_some input :
  zlen input < 2 ^ 60 → ∃ g, bigModExp_RequiredGas input = Some g ∧ is_uint64 g.
Proof.
  intros Hi. pose proof (zlen_skip96 input). unfold bigModExp_RequiredGas.
  destruct (getData_start input 0 32) as [b ->]; [lia..|].
  destruct (getData_start input 32 32) as [ex ->]; [lia..|].
  destruct (getData_start input 64 32) as [m ->]; [lia..|]. cbv zeta. cbn [mbind option_bind].
  pose proof (SetBytes_nonneg ex).
  destruct (getData_start (skip96 input) (Uint64 (SetBytes b)) 32) as [h1 E1];
    [apply Uint64_range|lia..|].
  assert (∃ head, (if zlen (skip96 input) <=? SetBytes b then Some 0
    else if SetBytes ex >? 32 then h ← getData (skip96 input) (Uint64 (SetBytes b)) 32; Some (SetBytes h)
    else h ← getData (skip96 input) (Uint64 (SetBytes b)) (Uint64 (SetBytes ex)); Some (SetBytes h))
    = Some head) as [head ->].
  { destruct (_ <=? _); [by eexists|]. rewrite E1. destruct (Z.gtb_spec (SetBytes ex) 32); [by eexists|].
    rewrite (Uint64_id (SetBytes ex)) by (unfold is_uint64; lia).
    destruct (getData_start (skip96 input) (Uint64 (SetBytes b)) (SetBytes ex)) as [h2 ->];
      [apply Uint64_range|lia..|]. by eexists. }
  eexists. split; [reflexivity|]. case_match; [done|apply Uint64_range].
Qed.

Section Precompiles.
Context `{!Crypto}.

Lemma zlen_LeftPadBytes slice l : zlen (LeftPadBytes slice l) = Z.max l (zlen slice).
Proof.
  unfold LeftPadBytes. zcases; [lia|]. unfold zlen, zeros in *. rewrite length_app, length_replicate. lia.
Qed.

(** The result is as long as the modulus. *)
Lemma bigModExp_Run_some input g :
  zlen input < 2 ^ 60 → bigModExp_RequiredGas input = Some g → g <= max_gas →
  ∃ ret, bigModExp_Run input = Some (ret, None) ∧ zlen ret < 2 ^ 62.
Proof.
  intros Hi Hg Hle. pose proof (zlen_skip96 input). unfold bigModExp_Run.
  destruct (getData_start input 0 32) as [b Eb]; [lia..|].
  destruct (getData_start input 32 32) as [ex Ee]; [lia..|].
  destruct (getData_start input 64 32) as [m Em]; [lia..|].
  rewrite Eb, Ee, Em. cbv zeta. cbn [mbind option_bind].
  pose proof (SetBytes_nonneg b). pose proof (SetBytes_nonneg ex). pose proof (SetBytes_nonneg m).
  destruct (modexp_lens_bound input b ex m g Hi Eb Ee Em Hg Hle) as [[-> ->]|(Hb & Hm & Hx)];
    [by eexists|].
  destruct (_ && _); [by eexists|]. rewrite !Uint64_id by (unfold is_uint64; lia).
  destruct (getData_some (skip96 input) 0 (SetBytes b)) as [d1 ->]; [lia..|].
  destruct (getData_some (skip96 input) (SetBytes b) (SetBytes ex)) as [d2 ->]; [lia..|].
  set (st := uint64 (SetBytes b + SetBytes ex)). assert (0 <= st) by apply uint64_range.
  rewrite (getData_getDataBig _ st (SetBytes m)) by lia. cbn [mbind option_bind].
  pose proof (zlen_getDataBig (skip96 input) st (SetBytes m) ltac:(lia) ltac:(lia) ltac:(lia)) as Hml.
  pose proof (SetBytes_bound (getDataBig (skip96 input) st (SetBytes m))) as Hmod. rewrite Hml in Hmod.
  pose proof (SetBytes_nonneg (getDataBig (skip96 input) st (SetBytes m))) as Hm0.
  set (md := SetBytes (getDataBig (skip96 input) st (SetBytes m))) in *.
  assert (int64 (SetBytes m) = SetBytes m) as -> by (unfold int64; rewrite Z.mod_small; lia).
  destruct (Z.eqb_spec (BitLen md) 0) as [|Hmd].
  - eexists. split; [done|]. rewrite zlen_LeftPadBytes. change (zlen []) with 0. lia.
  - assert (md ≠ 0) by (intros ->; done).
    eexists. split; [done|]. rewrite zlen_LeftPadBytes.
    enough (zlen (Bytes (big_Exp (SetBytes d1) (SetBytes d2) md)) <= SetBytes m) by lia.
    apply zlen_Bytes_bound; [lia|]. unfold big_Exp.
    rewrite Zpow_facts.Zpow_mod_correct by lia.
    pose proof (Z.mod_pos_bound (SetBytes d1 ^ SetBytes d2) md). lia.
Qed.

(** ** The others *)

Lemma sub_slice_some (s : list byte) lo hi : (lo <= hi <= length s)%nat → is_Some (sub_slice s lo hi).
Proof. intros Hh. unfold sub_slice. by rewrite decide_True. Qed.

Lemma ecrecover_Run_some input : ∃ r, ecrecover_Run input = Some r ∧ zlen r.1 < 2 ^ 62.
Proof.
  unfold ecrecover_Run. cbv zeta.
  assert (128 <= length (RightPadBytes input 128))%nat as Hl.
  { pose proof (zlen_RightPadBytes input 128). unfold zlen in *. lia. }
  set (s := RightPadBytes input 128) in *.
  destruct (sub_slice_some s 64 96) as [rb ->]; [lia|].
  destruct (sub_slice_some s 96 128) as [sb ->]; [lia|].
  destruct (lookup_lt_is_Some_2 s 63) as [b63 E63]; [lia|].
  destruct (sub_slice_some s 32 63) as [hi ->]; [lia|].
  destruct (sub_slice_some s 0 32) as [h ->]; [lia|].
  destruct (sub_slice_some s 64 128) as [sg ->]; [lia|].
  cbn [mbind option_bind]. rewrite E63. cbn [mbind option_bind].
  destruct (_ || _); [by eexists|].
  destruct (Ecrecover _ _) as [pk|] eqn:Ek; [|by eexists]. apply length_Ecrecover in Ek.
  destruct (sub_slice_some pk 1 (length pk)) as [d ->]; [lia|]. eexists. split; [done|].
  cbn. rewrite zlen_LeftPadBytes. unfold zlen. rewrite length_drop, length_Keccak256. lia.
Qed.

Lemma bn256Pairing_loop_some rounds i input cs ts :
  (i + rounds * 192 <= length input)%nat → is_Some (bn256Pairing_loop rounds i input cs ts).
Proof.
  revert i cs ts. induction rounds as [|n IH]; intros i cs ts Hl; [done|]. cbn.
  destruct (sub_slice_some input i (i + 64)) as [b1 ->]; [lia|]. cbn.
  destruct (newCurvePoint b1); [|done].
  destruct (sub_slice_some input (i + 64) (i + 192)) as [b2 ->]; [lia|]. cbn.
  destruct (newTwistPoint b2); [|done]. apply IH. lia.
Qed.

Lemma bn256Pairing_Run_some input : ∃ r, bn256Pairing_Run input = Some r ∧ zlen r.1 < 2 ^ 62.
Proof.
  unfold bn256Pairing_Run. destruct (_ >? 0); [by eexists|].
  destruct (bn256Pairing_loop_some (length input / 192) 0 input [] []) as [r ->].
  - pose proof (Nat.div_mod (length input) 192). lia.
  - cbn. destruct r as [[cs ts]|err]; [|by eexists]. eexists. split; [done|]. by destruct (PairingCheck cs ts).
Qed.

Lemma precompiled_Run_some p input g :
  zlen input < 2 ^ 60 → RequiredGas p input = Some g → g <= max_gas →
  ∃ r, precompiled_Run p input = Some r ∧ zlen r.1 < 2 ^ 62.
Proof.
  intros Hi Hg Hle. destruct p; cbn in *.
  - apply ecrecover_Run_some.
  - eexists. split; [done|]. cbn. unfold zlen. by rewrite length_sha256.
  - eexists. split; [done|]. cbn. rewrite zlen_LeftPadBytes. unfold zlen. by rewrite length_ripemd160.
  - eexists. split; [done|]. cbn. lia.
  - destruct (bigModExp_Run_some input g Hi Hg Hle) as (ret & ? & ?). by exists (ret, None).
  - unfold bn256Add_Run. destruct (getData_some input 0 64) as [b1 ->]; [lia..|]. cbn.
    destruct (newCurvePoint b1); [|by eexists].
    destruct (getData_some input 64 64) as [b2 ->]; [lia..|]. cbn.
    destruct (newCurvePoint b2); [|by eexists]. eexists. split; [done|]. cbn. unfold zlen. by rewrite length_G1_Marshal.
  - unfold bn256ScalarMul_Run. destruct (getData_some input 0 64) as [b1 ->]; [lia..|]. cbn.
    destruct (newCurvePoint b1); [|by eexists].
    destruct (getData_some input 64 32) as [b2 ->]; [lia..|]. cbn.
    eexists. split; [done|]. cbn. unfold zlen. by rewrite length_G1_Marshal.
  - apply bn256Pairing_Run_some.
Qed.

Lemma RequiredGas_some p input :
  zlen input < 2 ^ 60 → ∃ g, RequiredGas p input = Some g ∧ is_uint64 g.
Proof.
  intros Hi. destruct p; cbn; try (eexists; split; [reflexivity|]; first [done | apply uint64_range]).
  by apply bigModExp_RequiredGas_some.
Qed.

Lemma RunPrecompiledContract_ok p input c :
  zlen input < 2 ^ 60 → 0 <= Gas c <= max_gas →
  ∃ g, RequiredGas p input = Some g ∧ 0 <= g ∧
    if Gas c <? g then RunPrecompiledContract p input c = Some (([], Some ErrOutOfGas), c)
    else ∃ r, RunPrecompiledContract p input c = Some (r, with_Gas (Gas c - g) c) ∧ zlen r.1 < 2 ^ 62.
Proof.
  intros Hi Hc. destruct (RequiredGas_some p input Hi) as (g & Eg & Hg). exists g.
  split; [done|]. split; [apply Hg|]. unfold RunPrecompiledContract, UseGas. rewrite Eg.
  cbn [mbind option_bind]. destruct (Z.ltb_spec (Gas c) g) as [|Hle]; [done|].
  destruct (precompiled_Run_some p input g) as (r & -> & Hr); [done..|lia|]. exists r.
  rewrite uint64_id; [done|]. destruct Hg. unfold is_uint64, max_gas in *. lia.
Qed.

(** A precompiled contract run with at most [max_gas] returns: it never
    indexes out of range.  When the gas is short it fails and takes nothing,
    otherwise it takes exactly the gas it requires. *)
Theorem RunPrecompiledContract_total p input c :
  zlen input < 2 ^ 60 → 0 <= Gas c <= max_gas →
  ∃ g, RequiredGas p input = Some g ∧ 0 <= g ∧
    if Gas c <? g then RunPrecompiledContract p input c = Some (([], Some ErrOutOfGas), c)
    else ∃ r, RunPrecompiledContract p input c = Some (r, with_Gas (Gas c - g) c) ∧ zlen r.1 < 2 ^ 62.
Proof. apply RunPrecompiledContract_ok. Qed.

End Precompiles.

(** A contract with [gas] left. *)
Definition contract_with_gas (gas : Z) : Contract :=
  {| CallerAddress := 1; caller := AccountRef 1; self := 5; Code := []; CodeHash := 0;
     CodeAddr := Some 5; Input := []; Gas := gas; value := Some 0; IsDelegateCall := false |}.

Lemma RunPrecompiledContract_total_witness :
  let c := contract_with_gas 100 in
  ∃ g, @RequiredGas bigModExp (zeros 96) = Some g ∧ 0 <= g ∧
    if Gas c <? g then @RunPrecompiledContract sample_crypto bigModExp (zeros 96) c =
                       Some (([], Some ErrOutOfGas), c)
    else ∃ r, @RunPrecompiledContract sample_crypto bigModExp (zeros 96) c =
              Some (r, with_Gas (Gas c - g) c) ∧ zlen r.1 < 2 ^ 62.
Proof. apply (@RunPrecompiledContract_total sample_crypto); by vm_compute. Defined.

(** The lengths 1, 2^64 - 1 and 0, and one byte of base. *)
Definition modexp_bomb : list byte := be_bytes 32 1 ++ be_bytes 32 (2 ^ 64 - 1) ++ zeros 32 ++ [zb 2].

(** With the gas a call over RPC gets by default (half of [MaxUint64]) the
    modular exponentiation can be made to panic: its gas is affordable, and the
    end of the exponent's slice wraps around to lie before its start. *)
Theorem bigModExp_panics `{!Crypto} :
  RunPrecompiledContract bigModExp modexp_bomb (contract_with_gas (MaxUint64 / 2)) = None.
Proof. reflexivity. Qed.
