(* ===== verification/VmSafety.v ===== *)
(** * The interpreter keeps its invariants and terminates

    One round of the loop keeps the frame invariant and, when the loop goes on,
    takes gas; so does everything an instruction calls, by induction on the
    fuel.  Fuel above the gas of the frame is enough. *)
From S2P Require Import Prelude BigMath Params OpCodes VmAnalysis VmMemory VmTypes VmLaws.
From S2P Require Import VmSpec VmGas VmInstructions VmPrecompiles VmJumpTable VmInterp VmExec.
From S2P Require Import VmCallExec VmGasOk VmTables VmPrecompilesOk.

(** ** Pieces of a round *)

Lemma makeStackFunc_none pop push st :
  makeStackFunc (Z.of_nat pop) (Z.of_nat push) st = None →
  (pop <= length st)%nat ∧ zlen st + Z.of_nat push - Z.of_nat pop <= StackLimit.
Proof.
  unfold makeStackFunc, require, zlen. destruct (Z.ltb_spec (Z.of_nat (length st)) (Z.of_nat pop)); [done|].
  rewrite Z.gtb_ltb. destruct (Z.ltb_spec StackLimit (Z.of_nat (length st) + Z.of_nat push - Z.of_nat pop));
    [done|]. lia.
Qed.

Lemma GetOp_end c p : zlen (Code c) <= p → GetOp c p = STOP.
Proof. intros Hp. unfold GetOp, GetByte. destruct (Z.ltb_spec p (zlen (Code c))); [lia|done]. Qed.

Lemma BitLen_pos v : BitLen v >? 0 = false → v = 0.
Proof.
  rewrite Z.gtb_ltb. intros Hb%Z.ltb_ge. apply BitLen_le in Hb; [|done]. change (2 ^ 0) with 1 in Hb. lia.
Qed.

Section Safety.
Context `{StateLaws DB} `{!Crypto}.
Variable e : Env DB.
Hypothesis He : env_ok e.

Implicit Types f : Frame DB.

Lemma enforceRestrictions_ok opcode op f :
  (opcode = CALL → (2 < length (stack f))%nat) →
  wp stale (enforceRestrictions e opcode op)
    (λ r f', f' = f ∧
       (r = None → byz e = true → readOnly (yvm f) = true →
        writes op = false ∧ (opcode = CALL → stack f !! 2%nat = Some 0))) f.
Proof.
  intros Hl. unfold enforceRestrictions. apply wp_gets_in.
  destruct (rulesIsByzantium (chainRules e)) eqn:Eb, (readOnly (yvm f)) eqn:Er;
    try (split; [done|]; intros _ Hb Hr; unfold byz in Hb; congruence).
  cbn [andb]. destruct (writes op); [by split|].
  destruct (Z.eqb_spec opcode CALL) as [Hc|Hc]; [|by split].
  destruct (lookup_lt_is_Some_2 (stack f) 2) as [v Ev]; [auto|].
  apply wp_bind. unfold wp at 1, Back. rewrite Ev. split; [done|].
  destruct (BitLen v >? 0) eqn:Ebl; [done|]. apply BitLen_pos in Ebl. by subst v.
Qed.

(** The size asked for: whole words, at least what the instruction touches. *)
Lemma required_memory_ok op n f :
  memory_total (memorySize op) n → (n <= length (stack f))%nat → words_ok (stack f) →
  wp stale (required_memory op)
    (λ r f', f' = f ∧ ∀ size, r = inl size →
       0 <= size < 2 ^ 64 ∧ size mod 32 = 0 ∧ (memorySize op = None → size = 0) ∧
       ∀ g m, memorySize op = Some g → g (stack f) = Some m → m <= size) f.
Proof.
  intros Ht Hl Hw. unfold required_memory. destruct (memorySize op) as [g|] eqn:Eg.
  - apply wp_gets_in. destruct (Ht g (stack f) eq_refl Hl Hw) as (m & Em & Hm).
    apply wp_bind. eapply wp_must; [exact Em|].
    unfold bigUint64. cbv zeta iota beta. rewrite Z.gtb_ltb.
    destruct (Z.ltb_spec 64 (BitLen m)) as [|Hb]; [by split|].
    apply BitLen_le in Hb; [|done]. rewrite Z.abs_eq in Hb by done.
    rewrite (Uint64_id m) by (unfold is_uint64; lia).
    pose proof (toWordSize_ceil m ltac:(unfold MaxUint64; lia)) as Hc.
    destruct (SafeMul (toWordSize m) 32) as [size over] eqn:Es.
    destruct over; [by split|]. split; [done|]. intros ? [= <-].
    destruct (SafeMul_ok (toWordSize m) 32) as [E1 E2]; [apply toWordSize_range; unfold is_uint64; lia|done|by rewrite Es|].
    rewrite Es in E1. cbn in E1. subst size. unfold is_uint64 in E2. rewrite Z.mod_mul by done.
    repeat split; try done; try lia. intros g' m' [= <-] ?. simplify_eq. lia.
  - split; [done|]. intros size [= <-]. by repeat split.
Qed.

(** What a run does to its frame: gas is only taken, the contract stays. *)
Record run_rel f f' : Prop := {
  rr_gas : 0 <= Gas (contract f') <= Gas (contract f);
  rr_contract : with_Gas 0 (contract f') = with_Gas 0 (contract f);
  rr_yvm : yvm_rel e (yvm f) (yvm f')
}.

Lemma run_rel_refl f : frame_ok f → run_rel f f.
Proof.
  intros Hf. split; [pose proof (co_gas _ (fo_contract _ Hf)); lia|done|by apply yvm_rel_refl, Hf].
Qed.

Lemma run_rel_trans f1 f2 f3 : run_rel f1 f2 → run_rel f2 f3 → run_rel f1 f3.
Proof. intros [] []. split; [lia|congruence|by eapply yvm_rel_trans]. Qed.

(** A frame that was charged and whose memory has grown. *)
Record charged (sh : shape) (ready : Frame DB → Z → Prop) (size : Z) f f' : Prop := {
  ch_ok : frame_ok f';
  ch_rel : run_rel f f';
  ch_stack : stack f' = stack f;
  ch_pc : pc f' = pc f;
  ch_code : Code (contract f') = Code (contract f);
  ch_gas : sh_ends sh = false → Gas (contract f') < Gas (contract f);
  ch_size : size <= Len (memory f');
  ch_ready : ready f' (Gas (contract f))
}.

Lemma contract_ok_Gas g c : contract_ok c → 0 <= g <= max_gas → contract_ok (with_Gas g c).
Proof. intros [] Hg. by split. Qed.

Lemma charge_ok op sh ready size f :
  gas_ok e (gasCost op) (memorySize op) (writes op) sh ready →
  frame_ok f → (npop sh <= length (stack f))%nat → 0 <= size < 2 ^ 64 → size mod 32 = 0 →
  (memorySize op = None → size = 0) →
  (byz e = true → readOnly (yvm f) = true → writes op = false) →
  wp stale (charge e op size)
    (λ ok f', if ok then charged sh ready size f f' else run_rel f f') f.
Proof.
  intros Hg Hf Hl Hs Hs32 Hms Hst. unfold charge. apply wp_bind.
  eapply wp_mono; [by apply Hg|].
  intros [cost err] f1 [gp_stack0 gp_pc0 gp_contract0 gp_store0 gp_fee0 gp_yvm0 gp_size0 gp_cost0 gp_ready0]. cbn [fst snd] in *.
  pose proof (co_gas _ (fo_contract _ Hf)) as Hcg. pose proof (fo_mem _ Hf) as [M1 M2 M3].
  assert (run_rel f f1) as Hr1.
  { split; [rewrite gp_contract0; lia|by rewrite gp_contract0|done]. }
  destruct err as [err|]; [done|]. specialize (gp_cost0 eq_refl) as [Hu Hc1].
  apply wp_bind. unfold wp at 1, use_gas, UseGas. rewrite gp_contract0.
  destruct (Z.ltb_spec (Gas (contract f)) cost) as [|Hle].
  { split; [cbn; lia|done|done]. }
  rewrite uint64_id by (unfold is_uint64, max_gas in *; lia).
  set (f2 := with_contract (with_Gas (Gas (contract f) - cost) (contract f)) f1).
  assert (∀ m, mem_ok m → size <= Len m → charged sh ready size f (with_memory m f2)) as Hch.
  { intros m Hm Hml. specialize (gp_ready0 eq_refl Hle m). destruct Hu as [Hu1 Hu2]. split; try done.
    - destruct Hf. split; cbn; rewrite ?gp_stack0, ?gp_pc0; try done; [|apply gp_yvm0].
      apply contract_ok_Gas; [done|lia].
    - split; cbn; [lia|done|done].
    - intros Hend. specialize (Hc1 Hend). cbn. lia. }
  assert (Len (memory f1) = Len (memory f)) as Hlen by (unfold Len; by rewrite gp_store0).
  apply wp_bind. rewrite Z.gtb_ltb. destruct (Z.ltb_spec 0 size).
  - unfold wp at 1, modify. apply wp_ret. apply Hch.
    + specialize (gp_size0 eq_refl). split; rewrite ?Resize_Len.
      * change (memory f2) with (memory f1). rewrite Hlen. destruct (Z.max_spec (Len (memory f)) size) as [[_ ->]|[_ ->]]; done.
      * change (memory f2) with (memory f1). rewrite Hlen. lia.
      * unfold Resize. by destruct (_ <? _).
    + rewrite Resize_Len. lia.
  - apply wp_ret, wp_ret. replace f2 with (with_memory (memory f1) f2) by by destruct f1.
    apply Hch; [|pose proof (zlen_nonneg (store (memory f1))); unfold Len in *; lia].
    split; rewrite ?Hlen; done.
Qed.

Lemma same_contract c c' : with_Gas 0 c' = with_Gas 0 c → c' = with_Gas (Gas c') c.
Proof. destruct c, c'. unfold with_Gas. cbn. intros E. injection E. intros. by subst. Qed.

(** After a round: the loop goes on with a good frame and less gas, or ends
    with a result that fits the memory. *)
Definition round_post f (r : option exec_result) f' : Prop :=
  run_rel f f' ∧
  match r with
  | None => frame_ok f' ∧ Gas (contract f') < Gas (contract f)
  | Some res => zlen res.1 <= max_memory
  end.

Lemma exec_frame_ok sh B f r f' p :
  frame_ok f → exec_post e sh B f r f' → r.2 = None → sh_ends sh = false → B <= max_gas →
  Gas (contract f) < B → zlen (stack f) + Z.of_nat (npush sh) - Z.of_nat (npop sh) <= StackLimit →
  p = pc f' + (if sh_jumps sh then 0 else 1) →
  frame_ok (with_pc p f').
Proof.
  intros Hf [ep_stack0 ep_words0 ep_len0 ep_fee0 ep_contract0 ep_gas0 ep_pc0 ep_yvm0 _] Hr Hend HB HG Hst ->. destruct Hf as [F1 F2 [M1 M2 M3] F4 F5 F6].
  specialize (ep_stack0 Hr). specialize (ep_pc0 Hr Hend).
  pose proof (same_contract _ _ ep_contract0) as Ec. split; cbn; try done.
  - unfold zlen in *. lia.
  - split; by rewrite ?ep_len0, ?ep_fee0.
  - rewrite Ec. apply contract_ok_Gas; [done|lia].
  - rewrite Ec. done.
  - apply ep_yvm0.
Qed.

(** What the loop does with the result of the instruction. *)
Lemma perform_end (op : operation DB) sh ready size f f1 f3 res err :
  sh_ends sh = halts op || reverts op → sh_jumps sh = jumps op →
  frame_ok f → zlen (stack f) + Z.of_nat (npush sh) - Z.of_nat (npop sh) <= StackLimit →
  charged sh ready size f f1 → exec_post e sh (Gas (contract f)) f1 (res, err) f3 →
  wp stale
    (match err with
     | Some err => mret (Some ([], Some err))
     | None =>
         if reverts op then mret (Some (res, Some errExecutionReverted))
         else if halts op then mret (Some (res, None))
         else _ ← (if jumps op then mret () else modify (λ f, with_pc (uint64 (pc f + 1)) f)); mret None
     end) (round_post f) f3.
Proof.
  intros Hends Hjumps Hf Hst Hch Hp. pose proof (co_gas _ (fo_contract _ Hf)) as Hcg.
  pose proof (ch_rel _ _ _ _ _ Hch) as Hr1. pose proof (rr_gas _ _ Hr1) as Hg1.
  assert (run_rel f f3) as Hr.
  { split; [destruct (ep_gas _ _ _ _ _ _ Hp); lia| |].
    - rewrite (ep_contract _ _ _ _ _ _ Hp). apply Hr1.
    - eapply yvm_rel_trans; [apply Hr1|apply Hp]. }
  destruct err as [err|]; [by split|].
  destruct (reverts op); [split; [done|apply Hp; by rewrite Hends, orb_true_r]|].
  destruct (halts op); [split; [done|apply Hp; by rewrite Hends]|].
  pose proof (ch_gas _ _ _ _ _ Hch Hends) as Hg.
  assert (∀ p, p = pc f3 + (if sh_jumps sh then 0 else 1) → round_post f None (with_pc p f3)) as Hend.
  { intros p Ep. split; [by destruct Hr|]. split; [|destruct (ep_gas _ _ _ _ _ _ Hp); cbn; lia].
    apply (exec_frame_ok sh (Gas (contract f)) f1 (res, None)); try done; [apply Hch|lia|].
    by rewrite (ch_stack _ _ _ _ _ Hch). }
  rewrite Hjumps in Hend. destruct (jumps op) eqn:Ej.
  - apply wp_bind, wp_ret, wp_ret. replace f3 with (with_pc (pc f3) f3) by by destruct f3.
    apply Hend. cbn. lia.
  - apply wp_bind. unfold wp at 1, modify. apply wp_ret. apply Hend.
    pose proof (ep_pc _ _ _ _ _ _ Hp eq_refl Hends) as Hpc. rewrite Hjumps in Hpc.
    pose proof (co_code _ (fo_contract _ (ch_ok _ _ _ _ _ Hch))).
    apply uint64_id. unfold is_uint64. lia.
Qed.

Lemma perform_ok o opcode op sh ready f f1 size :
  exec_ok e opcode (execute op) (memorySize op) (writes op) sh ready →
  sh_ends sh = halts op || reverts op → sh_jumps sh = jumps op → (opcode = STOP → halts op = true) →
  frame_ok f → ops_ok e o (Gas (contract f)) → opcode = GetOp (contract f) (pc f) →
  (npop sh <= length (stack f))%nat →
  zlen (stack f) + Z.of_nat (npush sh) - Z.of_nat (npop sh) <= StackLimit →
  charged sh ready size f f1 →
  (∀ g m, memorySize op = Some g → g (stack f) = Some m → m <= size) →
  (byz e = true → readOnly (yvm f) = true →
   writes op = false ∧ (opcode = CALL → stack f !! 2%nat = Some 0)) →
  wp stale (perform e o op) (round_post f) f1.
Proof.
  intros Hex Hends Hjumps Hstop Hf Ho Hop Hl Hst Hch Hms Hro.
  pose proof (co_gas _ (fo_contract _ Hf)) as Hcg. pose proof (ch_rel _ _ _ _ _ Hch) as Hr1.
  unfold perform. apply wp_bind. eapply wp_mono.
  { eapply Hex; [exact Ho|lia|apply Hch|..].
    - by rewrite (ch_stack _ _ _ _ _ Hch).
    - rewrite (ch_stack _ _ _ _ _ Hch). intros g m Eg Em.
      etrans; [by eapply Hms|apply Hch].
    - intros Hend. split; [|by apply Hch].
      rewrite (ch_pc _ _ _ _ _ Hch), (ch_code _ _ _ _ _ Hch).
      destruct (Z.lt_ge_cases (pc f) (zlen (Code (contract f)))) as [|Hge]; [done|].
      rewrite (GetOp_end _ _ Hge) in Hop. rewrite (Hstop Hop) in Hends. cbn in Hends. congruence.
    - apply Hch.
    - rewrite (ch_stack _ _ _ _ _ Hch), (yr_readOnly _ _ _ (rr_yvm _ _ Hr1)). done. }
  intros [res err] f2 Hp. cbn [fst snd].
  set (f3 := if returns op then with_yvm (with_returnData res (yvm f2)) f2 else f2).
  assert (exec_post e sh (Gas (contract f)) f1 (res, err) f3) as Hp3.
  { unfold f3. destruct (returns op); [|done].
    pose proof (ep_yvm _ _ _ _ _ _ Hp) as Hy. destruct Hp. split; try done.
    eapply yvm_rel_fields; [exact Hy|done..]. }
  assert (wp stale (if returns op then on_yvm (modify (with_returnData res)) else mret ())
    (λ _ f', f' = f3) f2) as Hw by (unfold f3; by destruct (returns op)).
  apply wp_bind. eapply wp_mono; [exact Hw|]. intros _ f' ->. clear Hw Hp. clearbody f3.
  by eapply perform_end.
Qed.

(** One round of the loop. *)
Lemma step_ok o f :
  frame_ok f → ops_ok e o (Gas (contract f)) → wp stale (step e o) (round_post f) f.
Proof.
  intros Hf Ho.
  assert (∀ r, zlen r.1 <= max_memory → round_post f (Some r) f) as Hret.
  { intros r Hr. split; [by apply run_rel_refl|done]. }
  unfold step. apply wp_gets_in, wp_gets_in. cbv zeta.
  destruct (get_operation _ _) as [op|] eqn:Eop; [|by apply Hret].
  apply (get_operation_ok e He) in Eop as (sh & ready & Hv & Hvs & Hmt & Hends & Hjumps & Hstop & Hcall & Hgas & Hex).
  rewrite Hv. cbn [negb]. apply wp_gets_in. rewrite Hvs.
  destruct (makeStackFunc _ _ _) as [err|] eqn:Est; [by apply Hret|].
  apply makeStackFunc_none in Est as [Hl Hst].
  apply wp_bind. eapply wp_mono; [apply enforceRestrictions_ok; intros Hc; specialize (Hcall Hc); lia|].
  intros [err|] f' [-> Hro]; [by apply Hret|]. specialize (Hro eq_refl).
  apply wp_bind. eapply wp_mono; [by eapply required_memory_ok; [|exact Hl|apply Hf]|].
  intros [size|err] f' [-> Hsize]; [|by apply Hret].
  destruct (Hsize size eq_refl) as (Hs & Hs32 & Hs0 & Hsm).
  apply wp_bind. eapply wp_mono; [eapply charge_ok; try done; intros; by apply Hro|].
  intros [] f1 Hch; [|by split].
  by eapply perform_ok.
Qed.

End Safety.
