(* ===== verification/VmCallSafety.v ===== *)
(** * Calls: gas, reverts and read-only mode

    What [Call] and its variants promise, for any interpreter loop that keeps
    the frame invariant: gas is only taken, an error leaves everything
    observable of the state as it was, a call in read-only mode changes
    nothing observable. *)
From S2P Require Import Prelude BigMath Params OpCodes VmAnalysis VmMemory VmTypes VmLaws.
From S2P Require Import VmSample VmSpec VmGas VmInstructions VmPrecompiles VmJumpTable.
From S2P Require Import VmInterp VmExec VmCallExec VmGasOk VmTables VmPrecompilesOk VmSafety.

Section Calls.
Context `{StateLaws DB} `{!Crypto}.
Variable e : Env DB.
Hypothesis He : env_ok e.

Implicit Types y : YVM DB.

(** A loop that is good for frames with less than [n] gas. *)
Definition loop_ok (lp : M (Frame DB) exec_result) (n : Z) : Prop :=
  ∀ f, frame_ok f → Gas (contract f) < n →
    wp stale lp (λ r f', run_rel e f f' ∧ zlen r.1 <= max_memory) f.

(** ** Rules for the state of a machine *)

Lemma wp_on_db_reads {A B} F (m : M DB A) (k : A → M (YVM DB) B) P Q y :
  reads m (statedb y) P →
  (∀ v s', SInv s' → sext (statedb y) s' → view_eq (sview (statedb y)) (sview s') → P v →
    wp F (k v) Q (with_statedb s' y)) →
  wp F (on_db m ≫= k) Q y.
Proof.
  intros (v & s' & E & Hi & Hx & Hv & HP) Hk. apply wp_bind, wp_zoom. unfold wp. rewrite E. by apply Hk.
Qed.

Lemma wp_on_db_updates {A B} F (m : M DB A) (k : A → M (YVM DB) B) P Q y :
  updates m (statedb y) P →
  (∀ v s', SInv s' → sext (statedb y) s' → P v (sview s') → wp F (k v) Q (with_statedb s' y)) →
  wp F (on_db m ≫= k) Q y.
Proof.
  intros (v & s' & E & Hi & Hx & HP) Hk. apply wp_bind, wp_zoom. unfold wp. rewrite E. by apply Hk.
Qed.

(** The machine [y] of a call that began at [y0] and took a snapshot in [s]:
    it can be reverted to what [y0] showed. *)
Record in_call y0 (id : Z) y : Prop := {
  ic_rel : yvm_rel e y0 y;
  ic_revert : ∀ s'', SInv s'' → sext (statedb y) s'' →
    ∃ s3, RevertToSnapshot id s'' = Done () s3 ∧ SInv s3 ∧ sext (statedb y0) s3 ∧
          view_eq (sview (statedb y0)) (sview s3)
}.

Lemma in_call_step y0 id y y' : in_call y0 id y → yvm_rel e y y' → in_call y0 id y'.
Proof.
  intros [Hr Hs] Hy. split; [by eapply yvm_rel_trans|].
  intros s'' Hi Hx. apply Hs; [done|]. etrans; [apply Hy|done].
Qed.

Lemma wp_Snapshot {B} F (k : Z → M (YVM DB) B) Q y0 y :
  yvm_rel e y0 y → view_eq (sview (statedb y0)) (sview (statedb y)) →
  (∀ id s', in_call y0 id (with_statedb s' y) → SInv s' →
     view_eq (sview (statedb y0)) (sview s') → wp F (k id) Q (with_statedb s' y)) →
  wp F (on_db Snapshot ≫= k) Q y.
Proof.
  intros Hr Hv Hk. destruct (Snapshot_law (statedb y)) as (id & s' & E & Hi & Hx & Hv' & Hrev); [apply Hr|].
  apply wp_bind, wp_zoom. unfold wp. rewrite E. apply Hk; [|done|by etrans].
  split; [eapply yvm_rel_trans; [exact Hr|by apply yvm_rel_read]|].
  intros s'' Hi2 Hx2. destruct (Hrev s'' Hi2 Hx2) as (s3 & E3 & Hi3 & Hx3 & Hv3). exists s3.
  split; [done|]. split; [done|]. split; [etrans; [apply Hr|done]|by etrans].
Qed.

(** ** Running a contract *)

(** The result of a run: gas taken only, a result that can be stored. *)
Definition ran y (c : Contract) (r : exec_result * Contract) y' : Prop :=
  0 <= Gas r.2 <= Gas c ∧ zlen r.1.1 < 2 ^ 62 ∧ yvm_rel e y y'.

Lemma Run_ok lp n c input y :
  loop_ok lp n → contract_ok c → zlen input < 2 ^ 60 → Gas c < n → SInv (statedb y) →
  wp stale (Run lp c input) (ran y c) y.
Proof.
  intros Hlp Hc Hi Hg Hs. pose proof (co_gas _ Hc) as Hcg. unfold Run.
  apply wp_bind, wp_modify, wp_bind, wp_modify.
  destruct (Code c) as [|b code] eqn:Ecode.
  { apply wp_bind, wp_modify, wp_ret. split; [cbn; lia|]. split; [done|].
    split; cbn; try done; [lia|apply gains_refl]. }
  set (y1 := with_returnData [] _).
  set (f := {| pc := 0; stack := []; memory := NewMemory; contract := with_Input input c; yvm := y1 |}).
  assert (frame_ok f) as Hf.
  { split; cbn; try done; [by destruct Hc|]. pose proof (zlen_nonneg (Code c)). lia. }
  specialize (Hlp f Hf Hg). apply wp_bind. unfold wp in Hlp |- *.
  fold f. destruct (lp f) as [r f'|x]; [|done]. destruct Hlp as [[Hg' Hc' Hy] Hr].
  apply wp_bind, wp_modify, wp_ret. split; [exact Hg'|].
  split; [unfold max_memory in Hr; cbn; lia|]. destruct Hy. split; cbn in *; try done; lia.
Qed.

Lemma run_ok lp n c input y :
  loop_ok lp n → contract_ok c → zlen input < 2 ^ 60 → Gas c < n → SInv (statedb y) →
  wp stale (run e lp c input) (ran y c) y.
Proof.
  intros Hlp Hc Hi Hg Hs. pose proof (co_gas _ Hc) as Hcg. unfold run.
  destruct (CodeAddr c ≫= precompiles e) as [p|]; [|by eapply Run_ok].
  destruct (RunPrecompiledContract_ok p input c Hi Hcg) as (g & _ & Hg0 & Hr).
  destruct (Z.ltb_spec (Gas c) g).
  - eapply wp_must; [exact Hr|]. split; [cbn; lia|]. split; [done|by apply yvm_rel_refl].
  - destruct Hr as (r & Er & Hl). eapply wp_must; [exact Er|].
    split; [cbn; lia|]. split; [done|by apply yvm_rel_refl].
Qed.

(** ** Calls *)

(** A call: gas is only taken; an error leaves the state as it was, and but
    for a revert and the errors found before the call it takes all the gas. *)
Record call_spec y (gas : Z) (r : call_result) y' : Prop := {
  cs_post : call_post e y gas r y';
  cs_view x : r.2 = Some x → view_eq (sview (statedb y)) (sview (statedb y'));
  cs_gas x : r.2 = Some x → x ≠ errExecutionReverted →
             r.1.2 = 0 ∨ (x = ErrDepth ∨ x = ErrInsufficientBalance) ∧ r.1.2 = gas
}.

(** An early return. *)
Lemma call_spec_early y y' gas err :
  yvm_rel e y y' → view_eq (sview (statedb y)) (sview (statedb y')) → 0 <= gas →
  err = None ∨ err = Some ErrDepth ∨ err = Some ErrInsufficientBalance →
  call_spec y gas ([], gas, err) y'.
Proof.
  intros Hy Hv Hg Herr. split; [split; [cbn; lia|done]|done|]. cbn. intros x -> _. right.
  destruct Herr as [?|[?|?]]; simplify_eq; auto.
Qed.

Lemma UseGas_all c : Gas (UseGas c (Gas c)).2 = 0.
Proof. unfold UseGas. rewrite Z.ltb_irrefl. cbn. by rewrite Z.sub_diag. Qed.

Lemma reverted y0 id y s3 :
  in_call y0 id y → SInv s3 → sext (statedb y0) s3 → view_eq (sview (statedb y0)) (sview s3) →
  yvm_rel e y0 (with_statedb s3 y).
Proof. intros [[] _] Hi Hx Hv. split; try done; [by apply view_eq_gains|]. intros _ _. apply Hv. Qed.

Lemma wp_revert {B} F (k : () → M (YVM DB) B) Q y0 id y :
  in_call y0 id y →
  (∀ s3, yvm_rel e y0 (with_statedb s3 y) → view_eq (sview (statedb y0)) (sview s3) →
     wp F (k ()) Q (with_statedb s3 y)) →
  wp F (on_db (RevertToSnapshot id) ≫= k) Q y.
Proof.
  intros Hc Hk. destruct (ic_revert _ _ _ Hc (statedb y)) as (s3 & E & Hi & Hx & Hv);
    [apply Hc|done|].
  apply wp_bind, wp_zoom. unfold wp. rewrite E. apply Hk; [by eapply reverted|done].
Qed.

Lemma call_end_ok y0 id y gas r :
  in_call y0 id y → 0 <= Gas r.2 <= gas → wp stale (call_end id r) (call_spec y0 gas) y.
Proof.
  intros Hc Hg. destruct r as [[ret err] c]. cbn in Hg. unfold call_end.
  destruct err as [x|]; [|split; [split; [done|apply Hc]|done|done]].
  eapply wp_revert; [done|]. intros s3 Hr Hv. case_bool_decide as Hx.
  - split; [split; [|done]|done|]; cbn [fst snd]; rewrite UseGas_all; [lia|by left].
  - split; [by split|done|]. cbn. intros ? [= ->] ?. done.
Qed.

Lemma wp_load_code {B} (k : Contract → M (YVM DB) B) Q c addr y0 id y :
  in_call y0 id y →
  (∀ hash code s', in_call y0 id (with_statedb s' y) → SInv s' → zlen code < 2 ^ 62 →
     wp stale (k (SetCallCode c addr hash code)) Q (with_statedb s' y)) →
  wp stale (load_code c addr ≫= k) Q y.
Proof.
  intros Hc Hk. unfold load_code. apply wp_bind.
  eapply wp_on_db_reads; [apply GetCodeHash_law, Hc|]. intros hash s1 Hi1 Hx1 Hv1 _.
  eapply wp_on_db_reads; [apply GetCode_law, Hi1|]. intros code s2 Hi2 Hx2 Hv2 [_ Hcode].
  apply wp_ret. cbn. apply Hk; [|done|done].
  apply (in_call_step _ _ (with_statedb s1 y)); [apply (in_call_step _ _ y); [done|by apply yvm_rel_read]|].
  by apply (yvm_rel_read e (with_statedb s1 y)).
Qed.

Lemma wp_NewContract {B} (k : Contract → M (YVM DB) B) Q caller addr v gas y0 id y :
  in_call y0 id y →
  (∀ y', in_call y0 id y' → statedb y' = statedb y →
     wp stale (k {| CallerAddress := ref_Address caller; caller := caller; self := addr; Code := [];
                    CodeHash := 0; CodeAddr := None; Input := []; Gas := gas; value := v;
                    IsDelegateCall := false |}) Q y') →
  wp stale (NewContract caller addr v gas ≫= k) Q y.
Proof.
  intros Hc Hk. unfold NewContract. do 2 apply wp_bind. destruct caller as [a|s c w].
  - apply wp_modify, wp_ret, Hk; [|done]. eapply in_call_step; [exact Hc|].
    eapply yvm_rel_fields; [apply yvm_rel_refl, Hc|done..].
  - apply wp_ret, wp_ret. by apply Hk.
Qed.

(** From the code on, all calls are the same. *)
Lemma call_rest lp n y0 id y c addr input gas :
  loop_ok lp n → in_call y0 id y → zlen input < 2 ^ 60 → 0 <= gas < n → gas <= max_gas →
  Gas c = gas → 0 <= CallerAddress c → 0 <= self c → Input c = [] → (∃ v, value c = Some v ∧ 0 <= v) →
  wp stale (c ← load_code c addr; r ← run e lp c input; call_end id r) (call_spec y0 gas) y.
Proof.
  intros Hlp Hc Hi Hg Hgm HG Hca Hself Hin Hv. eapply wp_load_code; [exact Hc|].
  intros hash code s' Hc' Hs' Hcode. apply wp_bind. eapply wp_mono.
  { eapply run_ok; [exact Hlp| |done|cbn; lia|done].
    split; cbn; try done; [by rewrite Hin|lia]. }
  intros r y1 (Hg1 & _ & Hr1). cbn in Hg1. apply call_end_ok; [|lia]. by eapply in_call_step.
Qed.

Lemma in_call_read y0 id y s' :
  in_call y0 id y → SInv s' → sext (statedb y) s' → view_eq (sview (statedb y)) (sview s') →
  in_call y0 id (with_statedb s' y).
Proof. intros Hc Hi Hx Hv. eapply in_call_step; [exact Hc|by apply yvm_rel_read]. Qed.

(** A write that is invisible in read-only mode. *)
Lemma in_call_write y0 id y s' :
  in_call y0 id y → SInv s' → sext (statedb y) s' → gains (sview (statedb y)) (sview s') 0 →
  (byz e = true → readOnly y = true → view_static (sview (statedb y)) (sview s')) →
  in_call y0 id (with_statedb s' y).
Proof. intros Hc Hi Hx Hg Hv. eapply in_call_step; [exact Hc|by split]. Qed.

Lemma ref_Address_nonneg r : ref_ok r → 0 <= ref_Address r.
Proof. destruct r; cbn; [done|by intros (? & ? & ?)]. Qed.

(** The account is created where there is none, and the value moved. *)
Lemma wp_transfer {B} (k : () → M (YVM DB) B) Q y0 id y from addr exist v h :
  in_call y0 id y → exist = v_exist (sview (statedb y)) addr →
  0 <= v <= v_balance (sview (statedb y)) from → (byz e = true → readOnly y = true → v = 0) →
  (∀ s', in_call y0 id (with_statedb s' y) → SInv s' → wp stale (k ()) Q (with_statedb s' y)) →
  wp stale (_ ← (if negb exist then on_db (CreateAccount addr) else mret ());
            u ← on_db (Transfer (ctx e) from addr v h); k u) Q y.
Proof.
  intros Hc -> Hv Hro Hk.
  assert (∀ s1, in_call y0 id (with_statedb s1 y) → SInv s1 → v <= v_balance (sview s1) from →
    wp stale (u ← on_db (Transfer (ctx e) from addr v h); k u) Q (with_statedb s1 y)) as Hend.
  { intros s1 Hc1 Hi1 Hv1. eapply wp_on_db_updates; [apply (eo_Transfer _ He); [exact Hi1|cbn; lia]|].
    intros [] s2 Hi2 Hx2 [Hg2 Hs2]. cbn. apply Hk; [|done].
    apply (in_call_write _ _ (with_statedb s1 y)); try done. intros Hb Hr. by apply Hs2, Hro. }
  destruct (v_exist _ _) eqn:Ex; cbn [negb].
  - apply wp_bind, wp_ret. replace y with (with_statedb (statedb y) y) at 1 by by destruct y.
    apply Hend; [|apply Hc|lia]. by destruct y.
  - eapply wp_on_db_updates; [apply CreateAccount_law, Hc|]. intros [] s1 Hi1 Hx1 [Hb1 Hs1].
    specialize (Hs1 Ex). apply Hend; [|done|].
    + apply in_call_write; eauto with yoc.
    + rewrite <-(vs_balance _ _ Hs1). lia.
Qed.

Lemma Call_ok lp n r a i g v y :
  loop_ok lp n → ref_ok r → 0 <= a → zlen i < 2 ^ 60 → 0 <= g < n → g <= max_gas → 0 <= v →
  SInv (statedb y) → (byz e = true → readOnly y = true → v = 0) →
  wp stale (Call e lp r a i g v) (call_spec y g) y.
Proof.
  intros Hlp Hr Ha Hi Hg Hgm Hv Hs Hro. unfold Call. apply wp_bind, wp_gets. cbn [id].
  destruct (_ && _); [apply call_spec_early; [by apply yvm_rel_refl|reflexivity|lia|auto]|].
  destruct (depth y >? CallCreateDepth); [apply call_spec_early; [by apply yvm_rel_refl|reflexivity|lia|auto]|].
  eapply wp_on_db_reads; [by apply (eo_CanTransfer _ He)|]. intros can s1 Hi1 Hx1 Hv1 Hcan.
  destruct can; cbn [negb]; [|apply call_spec_early; [by apply yvm_rel_read|done|lia|auto]].
  eapply wp_Snapshot; [by apply yvm_rel_read|done|]. intros id s2 Hc Hi2 Hv2. cbn in Hc |- *.
  eapply wp_on_db_reads; [by apply Exist_law|]. intros exist s3 Hi3 Hx3 Hv3 ->. cbn in Hx3, Hv3 |- *.
  assert (in_call y id (with_statedb s3 y)) as Hc3 by (by apply (in_call_read _ _ (with_statedb s2 y))).
  assert (view_eq (sview (statedb y)) (sview s3)) as Hv03 by by etrans.
  destruct (_ && _); [apply call_spec_early; [apply Hc3|done|lia|auto]|].
  eapply wp_transfer; [exact Hc3|by rewrite <-(ve_exist _ _ Hv3)| |done|].
  { cbn. rewrite <-(vs_balance _ _ (ve_static _ _ Hv03)). specialize (Hcan eq_refl). lia. }
  intros s4 Hc4 Hi4. cbn. eapply wp_NewContract; [exact Hc4|]. intros y5 Hc5 _.
  eapply call_rest; try done; [by apply ref_Address_nonneg|by eexists].
Qed.

Lemma CallCode_ok lp n r a i g v y :
  loop_ok lp n → ref_ok r → 0 <= a → zlen i < 2 ^ 60 → 0 <= g < n → g <= max_gas → 0 <= v →
  SInv (statedb y) → wp stale (CallCode e lp r a i g v) (call_spec y g) y.
Proof.
  intros Hlp Hr Ha Hi Hg Hgm Hv Hs. unfold CallCode. apply wp_bind, wp_gets. cbn [id].
  destruct (_ && _); [apply call_spec_early; [by apply yvm_rel_refl|reflexivity|lia|auto]|].
  destruct (depth y >? CallCreateDepth); [apply call_spec_early; [by apply yvm_rel_refl|reflexivity|lia|auto]|].
  eapply wp_on_db_reads; [by apply (eo_CanTransfer _ He)|]. intros can s1 Hi1 Hx1 Hv1 Hcan.
  destruct can; cbn [negb]; [|apply call_spec_early; [by apply yvm_rel_read|done|lia|auto]].
  eapply wp_Snapshot; [by apply yvm_rel_read|done|]. intros id s2 Hc Hi2 Hv2. cbn in Hc |- *.
  eapply wp_NewContract; [exact Hc|]. intros y5 Hc5 _.
  eapply call_rest; try done; [by apply ref_Address_nonneg|by apply ref_Address_nonneg|by eexists].
Qed.

Lemma DelegateCall_ok lp n s c w a i g y :
  loop_ok lp n → ref_ok (ContractOf s c w) → 0 <= a → zlen i < 2 ^ 60 → 0 <= g < n → g <= max_gas →
  SInv (statedb y) → wp stale (DelegateCall e lp (ContractOf s c w) a i g) (call_spec y g) y.
Proof.
  intros Hlp (Hr1 & Hr2 & Hr3) Ha Hi Hg Hgm Hs. unfold DelegateCall. apply wp_bind, wp_gets. cbn [id].
  destruct (_ && _); [apply call_spec_early; [by apply yvm_rel_refl|reflexivity|lia|auto]|].
  destruct (depth y >? CallCreateDepth); [apply call_spec_early; [by apply yvm_rel_refl|reflexivity|lia|auto]|].
  eapply wp_Snapshot; [by apply yvm_rel_refl|reflexivity|]. intros id s2 Hc Hi2 Hv2.
  eapply wp_NewContract; [exact Hc|]. intros y5 Hc5 _.
  apply wp_bind. eapply wp_must; [reflexivity|]. by eapply call_rest.
Qed.

Lemma wp_bind_tail {St A B C D} F (m : M St A) (k : A → M St B) (h : B → M St C) (j : C → M St D) P Q s :
  wp F (a ← m; b ← k a; h b) P s → (∀ x s', P x s' → wp F (j x) Q s') →
  wp F (a ← m; b ← k a; x ← h b; j x) Q s.
Proof.
  unfold wp, mbind, M_bind. destruct (m s) as [a s1|]; [|done].
  destruct (k a s1) as [b s2|]; [|done]. destruct (h b s2); [|done]. intros HP HQ. exact (HQ _ _ HP).
Qed.

(** In addition, a static call changes nothing observable. *)
Lemma StaticCall_spec lp n r a i g y :
  loop_ok lp n → ref_ok r → 0 <= a → zlen i < 2 ^ 60 → 0 <= g < n → g <= max_gas → SInv (statedb y) →
  wp stale (StaticCall e lp r a i g)
    (λ res y', call_spec y g res y' ∧
       (byz e = true → view_static (sview (statedb y)) (sview (statedb y')))) y.
Proof.
  intros Hlp Hr Ha Hi Hg Hgm Hs. unfold StaticCall. apply wp_bind, wp_gets. cbn [id].
  destruct (_ && _);
    [split; [apply call_spec_early; [by apply yvm_rel_refl|reflexivity|lia|auto]|reflexivity]|].
  destruct (depth y >? CallCreateDepth);
    [split; [apply call_spec_early; [by apply yvm_rel_refl|reflexivity|lia|auto]|reflexivity]|].
  set (y1 := with_readOnly true y).
  assert (wp stale (if readOnly y then mret () else modify (with_readOnly true)) (λ _ y', y' = y1) y) as Hset.
  { unfold y1. destruct y as [? ? ro]. by destruct ro. }
  apply wp_bind. eapply wp_mono; [exact Hset|]. intros _ ? ->. clear Hset.
  assert (yvm_rel e y1 y1) as Hrefl by by apply yvm_rel_refl.
  eapply wp_Snapshot; [exact Hrefl|reflexivity|]. intros id s2 Hc Hi2 Hv2.
  eapply wp_NewContract; [exact Hc|]. intros y5 Hc5 _.
  set (c := {| CallerAddress := _ |}).
  assert (wp stale (c ← load_code c a; r ← run e lp c i; call_end id r) (call_spec y1 g) y5) as Hcall.
  { eapply call_rest; try done; [by apply ref_Address_nonneg|by exists 0]. }
  eapply wp_bind_tail; [exact Hcall|]. intros res y6 [[Hg6 Hy6] Hv6 Hgas6].
  assert (wp stale (if readOnly y then mret () else modify (with_readOnly false))
    (λ _ y', y' = with_readOnly (readOnly y) y6) y6) as Hreset.
  { destruct Hy6 as [_ _ _ Hro _]. destruct y as [? ? ro], y6 as [? ? ro6]. cbn in Hro. subst ro6.
    by destruct ro. }
  apply wp_bind. eapply wp_mono; [exact Hreset|]. intros _ ? ->. apply wp_ret.
  assert (byz e = true → view_static (sview (statedb y)) (sview (statedb y6))) as Hst.
  { intros Hb. by apply Hy6. }
  split; [|done]. split; [split; [done|]|done|done]. destruct Hy6. split; try done.
  intros Hb _. by apply Hst.
Qed.

(** ** Creation *)

Lemma UseGas_le c g ok c' :
  is_uint64 g → 0 <= Gas c <= max_gas → UseGas c g = (ok, c') → 0 <= Gas c' <= Gas c.
Proof.
  intros Hg Hc. unfold UseGas. destruct (Z.ltb_spec (Gas c) g); intros [= <- <-]; [lia|].
  cbn. destruct Hg. rewrite uint64_id; unfold is_uint64, max_gas in *; lia.
Qed.

Lemma create_end_ok y0 id y gas address r :
  in_call y0 id y → (byz e = true → readOnly y = false) → 0 <= address → gas <= max_gas →
  0 <= Gas r.2 <= gas → zlen r.1.1 < 2 ^ 62 →
  wp stale (create_end e address id r) (create_post e y0 gas) y.
Proof.
  intros Hc Hro Ha Hgm Hg Hl. destruct r as [[ret err] c]. cbn in Hg, Hl. unfold create_end. cbv zeta.
  set (max := IsEIP158 _ _ && _). apply wp_bind.
  eapply wp_mono with (Q := λ r y', in_call y0 id y' ∧ 0 <= Gas r.1 <= gas).
  - destruct (bool_decide (err = None) && negb max); [|by split].
    destruct (UseGas c _) as [ok c'] eqn:Eu. apply UseGas_le in Eu; [|apply uint64_range|lia].
    destruct ok; [|split; [done|cbn; lia]].
    eapply wp_on_db_updates; [apply SetCode_law; [apply Hc|done]|]. intros [] s' Hi Hx Hb'.
    split; [|cbn; lia]. apply in_call_write; eauto with yoc. intros Hb Hr. rewrite Hro in Hr; done.
  - intros [c' err'] y' [Hc' Hg']. cbn in Hg'. apply wp_bind.
    eapply wp_mono with (Q := λ r y2, yvm_rel e y0 y2 ∧ 0 <= Gas r <= gas).
    + destruct (max || _); [|split; [apply Hc'|done]].
      eapply wp_revert; [done|]. intros s3 Hr3 _. split; [done|].
      case_bool_decide; [rewrite UseGas_all; lia|done].
    + intros c2 y2 [Hy2 Hg2]. by split.
Qed.

Lemma yvm_rel_create y s' :
  SInv s' → sext (statedb y) s' → same_balances (sview (statedb y)) (sview s') →
  (byz e = true → readOnly y = false) → yvm_rel e y (with_statedb s' y).
Proof. intros Hi Hx Hs Hro. split; try done; [by apply same_balances_gains|]. intros Hb Hr. rewrite Hro in Hr; done. Qed.

Lemma create_post_trans y0 y gas r y' :
  yvm_rel e y0 y → create_post e y gas r y' → create_post e y0 gas r y'.
Proof. intros Hy (? & ? & ?). split; [done|]. split; [done|]. by eapply yvm_rel_trans. Qed.

(** The account is set up; the creator can still pay. *)
Lemma create_run lp n r i g v address y nr :
  loop_ok lp n → ref_ok r → 0 <= address → zlen i < 2 ^ 60 → 0 <= g < n → g <= max_gas →
  0 <= v <= v_balance (sview (statedb y)) (ref_Address r) → SInv (statedb y) →
  (byz e = true → readOnly y = false) →
  wp stale
    (snapshot ← on_db Snapshot;
     _ ← on_db (CreateAccount address);
     _ ← (if IsEIP158 (chainConfig e) (BlockNumber (ctx e)) then on_db (SetNonce address 1) else mret ());
     _ ← on_db (Transfer (ctx e) (ref_Address r) address v (BlockNumber (ctx e)));
     c ← NewContract r address (Some v) g;
     if nr : bool then mret ([], address, g, None)
     else r ← run e lp (SetCallCode c address (Keccak256Hash i) i) [];
          create_end e address snapshot r) (create_post e y g) y.
Proof.
  intros Hlp Hr Ha Hi Hg Hgm Hv Hs Hro.
  eapply wp_Snapshot; [by apply yvm_rel_refl|reflexivity|]. intros id s1 Hc1 Hi1 Hv1.
  assert (∀ y y' s', in_call y id y' → readOnly y' = readOnly y → (byz e = true → readOnly y = false) →
    SInv s' → sext (statedb y') s' → gains (sview (statedb y')) (sview s') 0 →
    in_call y id (with_statedb s' y')) as Hwrite.
  { intros ??? Hc E Hro' ???. apply in_call_write; try done. intros Hb Hr'. rewrite E, Hro' in Hr'; done. }
  eapply wp_on_db_updates; [by apply CreateAccount_law|]. intros [] s2 Hi2 Hx2 [Hb2 _]. cbn in Hx2, Hb2.
  assert (in_call y id (with_statedb s2 y)) as Hc2 by (apply (Hwrite _ (with_statedb s1 y)); eauto with yoc).
  apply wp_bind. cbn.
  eapply wp_mono with (Q := λ _ y3, ∃ s3, y3 = with_statedb s3 y ∧ in_call y id y3 ∧ SInv s3 ∧
    v_balance (sview s3) (ref_Address r) = v_balance (sview s2) (ref_Address r)).
  { destruct (IsEIP158 _ _); [|by exists s2].
    destruct (SetNonce_law s2 address 1 Hi2) as ([] & s3 & E3 & Hi3 & Hx3 & Hb3); [done|].
    apply wp_zoom. unfold wp. cbn. rewrite E3. exists s3. split; [done|]. split; [|done].
    apply (Hwrite _ (with_statedb s2 y)); eauto with yoc. }
  intros _ ? (s3 & -> & Hc3 & Hi3 & Hb3).
  eapply wp_on_db_updates; [apply (eo_Transfer _ He); [exact Hi3|]|].
  { cbn. rewrite Hb3, Hb2, <-(vs_balance _ _ (ve_static _ _ Hv1)). done. }
  intros [] s4 Hi4 Hx4 [Hg4 _]. cbn in Hx4, Hg4. eapply wp_NewContract; [by apply (Hwrite _ (with_statedb s3 y))|].
  intros y5 Hc5 _. destruct nr.
  { split; [cbn; lia|]. split; [done|apply Hc5]. }
  apply wp_bind. eapply wp_mono.
  { eapply (run_ok lp n); [done| |done|cbn; lia|apply Hc5].
    split; cbn; try done; [by apply ref_Address_nonneg|lia|lia|exists v; split; [done|lia]]. }
  intros res y6 (Hg6 & Hl6 & Hy6). eapply create_end_ok; try done.
  - by eapply in_call_step.
  - rewrite (yr_readOnly _ _ _ Hy6), (yr_readOnly _ _ _ (ic_rel _ _ _ Hc5)). done.
Qed.

Lemma create_ok lp n r i g v address y :
  loop_ok lp n → ref_ok r → 0 <= address → zlen i < 2 ^ 60 → 0 <= g < n → g <= max_gas → 0 <= v →
  SInv (statedb y) → (byz e = true → readOnly y = false) →
  wp stale (create e lp r i g v address) (create_post e y g) y.
Proof.
  intros Hlp Hr Ha Hi Hg Hgm Hv Hs Hro. unfold create. apply wp_bind, wp_gets. cbn [id].
  destruct (depth y >? CallCreateDepth); [split; [cbn; lia|]; split; [done|by apply yvm_rel_refl]|].
  eapply wp_on_db_reads; [by apply (eo_CanTransfer _ He)|]. intros can s1 Hi1 Hx1 Hv1 Hcan.
  destruct can; cbn [negb]; [|split; [cbn; lia|]; split; [done|by apply yvm_rel_read]].
  eapply wp_on_db_reads; [by apply GetNonce_law|]. intros nonce s2 Hi2 Hx2 Hv2 _.
  eapply wp_on_db_updates; [apply SetNonce_law; [exact Hi2|apply uint64_range]|].
  intros [] s3 Hi3 Hx3 Hb3.
  eapply wp_on_db_reads; [by apply GetCodeHash_law|]. intros hash s4 Hi4 Hx4 Hv4 _.
  eapply wp_on_db_reads; [by apply GetNonce_law|]. intros nonce' s5 Hi5 Hx5 Hv5 _.
  cbn in Hx2, Hx3, Hb3, Hx4, Hv4, Hx5, Hv5, Hv2 |- *.
  assert (yvm_rel e y (with_statedb s5 y)) as Hy5.
  { apply yvm_rel_create; try done; [by do 4 (etrans; [eassumption|])|].
    do 4 (etrans; [eauto with yoc|]); eauto with yoc. }
  destruct (_ || _); [split; [cbn; lia|]; split; [done|exact Hy5]|].
  eapply wp_mono; [eapply create_run; try done|intros ??; by apply create_post_trans].
  cbn. rewrite <-(vs_balance _ _ (ve_static _ _ Hv5)), <-(vs_balance _ _ (ve_static _ _ Hv4)), Hb3,
    <-(vs_balance _ _ (ve_static _ _ Hv2)), <-(vs_balance _ _ (ve_static _ _ Hv1)).
  specialize (Hcan eq_refl). lia.
Qed.

Lemma CreateAddress_nonneg a nonce : 0 <= CreateAddress a nonce.
Proof. unfold CreateAddress. rewrite BytesToAddress_mod. apply Z.mod_pos_bound. lia. Qed.

Lemma CreateAddress2_nonneg a salt code : 0 <= CreateAddress2 a salt code.
Proof. unfold CreateAddress2. rewrite BytesToAddress_mod. apply Z.mod_pos_bound. lia. Qed.

Lemma Create_ok lp n r i g v y :
  loop_ok lp n → ref_ok r → zlen i < 2 ^ 60 → 0 <= g < n → g <= max_gas → 0 <= v →
  SInv (statedb y) → (byz e = true → readOnly y = false) →
  wp stale (Create e lp r i g v) (create_post e y g) y.
Proof.
  intros Hlp Hr Hi Hg Hgm Hv Hs Hro. unfold Create.
  eapply wp_on_db_reads; [by apply GetNonce_law|]. intros nonce s1 Hi1 Hx1 Hv1 _.
  eapply wp_mono; [eapply create_ok; try done; apply CreateAddress_nonneg|].
  intros ??. apply create_post_trans. by apply yvm_rel_read.
Qed.

Lemma Create2_ok lp n r i g v salt y :
  loop_ok lp n → ref_ok r → zlen i < 2 ^ 60 → 0 <= g < n → g <= max_gas → 0 <= v →
  SInv (statedb y) → (byz e = true → readOnly y = false) →
  wp stale (Create2 e lp r i g v salt) (create_post e y g) y.
Proof. intros. eapply create_ok; try done. apply CreateAddress2_nonneg. Qed.

(** The calls of an instruction meet what the instruction needs. *)
Lemma call_ops_ok lp n B : loop_ok lp n → B <= n → B <= max_gas → ops_ok e (call_ops e lp) B.
Proof.
  intros Hlp Hn HB. split; intros; cbn.
  - eapply wp_mono; [eapply Call_ok; try done; lia|]. by intros ?? [].
  - eapply wp_mono; [eapply CallCode_ok; try done; lia|]. by intros ?? [].
  - eapply wp_mono; [eapply DelegateCall_ok; try done; lia|]. by intros ?? [].
  - eapply wp_mono; [eapply StaticCall_spec; try done; lia|]. by intros ?? [[] _].
  - eapply Create_ok; try done; lia.
  - eapply Create2_ok; try done; lia.
Qed.

(** ** The loop *)

Lemma load_abort_rel y :
  SInv (statedb y) → wp stale load_abort (λ _ y', yvm_rel e y y' ∧ statedb y' = statedb y) y.
Proof.
  intros Hs. unfold wp, load_abort. pose proof (yvm_rel_refl e y Hs) as [].
  destruct (cancel y) as [[|k]|]; (split; [by split|done]).
Qed.

(** Fuel above the gas is enough. *)
Lemma loop_good fuel : loop_ok (loop fuel e) (Z.of_nat fuel).
Proof.
  induction fuel as [|n IH]; intros f Hf Hg.
  { pose proof (co_gas _ (fo_contract _ Hf)). lia. }
  cbn [loop]. pose proof (co_gas _ (fo_contract _ Hf)) as Hcg.
  apply wp_bind, wp_zoom. eapply wp_mono; [apply load_abort_rel, Hf|].
  intros ab y' [Hy Hdb]. set (f1 := with_yvm y' f).
  assert (frame_ok f1) as Hf1 by (destruct Hf; split; try done; cbn; by rewrite Hdb).
  assert (run_rel e f f1) as Hr1 by (split; [cbn; lia|done|done]).
  destruct ab; [by split|]. apply wp_bind. eapply wp_mono.
  { eapply step_ok; [done|exact Hf1|]. eapply call_ops_ok; [exact IH|cbn; lia|apply Hcg]. }
  intros r f2 [Hr2 Hres]. pose proof (run_rel_trans _ _ _ _ Hr1 Hr2) as Hr02.
  destruct r as [r|]; [by split|]. destruct Hres as [Hf2 Hlt]. cbn in Hlt.
  eapply wp_mono; [apply IH; [done|lia]|]. intros r f3 [Hr3 Hres]. split; [|done].
  by eapply run_rel_trans.
Qed.

End Calls.
