(* ===== verification/VmTheorems.v ===== *)
(** * Theorems on the virtual machine

    The properties of [Call], [StaticCall], [Create] and the interpreter's loop,
    from the lemmas of [VmSafety] and [VmCallSafety], each with a concrete run
    that meets its hypotheses. *)
From S2P Require Import Prelude BigMath Params OpCodes VmAnalysis VmMemory VmTypes VmLaws.
From S2P Require Import VmSample VmSpec VmGas VmInstructions VmPrecompiles VmJumpTable.
From S2P Require Import VmInterp VmPrecompilesOk VmSafety VmCallSafety.

(** ** A concrete machine *)

Definition sample_config : ChainConfig :=
  {| ChainID := Some 1; HomesteadBlock := Some 0; DAOForkBlock := None; DAOForkSupport := false;
     EIP150Block := Some 0; EIP150Hash := 0; EIP155Block := Some 0; EIP158Block := Some 0;
     ByzantiumBlock := Some 0; ConstantinopleBlock := Some 0; Yochash := true; Clique := None |}.

(** Every lawful state with the transfer functions of [core/evm.go] is an
    environment the machine can rely on. *)
Lemma core_env_ok {DB} `{StateLaws DB} (c : Context DB) cfg vmcfg db :
  CanTransfer c = core_CanTransfer → Transfer c = core_Transfer →
  0 <= Origin c → 0 <= GasPrice c → 0 <= Coinbase c → (∀ n, 0 <= GetHash c n) → env_ok (NewYVM c db cfg vmcfg).1.
Proof.
  intros Ec Et Ho Hp Hcb Hh. split; try done; cbn [NewYVM fst ctx].
  - intros s a v Hs Hv. rewrite Ec. destruct (core_CanTransfer_ok s a v Hs) as (b & s' & E & Hi & Hx & Hw & ->).
    eexists _, s'. split; [exact E|]. split; [done|]. split; [done|]. split; [done|]. apply Z.leb_le.
  - intros s a a' v h Hs Hv. rewrite Et. by apply core_Transfer_ok.
Qed.

(** The context of the concrete runs *)
Definition sample_context {DB} `{StateDB DB} (number : Z) : Context DB :=
  {| CanTransfer := core_CanTransfer; Transfer := core_Transfer; GetHash := λ _, 0; Origin := 1;
     GasPrice := 0; Coinbase := 2; ctx_GasLimit := 8000000; BlockNumber := number; BlockTime := 0;
     Difficulty := 1 |}.

#[local] Existing Instance sample_crypto.

Definition sample_env : Env ref_state :=
  (NewYVM (sample_context 1) ref_empty sample_config
     {| NoRecursion := false; EnablePreimageRecording := false |}).1.

(** PUSH1 1, PUSH1 0, SSTORE, STOP: writes its storage. *)
Definition writer : list byte := zb <$> [PUSH1; 1; PUSH1; 0; SSTORE; STOP].

(** Account 112 has the code, account 1 has 100 units. *)
Definition sample_db (code : list byte) : ref_state :=
  ref_set 112 (set_code code new_account) (ref_set 1 (set_balance 100 new_account) ref_empty).

Definition sample_yvm (code : list byte) : YVM ref_state :=
  {| statedb := sample_db code; depth := 0; readOnly := false; returnData := []; callGasTemp := 0;
     jumpdests := ∅; cancel := None |}.

Lemma sample_db_ok code : zlen code < 2 ^ 62 → SInv (sample_db code).
Proof.
  intros Hc. apply ref_set_ok; [apply ref_set_ok|].
  - by repeat split; [apply map_Forall_empty|..|constructor].
  - by repeat split.
  - split; [done|]. split; [done|]. by split.
Qed.

(** ** Calls *)

Section Theorems.
Context `{StateLaws DB} `{!Crypto}.
Implicit Types (e : Env DB) (y : YVM DB).

(** C1: A call with at most 2^62 units of gas ([max_gas]), an input shorter than
    2^60 bytes and a value that is not negative, made outside the read-only mode,
    terminates: fuel above its gas is enough, whatever the code does and however
    deep it calls.  It does not panic; only an analysis memoized under the hash of
    another code can stop it.  It returns at most the gas it was given, and leaves
    the depth and the read-only mode as they were.  The bound on the gas is needed:
    with the gas a call over RPC has by default, 2^63 - 1, the precompiled modular
    exponentiation does panic ([bigModExp_panics], [Call_panics]). *)
Theorem Call_terminates e fuel caller addr input gas value y :
  env_ok e → ref_ok caller → 0 <= addr → zlen input < 2 ^ 60 → 0 <= gas <= max_gas → 0 <= value →
  SInv (statedb y) → readOnly y = false → gas < Z.of_nat fuel →
  match Call e (loop fuel e) caller addr input gas value y with
  | Done (ret, rest, err) y' =>
      0 <= rest <= gas ∧ SInv (statedb y') ∧ depth y' = depth y ∧ readOnly y' = readOnly y
  | Fault x => x = StaleAnalysis
  end.
Proof.
  intros He Hr Ha Hi Hg Hv Hs Hro Hf.
  assert (wp stale (Call e (loop fuel e) caller addr input gas value) (call_spec e y gas) y) as Hw.
  { eapply Call_ok; try done; [by apply loop_good|lia|lia|intros; congruence]. }
  unfold wp in Hw. destruct (Call _ _ _ _ _ _ _ _) as [[[ret rest] err] y'|x]; [|done].
  destruct Hw as [[Hl []] _ _]. done.
Qed.

(** C2: A call that fails, by any of the four instructions and with at most 2^62
    units of gas, leaves everything observable of the state as it was: balances,
    nonces, code, storage, suicides, refunds and logs.  Unless the callee reverted,
    the gas is gone; a call refused for its depth or for want of balance returns it. *)
Theorem failed_call_reverts e fuel caller addr input gas value y :
  env_ok e → ref_ok caller → 0 <= addr → zlen input < 2 ^ 60 → 0 <= gas <= max_gas → 0 <= value →
  SInv (statedb y) → readOnly y = false → gas < Z.of_nat fuel →
  ∀ (call : M (YVM DB) call_result),
  call ∈ [Call e (loop fuel e) caller addr input gas value;
          CallCode e (loop fuel e) caller addr input gas value;
          StaticCall e (loop fuel e) caller addr input gas] ∨
  (call = DelegateCall e (loop fuel e) caller addr input gas ∧ caller ≠ AccountRef (ref_Address caller)) →
  ∀ ret rest err y', call y = Done (ret, rest, Some err) y' →
    view_eq (sview (statedb y)) (sview (statedb y')) ∧
    (err = errExecutionReverted ∨ rest = 0 ∨ (err = ErrDepth ∨ err = ErrInsufficientBalance) ∧ rest = gas).
Proof.
  intros He Hr Ha Hi Hg Hv Hs Hro Hf call Hcall.
  assert (wp stale call (call_spec e y gas) y) as Hw.
  { pose proof (loop_good e He fuel) as Hlp. destruct Hcall as [Hin|[-> Hne]].
    - rewrite !elem_of_cons, elem_of_nil in Hin. destruct Hin as [->|[->|[->|[]]]].
      + eapply Call_ok; try done; [lia|lia|intros; congruence].
      + eapply CallCode_ok; try done; lia.
      + eapply wp_mono; [eapply StaticCall_spec; try done; lia|]. by intros ?? [].
    - destruct caller as [a|s c w]; [done|]. eapply DelegateCall_ok; try done; lia. }
  intros ret rest err y' E. unfold wp in Hw. rewrite E in Hw. destruct Hw as [_ Hview Hgas].
  split; [by eapply Hview|]. destruct (decide (err = errExecutionReverted)); [by left|right].
  by eapply Hgas.
Qed.

(** C25: From Byzantium on, a static call with at most 2^62 units of gas changes
    nothing observable but the existence of empty accounts, whatever code it runs. *)
Theorem StaticCall_static e fuel caller addr input gas y :
  env_ok e → byz e = true → ref_ok caller → 0 <= addr → zlen input < 2 ^ 60 → 0 <= gas <= max_gas →
  SInv (statedb y) → gas < Z.of_nat fuel →
  match StaticCall e (loop fuel e) caller addr input gas y with
  | Done (ret, rest, err) y' =>
      view_static (sview (statedb y)) (sview (statedb y')) ∧ 0 <= rest <= gas ∧ readOnly y' = readOnly y
  | Fault x => x = StaleAnalysis
  end.
Proof.
  intros He Hb Hr Ha Hi Hg Hs Hf. pose proof (loop_good e He fuel) as Hlp.
  pose proof (StaticCall_spec e (loop fuel e) _ caller addr input gas y Hlp Hr Ha Hi) as Hw.
  unfold wp in Hw. destruct (StaticCall _ _ _ _ _ _ _) as [[[ret rest] err] y'|x]; [|apply Hw; [lia|lia|done]].
  destruct Hw as [[[Hl []] _ _] Hst]; [lia|lia|done|]. split; [by apply Hst|done].
Qed.

(** A contract creation terminates with fuel above its gas, does not panic
    but for a stale analysis, and returns at most the gas it was given. *)
Theorem Create_terminates e fuel caller code gas value y :
  env_ok e → ref_ok caller → zlen code < 2 ^ 60 → 0 <= gas <= max_gas → 0 <= value →
  SInv (statedb y) → readOnly y = false → gas < Z.of_nat fuel →
  match Create e (loop fuel e) caller code gas value y with
  | Done (ret, address, rest, err) y' =>
      0 <= rest <= gas ∧ 0 <= address ∧ SInv (statedb y') ∧ depth y' = depth y
  | Fault x => x = StaleAnalysis
  end.
Proof.
  intros He Hr Hc Hg Hv Hs Hro Hf. pose proof (loop_good e He fuel) as Hlp.
  assert (wp stale (Create e (loop fuel e) caller code gas value) (create_post e y gas) y) as Hw.
  { eapply Create_ok; try done; lia. }
  unfold wp in Hw. destruct (Create _ _ _ _ _ _ _) as [[[[ret address] rest] err] y'|x]; [|done].
  destruct Hw as (? & ? & []). done.
Qed.

(** C26: One round of the interpreter keeps its invariant.  On a frame whose stack
    has at most 1024 words, none negative, whose memory is whole words and at most
    [max_memory] bytes, whose contract has at most 2^62 units of gas, a code
    shorter than 2^62 bytes, an input shorter than 2^60 and a value, whose program
    counter is at most 32 bytes behind the code, and whose state is lawful, the
    round neither panics, but for a stale analysis, nor runs out of fuel; when the
    loop goes on, the frame is as good and strictly less gas is left.  Without
    the bound on the gas a call to the modular exponentiation can panic. *)
Theorem step_invariant e fuel f :
  env_ok e → frame_ok f → Gas (contract f) <= Z.of_nat fuel →
  match step e (call_ops e (loop fuel e)) f with
  | Done None f' => frame_ok f' ∧ 0 <= Gas (contract f') < Gas (contract f)
  | Done (Some r) f' => 0 <= Gas (contract f') <= Gas (contract f) ∧ SInv (statedb (yvm f'))
  | Fault x => x = StaleAnalysis
  end.
Proof.
  intros He Hf Hg. pose proof (co_gas _ (fo_contract _ Hf)) as Hc.
  assert (wp stale (step e (call_ops e (loop fuel e))) (round_post e f) f) as Hw.
  { apply step_ok; [done|done|]. eapply call_ops_ok; [done|by apply loop_good|lia|lia]. }
  unfold wp in Hw. destruct (step _ _ f) as [[r|] f'|x]; [| |done].
  - destruct Hw as [[Hg' _ []] _]. done.
  - destruct Hw as [[Hg' _ _] [Hf' Hlt]]. split; [done|]. lia.
Qed.

(** C24: No call and no creation with at most 2^62 units of gas makes money:
    whatever the code does, over any set of accounts that contains those concerned
    the sum of the balances is not larger afterwards. *)
Theorem calls_make_no_money e fuel caller addr input gas value salt y :
  env_ok e → ref_ok caller → 0 <= addr → zlen input < 2 ^ 60 → 0 <= gas <= max_gas → 0 <= value →
  SInv (statedb y) → readOnly y = false → gas < Z.of_nat fuel →
  (∀ call, call ∈ [Call e (loop fuel e) caller addr input gas value;
                   CallCode e (loop fuel e) caller addr input gas value;
                   StaticCall e (loop fuel e) caller addr input gas] →
     ∀ r y', call y = Done r y' → gains (sview (statedb y)) (sview (statedb y')) 0) ∧
  (∀ create, create ∈ [Create e (loop fuel e) caller input gas value;
                       Create2 e (loop fuel e) caller input gas value salt] →
     ∀ r y', create y = Done r y' → gains (sview (statedb y)) (sview (statedb y')) 0).
Proof.
  intros He Hr Ha Hi Hg Hv Hs Hro Hf. pose proof (loop_good e He fuel) as Hlp. split.
  - intros call Hin r y' E. assert (wp stale call (call_spec e y gas) y) as Hw.
    { rewrite !elem_of_cons, elem_of_nil in Hin. destruct Hin as [->|[->|[->|[]]]].
      + eapply Call_ok; try done; [lia|lia|intros; congruence].
      + eapply CallCode_ok; try done; lia.
      + eapply wp_mono; [eapply StaticCall_spec; try done; lia|]. by intros ?? []. }
    unfold wp in Hw. rewrite E in Hw. apply (yr_gains _ _ _ (proj2 (cs_post _ _ _ _ _ Hw))).
  - intros create Hin r y' E. assert (wp stale create (create_post e y gas) y) as Hw.
    { rewrite !elem_of_cons, elem_of_nil in Hin. destruct Hin as [->|[->|[]]].
      + eapply Create_ok; try done; lia.
      + eapply Create2_ok; try done; lia. }
    unfold wp in Hw. rewrite E in Hw. destruct Hw as (_ & _ & Hy). apply Hy.
Qed.

End Theorems.

(** ** Concrete runs *)

Lemma sample_call_ok :
  env_ok sample_env ∧ ref_ok (AccountRef 1) ∧ (∀ code, zlen code < 2 ^ 62 → SInv (statedb (sample_yvm code))).
Proof. split; [by apply core_env_ok|]. split; [done|]. apply sample_db_ok. Qed.

(** The writer stores 1 at position 0 and pays 20006 units of gas. *)
Example writer_runs :
  match Call sample_env (loop 10 sample_env) (AccountRef 1) 112 [] 30000 5 (sample_yvm writer) with
  | Done r y' => r = ([], 9994, None) ∧ ra_storage (ref_get (statedb y') 112) !! 0 = Some 1 ∧
                 ra_balance (ref_get (statedb y') 112) = 5
  | Fault _ => False
  end.
Proof. by vm_compute. Qed.

Lemma Call_terminates_witness :
  match Call sample_env (loop 30001 sample_env) (AccountRef 1) 112 [] 30000 5 (sample_yvm writer) with
  | Done (ret, rest, err) y' =>
      0 <= rest <= 30000 ∧ SInv (statedb y') ∧ depth y' = 0 ∧ readOnly y' = false
  | Fault x => x = StaleAnalysis
  end.
Proof.
  destruct sample_call_ok as (He & Hr & Hs).
  apply (Call_terminates sample_env 30001 (AccountRef 1) 112 [] 30000 5 (sample_yvm writer));
    try done. by apply Hs.
Defined.

(** With the default gas of a call over RPC a call can panic. *)
Example Call_panics :
  Call sample_env (loop 1 sample_env) (AccountRef 1) 5 modexp_bomb (MaxUint64 / 2) 0 (sample_yvm []) = Fault Panic.
Proof. by vm_compute. Qed.

(** The writer, and then an invalid instruction. *)
Definition failing : list byte := zb <$> [PUSH1; 1; PUSH1; 0; SSTORE; 0xfe].

Lemma failed_call_reverts_witness :
  match Call sample_env (loop 30001 sample_env) (AccountRef 1) 112 [] 30000 0 (sample_yvm failing) with
  | Done (ret, rest, Some err) y' =>
      view_eq (sview (statedb (sample_yvm failing))) (sview (statedb y')) ∧
      (err = errExecutionReverted ∨ rest = 0 ∨ (err = ErrDepth ∨ err = ErrInsufficientBalance) ∧ rest = 30000)
  | _ => False
  end.
Proof.
  destruct sample_call_ok as (He & Hr & Hs).
  pose proof (failed_call_reverts sample_env 30001 (AccountRef 1) 112 [] 30000 0 (sample_yvm failing) He Hr
    ltac:(done) ltac:(done) ltac:(done) ltac:(done) (Hs failing ltac:(done)) eq_refl ltac:(done)
    (Call sample_env (loop 30001 sample_env) (AccountRef 1) 112 [] 30000 0)
    (or_introl (list_elem_of_here _ _))) as Hfail.
  destruct (Call _ _ _ _ _ _ _ _) as [[[ret rest] [err|]] y'|x] eqn:E;
    [exact (Hfail ret rest err y' eq_refl)|vm_compute in E; discriminate E..].
Defined.

Lemma StaticCall_static_witness :
  match StaticCall sample_env (loop 101 sample_env) (AccountRef 1) 112 [] 100 (sample_yvm writer) with
  | Done (ret, rest, err) y' =>
      view_static (sview (statedb (sample_yvm writer))) (sview (statedb y')) ∧ 0 <= rest <= 100 ∧
      readOnly y' = false
  | Fault x => x = StaleAnalysis
  end.
Proof.
  destruct sample_call_ok as (He & Hr & Hs).
  apply (StaticCall_static sample_env 101 (AccountRef 1) 112 [] 100 (sample_yvm writer)); try done. by apply Hs.
Defined.

Lemma calls_make_no_money_witness :
  match Call sample_env (loop 30001 sample_env) (AccountRef 1) 112 [] 30000 5 (sample_yvm writer) with
  | Done r y' => gains (sview (statedb (sample_yvm writer))) (sview (statedb y')) 0
  | Fault _ => False
  end.
Proof.
  destruct sample_call_ok as (He & Hr & Hs).
  assert (Hgain : ∀ r y', Call sample_env (loop 30001 sample_env) (AccountRef 1) 112 [] 30000 5 (sample_yvm writer) =
    Done r y' → gains (sview (statedb (sample_yvm writer))) (sview (statedb y')) 0).
  { refine (proj1 (calls_make_no_money sample_env 30001 (AccountRef 1) 112 [] 30000 5 0 (sample_yvm writer)
      He Hr _ _ _ _ _ eq_refl _) _ (list_elem_of_here _ _)); [done|done|done|done|by apply Hs|done]. }
  destruct (Call _ _ _ _ _ _ _ _) as [r y'|x] eqn:E; [by apply (Hgain r)|vm_compute in E; discriminate E].
Defined.

Lemma Create_terminates_witness :
  match Create sample_env (loop 101 sample_env) (AccountRef 1) writer 100 3 (sample_yvm []) with
  | Done (ret, address, rest, err) y' =>
      0 <= rest <= 100 ∧ 0 <= address ∧ SInv (statedb y') ∧ depth y' = 0
  | Fault x => x = StaleAnalysis
  end.
Proof.
  destruct sample_call_ok as (He & Hr & Hs).
  apply (Create_terminates sample_env 101 (AccountRef 1) writer 100 3 (sample_yvm [])); try done. by apply Hs.
Defined.

(** The writer's frame at its start. *)
Definition sample_frame : Frame ref_state :=
  {| pc := 0; stack := []; memory := NewMemory;
     contract := {| CallerAddress := 1; caller := AccountRef 1; self := 112; Code := writer;
                    CodeHash := 0; CodeAddr := Some 112; Input := []; Gas := 100; value := Some 0;
                    IsDelegateCall := false |};
     yvm := sample_yvm writer |}.

Lemma step_invariant_witness :
  match step sample_env (call_ops sample_env (loop 100 sample_env)) sample_frame with
  | Done None f' => frame_ok f' ∧ 0 <= Gas (contract f') < 100
  | Done (Some r) f' => 0 <= Gas (contract f') <= 100 ∧ SInv (statedb (yvm f'))
  | Fault x => x = StaleAnalysis
  end.
Proof.
  destruct sample_call_ok as (He & Hr & Hs). apply (step_invariant sample_env 100 sample_frame); [done| |done].
  split; try done; [split; try done; by exists 0|by apply Hs].
Defined.
