(* ===== verification/VmArith.v ===== *)
(** * What the arithmetic instructions compute

    The instructions work on words of 256 bits; [S256] reads a word as a two's
    complement number. *)
From S2P Require Import Prelude BigMath Params OpCodes VmAnalysis VmMemory VmTypes VmLaws.
From S2P Require Import VmSample VmInstructions VmExec.

(** ** Numbers *)

Lemma sdiv_quot x y :
  (if (Sign y =? 0) || (Sign x =? 0) then 0
   else U256 (if negb (Sign x =? Sign y) then - bigDiv (Z.abs x) (Z.abs y)
              else bigDiv (Z.abs x) (Z.abs y))) = U256 (Z.quot x y).
Proof.
  unfold Sign, bigDiv. destruct (Z.eqb_spec (Z.sgn y) 0) as [Hy|Hy].
  { replace y with 0 by lia. by rewrite Z.quot_0_r_ext. }
  destruct (Z.eqb_spec (Z.sgn x) 0) as [Hx|Hx].
  { replace x with 0 by lia. cbn [orb]. rewrite Z.quot_0_l by lia. done. }
  cbn [orb]. f_equal. rewrite (Z.quot_div x y) by lia. rewrite Z.abs_involutive.
  replace (Z.sgn (Z.abs y)) with 1 by lia.
  destruct (Z.eqb_spec (Z.sgn x) (Z.sgn y)) as [E|E]; cbn [negb].
  - rewrite E. replace (Z.sgn y * Z.sgn y) with 1 by (destruct y; simpl in *; lia). done.
  - replace (Z.sgn x * Z.sgn y) with (-1) by (destruct x, y; simpl in *; lia). lia.
Qed.

Lemma smod_rem x y :
  (if Sign y =? 0 then 0
   else U256 (if Sign x <? 0 then - bigMod (Z.abs x) (Z.abs y) else bigMod (Z.abs x) (Z.abs y))) =
  if y =? 0 then 0 else U256 (Z.rem x y).
Proof.
  unfold Sign, bigMod. destruct (Z.eqb_spec y 0) as [->|Hy]; [done|].
  destruct (Z.eqb_spec (Z.sgn y) 0); [lia|]. f_equal. rewrite (Z.rem_mod x y) by lia.
  rewrite Z.abs_involutive. destruct (Z.ltb_spec (Z.sgn x) 0).
  - replace (Z.sgn x) with (-1) by lia. lia.
  - destruct (Z.eq_dec x 0) as [->|]; [by rewrite Z.mod_0_l by lia|].
    replace (Z.sgn x) with 1 by lia. lia.
Qed.

(** Sign extension from bit [b]: the bits above [b] are copies of it. *)
Lemma sign_extend_bits num b i :
  0 <= i < 256 → 0 <= b →
  Z.testbit (U256 (if Z.testbit num b then Z.lor num (Z.lnot (Z.shiftl 1 b - 1))
                   else Z.land num (Z.shiftl 1 b - 1))) i = Z.testbit num (Z.min i b).
Proof.
  intros Hi Hb. rewrite U256_mod, Z.mod_pow2_bits_low by lia.
  replace (Z.shiftl 1 b - 1) with (Z.ones b) by (rewrite Z.ones_equiv, Z.shiftl_1_l; lia).
  destruct (Z.testbit num b) eqn:E.
  - rewrite Z.lor_spec, Z.lnot_spec by lia. destruct (Z.le_gt_cases b i).
    + rewrite Z.ones_spec_high by lia. rewrite orb_true_r, Z.min_r, E by lia. done.
    + rewrite Z.ones_spec_low by lia. rewrite orb_false_r, Z.min_l by lia. done.
  - rewrite Z.land_spec. destruct (Z.le_gt_cases b i).
    + rewrite Z.ones_spec_high, andb_false_r, Z.min_r, E by lia. done.
    + rewrite Z.ones_spec_low, andb_true_r, Z.min_l by lia. done.
Qed.

Lemma slt_signed x y :
  is_u256 x → is_u256 y →
  (if (tt255 <=? x) && (y <? tt255) then 1
   else if (x <? tt255) && (tt255 <=? y) then 0 else if x <? y then 1 else 0) =
  if S256 x <? S256 y then 1 else 0.
Proof.
  unfold is_u256, S256, tt255, tt256. change (BigPow 2 255) with (2 ^ 255). change (BigPow 2 256) with (2 ^ 256).
  intros Hx Hy.
  destruct (Z.ltb_spec x (2 ^ 255)), (Z.ltb_spec y (2 ^ 255)), (Z.leb_spec (2 ^ 255) x),
    (Z.leb_spec (2 ^ 255) y); cbn [andb]; try lia; zcases; lia.
Qed.

Lemma sgt_signed x y :
  is_u256 x → is_u256 y →
  (if (tt255 <=? x) && (y <? tt255) then 0
   else if (x <? tt255) && (tt255 <=? y) then 1 else if x >? y then 1 else 0) =
  if S256 y <? S256 x then 1 else 0.
Proof.
  unfold is_u256, S256, tt255, tt256. change (BigPow 2 255) with (2 ^ 255). change (BigPow 2 256) with (2 ^ 256).
  intros Hx Hy. rewrite Z.gtb_ltb.
  destruct (Z.ltb_spec x (2 ^ 255)), (Z.ltb_spec y (2 ^ 255)), (Z.leb_spec (2 ^ 255) x),
    (Z.leb_spec (2 ^ 255) y); cbn [andb]; try lia; zcases; lia.
Qed.

(** ** Instructions *)

Section Arith.
Context {DB : Type} `{!StateDB DB} `{!Crypto}.

(** [op] replaces the [args] on the stack by [r] and changes nothing else. *)
Definition computes (op : executionFunc DB) (args : list Z) (r : Z) : Prop :=
  ∀ e o p st m c y,
    op e o {| pc := p; stack := args ++ st; memory := m; contract := c; yvm := y |} =
    Done ([], None) {| pc := p; stack := r :: st; memory := m; contract := c; yvm := y |}.

Tactic Notation "op_start" reference(op) :=
  intros e o p st m c yv; cbn [app]; unfold op; vm_run.

Lemma computes_opDiv x y : is_u256 x → is_u256 y → computes opDiv [x; y] (if y =? 0 then 0 else x / y).
Proof.
  intros Hx Hy. op_start opDiv. unfold Sign, is_u256 in *. destruct (Z.eqb_spec y 0) as [->|Hy0]; [done|].
  destruct (Z.eqb_spec (Z.sgn y) 0); [lia|]. cbn [negb]. do 2 f_equal. f_equal. unfold bigDiv.
  rewrite (Z.abs_eq y), (Z.sgn_pos y), Z.mul_1_l by lia. apply U256_id. unfold is_u256.
  split; [apply Z.div_pos; lia|]. apply Z.div_lt_upper_bound; nia.
Qed.

Lemma computes_opMod x y : is_u256 x → is_u256 y → computes opMod [x; y] (if y =? 0 then 0 else x mod y).
Proof.
  intros Hx Hy. op_start opMod. unfold Sign, is_u256 in *. destruct (Z.eqb_spec y 0) as [->|Hy0]; [done|].
  destruct (Z.eqb_spec (Z.sgn y) 0); [lia|]. do 2 f_equal. f_equal. unfold bigMod.
  rewrite (Z.abs_eq y) by lia. apply U256_id. unfold is_u256.
  pose proof (Z.mod_pos_bound x y). lia.
Qed.

Lemma computes_opSdiv x y : computes opSdiv [x; y] (U256 (Z.quot (S256 x) (S256 y))).
Proof. op_start opSdiv. rewrite <-sdiv_quot. by destruct (_ || _). Qed.

Lemma computes_opSmod x y :
  is_u256 y → computes opSmod [x; y] (if y =? 0 then 0 else U256 (Z.rem (S256 x) (S256 y))).
Proof.
  intros Hy. op_start opSmod. assert (y =? 0 = (S256 y =? 0)) as ->.
  { unfold S256, is_u256, tt255, tt256 in *. change (BigPow 2 255) with (2 ^ 255).
    change (BigPow 2 256) with (2 ^ 256). zcases; lia. }
  rewrite <-smod_rem. by destruct (Sign (S256 y) =? 0).
Qed.

Lemma computes_opSlt x y :
  is_u256 x → is_u256 y → computes opSlt [x; y] (if S256 x <? S256 y then 1 else 0).
Proof.
  intros Hx Hy. op_start opSlt. rewrite <-slt_signed by done.
  by destruct (tt255 <=? x), (y <? tt255), (x <? tt255), (tt255 <=? y).
Qed.

Lemma computes_opSgt x y :
  is_u256 x → is_u256 y → computes opSgt [x; y] (if S256 y <? S256 x then 1 else 0).
Proof.
  intros Hx Hy. op_start opSgt. rewrite <-sgt_signed by done.
  by destruct (tt255 <=? x), (y <? tt255), (x <? tt255), (tt255 <=? y).
Qed.

Lemma modulo_word x z : 0 < z → is_u256 z → U256 (bigMod x z) = x mod z.
Proof.
  intros Hz Hu. unfold bigMod. rewrite Z.abs_eq by lia. apply U256_id.
  unfold is_u256 in *. pose proof (Z.mod_pos_bound x z). lia.
Qed.

Lemma computes_opAddmod x y z :
  is_u256 z → computes opAddmod [x; y; z] (if z =? 0 then 0 else (x + y) mod z).
Proof.
  intros Hz. op_start opAddmod. rewrite Z.gtb_ltb. destruct (Z.ltb_spec 0 z).
  - rewrite modulo_word by done. destruct (Z.eqb_spec z 0); [lia|done].
  - unfold is_u256 in Hz. destruct (Z.eqb_spec z 0); [done|lia].
Qed.

Lemma computes_opMulmod x y z :
  is_u256 z → computes opMulmod [x; y; z] (if z =? 0 then 0 else (x * y) mod z).
Proof.
  intros Hz. op_start opMulmod. rewrite Z.gtb_ltb. destruct (Z.ltb_spec 0 z).
  - rewrite modulo_word by done. destruct (Z.eqb_spec z 0); [lia|done].
  - unfold is_u256 in Hz. destruct (Z.eqb_spec z 0); [done|lia].
Qed.

(** DIV and MOD are the division of unsigned words, zero for a zero
    divisor; SDIV and SMOD truncate towards zero and SMOD takes the sign of the
    dividend; SLT and SGT compare two's complement numbers; ADDMOD and MULMOD
    reduce the full sum and product. *)
Theorem division_correct x y z :
  is_u256 x → is_u256 y → is_u256 z →
  computes opDiv [x; y] (if y =? 0 then 0 else x / y) ∧
  computes opMod [x; y] (if y =? 0 then 0 else x mod y) ∧
  computes opSdiv [x; y] (U256 (Z.quot (S256 x) (S256 y))) ∧
  computes opSmod [x; y] (if y =? 0 then 0 else U256 (Z.rem (S256 x) (S256 y))) ∧
  computes opSlt [x; y] (if S256 x <? S256 y then 1 else 0) ∧
  computes opSgt [x; y] (if S256 y <? S256 x then 1 else 0) ∧
  computes opAddmod [x; y; z] (if z =? 0 then 0 else (x + y) mod z) ∧
  computes opMulmod [x; y; z] (if z =? 0 then 0 else (x * y) mod z).
Proof.
  intros Hx Hy Hz.
  auto 10 using computes_opDiv, computes_opMod, computes_opSdiv, computes_opSmod, computes_opSlt,
    computes_opSgt, computes_opAddmod, computes_opMulmod.
Qed.

(** EXP is exponentiation modulo 2^256; BYTE picks a byte counted from the
    most significant one; SIGNEXTEND copies bit [8 * back + 7] into all higher
    bits and leaves the word alone when [back] is 31 or more. *)
Theorem word_ops_correct x y :
  is_u256 x → is_u256 y →
  computes opExp [x; y] (x ^ y mod 2 ^ 256) ∧
  computes opByte [x; y] (if x <? 32 then y / 256 ^ (31 - x) mod 256 else 0) ∧
  (31 <= x → computes opSignExtend [x; y] y) ∧
  (x < 31 → ∃ r, computes opSignExtend [x; y] r ∧ is_u256 r ∧
     ∀ i, 0 <= i < 256 → Z.testbit r i = Z.testbit y (Z.min i (8 * x + 7))).
Proof.
  intros Hx Hy. unfold is_u256 in *. repeat apply conj.
  - op_start opExp. by rewrite Exp_pow by lia.
  - op_start opByte. destruct (Z.ltb_spec x 32); [|done].
    by rewrite Int64_id, Byte_at_spec, Z.abs_eq by lia.
  - intros Hb. op_start opSignExtend. destruct (Z.ltb_spec x 31); [lia|done].
  - intros Hb. eexists. split; [|split; [apply U256_range|intros i Hi; apply sign_extend_bits; lia]].
    op_start opSignExtend. destruct (Z.ltb_spec x 31); [|lia].
    rewrite Uint64_id by (unfold is_uint64; lia). by rewrite (Z.mul_comm x).
Qed.

Lemma S256_nonzero y : is_u256 y → y ≠ 0 → S256 y ≠ 0.
Proof.
  unfold is_u256, S256, tt255, tt256. change (BigPow 2 255) with (2 ^ 255).
  change (BigPow 2 256) with (2 ^ 256). zcases; lia.
Qed.

Lemma div_word y n : is_u256 y → 0 <= n → is_u256 (y / 2 ^ n).
Proof.
  unfold is_u256. intros Hy Hn. pose proof (Z.pow_pos_nonneg 2 n). split; [apply Z.div_pos; lia|].
  apply Z.div_lt_upper_bound; nia.
Qed.

(** SHL multiplies and SHR divides by a power of two; SAR divides the two's
    complement number, rounding down, for every shift below 256, and for larger
    ones unless the word is zero. *)
Theorem shifts_correct x y :
  is_u256 x → is_u256 y →
  computes opSHL [x; y] (y * 2 ^ x mod 2 ^ 256) ∧
  computes opSHR [x; y] (y / 2 ^ x) ∧
  (x < 256 ∨ y ≠ 0 → computes opSAR [x; y] (U256 (S256 y / 2 ^ x))).
Proof.
  intros Hx Hy. repeat apply conj.
  - op_start opSHL. rewrite (U256_id x), (U256_id y) by done. unfold is_u256 in *.
    destruct (Z.leb_spec 256 x).
    + replace (y * 2 ^ x mod 2 ^ 256) with 0; [done|].
      replace x with (256 + (x - 256)) by lia. rewrite Z.pow_add_r by lia.
      rewrite (Z.mul_comm (2 ^ 256)), Z.mul_assoc. by rewrite Z.mod_mul by lia.
    + rewrite Uint64_id, Z.shiftl_mul_pow2, U256_mod by (unfold is_uint64; lia). done.
  - op_start opSHR. rewrite (U256_id x), (U256_id y) by done. unfold is_u256 in *.
    destruct (Z.leb_spec 256 x).
    + rewrite Z.div_small; [done|]. split; [lia|]. eapply Z.lt_le_trans; [apply Hy|].
      apply Z.pow_le_mono_r; lia.
    + rewrite Uint64_id, Z.shiftr_div_pow2 by (unfold is_uint64; lia).
      rewrite U256_id by (apply div_word; [done|lia]). done.
  - intros Hxy. op_start opSAR. rewrite (U256_id x) by done.
    pose proof (S256_range y Hy) as Hr. unfold is_u256 in *.
    destruct (Z.leb_spec 256 x).
    + do 3 f_equal. f_equal. unfold Sign. rewrite Z.gtb_ltb. assert (S256 y ≠ 0) by (apply S256_nonzero; [done|lia]).
      assert (2 ^ 255 <= 2 ^ x) by (apply Z.pow_le_mono_r; lia).
      destruct (Z.ltb_spec 0 (Z.sgn (S256 y))); [rewrite Z.div_small; lia|].
      apply (Z.div_unique _ _ _ (S256 y + 2 ^ x)); lia.
    + rewrite Uint64_id, Z.shiftr_div_pow2 by (unfold is_uint64; lia). done.
Qed.

(** SAR by 256 or more of the word zero gives the word of all ones; an
    arithmetic shift of zero is zero. *)
Theorem opSAR_zero shift : is_u256 shift → 256 <= shift → computes opSAR [shift; 0] (2 ^ 256 - 1).
Proof.
  intros Hs Hge. op_start opSAR. rewrite U256_id by done. by destruct (Z.leb_spec 256 shift); [|lia].
Qed.

End Arith.

#[local] Existing Instance sample_crypto.

(** -7 and 2 as words. *)
Lemma division_correct_witness :
  let x := 2 ^ 256 - 7 in
  computes (DB := ref_state) opDiv [x; 2] (x / 2) ∧ computes (DB := ref_state) opMod [x; 2] (x mod 2) ∧
  computes (DB := ref_state) opSdiv [x; 2] (2 ^ 256 - 3) ∧
  computes (DB := ref_state) opSmod [x; 2] (2 ^ 256 - 1) ∧
  computes (DB := ref_state) opSlt [x; 2] 1 ∧ computes (DB := ref_state) opSgt [x; 2] 0 ∧
  computes (DB := ref_state) opAddmod [x; 2; 10] ((x + 2) mod 10) ∧
  computes (DB := ref_state) opMulmod [x; 2; 10] ((x * 2) mod 10).
Proof. apply (division_correct (2 ^ 256 - 7) 2 10); by vm_compute. Defined.

(** 0x80 sign-extended from its lowest byte. *)
Lemma word_ops_correct_witness :
  computes (DB := ref_state) opExp [0; 0x80] (0 ^ 0x80 mod 2 ^ 256) ∧
  computes (DB := ref_state) opByte [0; 0x80] (0x80 / 256 ^ 31 mod 256) ∧
  (31 <= 0 → computes (DB := ref_state) opSignExtend [0; 0x80] 0x80) ∧
  (0 < 31 → ∃ r, computes (DB := ref_state) opSignExtend [0; 0x80] r ∧ is_u256 r ∧
     ∀ i, 0 <= i < 256 → Z.testbit r i = Z.testbit 0x80 (Z.min i (8 * 0 + 7))).
Proof. apply (word_ops_correct 0 0x80); by vm_compute. Defined.

Lemma shifts_correct_witness :
  computes (DB := ref_state) opSHL [3; 5] (5 * 2 ^ 3 mod 2 ^ 256) ∧
  computes (DB := ref_state) opSHR [3; 5] (5 / 2 ^ 3) ∧
  (3 < 256 ∨ 5 ≠ 0 → computes (DB := ref_state) opSAR [3; 5] (U256 (S256 5 / 2 ^ 3))).
Proof. apply (shifts_correct 3 5); by vm_compute. Defined.

Lemma opSAR_zero_witness : computes (DB := ref_state) opSAR [256; 0] (2 ^ 256 - 1).
Proof. apply opSAR_zero; by vm_compute. Defined.
