(* ===== verification/Nov2019.v ===== *)
(** * The November 2019 migration: [nov2019], [common.Address.Hex]

    Strings are byte strings; those handled here are ASCII.  The process
    environment is a parameter, the package variables are the record [Nov], set
    by [init].  Logging is left out. *)
From S2P Require Import Prelude BigMath Params OpCodes VmAnalysis VmMemory VmTypes VmLaws VmSample.
From Stdlib Require Strings.String.

Notation str := (list byte).

Definition s2b (s : string) : str := String.list_byte_of_string s.

(** ** encoding/hex, strings, strconv *)

Definition hex_digit (n : Z) : byte := zb (if n <? 10 then 48 + n else 87 + n).

Definition EncodeToString (src : list byte) : str :=
  mjoin ((λ b, [hex_digit (bz b / 16); hex_digit (bz b mod 16)]) <$> src).

Definition lower (b : byte) : byte := if (65 <=? bz b) && (bz b <=? 90) then zb (bz b + 32) else b.
Definition ToLower (s : str) : str := lower <$> s.

Definition HasPrefix (s prefix : str) : bool := bool_decide (take (length prefix) s = prefix).

Definition is_digit (b : byte) : bool := (48 <=? bz b) && (bz b <=? 57).

(** [strconv.ParseInt(s, 10, bits)], [None] for an error. *)
Definition ParseInt (s : str) (bits : Z) : option Z :=
  let '(neg, digits) :=
    match s with
    | c :: rest => if bz c =? 45 then (true, rest) else if bz c =? 43 then (false, rest) else (false, s)
    | [] => (false, [])
    end in
  if bool_decide (digits = []) || negb (forallb is_digit digits) then None
  else
    let n := foldl (λ acc b, acc * 10 + (bz b - 48)) 0 digits in
    if neg then if n <=? 2 ^ (bits - 1) then Some (- n) else None
    else if n <? 2 ^ (bits - 1) then Some n else None.

(** ** The constants of nov2019/types.go, yao.go, yao_retestnet.go *)

Notation TYPE_ADDRESS_WHITELIST_IF_OTHER := 9 (only parsing).
Notation TYPE_ADDRESS_BLOCK_TO_INSTANT := 10 (only parsing).
Notation TYPE_ADDRESS_BLOCK_FROM_INSTANT := 20 (only parsing).
Notation TYPE_ADDRESS_BLOCK_FROMTO_INSTANT := 30 (only parsing).
Notation nov2019Block := (s2b "0x99cea7511f103c5465a80318ad256c3a8c17cf5e") (only parsing).
Notation nov2019Black := (s2b "0x8d3239f9c3bc6f5e28a16f9550e0e2a3220d7269") (only parsing).
Notation nov2019Good := (s2b "0x30361A617FD009782d573851C55C97A90C91255f") (only parsing).
Notation nov2019RTBlock := (s2b "0x9d9b79d03d2584855d28573abd70c5f99fa1ae0c") (only parsing).
Notation nov2019RTBlack := (s2b "0x72f3fe698694988061cd92008ff177d5c774011a") (only parsing).
Notation nov2019RTGood := (s2b "0xfde53fa41cdfee341ff701a6402ca59d0c468f3d") (only parsing).
Notation envNov_noUpgrade := (s2b "NOV2019_DISABLE_UPGRADE") (only parsing).
Notation envNov_replaceHeightNotBefore := (s2b "NOV2019_AT_HEIGHT_NOT_BEFORE") (only parsing).
Notation envNov_replaceHeightNotAfter := (s2b "NOV2019_AT_HEIGHT_NOT_AFTER") (only parsing).
Notation envNov_forceAddr := (s2b "NOV2019_FORCE_ADDR") (only parsing).
Notation envNov_forceAddr1810 := (s2b "NOV2019_ADDR1810") (only parsing).
Notation envNov_enableNetUpgrade := (s2b "NOV2019_ENABLE_NET_UPGRADE") (only parsing).
Notation envNov_Addr1810Amount := (s2b "NOV2019_ADDR1810_AMOUNT") (only parsing).
Notation envNov_Addr1810Oneshot := (s2b "NOV2019_ADDR1810_ONESHOT") (only parsing).
Notation envNov_Addr1810OneshotAltAmount := (s2b "NOV2019_ADDR1810_ONESHOT_ALT") (only parsing).
Notation envNov_noNodes := (s2b "NOV2019_DISABLE_NODELIST") (only parsing).
Notation envNov_retestNet := (s2b "NOV2019_RETESTNET") (only parsing).
Notation nov_defaultHeightRangeToActivateNotBefore := 3001492 (only parsing).
Notation nov_defaultHeightRangeToActivateNotAfter := 3500000 (only parsing).
Notation twelve := 1000000000000 (only parsing).

(** ** common.Address *)

Section Hex.
Context `{!Crypto}.

Definition Hex (a : Address) : str :=
  let unchecksummed := EncodeToString (AddressBytes a) in
  let hash := Keccak256 unchecksummed in
  s2b "0x" ++
  imap (λ i c,
    let hashByte := default 0 (bz <$> hash !! (i / 2)%nat) in
    let hashByte := if Nat.even i then Z.shiftr hashByte 4 else Z.land hashByte 0xf in
    if (57 <? bz c) && (7 <? hashByte) then zb (bz c - 32) else c) unchecksummed.

(** ** nov2019/func.go, types.go, yao.go *)

Definition ezAddress (input : str) : str :=
  let s := ToLower input in
  if (length s =? 42)%nat && HasPrefix s (s2b "0x") then drop 2 s else s.

(** [Param1] and [Param2] are never read. *)
Inductive FilterRecord := mkFilter { Type_ : Z; Param3 : list (str * FilterRecord) }.

(** The package's variables. *)
Record Nov := {
  Eighteenth : Z;
  rules : list (str * FilterRecord);
  NOV2019Block : str;
  NOV2019Black : str;
  NOV2019Good : str;
  nov2019GoodGain : Z;
  nov2019BlackLoss : Z;
  flag1810oneshot : bool
}.

(** [m[k] = v] on a map kept as a list of its pairs. *)
Definition map_set {A} (k : str) (v : A) (m : list (str * A)) : list (str * A) :=
  (k, v) :: filter (λ p, p.1 ≠ k) m.

Section Migrator.
Context (Getenv : str → str).

Definition env_is_1 (name : str) : bool := bool_decide (Getenv name = s2b "1").

Definition Is2019RetestNet : bool := env_is_1 envNov_retestNet.

(** The rules are filed under the addresses before these are set. *)
Definition init : Nov :=
  let black0 := [] in
  let block0 := [] in
  let rules := map_set block0 (mkFilter TYPE_ADDRESS_BLOCK_FROMTO_INSTANT [])
                 (map_set black0 (mkFilter TYPE_ADDRESS_BLOCK_FROMTO_INSTANT []) []) in
  {| Eighteenth := twelve * 1000000; rules := rules;
     NOV2019Block := if Is2019RetestNet then nov2019RTBlock else nov2019Block;
     NOV2019Black := if Is2019RetestNet then nov2019RTBlack else nov2019Black;
     NOV2019Good := if Is2019RetestNet then nov2019RTGood else nov2019Good;
     nov2019GoodGain := 57345555995695 * twelve; nov2019BlackLoss := 0;
     flag1810oneshot := false |}.

(** ** nov2019/migrator.go *)

Implicit Types mgr : Nov.

(** An environment variable that replaces a number. *)
Definition env_number (name : str) (bits default_ : Z) : Z :=
  let env := Getenv name in
  if bool_decide (env ≠ []) then default default_ (ParseInt env bits) else default_.

Definition IfOnSuitableHeight mgr (height : Z) (addr : Address) : bool :=
  let checkRangeNotBefore :=
    env_number envNov_replaceHeightNotBefore 32 nov_defaultHeightRangeToActivateNotBefore in
  let checkRangeNotAfter :=
    env_number envNov_replaceHeightNotAfter 32 nov_defaultHeightRangeToActivateNotAfter in
  if height <? checkRangeNotBefore then false
  else if bool_decide (Hex addr ≠ []) &&
          bool_decide (ezAddress (Hex addr) = ezAddress (NOV2019Black mgr)) ||
          bool_decide (ezAddress (Hex addr) = ezAddress (NOV2019Block mgr)) then true
  else if height >? checkRangeNotAfter then false
  else true.

Definition star : str := s2b "*".

(** The inner loop: an exception for the other address. *)
Definition whitelisted (to : str) (v : FilterRecord) : bool :=
  existsb (λ '(kk, vv),
    (bool_decide (to = star) || bool_decide (kk = star) || bool_decide (ezAddress kk = ezAddress to)) &&
    (Type_ vv =? TYPE_ADDRESS_WHITELIST_IF_OTHER)) (Param3 v).

Fixpoint IfFilteringCriteria_loop (rules : list (str * FilterRecord)) (from to : str) : bool :=
  match rules with
  | [] => false
  | (k, v) :: rules =>
      if (bool_decide (ezAddress from = ezAddress k) || bool_decide (from = star)) &&
         ((Type_ v =? TYPE_ADDRESS_BLOCK_FROM_INSTANT) || (Type_ v =? TYPE_ADDRESS_BLOCK_FROMTO_INSTANT))
      then negb (whitelisted to v)
      else if (bool_decide (ezAddress to = ezAddress k) || bool_decide (to = star)) &&
              ((Type_ v =? TYPE_ADDRESS_BLOCK_TO_INSTANT) || (Type_ v =? TYPE_ADDRESS_BLOCK_FROMTO_INSTANT))
      then negb (whitelisted to v)
      else IfFilteringCriteria_loop rules from to
  end.

Definition IfFilteringCriteria mgr (from to : str) : bool := IfFilteringCriteria_loop (rules mgr) from to.

(** Whether the criteria apply, the amount, and whether there is an error. *)
Definition IfApplicableCriteria mgr (addr : Address) : bool * option Z * bool :=
  let addrParsed := ezAddress (Hex addr) in
  if env_is_1 envNov_noUpgrade then (false, None, true)
  else if bool_decide (addrParsed = ezAddress (NOV2019Black mgr)) then (true, Some (nov2019BlackLoss mgr), false)
  else if bool_decide (addrParsed = ezAddress (NOV2019Good mgr)) then (true, Some (nov2019GoodGain mgr), false)
  else (false, None, false).

Definition If1810Oneshot mgr : bool * option Z :=
  if negb (env_is_1 envNov_Addr1810Oneshot) then (false, None)
  else if flag1810oneshot mgr then (false, None)
  else
    let env := Getenv envNov_Addr1810OneshotAltAmount in
    let osAmount :=
      if bool_decide (env ≠ []) then
        match ParseInt env 64 with
        | Some val => if negb (val =? 0) then val * Eighteenth mgr else nov2019GoodGain mgr
        | None => nov2019GoodGain mgr
        end
      else nov2019GoodGain mgr in
    (true, Some osAmount).

Definition oneShotDone mgr : Nov :=
  {| Eighteenth := Eighteenth mgr; rules := rules mgr; NOV2019Block := NOV2019Block mgr;
     NOV2019Black := NOV2019Black mgr; NOV2019Good := NOV2019Good mgr;
     nov2019GoodGain := nov2019GoodGain mgr; nov2019BlackLoss := nov2019BlackLoss mgr;
     flag1810oneshot := true |}.

Definition IsForcingMinerAddrBug : bool := env_is_1 envNov_forceAddr.

Definition Is1810 mgr (addr : Address) : bool :=
  env_is_1 envNov_forceAddr1810 && bool_decide (ezAddress (Hex addr) = ezAddress (NOV2019Good mgr)).

(** The amount, and whether the one-shot must be confirmed. *)
Definition Get1810 mgr : Z * bool :=
  let amount := env_number envNov_Addr1810Amount 32 1000 in
  let '(is1Shot, amount1Shot) := If1810Oneshot mgr in
  if (is1Shot : bool) then (default 0 amount1Shot, true) else (Eighteenth mgr * amount, false).

Definition IsNetUpgradeToIncompatible : bool := env_is_1 envNov_enableNetUpgrade.
Definition IsNoNodes : bool := env_is_1 envNov_noNodes || Is2019RetestNet.

End Migrator.
End Hex.

(** ** Addresses as strings *)

Definition is_address (a : Z) : Prop := 0 <= a < 2 ^ 160.

(** The characters hex digits are written with. *)
Definition hex_char (b : byte) : Prop := 48 <= bz b <= 57 ∨ 97 <= bz b <= 102.

Lemma hex_digit_char n : 0 <= n < 16 → hex_char (hex_digit n).
Proof. intros Hn. unfold hex_char, hex_digit. zcases; rewrite bz_zb, Z.mod_small by lia; lia. Qed.

Lemma hex_digit_inj n m : 0 <= n < 16 → 0 <= m < 16 → hex_digit n = hex_digit m → n = m.
Proof.
  intros Hn Hm E. apply (f_equal bz) in E. unfold hex_digit in E.
  zcases_in E; rewrite !bz_zb, !Z.mod_small in E by lia; lia.
Qed.

Lemma EncodeToString_cons b l :
  EncodeToString (b :: l) = hex_digit (bz b / 16) :: hex_digit (bz b mod 16) :: EncodeToString l.
Proof. done. Qed.

Lemma nibbles b : 0 <= bz b / 16 < 16 ∧ 0 <= bz b mod 16 < 16.
Proof.
  pose proof (bz_range b). split; [|apply Z.mod_pos_bound; lia].
  split; [apply Z.div_pos; lia|apply Z.div_lt_upper_bound; lia].
Qed.

Lemma EncodeToString_chars l : Forall hex_char (EncodeToString l).
Proof.
  induction l as [|b l IH]; [constructor|]. rewrite EncodeToString_cons. pose proof (nibbles b) as [? ?].
  apply Forall_cons_2; [|apply Forall_cons_2; [|exact IH]]; by apply hex_digit_char.
Qed.

Lemma length_EncodeToString l : length (EncodeToString l) = (2 * length l)%nat.
Proof. induction l as [|b l IH]; [done|]. rewrite EncodeToString_cons. cbn [length]. rewrite IH. lia. Qed.

Lemma EncodeToString_inj l l' : EncodeToString l = EncodeToString l' → l = l'.
Proof.
  revert l'. induction l as [|b l IH]; intros [|b' l'] E; try done.
  rewrite !EncodeToString_cons in E. injection E as E1 E2 E3.
  pose proof (nibbles b) as [? ?]. pose proof (nibbles b') as [? ?].
  apply hex_digit_inj in E1; [|done..]. apply hex_digit_inj in E2; [|done..].
  f_equal; [|by apply IH]. apply bz_inj.
  rewrite (Z.div_mod (bz b) 16), (Z.div_mod (bz b') 16) by lia. congruence.
Qed.

Lemma lower_hex c : hex_char c → lower c = c.
Proof. unfold hex_char, lower. intros Hc. zcases; [|done..]. lia. Qed.

Lemma lower_upper c : hex_char c → 57 < bz c → lower (zb (bz c - 32)) = c.
Proof.
  unfold hex_char, lower. intros Hc H9. rewrite bz_zb, Z.mod_small by lia.
  replace ((65 <=? bz c - 32) && (bz c - 32 <=? 90)) with true by (symmetry; zcases; lia).
  replace (bz c - 32 + 32) with (bz c) by lia. apply zb_bz.
Qed.

Section Addresses.
Context `{!Crypto}.

(** The checksum's capitals do not matter. *)
Lemma ToLower_Hex a : ToLower (Hex a) = s2b "0x" ++ EncodeToString (AddressBytes a).
Proof.
  unfold Hex, ToLower. cbv zeta. rewrite fmap_app. f_equal.
  pose proof (EncodeToString_chars (AddressBytes a)) as Hu. set (u := EncodeToString (AddressBytes a)) in *.
  apply list_eq. intros i. rewrite list_lookup_fmap, list_lookup_imap.
  destruct (u !! i) as [c|] eqn:Ec; [|done]. cbn [fmap option_fmap option_map]. f_equal.
  pose proof (proj1 (Forall_lookup _ _) Hu _ _ Ec) as Hc.
  destruct (Z.ltb_spec 57 (bz c)); cbn [andb]; [|by apply lower_hex].
  destruct (7 <? _); [by apply lower_upper|by apply lower_hex].
Qed.

Lemma length_address_hex a : length (EncodeToString (AddressBytes a)) = 40%nat.
Proof. rewrite length_EncodeToString. unfold AddressBytes. by rewrite length_be_bytes. Qed.

Lemma ezAddress_Hex a : ezAddress (Hex a) = EncodeToString (AddressBytes a).
Proof.
  unfold ezAddress. rewrite ToLower_Hex, length_app, length_address_hex. done.
Qed.

Lemma Hex_inj a b : is_address a → is_address b → ezAddress (Hex a) = ezAddress (Hex b) → a = b.
Proof.
  intros Ha Hb. rewrite !ezAddress_Hex. intros E%EncodeToString_inj.
  apply (f_equal SetBytes) in E. unfold AddressBytes in E. rewrite !SetBytes_be_bytes in E.
  change (256 ^ Z.of_nat AddressLength) with (2 ^ 160) in E.
  unfold is_address in *. by rewrite !Z.mod_small in E by lia.
Qed.

(** A configured address written in hexadecimal. *)
Lemma ezAddress_const s v a :
  is_address a → is_address v → ezAddress s = EncodeToString (AddressBytes v) →
  bool_decide (ezAddress (Hex a) = ezAddress s) = (a =? v).
Proof.
  intros Ha Hv ->. rewrite <-ezAddress_Hex.
  destruct (Z.eqb_spec a v) as [->|Hne]; [by apply bool_decide_eq_true|].
  apply bool_decide_eq_false. intros E. by apply Hex_inj in E.
Qed.

Definition black_address : Z := 0x8d3239f9c3bc6f5e28a16f9550e0e2a3220d7269.
Definition block_address : Z := 0x99cea7511f103c5465a80318ad256c3a8c17cf5e.
Definition good_address : Z := 0x30361A617FD009782d573851C55C97A90C91255f.

Lemma IfApplicableCriteria_two Getenv a :
  is_address a → Getenv envNov_retestNet ≠ s2b "1" →
  (IfApplicableCriteria Getenv (init Getenv) a).1.1 =
  negb (bool_decide (Getenv envNov_noUpgrade = s2b "1")) && ((a =? black_address) || (a =? good_address)).
Proof.
  intros Ha Hr. unfold IfApplicableCriteria, init, Is2019RetestNet, env_is_1.
  rewrite (bool_decide_eq_false_2 (Getenv envNov_retestNet = _)) by done. cbn [NOV2019Black NOV2019Good].
  rewrite (ezAddress_const nov2019Black black_address) by done.
  rewrite (ezAddress_const nov2019Good good_address) by done.
  destruct (bool_decide _); [done|]. destruct (a =? black_address), (a =? good_address); done.
Qed.

(** On the main network the criteria apply to exactly two addresses, unless
    the upgrade is disabled in the environment. *)
Theorem IfApplicableCriteria_main Getenv a :
  is_address a → Getenv envNov_retestNet ≠ s2b "1" →
  (IfApplicableCriteria Getenv (init Getenv) a).1.1 =
  negb (bool_decide (Getenv envNov_noUpgrade = s2b "1")) && ((a =? black_address) || (a =? good_address)).
Proof. apply IfApplicableCriteria_two. Qed.

(** The filter of the migration blocks no transfer between two addresses,
    in any environment: its rules are filed under the empty string, before the
    addresses to be blocked are set. *)
Theorem IfFilteringCriteria_never Getenv a b :
  IfFilteringCriteria (init Getenv) (Hex a) (Hex b) = false.
Proof.
  assert (∀ c, bool_decide (ezAddress (Hex c) = ezAddress []) || bool_decide (Hex c = star) = false) as Hno.
  { intros c. rewrite ezAddress_Hex. apply orb_false_iff. split; apply bool_decide_eq_false; intros E.
    - apply (f_equal length) in E. by rewrite length_address_hex in E.
    - unfold Hex in E. by apply (f_equal length) in E. }
  unfold IfFilteringCriteria. cbn -[ezAddress Hex star]. by rewrite !Hno.
Qed.

End Addresses.

Lemma IfApplicableCriteria_main_witness :
  (@IfApplicableCriteria sample_crypto (λ _, []) (init (λ _, [])) black_address).1.1 =
  negb (bool_decide ([] = s2b "1")) && ((black_address =? black_address) || (black_address =? good_address)).
Proof. apply (@IfApplicableCriteria_main sample_crypto (λ _, []) black_address); by vm_compute. Defined.
