(* ===== verification/StateDb.v ===== *)
(** * The journalled state: [core/state/statedb.go], [state_object.go], [journal.go]

    A live object is identified by its address: the pointer the source passes
    around is the entry of [stateObjects] under that address.  The database and
    its tries are the interface [Database] of [core/state/database.go]; the
    decoder of accounts is one of its functions.  Integers behind pointers are
    never changed in place by this code and are plain values here. *)
From S2P Require Import Prelude BigMath Params OpCodes VmAnalysis VmMemory Rlp VmTypes.
From S2P Require Import VmLaws VmSample Nov2019.

(** [Account{}] after [newObject]: a nil balance and a nil code hash are replaced. *)
Record Account := {
  Nonce : Z;
  Balance : Z;
  Root : Hash;
  CodeHash : list byte
}.

Class Database := {
  Trie : Type;
  DbError : Type;
  OpenTrie : Hash → Trie + DbError;
  OpenStorageTrie : Hash → Hash → Trie + DbError;
  CopyTrie : Trie → Trie;
  ContractCode : Hash → Hash → list byte * option DbError;
  ContractCodeSize : Hash → Hash → Z * option DbError;
  TryGet : Trie → list byte → list byte * option DbError;
  TryUpdate : Trie → list byte → list byte → Trie * option DbError;
  TryDelete : Trie → list byte → Trie * option DbError;
  TrieHash : Trie → Hash;
  (** [rlp.DecodeBytes(enc, &data)] *)
  DecodeAccount : list byte → option Account;
  (** Errors the state makes itself. *)
  errStorageTrie : DbError → DbError;
  errLoadCode : DbError → DbError;
  errSplit : Rlp.rlp_error → DbError
}.

(** [sort.Search(n, f)]: binary search for the first index where [f] holds. *)
Fixpoint Search_loop (fuel i j : nat) (f : nat → bool) : nat :=
  match fuel with
  | O => i
  | S fuel =>
      if (i <? j)%nat then
        let h := ((i + j) / 2)%nat in
        if f h then Search_loop fuel i h f else Search_loop fuel (S h) j f
      else i
  end.

Definition Search (n : nat) (f : nat → bool) : nat := Search_loop n 0 n f.

(** [bytes.TrimLeft(l, "\x00")] *)
Fixpoint TrimLeft0 (l : list byte) : list byte :=
  match l with
  | b :: l' => if bz b =? 0 then TrimLeft0 l' else l
  | [] => []
  end.

Module State.

Section State.
Context `{!Crypto} `{!Database}.

Notation Storage := (gmap Hash Hash).

(** ** state_object.go *)

Record stateObject := {
  address : Address;
  addrHash : Hash;
  data : Account;
  so_dbErr : option DbError;
  so_trie : option Trie;
  code : option (list byte);
  cachedStorage : Storage;
  dirtyStorage : Storage;
  dirtyCode : bool;
  suicided : bool;
  deleted : bool
}.

Definition emptyCodeHash : list byte := Keccak256 [].

Definition emptyAccount : Account :=
  {| Nonce := 0; Balance := 0; Root := 0; CodeHash := emptyCodeHash |}.

Definition newObject (a : Address) (d : Account) : stateObject :=
  {| address := a; addrHash := Keccak256Hash (AddressBytes a); data := d; so_dbErr := None;
     so_trie := None; code := None; cachedStorage := ∅; dirtyStorage := ∅; dirtyCode := false;
     suicided := false; deleted := false |}.

Implicit Types c : stateObject.

Definition with_data (d : Account) c : stateObject :=
  {| address := address c; addrHash := addrHash c; data := d; so_dbErr := so_dbErr c;
     so_trie := so_trie c; code := code c; cachedStorage := cachedStorage c;
     dirtyStorage := dirtyStorage c; dirtyCode := dirtyCode c; suicided := suicided c;
     deleted := deleted c |}.
Definition with_so_trie (t : Trie) c : stateObject :=
  {| address := address c; addrHash := addrHash c; data := data c; so_dbErr := so_dbErr c;
     so_trie := Some t; code := code c; cachedStorage := cachedStorage c;
     dirtyStorage := dirtyStorage c; dirtyCode := dirtyCode c; suicided := suicided c;
     deleted := deleted c |}.
Definition with_storage (cached dirty : Storage) c : stateObject :=
  {| address := address c; addrHash := addrHash c; data := data c; so_dbErr := so_dbErr c;
     so_trie := so_trie c; code := code c; cachedStorage := cached;
     dirtyStorage := dirty; dirtyCode := dirtyCode c; suicided := suicided c;
     deleted := deleted c |}.
Definition with_code (cd : option (list byte)) (dirty : bool) c : stateObject :=
  {| address := address c; addrHash := addrHash c; data := data c; so_dbErr := so_dbErr c;
     so_trie := so_trie c; code := cd; cachedStorage := cachedStorage c;
     dirtyStorage := dirtyStorage c; dirtyCode := dirty; suicided := suicided c;
     deleted := deleted c |}.
Definition with_flags (sui del : bool) c : stateObject :=
  {| address := address c; addrHash := addrHash c; data := data c; so_dbErr := so_dbErr c;
     so_trie := so_trie c; code := code c; cachedStorage := cachedStorage c;
     dirtyStorage := dirtyStorage c; dirtyCode := dirtyCode c; suicided := sui;
     deleted := del |}.

Definition so_setError (err : option DbError) c : stateObject :=
  {| address := address c; addrHash := addrHash c; data := data c;
     so_dbErr := match so_dbErr c with None => err | e => e end;
     so_trie := so_trie c; code := code c; cachedStorage := cachedStorage c;
     dirtyStorage := dirtyStorage c; dirtyCode := dirtyCode c; suicided := suicided c;
     deleted := deleted c |}.

Definition empty c : bool :=
  (Nonce (data c) =? 0) && (Sign (Balance (data c)) =? 0) &&
  bool_decide (CodeHash (data c) = emptyCodeHash).

Definition markSuicided c : stateObject := with_flags true (deleted c) c.

(** The storage trie and the object that keeps it; [None] for a nil trie. *)
Definition getTrie c : option (Trie * stateObject) :=
  match so_trie c with
  | Some t => Some (t, c)
  | None =>
      match OpenStorageTrie (addrHash c) (Root (data c)) with
      | inl t => Some (t, with_so_trie t c)
      | inr err =>
          match OpenStorageTrie (addrHash c) 0 with
          | inl t => Some (t, so_setError (Some (errStorageTrie err)) (with_so_trie t c))
          | inr _ => None
          end
      end
  end.

Definition so_GetState (key : Hash) c : option (Hash * stateObject) :=
  match cachedStorage c !! key with
  | Some value => Some (value, c)
  | None =>
      '(t, c) ← getTrie c;
      let '(enc, err) := TryGet t (HashBytes key) in
      match err with
      | Some err => Some (0, so_setError (Some err) c)
      | None =>
          let '(value, c) :=
            if bool_decide (enc = []) then (0, c)
            else
              match Rlp.Split enc with
              | inl (_, content, _) => (BytesToHash content, c)
              | inr err => (0, so_setError (Some (errSplit err)) c)
              end in
          Some (value, with_storage (<[key := value]> (cachedStorage c)) (dirtyStorage c) c)
      end
  end.

Definition setState (key value : Hash) c : stateObject :=
  with_storage (<[key := value]> (cachedStorage c)) (<[key := value]> (dirtyStorage c)) c.

Definition setBalance (amount : Z) c : stateObject :=
  with_data {| Nonce := Nonce (data c); Balance := amount; Root := Root (data c);
               CodeHash := CodeHash (data c) |} c.

Definition setNonce (nonce : Z) c : stateObject :=
  with_data {| Nonce := nonce; Balance := Balance (data c); Root := Root (data c);
               CodeHash := CodeHash (data c) |} c.

Definition setCode (codeHash : Hash) (cd : option (list byte)) c : stateObject :=
  with_code cd true
    (with_data {| Nonce := Nonce (data c); Balance := Balance (data c); Root := Root (data c);
                  CodeHash := HashBytes codeHash |} c).

(** The code, nil for an account without, and the object that caches it. *)
Definition so_Code c : option (list byte) * stateObject :=
  match code c with
  | Some cd => (Some cd, c)
  | None =>
      if bool_decide (CodeHash (data c) = emptyCodeHash) then (None, c)
      else
        let '(cd, err) := ContractCode (addrHash c) (BytesToHash (CodeHash (data c))) in
        let c := match err with
                 | Some err => so_setError (Some (errLoadCode err)) c
                 | None => c
                 end in
        let cd := if bool_decide (cd = []) then None else Some cd in
        (cd, with_code cd (dirtyCode c) c)
  end.

(** ** journal.go: entries *)

Inductive journalEntry :=
  | createObjectChange (account : Address)
  | resetObjectChange (prev : stateObject)
  | suicideChange (account : Address) (prev : bool) (prevbalance : Z)
  | balanceChange (account : Address) (prev : Z)
  | nonceChange (account : Address) (prev : Z)
  | storageChange (account : Address) (key prevalue : Hash)
  | codeChange (account : Address) (prevcode : option (list byte)) (prevhash : list byte)
  | refundChange (prev : Z)
  | addLogChange (txhash : Hash)
  | addPreimageChange (hash : Hash)
  | touchChange (account : Address).

Definition dirtied (ch : journalEntry) : option Address :=
  match ch with
  | createObjectChange a | suicideChange a _ _ | balanceChange a _ | nonceChange a _
  | storageChange a _ _ | codeChange a _ _ | touchChange a => Some a
  | resetObjectChange _ | refundChange _ | addLogChange _ | addPreimageChange _ => None
  end.

Record journal := { entries : list journalEntry; dirties : gmap Address Z }.

Definition newJournal : journal := {| entries := []; dirties := ∅ |}.

(** [j.dirties[addr]++] *)
Definition dirty (a : Address) (j : journal) : journal :=
  {| entries := entries j; dirties := <[a := default 0 (dirties j !! a) + 1]> (dirties j) |}.

Definition append (ch : journalEntry) (j : journal) : journal :=
  let j := {| entries := entries j ++ [ch]; dirties := dirties j |} in
  match dirtied ch with
  | Some a => dirty a j
  | None => j
  end.

(** [j.dirties[addr]--], and the count is dropped at zero. *)
Definition undirty (a : Address) (j : journal) : journal :=
  let n := default 0 (dirties j !! a) - 1 in
  {| entries := entries j;
     dirties := if n =? 0 then delete a (dirties j) else <[a := n]> (dirties j) |}.

(** ** statedb.go *)

Record stored_log := {
  sl_log : Log;
  TxHash : Hash;
  BlockHash : Hash;
  TxIndex : Z;
  Index : Z
}.

Record revision := { id : Z; journalIndex : nat }.

Record stateDB := {
  trie : Trie;
  stateObjects : gmap Address stateObject;
  stateObjectsDirty : gset Address;
  dbErr : option DbError;
  refund : Z;
  thash : Hash;
  bhash : Hash;
  txIndex : Z;
  logs : gmap Hash (list stored_log);
  logSize : Z;
  preimages : gmap Hash (list byte);
  jrnl : journal;
  validRevisions : list revision;
  nextRevisionId : Z
}.

(** The objects' fields of the whole state, one at a time. *)
Definition with_objects (m : gmap Address stateObject) (s : stateDB) : stateDB :=
  {| trie := trie s; stateObjects := m; stateObjectsDirty := stateObjectsDirty s; dbErr := dbErr
     s; refund := refund s; thash := thash s; bhash := bhash s; txIndex := txIndex s; logs :=
     logs s; logSize := logSize s; preimages := preimages s; jrnl := jrnl s; validRevisions :=
     validRevisions s; nextRevisionId := nextRevisionId s |}.
Definition with_dirty (d : gset Address) (s : stateDB) : stateDB :=
  {| trie := trie s; stateObjects := stateObjects s; stateObjectsDirty := d; dbErr := dbErr s;
     refund := refund s; thash := thash s; bhash := bhash s; txIndex := txIndex s; logs := logs
     s; logSize := logSize s; preimages := preimages s; jrnl := jrnl s; validRevisions :=
     validRevisions s; nextRevisionId := nextRevisionId s |}.
Definition with_trie (t : Trie) (s : stateDB) : stateDB :=
  {| trie := t; stateObjects := stateObjects s; stateObjectsDirty := stateObjectsDirty s; dbErr
     := dbErr s; refund := refund s; thash := thash s; bhash := bhash s; txIndex := txIndex s;
     logs := logs s; logSize := logSize s; preimages := preimages s; jrnl := jrnl s;
     validRevisions := validRevisions s; nextRevisionId := nextRevisionId s |}.
Definition with_refund (r : Z) (s : stateDB) : stateDB :=
  {| trie := trie s; stateObjects := stateObjects s; stateObjectsDirty := stateObjectsDirty s;
     dbErr := dbErr s; refund := r; thash := thash s; bhash := bhash s; txIndex := txIndex s;
     logs := logs s; logSize := logSize s; preimages := preimages s; jrnl := jrnl s;
     validRevisions := validRevisions s; nextRevisionId := nextRevisionId s |}.
Definition with_logs (l : gmap Hash (list stored_log)) (n : Z) (s : stateDB) : stateDB :=
  {| trie := trie s; stateObjects := stateObjects s; stateObjectsDirty := stateObjectsDirty s;
     dbErr := dbErr s; refund := refund s; thash := thash s; bhash := bhash s; txIndex := txIndex
     s; logs := l; logSize := n; preimages := preimages s; jrnl := jrnl s; validRevisions :=
     validRevisions s; nextRevisionId := nextRevisionId s |}.
Definition with_preimages (p : gmap Hash (list byte)) (s : stateDB) : stateDB :=
  {| trie := trie s; stateObjects := stateObjects s; stateObjectsDirty := stateObjectsDirty s;
     dbErr := dbErr s; refund := refund s; thash := thash s; bhash := bhash s; txIndex := txIndex
     s; logs := logs s; logSize := logSize s; preimages := p; jrnl := jrnl s; validRevisions :=
     validRevisions s; nextRevisionId := nextRevisionId s |}.
Definition with_jrnl (j : journal) (s : stateDB) : stateDB :=
  {| trie := trie s; stateObjects := stateObjects s; stateObjectsDirty := stateObjectsDirty s;
     dbErr := dbErr s; refund := refund s; thash := thash s; bhash := bhash s; txIndex := txIndex
     s; logs := logs s; logSize := logSize s; preimages := preimages s; jrnl := j; validRevisions
     := validRevisions s; nextRevisionId := nextRevisionId s |}.
Definition with_revisions (r : list revision) (n : Z) (s : stateDB) : stateDB :=
  {| trie := trie s; stateObjects := stateObjects s; stateObjectsDirty := stateObjectsDirty s;
     dbErr := dbErr s; refund := refund s; thash := thash s; bhash := bhash s; txIndex := txIndex
     s; logs := logs s; logSize := logSize s; preimages := preimages s; jrnl := jrnl s;
     validRevisions := r; nextRevisionId := n |}.
Definition with_tx (th bh : Hash) (ti : Z) (s : stateDB) : stateDB :=
  {| trie := trie s; stateObjects := stateObjects s; stateObjectsDirty := stateObjectsDirty s;
     dbErr := dbErr s; refund := refund s; thash := th; bhash := bh; txIndex := ti; logs := logs
     s; logSize := logSize s; preimages := preimages s; jrnl := jrnl s; validRevisions :=
     validRevisions s; nextRevisionId := nextRevisionId s |}.
Definition setError (err : option DbError) (s : stateDB) : stateDB :=
  {| trie := trie s; stateObjects := stateObjects s; stateObjectsDirty := stateObjectsDirty s;
     dbErr := match dbErr s with None => err | e => e end; refund := refund s; thash := thash s;
     bhash := bhash s; txIndex := txIndex s; logs := logs s; logSize := logSize s; preimages :=
     preimages s; jrnl := jrnl s; validRevisions := validRevisions s; nextRevisionId :=
     nextRevisionId s |}.

Notation SM := (M stateDB).

Definition journal_append (ch : journalEntry) : SM () := modify (λ s, with_jrnl (append ch (jrnl s)) s).

Definition setStateObject (object : stateObject) : SM () :=
  modify (λ s, with_objects (<[address object := object]> (stateObjects s)) s).

Definition getStateObject (addr : Address) : SM (option stateObject) := λ s,
  match stateObjects s !! addr with
  | Some obj => if deleted obj then Done None s else Done (Some obj) s
  | None =>
      let '(enc, err) := TryGet (trie s) (AddressBytes addr) in
      if bool_decide (enc = []) then Done None (setError err s)
      else
        match DecodeAccount enc with
        | None => Done None s
        | Some data => let obj := newObject addr data in (_ ← setStateObject obj; mret (Some obj)) s
        end
  end.

Definition createObject (addr : Address) : SM (stateObject * option stateObject) :=
  prev ← getStateObject addr;
  let newobj := setNonce 0 (newObject addr emptyAccount) in
  _ ← journal_append (match prev with
                      | None => createObjectChange addr
                      | Some prev => resetObjectChange prev
                      end);
  _ ← setStateObject newobj;
  mret (newobj, prev).

Definition GetOrNewStateObject (addr : Address) : SM stateObject :=
  so ← getStateObject addr;
  match so with
  | Some so => if deleted so then r ← createObject addr; mret r.1 else mret so
  | None => r ← createObject addr; mret r.1
  end.

(** *** Reading *)

Definition Exist (addr : Address) : SM bool := so ← getStateObject addr; mret (bool_decide (is_Some so)).

Definition Empty (addr : Address) : SM bool :=
  so ← getStateObject addr;
  mret (match so with None => true | Some so => empty so end).

Definition GetBalance (addr : Address) : SM Z :=
  so ← getStateObject addr;
  mret (match so with None => 0 | Some so => Balance (data so) end).

Definition GetNonce (addr : Address) : SM Z :=
  so ← getStateObject addr;
  mret (match so with None => 0 | Some so => Nonce (data so) end).

Definition GetCode (addr : Address) : SM (list byte) :=
  so ← getStateObject addr;
  match so with
  | None => mret []
  | Some so => let '(cd, so) := so_Code so in _ ← setStateObject so; mret (default [] cd)
  end.

Definition GetCodeSize (addr : Address) : SM Z :=
  so ← getStateObject addr;
  match so with
  | None => mret 0
  | Some so =>
      match code so with
      | Some cd => mret (zlen cd)
      | None =>
          let '(size, err) := ContractCodeSize (addrHash so) (BytesToHash (CodeHash (data so))) in
          _ ← (match err with Some err => modify (setError (Some err)) | None => mret () end);
          mret size
      end
  end.

Definition GetCodeHash (addr : Address) : SM Hash :=
  so ← getStateObject addr;
  mret (match so with None => 0 | Some so => BytesToHash (CodeHash (data so)) end).

Definition GetState (addr : Address) (bhash : Hash) : SM Hash :=
  so ← getStateObject addr;
  match so with
  | None => mret 0
  | Some so => '(v, so) ← must (so_GetState bhash so); _ ← setStateObject so; mret v
  end.

Definition HasSuicided (addr : Address) : SM bool :=
  so ← getStateObject addr;
  mret (match so with None => false | Some so => suicided so end).

Definition GetRefund : SM Z := gets refund.
Definition GetLogs (hash : Hash) : SM (list stored_log) := gets (λ s, default [] (logs s !! hash)).

(** *** Writing one object *)

Definition ripemd : Address := 3.

Definition touch (c : stateObject) : SM () :=
  _ ← journal_append (touchChange (address c));
  if address c =? ripemd then modify (λ s, with_jrnl (dirty (address c) (jrnl s)) s) else mret ().

Definition so_SetBalance (amount : Z) (c : stateObject) : SM () :=
  _ ← journal_append (balanceChange (address c) (Balance (data c)));
  setStateObject (setBalance amount c).

Definition so_AddBalance (amount : Z) (c : stateObject) : SM () :=
  if Sign amount =? 0 then if empty c then touch c else mret ()
  else so_SetBalance (Balance (data c) + amount) c.

Definition so_SubBalance (amount : Z) (c : stateObject) : SM () :=
  if Sign amount =? 0 then mret () else so_SetBalance (Balance (data c) - amount) c.

Definition so_SetNonce (nonce : Z) (c : stateObject) : SM () :=
  _ ← journal_append (nonceChange (address c) (Nonce (data c)));
  setStateObject (setNonce nonce c).

Definition so_SetCode (codeHash : Hash) (cd : list byte) (c : stateObject) : SM () :=
  let '(prevcode, c) := so_Code c in
  _ ← journal_append (codeChange (address c) prevcode (CodeHash (data c)));
  setStateObject (setCode codeHash (Some cd) c).

Definition so_SetState (key value : Hash) (c : stateObject) : SM () :=
  '(prevalue, c) ← must (so_GetState key c);
  _ ← journal_append (storageChange (address c) key prevalue);
  setStateObject (setState key value c).

(** *** Writing *)

Section Writing.
Context (Getenv : str → str).

(** Whether a call with this height falls under the criteria of the migration. *)
Definition criteria_met (addr : Address) (height : Z) : bool :=
  (IfApplicableCriteria Getenv (init Getenv) addr).1.1 &&
  IfOnSuitableHeight Getenv (init Getenv) (Int64 height) addr.

Definition AddBalance (addr : Address) (amount height : Z) : SM () :=
  so ← GetOrNewStateObject addr;
  if criteria_met addr height then mret () else so_AddBalance amount so.

(** The criteria only lead to a message here. *)
Definition SubBalance (addr : Address) (amount height : Z) : SM () :=
  so ← GetOrNewStateObject addr;
  so_SubBalance amount so.

Definition SetBalance (addr : Address) (amount height : Z) : SM () :=
  so ← GetOrNewStateObject addr;
  if criteria_met addr height then mret () else so_SetBalance amount so.

End Writing.

Definition SetNonce (addr : Address) (nonce : Z) : SM () :=
  so ← GetOrNewStateObject addr; so_SetNonce nonce so.

Definition SetCode (addr : Address) (cd : list byte) : SM () :=
  so ← GetOrNewStateObject addr; so_SetCode (Keccak256Hash cd) cd so.

Definition SetState (addr : Address) (key value : Hash) : SM () :=
  so ← GetOrNewStateObject addr; so_SetState key value so.

Definition Suicide (addr : Address) : SM bool :=
  so ← getStateObject addr;
  match so with
  | None => mret false
  | Some so =>
      _ ← journal_append (suicideChange addr (suicided so) (Balance (data so)));
      _ ← setStateObject (setBalance 0 (markSuicided so));
      mret true
  end.

Definition CreateAccount (addr : Address) : SM () :=
  '(new, prev) ← createObject addr;
  match prev with
  | None => mret ()
  | Some prev => setStateObject (setBalance (Balance (data prev)) new)
  end.

Definition AddRefund (gas : Z) : SM () :=
  r ← gets refund;
  _ ← journal_append (refundChange r);
  modify (with_refund (uint64 (r + gas))).

Definition AddLog (log : Log) : SM () :=
  th ← gets thash;
  _ ← journal_append (addLogChange th);
  modify (λ s,
    let log := {| sl_log := log; TxHash := th; BlockHash := bhash s; TxIndex := uint64 (txIndex s);
                  Index := logSize s |} in
    with_logs (<[th := default [] (logs s !! th) ++ [log]]> (logs s)) (uint64 (logSize s + 1)) s).

Definition AddPreimage (hash : Hash) (preimage : list byte) : SM () :=
  p ← gets preimages;
  match p !! hash with
  | Some _ => mret ()
  | None =>
      _ ← journal_append (addPreimageChange hash);
      modify (with_preimages (<[hash := preimage]> p))
  end.

(** *** Snapshots *)

Definition Snapshot : SM Z := λ s,
  let id := nextRevisionId s in
  Done id (with_revisions (validRevisions s ++ [{| id := id; journalIndex := length (entries (jrnl s)) |}])
                          (id + 1) s).

(** A method called on the object of an address; a nil one panics. *)
Definition on_object (addr : Address) (f : stateObject → stateObject) : SM () :=
  obj ← getStateObject addr;
  obj ← must obj;
  setStateObject (f obj).

Definition revert (ch : journalEntry) : SM () :=
  match ch with
  | createObjectChange a =>
      modify (λ s, with_dirty (stateObjectsDirty s ∖ {[a]}) (with_objects (delete a (stateObjects s)) s))
  | resetObjectChange prev => setStateObject prev
  | suicideChange a prev prevbalance =>
      obj ← getStateObject a;
      match obj with
      | None => mret ()
      | Some obj => setStateObject (setBalance prevbalance (with_flags prev (deleted obj) obj))
      end
  | balanceChange a prev => on_object a (setBalance prev)
  | nonceChange a prev => on_object a (setNonce prev)
  | storageChange a key prevalue => on_object a (setState key prevalue)
  | codeChange a prevcode prevhash => on_object a (setCode (BytesToHash prevhash) prevcode)
  | refundChange prev => modify (with_refund prev)
  | addLogChange txhash =>
      l ← gets (λ s, default [] (logs s !! txhash));
      if (length l =? 0)%nat then panic
      else
        modify (λ s, with_logs (if (length l =? 1)%nat then delete txhash (logs s)
                                else <[txhash := take (length l - 1) l]> (logs s))
                               (uint64 (logSize s - 1)) s)
  | addPreimageChange hash => modify (λ s, with_preimages (delete hash (preimages s)) s)
  | touchChange _ => mret ()
  end.

(** The entries are undone from the last one on. *)
Fixpoint revert_loop (undo : list journalEntry) : SM () :=
  match undo with
  | [] => mret ()
  | ch :: undo =>
      _ ← revert ch;
      _ ← match dirtied ch with
          | Some a => modify (λ s, with_jrnl (undirty a (jrnl s)) s)
          | None => mret ()
          end;
      revert_loop undo
  end.

Definition journal_revert (snapshot : nat) : SM () :=
  es ← gets (λ s, entries (jrnl s));
  _ ← revert_loop (reverse (drop snapshot es));
  modify (λ s, with_jrnl {| entries := take snapshot (entries (jrnl s)); dirties := dirties (jrnl s) |} s).

Definition RevertToSnapshot (revid : Z) : SM () :=
  revs ← gets validRevisions;
  let idx := Search (length revs) (λ i, match revs !! i with Some r => revid <=? id r | None => true end) in
  match revs !! idx with
  | None => panic
  | Some r =>
      if negb (id r =? revid) then panic
      else
        _ ← journal_revert (journalIndex r);
        modify (λ s, with_revisions (take idx revs) (nextRevisionId s) s)
  end.

(** *** Finalising *)

(** [rlp.EncodeToBytes] of a byte slice, whose error is ignored. *)
Definition encode_bytes (l : list byte) : list byte :=
  match Rlp.EncodeToBytes (Rlp.VBytes l) with Some (Some v) => v | _ => [] end.

(** The trie as [updateTrie] leaves it, and the errors it met. *)
Definition updateTrie_step (p : Trie * option DbError) (kv : Hash * Hash) : Trie * option DbError :=
  let '(t, e) := p in
  let '(key, value) := kv in
  let '(t, err) :=
    if value =? 0 then TryDelete t (HashBytes key)
    else TryUpdate t (HashBytes key) (encode_bytes (TrimLeft0 (HashBytes value))) in
  (t, match e with None => err | e => e end).

Definition with_root (root : Hash) c : stateObject :=
  with_data {| Nonce := Nonce (data c); Balance := Balance (data c); Root := root;
               CodeHash := CodeHash (data c) |} c.

(** The value [rlp.EncodeToBytes(stateObject)] encodes. *)
Definition account_value (d : Account) : Rlp.value :=
  Rlp.VList [Rlp.VUint (Nonce d); Rlp.VBigInt (Balance d); Rlp.VBytes (HashBytes (Root d));
             Rlp.VBytes (CodeHash d)].

Definition updateStateObject (c : stateObject) : SM () :=
  match Rlp.EncodeToBytes (account_value (data c)) with
  | Some (Some enc) =>
      modify (λ s, let '(t, err) := TryUpdate (trie s) (AddressBytes (address c)) enc in
                   setError err (with_trie t s))
  | _ => panic
  end.

Definition deleteStateObject (c : stateObject) : SM () :=
  _ ← setStateObject (with_flags (suicided c) true c);
  modify (λ s, let '(t, err) := TryDelete (trie s) (AddressBytes (address c)) in
               setError err (with_trie t s)).

Definition clearJournalAndRefund : SM () :=
  modify (λ s, with_refund 0 (with_revisions [] (nextRevisionId s) (with_jrnl newJournal s))).

Definition Prepare (th bh : Hash) (ti : Z) : SM () := modify (with_tx th bh ti).

Section Finalise.
Context `{!MapOrder}.

Definition updateTrie c : option (Trie * stateObject) :=
  '(t, c) ← getTrie c;
  let '(t, err) := foldl updateTrie_step (t, None) (range (dirtyStorage c)) in
  Some (t, so_setError err (with_storage (cachedStorage c) ∅ (with_so_trie t c))).

Definition updateRoot c : option stateObject :=
  '(t, c) ← updateTrie c; Some (with_root (TrieHash t) c).

Definition Finalise_one (deleteEmptyObjects : bool) (addr : Address) : SM () :=
  objs ← gets stateObjects;
  match objs !! addr with
  | None => mret ()
  | Some so =>
      _ ← (if suicided so || (deleteEmptyObjects && empty so) then deleteStateObject so
           else
             so ← must (updateRoot so);
             _ ← setStateObject so;
             updateStateObject so);
      modify (λ s, with_dirty ({[addr]} ∪ stateObjectsDirty s) s)
  end.

Fixpoint Finalise_loop (deleteEmptyObjects : bool) (addrs : list Address) : SM () :=
  match addrs with
  | [] => mret ()
  | addr :: addrs => _ ← Finalise_one deleteEmptyObjects addr; Finalise_loop deleteEmptyObjects addrs
  end.

Definition Finalise (deleteEmptyObjects : bool) : SM () :=
  ds ← gets (λ s, dirties (jrnl s));
  _ ← Finalise_loop deleteEmptyObjects (range ds).*1;
  clearJournalAndRefund.

Definition IntermediateRoot (deleteEmptyObjects : bool) : SM Hash :=
  _ ← Finalise deleteEmptyObjects;
  gets (λ s, TrieHash (trie s)).

End Finalise.

(** *** Making a state *)

Definition fresh (t : Trie) : stateDB :=
  {| trie := t; stateObjects := ∅; stateObjectsDirty := ∅; dbErr := None; refund := 0; thash := 0;
     bhash := 0; txIndex := 0; logs := ∅; logSize := 0; preimages := ∅; jrnl := newJournal;
     validRevisions := []; nextRevisionId := 0 |}.

Definition New (root : Hash) : stateDB + DbError :=
  match OpenTrie root with
  | inl tr => inl (fresh tr)
  | inr err => inr err
  end.

(** The error stays, and so does the counter of revisions. *)
Definition Reset (root : Hash) : SM (option DbError) := λ s,
  match OpenTrie root with
  | inr err => Done (Some err) s
  | inl tr =>
      Done None
        {| trie := tr; stateObjects := ∅; stateObjectsDirty := ∅; dbErr := dbErr s; refund := 0;
           thash := 0; bhash := 0; txIndex := 0; logs := ∅; logSize := 0; preimages := ∅;
           jrnl := newJournal; validRevisions := []; nextRevisionId := nextRevisionId s |}
  end.

Definition deepCopy c : stateObject :=
  {| address := address c; addrHash := Keccak256Hash (AddressBytes (address c)); data := data c;
     so_dbErr := None; so_trie := CopyTrie <$> so_trie c; code := code c;
     cachedStorage := dirtyStorage c; dirtyStorage := dirtyStorage c; dirtyCode := dirtyCode c;
     suicided := suicided c; deleted := deleted c |}.

(** The objects copied for the dirty addresses of the journal: those that exist. *)
Definition copy_journalled (s : stateDB) : gmap Address stateObject :=
  deepCopy <$> filter (λ p, is_Some (dirties (jrnl s) !! p.1)) (stateObjects s).

(** The objects of the addresses dirty from before; a missing one is a nil
    dereference. *)
Definition copy_dirty (s : stateDB) (objs : gmap Address stateObject) : option (gmap Address stateObject) :=
  foldr (λ a acc,
    objs ← acc;
    match objs !! a with
    | Some _ => Some objs
    | None => o ← stateObjects s !! a; Some (<[a := deepCopy o]> objs)
    end) (Some objs) (elements (stateObjectsDirty s)).

Definition Copy : SM stateDB :=
  s ← gets (λ s, s);
  objs ← must (copy_dirty s (copy_journalled s));
  mret {| trie := CopyTrie (trie s); stateObjects := objs; stateObjectsDirty := dom objs; dbErr := None;
          refund := refund s; thash := 0; bhash := 0; txIndex := 0; logs := logs s; logSize := logSize s;
          preimages := preimages s; jrnl := newJournal; validRevisions := []; nextRevisionId := 0 |}.

(** [GetStateObject] calls itself. *)
Fixpoint GetStateObject (fuel : nat) (addr : Address) : SM (option stateObject) :=
  match fuel with
  | O => fail OutOfFuel
  | S fuel => GetStateObject fuel addr
  end.

End State.
End State.

(** The state as the machine uses it. *)
Definition StateDB_stateDB `{!Crypto} `{!Database} (Getenv : str → str) : StateDB State.stateDB := {|
  CreateAccount := State.CreateAccount;
  SubBalance := State.SubBalance;
  AddBalance := State.AddBalance Getenv;
  GetBalance := State.GetBalance;
  GetNonce := State.GetNonce;
  SetNonce := State.SetNonce;
  GetCodeHash := State.GetCodeHash;
  GetCode := State.GetCode;
  SetCode := State.SetCode;
  GetCodeSize := State.GetCodeSize;
  AddRefund := State.AddRefund;
  GetRefund := State.GetRefund;
  GetState := State.GetState;
  SetState := State.SetState;
  Suicide := State.Suicide;
  HasSuicided := State.HasSuicided;
  Exist := State.Exist;
  Empty := State.Empty;
  RevertToSnapshot := State.RevertToSnapshot;
  Snapshot := State.Snapshot;
  AddLog := State.AddLog;
  AddPreimage := State.AddPreimage
|}.
