(* ===== verification/StateObs.v ===== *)
(** * What can be observed of the journalled state

    What the database promises, what is observed of one object and of the whole
    state, and that loading an object or filling its caches changes neither.  Then
    the journal: undoing an entry respects what is observed, and every entry undoes
    the change it is made for. *)
From S2P Require Import Prelude BigMath Params OpCodes VmAnalysis VmMemory Rlp VmTypes.
From S2P Require Import VmLaws Nov2019 StateDb.
Import State.

#[global] Arguments HashBytes : simpl never.
#[global] Arguments AddressBytes : simpl never.

(** ** The database

    The empty root opens an empty trie ([trie.New]); code is addressed by its
    hash, its size is its length, and it fits in memory. *)
Class DatabaseLaws `{!Crypto} `{!Database} := {
  OpenStorageTrie_empty ah : ∃ t, OpenStorageTrie ah 0 = inl t ∧ ∀ k, TryGet t k = ([], None);
  ContractCode_empty ah : (ContractCode ah (BytesToHash emptyCodeHash)).1 = [];
  ContractCodeSize_length ah h : (ContractCodeSize ah h).1 = zlen (ContractCode ah h).1;
  ContractCode_small ah h : zlen (ContractCode ah h).1 < 2 ^ 62
}.

Section Observations.
Context `{!Crypto} `{!Database}.

Implicit Types (c o : stateObject) (s : stateDB).

(** ** One object *)

Definition o_trie c : option Trie := fst <$> getTrie c.

Definition stored (t : Trie) (key : Hash) : Hash :=
  let '(enc, err) := TryGet t (HashBytes key) in
  match err with
  | Some _ => 0
  | None =>
      if bool_decide (enc = []) then 0
      else match Rlp.Split enc with inl (_, content, _) => BytesToHash content | inr _ => 0 end
  end.

Definition o_state c (key : Hash) : Hash :=
  match cachedStorage c !! key with
  | Some v => v
  | None => default 0 (t ← o_trie c; Some (stored t key))
  end.

Definition o_code c : list byte := default [] (so_Code c).1.

(** Objects that differ at most in what they have cached. *)
Record obj_eq o o' : Prop := {
  oe_address : address o = address o';
  oe_addrHash : addrHash o = addrHash o';
  oe_data : data o = data o';
  oe_trie : o_trie o = o_trie o';
  oe_code : o_code o = o_code o';
  oe_state k : o_state o k = o_state o' k;
  oe_suicided : suicided o = suicided o';
  oe_deleted : deleted o = deleted o'
}.

#[global] Instance obj_eq_equiv : Equivalence obj_eq.
Proof.
  split.
  - intros o. by split.
  - intros o o' []. by split.
  - intros o1 o2 o3 [] []. split; intros; etrans; eauto.
Qed.

(** ** The state *)

(** The account of an address in the trie. *)
Definition from_trie (t : Trie) (a : Address) : option stateObject :=
  let enc := (TryGet t (AddressBytes a)).1 in
  if bool_decide (enc = []) then None else newObject a <$> DecodeAccount enc.

(** The account of an address: the live object, or else the one in the trie. *)
Definition acct s (a : Address) : option stateObject :=
  match stateObjects s !! a with
  | Some o => if deleted o then None else Some o
  | None => from_trie (trie s) a
  end.

Definition logs_of s (h : Hash) : list stored_log := default [] (logs s !! h).

Record state_eq s s' : Prop := {
  se_trie : trie s = trie s';
  se_acct a : option_Forall2 obj_eq (acct s a) (acct s' a);
  se_refund : refund s = refund s';
  se_thash : thash s = thash s';
  se_bhash : bhash s = bhash s';
  se_txIndex : txIndex s = txIndex s';
  se_logs h : logs_of s h = logs_of s' h;
  se_logSize : logSize s = logSize s';
  se_preimages : preimages s = preimages s'
}.

#[global] Instance state_eq_equiv : Equivalence state_eq.
Proof.
  split.
  - intros s. by split.
  - intros s s' []. by split.
  - intros s1 s2 s3 [] []. split; intros; etrans; eauto.
Qed.

(** What the machine sees. *)
Definition state_view s : view :=
  {| v_exist := λ a, bool_decide (is_Some (acct s a));
     v_balance := λ a, default 0 (Balance ∘ data <$> acct s a);
     v_nonce := λ a, default 0 (Nonce ∘ data <$> acct s a);
     v_code := λ a, default [] (o_code <$> acct s a);
     v_codehash := λ a, default 0 (BytesToHash ∘ CodeHash ∘ data <$> acct s a);
     v_storage := λ a k, default 0 ((λ o, o_state o k) <$> acct s a);
     v_suicided := λ a, default false (suicided <$> acct s a);
     v_empty := λ a, default true (empty <$> acct s a);
     v_refund := refund s;
     v_logs := sl_log <$> logs_of s (thash s) |}.

Lemma empty_eq o o' : data o = data o' → empty o = empty o'.
Proof. unfold empty. by intros ->. Qed.

Lemma state_eq_view s s' : state_eq s s' → view_eq (state_view s) (state_view s').
Proof.
  intros [_ Ha Hr Ht _ _ Hl _ _]. split; [..|split]; intros; cbn; try specialize (Ha a);
    try (destruct Ha as [o o' []|]; [|done]; cbn; try congruence; try done).
  - by apply empty_eq.
  - done.
  - by rewrite Ht, Hl.
Qed.

(** ** Lemmas on one object *)

Lemma o_trie_ext o o' :
  addrHash o = addrHash o' → Root (data o) = Root (data o') → so_trie o = so_trie o' →
  o_trie o = o_trie o'.
Proof.
  intros E1 E2 E3. unfold o_trie, getTrie. rewrite E3, E1, E2.
  destruct (so_trie o'); [done|]. destruct (OpenStorageTrie _ _); [done|]. by destruct (OpenStorageTrie _ 0).
Qed.

Lemma o_trie_loaded c t : so_trie c = Some t → o_trie c = Some t.
Proof. unfold o_trie, getTrie. by intros ->. Qed.

Lemma o_code_ext o o' :
  addrHash o = addrHash o' → CodeHash (data o) = CodeHash (data o') → code o = code o' → o_code o = o_code o'.
Proof.
  intros E1 E2 E3. unfold o_code, so_Code. rewrite E3, E1, E2.
  destruct (code o'); [done|]. case_bool_decide; [done|]. by destruct (ContractCode _ _).
Qed.

Lemma o_state_ext o o' k :
  cachedStorage o !! k = cachedStorage o' !! k → o_trie o = o_trie o' → o_state o k = o_state o' k.
Proof. unfold o_state. by intros -> ->. Qed.

(** An object with the same data and storage. *)
Lemma obj_eq_intro o o' :
  address o = address o' → addrHash o = addrHash o' → data o = data o' → o_trie o = o_trie o' →
  code o = code o' → cachedStorage o = cachedStorage o' → suicided o = suicided o' →
  deleted o = deleted o' → obj_eq o o'.
Proof.
  intros E1 E2 E3 E4 E5 E6 E7 E8. split; try done; intros.
  - apply o_code_ext; congruence.
  - by apply o_state_ext; [rewrite E6|].
Qed.

Lemma so_Code_ok c cd c' :
  so_Code c = (cd, c') → default [] cd = o_code c ∧ obj_eq c c' ∧
    (code c' = cd ∧ data c' = data c ∧ addrHash c' = addrHash c).
Proof.
  intros E. assert (default [] cd = o_code c) as Hcd by (unfold o_code; by rewrite E).
  split; [done|]. unfold so_Code in E. destruct (code c) as [cd0|] eqn:Ec.
  { injection E as <- <-. split; [reflexivity|done]. }
  case_bool_decide as Hh.
  { injection E as <- <-. split; [reflexivity|done]. }
  destruct (ContractCode _ _) as [l err] eqn:El. injection E as <- <-.
  set (cd := if bool_decide (l = []) then None else Some l) in *.
  assert (∀ cc, addrHash cc = addrHash c → data cc = data c → code cc = cd → o_code cc = o_code c) as Hc.
  { intros cc E1 E2 E3. rewrite <-Hcd. unfold o_code, so_Code. rewrite E3. subst cd.
    case_bool_decide; cbn; [|done]. rewrite E1, E2, El. rewrite bool_decide_eq_false_2 by done.
    by rewrite bool_decide_eq_true_2. }
  destruct err; (split; [split; try done; cbn; intros; symmetry; try by apply o_trie_ext|done]);
    try by apply Hc.
  all: apply o_state_ext; [done|by apply o_trie_ext].
Qed.

(** What a write changes of what is observed. *)
Definition code_of (ah : Hash) (h : list byte) (cd : option (list byte)) : list byte :=
  match cd with
  | Some cd => cd
  | None => if bool_decide (h = emptyCodeHash) then [] else (ContractCode ah (BytesToHash h)).1
  end.

Lemma o_code_eq c : o_code c = code_of (addrHash c) (CodeHash (data c)) (code c).
Proof.
  unfold o_code, so_Code, code_of. destruct (code c); [done|]. case_bool_decide; [done|].
  destruct (ContractCode _ _) as [l err]. cbn. case_bool_decide; cbn; [done|]. done.
Qed.

Lemma o_state_setState key v c k :
  o_state (setState key v c) k = if decide (key = k) then v else o_state c k.
Proof.
  destruct (decide (key = k)) as [->|Hne]; [unfold o_state; cbn; by rewrite lookup_insert_eq|].
  apply o_state_ext; [cbn; by rewrite lookup_insert_ne|by apply o_trie_ext].
Qed.

Lemma obs_setBalance v c :
  o_trie (setBalance v c) = o_trie c ∧ o_code (setBalance v c) = o_code c ∧
  ∀ k, o_state (setBalance v c) k = o_state c k.
Proof.
  assert (o_trie (setBalance v c) = o_trie c) as Ht by by apply o_trie_ext.
  split; [done|]. split; [by apply o_code_ext|]. intros k. by apply o_state_ext.
Qed.

Lemma obs_setNonce v c :
  o_trie (setNonce v c) = o_trie c ∧ o_code (setNonce v c) = o_code c ∧
  ∀ k, o_state (setNonce v c) k = o_state c k.
Proof.
  assert (o_trie (setNonce v c) = o_trie c) as Ht by by apply o_trie_ext.
  split; [done|]. split; [by apply o_code_ext|]. intros k. by apply o_state_ext.
Qed.

Lemma obs_with_flags b b' c :
  o_trie (with_flags b b' c) = o_trie c ∧ o_code (with_flags b b' c) = o_code c ∧
  ∀ k, o_state (with_flags b b' c) k = o_state c k.
Proof.
  assert (o_trie (with_flags b b' c) = o_trie c) as Ht by by apply o_trie_ext.
  split; [done|]. split; [by apply o_code_ext|]. intros k. by apply o_state_ext.
Qed.

Lemma obs_setCode h cd c :
  o_trie (setCode h cd c) = o_trie c ∧ o_code (setCode h cd c) = code_of (addrHash c) (HashBytes h) cd ∧
  ∀ k, o_state (setCode h cd c) k = o_state c k.
Proof.
  assert (o_trie (setCode h cd c) = o_trie c) as Ht by by apply o_trie_ext.
  split; [done|]. split; [by rewrite o_code_eq|]. intros k. by apply o_state_ext.
Qed.

Lemma obs_setState key v c :
  o_trie (setState key v c) = o_trie c ∧ o_code (setState key v c) = o_code c.
Proof. split; [by apply o_trie_ext|by apply o_code_ext]. Qed.

Section Laws.
Context `{!DatabaseLaws}.

Lemma getTrie_ok c : ∃ t c', getTrie c = Some (t, c') ∧ o_trie c = Some t ∧ obj_eq c c' ∧
  cachedStorage c' = cachedStorage c.
Proof.
  unfold getTrie at 1. destruct (so_trie c) as [t|] eqn:Et.
  { exists t, c. split; [done|]. split; [by apply o_trie_loaded|]. split; [reflexivity|done]. }
  destruct (OpenStorageTrie (addrHash c) (Root (data c))) as [t|err] eqn:E1.
  - assert (o_trie c = Some t) as Hc by (unfold o_trie, getTrie; by rewrite Et, E1).
    do 2 eexists. split; [reflexivity|]. split; [done|]. split; [|done].
    by apply obj_eq_intro.
  - destruct (OpenStorageTrie_empty (addrHash c)) as (t & E2 & _).
    assert (o_trie c = Some t) as Hc by (unfold o_trie, getTrie; by rewrite Et, E1, E2).
    rewrite E2. do 2 eexists. split; [reflexivity|]. split; [done|]. split; [|done].
    by apply obj_eq_intro.
Qed.

Lemma with_storage_eq k c :
  obj_eq c (with_storage (<[k := o_state c k]> (cachedStorage c)) (dirtyStorage c) c).
Proof.
  split; try done; [by apply o_trie_ext|by apply o_code_ext|]. intros k'.
  destruct (decide (k = k')) as [->|Hne]; [unfold o_state at 2; cbn; by rewrite lookup_insert_eq|].
  apply o_state_ext; [cbn; by rewrite lookup_insert_ne|by apply o_trie_ext].
Qed.

Lemma so_setError_eq e c : obj_eq c (so_setError e c).
Proof. apply obj_eq_intro; try done. by apply o_trie_ext. Qed.

Lemma so_GetState_ok k c : ∃ c', so_GetState k c = Some (o_state c k, c') ∧ obj_eq c c'.
Proof.
  unfold so_GetState. destruct (cachedStorage c !! k) as [v|] eqn:Ek.
  { exists c. split; [|reflexivity]. unfold o_state. by rewrite Ek. }
  destruct (getTrie_ok c) as (t & c1 & -> & Ht & Heq & Hcache). cbn.
  assert (o_state c k = stored t k) as Hs by (unfold o_state; by rewrite Ek, Ht).
  rewrite Hs. unfold stored. destruct (TryGet t (HashBytes k)) as [enc [err|]] eqn:Eg.
  { eexists. split; [reflexivity|]. etrans; [exact Heq|]. apply so_setError_eq. }
  assert (o_state c1 k = stored t k) as Hs1 by (by rewrite <-Hs; symmetry; apply Heq).
  unfold stored in Hs1. rewrite Eg in Hs1.
  case_bool_decide; [|destruct (Rlp.Split enc) as [[[? content] ?]|err]];
    (eexists; split; [reflexivity|]); (etrans; [exact Heq|]).
  - rewrite <-Hs1. apply with_storage_eq.
  - rewrite <-Hs1. apply with_storage_eq.
  - etrans; [apply so_setError_eq|].
    rewrite <-Hs1 at 1. rewrite (oe_state _ _ (so_setError_eq (Some (errSplit err)) c1) k).
    apply with_storage_eq.
Qed.

End Laws.

End Observations.

(** ** Undoing entries of the journal *)

Section Undo.
Context `{!Crypto} `{!Database}.

Implicit Types (o : stateObject) (s t : stateDB) (e : journalEntry).

(** All that is kept when objects are loaded or written. *)
Record frame s s' : Prop := {
  fr_trie : trie s = trie s';
  fr_refund : refund s = refund s';
  fr_thash : thash s = thash s';
  fr_bhash : bhash s = bhash s';
  fr_txIndex : txIndex s = txIndex s';
  fr_logs : logs s = logs s';
  fr_logSize : logSize s = logSize s';
  fr_preimages : preimages s = preimages s';
  fr_jrnl : jrnl s = jrnl s';
  fr_revisions : validRevisions s = validRevisions s';
  fr_next : nextRevisionId s = nextRevisionId s'
}.

#[global] Instance frame_equiv : Equivalence frame.
Proof.
  split.
  - intros s. by split.
  - intros s s' []. by split.
  - intros s1 s2 s3 [] []. split; intros; etrans; eauto.
Qed.

Lemma frame_state_eq s s' :
  frame s s' → (∀ a, option_Forall2 obj_eq (acct s a) (acct s' a)) → state_eq s s'.
Proof. intros [] Ha. split; try done. intros h. unfold logs_of. by f_equal; f_equal. Qed.

(** An account written into the state. *)
Definition put o s : stateDB := with_objects (<[address o := o]> (stateObjects s)) s.

Lemma put_frame o s : frame s (put o s).
Proof. done. Qed.

Lemma acct_put o s a :
  acct (put o s) a =
  if decide (address o = a) then (if deleted o then None else Some o) else acct s a.
Proof.
  unfold acct, put. cbn. destruct (decide (address o = a)) as [->|Hne].
  - by rewrite lookup_insert_eq.
  - by rewrite lookup_insert_ne.
Qed.

Lemma getStateObject_run a s : ∃ s', getStateObject a s = Done (acct s a) s' ∧ frame s s' ∧
  (∀ b, acct s' b = acct s b) ∧
  (stateObjects s' = stateObjects s ∨
   ∃ o, from_trie (trie s) a = Some o ∧ stateObjects s !! a = None ∧
        stateObjects s' = <[a := o]> (stateObjects s)).
Proof.
  unfold getStateObject, acct at 1. destruct (stateObjects s !! a) as [o|] eqn:Ea.
  { exists s. destruct (deleted o); (split; [done|]; split; [done|]; split; [done|by left]). }
  unfold from_trie. destruct (TryGet _ _) as [enc err] eqn:Et. cbn [fst].
  case_bool_decide as He.
  { exists (setError err s). split; [done|]. split; [done|]. split; [done|by left]. }
  destruct (DecodeAccount enc) as [d|] eqn:Ed; cbn [fmap option_fmap option_map].
  2: { exists s. split; [done|]. split; [done|]. split; [done|by left]. }
  exists (put (newObject a d) s). split; [done|]. split; [done|].
  split; [|right; exists (newObject a d); split; [done|split; done]]. intros b. rewrite acct_put. cbn.
  case_decide as Hb; [|done]. subst b. unfold acct, from_trie. rewrite Ea, Et. cbn [fst].
  rewrite bool_decide_eq_false_2 by done. by rewrite Ed.
Qed.

Lemma put_proper s s' o o' : state_eq s s' → obj_eq o o' → state_eq (put o s) (put o' s').
Proof.
  intros Hs Ho. split; try apply Hs. intros a. rewrite !acct_put.
  rewrite (oe_address _ _ Ho), (oe_deleted _ _ Ho). case_decide; [|apply Hs].
  destruct (deleted o'); by constructor.
Qed.

(** ** Writes respect what is observed *)

Lemma setBalance_proper v : Proper (obj_eq ==> obj_eq) (setBalance v).
Proof.
  intros o o' [? ? Hd ? ? ? ? ?].
  destruct (obs_setBalance v o) as (? & ? & Hk), (obs_setBalance v o') as (? & ? & Hk').
  split; intros; rewrite ?Hk, ?Hk'; cbn; congruence.
Qed.

Lemma setNonce_proper v : Proper (obj_eq ==> obj_eq) (setNonce v).
Proof.
  intros o o' [? ? Hd ? ? ? ? ?].
  destruct (obs_setNonce v o) as (? & ? & Hk), (obs_setNonce v o') as (? & ? & Hk').
  split; intros; rewrite ?Hk, ?Hk'; cbn; congruence.
Qed.

Lemma setCode_proper h cd : Proper (obj_eq ==> obj_eq) (setCode h cd).
Proof.
  intros o o' [? Hh Hd ? ? ? ? ?].
  destruct (obs_setCode h cd o) as (? & ? & Hk), (obs_setCode h cd o') as (? & ? & Hk').
  split; intros; rewrite ?Hk, ?Hk'; cbn; congruence.
Qed.

Lemma setState_proper k v : Proper (obj_eq ==> obj_eq) (setState k v).
Proof.
  intros o o' [? ? Hd ? ? Hs ? ?].
  destruct (obs_setState k v o) as (? & ?), (obs_setState k v o') as (? & ?).
  split; intros; rewrite ?o_state_setState; cbn; try case_decide; congruence.
Qed.

Lemma with_flags_proper b o o' :
  obj_eq o o' → obj_eq (with_flags b (deleted o) o) (with_flags b (deleted o') o').
Proof.
  intros [? ? Hd ? ? Hs ? Hdel]. rewrite Hdel.
  destruct (obs_with_flags b (deleted o') o) as (? & ? & Hk),
    (obs_with_flags b (deleted o') o') as (? & ? & Hk').
  split; intros; rewrite ?Hk, ?Hk'; cbn; congruence.
Qed.

(** ** Undoing respects what is observed *)

Lemma loaded_eq s s' : frame s s' → (∀ b, acct s' b = acct s b) → state_eq s s'.
Proof. intros Hf Ha. apply frame_state_eq; [done|]. intros a. by rewrite Ha. Qed.

Lemma on_object_run a f s :
  match acct s a with
  | None => on_object a f s = Fault Panic
  | Some o => ∃ s', on_object a f s = Done () (put (f o) s') ∧ frame s s' ∧ ∀ b, acct s' b = acct s b
  end.
Proof.
  unfold on_object, mbind, M_bind. destruct (getStateObject_run a s) as (s' & -> & Hf & Ha & _).
  destruct (acct s a) as [o|]; [|done]. cbn. by exists s'.
Qed.

Lemma on_object_proper a f s t s1 :
  Proper (obj_eq ==> obj_eq) f → state_eq s t → on_object a f s = Done () s1 →
  ∃ t1, on_object a f t = Done () t1 ∧ state_eq s1 t1.
Proof.
  intros Hp Hst E. pose proof (on_object_run a f s) as Hs. pose proof (on_object_run a f t) as Ht.
  destruct (se_acct _ _ Hst a) as [o o' Ho|].
  - destruct Hs as (s' & E' & Hf & Ha), Ht as (t' & Et & Hft & Hat). rewrite E in E'. injection E' as ->.
    eexists. split; [exact Et|]. apply put_proper; [|by apply Hp].
    etrans; [symmetry; by apply loaded_eq|]. etrans; [exact Hst|]. by apply loaded_eq.
  - by rewrite Hs in E.
Qed.

Lemma revert_proper e s t s1 :
  state_eq s t → revert e s = Done () s1 → ∃ t1, revert e t = Done () t1 ∧ state_eq s1 t1.
Proof.
  intros Hst. destruct e; cbn [revert]; try (apply on_object_proper; [|done]);
    eauto using setBalance_proper, setNonce_proper, setCode_proper, setState_proper.
  - intros [= <-]. eexists. split; [reflexivity|]. split; try apply Hst. intros a. unfold acct. cbn.
    destruct (decide (account = a)) as [->|Hne].
    + rewrite !lookup_delete_eq. by rewrite (se_trie _ _ Hst).
    + rewrite !lookup_delete_ne by done. apply (se_acct _ _ Hst).
  - intros [= <-]. eexists. split; [reflexivity|]. by apply put_proper.
  - unfold mbind, M_bind.
    destruct (getStateObject_run account s) as (s' & -> & Hf & Ha & _).
    destruct (getStateObject_run account t) as (t' & -> & Hft & Hat & _).
    assert (state_eq s' t') as Heq.
    { etrans; [symmetry; by apply loaded_eq|]. etrans; [exact Hst|]. by apply loaded_eq. }
    destruct (se_acct _ _ Hst account) as [o o' Ho|]; intros [= <-]; (eexists; split; [reflexivity|]).
    + apply (put_proper _ _ (setBalance prevbalance (with_flags prev (deleted o) o))
        (setBalance prevbalance (with_flags prev (deleted o') o'))); [done|].
      by apply setBalance_proper, with_flags_proper.
    + done.
  - intros [= <-]. eexists. split; [reflexivity|]. split; try apply Hst. done.
  - unfold mbind, M_bind, gets. rewrite <-(se_logs _ _ Hst txhash : default [] _ = default [] _).
    destruct (_ =? 0)%nat; [done|]. intros [= <-]. eexists. split; [reflexivity|].
    split; try apply Hst; cbn; [|by rewrite (se_logSize _ _ Hst)].
    intros h. unfold logs_of. cbn. destruct (length _ =? 1)%nat; destruct (decide (txhash = h)) as [->|Hne].
    + by rewrite !lookup_delete_eq.
    + rewrite !lookup_delete_ne by done. apply (se_logs _ _ Hst).
    + by rewrite !lookup_insert_eq.
    + rewrite !lookup_insert_ne by done. apply (se_logs _ _ Hst).
  - intros [= <-]. eexists. split; [reflexivity|]. split; try apply Hst. cbn.
    by rewrite (se_preimages _ _ Hst).
  - intros [= <-]. eexists. split; [reflexivity|]. done.
Qed.

(** A change of the bookkeeping is not observed. *)
Lemma with_jrnl_eq j s : state_eq s (with_jrnl j s).
Proof. by split. Qed.

Lemma revert_loop_proper es s t s1 :
  state_eq s t → revert_loop es s = Done () s1 → ∃ t1, revert_loop es t = Done () t1 ∧ state_eq s1 t1.
Proof.
  revert s t. induction es as [|e es IH]; intros s t Hst; cbn [revert_loop].
  { intros [= <-]. by exists t. }
  unfold mbind, M_bind. destruct (revert e s) as [[] s2|] eqn:E; [|done].
  destruct (revert_proper e s t s2 Hst E) as (t2 & -> & H2).
  destruct (dirtied e); cbn; apply IH; [|done].
  etrans; [symmetry; apply with_jrnl_eq|]. etrans; [exact H2|apply with_jrnl_eq].
Qed.

End Undo.
