(* ===== verification/StateInv.v ===== *)
(** * The invariant of the journalled state

    The invariant, that undoing entries keeps it, and the order [state_ext] in
    which a later state can still be taken back to an earlier one. *)
From S2P Require Import Prelude BigMath Params OpCodes VmAnalysis VmMemory Rlp VmTypes.
From S2P Require Import VmLaws Nov2019 StateDb StateObs.
Import State.

Section Inv.
Context `{!Crypto} `{!Database} `{!DatabaseLaws}.

Implicit Types (o : stateObject) (s : stateDB) (e : journalEntry) (j : journal) (t : Trie).

(** ** The invariant *)

Definition account_ok (d : Account) : Prop :=
  0 <= Balance d ∧ is_uint64 (Nonce d) ∧ length (CodeHash d) = 32%nat.

Definition trie_ok (t : Trie) : Prop :=
  ∀ a d, DecodeAccount (TryGet t (AddressBytes a)).1 = Some d → account_ok d.

(** A deleted object is not in the trie either. *)
Record obj_ok (t : Trie) (a : Address) o : Prop := {
  oo_address : address o = a;
  oo_account : account_ok (data o);
  oo_code : zlen (o_code o) < 2 ^ 62;
  oo_state k : is_u256 (o_state o k);
  oo_deleted : deleted o = true → from_trie t a = None
}.

Definition entry_ok (t : Trie) e : Prop :=
  match e with
  | resetObjectChange prev => obj_ok t (address prev) prev
  | suicideChange _ _ v | balanceChange _ v => 0 <= v
  | nonceChange _ n => is_uint64 n
  | storageChange _ _ v => is_u256 v
  | codeChange _ cd h => length h = 32%nat ∧ zlen (default [] cd) < 2 ^ 62
  | refundChange v => is_uint64 v
  | _ => True
  end.

(** How many of the entries make the address dirty. *)
Definition count (a : Address) (es : list journalEntry) : Z :=
  zlen (filter (λ e, dirtied e = Some a) es).

(** Addresses are counted as often as they are made dirty; [touch] counts the
    address of RIPEMD once more. *)
Definition counted (es : list journalEntry) (d : gmap Address Z) : Prop :=
  ∀ a, (a ≠ ripemd → default 0 (d !! a) = count a es) ∧ count a es <= default 0 (d !! a) ∧
       d !! a ≠ Some 0.

Record objects_inv s : Prop := {
  oi_objects : map_Forall (obj_ok (trie s)) (stateObjects s);
  oi_trie : trie_ok (trie s);
  oi_logSize : is_uint64 (logSize s);
  oi_refund : is_uint64 (refund s)
}.

Definition revisions_ok (revs : list revision) (next : Z) : Prop :=
  (∀ i i' r r', revs !! i = Some r → revs !! i' = Some r' → (i < i')%nat → id r < id r') ∧
  Forall (λ r, id r < next) revs.

Record state_inv s : Prop := {
  si_objects : objects_inv s;
  si_entries : Forall (entry_ok (trie s)) (entries (jrnl s));
  si_dirties : counted (entries (jrnl s)) (dirties (jrnl s));
  si_revisions : revisions_ok (validRevisions s) (nextRevisionId s)
}.

(** ** Objects *)

Lemma o_state_u256 o k : map_Forall (λ _ v, is_u256 v) (cachedStorage o) → is_u256 (o_state o k).
Proof.
  intros Hm. unfold o_state. destruct (_ !! k) as [v|] eqn:E; [by eapply Hm|].
  destruct (o_trie o) as [t|]; cbn; [|done]. unfold stored.
  destruct (TryGet _ _) as [enc [?|]]; [done|]. case_bool_decide; [done|].
  destruct (Rlp.Split enc) as [[[? ?] ?]|]; [|done]. rewrite BytesToHash_mod. apply Z.mod_pos_bound. lia.
Qed.

Lemma code_of_small ah h cd : zlen (default [] cd) < 2 ^ 62 → zlen (code_of ah h cd) < 2 ^ 62.
Proof.
  intros Hc. unfold code_of. destruct cd; [done|]. case_bool_decide; [done|]. apply ContractCode_small.
Qed.

Lemma newObject_ok t a d : account_ok d → obj_ok t a (newObject a d).
Proof.
  intros Hd. split; try done.
  - rewrite o_code_eq. by apply code_of_small.
  - intros k. by apply o_state_u256.
Qed.

Lemma from_trie_ok t a o : trie_ok t → from_trie t a = Some o → obj_ok t a o ∧ deleted o = false.
Proof.
  unfold from_trie. intros Ht. case_bool_decide; [done|]. intros (d & Ed & ->)%fmap_Some.
  split; [|done]. apply newObject_ok. by eapply Ht.
Qed.

Lemma setBalance_ok t a v o : 0 <= v → obj_ok t a o → obj_ok t a (setBalance v o).
Proof.
  intros Hv [? (? & ? & ?) ? ? ?]. destruct (obs_setBalance v o) as (_ & Hc & Hs).
  split; try done. - by rewrite Hc. - intros k. by rewrite Hs.
Qed.

Lemma setNonce_ok t a v o : is_uint64 v → obj_ok t a o → obj_ok t a (setNonce v o).
Proof.
  intros Hv [? (? & ? & ?) ? ? ?]. destruct (obs_setNonce v o) as (_ & Hc & Hs).
  split; try done. - by rewrite Hc. - intros k. by rewrite Hs.
Qed.

Lemma setState_ok t a k v o : is_u256 v → obj_ok t a o → obj_ok t a (setState k v o).
Proof.
  intros Hv [? ? ? ? ?]. destruct (obs_setState k v o) as (_ & Hc).
  split; try done. - by rewrite Hc. - intros k'. rewrite o_state_setState. by case_decide.
Qed.

Lemma setCode_ok t a h cd o : zlen (default [] cd) < 2 ^ 62 → obj_ok t a o → obj_ok t a (setCode h cd o).
Proof.
  intros Hv [? (? & ? & ?) ? ? ?]. destruct (obs_setCode h cd o) as (_ & Hc & Hs).
  split; try done.
  - rewrite Hc. by apply code_of_small.
  - intros k. by rewrite Hs.
Qed.

Lemma with_suicided_ok t a b o : obj_ok t a o → obj_ok t a (with_flags b (deleted o) o).
Proof.
  intros [? ? ? ? ?]. destruct (obs_with_flags b (deleted o) o) as (_ & Hc & Hs).
  split; try done. - by rewrite Hc. - intros k. by rewrite Hs.
Qed.

Lemma obj_eq_ok t a o o' : obj_eq o o' → obj_ok t a o → obj_ok t a o'.
Proof.
  intros [? ? Hd ? Hc Hs ? Hdel] [? ? ? ? ?]. split; [congruence|..].
  - by rewrite <-Hd.
  - by rewrite <-Hc.
  - intros k. by rewrite <-Hs.
  - by rewrite <-Hdel.
Qed.

(** ** The objects of a state *)

Lemma acct_ok s a o : objects_inv s → acct s a = Some o → obj_ok (trie s) a o ∧ deleted o = false.
Proof.
  intros [Ho Ht _ _]. unfold acct. destruct (_ !! a) as [o'|] eqn:E.
  - destruct (deleted o') eqn:Ed; [done|]. intros [= <-]. split; [by apply Ho|done].
  - by apply from_trie_ok.
Qed.

Lemma put_inv s o : objects_inv s → obj_ok (trie s) (address o) o → objects_inv (put o s).
Proof. intros [] Ho. split; try done. cbn. by apply map_Forall_insert_2. Qed.

Lemma getStateObject_inv a s s' r : objects_inv s → getStateObject a s = Done r s' → objects_inv s'.
Proof.
  intros Hi E. destruct (getStateObject_run a s) as (s2 & E2 & Hf & _ & Hobj).
  rewrite E in E2. injection E2 as _ <-. destruct Hi as [Ho Ht Hl Hr].
  split; [|by rewrite <-(fr_trie _ _ Hf)|by rewrite <-(fr_logSize _ _ Hf)|by rewrite <-(fr_refund _ _ Hf)].
  rewrite <-(fr_trie _ _ Hf). destruct Hobj as [->|(o & Ho' & _ & ->)]; [done|].
  apply map_Forall_insert_2; [|done]. by eapply from_trie_ok.
Qed.

Lemma on_object_inv a f s s' :
  objects_inv s → (∀ o, obj_ok (trie s) a o → obj_ok (trie s) a (f o)) →
  on_object a f s = Done () s' → objects_inv s' ∧ frame s s'.
Proof.
  intros Hi Hf E. unfold on_object, mbind, M_bind in E.
  destruct (getStateObject_run a s) as (s1 & E1 & Hfr & _). rewrite E1 in E.
  pose proof (getStateObject_inv _ _ _ _ Hi E1) as Hi1.
  destruct (acct s a) as [o|] eqn:Ea; [|done]. injection E as <-.
  pose proof (Hf o (proj1 (acct_ok _ _ _ Hi Ea))) as Ho.
  split; [|by etrans; [exact Hfr|]]. apply (put_inv s1 (f o)); [done|].
  by rewrite <-(fr_trie _ _ Hfr), (oo_address _ _ _ Ho).
Qed.

(** ** Undoing keeps the invariant *)

(** What undoing an entry leaves of the bookkeeping. *)
Definition same_log s s' : Prop :=
  trie s = trie s' ∧ jrnl s = jrnl s' ∧ validRevisions s = validRevisions s' ∧
  nextRevisionId s = nextRevisionId s'.

Lemma frame_same_log s s' : frame s s' → same_log s s'.
Proof. by intros []. Qed.

Lemma revert_inv e s s' :
  objects_inv s → entry_ok (trie s) e → revert e s = Done () s' → objects_inv s' ∧ same_log s s'.
Proof.
  intros Hi He. destruct e; cbn [revert entry_ok] in *;
    try (intros E; apply on_object_inv in E; [|done|];
         [destruct E as [? ?%frame_same_log]; done|]).
  - intros [= <-]. split; [|done]. destruct Hi as [Ho ? ? ?]. split; try done. cbn. by apply map_Forall_delete.
  - intros [= <-]. split; [|done]. by apply (put_inv s prev).
  - unfold mbind, M_bind. destruct (getStateObject_run account s) as (s1 & E1 & Hfr & _). rewrite E1.
    pose proof (getStateObject_inv _ _ _ _ Hi E1) as Hi1.
    destruct (acct s account) as [o|] eqn:Ea; intros [= <-].
    2: { split; [done|]. by apply frame_same_log. }
    destruct (acct_ok _ _ _ Hi Ea) as [Ho _].
    split; [|by apply frame_same_log in Hfr].
    apply (put_inv s1 (setBalance prevbalance (with_flags prev (deleted o) o))); [done|].
    rewrite <-(fr_trie _ _ Hfr). cbn. rewrite (oo_address _ _ _ Ho).
    apply setBalance_ok; [done|]. by apply with_suicided_ok.
  - intros o. by apply setBalance_ok.
  - intros o. by apply setNonce_ok.
  - intros o. by apply setState_ok.
  - intros o. apply setCode_ok. by destruct He.
  - intros [= <-]. split; [|done]. by destruct Hi; split.
  - unfold mbind, M_bind, gets. destruct (_ =? 0)%nat; [done|]. intros [= <-]. split; [|done].
    destruct Hi; split; try done. cbn. apply uint64_range.
  - intros [= <-]. split; [|done]. by destruct Hi; split.
  - intros [= <-]. done.
Qed.

(** ** The counts of dirty addresses *)

Lemma count_app a es es' : count a (es ++ es') = count a es + count a es'.
Proof. unfold count, zlen. rewrite list.filter_app, length_app. lia. Qed.

Lemma count_one a e : count a [e] = if decide (dirtied e = Some a) then 1 else 0.
Proof. unfold count. rewrite filter_cons. by case_decide. Qed.

Lemma count_nonneg a es : 0 <= count a es.
Proof. apply zlen_nonneg. Qed.

Lemma counted_append e j :
  counted (entries j) (dirties j) → counted (entries (append e j)) (dirties (append e j)).
Proof.
  intros Hc a. pose proof (count_nonneg a (entries j)) as Hn. destruct (Hc a) as (H3 & H4 & H5).
  unfold append. destruct (dirtied e) as [b|] eqn:Eb; cbn; rewrite count_app, count_one, Eb.
  - destruct (decide (b = a)) as [->|Hne].
    + rewrite lookup_insert_eq, decide_True by done. cbn. split; [intros; by rewrite H3|]. split; [lia|].
      intros [= ?]. lia.
    + rewrite lookup_insert_ne, decide_False by congruence. rewrite Z.add_0_r. done.
  - rewrite Z.add_0_r. done.
Qed.

Lemma counted_dirty es j : counted es (dirties j) → counted es (dirties (dirty ripemd j)).
Proof.
  intros Hc a. pose proof (count_nonneg a es) as Hn. destruct (Hc a) as (H3 & H4 & H5). cbn.
  destruct (decide (a = ripemd)) as [->|Hne].
  - rewrite lookup_insert_eq. cbn. split; [done|]. split; [lia|]. intros [= ?]. lia.
  - by rewrite lookup_insert_ne.
Qed.

Lemma counted_undirty es e j :
  counted (es ++ [e]) (dirties j) →
  counted es (match dirtied e with Some a => dirties (undirty a j) | None => dirties j end).
Proof.
  intros Hc a. pose proof (count_nonneg a es) as Hn. destruct (Hc a) as (H3 & H4 & H5).
  rewrite count_app, count_one in H3, H4. destruct (dirtied e) as [b|] eqn:Eb.
  2: { rewrite decide_False, Z.add_0_r in H3, H4 by done. done. }
  cbn. destruct (decide (b = a)) as [->|Hne].
  - rewrite decide_True in H3, H4 by done. zcases.
    + rewrite lookup_delete_eq. cbn. split; [intros; rewrite H3 in * by done; lia|]. split; [lia|done].
    + rewrite lookup_insert_eq. cbn. split; [intros; rewrite H3 by done; lia|]. split; [lia|congruence].
  - rewrite decide_False, Z.add_0_r in H3, H4 by congruence.
    destruct (_ =? 0); [rewrite lookup_delete_ne by done|rewrite lookup_insert_ne by done]; done.
Qed.

(** ** Undoing several entries *)

Lemma revert_loop_inv suf pre s s' :
  objects_inv s → Forall (entry_ok (trie s)) suf → counted (pre ++ suf) (dirties (jrnl s)) →
  revert_loop (reverse suf) s = Done () s' →
  objects_inv s' ∧ trie s = trie s' ∧ entries (jrnl s) = entries (jrnl s') ∧
  counted pre (dirties (jrnl s')) ∧ validRevisions s = validRevisions s' ∧
  nextRevisionId s = nextRevisionId s'.
Proof.
  revert s. induction suf as [|e suf IH] using rev_ind; intros s Hi He Hc.
  { intros [= <-]. rewrite app_nil_r in Hc. done. }
  rewrite reverse_snoc. cbn [revert_loop]. unfold mbind, M_bind.
  apply Forall_app in He as [He He1]. rewrite Forall_singleton in He1.
  destruct (revert e s) as [[] s1|] eqn:E1; [|done].
  destruct (revert_inv _ _ _ Hi He1 E1) as [Hi1 (Ht & Hj & Hr & Hn)].
  rewrite app_assoc in Hc. pose proof (counted_undirty _ _ _ Hc) as Hc1. rewrite Hj in Hc1 |- *.
  destruct (dirtied e) as [a|]; cbn.
  - intros E. apply IH in E as (? & ? & ? & ? & ? & ?);
      [|by destruct Hi1; split|cbn; by rewrite <-Ht|done].
    cbn in *. rewrite Ht, Hr, Hn. done.
  - intros E. apply IH in E as (? & ? & ? & ? & ? & ?); [|done|by rewrite <-Ht|done].
    rewrite Ht, Hr, Hn. done.
Qed.

(** ** Later states *)

(** Undoing the entries [suf] in [s'] gives [s], as far as can be observed. *)
Definition undoes (suf : list journalEntry) (s' s : stateDB) : Prop :=
  ∃ s1, revert_loop (reverse suf) s' = Done () s1 ∧ state_eq s1 s.

Definition state_ext s s' : Prop :=
  validRevisions s `prefix_of` validRevisions s' ∧ nextRevisionId s <= nextRevisionId s' ∧
  ∃ suf, entries (jrnl s') = entries (jrnl s) ++ suf ∧ undoes suf s' s.

Lemma revert_loop_app es es' s s1 :
  revert_loop es s = Done () s1 → revert_loop (es ++ es') s = revert_loop es' s1.
Proof.
  revert s. induction es as [|e es IH]; intros s; cbn [revert_loop app].
  { by intros [= ->]. }
  unfold mbind, M_bind. destruct (revert e s) as [[] s2|]; [|done].
  destruct (dirtied e); cbn; apply IH.
Qed.

Lemma state_ext_eq s s' :
  state_eq s s' → entries (jrnl s) = entries (jrnl s') → validRevisions s = validRevisions s' →
  nextRevisionId s = nextRevisionId s' → state_ext s s'.
Proof.
  intros Heq He Hr Hn. split; [by rewrite Hr|]. split; [lia|]. exists []. rewrite app_nil_r.
  split; [done|]. by exists s'.
Qed.

Lemma state_ext_refl s : state_ext s s.
Proof. by apply state_ext_eq. Qed.

Lemma state_ext_trans s1 s2 s3 : state_ext s1 s2 → state_ext s2 s3 → state_ext s1 s3.
Proof.
  intros (Hr & Hn & suf & He & u & Eu & Hu) (Hr' & Hn' & suf' & He' & u' & Eu' & Hu').
  split; [by etrans|]. split; [lia|]. exists (suf ++ suf'). split; [by rewrite He', He, app_assoc|].
  destruct (revert_loop_proper _ _ u' _ (symmetry Hu') Eu) as (w & Ew & Hw).
  exists w. rewrite reverse_app, (revert_loop_app _ _ _ u') by done. split; [done|]. by rewrite <-Hw.
Qed.

(** A change that appends the entry that undoes it. *)
Lemma state_ext_entry e s s' s1 :
  entries (jrnl s') = entries (jrnl s) ++ [e] → validRevisions s = validRevisions s' →
  nextRevisionId s = nextRevisionId s' → revert e s' = Done () s1 → state_eq s1 s → state_ext s s'.
Proof.
  intros He Hr Hn E Heq. split; [by rewrite Hr|]. split; [lia|]. exists [e]. split; [done|].
  unfold undoes. cbn [reverse rev_append revert_loop]. unfold mbind, M_bind. rewrite E.
  destruct (dirtied e); cbn; (eexists; split; [reflexivity|]); [|done].
  etrans; [symmetry; apply with_jrnl_eq|done].
Qed.

End Inv.
