(* ===== verification/StateOps.v ===== *)
(** * The operations of the journalled state

    Each operation keeps the invariant and leads to a later state. *)
From S2P Require Import Prelude BigMath Params OpCodes VmAnalysis VmMemory Rlp VmTypes.
From S2P Require Import VmLaws Nov2019 StateDb StateObs StateInv.
Import State.

Section Ops.
Context `{!Crypto} `{!Database} `{!DatabaseLaws}.

Implicit Types (o : stateObject) (s : stateDB) (e : journalEntry) (t : Trie).

(** The operation returns, keeps the invariant and leads to a later state. *)
Definition goes {A} (m : M stateDB A) s (P : A → stateDB → Prop) : Prop :=
  ∃ r s', m s = Done r s' ∧ state_inv s' ∧ state_ext s s' ∧ P r s'.

Lemma goes_ret {A} (r : A) s (P : A → stateDB → Prop) : state_inv s → P r s → goes (mret r) s P.
Proof. intros Hi HP. exists r, s. split; [done|]. split; [done|]. split; [apply state_ext_refl|done]. Qed.

Lemma goes_bind {A B} (m : M stateDB A) (k : A → M stateDB B) s P Q :
  goes m s P → (∀ r s', state_inv s' → P r s' → goes (k r) s' Q) → goes (m ≫= k) s Q.
Proof.
  intros (r & s1 & E & Hi & Hx & HP) Hk. destruct (Hk r s1 Hi HP) as (r2 & s2 & E2 & Hi2 & Hx2 & HQ).
  exists r2, s2. unfold mbind, M_bind. rewrite E. split; [done|]. split; [done|].
  split; [by eapply state_ext_trans|done].
Qed.

Lemma goes_mono {A} (m : M stateDB A) s (P Q : A → stateDB → Prop) :
  goes m s P → (∀ r s', state_inv s' → P r s' → Q r s') → goes m s Q.
Proof. intros (r & s1 & E & Hi & Hx & HP) HPQ. exists r, s1. eauto. Qed.

(** ** Loading *)

Lemma same_log_inv s s' : state_inv s → objects_inv s' → same_log s s' → state_inv s'.
Proof.
  intros [_ He Hd Hr] Ho (Ht & Hj & Hv & Hn). rewrite Ht, Hj in He. rewrite Hj in Hd. rewrite Hv, Hn in Hr.
  by split.
Qed.

Lemma getStateObject_goes a s : state_inv s →
  goes (getStateObject a) s (λ r s', r = acct s a ∧ frame s s' ∧ ∀ b, acct s' b = acct s b).
Proof.
  intros Hi. destruct (getStateObject_run a s) as (s' & E & Hf & Ha & _).
  exists (acct s a), s'. split; [done|].
  pose proof (getStateObject_inv _ _ _ _ (si_objects _ Hi) E) as Hi'.
  split; [eapply same_log_inv; eauto using frame_same_log|]. split; [|done].
  pose proof Hf as []. apply state_ext_eq; try done; [by apply loaded_eq|by f_equal].
Qed.

(** An object that differs at most in its caches is written back. *)
Lemma put_back_goes a s o o' : state_inv s → acct s a = Some o → obj_eq o o' →
  goes (setStateObject o') s (λ _ s', state_eq s s').
Proof.
  intros Hi Ha Ho. exists (), (put o' s). split; [done|].
  destruct (acct_ok _ _ _ (si_objects _ Hi) Ha) as [Hok Hdel].
  assert (obj_ok (trie s) a o') as Hok' by by eapply obj_eq_ok.
  assert (state_eq s (put o' s)) as Heq.
  { apply frame_state_eq; [done|]. intros b. rewrite acct_put, (oo_address _ _ _ Hok').
    case_decide as Hb; [|done]. subst b. rewrite Ha, <-(oe_deleted _ _ Ho), Hdel. by constructor. }
  split; [|split; [by apply state_ext_eq|done]].
  eapply same_log_inv; [done| |done]. apply put_inv; [apply Hi|].
  by rewrite (oo_address _ _ _ Hok').
Qed.

(** ** Writing with an entry *)

Definition journalled e o s : stateDB := put o (with_jrnl (append e (jrnl s)) s).

Lemma entries_append e j : entries (append e j) = entries j ++ [e].
Proof. unfold append. by destruct (dirtied e). Qed.

Lemma journal_append_inv e s :
  state_inv s → entry_ok (trie s) e → state_inv (with_jrnl (append e (jrnl s)) s).
Proof.
  intros [[] He Hd Hr] Hok. split; [by split| |by apply counted_append|done].
  cbn. rewrite entries_append. apply Forall_app. split; [done|]. by apply Forall_singleton.
Qed.

Lemma write_inv e o s :
  state_inv s → entry_ok (trie s) e → obj_ok (trie s) (address o) o → state_inv (journalled e o s).
Proof.
  intros Hi He Ho. pose proof (journal_append_inv e s Hi He) as Hi'.
  eapply same_log_inv; [exact Hi'| |done]. apply put_inv; [apply Hi'|done].
Qed.

Lemma acct_write e o s a :
  acct (journalled e o s) a = if decide (address o = a) then (if deleted o then None else Some o) else acct s a.
Proof. unfold journalled. by rewrite acct_put. Qed.

(** An entry that undoes a write of one object. *)
Lemma write_ext a e g o o' s :
  state_inv s → acct s a = Some o → address o' = a → deleted o' = false →
  revert e (journalled e o' s) = on_object a g (journalled e o' s) → obj_eq (g o') o → state_ext s (journalled e o' s).
Proof.
  intros Hi Ha Ho' Hd' Hr Heq. pose proof (on_object_run a g (journalled e o' s)) as Hrun.
  destruct (acct_ok _ _ _ (si_objects _ Hi) Ha) as [Hok Hdel].
  rewrite acct_write, decide_True, Hd' in Hrun by done. destruct Hrun as (s1 & E & Hf & Ha1).
  eapply state_ext_entry; [apply entries_append|done|done|by rewrite Hr|].
  etrans; [apply (put_proper s1 (journalled e o' s) _ (g o')); [symmetry; by apply loaded_eq|done]|].
  split; try done. intros b.
  rewrite acct_put, acct_write, Ho', (oe_address _ _ Heq), (oo_address _ _ _ Hok), (oe_deleted _ _ Heq), Hdel.
  case_decide as Hb; [|done]. subst b. rewrite Ha. by constructor.
Qed.

(** Undoing the writes of an object's fields. *)
Lemma undo_setBalance v o : obj_eq (setBalance (Balance (data o)) (setBalance v o)) o.
Proof.
  destruct (obs_setBalance v o) as (H1' & H2 & H3).
  destruct (obs_setBalance (Balance (data o)) (setBalance v o)) as (H4 & H5 & H6).
  split; try congruence; try done; try by destruct o as [??[]]. all: intros k; by rewrite H6.
Qed.

Lemma undo_setNonce v o : obj_eq (setNonce (Nonce (data o)) (setNonce v o)) o.
Proof.
  destruct (obs_setNonce v o) as (H1' & H2 & H3).
  destruct (obs_setNonce (Nonce (data o)) (setNonce v o)) as (H4 & H5 & H6).
  split; try congruence; try done; try by destruct o as [??[]]. all: intros k; by rewrite H6.
Qed.

Lemma undo_setState k v o : obj_eq (setState k (o_state o k) (setState k v o)) o.
Proof.
  destruct (obs_setState k v o) as (H1' & H2).
  destruct (obs_setState k (o_state o k) (setState k v o)) as (H4 & H5).
  split; try congruence; try done. intros k'. rewrite !o_state_setState. by repeat case_decide; subst.
Qed.

Lemma undo_setCode h cd o :
  length (CodeHash (data o)) = 32%nat →
  obj_eq (setCode (BytesToHash (CodeHash (data o))) (code o) (setCode h cd o)) o.
Proof.
  intros Hl. destruct (obs_setCode h cd o) as (H1' & H2 & H3).
  destruct (obs_setCode (BytesToHash (CodeHash (data o))) (code o) (setCode h cd o)) as (H4 & H5 & H6).
  rewrite HashBytes_BytesToHash in H5 by done.
  split; try congruence; try done.
  - cbn. rewrite HashBytes_BytesToHash by done. by destruct o as [??[]].
  - rewrite H5. by rewrite o_code_eq.
Qed.

Lemma undo_suicide o :
  deleted o = false →
  obj_eq (setBalance (Balance (data o)) (with_flags (suicided o) false (setBalance 0 (markSuicided o)))) o.
Proof.
  intros Hd. unfold markSuicided. destruct (obs_with_flags true (deleted o) o) as (H1' & H2 & H3).
  destruct (obs_setBalance 0 (with_flags true (deleted o) o)) as (H4 & H5 & H6).
  destruct (obs_with_flags (suicided o) false (setBalance 0 (with_flags true (deleted o) o))) as (H7 & H8 & H9).
  destruct (obs_setBalance (Balance (data o))
    (with_flags (suicided o) false (setBalance 0 (with_flags true (deleted o) o)))) as (H10 & H11 & H12).
  split; try congruence; try done; try by destruct o as [??[]]. all: intros k; by rewrite H12, H9, H6.
Qed.

(** All observations but those of accounts. *)
Record keeps s s' : Prop := {
  ke_trie : trie s = trie s';
  ke_refund : refund s = refund s';
  ke_thash : thash s = thash s';
  ke_logs : logs s = logs s';
  ke_preimages : preimages s = preimages s'
}.

#[global] Instance keeps_equiv : Equivalence keeps.
Proof.
  split.
  - intros s. by split.
  - intros s s' []. by split.
  - intros s1 s2 s3 [] []. split; intros; etrans; eauto.
Qed.

Lemma frame_keeps s s' : frame s s' → keeps s s'.
Proof. intros []. by split. Qed.

(** [s'] is [s] with another account at [a]. *)
Definition sets a o s s' : Prop :=
  keeps s s' ∧ ∀ b, acct s' b = if decide (a = b) then Some o else acct s b.

Lemma sets_changes a o o' s s' :
  acct s a = Some o → sets a o' s s' →
  changes (state_view s) (state_view s') a (Balance (data o') - Balance (data o)).
Proof.
  intros Ha [_ Hs] b. cbn. rewrite Hs. case_decide as Hb; [|by rewrite Z.add_0_r].
  subst b. rewrite Ha. cbn. lia.
Qed.

Lemma sets_same a o o' s s' :
  acct s a = Some o → sets a o' s s' → Balance (data o') = Balance (data o) →
  same_balances (state_view s) (state_view s').
Proof.
  intros Ha Hs Hb b. rewrite (sets_changes _ _ _ _ _ Ha Hs), Hb, Z.sub_diag. case_decide; lia.
Qed.

Lemma write_goes (m : M stateDB ()) a e g o o' s :
  state_inv s → acct s a = Some o → m s = Done () (journalled e o' s) → entry_ok (trie s) e →
  obj_ok (trie s) a o' → deleted o' = false →
  revert e (journalled e o' s) = on_object a g (journalled e o' s) → obj_eq (g o') o →
  goes m s (λ _, sets a o' s).
Proof.
  intros Hi Ha E He Ho' Hd Hr Heq. pose proof (oo_address _ _ _ Ho') as Hadr.
  exists (), (journalled e o' s). split; [done|]. split; [apply write_inv; [done..|by rewrite Hadr]|].
  split; [by eapply write_ext|]. split; [done|]. intros b. by rewrite acct_write, Hadr, Hd.
Qed.

(** ** Creating *)

Definition blank a : stateObject := setNonce 0 (newObject a emptyAccount).

Lemma blank_ok t a : obj_ok t a (blank a).
Proof.
  apply setNonce_ok; [done|]. apply newObject_ok. split; [done|]. split; [done|]. apply length_Keccak256.
Qed.

Definition create_entry a (prev : option stateObject) : journalEntry :=
  match prev with None => createObjectChange a | Some prev => resetObjectChange prev end.

Lemma acct_none s a : objects_inv s → acct s a = None → from_trie (trie s) a = None.
Proof.
  intros [Ho _ _ _]. unfold acct. destruct (_ !! a) as [o|] eqn:E; [|done].
  destruct (deleted o) eqn:Ed; [|done]. intros _. by apply (Ho _ _ E).
Qed.

Lemma create_write a s o' :
  state_inv s → obj_ok (trie s) a o' → deleted o' = false →
  state_inv (journalled (create_entry a (acct s a)) o' s) ∧ state_ext s (journalled (create_entry a (acct s a)) o' s).
Proof.
  intros Hi Ho' Hd. pose proof (oo_address _ _ _ Ho') as Hadr. split.
  - apply write_inv; [done| |by rewrite Hadr].
    destruct (acct s a) as [o|] eqn:Ea; [|done]. destruct (acct_ok _ _ _ (si_objects _ Hi) Ea) as [Hok _].
    cbn. by rewrite (oo_address _ _ _ Hok).
  - destruct (acct s a) as [o|] eqn:Ea; cbn [create_entry].
    + destruct (acct_ok _ _ _ (si_objects _ Hi) Ea) as [Hok Hdel].
      eapply state_ext_entry; [apply entries_append|done|done|reflexivity|].
      split; try done. intros b.
      change (option_Forall2 obj_eq (acct (put o (journalled (resetObjectChange o) o' s)) b) (acct s b)).
      rewrite acct_put, acct_write, Hadr, (oo_address _ _ _ Hok), Hdel.
      case_decide as Hb; [by subst b; rewrite Ea|done].
    + eapply state_ext_entry; [apply entries_append|done|done|reflexivity|].
      split; try done. intros b. pose proof (acct_none _ _ (si_objects _ Hi) Ea) as Hn.
      destruct (decide (a = b)) as [<-|Hne].
      * rewrite Ea. unfold acct. cbn. rewrite lookup_delete_eq. by rewrite Hn.
      * unfold acct. cbn. rewrite Hadr, lookup_delete_ne, lookup_insert_ne by done. done.
Qed.

Lemma createObject_goes a s : state_inv s →
  goes (createObject a) s (λ r s', r = (blank a, acct s a) ∧ sets a (blank a) s s').
Proof.
  intros Hi. eapply goes_bind; [by apply getStateObject_goes|].
  intros r s1 Hi1 (-> & Hf & Ha). rewrite <-(Ha a).
  destruct (create_write a s1 (blank a) Hi1 (blank_ok _ _) eq_refl) as [Hi2 Hx2].
  exists (blank a, acct s1 a), (journalled (create_entry a (acct s1 a)) (blank a) s1).
  split; [done|]. split; [exact Hi2|]. split; [exact Hx2|]. split; [done|].
  split; [etrans; [by apply frame_keeps|done]|]. intros b. rewrite acct_write. cbn. by rewrite Ha.
Qed.

(** The object of an address, which is a blank one if there was none. *)
Lemma GetOrNewStateObject_goes a s : state_inv s →
  goes (GetOrNewStateObject a) s (λ o s', acct s' a = Some o ∧
    (acct s a = Some o ∧ keeps s s' ∧ (∀ b, acct s' b = acct s b) ∨
     acct s a = None ∧ o = blank a ∧ sets a (blank a) s s')).
Proof.
  intros Hi. eapply goes_bind; [by apply getStateObject_goes|].
  intros r s1 Hi1 (-> & Hf & Ha). destruct (acct s a) as [o|] eqn:Ea.
  - destruct (acct_ok _ _ _ (si_objects _ Hi) Ea) as [_ ->]. apply goes_ret; [done|].
    split; [by rewrite Ha|]. left. split; [done|]. split; [by apply frame_keeps|done].
  - eapply goes_bind; [by apply createObject_goes|]. intros r s2 Hi2 (-> & Hk & Ha2).
    apply goes_ret; [done|]. cbn. split; [by rewrite Ha2, decide_True|]. right. split; [done|].
    split; [done|]. split; [by etrans; [apply frame_keeps|]|]. intros b. by rewrite Ha2, Ha.
Qed.

(** What a state with a blank account more shows. *)
Lemma blank_static a s s' :
  acct s a = None → sets a (blank a) s s' → view_static (state_view s) (state_view s').
Proof.
  intros Ha [[] Hs]. assert (o_code (blank a) = []) as Hc.
  { unfold blank. destruct (obs_setNonce 0 (newObject a emptyAccount)) as (_ & -> & _).
    rewrite o_code_eq. unfold code_of. cbn. by rewrite bool_decide_eq_true_2. }
  assert (∀ k, o_state (blank a) k = 0) as Hst.
  { intros k. unfold blank. destruct (obs_setNonce 0 (newObject a emptyAccount)) as (_ & _ & ->).
    unfold o_state, o_trie, getTrie. cbn.
    destruct (OpenStorageTrie_empty (Keccak256Hash (AddressBytes a))) as (t & -> & Ht). cbn.
    unfold stored. by rewrite Ht. }
  split; intros; cbn; rewrite ?Hs; try (destruct (decide (a = a0)) as [<-|]; [rewrite Ha|done]); cbn;
    try done.
  - by rewrite bool_decide_eq_true_2.
  - unfold logs_of. congruence.
Qed.

(** ** Writing *)

Section Object.
Context (a : Address) (s : stateDB) (o : stateObject) (Hi : state_inv s) (Ha : acct s a = Some o).

Let Hok : obj_ok (trie s) a o := proj1 (acct_ok _ _ _ (si_objects _ Hi) Ha).
Let Hdel : deleted o = false := proj2 (acct_ok _ _ _ (si_objects _ Hi) Ha).
Let Hadr : address o = a := oo_address _ _ _ Hok.

Lemma so_SetBalance_goes v : 0 <= v → goes (so_SetBalance v o) s (λ _, sets a (setBalance v o) s).
Proof.
  intros Hv. eapply write_goes; [done|done|reflexivity|..].
  - apply (oo_account _ _ _ Hok).
  - by apply setBalance_ok.
  - done.
  - by rewrite Hadr.
  - apply undo_setBalance.
Qed.

Lemma so_SetNonce_goes v : is_uint64 v → goes (so_SetNonce v o) s (λ _, sets a (setNonce v o) s).
Proof.
  intros Hv. eapply write_goes; [done|done|reflexivity|..].
  - apply (oo_account _ _ _ Hok).
  - by apply setNonce_ok.
  - done.
  - by rewrite Hadr.
  - apply undo_setNonce.
Qed.

Lemma so_SetState_goes k v : is_u256 v →
  goes (so_SetState k v o) s (λ _ s', ∃ o', obj_eq o o' ∧ sets a (setState k v o') s s').
Proof.
  intros Hv. destruct (so_GetState_ok k o) as (o' & E & Heq).
  assert (obj_ok (trie s) a o') as Hok' by by eapply obj_eq_ok.
  apply (goes_mono _ _ (λ _, sets a (setState k v o') s)); [|eauto].
  eapply (write_goes _ a (storageChange (address o') k (o_state o k)) (setState k (o_state o k)) o);
    [done|done|..].
  - unfold so_SetState, mbind, M_bind. by rewrite E.
  - apply Hok.
  - by apply setState_ok.
  - cbn. by rewrite <-(oe_deleted _ _ Heq).
  - by rewrite (oo_address _ _ _ Hok').
  - rewrite (oe_state _ _ Heq k). etrans; [apply undo_setState|by symmetry].
Qed.

Lemma so_SetCode_goes h cd : zlen cd < 2 ^ 62 →
  goes (so_SetCode h cd o) s (λ _ s', ∃ o', obj_eq o o' ∧ sets a (setCode h (Some cd) o') s s').
Proof.
  intros Hv. destruct (so_Code o) as [prev o'] eqn:E.
  destruct (so_Code_ok _ _ _ E) as (Hp & Heq & Hcode & Hdata & Hh).
  assert (obj_ok (trie s) a o') as Hok' by by eapply obj_eq_ok.
  apply (goes_mono _ _ (λ _, sets a (setCode h (Some cd) o') s)); [|eauto].
  eapply (write_goes _ a (codeChange (address o') prev (CodeHash (data o')))
            (setCode (BytesToHash (CodeHash (data o'))) prev) o); [done|done|..].
  - unfold so_SetCode. by rewrite E.
  - cbn. rewrite Hp. split; [apply (oo_account _ _ _ Hok')|apply Hok].
  - by apply setCode_ok.
  - cbn. by rewrite <-(oe_deleted _ _ Heq).
  - by rewrite (oo_address _ _ _ Hok').
  - rewrite <-Hcode. etrans; [apply undo_setCode, (oo_account _ _ _ Hok')|by symmetry].
Qed.

End Object.

End Ops.
