(* ===== verification/StateOk.v ===== *)
(** * The journalled state is a lawful state

    The state of [core/state] keeps the promises of [StateLaws], so what is
    proved of the machine for every lawful state holds on it.  At the end a concrete
    database of empty tries, kept as functions, which has the laws of
    [DatabaseLaws]; a fresh state on it, and one with some accounts. *)
From S2P Require Import Prelude BigMath Params OpCodes VmAnalysis VmMemory Rlp VmTypes.
From S2P Require Import VmLaws VmSample Nov2019 StateDb StateObs StateInv StateOps.
Import State.

(** ** [sort.Search] *)

Lemma Search_loop_spec f fuel i j :
  (∀ a b, (a <= b)%nat → f a = true → f b = true) → (i <= j)%nat → (j - i <= fuel)%nat →
  let r := Search_loop fuel i j f in
  (i <= r <= j)%nat ∧ (∀ k, (i <= k < r)%nat → f k = false) ∧ ((r < j)%nat → f r = true).
Proof.
  intros Hm. revert i j. induction fuel as [|fuel IH]; intros i j Hij Hf; cbn [Search_loop]; cbv zeta.
  { split; [lia|]. split; intros; exfalso; lia. }
  destruct (Nat.ltb_spec i j) as [Hlt|]; [|split; [lia|split; intros; exfalso; lia]].
  pose proof (Nat.div_mod (i + j) 2 ltac:(lia)). pose proof (Nat.mod_upper_bound (i + j) 2 ltac:(lia)).
  set (h := ((i + j) / 2)%nat) in *. clearbody h. destruct (f h) eqn:Efh.
  - destruct (IH i h ltac:(lia) ltac:(lia)) as (Hr & Hlo & Hhi). split; [lia|]. split; [done|].
    intros _. destruct (decide (Search_loop fuel i h f = h)) as [->|]; [done|]. apply Hhi. lia.
  - destruct (IH (S h) j ltac:(lia) ltac:(lia)) as (Hr & Hlo & Hhi). split; [lia|].
    split; [|done]. intros k Hk. destruct (decide (S h <= k)%nat); [apply Hlo; lia|].
    destruct (f k) eqn:Ek; [|done]. by rewrite (Hm k h ltac:(lia) Ek) in Efh.
Qed.

(** The search finds the first index at which a monotone predicate holds. *)
Lemma Search_first f n k :
  (∀ a b, (a <= b)%nat → f a = true → f b = true) → (k < n)%nat → f k = true →
  (∀ i, (i < k)%nat → f i = false) → Search n f = k.
Proof.
  intros Hm Hk Hfk Hlt. destruct (Search_loop_spec f n 0 n Hm ltac:(lia) ltac:(lia)) as (Hr & Hlo & Hhi).
  unfold Search. set (r := Search_loop n 0 n f) in *. cbn in *.
  destruct (Nat.lt_trichotomy r k) as [Hc|[Hc|Hc]]; [|done|].
  - rewrite Hlt in Hhi by done. lia.
  - rewrite Hlo in Hfk by lia. done.
Qed.

Section Ok.
Context `{!Crypto} `{!Database} `{!DatabaseLaws}.

Implicit Types (o : stateObject) (s : stateDB).

(** ** Reading *)

(** Reading a field of the object. *)
Lemma read_goes {A} a (f : option stateObject → A) s : state_inv s →
  goes (so ← getStateObject a; mret (f so)) s (λ r s', r = f (acct s a) ∧ state_eq s s').
Proof.
  intros Hi. eapply goes_bind; [by apply getStateObject_goes|]. intros r s1 Hi1 (-> & Hf & Ha).
  apply goes_ret; [done|]. split; [done|by apply loaded_eq].
Qed.

Lemma GetState_goes a k s : state_inv s →
  goes (GetState a k) s (λ r s', r = v_storage (state_view s) a k ∧ state_eq s s').
Proof.
  intros Hi. eapply goes_bind; [by apply getStateObject_goes|]. intros r s1 Hi1 (-> & Hf & Ha). cbn.
  pose proof (loaded_eq _ _ Hf Ha) as Heq.
  destruct (acct s a) as [o|] eqn:Ea; [|by apply goes_ret].
  destruct (so_GetState_ok k o) as (o' & E & Ho).
  destruct (put_back_goes a s1 o o') as ([] & s2 & E2 & Hi2 & Hx2 & He2); [done|by rewrite Ha|done|].
  injection E2 as <-. exists (o_state o k), (put o' s1).
  split; [unfold mbind, M_bind; by rewrite E|]. split; [done|]. split; [done|]. split; [done|]. by etrans.
Qed.

Lemma GetCode_goes a s : state_inv s →
  goes (GetCode a) s (λ r s', r = v_code (state_view s) a ∧ state_eq s s').
Proof.
  intros Hi. eapply goes_bind; [by apply getStateObject_goes|]. intros r s1 Hi1 (-> & Hf & Ha). cbn.
  pose proof (loaded_eq _ _ Hf Ha) as Heq.
  destruct (acct s a) as [o|] eqn:Ea; [|by apply goes_ret].
  destruct (so_Code o) as [cd o'] eqn:E. destruct (so_Code_ok _ _ _ E) as (Hcd & Ho & _).
  eapply goes_bind; [eapply (put_back_goes a s1 o o'); [done|by rewrite Ha|done]|].
  intros [] s2 Hi2 He2. apply goes_ret; [done|]. split; [done|by etrans].
Qed.

Lemma GetCodeSize_goes a s : state_inv s →
  goes (GetCodeSize a) s (λ r s', r = zlen (v_code (state_view s) a) ∧ state_eq s s').
Proof.
  intros Hi. eapply goes_bind; [by apply getStateObject_goes|]. intros r s1 Hi1 (-> & Hf & Ha). cbn.
  pose proof (loaded_eq _ _ Hf Ha) as Heq.
  destruct (acct s a) as [o|] eqn:Ea; [|by apply goes_ret]. cbn. rewrite o_code_eq. unfold code_of.
  destruct (code o) as [cd|]; [by apply goes_ret|].
  pose proof (ContractCodeSize_length (addrHash o) (BytesToHash (CodeHash (data o)))) as Hl.
  assert (zlen (if bool_decide (CodeHash (data o) = emptyCodeHash) then []
                else (ContractCode (addrHash o) (BytesToHash (CodeHash (data o)))).1) =
          (ContractCodeSize (addrHash o) (BytesToHash (CodeHash (data o)))).1) as ->.
  { rewrite Hl. case_bool_decide as Hh; [|done]. by rewrite Hh, ContractCode_empty. }
  destruct (ContractCodeSize _ _) as [n [err|]]; cbn; [|by apply goes_ret].
  exists n, (setError (Some err) s1). split; [done|].
  split; [eapply same_log_inv; [done| |done]; by destruct (si_objects _ Hi1); split|].
  split; [apply state_ext_eq; try done; by split|]. split; [done|]. etrans; [exact Heq|]. by split.
Qed.

(** ** Writing *)

Lemma AddRefund_goes g s : state_inv s →
  goes (AddRefund g) s (λ _ s', same_balances (state_view s) (state_view s')).
Proof.
  intros Hi. pose proof (journal_append_inv (refundChange (refund s)) s Hi
    (oi_refund _ (si_objects _ Hi))) as Hi'.
  do 2 eexists. split; [reflexivity|].
  split; [eapply same_log_inv; [exact Hi'| |done]; destruct (si_objects _ Hi'); split; try done;
          apply uint64_range|].
  split; [|done]. eapply state_ext_entry; [apply entries_append|done|done|reflexivity|]. by split.
Qed.

Lemma AddPreimage_goes h d s : state_inv s →
  goes (AddPreimage h d) s (λ _ s', view_eq (state_view s) (state_view s')).
Proof.
  intros Hi. unfold AddPreimage. unfold mbind at 1, M_bind at 1, gets, goes.
  destruct (preimages s !! h) as [p|] eqn:Eh; [by apply goes_ret|].
  pose proof (journal_append_inv (addPreimageChange h) s Hi I) as Hi'.
  do 2 eexists. split; [reflexivity|].
  split; [eapply same_log_inv; [exact Hi'| |done]; by destruct (si_objects _ Hi'); split|].
  split; [|by split]. eapply state_ext_entry; [apply entries_append|done|done|reflexivity|].
  split; try done. cbn. by apply delete_insert_id.
Qed.

Lemma AddLog_goes l s : state_inv s →
  goes (AddLog l) s (λ _ s', same_balances (state_view s) (state_view s')).
Proof.
  intros Hi. pose proof (journal_append_inv (addLogChange (thash s)) s Hi I) as Hi'.
  do 2 eexists. split; [reflexivity|].
  split; [eapply same_log_inv; [exact Hi'| |done]; destruct (si_objects _ Hi'); split; try done; apply uint64_range|].
  split; [|done]. set (log := {| sl_log := l |}).
  assert (uint64 (uint64 (logSize s + 1) - 1) = logSize s) as Hsz.
  { unfold uint64. rewrite Zminus_mod_idemp_l. replace (logSize s + 1 - 1) with (logSize s) by lia.
    apply uint64_id. apply Hi. }
  eapply state_ext_entry; [apply entries_append|done|done|..].
  - cbn [revert]. unfold mbind, M_bind, gets. cbn. rewrite lookup_insert_eq. cbn.
    rewrite length_app. cbn [length]. rewrite (proj2 (Nat.eqb_neq _ 0)) by lia. reflexivity.
  - split; try done. intros h. unfold logs_of. cbn. set (l0 := default [] (logs s !! thash s)).
    replace (length l0 + 1 - 1)%nat with (length l0) by lia.
    destruct (decide (thash s = h)) as [<-|Hne].
    + destruct (Nat.eqb_spec (length l0 + 1) 1) as [Hl|]; [rewrite lookup_delete_eq|rewrite lookup_insert_eq]; cbn.
      * symmetry. apply length_zero_iff_nil. fold l0. lia.
      * by rewrite take_app_length.
    + destruct (_ =? 1)%nat; [rewrite lookup_delete_ne by done|rewrite lookup_insert_ne by done];
        by rewrite lookup_insert_ne.
Qed.

Lemma Suicide_goes a s : state_inv s →
  goes (Suicide a) s (λ _ s', changes (state_view s) (state_view s') a (- v_balance (state_view s) a)).
Proof.
  intros Hi. eapply goes_bind; [by apply getStateObject_goes|]. intros r s1 Hi1 (-> & Hf & Ha).
  assert (same_balances (state_view s) (state_view s1)) as Hb by (intros b; cbn; by rewrite Ha).
  rewrite <-Hb. destruct (acct s a) as [o|] eqn:Ea; rewrite <-Ha in Ea.
  2: { apply goes_ret; [done|]. eapply changes_after; [exact Hb|]. 
       eapply changes_eq; [by apply same_changes|]. cbn. by rewrite Ea. }
  destruct (acct_ok _ _ _ (si_objects _ Hi1) Ea) as [Hok Hdel].
  set (o' := setBalance 0 (markSuicided o)). set (e := suicideChange a (suicided o) (Balance (data o))).
  destruct (write_goes (λ s, Done () (journalled e o' s)) a e
    (λ x, setBalance (Balance (data o)) (with_flags (suicided o) (deleted x) x)) o o' s1)
    as ([] & s2 & E2 & Hi2 & Hx2 & Hs2); try done.
  - apply (oo_account _ _ _ Hok).
  - apply setBalance_ok; [done|]. by apply with_suicided_ok.
  - cbn [e revert]. unfold on_object, mbind, M_bind.
    destruct (getStateObject_run a (journalled e o' s1)) as (s3 & -> & _).
    rewrite acct_write, decide_True by apply (oo_address _ _ _ Hok). cbn. by rewrite Hdel.
  - replace (deleted o') with false by (cbn; congruence). by apply undo_suicide.
  - injection E2 as <-. exists true, (journalled e o' s1). split; [done|]. split; [done|]. split; [done|].
    eapply changes_after; [exact Hb|]. pose proof (sets_changes _ _ _ _ _ Ea Hs2) as Hc.
    cbn [state_view v_balance] in Hc |- *. rewrite Ea. exact Hc.
Qed.

Lemma CreateAccount_goes a s : state_inv s →
  goes (CreateAccount a) s (λ _ s', same_balances (state_view s) (state_view s') ∧
    (acct s a = None → view_static (state_view s) (state_view s'))).
Proof.
  intros Hi. destruct (acct s a) as [o|] eqn:Ea.
  2: { eapply goes_bind; [by apply createObject_goes|]. intros r s1 Hi1 (-> & Hs). rewrite Ea.
       apply goes_ret; [done|]. pose proof (blank_static _ _ _ Ea Hs) as Hv. split; [|done].
       intros b. symmetry. apply Hv. }
  destruct (getStateObject_goes a s Hi) as (r & s1 & E1 & Hi1 & Hx1 & -> & Hf & Ha).
  rewrite <-Ha in Ea. destruct (acct_ok _ _ _ (si_objects _ Hi1) Ea) as [Hok Hdel].
  set (o' := setBalance (Balance (data o)) (blank a)).
  destruct (create_write a s1 o' Hi1) as [Hi2 Hx2]; [|done|].
  { apply setBalance_ok; [apply (oo_account _ _ _ Hok)|apply blank_ok]. }
  rewrite Ea in Hi2, Hx2. exists (), (journalled (resetObjectChange o) o' s1). split.
  { unfold CreateAccount, createObject, mbind, M_bind. rewrite E1, <-Ha, Ea. cbn.
    unfold journalled, put, setStateObject, modify. cbn. by rewrite insert_insert_eq. }
  split; [done|]. split; [by eapply state_ext_trans|]. split; [|done].
  intros b. cbn. rewrite acct_write. cbn. rewrite <-Ha. case_decide; subst; [by rewrite Ea|done].
Qed.

(** Writes through the object of the address, which may be created. *)
Lemma through_goes a (m : stateObject → M stateDB ()) s (Q : stateDB → stateDB → Prop) :
  state_inv s →
  (∀ s1 o, state_inv s1 → acct s1 a = Some o → view_static (state_view s) (state_view s1) →
    goes (m o) s1 (λ _, Q s1)) →
  goes (so ← GetOrNewStateObject a; m so) s (λ _ s2, ∃ s1, view_static (state_view s) (state_view s1) ∧ Q s1 s2).
Proof.
  intros Hi Hm. eapply goes_bind; [by apply GetOrNewStateObject_goes|].
  intros o s1 Hi1 (Ha & Hcase). assert (view_static (state_view s) (state_view s1)) as Hv.
  { destruct Hcase as [(Ea & Hk & Hsame)|(Ea & -> & Hs)]; [|by eapply blank_static].
    destruct Hk. split; intros; cbn; rewrite ?Hsame; try done. unfold logs_of. congruence. }
  eapply goes_mono; [by apply Hm|]. intros. by exists s1.
Qed.

Lemma touch_goes a o s : state_inv s → address o = a →
  goes (touch o) s (λ _ s', state_eq s s').
Proof.
  intros Hi Ha. unfold touch. eapply (goes_bind _ _ _ (λ _ s', state_eq s s')).
  - do 2 eexists. split; [reflexivity|]. split; [by apply journal_append_inv|].
    split; [|by split]. eapply state_ext_entry; [apply entries_append|done|done|reflexivity|by split].
  - intros [] s1 Hi1 Heq. destruct (Z.eqb_spec (address o) ripemd) as [->|]; [|by apply goes_ret].
    do 2 eexists. split; [reflexivity|]. split; [|split; [by apply state_ext_eq|]].
    + destruct Hi1 as [[] ? ? ?]. split; try done. by apply counted_dirty.
    + etrans; [exact Heq|by split].
Qed.

Lemma v_balance_acct s a o : acct s a = Some o → v_balance (state_view s) a = Balance (data o).
Proof. intros E. cbn. by rewrite E. Qed.

Lemma balance_nonneg s a : state_inv s → 0 <= v_balance (state_view s) a.
Proof.
  intros Hi. cbn. destruct (acct s a) as [o|] eqn:E; [|done]. cbn.
  apply (acct_ok _ _ _ (si_objects _ Hi) E).
Qed.

(** What a deposit adds: nothing where the criteria of the migration are met. *)
Definition credit Getenv (a : Address) (v h : Z) : Z := if criteria_met Getenv a h then 0 else v.

Lemma AddBalance_goes Getenv a v h s : state_inv s → 0 <= v →
  goes (AddBalance Getenv a v h) s (λ _ s',
    changes (state_view s) (state_view s') a (credit Getenv a v h) ∧
    (v = 0 → view_static (state_view s) (state_view s'))).
Proof.
  intros Hi Hv. eapply goes_mono.
  - apply (through_goes _ (λ so, if criteria_met Getenv a h then mret () else so_AddBalance v so) _
      (λ s1 s2, changes (state_view s1) (state_view s2) a (credit Getenv a v h) ∧
                (v = 0 → view_static (state_view s1) (state_view s2)))); [done|].
    intros s1 o Hi1 Ha Hst. unfold credit.
    destruct (criteria_met _ _ _); [apply goes_ret; [done|]; split; [by apply same_changes|done]|].
    unfold so_AddBalance, Sign. destruct (acct_ok _ _ _ (si_objects _ Hi1) Ha) as [Hok _].
    destruct (Z.eqb_spec (Z.sgn v) 0) as [Hz|Hz].
    + assert (v = 0) as -> by lia.
      destruct (empty o); [|apply goes_ret; [done|]; split; [by apply same_changes|done]].
      eapply goes_mono; [by eapply touch_goes|]. intros r s2 _ Heq%state_eq_view.
      split; [by apply same_changes, view_eq_same|intros _; apply Heq].
    + eapply goes_mono; [eapply so_SetBalance_goes; [done|done|]|].
      * destruct (oo_account _ _ _ Hok). lia.
      * intros [] s2 _ Hs. split; [|by intros Hz0; rewrite Hz0 in Hz].
        eapply changes_eq; [by eapply sets_changes|]. cbn. lia.
  - cbn. intros _ s2 _ (s1 & Hst & Hch & HQ). split.
    + by eapply changes_after; [apply view_static_same|].
    + intros Hz. etrans; [exact Hst|by apply HQ].
Qed.

Lemma SubBalance_goes a v h s : state_inv s → 0 <= v <= v_balance (state_view s) a →
  goes (SubBalance a v h) s (λ _ s', changes (state_view s) (state_view s') a (- v) ∧
    (v = 0 → view_static (state_view s) (state_view s'))).
Proof.
  intros Hi Hv. eapply goes_mono.
  - apply (through_goes _ (λ so, so_SubBalance v so) _
      (λ s1 s2, changes (state_view s1) (state_view s2) a (- v) ∧
                (v = 0 → view_static (state_view s1) (state_view s2)))); [done|].
    intros s1 o Hi1 Ha Hst. unfold so_SubBalance, Sign.
    destruct (Z.eqb_spec (Z.sgn v) 0) as [Hz|Hz].
    { apply goes_ret; [done|]. split; [|done]. replace (- v) with 0 by lia. by apply same_changes. }
    eapply goes_mono; [eapply so_SetBalance_goes; [done|done|]|].
    + rewrite <-(v_balance_acct _ _ _ Ha), <-(vs_balance _ _ Hst). lia.
    + intros [] s2 _ Hs. split; [|by intros Hz0; rewrite Hz0 in Hz].
      eapply changes_eq; [by eapply sets_changes|]. cbn. lia.
  - cbn. intros _ s2 _ (s1 & Hst & Hch & HQ). split.
    + by eapply changes_after; [apply view_static_same|].
    + intros Hz. etrans; [exact Hst|by apply HQ].
Qed.

Lemma SetBalance_goes Getenv a v h s : state_inv s → 0 <= v →
  goes (SetBalance Getenv a v h) s (λ _ _, True).
Proof.
  intros Hi Hv. eapply goes_mono; [|done].
  apply (through_goes _ (λ so, if criteria_met Getenv a h then mret () else so_SetBalance v so) _ (λ _ _, True));
    [done|].
  intros s1 o Hi1 Ha Hst. destruct (criteria_met _ _ _); [by apply goes_ret|].
  eapply goes_mono; [by eapply so_SetBalance_goes|done].
Qed.

(** Writes of another field than the balance. *)
Lemma through_same a (m : stateObject → M stateDB ()) s :
  state_inv s →
  (∀ s1 o, state_inv s1 → acct s1 a = Some o →
    goes (m o) s1 (λ _ s2, ∃ o', sets a o' s1 s2 ∧ Balance (data o') = Balance (data o))) →
  goes (so ← GetOrNewStateObject a; m so) s (λ _ s', same_balances (state_view s) (state_view s')).
Proof.
  intros Hi Hm. eapply goes_mono.
  - apply (through_goes _ m _ (λ s1 s2, same_balances (state_view s1) (state_view s2))); [done|].
    intros s1 o Hi1 Ha Hst. eapply goes_mono; [by apply Hm|]. intros _ s2 _ (o' & Hs & Hb). by eapply sets_same.
  - cbn. intros _ s2 _ (s1 & Hst & HQ). etrans; [by apply view_static_same|exact HQ].
Qed.

Lemma SetNonce_goes a n s : state_inv s → is_uint64 n →
  goes (SetNonce a n) s (λ _ s', same_balances (state_view s) (state_view s')).
Proof.
  intros Hi Hn. apply (through_same a (so_SetNonce n)); [done|]. intros s1 o Hi1 Ha.
  eapply goes_mono; [by eapply so_SetNonce_goes|]. intros [] s2 _ Hs. by eexists.
Qed.

Lemma SetCode_goes a cd s : state_inv s → zlen cd < 2 ^ 62 →
  goes (SetCode a cd) s (λ _ s', same_balances (state_view s) (state_view s')).
Proof.
  intros Hi Hn. apply (through_same a (so_SetCode (Keccak256Hash cd) cd)); [done|]. intros s1 o Hi1 Ha.
  eapply goes_mono; [by eapply so_SetCode_goes|]. intros _ s2 _ (o' & Heq & Hs). eexists.
  split; [exact Hs|]. cbn. by rewrite (oe_data _ _ Heq).
Qed.

Lemma SetState_goes a k v s : state_inv s → is_u256 v →
  goes (SetState a k v) s (λ _ s', same_balances (state_view s) (state_view s')).
Proof.
  intros Hi Hn. apply (through_same a (so_SetState k v)); [done|]. intros s1 o Hi1 Ha.
  eapply goes_mono; [by eapply so_SetState_goes|]. intros _ s2 _ (o' & Heq & Hs). eexists.
  split; [exact Hs|]. cbn. by rewrite (oe_data _ _ Heq).
Qed.

(** ** Snapshots *)

Definition snapshot_of s : stateDB :=
  with_revisions (validRevisions s ++ [{| id := nextRevisionId s; journalIndex := length (entries (jrnl s)) |}])
                 (nextRevisionId s + 1) s.

Lemma revisions_ok_snoc revs next r :
  revisions_ok revs next → id r = next → revisions_ok (revs ++ [r]) (next + 1).
Proof.
  intros [Hs Hf] Hr. split.
  - intros i i' x x' Hx Hx' Hii. apply lookup_app_Some in Hx as [Hx|[Hlen Hx]].
    + apply lookup_app_Some in Hx' as [Hx'|[Hlen Hx']]; [by eapply Hs|].
      apply list_lookup_singleton_Some in Hx' as [_ <-].
      pose proof (proj1 (Forall_lookup _ _) Hf _ _ Hx) as Hlt. cbn in Hlt. lia.
    + apply list_lookup_singleton_Some in Hx as [Hi0 _]. apply lookup_lt_Some in Hx'.
      rewrite length_app in Hx'. cbn in Hx'. lia.
  - apply Forall_app. split; [eapply Forall_impl; [|exact Hf]; cbn; lia|].
    apply Forall_singleton. lia.
Qed.

Lemma revisions_ok_take revs next n : revisions_ok revs next → revisions_ok (take n revs) next.
Proof.
  intros [Hs Hf]. split; [|by apply Forall_take].
  intros i i' r r' Hr Hr' Hii.
  apply lookup_take_Some in Hr as [Hr _], Hr' as [Hr' _]. by eapply Hs.
Qed.

Lemma Snapshot_goes s : state_inv s →
  Snapshot s = Done (nextRevisionId s) (snapshot_of s) ∧ state_inv (snapshot_of s) ∧
  state_ext s (snapshot_of s) ∧ state_eq s (snapshot_of s).
Proof.
  intros Hi. split; [done|]. split.
  { destruct Hi as [[] ? ? Hr]. split; try done. by apply revisions_ok_snoc. }
  split; [|by split]. split; [by apply prefix_app_r|]. split; [cbn; lia|].
  exists []. split; [by rewrite app_nil_r|]. exists (snapshot_of s). split; [done|by split].
Qed.

(** The search for a revision finds it. *)
Lemma Search_revision revs next n r :
  revisions_ok revs next → revs !! n = Some r →
  Search (length revs) (λ i, match revs !! i with Some r' => id r <=? id r' | None => true end) = n.
Proof.
  intros [Hs _] Hn. apply Search_first.
  - intros a b Hab Ha. destruct (revs !! b) as [rb|] eqn:Eb; [|done].
    destruct (revs !! a) as [ra|] eqn:Ea.
    2: { apply lookup_ge_None in Ea. apply lookup_lt_Some in Eb. lia. }
    destruct (decide (a = b)) as [->|Hne]; [congruence|].
    pose proof (Hs a b ra rb Ea Eb ltac:(lia)). apply Z.leb_le in Ha. apply Z.leb_le. lia.
  - by eapply lookup_lt_Some.
  - rewrite Hn. apply Z.leb_le. lia.
  - intros i Hi. destruct (revs !! i) as [ri|] eqn:Ei.
    2: { apply lookup_ge_None in Ei. apply lookup_lt_Some in Hn. lia. }
    pose proof (Hs i n ri r Ei Hn Hi). apply Z.leb_gt. lia.
Qed.

(** The same addresses are dirty, that of RIPEMD aside. *)
Definition same_dirties s s' : Prop :=
  ∀ a, a ≠ ripemd → dirties (jrnl s) !! a = dirties (jrnl s') !! a.

Lemma counted_same es d d' a : counted es d → counted es d' → a ≠ ripemd → d !! a = d' !! a.
Proof.
  intros Hd Hd' Ha. destruct (Hd a) as (H1' & _ & H2), (Hd' a) as (H3 & _ & H4).
  specialize (H1' Ha). specialize (H3 Ha).
  destruct (d !! a), (d' !! a); cbn in *; congruence.
Qed.

Lemma RevertToSnapshot_goes s s2 :
  state_inv s → state_inv s2 → state_ext (snapshot_of s) s2 →
  ∃ s3, RevertToSnapshot (nextRevisionId s) s2 = Done () s3 ∧ state_inv s3 ∧ state_ext s s3 ∧
    state_eq s s3 ∧ entries (jrnl s3) = entries (jrnl s) ∧ same_dirties s s3 ∧
    validRevisions s3 = validRevisions s.
Proof.
  intros Hi Hi2 ([revs' Hrev] & Hnext & suf & Hsuf & s1 & E1 & Heq). cbn in Hrev, Hnext, Hsuf.
  rewrite <-app_assoc in Hrev. set (r := {| id := nextRevisionId s; journalIndex := _ |}) in *.
  assert (validRevisions s2 !! length (validRevisions s) = Some r) as Hr
    by (rewrite Hrev; by apply list_lookup_middle).
  pose proof (Search_revision _ _ _ _ (si_revisions _ Hi2) Hr) as Hsearch. cbn [id r] in Hsearch.
  destruct Hi2 as [Ho2 He2 Hd2 Hr2]. rewrite Hsuf in He2, Hd2. apply Forall_app in He2 as [Hpre Hesuf].
  destruct (revert_loop_inv suf (entries (jrnl s)) s2 s1 Ho2 Hesuf Hd2 E1)
    as (Ho1 & Ht1 & Hj1 & Hc1 & Hv1 & Hn1).
  eexists. split.
  { unfold RevertToSnapshot. unfold mbind at 1, M_bind at 1, gets at 1. cbv beta zeta.
    rewrite Hsearch, Hr. cbn [id r journalIndex]. rewrite Z.eqb_refl. cbn [negb].
    unfold journal_revert, mbind, M_bind, gets. rewrite Hsuf, drop_app_length, E1. reflexivity. }
  rewrite Hrev, take_app_length. cbn. rewrite <-Hj1, Hsuf, take_app_length.
  set (s3 := with_revisions _ _ _). assert (state_eq s s3) as Heq3.
  { etrans; [|symmetry; transitivity s1; [by split|exact Heq]]. by split. }
  assert (state_inv s3) as Hi3.
  { split; cbn; [by destruct Ho1; split|by rewrite <-Ht1|done|].
    destruct Hi as [_ _ _ [Hs Hf]]. split; [done|]. eapply Forall_impl; [|exact Hf]. cbn. lia. }
  split; [done|]. split; [|split; [done|]; split; [done|]; split; [|done]].
  - split; [done|]. split; [cbn; lia|]. exists []. split; [by rewrite app_nil_r|].
    exists s3. by split; [|symmetry].
  - intros a Ha. by eapply counted_same; [apply Hi|exact Hc1|].
Qed.

End Ok.

(** ** The promises *)

Section Instance.
Context `{!Crypto} `{!Database} `{!DatabaseLaws} (Getenv : str → str).

Lemma goes_view {A} (m : M stateDB A) s (P : A → Prop) :
  goes m s (λ r s', P r ∧ state_eq s s') →
  ∃ r s', m s = Done r s' ∧ state_inv s' ∧ state_ext s s' ∧
          view_eq (state_view s) (state_view s') ∧ P r.
Proof. intros (r & s' & E & Hi & Hx & HP & Heq). exists r, s'. eauto 10 using state_eq_view. Qed.

Lemma read_view {A} a (f : option stateObject → A) s (P : A → Prop) :
  state_inv s → P (f (acct s a)) →
  ∃ r s', (so ← getStateObject a; mret (f so)) s = Done r s' ∧ state_inv s' ∧ state_ext s s' ∧
          view_eq (state_view s) (state_view s') ∧ P r.
Proof.
  intros Hi HP. apply goes_view. eapply goes_mono; [by apply read_goes|]. by intros r s' _ [-> Heq].
Qed.

#[refine] Instance StateLaws_stateDB : @StateLaws stateDB (StateDB_stateDB Getenv) :=
  {| SInv := state_inv; sview := state_view; sext := state_ext |}.
Proof.
  - apply state_ext_refl.
  - apply state_ext_trans.
  - intros s a Hi. apply (read_view a (λ so, match so with None => 0 | Some so => Balance (data so) end));
      [done|]. pose proof (balance_nonneg s a Hi) as Hb. cbn in *. by destruct (acct s a).
  - intros s a Hi. apply (read_view a (λ so, match so with None => 0 | Some so => Nonce (data so) end));
      [done|]. cbn. destruct (acct s a) as [o|] eqn:E; [|done]. split; [done|].
    apply (acct_ok _ _ _ (si_objects _ Hi) E).
  - intros s a Hi. apply (read_view a (λ so, match so with None => 0 | Some so => BytesToHash (CodeHash (data so)) end));
      [done|]. cbn. destruct (acct s a) as [o|]; [|done]. split; [done|].
    rewrite BytesToHash_mod. apply Z.mod_pos_bound. lia.
  - intros s a Hi. apply goes_view. eapply goes_mono; [by apply GetCode_goes|]. intros r s' _ [-> Heq].
    split; [|done]. split; [done|]. cbn. destruct (acct s a) as [o|] eqn:E; [|done].
    apply (acct_ok _ _ _ (si_objects _ Hi) E).
  - intros s a Hi. apply goes_view. by apply GetCodeSize_goes.
  - intros s a k Hi. apply goes_view. eapply goes_mono; [by apply GetState_goes|]. intros r s' _ [-> Heq].
    split; [|done]. split; [done|]. cbn. destruct (acct s a) as [o|] eqn:E; [|done].
    apply (acct_ok _ _ _ (si_objects _ Hi) E).
  - intros s a Hi. apply (read_view a (λ so, match so with None => false | Some so => suicided so end));
      [done|]. cbn. by destruct (acct s a).
  - intros s a Hi. by apply (read_view a (λ so, bool_decide (is_Some so))).
  - intros s a Hi. apply (read_view a (λ so, match so with None => true | Some so => empty so end));
      [done|]. cbn. by destruct (acct s a).
  - intros s Hi. exists (refund s), s. split; [done|]. split; [done|]. split; [apply state_ext_refl|].
    split; [done|]. split; [done|]. apply (oi_refund _ (si_objects _ Hi)).
  - intros s h d Hi. destruct (AddPreimage_goes h d s Hi) as (r & s' & E & Hi' & Hx & Hv).
    exists r, s'. done.
  - intros s a Hi. destruct (CreateAccount_goes a s Hi) as (r & s' & E & Hi' & Hx & Hb & Hv).
    exists r, s'. split; [done|]. split; [done|]. split; [done|]. split; [done|].
    intros Hn. apply Hv. cbn in Hn. by destruct (acct s a).
  - intros s a v h Hi Hv. by apply SubBalance_goes.
  - intros s a v h Hi Hv. eapply goes_mono; [by apply AddBalance_goes|]. intros [] s' _ [Hc Hz].
    split; [|done]. exists (credit Getenv a v h). split; [|done]. unfold credit. case_match; lia.
  - intros s a n Hi Hn. by apply SetNonce_goes.
  - intros s a c Hi Hc. by apply SetCode_goes.
  - intros s a k v Hi Hv. by apply SetState_goes.
  - intros s g Hi Hg. by apply AddRefund_goes.
  - intros s a Hi. by apply Suicide_goes.
  - intros s l Hi. by apply AddLog_goes.
  - intros s Hi. destruct (Snapshot_goes s Hi) as (E & Hi' & Hx & Heq).
    exists (nextRevisionId s), (snapshot_of s). split; [done|]. split; [done|]. split; [done|].
    split; [by apply state_eq_view|]. intros s2 Hi2 Hx2.
    destruct (RevertToSnapshot_goes s s2 Hi Hi2 Hx2) as (s3 & E3 & Hi3 & Hx3 & Heq3 & _).
    exists s3. split; [done|]. split; [done|]. split; [done|]. by apply state_eq_view.
Defined.

End Instance.

(** ** A concrete database and state *)

Definition sample_database : Database := {|
  Trie := list byte → list byte;
  DbError := Rlp.rlp_error;
  OpenTrie := λ _, inl (λ _, []);
  OpenStorageTrie := λ _ _, inl (λ _, []);
  CopyTrie := λ t, t;
  ContractCode := λ _ _, ([], None);
  ContractCodeSize := λ _ _, (0, None);
  TryGet := λ t k, (t k, None);
  TryUpdate := λ t k v, (λ k', if bool_decide (k = k') then v else t k', None);
  TryDelete := λ t k, (λ k', if bool_decide (k = k') then [] else t k', None);
  TrieHash := λ _, 0;
  DecodeAccount := λ _, None;
  errStorageTrie := λ e, e;
  errLoadCode := λ e, e;
  errSplit := λ e, e
|}.

#[local] Existing Instance sample_crypto.
#[local] Existing Instance sample_database.

Lemma sample_laws : DatabaseLaws.
Proof. split; try done. intros ah. by exists (λ _, []). Qed.

#[local] Existing Instance sample_laws.

Lemma fresh_inv `{!Crypto} `{!Database} t : trie_ok t → state_inv (fresh t).
Proof. intros Ht. by split. Qed.

Definition sample_state : stateDB := fresh (λ _, []).

Lemma sample_state_inv : state_inv sample_state.
Proof. apply fresh_inv. by intros a d. Qed.

(** The state a computation leaves. *)
Definition after {A} (m : M stateDB A) (s : stateDB) : stateDB :=
  match m s with Done _ s' => s' | Fault _ => s end.

(** Account 7 has 100 units, account 8 is empty. *)
Definition funded : stateDB :=
  after (AddBalance (λ _, []) 8 0 1) (after (AddBalance (λ _, []) 7 100 1) sample_state).

Lemma after_inv {A} (m : M stateDB A) s P : goes m s P → state_inv (after m s).
Proof. intros (r & s' & E & Hi & _). unfold after. by rewrite E. Qed.

Lemma funded_inv : state_inv funded.
Proof.
  eapply after_inv, AddBalance_goes; [|done]. eapply after_inv, AddBalance_goes; [|done].
  apply sample_state_inv.
Qed.
