(* ===== verification/StateFinal.v ===== *)
(** * The end of a transaction

    [Finalise] writes the dirty objects to the trie and removes the suicided and
    the empty ones. *)
From S2P Require Import Prelude BigMath Params OpCodes VmAnalysis VmMemory Rlp VmTypes.
From S2P Require Import VmLaws VmSample Nov2019 StateDb StateObs StateInv StateOps StateOk.
Import State.

(** ** Accounts can be encoded *)

Lemma zlen_enc_str_short l : zlen l < 56 → zlen (Rlp.enc_str l) <= 1 + zlen l.
Proof.
  intros Hl. unfold Rlp.enc_str. destruct l as [|b0 [|b1 l]]; [done| |].
  - destruct (bz b0 <=? 127); done.
  - unfold Rlp.enc_head. rewrite (proj2 (Z.ltb_lt _ 56)) by done. cbn [app]. unfold zlen. cbn [length]. lia.
Qed.

Section Final.
Context `{!Crypto} `{!Database} `{!DatabaseLaws}.

Implicit Types (c o : stateObject) (s : stateDB).

Lemma account_encodes d :
  account_ok d → Balance d < 2 ^ 256 → ∃ enc, Rlp.EncodeToBytes (account_value d) = Some (Some enc).
Proof.
  intros (Hb & Hn & Hc) Hb'.
  set (i := Rlp.Lst [Rlp.Str (Bytes (Nonce d)); Rlp.Str (Bytes (Balance d)); Rlp.Str (HashBytes (Root d));
                     Rlp.Str (CodeHash d)]).
  exists (Rlp.enc i). apply Rlp.EncodeToBytes_enc; [|cbn; tauto|].
  - unfold account_value. cbn. by destruct (Z.ltb_spec (Balance d) 0); [lia|].
  - assert (zlen (Bytes (Nonce d)) <= 8) as L1 by (by apply zlen_Bytes_bound).
    assert (zlen (Bytes (Balance d)) <= 32) as L2 by (by apply zlen_Bytes_bound).
    assert (zlen (HashBytes (Root d)) = 32) as L3 by (unfold zlen, HashBytes; by rewrite length_be_bytes).
    assert (zlen (CodeHash d) = 32) as L4 by (unfold zlen; lia).
    pose proof (zlen_enc_str_short (Bytes (Nonce d)) ltac:(lia)).
    pose proof (zlen_enc_str_short (Bytes (Balance d)) ltac:(lia)).
    pose proof (zlen_enc_str_short (HashBytes (Root d)) ltac:(lia)).
    pose proof (zlen_enc_str_short (CodeHash d) ltac:(lia)).
    cbn [Rlp.enc i map concat]. rewrite app_nil_r.
    set (l := Rlp.enc_str (Bytes (Nonce d)) ++ _). assert (0 <= zlen l <= 108) as Hl.
    { subst l. rewrite !zlen_app. pose proof (zlen_nonneg (Rlp.enc_str (Bytes (Nonce d)))).
      pose proof (zlen_nonneg (Rlp.enc_str (Bytes (Balance d)))).
      pose proof (zlen_nonneg (Rlp.enc_str (HashBytes (Root d)))).
      pose proof (zlen_nonneg (Rlp.enc_str (CodeHash d))). lia. }
    rewrite zlen_app. assert (zlen (Rlp.enc_head 192 247 (zlen l)) <= 2); [|lia].
    unfold Rlp.enc_head. zcases; [done|]. pose proof (zlen_Bytes_bound (zlen l) 1 ltac:(lia) ltac:(lia)).
    unfold zlen in *. cbn [length]. lia.
Qed.

(** ** One object *)

(** What writing the object to the trie leaves of the account. *)
Record same_account o o' : Prop := {
  sa_address : address o' = address o;
  sa_nonce : Nonce (data o') = Nonce (data o);
  sa_balance : Balance (data o') = Balance (data o);
  sa_codehash : CodeHash (data o') = CodeHash (data o);
  sa_code : o_code o' = o_code o;
  sa_suicided : suicided o' = suicided o;
  sa_deleted : deleted o' = deleted o
}.

Context `{!MapOrder}.

Lemma updateRoot_ok c : ∃ c', updateRoot c = Some c' ∧ same_account c c'.
Proof.
  unfold updateRoot, updateTrie. destruct (getTrie_ok c) as (t & c1 & -> & _ & Heq & _). cbn.
  destruct (foldl _ _ _) as [t' err]. eexists. split; [reflexivity|]. destruct Heq as [? ? Hd ? Hcode ? ? ?].
  split; cbn; try congruence. rewrite Hcode. apply o_code_ext; done.
Qed.

Definition removed (del : bool) o : bool := suicided o || (del && empty o).

(** The object after [Finalise]. *)
Definition final (del : bool) o o' : Prop :=
  if removed del o then deleted o' = true else same_account o o'.

Definition objects_ready s : Prop :=
  map_Forall (λ a o, address o = a ∧ account_ok (data o) ∧ Balance (data o) < 2 ^ 256) (stateObjects s).

Lemma Finalise_one_ok del a s : objects_ready s →
  ∃ s', Finalise_one del a s = Done () s' ∧ objects_ready s' ∧ jrnl s' = jrnl s ∧
    (∀ b, b ≠ a → stateObjects s' !! b = stateObjects s !! b) ∧
    match stateObjects s !! a with
    | None => stateObjects s' !! a = None
    | Some o => ∃ o', stateObjects s' !! a = Some o' ∧ final del o o'
    end.
Proof.
  intros Hr. unfold Finalise_one. unfold mbind at 1, M_bind at 1, gets.
  destruct (stateObjects s !! a) as [o|] eqn:Ea; [|by exists s].
  destruct (Hr _ _ Ea) as (Hadr & Hok & Hbal).
  fold (removed del o). unfold final. destruct (removed del o) eqn:Hrem.
  - unfold deleteStateObject, mbind, M_bind. cbn. rewrite Hadr.
    destruct (TryDelete _ _) as [t err]. eexists. split; [reflexivity|]. cbn.
    split; [by apply map_Forall_insert_2|]. split; [done|].
    split; [intros b Hb; by rewrite lookup_insert_ne|]. rewrite lookup_insert_eq. by eexists.
  - destruct (updateRoot_ok o) as (o' & E & Hsame). destruct (account_encodes (data o')) as (enc & Eenc).
    { destruct Hok as (? & ? & ?), Hsame. split; [congruence|]. split; congruence. }
    { by rewrite (sa_balance _ _ Hsame). }
    unfold updateStateObject, mbind, M_bind. rewrite E. cbn. rewrite Eenc. cbn.
    destruct (TryUpdate _ _ _) as [t err]. eexists. split; [reflexivity|]. cbn.
    rewrite (sa_address _ _ Hsame), Hadr.
    split; [|split; [done|split; [intros b Hb; by rewrite lookup_insert_ne|rewrite lookup_insert_eq; by eexists]]].
    apply map_Forall_insert_2; [|done]. destruct Hok as (? & ? & ?), Hsame.
    split; [congruence|]. split; [|congruence]. split; [congruence|]. split; congruence.
Qed.

Lemma Finalise_loop_ok del addrs s : objects_ready s → NoDup addrs →
  ∃ s', Finalise_loop del addrs s = Done () s' ∧ jrnl s' = jrnl s ∧
    ∀ a, match stateObjects s !! a with
         | None => stateObjects s' !! a = None
         | Some o => if bool_decide (a ∈ addrs) then ∃ o', stateObjects s' !! a = Some o' ∧ final del o o'
                     else stateObjects s' !! a = Some o
         end.
Proof.
  revert s. induction addrs as [|b addrs IH]; intros s Hr Hnd.
  { exists s. split; [done|]. split; [done|]. intros a. by destruct (stateObjects s !! a). }
  apply list.NoDup_cons in Hnd as [Hb Hnd].
  destruct (Finalise_one_ok del b s Hr) as (s1 & E1 & Hr1 & Hj1 & Hne & Hat).
  destruct (IH s1 Hr1 Hnd) as (s2 & E2 & Hj2 & Hall). exists s2. cbn. unfold mbind, M_bind. rewrite E1.
  split; [done|]. split; [congruence|]. intros a. specialize (Hall a).
  destruct (decide (a = b)) as [->|Hab].
  - destruct (stateObjects s !! b) as [o|].
    + rewrite bool_decide_eq_true_2 by by left. destruct Hat as (o' & Ho' & Hf). rewrite Ho' in Hall.
      rewrite bool_decide_eq_false_2 in Hall by done. eauto.
    + by rewrite Hat in Hall.
  - rewrite Hne in Hall by done. destruct (stateObjects s !! a) as [o|]; [|done].
    assert (bool_decide (a ∈ b :: addrs) = bool_decide (a ∈ addrs)) as ->; [|done].
    apply bool_decide_ext. rewrite elem_of_cons. naive_solver.
Qed.

Lemma range_keys (m : gmap Address Z) : NoDup (range m).*1 ∧ ∀ a, a ∈ (range m).*1 ↔ is_Some (m !! a).
Proof.
  split; [rewrite range_perm; apply NoDup_fst_map_to_list|].
  intros a. rewrite range_perm, list_elem_of_fmap. split.
  - intros ([k x] & -> & Hin%elem_of_map_to_list). by exists x.
  - intros [x Hx]. exists (a, x). split; [done|]. by apply elem_of_map_to_list.
Qed.

(** C28: The end of a transaction never panics and empties the journal, the
    revisions and the refund counter.  Of the live accounts it removes exactly
    those that are dirty and either suicided or, where empty ones are to be
    deleted, empty; all others keep nonce, balance and code. *)
Theorem Finalise_accounts del s :
  state_inv s → (∀ a o, stateObjects s !! a = Some o → Balance (data o) < 2 ^ 256) →
  ∃ s', Finalise del s = Done () s' ∧ jrnl s' = newJournal ∧ validRevisions s' = [] ∧ refund s' = 0 ∧
    ∀ a o, stateObjects s !! a = Some o → deleted o = false →
      if bool_decide (is_Some (dirties (jrnl s) !! a)) && (suicided o || (del && empty o))
      then acct s' a = None
      else ∃ o', acct s' a = Some o' ∧ same_account o o'.
Proof.
  intros Hi Hbal. destruct (range_keys (dirties (jrnl s))) as [Hnd Hin].
  destruct (Finalise_loop_ok del (range (dirties (jrnl s))).*1 s) as (s1 & E & _ & Hall); [|done|].
  { intros a o Ho. destruct (oi_objects _ (si_objects _ Hi) a o Ho). eauto. }
  eexists. split; [unfold Finalise, mbind, M_bind, gets; rewrite E; reflexivity|].
  split; [done|]. split; [done|]. split; [done|]. intros a o Ho Hd. specialize (Hall a). rewrite Ho in Hall.
  rewrite <-(bool_decide_ext _ _ (Hin a)). fold (removed del o).
  unfold acct. cbn. case_bool_decide; cbn [andb].
  - destruct Hall as (o' & -> & Hf). unfold final in Hf. destruct (removed del o); [by rewrite Hf|].
    rewrite (sa_deleted _ _ Hf), Hd. by exists o'.
  - rewrite Hall, Hd. exists o. by split.
Qed.

End Final.

#[local] Existing Instance sample_crypto.
#[local] Existing Instance sample_database.
#[local] Existing Instance sample_laws.
#[local] Existing Instance sample_order.

Lemma funded_objects :
  stateObjects funded !! 8 = Some (blank 8) ∧ stateObjects funded !! 7 = Some (setBalance 100 (blank 7)) ∧
  map_Forall (λ _ o, Balance (data o) < 2 ^ 256) (stateObjects funded) ∧
  is_Some (dirties (jrnl funded) !! 8) ∧ empty (blank 8) = true ∧ empty (setBalance 100 (blank 7)) = false.
Proof.
  split; [by vm_compute|]. split; [by vm_compute|]. split; [|split; [by vm_compute; eexists|by vm_compute]].
  apply (bool_decide_unpack _). by vm_compute.
Qed.

Lemma Finalise_accounts_witness :
  ∃ s', Finalise true funded = Done () s' ∧ jrnl s' = newJournal ∧ acct s' 8 = None ∧
    ∃ o', acct s' 7 = Some o' ∧ Balance (data o') = 100.
Proof.
  destruct funded_objects as (H8 & H7 & Hbal & Hd8 & He8 & He7).
  destruct (Finalise_accounts true funded funded_inv Hbal) as (s' & E & Hj & _ & _ & Hall).
  exists s'. split; [done|]. split; [done|]. split.
  - specialize (Hall 8 (blank 8) H8 eq_refl). rewrite bool_decide_eq_true_2 in Hall by done.
    by rewrite He8 in Hall.
  - specialize (Hall 7 _ H7 eq_refl). rewrite He7 in Hall. change (suicided _) with false in Hall.
    rewrite andb_false_r in Hall. destruct Hall as (o' & Ho' & Hs).
    exists o'. split; [done|]. by rewrite (sa_balance _ _ Hs).
Defined.
