(* ===== verification/Chain.v ===== *)
(** * Headers and the hashes of ancestors

    The header of [core/types/block.go], and the parts of [core/evm.go] that
    make a machine's context from it.  The chain is a parameter: a function
    that finds a header by its hash and number. *)
From S2P Require Import Prelude BigMath Params OpCodes VmAnalysis VmMemory Rlp VmTypes VmLaws.

Module Block.

Record Header := {
  ParentHash : Hash;
  UncleHash : Hash;
  Coinbase : Address;
  Root : Hash;
  TxHash : Hash;
  ReceiptHash : Hash;
  Bloom : Z;
  Difficulty : Z;
  Number : Z;
  GasLimit : Z;
  GasUsed : Z;
  Time : Z;
  Extra : list byte;
  MixDigest : Hash;
  Nonce : Z
}.

End Block.
Notation Header := Block.Header.

(** ** Messages *)

Module Msg.

Record Message := {
  From : Address;
  To : option Address;
  GasPrice : Z;
  Gas : Z;
  Value : Z;
  Nonce : Z;
  CheckNonce : bool;
  Data : list byte
}.

End Msg.
Notation Message := Msg.Message.

(** ** core/evm.go *)

Section GetHash.
Context (GetHeader : Hash → Z → option Header).

Notation cache := (gmap Z Hash).

(** The number a header's parent is looked up with. *)
Definition parent_number (h : Header) : Z := uint64 (Uint64 (Block.Number h) - 1).

(** The walk over the ancestors; [None] when the fuel is used up. *)
Fixpoint GetHashFn_loop (fuel : nat) (n : Z) (header : option Header) (c : cache) : option (Hash * cache) :=
  match fuel with
  | O => None
  | S fuel =>
      match header with
      | None => Some (0, c)
      | Some h =>
          let c := <[parent_number h := Block.ParentHash h]> c in
          if n =? parent_number h then Some (Block.ParentHash h, c)
          else GetHashFn_loop fuel n (GetHeader (Block.ParentHash h) (parent_number h)) c
      end
  end.

(** One call of the closure: the hash and the closure's cache, nil before the first. *)
Definition GetHashFn (fuel : nat) (ref : Header) (n : Z) (c : option cache) : option (Hash * option cache) :=
  let c := match c with Some c => c | None => {[ parent_number ref := Block.ParentHash ref ]} end in
  match c !! n with
  | Some hash => Some (hash, Some c)
  | None =>
      '(hash, c) ← GetHashFn_loop fuel n (GetHeader (Block.ParentHash ref) (parent_number ref)) c;
      Some (hash, Some c)
  end.

(** The hash of the ancestor with number [n]. *)
Inductive ancestor_hash : Header → Z → Hash → Prop :=
  | ancestor_parent h : ancestor_hash h (parent_number h) (Block.ParentHash h)
  | ancestor_up h p n hash :
      GetHeader (Block.ParentHash h) (parent_number h) = Some p → ancestor_hash p n hash →
      ancestor_hash h n hash.

(** Headers are found under their number, and none below the first block. *)
Record chain_ok : Prop := {
  ck_number hash k h : GetHeader hash k = Some h → Block.Number h = k ∧ is_uint64 k;
  ck_genesis hash : GetHeader hash MaxUint64 = None
}.

Hypothesis Hchain : chain_ok.

Lemma parent_number_pred h : 0 < Block.Number h < 2 ^ 64 → parent_number h = Block.Number h - 1.
Proof. intros Hn. unfold parent_number. rewrite Uint64_id by (unfold is_uint64; lia). apply uint64_id. unfold is_uint64. lia. Qed.

Lemma parent_number_genesis h : Block.Number h = 0 → parent_number h = MaxUint64.
Proof. unfold parent_number. by intros ->. Qed.

(** What a cache may hold. *)
Definition cache_ok (ref : Header) (c : cache) : Prop := map_Forall (λ n hash, ancestor_hash ref n hash) c.

(** The walk ends, because numbers decrease, with the ancestor's hash if there is one. *)
Lemma GetHashFn_loop_ok ref fuel n oh c :
  match oh with Some h => is_uint64 (Block.Number h) ∧ Block.Number h < Z.of_nat fuel - 1
              | None => (0 < fuel)%nat end →
  (∀ k x, (∃ h, oh = Some h ∧ ancestor_hash h k x) → ancestor_hash ref k x) → cache_ok ref c →
  ∃ x c', GetHashFn_loop fuel n oh c = Some (x, c') ∧ cache_ok ref c' ∧
    ((∃ h, oh = Some h ∧ ancestor_hash h n x) ∨ x = 0 ∧ ∀ h y, oh = Some h → ¬ ancestor_hash h n y).
Proof.
  revert oh c. induction fuel as [|fuel IH]; intros oh c Hf Hsub Hc.
  { destruct oh as [h|]; [destruct Hf as [[]]; lia|lia]. }
  destruct oh as [h|]; cbn [GetHashFn_loop].
  2: { exists 0, c. split; [done|]. split; [done|]. right. split; [done|]. done. }
  destruct Hf as [Hu Hlt]. set (c1 := <[_ := _]> c).
  assert (cache_ok ref c1) as Hc1.
  { apply map_Forall_insert_2; [|done]. apply Hsub. exists h. split; [done|constructor]. }
  destruct (Z.eqb_spec n (parent_number h)) as [->|Hne].
  { exists (Block.ParentHash h), c1. split; [done|]. split; [done|]. left. exists h. split; [done|constructor]. }
  set (oh := GetHeader _ _). destruct (IH oh c1) as (x & c' & E & Hc' & Hx).
  - destruct oh as [p|] eqn:Ep; subst oh.
    + destruct (ck_number Hchain _ _ _ Ep) as [Hn Hk]. rewrite Hn. split; [done|].
      destruct (decide (Block.Number h = 0)) as [H0|H0].
      * rewrite parent_number_genesis in Ep by done. by rewrite ck_genesis in Ep.
      * unfold is_uint64 in Hu. rewrite parent_number_pred by lia. lia.
    + destruct Hu. lia.
  - intros k x (p & Ep & Ha). apply Hsub. exists h. split; [done|]. by eapply ancestor_up.
  - done.
  - exists x, c'. split; [done|]. split; [done|]. destruct Hx as [(p & Ep & Ha)|[-> Hno]].
    + left. exists h. split; [done|]. by eapply ancestor_up.
    + right. split; [done|]. intros h' y [= <-] Ha. inversion Ha as [|? p ?? Ep Ha']; subst; [done|].
      by eapply Hno.
Qed.

(** The function behind BLOCKHASH returns, with fuel above the block's
    number, the hash of the ancestor with the given number, and zero if the
    block has no such ancestor; whatever earlier calls have left in its cache. *)
Theorem GetHashFn_correct ref n c fuel :
  is_uint64 (Block.Number ref) → Block.Number ref < Z.of_nat fuel →
  match c with Some c => cache_ok ref c ∧ is_Some (c !! parent_number ref) | None => True end →
  ∃ x c', GetHashFn fuel ref n c = Some (x, Some c') ∧ cache_ok ref c' ∧
    (ancestor_hash ref n x ∨ x = 0 ∧ ∀ y, ¬ ancestor_hash ref n y).
Proof.
  intros Hu Hf Hc. unfold GetHashFn.
  set (c0 := match c with Some c => c | None => _ end).
  assert (cache_ok ref c0 ∧ is_Some (c0 !! parent_number ref)) as [Hc0 Hp].
  { destruct c; [done|]. subst c0. split; [apply map_Forall_singleton; constructor|].
    rewrite lookup_singleton_eq. by eexists. }
  destruct (c0 !! n) as [x|] eqn:En.
  { exists x, c0. split; [done|]. split; [done|]. left. by apply Hc0. }
  destruct (GetHashFn_loop_ok ref fuel n (GetHeader (Block.ParentHash ref) (parent_number ref)) c0)
    as (x & c' & E & Hc' & Hx).
  - destruct (GetHeader _ _) as [h|] eqn:Eh; [|destruct Hu; lia].
    destruct (ck_number Hchain _ _ _ Eh) as [Hn Hk]. rewrite Hn. split; [done|].
    destruct (decide (Block.Number ref = 0)) as [H0|H0].
    + rewrite parent_number_genesis in Eh by done. by rewrite ck_genesis in Eh.
    + unfold is_uint64 in Hu. rewrite parent_number_pred by lia. lia.
  - intros k x (h & Eh & Ha). by eapply ancestor_up.
  - done.
  - exists x, c'. rewrite E. split; [done|]. split; [done|]. destruct Hx as [(h & Eh & Ha)|[-> Hno]].
    + left. by eapply ancestor_up.
    + right. split; [done|]. intros y Ha. inversion Ha as [|? h ?? Eh Ha']; subst.
      * destruct Hp as [? Hp]. by rewrite Hp in En.
      * by eapply Hno.
Qed.

(** Hashes are not negative. *)
Lemma GetHashFn_nonneg ref n c fuel x c' :
  (∀ hash k h, GetHeader hash k = Some h → 0 <= Block.ParentHash h) → 0 <= Block.ParentHash ref →
  map_Forall (λ _ x, 0 <= x) (default ∅ c) → GetHashFn fuel ref n c = Some (x, c') → 0 <= x.
Proof.
  intros Hget Href Hc. unfold GetHashFn. set (c0 := match c with Some c => c | None => _ end).
  assert (map_Forall (λ _ x, 0 <= x) c0) as Hc0 by (destruct c; [done|by apply map_Forall_singleton]).
  destruct (c0 !! n) as [y|] eqn:En; [intros [= <- _]; by apply (Hc0 n)|].
  assert (∀ oh d y d', (∀ h, oh = Some h → 0 <= Block.ParentHash h) → GetHashFn_loop fuel n oh d = Some (y, d') → 0 <= y) as Hloop.
  { clear -Hget. induction fuel as [|fuel IH]; intros oh d y d' Ho; cbn [GetHashFn_loop]; [done|].
    destruct oh as [h|]; [|by intros [= <- _]]. destruct (n =? parent_number h); [intros [= <- _]; by apply Ho|].
    apply IH. intros p. apply Hget. }
  destruct (GetHashFn_loop _ _ _ _) as [[y d]|] eqn:El; [|done]. intros [= <- _]. eapply Hloop; [|exact El]. intros h. apply Hget.
Qed.

End GetHash.

Lemma GetHashFn_correct_witness :
  let h n := {| Block.ParentHash := 100 + n; Block.UncleHash := 0; Block.Coinbase := 0; Block.Root := 0;
                Block.TxHash := 0; Block.ReceiptHash := 0; Block.Bloom := 0; Block.Difficulty := 1;
                Block.Number := n; Block.GasLimit := 0; Block.GasUsed := 0; Block.Time := n;
                Block.Extra := []; Block.MixDigest := 0; Block.Nonce := 0 |} in
  let GetHeader (hash k : Z) := if (0 <=? k) && (k <? 10) && (hash =? 101 + k) then Some (h k) else None in
  ∃ x c', GetHashFn GetHeader 6 (h 5) 2 None = Some (x, Some c') ∧ cache_ok GetHeader (h 5) c' ∧
    (ancestor_hash GetHeader (h 5) 2 x ∨ x = 0 ∧ ∀ y, ¬ ancestor_hash GetHeader (h 5) 2 y).
Proof.
  intros h GetHeader. apply (GetHashFn_correct GetHeader); [|done|done|done]. split.
  - intros hash k hd. unfold GetHeader. destruct (Z.leb_spec 0 k), (Z.ltb_spec k 10); try done. cbn [andb].
    destruct (hash =? 101 + k); [|done]. intros [= <-]. split; [done|]. unfold is_uint64. lia.
  - intros hash. unfold GetHeader. by rewrite andb_false_l.
Defined.

(** [chain.Engine().Author(header)] is a parameter.  The closure's cache does
    not change what it returns, so a context holds the function itself. *)
Definition NewYVMContext `{StateDB DB} (GetHeader : Hash → Z → option Header) (Author : Header → Address)
    (msg : Message) (header : Header) (author : option Address) : Context DB :=
  let beneficiary := match author with None => Author header | Some author => author end in
  {| CanTransfer := core_CanTransfer;
     Transfer := core_Transfer;
     GetHash := λ n, default 0 (fst <$> GetHashFn GetHeader (S (Z.to_nat (Block.Number header))) header n None);
     Origin := Msg.From msg;
     GasPrice := Msg.GasPrice msg;
     Coinbase := beneficiary;
     ctx_GasLimit := Block.GasLimit header;
     BlockNumber := Block.Number header;
     BlockTime := Block.Time header;
     Difficulty := Block.Difficulty header |}.
