(* ===== verification/StateTheorems.v ===== *)
(** * Theorems on the journalled state

    Reverting restores everything, transfers and what the migration of
    November 2019 makes of them, the end of a transaction, and the machine on
    the journalled state. *)
From S2P Require Import Prelude BigMath Params OpCodes VmAnalysis VmMemory Rlp VmTypes.
From S2P Require Import VmLaws VmSample Nov2019 StateDb StateObs StateInv StateOps StateOk.
From S2P Require Import VmSpec VmGas VmInstructions VmPrecompiles VmJumpTable VmInterp VmSafety VmCallSafety.
From S2P Require Import VmTheorems Chain.
Import State.

#[local] Existing Instance sample_crypto.
#[local] Existing Instance sample_database.
#[local] Existing Instance sample_laws.

(** ** Sequences of operations *)

Inductive basic :=
  | DoCreateAccount (a : Address)
  | DoSubBalance (a : Address) (v h : Z)
  | DoAddBalance (a : Address) (v h : Z)
  | DoSetBalance (a : Address) (v h : Z)
  | DoSetNonce (a : Address) (n : Z)
  | DoSetCode (a : Address) (c : list byte)
  | DoSetState (a : Address) (k v : Hash)
  | DoSuicide (a : Address)
  | DoAddRefund (g : Z)
  | DoAddLog (l : Log)
  | DoAddPreimage (h : Hash) (d : list byte)
  | DoGetState (a : Address) (k : Hash)
  | DoGetCode (a : Address)
  | DoSnapshot.

(** [Attempt]: a snapshot, more operations, and the way back. *)
Inductive op :=
  | Do (b : basic)
  | Attempt (body : list op).

Section Sequences.
Context `{!Crypto} `{!Database} (Getenv : str → str).

(** What is subtracted is there, as [CanTransfer] checks. *)
Definition exec_basic (b : basic) : M stateDB () :=
  match b with
  | DoCreateAccount a => CreateAccount a
  | DoSubBalance a v h => bal ← GetBalance a; if bal <? v then mret () else SubBalance a v h
  | DoAddBalance a v h => AddBalance Getenv a v h
  | DoSetBalance a v h => SetBalance Getenv a v h
  | DoSetNonce a n => SetNonce a n
  | DoSetCode a c => SetCode a c
  | DoSetState a k v => SetState a k v
  | DoSuicide a => _ ← Suicide a; mret ()
  | DoAddRefund g => AddRefund g
  | DoAddLog l => AddLog l
  | DoAddPreimage h d => AddPreimage h d
  | DoGetState a k => _ ← GetState a k; mret ()
  | DoGetCode a => _ ← GetCode a; mret ()
  | DoSnapshot => _ ← Snapshot; mret ()
  end.

Fixpoint exec (o : op) : M stateDB () :=
  match o with
  | Do b => exec_basic b
  | Attempt body =>
      id ← Snapshot;
      _ ← (fix go (os : list op) : M stateDB () :=
             match os with [] => mret () | o :: os => _ ← exec o; go os end) body;
      RevertToSnapshot id
  end.

Fixpoint exec_all (os : list op) : M stateDB () :=
  match os with [] => mret () | o :: os => _ ← exec o; exec_all os end.

End Sequences.

Definition basic_ok (b : basic) : Prop :=
  match b with
  | DoSubBalance _ v _ | DoAddBalance _ v _ | DoSetBalance _ v _ => 0 <= v
  | DoSetNonce _ n => is_uint64 n
  | DoSetCode _ c => zlen c < 2 ^ 62
  | DoSetState _ _ v => is_u256 v
  | _ => True
  end.

Fixpoint op_ok (o : op) : Prop :=
  match o with
  | Do b => basic_ok b
  | Attempt body => (fix go (os : list op) : Prop := match os with [] => True | o :: os => op_ok o ∧ go os end) body
  end.

Fixpoint ops_ok (os : list op) : Prop := match os with [] => True | o :: os => op_ok o ∧ ops_ok os end.

Section Restore.
Context `{!Crypto} `{!Database} `{!DatabaseLaws} (Getenv : str → str).
Implicit Types s : stateDB.

Lemma goes_unit {A} (m : M stateDB A) s P : goes m s P → goes (_ ← m; mret ()) s (λ _ _, True).
Proof. intros Hm. eapply goes_bind; [exact Hm|]. intros. by apply goes_ret. Qed.

Lemma goes_any {A} (m : M stateDB A) s P : goes m s P → goes m s (λ _ _, True).
Proof. intros Hm. by eapply goes_mono. Qed.

Lemma exec_basic_goes b s : basic_ok b → state_inv s → goes (exec_basic Getenv b) s (λ _ _, True).
Proof.
  intros Hb Hi. destruct b; cbn [exec_basic basic_ok] in *;
    eauto using goes_unit, goes_any, SetBalance_goes, SetCode_goes, SetState_goes, AddRefund_goes, AddLog_goes,
      Suicide_goes, GetState_goes, GetCode_goes, CreateAccount_goes, AddBalance_goes, SetNonce_goes, AddPreimage_goes.
  - eapply (goes_bind _ _ _ (λ r s', r = v_balance (state_view s') a)).
    + eapply goes_mono; [by apply (read_goes a (λ so, match so with None => 0 | Some so => Balance (data so) end))|].
      intros r s' _ [-> Heq%state_eq_view]. rewrite <-(vs_balance _ _ (ve_static _ _ Heq)). cbn.
      by destruct (acct s a).
    + intros r s' Hi' ->. destruct (Z.ltb_spec (v_balance (state_view s') a) v); [by apply goes_ret|].
      eapply goes_mono; [by apply SubBalance_goes|done].
  - destruct (Snapshot_goes s Hi) as (E & Hi' & Hx & _). exists (), (snapshot_of s). done.
Qed.

Lemma op_ind' (P : op → Prop) :
  (∀ b, P (Do b)) → (∀ body, Forall P body → P (Attempt body)) → ∀ o, P o.
Proof.
  intros Hd Ha. fix IH 1. intros [b|body]; [apply Hd|]. apply Ha.
  induction body as [|o body IHb]; constructor; [apply IH|exact IHb].
Qed.

Lemma Attempt_exec body s :
  exec Getenv (Attempt body) s = (id ← Snapshot; _ ← exec_all Getenv body; RevertToSnapshot id) s.
Proof. reflexivity. Qed.

Lemma Attempt_ok body : op_ok (Attempt body) = ops_ok body.
Proof. reflexivity. Qed.

Definition op_goes (o : op) : Prop :=
  op_ok o → ∀ s, state_inv s → goes (exec Getenv o) s (λ _ _, True).

Lemma exec_all_goes os : Forall op_goes os → ops_ok os → ∀ s, state_inv s →
  goes (exec_all Getenv os) s (λ _ _, True).
Proof.
  induction 1 as [|o os Ho _ IH]; cbn [ops_ok exec_all]; intros Hok s Hi; [by apply goes_ret|].
  destruct Hok as [Hok Hoks]. eapply goes_bind; [by apply Ho|]. intros [] s1 Hi1 _. by apply IH.
Qed.

Lemma exec_goes o : op_goes o.
Proof.
  induction o as [b|body IH] using op_ind'; intros Hok s Hi; [by apply exec_basic_goes|].
  rewrite Attempt_ok in Hok. destruct (Snapshot_goes s Hi) as (E & Hi1 & _).
  destruct (exec_all_goes body IH Hok _ Hi1) as ([] & s2 & E2 & Hi2 & Hx2 & _).
  destruct (RevertToSnapshot_goes s s2 Hi Hi2 Hx2) as (s3 & E3 & Hi3 & Hx3 & _).
  exists (), s3. split; [|done]. rewrite Attempt_exec. unfold mbind, M_bind. by rewrite E, E2.
Qed.

(** C5: Whatever is done after a snapshot, with further snapshots taken and
    reverted to in between, reverting to it succeeds and restores everything
    observable: accounts with their balances, nonces, code and storage, logs,
    refund and preimages.  The journal has the entries it had, and the same
    addresses are dirty, but for that of RIPEMD, which stays. *)
Theorem RevertToSnapshot_restores s ops :
  state_inv s → ops_ok ops →
  ∃ s1 s2 s3, Snapshot s = Done (nextRevisionId s) s1 ∧ exec_all Getenv ops s1 = Done () s2 ∧
    RevertToSnapshot (nextRevisionId s) s2 = Done () s3 ∧ state_inv s3 ∧
    state_eq s s3 ∧ entries (jrnl s3) = entries (jrnl s) ∧ same_dirties s s3 ∧
    validRevisions s3 = validRevisions s.
Proof.
  intros Hi Hok. destruct (Snapshot_goes s Hi) as (E & Hi1 & _).
  destruct (exec_all_goes ops (proj2 (Forall_forall _ _) (λ o _, exec_goes o)) Hok _ Hi1)
    as ([] & s2 & E2 & Hi2 & Hx2 & _).
  destruct (RevertToSnapshot_goes s s2 Hi Hi2 Hx2) as (s3 & E3 & Hi3 & _ & Hr).
  exists (snapshot_of s), s2, s3. done.
Qed.

End Restore.

(** Creates accounts, writes one and gives up half of it. *)
Definition sample_ops : list op :=
  [Do (DoAddBalance 7 100 1); Attempt [Do (DoSetState 7 1 5); Do (DoSuicide 7)];
   Do (DoSetNonce 7 3); Do (DoSubBalance 7 40 1); Do (DoAddBalance 3 0 1)].

Lemma RevertToSnapshot_restores_witness :
  ∃ s1 s2 s3, Snapshot sample_state = Done 0 s1 ∧ exec_all (λ _, []) sample_ops s1 = Done () s2 ∧
    RevertToSnapshot 0 s2 = Done () s3 ∧ state_inv s3 ∧
    state_eq sample_state s3 ∧ entries (jrnl s3) = entries (jrnl sample_state) ∧
    same_dirties sample_state s3 ∧ validRevisions s3 = validRevisions sample_state.
Proof.
  apply (RevertToSnapshot_restores (λ _, []) sample_state sample_ops); [apply sample_state_inv|].
  by vm_compute.
Defined.

(** ** Transfers *)

Section Transfers.
Context `{!Crypto} `{!Database} `{!DatabaseLaws} (Getenv : str → str).
Implicit Types s : stateDB.

Lemma Transfer_run s a b v h :
  state_inv s → 0 <= v <= v_balance (state_view s) a →
  ∃ s', @core_Transfer _ (StateDB_stateDB Getenv) a b v h s = Done () s' ∧ state_inv s' ∧
    ∀ c, v_balance (state_view s') c =
      v_balance (state_view s) c - (if decide (a = c) then v else 0)
                                 + (if decide (b = c) then credit Getenv b v h else 0).
Proof.
  intros Hi Hv.
  assert (goes (_ ← SubBalance a v h; AddBalance Getenv b v h) s (λ _ s', ∀ c, v_balance (state_view s') c =
      v_balance (state_view s) c - (if decide (a = c) then v else 0)
                                 + (if decide (b = c) then credit Getenv b v h else 0)))
    as ([] & s' & E & Hi' & _ & Hb); [|by exists s'].
  eapply goes_bind; [by apply SubBalance_goes|]. intros [] s1 Hi1 [H1' _].
  eapply goes_mono; [apply AddBalance_goes; [done|lia]|]. intros [] s2 _ [H2 _] c. rewrite H2, H1'.
  repeat case_decide; lia.
Qed.

(** A transfer takes the amount from the sender and adds it to the
    recipient, nothing else; where the recipient meets the criteria of the
    migration at that height, nothing is added. *)
Theorem Transfer_balances s a b v h :
  state_inv s → 0 <= v <= v_balance (state_view s) a →
  ∃ s', @core_Transfer _ (StateDB_stateDB Getenv) a b v h s = Done () s' ∧ state_inv s' ∧
    ∀ c, v_balance (state_view s') c =
      v_balance (state_view s) c - (if decide (a = c) then v else 0)
        + (if decide (b = c) then if criteria_met Getenv b h then 0 else v else 0).
Proof. apply Transfer_run. Qed.

(** C40: In the default environment, at every height from 3001492 to 3500000,
    what is sent to the address the migration calls good is lost: it leaves the
    sender's balance and does not arrive. *)
Theorem Transfer_lost s a v h :
  state_inv s → (∀ name, Getenv name = []) → 3001492 <= h <= 3500000 → a ≠ good_address →
  0 <= v <= v_balance (state_view s) a →
  ∃ s', @core_Transfer _ (StateDB_stateDB Getenv) a good_address v h s = Done () s' ∧
    v_balance (state_view s') a = v_balance (state_view s) a - v ∧
    v_balance (state_view s') good_address = v_balance (state_view s) good_address.
Proof.
  intros Hi Henv Hh Ha Hv. destruct (Transfer_run s a good_address v h Hi Hv) as (s' & E & _ & Hb).
  assert (credit Getenv good_address v h = 0) as Hc.
  { unfold credit, criteria_met. rewrite IfApplicableCriteria_two by (try done; by rewrite Henv).
    assert (∀ n bits d, env_number Getenv n bits d = d) as Hn.
    { intros n bits d. unfold env_number. by rewrite Henv. }
    unfold IfOnSuitableHeight. rewrite Henv, !Hn, Int64_id by lia.
    rewrite (proj2 (Z.ltb_ge h _)), Z.gtb_ltb, (proj2 (Z.ltb_ge _ h)) by lia.
    by destruct (_ && bool_decide _ || _). }
  exists s'. split; [done|]. rewrite !Hb, Hc. split; repeat case_decide; try done; lia.
Qed.

End Transfers.

Lemma Transfer_balances_witness :
  ∃ s', @core_Transfer _ (StateDB_stateDB (λ _, [])) 7 9 30 5 funded = Done () s' ∧ state_inv s' ∧
    ∀ c, v_balance (state_view s') c =
      v_balance (state_view funded) c - (if decide (7 = c) then 30 else 0)
        + (if decide (9 = c) then if criteria_met (λ _, []) 9 5 then 0 else 30 else 0).
Proof. apply (Transfer_balances (λ _, []) funded 7 9 30 5); [apply funded_inv|by vm_compute]. Defined.

Lemma Transfer_lost_witness :
  ∃ s', @core_Transfer _ (StateDB_stateDB (λ _, [])) 7 good_address 30 3200000 funded = Done () s' ∧
    v_balance (state_view s') 7 = v_balance (state_view funded) 7 - 30 ∧
    v_balance (state_view s') good_address = v_balance (state_view funded) good_address.
Proof.
  apply (Transfer_lost (λ _, []) funded 7 30 3200000); [apply funded_inv|done|done|done|by vm_compute].
Defined.

(** ** A method that calls itself *)

(** The exported [GetStateObject] never returns: it calls itself with the
    same argument, however often. *)
Theorem GetStateObject_diverges `{!Crypto} `{!Database} fuel a (s : stateDB) :
  GetStateObject fuel a s = Fault OutOfFuel.
Proof. by induction fuel. Qed.

(** ** The machine on the journalled state *)

Section Machine.
Context `{!Crypto} `{!Database} `{!DatabaseLaws} (Getenv : str → str).

#[local] Instance machine_StateDB : StateDB stateDB := StateDB_stateDB Getenv.
#[local] Instance machine_StateLaws : StateLaws stateDB := StateLaws_stateDB Getenv.

(** C4: The journalled state keeps every promise the machine relies on.  In the
    context that [core] makes for any message and header, with its transfer
    functions, the hashes of the ancestors and any chain configuration, a call with
    at most 2^62 units of gas, an input shorter than 2^60 bytes and a value that is
    not negative, made outside the read-only mode, ends with fuel above its gas and
    without a panic but for a stale analysis, keeps the state's invariant, and
    leaves everything observable as it was if it fails.  (Addresses, hashes and the
    gas price are not negative.  Above the bound on the gas the modular
    exponentiation can panic.) *)
Theorem Call_on_stateDB GetHeader Author msg header author cfg vmcfg fuel caller addr input gas value (y : YVM stateDB) :
  (∀ hash n h, GetHeader hash n = Some h → 0 <= Block.ParentHash h) → 0 <= Block.ParentHash header →
  0 <= Msg.From msg → 0 <= Msg.GasPrice msg → 0 <= default (Author header) author →
  ref_ok caller → 0 <= addr → zlen input < 2 ^ 60 → 0 <= gas <= max_gas → 0 <= value →
  state_inv (statedb y) → readOnly y = false → gas < Z.of_nat fuel →
  let e := (NewYVM (NewYVMContext GetHeader Author msg header author) (statedb y) cfg vmcfg).1 in
  match Call e (loop fuel e) caller addr input gas value y with
  | Done (ret, rest, err) y' =>
      0 <= rest <= gas ∧ state_inv (statedb y') ∧
      (err ≠ None → view_eq (state_view (statedb y)) (state_view (statedb y')))
  | Fault x => x = StaleAnalysis
  end.
Proof.
  intros Hget Hph Hfrom Hprice Hauth Hr Ha Hin Hg Hv Hs Hro Hf e.
  assert (env_ok e) as He.
  { apply core_env_ok; [done|done|done|done|by destruct author|]. intros n. cbn [NewYVMContext GetHash].
    destruct (GetHashFn _ _ _ _ _) as [[x c]|] eqn:E; [|done]. cbn. eapply GetHashFn_nonneg; [exact Hget|exact Hph| |exact E]. apply map_Forall_empty. }
  assert (wp stale (Call e (loop fuel e) caller addr input gas value) (call_spec e y gas) y) as Hw.
  { eapply Call_ok; try done; [by apply loop_good|lia|lia|intros; congruence]. }
  unfold wp in Hw. destruct (Call _ _ _ _ _ _ _ _) as [[[ret rest] err] y'|x]; [|done].
  destruct Hw as [[Hl []] Hview _]. split; [done|]. split; [done|].
  intros Herr. destruct err as [x|]; [|done]. by apply (Hview x).
Qed.

End Machine.

Definition funded_yvm : YVM stateDB :=
  {| statedb := funded; depth := 0; readOnly := false; returnData := []; callGasTemp := 0;
     jumpdests := ∅; cancel := None |}.

(** A message of account 7, in block 5 of a chain whose headers are all found *)
Definition call_msg : Message :=
  {| Msg.From := 7; Msg.To := Some 112; Msg.GasPrice := 1; Msg.Gas := 100; Msg.Value := 30; Msg.Nonce := 0;
     Msg.CheckNonce := true; Msg.Data := [] |}.
Definition call_header (n : Z) : Header :=
  {| Block.ParentHash := 99 + n; Block.UncleHash := 0; Block.Coinbase := 2; Block.Root := 0; Block.TxHash := 0;
     Block.ReceiptHash := 0; Block.Bloom := 0; Block.Difficulty := 131072; Block.Number := n; Block.GasLimit := 8000000;
     Block.GasUsed := 0; Block.Time := 10 * n; Block.Extra := []; Block.MixDigest := 0; Block.Nonce := 0 |}.
Definition call_GetHeader (hash n : Z) : option Header :=
  if (0 <=? n) && (hash =? 100 + n) then Some (call_header n) else None.

Lemma Call_on_stateDB_witness :
  let e := (@NewYVM _ (@NewYVMContext _ (StateDB_stateDB (λ _, [])) call_GetHeader Block.Coinbase call_msg (call_header 5) None)
              funded sample_config {| NoRecursion := false; EnablePreimageRecording := false |}).1 in
  match @Call _ (StateDB_stateDB (λ _, [])) _ e (@loop _ (StateDB_stateDB (λ _, [])) _ 101 e)
          (AccountRef 7) 112 [] 100 30 funded_yvm with
  | Done (ret, rest, err) y' =>
      0 <= rest <= 100 ∧ state_inv (statedb y') ∧
      (err ≠ None → view_eq (state_view funded) (state_view (statedb y')))
  | Fault x => x = StaleAnalysis
  end.
Proof.
  apply (Call_on_stateDB (λ _, []) call_GetHeader Block.Coinbase call_msg (call_header 5) None sample_config
    {| NoRecursion := false; EnablePreimageRecording := false |} 101 (AccountRef 7) 112 [] 100 30 funded_yvm);
    [|done..|apply funded_inv|done|done].
  intros hash n h. unfold call_GetHeader. destruct (Z.leb_spec 0 n); [|done]. cbn [andb].
  destruct (hash =? 100 + n); [|done]. intros [= <-]. cbn. lia.
Defined.
