(* ===== verification/Transition.v ===== *)
(** * State transitions: [core/state_transition.go], [core/gaspool.go]

    A transaction applied to a state: the gas is bought, the intrinsic gas is
    paid, the call or creation runs, unused gas is returned and the miner is
    paid.  The interpreter's loop is a parameter, as in [VmInterp]. *)
From S2P Require Import Prelude BigMath Params OpCodes VmAnalysis VmMemory Rlp VmTypes VmLaws.
From S2P Require Import VmSample VmGas VmInstructions VmPrecompiles VmJumpTable VmInterp VmSpec Chain.

(** The errors of a transition: its own, and those of the machine. *)
Inductive tx_error :=
  | ErrNonceTooHigh
  | ErrNonceTooLow
  | ErrGasLimitReached
  | errInsufficientBalanceForGas
  | vm_error (e : error).

(** ** The gas pool *)

(** [None] is the panic. *)
Definition AddGas (gp amount : Z) : option Z :=
  if gp >? MaxUint64 - amount then None else Some (uint64 (gp + amount)).

Definition SubGas (gp amount : Z) : Z + tx_error :=
  if gp <? amount then inr ErrGasLimitReached else inl (uint64 (gp - amount)).

(** ** Intrinsic gas *)

Definition nonzero_bytes (data : list byte) : Z :=
  foldl (λ nz b, if negb (bz b =? 0) then uint64 (nz + 1) else nz) 0 data.

Definition IntrinsicGas (data : list byte) (contractCreation homestead : bool) : Z + error :=
  let gas := if contractCreation && homestead then TxGasContractCreation else TxGas in
  if zlen data >? 0 then
    let nz := nonzero_bytes data in
    if (MaxUint64 - gas) / TxDataNonZeroGas <? nz then inr ErrOutOfGas
    else
      let gas := uint64 (gas + uint64 (nz * TxDataNonZeroGas)) in
      let z := uint64 (zlen data - nz) in
      if (MaxUint64 - gas) / TxDataZeroGas <? z then inr ErrOutOfGas
      else inl (uint64 (gas + uint64 (z * TxDataZeroGas)))
  else inl gas.

(** ** The transition *)

(** The fields that change: the block's pool, the gas, and the machine. *)
Record StateTransition (DB : Type) := {
  gp : Z;
  st_gas : Z;
  initialGas : Z;
  st_yvm : YVM DB
}.
Arguments gp {_} _.
Arguments st_gas {_} _.
Arguments initialGas {_} _.
Arguments st_yvm {_} _.

Section Transition.
Context `{StateDB DB} `{!Crypto}.

Notation ST := (M (StateTransition DB)).

Definition with_gp (g : Z) (st : StateTransition DB) : StateTransition DB :=
  {| gp := g; st_gas := st_gas st; initialGas := initialGas st; st_yvm := st_yvm st |}.
Definition with_st_gas (g : Z) (st : StateTransition DB) : StateTransition DB :=
  {| gp := gp st; st_gas := g; initialGas := initialGas st; st_yvm := st_yvm st |}.
Definition with_initialGas (g : Z) (st : StateTransition DB) : StateTransition DB :=
  {| gp := gp st; st_gas := st_gas st; initialGas := g; st_yvm := st_yvm st |}.
Definition with_st_yvm (y : YVM DB) (st : StateTransition DB) : StateTransition DB :=
  {| gp := gp st; st_gas := st_gas st; initialGas := initialGas st; st_yvm := y |}.

Definition on_machine {A} (m : M (YVM DB) A) : ST A := zoom st_yvm with_st_yvm m.
Definition on_statedb {A} (m : M DB A) : ST A := on_machine (on_db m).

Definition NewStateTransition (y : YVM DB) (pool : Z) : StateTransition DB :=
  {| gp := pool; st_gas := 0; initialGas := 0; st_yvm := y |}.

Context (e : Env DB) (lp : M (Frame DB) exec_result) (msg : Message).

Definition to : Address := default 0 (Msg.To msg).

Definition useGas (amount : Z) : ST (option tx_error) :=
  gas ← gets st_gas;
  if gas <? amount then mret (Some (vm_error ErrOutOfGas))
  else _ ← modify (with_st_gas (uint64 (gas - amount))); mret None.

Definition buyGas : ST (option tx_error) :=
  let mgval := Msg.Gas msg * Msg.GasPrice msg in
  balance ← on_statedb (GetBalance (Msg.From msg));
  if balance <? mgval then mret (Some errInsufficientBalanceForGas)
  else
    pool ← gets gp;
    match SubGas pool (Msg.Gas msg) with
    | inr err => mret (Some err)
    | inl pool =>
        _ ← modify (with_gp pool);
        _ ← modify (λ st, with_st_gas (uint64 (st_gas st + Msg.Gas msg)) st);
        _ ← modify (with_initialGas (Msg.Gas msg));
        _ ← on_statedb (SubBalance (Msg.From msg) mgval (BlockNumber (ctx e)));
        mret None
    end.

Definition preCheck : ST (option tx_error) :=
  if Msg.CheckNonce msg then
    nonce ← on_statedb (GetNonce (Msg.From msg));
    if nonce <? Msg.Nonce msg then mret (Some ErrNonceTooHigh)
    else if nonce >? Msg.Nonce msg then mret (Some ErrNonceTooLow)
    else buyGas
  else buyGas.

Definition gasUsed (st : StateTransition DB) : Z := uint64 (initialGas st - st_gas st).

Definition refundGas : ST () :=
  used ← gets gasUsed;
  counter ← on_statedb GetRefund;
  let refund := if used / 2 >? counter then counter else used / 2 in
  _ ← modify (λ st, with_st_gas (uint64 (st_gas st + refund)) st);
  gas ← gets st_gas;
  _ ← on_statedb (AddBalance (Msg.From msg) (gas * Msg.GasPrice msg) (BlockNumber (ctx e)));
  pool ← gets gp;
  pool ← must (AddGas pool gas);
  modify (with_gp pool).

(** The call or creation: its result, and the error of the machine. *)
Definition execute_msg : ST (list byte * option error) :=
  let sender := AccountRef (Msg.From msg) in
  gas ← gets st_gas;
  match Msg.To msg with
  | None =>
      '(ret, _, gas, vmerr) ← on_machine (Create e lp sender (Msg.Data msg) gas (Msg.Value msg));
      _ ← modify (with_st_gas gas);
      mret (ret, vmerr)
  | Some _ =>
      nonce ← on_statedb (GetNonce (ref_Address sender));
      _ ← on_statedb (SetNonce (Msg.From msg) (uint64 (nonce + 1)));
      '(ret, gas, vmerr) ← on_machine (Call e lp sender to (Msg.Data msg) gas (Msg.Value msg));
      _ ← modify (with_st_gas gas);
      mret (ret, vmerr)
  end.

(** The result, the gas used and whether the machine failed, or an error. *)
Definition TransitionDb : ST (list byte * Z * bool + tx_error) :=
  err ← preCheck;
  match err with
  | Some err => mret (inr err)
  | None =>
      let homestead := IsHomestead (chainConfig e) (BlockNumber (ctx e)) in
      match IntrinsicGas (Msg.Data msg) (bool_decide (Msg.To msg = None)) homestead with
      | inr err => mret (inr (vm_error err))
      | inl gas =>
          err ← useGas gas;
          match err with
          | Some err => mret (inr err)
          | None =>
              '(ret, vmerr) ← execute_msg;
              if bool_decide (vmerr = Some ErrInsufficientBalance)
              then mret (inr (vm_error ErrInsufficientBalance))
              else
                _ ← refundGas;
                used ← gets gasUsed;
                _ ← on_statedb (AddBalance (Coinbase (ctx e)) (used * Msg.GasPrice msg) (BlockNumber (ctx e)));
                used ← gets gasUsed;
                mret (inl (ret, used, bool_decide (vmerr ≠ None)))
          end
      end
  end.

(** [ApplyMessage(yvm, msg, gp)] *)
Definition ApplyMessage (y : YVM DB) (pool : Z) : outcome (StateTransition DB) (list byte * Z * bool + tx_error) :=
  TransitionDb (NewStateTransition y pool).

End Transition.
