(* ===== verification/TransitionTheorems.v ===== *)
(** * What applying a transaction guarantees

    Over every lawful state: the transition ends, the gas is accounted for and
    no money comes from nothing; what intrinsic gas costs. *)
From S2P Require Import Prelude BigMath Params OpCodes VmAnalysis VmMemory Rlp VmTypes VmLaws.
From S2P Require Import VmSample VmGas VmInstructions VmPrecompiles VmJumpTable VmInterp VmSpec VmCallSafety VmTheorems.
From S2P Require Import Chain Transition.

(** ** Intrinsic gas *)

Definition count_nonzero (data : list byte) : Z := zlen (filter (λ b, bz b ≠ 0) data).

Lemma count_nonzero_range data : 0 <= count_nonzero data <= zlen data.
Proof. unfold count_nonzero, zlen. pose proof (length_filter (λ b, bz b ≠ 0) data). lia. Qed.

Lemma nonzero_bytes_foldl data n :
  0 <= n → n + zlen data < 2 ^ 64 →
  foldl (λ nz b, if negb (bz b =? 0) then uint64 (nz + 1) else nz) n data = n + count_nonzero data.
Proof.
  unfold count_nonzero. revert n. induction data as [|b data IH]; intros n Hn Hl; cbn [foldl].
  { by rewrite Z.add_0_r. }
  unfold zlen in Hl |- *. cbn [length] in Hl. rewrite filter_cons.
  destruct (Z.eqb_spec (bz b) 0) as [E|E]; cbn [negb].
  - rewrite decide_False by (intros Hne; by apply Hne). apply IH; unfold zlen; lia.
  - rewrite decide_True by done. rewrite uint64_id by (unfold is_uint64; lia).
    rewrite IH by (unfold zlen; lia). unfold zlen. cbn [length]. lia.
Qed.

Lemma IntrinsicGas_run data creation homestead :
  zlen data < 2 ^ 57 →
  IntrinsicGas data creation homestead =
  inl ((if creation && homestead then TxGasContractCreation else TxGas) + TxDataNonZeroGas * count_nonzero data
       + TxDataZeroGas * (zlen data - count_nonzero data)).
Proof.
  intros Hl. pose proof (count_nonzero_range data) as Hc. unfold IntrinsicGas.
  assert (nonzero_bytes data = count_nonzero data) as ->.
  { unfold nonzero_bytes. rewrite nonzero_bytes_foldl by lia. lia. }
  set (base := if creation && homestead then TxGasContractCreation else TxGas). assert (0 <= base <= 53000) by (unfold base; case_match; lia).
  rewrite Z.gtb_ltb. destruct (Z.ltb_spec 0 (zlen data)); [|f_equal; lia].
  assert (∀ x, 0 <= x < 2 ^ 64 → uint64 x = x) as Hid by (intros; by apply uint64_id).
  assert (∀ p g x, 0 < p → g + p * x <= MaxUint64 → ((MaxUint64 - g) / p <? x) = false) as Hguard.
  { intros p g x Hp Hx. apply Z.ltb_ge, Z.div_le_lower_bound; lia. }
  rewrite (Hid (count_nonzero data * _)) by lia. rewrite (Hid (base + _)) by lia.
  rewrite (Hid (zlen data - _)) by lia. rewrite (Hid ((zlen data - _) * _)) by lia.
  rewrite !Hguard by (unfold MaxUint64; lia). rewrite Hid by lia. f_equal. lia.
Qed.

(** For data of every size a slice can have the intrinsic gas is exactly the
    base price plus 68 for each byte that is not zero and 4 for each zero byte;
    the overflow guards never fire and nothing wraps around. *)
Theorem IntrinsicGas_exact data creation homestead :
  zlen data < 2 ^ 57 →
  IntrinsicGas data creation homestead =
  inl ((if creation && homestead then TxGasContractCreation else TxGas) + TxDataNonZeroGas * count_nonzero data
       + TxDataZeroGas * (zlen data - count_nonzero data)).
Proof. apply IntrinsicGas_run. Qed.

Lemma IntrinsicGas_exact_witness :
  IntrinsicGas [zb 0; zb 7; zb 1] true true =
  inl (53000 + 68 * count_nonzero [zb 0; zb 7; zb 1] + 4 * (3 - count_nonzero [zb 0; zb 7; zb 1])).
Proof. apply (IntrinsicGas_exact [zb 0; zb 7; zb 1] true true). by vm_compute. Defined.

(** ** The transition *)

Section Rules.
Context `{StateLaws DB} `{!Crypto}.
Implicit Types (y : YVM DB) (st : StateTransition DB).

Definition on_state (s : DB) st : StateTransition DB := with_st_yvm (with_statedb s (st_yvm st)) st.

Lemma wp_on_statedb_reads {A B} F (m : M DB A) (k : A → M (StateTransition DB) B) P Q st :
  reads m (statedb (st_yvm st)) P →
  (∀ v s', SInv s' → view_eq (sview (statedb (st_yvm st))) (sview s') → P v → wp F (k v) Q (on_state s' st)) →
  wp F (on_statedb m ≫= k) Q st.
Proof.
  intros (v & s' & E & Hi & Hx & Hv & HP) Hk. apply wp_bind, wp_zoom, wp_zoom. unfold wp. rewrite E. by apply Hk.
Qed.

Lemma wp_on_statedb_updates {A B} F (m : M DB A) (k : A → M (StateTransition DB) B) P Q st :
  updates m (statedb (st_yvm st)) P →
  (∀ v s', SInv s' → P v (sview s') → wp F (k v) Q (on_state s' st)) →
  wp F (on_statedb m ≫= k) Q st.
Proof.
  intros (v & s' & E & Hi & Hx & HP) Hk. apply wp_bind, wp_zoom, wp_zoom. unfold wp. rewrite E. by apply Hk.
Qed.

(** A transition that began at [y0] and gave the accounts [c] so far, with the
    gas it has and the pool. *)
Record under_way y0 (c pool gas init : Z) st : Prop := {
  uw_inv : SInv (statedb (st_yvm st));
  uw_readOnly : readOnly (st_yvm st) = readOnly y0;
  uw_gains : gains (sview (statedb y0)) (sview (statedb (st_yvm st))) c;
  uw_gp : gp st = pool;
  uw_gas : st_gas st = gas;
  uw_init : initialGas st = init
}.

Lemma under_way_read y0 c pool gas init st s' :
  under_way y0 c pool gas init st → SInv s' → view_eq (sview (statedb (st_yvm st))) (sview s') →
  under_way y0 c pool gas init (on_state s' st).
Proof.
  intros [] Hi Hv. split; try done. cbn. eapply gains_mono; [by eapply gains_trans, view_eq_gains|lia].
Qed.

Lemma under_way_write y0 c d pool gas init st s' :
  under_way y0 c pool gas init st → SInv s' → gains (sview (statedb (st_yvm st))) (sview s') d →
  under_way y0 (c + d) pool gas init (on_state s' st).
Proof. intros [] Hi Hg. split; try done. cbn. by eapply gains_trans. Qed.

End Rules.

Section Transition.
Context `{StateLaws DB} `{!Crypto} (e : Env DB) (He : env_ok e).
Context (lp : M (Frame DB) exec_result) (n : Z) (Hlp : loop_ok e lp n) (msg : Message).
Implicit Types (y : YVM DB) (st : StateTransition DB).

(** What a message is by its types, and bounds no message on a chain meets. *)
Record msg_ok : Prop := {
  mo_From : 0 <= Msg.From msg;
  mo_To a : Msg.To msg = Some a → 0 <= a;
  mo_Gas : 0 <= Msg.Gas msg <= max_gas;
  mo_GasPrice : 0 <= Msg.GasPrice msg;
  mo_Value : 0 <= Msg.Value msg;
  mo_Data : zlen (Msg.Data msg) < 2 ^ 57
}.

Definition bought : Z := Msg.Gas msg * Msg.GasPrice msg.

(** The errors of [preCheck]. *)
Definition refused (err : tx_error) : Prop :=
  err ∈ [ErrNonceTooHigh; ErrNonceTooLow; ErrGasLimitReached; errInsufficientBalanceForGas].

Context (Hm : msg_ok).

Lemma buyGas_ok y0 pool st :
  is_uint64 pool → under_way y0 0 pool 0 0 st → view_eq (sview (statedb y0)) (sview (statedb (st_yvm st))) →
  wp stale (buyGas e msg) (λ r st', match r with
    | Some err => refused err ∧ under_way y0 0 pool 0 0 st' ∧
                  view_eq (sview (statedb y0)) (sview (statedb (st_yvm st')))
    | None => Msg.Gas msg <= pool ∧
              under_way y0 (- bought) (pool - Msg.Gas msg) (Msg.Gas msg) (Msg.Gas msg) st'
    end) st.
Proof.
  intros Hp Hu Hv0. destruct Hm as [? _ Hg ? _ _]. unfold buyGas, is_uint64, max_gas in *. fold bought.
  eapply wp_on_statedb_reads; [apply GetBalance_law, Hu|]. intros b s1 Hi1 Hv1 [-> Hb].
  pose proof (under_way_read _ _ _ _ _ _ _ Hu Hi1 Hv1) as Hu1.
  assert (view_eq (sview (statedb y0)) (sview s1)) as Hv01 by by etrans.
  destruct (Z.ltb_spec (v_balance (sview (statedb (st_yvm st))) (Msg.From msg)) bought);
    [split; [unfold refused; set_solver|by split]|].
  apply wp_bind, wp_gets. rewrite (uw_gp _ _ _ _ _ _ Hu1). unfold SubGas.
  destruct (Z.ltb_spec pool (Msg.Gas msg)); [split; [unfold refused; set_solver|by split]|].
  do 3 apply wp_bind, wp_modify.
  eapply wp_on_statedb_updates; [apply SubBalance_law; [exact Hi1|]|].
  { rewrite (vs_balance _ _ (ve_static _ _ Hv1)) in *. unfold bought in *. cbn. split; [nia|done]. }
  intros [] s2 Hi2 [Hc2 _]. split; [done|].
  destruct Hu1. cbn in *. split; cbn; try done.
  - eapply gains_mono; [eapply gains_trans; [done|by eapply changes_gains]|lia].
  - rewrite uint64_id by (unfold is_uint64; lia). lia.
  - rewrite uw_gas0, uint64_id by (unfold is_uint64; lia). lia.
Qed.

Lemma preCheck_ok y0 pool st :
  is_uint64 pool → under_way y0 0 pool 0 0 st → view_eq (sview (statedb y0)) (sview (statedb (st_yvm st))) →
  wp stale (preCheck e msg) (λ r st', match r with
    | Some err => refused err ∧ under_way y0 0 pool 0 0 st' ∧
                  view_eq (sview (statedb y0)) (sview (statedb (st_yvm st')))
    | None => Msg.Gas msg <= pool ∧
              under_way y0 (- bought) (pool - Msg.Gas msg) (Msg.Gas msg) (Msg.Gas msg) st'
    end) st.
Proof.
  intros Hp Hu Hv0. unfold preCheck. destruct (Msg.CheckNonce msg); [|by apply buyGas_ok].
  eapply wp_on_statedb_reads; [apply GetNonce_law, Hu|]. intros nonce s1 Hi1 Hv1 _.
  pose proof (under_way_read _ _ _ _ _ _ _ Hu Hi1 Hv1) as Hu1.
  assert (view_eq (sview (statedb y0)) (sview s1)) as Hv01 by by etrans.
  destruct (nonce <? _); [split; [unfold refused; set_solver|by split]|].
  destruct (nonce >? _); [split; [unfold refused; set_solver|by split]|]. by apply buyGas_ok.
Qed.

Lemma under_way_run y0 c pool gas init st y' gas' :
  under_way y0 c pool gas init st → yvm_rel e (st_yvm st) y' →
  under_way y0 c pool gas' init (with_st_gas gas' (with_st_yvm y' st)).
Proof.
  intros [] []. split; cbn; try congruence; try done.
  eapply gains_mono; [by eapply gains_trans|lia].
Qed.

Lemma execute_msg_ok y0 c pool gas init st :
  readOnly y0 = false → under_way y0 c pool gas init st → 0 <= gas < n → gas <= max_gas →
  wp stale (execute_msg e lp msg) (λ _ st', ∃ gas', 0 <= gas' <= gas ∧ under_way y0 c pool gas' init st') st.
Proof.
  intros Hro Hu Hg Hgm. destruct Hm as [? Hto ? ? ? ?]. unfold execute_msg. apply wp_bind, wp_gets.
  rewrite (uw_gas _ _ _ _ _ _ Hu). destruct (Msg.To msg) as [a|] eqn:Eto.
  - eapply wp_on_statedb_reads; [apply GetNonce_law, Hu|]. intros nonce s1 Hi1 Hv1 _.
    pose proof (under_way_read _ _ _ _ _ _ _ Hu Hi1 Hv1) as Hu1.
    eapply wp_on_statedb_updates; [apply SetNonce_law; [exact Hi1|apply uint64_range]|].
    intros [] s2 Hi2 Hb2. apply same_balances_gains in Hb2.
    pose proof (under_way_write _ _ _ _ _ _ _ _ Hu1 Hi2 Hb2) as Hu2. rewrite Z.add_0_r in Hu2.
    apply wp_bind, wp_zoom. eapply wp_mono.
    { eapply (Call_ok e He lp n); [done|done| |lia|lia|lia|done|done|].
      - unfold to. rewrite Eto. by apply Hto.
      - intros _. rewrite (uw_readOnly _ _ _ _ _ _ Hu2). congruence. }
    intros [[ret gas'] vmerr] y' [[Hg' Hy'] _ _]. apply wp_bind, wp_modify, wp_ret. exists gas'.
    split; [done|]. by eapply under_way_run.
  - apply wp_bind, wp_zoom. eapply wp_mono.
    { eapply (Create_ok e He lp n); [done|done|lia|lia|lia|done|apply Hu|].
      intros _. rewrite (uw_readOnly _ _ _ _ _ _ Hu). congruence. }
    intros [[[ret a] gas'] vmerr] y' (Hg' & _ & Hy'). apply wp_bind, wp_modify, wp_ret. exists gas'.
    split; [done|]. by eapply under_way_run.
Qed.

(** Half of what was used comes back at most. *)
Lemma refundGas_ok y0 c pool gas st :
  under_way y0 c pool gas (Msg.Gas msg) st → 0 <= gas <= Msg.Gas msg → 0 <= pool → pool + Msg.Gas msg < 2 ^ 64 →
  wp stale (refundGas e msg) (λ _ st', ∃ gas', gas <= gas' <= Msg.Gas msg ∧
    Msg.Gas msg - gas <= 2 * (Msg.Gas msg - gas') ∧
    under_way y0 (c + gas' * Msg.GasPrice msg) (pool + gas') gas' (Msg.Gas msg) st') st.
Proof.
  intros Hu Hg Hp Hpg. destruct Hm as [? _ Hmg ? _ _]. unfold refundGas, max_gas in *.
  apply wp_bind, wp_gets. unfold gasUsed. rewrite (uw_gas _ _ _ _ _ _ Hu), (uw_init _ _ _ _ _ _ Hu).
  rewrite uint64_id by (unfold is_uint64; lia). set (used := Msg.Gas msg - gas).
  eapply wp_on_statedb_reads; [apply GetRefund_law, Hu|]. intros counter s1 Hi1 Hv1 [_ Hc].
  pose proof (under_way_read _ _ _ _ _ _ _ Hu Hi1 Hv1) as Hu1.
  set (refund := if _ >? _ then _ else _).
  assert (0 <= refund <= used / 2) as Hr.
  { unfold refund. rewrite Z.gtb_ltb. zcases; [lia|]. split; [|lia]. apply Z.div_pos; lia. }
  assert (2 * (used / 2) <= used) by (apply Z.mul_div_le; lia).
  apply wp_bind, wp_modify, wp_bind, wp_gets. cbn [st_gas with_st_gas on_state with_st_yvm].
  rewrite (uw_gas _ _ _ _ _ _ Hu), uint64_id by (unfold is_uint64; lia).
  eapply wp_on_statedb_updates; [apply AddBalance_law; [exact Hi1|nia]|].
  intros [] s2 Hi2 [(d & Hd & Hc2) _]. apply wp_bind, wp_gets. cbn [gp with_st_gas on_state with_st_yvm].
  rewrite (uw_gp _ _ _ _ _ _ Hu). unfold AddGas.
  rewrite Z.gtb_ltb, (proj2 (Z.ltb_ge _ pool)) by (unfold MaxUint64; lia).
  apply wp_bind. eapply wp_must; [done|]. apply wp_modify. exists (gas + refund).
  split; [lia|]. split; [lia|]. destruct Hu1. cbn in *. split; cbn; try done; [|by rewrite uint64_id by (unfold is_uint64; lia)].
  eapply gains_mono; [eapply gains_trans; [done|by eapply changes_gains]|lia].
Qed.

(** What a transition leaves. *)
Definition transition_post y0 pool (r : list byte * Z * bool + tx_error) st' : Prop :=
  SInv (statedb (st_yvm st')) ∧ readOnly (st_yvm st') = readOnly y0 ∧
  gains (sview (statedb y0)) (sview (statedb (st_yvm st'))) 0 ∧
  match r with
  | inl (_, used, _) =>
      used <= Msg.Gas msg ∧ gp st' = pool - used ∧
      ∃ intrinsic, IntrinsicGas (Msg.Data msg) (bool_decide (Msg.To msg = None))
                     (IsHomestead (chainConfig e) (BlockNumber (ctx e))) = inl intrinsic ∧
                   0 < intrinsic <= 2 * used
  | inr err =>
      refused err ∧ view_eq (sview (statedb y0)) (sview (statedb (st_yvm st'))) ∧ gp st' = pool ∨
      err ∈ [vm_error ErrOutOfGas; vm_error ErrInsufficientBalance] ∧ gp st' = pool - Msg.Gas msg ∧
        gains (sview (statedb y0)) (sview (statedb (st_yvm st'))) (- bought)
  end.

(** An error after the gas has been bought *)
Lemma under_way_stop y0 pool gas init st err :
  under_way y0 (- bought) (pool - Msg.Gas msg) gas init st → 0 <= bought →
  err ∈ [vm_error ErrOutOfGas; vm_error ErrInsufficientBalance] → transition_post y0 pool (inr err) st.
Proof. intros [] Hb Hr. split; [done|]. split; [done|]. split; [eapply gains_mono; [done|lia]|]. by right. Qed.

Lemma TransitionDb_ok y0 pool :
  SInv (statedb y0) → readOnly y0 = false → is_uint64 pool → Msg.Gas msg < n →
  wp stale (TransitionDb e lp msg) (transition_post y0 pool) (NewStateTransition y0 pool).
Proof.
  intros Hs Hro Hp Hn. unfold TransitionDb. apply wp_bind.
  eapply wp_mono; [apply (preCheck_ok y0 pool); [done| |done]|].
  { split; try done. apply gains_refl. }
  intros [err|] st1; cbv beta iota.
  { intros (Hr & [] & Hv). split; [done|]. split; [done|]. split; [done|]. by left. }
  intros [Hpool Hu]. pose proof Hm as [? _ Hg ? _ Hd]. unfold is_uint64, max_gas in *.
  assert (0 <= bought) as Hb0 by (unfold bought; nia). cbv zeta.
  rewrite IntrinsicGas_run by done. set (ig := _ + _ + _).
  assert (0 < ig) as Hig by (unfold ig; pose proof (count_nonzero_range (Msg.Data msg)); case_match; lia).
  unfold useGas. apply wp_bind, wp_bind, wp_gets. rewrite (uw_gas _ _ _ _ _ _ Hu).
  destruct (Z.ltb_spec (Msg.Gas msg) ig) as [|Hig2].
  { eapply under_way_stop; [exact Hu|done|set_solver]. }
  apply wp_bind, wp_modify, wp_ret. rewrite uint64_id by (unfold is_uint64; lia).
  apply wp_bind. eapply wp_mono.
  { apply (execute_msg_ok y0 (- bought) (pool - Msg.Gas msg) (Msg.Gas msg - ig) (Msg.Gas msg)); [done| |lia|unfold max_gas; lia].
    by destruct Hu. }
  intros [ret vmerr] st2 (gas2 & Hg2 & Hu2). case_bool_decide.
  { subst vmerr. eapply under_way_stop; [exact Hu2|done|set_solver]. }
  apply wp_bind. eapply wp_mono; [eapply refundGas_ok; [exact Hu2|lia|lia|lia]|].
  intros [] st3 (gas3 & Hg3 & Hhalf & Hu3). apply wp_bind, wp_gets.
  assert (gasUsed st3 = Msg.Gas msg - gas3) as Hused.
  { unfold gasUsed. rewrite (uw_gas _ _ _ _ _ _ Hu3), (uw_init _ _ _ _ _ _ Hu3).
    apply uint64_id. unfold is_uint64. lia. }
  rewrite Hused. eapply wp_on_statedb_updates; [apply AddBalance_law; [apply Hu3|nia]|].
  intros [] s4 Hi4 [(d & Hd4 & Hc4) _]. apply wp_bind, wp_gets, wp_ret.
  change (gasUsed (on_state s4 st3)) with (gasUsed st3). rewrite Hused. apply changes_gains in Hc4.
  destruct (under_way_write _ _ _ _ _ _ _ _ Hu3 Hi4 Hc4) as [? ? Hgain ? ? ?].
  split; [done|]. split; [done|]. split; [eapply gains_mono; [exact Hgain|unfold bought; nia]|].
  split; [lia|]. split; [lia|]. exists ig. split; [by apply IntrinsicGas_run|lia].
Qed.

End Transition.

(** C3: Applying a message with a gas limit of at most 2^62 and less than 2^57
    bytes of data to any lawful state, with fuel above its limit, ends without a
    panic but for a stale analysis.  If it succeeds, the gas used is at most the
    limit and at least half the intrinsic gas, and exactly the gas used has left
    the block's pool.  If it is refused for its nonce, for the pool, or because the
    balance does not pay for the gas, state and pool are as they were.  The only
    other errors are that the limit is below the intrinsic gas ([vm.ErrOutOfGas])
    and that the balance does not cover the value ([vm.ErrInsufficientBalance]):
    they come after the gas has been bought, so the whole limit has left the pool and
    at least its price has left the accounts.  In every case the accounts
    together have no more money than before, the miner's included. *)
Theorem ApplyMessage_accounts `{StateLaws DB} `{!Crypto} (e : Env DB) fuel msg (y : YVM DB) pool :
  env_ok e → msg_ok msg → SInv (statedb y) → readOnly y = false → is_uint64 pool →
  Msg.Gas msg < Z.of_nat fuel →
  match ApplyMessage e (loop fuel e) msg y pool with
  | Done r st' => transition_post e msg y pool r st'
  | Fault x => x = StaleAnalysis
  end.
Proof.
  intros He Hm Hs Hro Hp Hf.
  pose proof (TransitionDb_ok e He (loop fuel e) _ (loop_good e He fuel) msg Hm y pool Hs Hro Hp Hf) as Hw.
  unfold wp, ApplyMessage in *. by destruct (TransitionDb _ _ _ _).
Qed.

(** Account 1 calls the writer with one unit per unit of gas. *)
Definition sample_msg : Message :=
  {| Msg.From := 1; Msg.To := Some 112; Msg.GasPrice := 1; Msg.Gas := 50000; Msg.Value := 5; Msg.Nonce := 0;
     Msg.CheckNonce := true; Msg.Data := [] |}.

Definition rich_yvm : YVM ref_state :=
  with_statedb (ref_set 1 (set_balance 100000 new_account) (sample_db writer)) (sample_yvm writer).

#[local] Existing Instance sample_crypto.

Lemma sample_msg_ok : env_ok sample_env ∧ msg_ok sample_msg ∧ SInv (statedb rich_yvm).
Proof.
  split; [by apply core_env_ok|]. split; [by split; try done; intros a [= <-]|].
  apply ref_set_ok; [by apply sample_db_ok|]. by repeat split.
Qed.

Example sample_msg_runs :
  match ApplyMessage sample_env (loop 10 sample_env) sample_msg rich_yvm 60000 with
  | Done r st' => r = inl ([], 41006, false) ∧ gp st' = 18994 ∧
      ra_balance (ref_get (statedb (st_yvm st')) 1) = 100000 - 5 - 41006 ∧
      ra_balance (ref_get (statedb (st_yvm st')) 2) = 41006
  | Fault _ => False
  end.
Proof. by vm_compute. Qed.

Lemma ApplyMessage_accounts_witness :
  match ApplyMessage sample_env (loop 50001 sample_env) sample_msg rich_yvm 60000 with
  | Done r st' => transition_post sample_env sample_msg rich_yvm 60000 r st'
  | Fault x => x = StaleAnalysis
  end.
Proof.
  destruct sample_msg_ok as (He & Hm & Hs).
  by apply (ApplyMessage_accounts sample_env 50001 sample_msg rich_yvm 60000).
Defined.
