(* ===== verification/BlockTypes.v ===== *)
(** * Hashes, blooms and receipts: [core/types]

    The hash of a header and of a list of uncles, the bloom filter of the logs
    of a block, and receipts with the encoding of their status. *)
From S2P Require Import Prelude BigMath Params OpCodes VmAnalysis VmMemory Rlp VmTypes VmLaws Chain.

Section Types.
Context `{!Crypto}.

(** ** core/types/block.go *)

(** An error of the encoder is dropped; then nothing was written. *)
Definition rlpHash (x : Rlp.value) : Hash :=
  Keccak256Hash (match Rlp.EncodeToBytes x with Some (Some data) => data | _ => [] end).

(** The fields up to [Extra]. *)
Definition header_fields (h : Header) : list Rlp.value :=
  [Rlp.VBytes (HashBytes (Block.ParentHash h)); Rlp.VBytes (HashBytes (Block.UncleHash h));
   Rlp.VBytes (AddressBytes (Block.Coinbase h)); Rlp.VBytes (HashBytes (Block.Root h));
   Rlp.VBytes (HashBytes (Block.TxHash h)); Rlp.VBytes (HashBytes (Block.ReceiptHash h));
   Rlp.VBytes (be_bytes 256 (Block.Bloom h)); Rlp.VBigInt (Block.Difficulty h);
   Rlp.VBigInt (Block.Number h); Rlp.VUint (Block.GasLimit h); Rlp.VUint (Block.GasUsed h);
   Rlp.VBigInt (Block.Time h); Rlp.VBytes (Block.Extra h)].

Definition header_value (h : Header) : Rlp.value :=
  Rlp.VList (header_fields h ++ [Rlp.VBytes (HashBytes (Block.MixDigest h)); Rlp.VBytes (be_bytes 8 (Block.Nonce h))]).

Definition Header_Hash (h : Header) : Hash := rlpHash (header_value h).
Definition HashNoNonce (h : Header) : Hash := rlpHash (Rlp.VList (header_fields h)).
Definition CalcUncleHash (uncles : list Header) : Hash := rlpHash (Rlp.VList (header_value <$> uncles)).
Definition EmptyUncleHash : Hash := CalcUncleHash [].

(** ** core/types/bloom9.go *)

Notation BloomByteLength := 256%nat (only parsing).

(** The bit a pair of hash bytes selects. *)
Definition bloom_bit (b : list byte) (i : nat) : Z :=
  let v := bz (default Byte.x00 (b !! S i)) + Z.shiftl (bz (default Byte.x00 (b !! i))) 8 in
  Z.land v 2047.

Definition bloom9 (b : list byte) : Z :=
  let b := Keccak256 b in
  foldl (λ r i, Z.lor r (Z.shiftl 1 (bloom_bit b i))) 0 [0; 2; 4]%nat.

Definition LogsBloom (logs : list Log) : Z :=
  foldl (λ bin log,
    foldl (λ bin b, Z.lor bin (bloom9 (HashBytes b)))
      (Z.lor bin (bloom9 (AddressBytes (log_Address log)))) (log_Topics log)) 0 logs.

(** [Bloom.SetBytes] on a new filter; [None] is the panic. *)
Definition BytesToBloom (d : list byte) : option (list byte) :=
  if (BloomByteLength <? length d)%nat then None
  else Some (zeros (BloomByteLength - length d) ++ d).

Definition BloomLookup (bin : list byte) (topic : list byte) : bool :=
  let cmp := bloom9 topic in Z.land (SetBytes bin) cmp =? cmp.

(** ** core/types/receipt.go *)

Record Receipt := {
  PostState : list byte;
  Status : Z;
  CumulativeGasUsed : Z;
  rc_Bloom : list byte;
  rc_Logs : list Log;
  rc_TxHash : Hash;
  ContractAddress : Address;
  rc_GasUsed : Z
}.

Definition CreateBloom (receipts : list Receipt) : option (list byte) :=
  BytesToBloom (Bytes (foldl (λ bin r, Z.lor bin (LogsBloom (rc_Logs r))) 0 receipts)).

Definition NewReceipt (root : list byte) (failed : bool) (cumulativeGasUsed : Z) : Receipt :=
  {| PostState := root; Status := if failed then 0 else 1; CumulativeGasUsed := cumulativeGasUsed;
     rc_Bloom := zeros BloomByteLength; rc_Logs := []; rc_TxHash := 0; ContractAddress := 0; rc_GasUsed := 0 |}.

Definition statusEncoding (r : Receipt) : list byte :=
  match PostState r with
  | [] => if Status r =? 0 then [] else [Byte.x01]
  | root => root
  end.

(** The two fields the encoding sets, or an error. *)
Definition setStatus (postStateOrStatus : list byte) (r : Receipt) : option Receipt :=
  let with_ root status :=
    Some {| PostState := root; Status := status; CumulativeGasUsed := CumulativeGasUsed r; rc_Bloom := rc_Bloom r;
            rc_Logs := rc_Logs r; rc_TxHash := rc_TxHash r; ContractAddress := ContractAddress r;
            rc_GasUsed := rc_GasUsed r |} in
  if bool_decide (postStateOrStatus = [Byte.x01]) then with_ (PostState r) 1
  else if bool_decide (postStateOrStatus = []) then with_ (PostState r) 0
  else if (length postStateOrStatus =? HashLength)%nat then with_ postStateOrStatus (Status r)
  else None.

(** ** Blooms *)

Lemma bloom_bit_range b i : 0 <= bloom_bit b i < 2048.
Proof.
  unfold bloom_bit. change 2047 with (Z.ones 11). rewrite Z.land_ones by lia. by apply Z.mod_pos_bound.
Qed.

Definition fits_bloom (z : Z) : Prop := 0 <= z < 2 ^ 2048.

Lemma lor_fits a b : fits_bloom a → fits_bloom b → fits_bloom (Z.lor a b).
Proof.
  unfold fits_bloom. intros Ha Hb. assert (0 <= Z.lor a b) as H0 by (apply Z.lor_nonneg; lia). split; [done|].
  destruct (Z.eq_dec (Z.lor a b) 0) as [->|Hne]; [done|]. apply Z.log2_lt_pow2; [lia|].
  rewrite Z.log2_lor by lia. apply Z.max_lub_lt.
  - destruct (Z.eq_dec a 0) as [->|]; [done|]. apply Z.log2_lt_pow2; lia.
  - destruct (Z.eq_dec b 0) as [->|]; [done|]. apply Z.log2_lt_pow2; lia.
Qed.

Lemma bloom9_fits b : fits_bloom (bloom9 b).
Proof.
  assert (∀ i, fits_bloom (Z.shiftl 1 (bloom_bit (Keccak256 b) i))) as Hbit.
  { intros i. pose proof (bloom_bit_range (Keccak256 b) i). rewrite Z.shiftl_mul_pow2, Z.mul_1_l by lia.
    split; [apply Z.pow_nonneg; lia|apply Z.pow_lt_mono_r; lia]. }
  unfold bloom9. cbn [foldl]. by repeat apply lor_fits.
Qed.

(** The bits of [a] are among those of [b]. *)
Definition covers (b a : Z) : Prop := Z.land b a = a.

Lemma covers_refl a : covers a a.
Proof. apply Z.land_diag. Qed.

Lemma covers_lor_l a b c : covers b a → covers (Z.lor b c) a.
Proof.
  unfold covers. intros Hc. rewrite Z.land_lor_distr_l, Hc. apply Z.bits_inj'. intros n _.
  rewrite !Z.lor_spec, Z.land_spec. by destruct (Z.testbit a n), (Z.testbit c n).
Qed.

Lemma covers_lor_r a b c : covers c a → covers (Z.lor b c) a.
Proof. intros Hc. rewrite Z.lor_comm. by apply covers_lor_l. Qed.

(** An accumulating loop covers what it began with and every contribution. *)
Lemma foldl_lor {A} (f : A → Z) l z :
  (∀ a, covers z a → covers (foldl (λ bin x, Z.lor bin (f x)) z l) a) ∧
  (∀ x a, x ∈ l → covers (f x) a → covers (foldl (λ bin x, Z.lor bin (f x)) z l) a) ∧
  ((∀ x, fits_bloom (f x)) → fits_bloom z → fits_bloom (foldl (λ bin x, Z.lor bin (f x)) z l)).
Proof.
  revert z. induction l as [|x l IH]; intros z; cbn [foldl]; [set_solver|].
  destruct (IH (Z.lor z (f x))) as (H1 & H2 & H3). split; [|split].
  - intros a Ha. by apply H1, covers_lor_l.
  - intros y a [->|Hy]%elem_of_cons Ha; [by apply H1, covers_lor_r|by eapply H2].
  - intros Hf Hz. apply H3; [done|]. by apply lor_fits.
Qed.

(** The bloom of one log. *)
Definition log_bloom (log : Log) : Z :=
  foldl (λ bin b, Z.lor bin (bloom9 (HashBytes b))) (bloom9 (AddressBytes (log_Address log))) (log_Topics log).

Lemma foldl_lor_start {A} (f : A → Z) l z w :
  foldl (λ bin x, Z.lor bin (f x)) (Z.lor z w) l = Z.lor z (foldl (λ bin x, Z.lor bin (f x)) w l).
Proof. revert w. induction l as [|x l IH]; intros w; cbn [foldl]; [done|]. by rewrite <-Z.lor_assoc, IH. Qed.

Lemma LogsBloom_eq logs : LogsBloom logs = foldl (λ bin log, Z.lor bin (log_bloom log)) 0 logs.
Proof.
  unfold LogsBloom, log_bloom. generalize 0. induction logs as [|log logs IH]; intros z; cbn [foldl]; [done|].
  by rewrite foldl_lor_start.
Qed.

Lemma log_bloom_fits log : fits_bloom (log_bloom log).
Proof. apply foldl_lor; intros; apply bloom9_fits. Qed.

Lemma LogsBloom_fits logs : fits_bloom (LogsBloom logs).
Proof. rewrite LogsBloom_eq. apply foldl_lor; [apply log_bloom_fits|done]. Qed.

(** The topics and the address of a log. *)
Definition logged (log : Log) (item : list byte) : Prop :=
  item = AddressBytes (log_Address log) ∨ ∃ topic, topic ∈ log_Topics log ∧ item = HashBytes topic.

Lemma log_bloom_covers log item : logged log item → covers (log_bloom log) (bloom9 item).
Proof.
  intros [->|(topic & Ht & ->)]; [apply foldl_lor, covers_refl|].
  eapply (foldl_lor (λ b, bloom9 (HashBytes b))); [exact Ht|apply covers_refl].
Qed.

(** The bloom of a block has no false negatives: for every log of every
    receipt the filter contains its address and each of its topics; making it
    never panics. *)
Theorem CreateBloom_complete receipts :
  ∃ bloom, CreateBloom receipts = Some bloom ∧ length bloom = BloomByteLength ∧
    ∀ r log item, r ∈ receipts → log ∈ rc_Logs r → logged log item → BloomLookup bloom item = true.
Proof.
  unfold CreateBloom. set (bin := foldl _ _ _).
  assert (fits_bloom bin) as [Hb0 Hb].
  { unfold bin. apply (foldl_lor (λ r, LogsBloom (rc_Logs r))); [intros; apply LogsBloom_fits|done]. }
  assert (length (Bytes bin) <= 256)%nat as Hl.
  { pose proof (zlen_Bytes_bound bin 256) as Hz. unfold zlen in Hz. change (256 ^ 256) with (2 ^ 2048) in Hz. lia. }
  unfold BytesToBloom. rewrite (proj2 (Nat.ltb_ge _ _)) by done. eexists. split; [reflexivity|].
  split; [unfold zeros; rewrite length_app, length_replicate; lia|].
  intros r log item Hr Hlog Hitem. unfold BloomLookup.
  rewrite SetBytes_app, SetBytes_zeros, Z.mul_0_l, Z.add_0_l, SetBytes_Bytes, Z.abs_eq by done.
  apply Z.eqb_eq. eapply (foldl_lor (λ r, LogsBloom (rc_Logs r))); [exact Hr|].
  rewrite LogsBloom_eq. eapply (foldl_lor log_bloom); [exact Hlog|]. by apply log_bloom_covers.
Qed.

(** ** Receipts *)

Lemma setStatus_encoding r r' :
  PostState r' = [] → PostState r = [] ∧ (Status r = 0 ∨ Status r = 1) ∨ length (PostState r) = HashLength →
  ∃ r2, setStatus (statusEncoding r) r' = Some r2 ∧ PostState r2 = PostState r ∧
    (PostState r = [] → Status r2 = Status r).
Proof.
  intros Hr' [[E [Es|Es]]|Hl]; unfold statusEncoding, setStatus.
  - rewrite E, Es. eexists. split; [reflexivity|]. done.
  - rewrite E, Es. eexists. split; [reflexivity|]. done.
  - destruct (PostState r) as [|b root] eqn:E; [done|].
    rewrite !bool_decide_eq_false_2 by (intros [=]; by subst). rewrite Hl. cbn. by eexists.
Qed.

End Types.
