(* ===== verification/Transactions.v ===== *)
(** * Transactions and their signatures: [core/types/transaction.go],
      [core/types/transaction_signing.go]

    A transaction keeps the sender it was found to have, with the signer that
    found it.  Signing is a parameter. *)
From S2P Require Import Prelude BigMath Params OpCodes VmAnalysis VmMemory Rlp VmTypes VmLaws VmSample VmPrecompiles.
From S2P Require Import Chain BlockTypes.

Inductive Signer :=
  | FrontierSigner
  | HomesteadSigner
  | EIP155Signer (chainId chainIdMul : Z).

Inductive sig_error := ErrInvalidChainId | ErrInvalidSig | ErrRecover | ErrInvalidPublicKey.

Module Tx.

Record txdata := {
  AccountNonce : Z;
  Price : Z;
  GasLimit : Z;
  Recipient : option Address;
  Amount : Z;
  Payload : list byte;
  V : Z;
  R : Z;
  S : Z
}.

(** The caches of hash and size only repeat what is computed. *)
Record Transaction := { data : txdata; from : option (Signer * Address) }.

End Tx.
Notation Transaction := Tx.Transaction.

Definition newTransaction (nonce : Z) (to : option Address) (amount : option Z) (gasLimit : Z)
    (gasPrice : option Z) (payload : list byte) : Transaction :=
  {| Tx.data := {| Tx.AccountNonce := nonce; Tx.Price := default 0 gasPrice; Tx.GasLimit := gasLimit;
                   Tx.Recipient := to; Tx.Amount := default 0 amount; Tx.Payload := payload;
                   Tx.V := 0; Tx.R := 0; Tx.S := 0 |};
     Tx.from := None |}.

Definition Cost (tx : Transaction) : Z := Tx.Price (Tx.data tx) * Tx.GasLimit (Tx.data tx) + Tx.Amount (Tx.data tx).

Definition isProtectedV (V : Z) : bool :=
  if BitLen V <=? 8 then let v := Uint64 V in negb (v =? 27) && negb (v =? 28) else true.

Definition deriveChainId (v : Z) : Z :=
  if BitLen v <=? 64 then
    let v := Uint64 v in
    if (v =? 27) || (v =? 28) then 0 else uint64 (v - 35) / 2
  else bigDiv (v - 35) 2.

Definition ChainId (tx : Transaction) : Z := deriveChainId (Tx.V (Tx.data tx)).
Definition Protected (tx : Transaction) : bool := isProtectedV (Tx.V (Tx.data tx)).

Definition NewEIP155Signer (chainId : option Z) : Signer :=
  let chainId := default 0 chainId in EIP155Signer chainId (chainId * 2).

Definition MakeSigner (config : ChainConfig) (blockNumber : Z) : Signer :=
  if IsEIP155 config blockNumber then NewEIP155Signer (ChainID config)
  else if IsHomestead config blockNumber then HomesteadSigner
  else FrontierSigner.

Definition Signer_Equal (s s2 : Signer) : bool :=
  match s, s2 with
  | EIP155Signer c _, EIP155Signer c2 _ => c2 =? c
  | HomesteadSigner, HomesteadSigner | FrontierSigner, FrontierSigner => true
  | _, _ => false
  end.

(** A nil recipient is encoded as an empty string. *)
Definition sign_fields (d : Tx.txdata) : list Rlp.value :=
  [Rlp.VUint (Tx.AccountNonce d); Rlp.VBigInt (Tx.Price d); Rlp.VUint (Tx.GasLimit d);
   Rlp.VBytes (match Tx.Recipient d with None => [] | Some a => AddressBytes a end);
   Rlp.VBigInt (Tx.Amount d); Rlp.VBytes (Tx.Payload d)].

Section Signing.
Context `{!Crypto}.

Definition tx_value (d : Tx.txdata) : Rlp.value :=
  Rlp.VList (sign_fields d ++ [Rlp.VBigInt (Tx.V d); Rlp.VBigInt (Tx.R d); Rlp.VBigInt (Tx.S d)]).

Definition Tx_Hash (tx : Transaction) : Hash := rlpHash (tx_value (Tx.data tx)).

Definition Signer_Hash (s : Signer) (tx : Transaction) : Hash :=
  match s with
  | EIP155Signer chainId _ =>
      rlpHash (Rlp.VList (sign_fields (Tx.data tx) ++ [Rlp.VBigInt chainId; Rlp.VUint 0; Rlp.VUint 0]))
  | HomesteadSigner | FrontierSigner => rlpHash (Rlp.VList (sign_fields (Tx.data tx)))
  end.

(** The signature as 65 bytes; [r] and [s] have been checked to fit. *)
Definition signature (R S : Z) (V : byte) : list byte :=
  let pad b := zeros (32 - length b) ++ b in pad (Bytes R) ++ pad (Bytes S) ++ [V].

Definition recoverPlain (sighash : Hash) (R S Vb : Z) (homestead : bool) : Address + sig_error :=
  if BitLen Vb >? 8 then inr ErrInvalidSig
  else
    let V := zb (uint64 (Uint64 Vb - 27)) in
    if negb (ValidateSignatureValues (bz V) R S homestead) then inr ErrInvalidSig
    else
      match Ecrecover (HashBytes sighash) (signature R S V) with
      | None => inr ErrRecover
      | Some pub =>
          match pub with
          | b :: rest => if negb (bz b =? 4) then inr ErrInvalidPublicKey
                         else inl (BytesToAddress (drop 12 (Keccak256 rest)))
          | [] => inr ErrInvalidPublicKey
          end
      end.

(** [signer.Sender(tx)] *)
Definition Signer_Sender (s : Signer) (tx : Transaction) : Address + sig_error :=
  let d := Tx.data tx in
  match s with
  | FrontierSigner => recoverPlain (Signer_Hash FrontierSigner tx) (Tx.R d) (Tx.S d) (Tx.V d) false
  | HomesteadSigner => recoverPlain (Signer_Hash HomesteadSigner tx) (Tx.R d) (Tx.S d) (Tx.V d) true
  | EIP155Signer chainId chainIdMul =>
      if negb (Protected tx) then
        recoverPlain (Signer_Hash HomesteadSigner tx) (Tx.R d) (Tx.S d) (Tx.V d) true
      else if negb (ChainId tx =? chainId) then inr ErrInvalidChainId
      else recoverPlain (Signer_Hash s tx) (Tx.R d) (Tx.S d) (Tx.V d - chainIdMul - 8) true
  end.

(** [Sender(signer, tx)], which looks at the cache first and fills it. *)
Definition Sender (signer : Signer) (tx : Transaction) : (Address + sig_error) * Transaction :=
  let derive :=
    match Signer_Sender signer tx with
    | inr err => (inr err, tx)
    | inl addr => (inl addr, {| Tx.data := Tx.data tx; Tx.from := Some (signer, addr) |})
    end in
  match Tx.from tx with
  | Some (s, addr) => if Signer_Equal s signer then (inl addr, tx) else derive
  | None => derive
  end.

(** The three values; [None] is the panic on a signature of another size. *)
Definition SignatureValues (s : Signer) (sig : list byte) : option (Z * Z * Z) :=
  if negb (length sig =? 65)%nat then None
  else
    let v64 := default Byte.x00 (sig !! 64%nat) in
    let r := SetBytes (take 32 sig) in
    let sv := SetBytes (take 32 (drop 32 sig)) in
    let v := bz (zb (bz v64 + 27)) in
    match s with
    | EIP155Signer chainId chainIdMul =>
        if negb (chainId =? 0) then Some (r, sv, bz (zb (bz v64 + 35)) + chainIdMul) else Some (r, sv, v)
    | _ => Some (r, sv, v)
    end.

Definition WithSignature (signer : Signer) (sig : list byte) (tx : Transaction) : option Transaction :=
  '(r, s, v) ← SignatureValues signer sig;
  let d := Tx.data tx in
  Some {| Tx.data := {| Tx.AccountNonce := Tx.AccountNonce d; Tx.Price := Tx.Price d; Tx.GasLimit := Tx.GasLimit d;
                        Tx.Recipient := Tx.Recipient d; Tx.Amount := Tx.Amount d; Tx.Payload := Tx.Payload d;
                        Tx.V := v; Tx.R := r; Tx.S := s |};
          Tx.from := None |}.

(** [tx.AsMessage(signer)]: the message, or the error of [Sender]. *)
Definition AsMessage (tx : Transaction) (s : Signer) : (Message + sig_error) * Transaction :=
  let '(r, tx') := Sender s tx in
  let d := Tx.data tx in
  (match r with
   | inr err => inr err
   | inl from =>
       inl {| Msg.From := from; Msg.To := Tx.Recipient d; Msg.GasPrice := Tx.Price d; Msg.Gas := Tx.GasLimit d;
              Msg.Value := Tx.Amount d; Msg.Nonce := Tx.AccountNonce d; Msg.CheckNonce := true;
              Msg.Data := Tx.Payload d |}
   end, tx').

Section Sign.
Context {Key : Type} (Sign : list byte → Key → option (list byte)) (key_address : Key → Address).

Definition SignTx (tx : Transaction) (s : Signer) (prv : Key) : option Transaction :=
  sig ← Sign (HashBytes (Signer_Hash s tx)) prv;
  WithSignature s sig tx.

(** What [crypto.Sign] documents: a signature [R || S || V] with [V] 0 or 1,
    with values in range and [S] in the lower half, that recovers the key. *)
Record sign_ok : Prop := {
  so_length h prv sig : Sign h prv = Some sig → length sig = 65%nat;
  so_values h prv sig : Sign h prv = Some sig →
    1 <= SetBytes (take 32 sig) < secp256k1N ∧ 1 <= SetBytes (take 32 (drop 32 sig)) <= secp256k1halfN ∧
    (sig !! 64%nat = Some (zb 0) ∨ sig !! 64%nat = Some (zb 1));
  so_recover h prv sig : Sign h prv = Some sig → ∃ rest, Ecrecover h sig = Some (zb 4 :: rest) ∧
    BytesToAddress (drop 12 (Keccak256 rest)) = key_address prv
}.

(** ** Signing and recovering *)

Lemma pad_bytes l : length l = 32%nat → zeros (32 - length (Bytes (SetBytes l))) ++ Bytes (SetBytes l) = l.
Proof.
  intros Hl. set (x := SetBytes l). assert (0 <= x < 256 ^ 32) as Hx.
  { split; [apply SetBytes_nonneg|]. pose proof (SetBytes_bound l) as Hb. unfold zlen in Hb. by rewrite Hl in Hb. }
  set (m := _ ++ _). assert (length m = 32%nat) as Hm.
  { unfold m, zeros. rewrite length_app, length_replicate.
    pose proof (zlen_Bytes_bound x 32) as Hz. unfold zlen in Hz. lia. }
  assert (SetBytes m = x) as Em.
  { unfold m. rewrite SetBytes_app, SetBytes_zeros, SetBytes_Bytes, Z.abs_eq by lia. lia. }
  by rewrite <-(be_bytes_SetBytes m), Em, Hm, <-Hl, be_bytes_SetBytes.
Qed.

Lemma signature_split sig v :
  length sig = 65%nat → sig !! 64%nat = Some v →
  signature (SetBytes (take 32 sig)) (SetBytes (take 32 (drop 32 sig))) v = sig.
Proof.
  intros Hl Hv. unfold signature. rewrite !pad_bytes by (rewrite length_take, ?length_drop; lia).
  transitivity (take 32 sig ++ take 32 (drop 32 sig) ++ drop 32 (drop 32 sig)); [|by rewrite !take_drop].
  do 2 f_equal. rewrite drop_drop. apply list_eq. intros [|i]; rewrite lookup_drop; [by rewrite Nat.add_0_r|].
  rewrite (lookup_ge_None_2 sig) by lia. done.
Qed.

Context (Hsign : sign_ok).

(** [v] is the last byte of the signature. *)
Lemma recoverPlain_signed h prv sig v homestead :
  Sign (HashBytes h) prv = Some sig → (v = 0 ∨ v = 1) → sig !! 64%nat = Some (zb v) →
  recoverPlain h (SetBytes (take 32 sig)) (SetBytes (take 32 (drop 32 sig))) (v + 27) homestead =
    inl (key_address prv).
Proof.
  intros Hs Hv H64. destruct (so_values Hsign _ _ _ Hs) as (Hr & Hsv & _).
  destruct (so_recover Hsign _ _ _ Hs) as (rest & He & Ha). unfold recoverPlain.
  assert (BitLen (v + 27) <= 8) by (apply BitLen_le; lia).
  rewrite Z.gtb_ltb, (proj2 (Z.ltb_ge _ _)) by lia.
  assert (zb (uint64 (Uint64 (v + 27) - 27)) = zb v) as ->.
  { rewrite Uint64_id by (unfold is_uint64; lia). f_equal. replace (v + 27 - 27) with v by lia.
    apply uint64_id. unfold is_uint64. lia. }
  rewrite bz_zb, Z.mod_small by lia.
  assert (ValidateSignatureValues v (SetBytes (take 32 sig)) (SetBytes (take 32 (drop 32 sig))) homestead = true) as ->.
  { unfold ValidateSignatureValues. assert (secp256k1halfN < secp256k1N) by done.
    rewrite !(proj2 (Z.ltb_ge _ 1)) by lia. rewrite Z.gtb_ltb, (proj2 (Z.ltb_ge _ _)), andb_false_r by lia.
    rewrite !(proj2 (Z.ltb_lt _ secp256k1N)) by lia. by destruct Hv as [->| ->]. }
  cbn [negb]. rewrite (signature_split sig) by (try done; by eapply so_length).
  rewrite He, bz_zb. cbn. by rewrite Ha.
Qed.

(** The chain identifier goes with its double, and is not zero. *)
Definition valid_signer (s : Signer) : Prop :=
  match s with EIP155Signer c m => 0 < c ∧ m = c * 2 | _ => True end.

(** The signed transaction and the last byte of its signature. *)
Lemma SignTx_run tx s prv sig :
  Sign (HashBytes (Signer_Hash s tx)) prv = Some sig →
  ∃ tx' v, SignTx tx s prv = Some tx' ∧ (v = 0 ∨ v = 1) ∧ sig !! 64%nat = Some (zb v) ∧
    sign_fields (Tx.data tx') = sign_fields (Tx.data tx) ∧ Tx.from tx' = None ∧
    Tx.R (Tx.data tx') = SetBytes (take 32 sig) ∧ Tx.S (Tx.data tx') = SetBytes (take 32 (drop 32 sig)) ∧
    Tx.V (Tx.data tx') = match s with
      | EIP155Signer c m => if c =? 0 then v + 27 else v + 35 + m | _ => v + 27 end.
Proof.
  intros Hs. pose proof (so_length Hsign _ _ _ Hs) as Hl. destruct (so_values Hsign _ _ _ Hs) as (_ & _ & H64).
  assert (∃ v, (v = 0 ∨ v = 1) ∧ sig !! 64%nat = Some (zb v)) as (v & Hv & E64).
  { destruct H64; [exists 0|exists 1]; auto. }
  unfold SignTx. rewrite Hs. cbn [mbind option_bind]. unfold WithSignature, SignatureValues.
  rewrite Hl, E64. cbn [negb Nat.eqb default from_option id].
  assert (∀ k, 0 <= k < 200 → bz (zb (bz (zb v) + k)) = v + k) as Hb.
  { intros k Hk. rewrite !bz_zb, (Z.mod_small v) by lia. apply Z.mod_small. lia. }
  rewrite !Hb by lia. destruct s as [| |c m]; [..|destruct (Z.eqb_spec c 0)]; cbn;
    (eexists _, v; split; [reflexivity|]; by repeat split).
Qed.

Lemma Signer_Hash_data s tx tx' :
  sign_fields (Tx.data tx') = sign_fields (Tx.data tx) → Signer_Hash s tx' = Signer_Hash s tx.
Proof. intros E. unfold Signer_Hash. by rewrite E. Qed.

Lemma protected_chain c v :
  0 < c → v = 0 ∨ v = 1 → isProtectedV (v + 35 + c * 2) = true ∧ deriveChainId (v + 35 + c * 2) = c.
Proof.
  intros Hc Hv. split.
  - unfold isProtectedV. destruct (Z.leb_spec (BitLen (v + 35 + c * 2)) 8) as [Hb|]; [|done].
    apply BitLen_le in Hb; [|lia]. rewrite Uint64_id by (unfold is_uint64; lia).
    rewrite !(proj2 (Z.eqb_neq _ _)) by lia. done.
  - unfold deriveChainId. assert ((v + c * 2) / 2 = c) as Hd by (rewrite Z.div_add by lia; destruct Hv; subst; done).
    destruct (Z.leb_spec (BitLen (v + 35 + c * 2)) 64) as [Hb|].
    + apply BitLen_le in Hb; [|lia]. rewrite Uint64_id by (unfold is_uint64; lia).
      rewrite !(proj2 (Z.eqb_neq _ _)) by lia. cbn [orb]. rewrite uint64_id by (unfold is_uint64; lia).
      by replace (v + 35 + c * 2 - 35) with (v + c * 2) by lia.
    + unfold bigDiv. replace (v + 35 + c * 2 - 35) with (v + c * 2) by lia.
      change (Z.sgn 2) with 1. change (Z.abs 2) with 2. lia.
Qed.

Lemma unprotected v : v = 0 ∨ v = 1 → isProtectedV (v + 27) = false.
Proof. by intros [->| ->]. Qed.

Lemma Signer_Sender_signed tx s prv sig tx' :
  valid_signer s → Sign (HashBytes (Signer_Hash s tx)) prv = Some sig → SignTx tx s prv = Some tx' →
  Signer_Sender s tx' = inl (key_address prv).
Proof.
  intros Hval Hs E. destruct (SignTx_run tx s prv sig Hs) as (tx2 & v & E2 & Hv & H64 & Hf & _ & ER & ES & EV).
  rewrite E in E2. injection E2 as <-. pose proof (Signer_Hash_data s tx tx' Hf) as Hh.
  destruct s as [| |c m]; cbn [Signer_Sender].
  - rewrite ER, ES, EV, Hh. by apply recoverPlain_signed.
  - rewrite ER, ES, EV, Hh. by apply recoverPlain_signed.
  - destruct Hval as [Hc ->]. rewrite (proj2 (Z.eqb_neq c 0)) in EV by lia.
    unfold Protected, ChainId. rewrite EV. destruct (protected_chain c v Hc Hv) as [-> ->].
    cbn [negb]. rewrite Z.eqb_refl, ER, ES, Hh. cbn [negb].
    replace (v + 35 + c * 2 - c * 2 - 8) with (v + 27) by lia. by apply recoverPlain_signed.
Qed.

(** C29: Signing and recovering are inverse: the sender of a signed transaction
    is the address of the key, for the signers of Frontier and Homestead and for
    the EIP155 signer of every chain with a positive identifier ([valid_signer]);
    asking again gives the same answer from the cache.  The identifier 0 is left
    out: there the hash that is signed includes the identifier, and the one the
    sender is recovered from does not. *)
Theorem SignTx_Sender tx s prv sig :
  valid_signer s → Sign (HashBytes (Signer_Hash s tx)) prv = Some sig →
  ∃ tx' tx2, SignTx tx s prv = Some tx' ∧ sign_fields (Tx.data tx') = sign_fields (Tx.data tx) ∧
    Sender s tx' = (inl (key_address prv), tx2) ∧ Sender s tx2 = (inl (key_address prv), tx2).
Proof.
  intros Hval Hs. destruct (SignTx_run tx s prv sig Hs) as (tx' & v & E & _ & _ & Hf & Hfrom & _).
  exists tx'. unfold Sender. rewrite Hfrom, (Signer_Sender_signed tx s prv sig tx') by done.
  eexists. split; [done|]. split; [done|]. split; [reflexivity|]. cbn.
  by destruct s; cbn; rewrite ?Z.eqb_refl.
Qed.

(** C30: A transaction signed for one chain is refused everywhere else: by the
    signer of any other chain and by the signers from before replay protection,
    also after its sender has been found and remembered. *)
Theorem replay_refused tx c prv sig s2 :
  0 < c → Sign (HashBytes (Signer_Hash (EIP155Signer c (c * 2)) tx)) prv = Some sig →
  Signer_Equal (EIP155Signer c (c * 2)) s2 = false →
  ∃ tx', SignTx tx (EIP155Signer c (c * 2)) prv = Some tx' ∧
    ∀ tx2, tx2 = tx' ∨ tx2 = (Sender (EIP155Signer c (c * 2)) tx').2 →
      ∃ err, Sender s2 tx2 = (inr err, tx2) ∧ err ∈ [ErrInvalidChainId; ErrInvalidSig].
Proof.
  intros Hc Hs Hne. set (s := EIP155Signer c (c * 2)) in *.
  destruct (SignTx_run tx s prv sig Hs) as (tx' & v & E & Hv & _ & _ & Hfrom & _ & _ & EV).
  exists tx'. split; [done|]. cbn in EV. rewrite (proj2 (Z.eqb_neq c 0)) in EV by lia.
  destruct (protected_chain c v Hc Hv) as [Hp Hd].
  assert (∃ err, (∀ tx2, Tx.data tx2 = Tx.data tx' → Signer_Sender s2 tx2 = inr err) ∧
                 err ∈ [ErrInvalidChainId; ErrInvalidSig]) as (err & Herr & Hin).
  { assert (∀ h R S hom, recoverPlain h R S (v + 35 + c * 2) hom = inr ErrInvalidSig) as Hold.
    { intros h R S hom. unfold recoverPlain. rewrite Z.gtb_ltb.
      destruct (Z.ltb_spec 8 (BitLen (v + 35 + c * 2))) as [|Hb]; [done|].
      apply BitLen_le in Hb; [|lia]. rewrite Uint64_id by (unfold is_uint64; lia).
      rewrite uint64_id by (unfold is_uint64; lia). rewrite bz_zb, Z.mod_small by lia.
      unfold ValidateSignatureValues. rewrite !(proj2 (Z.eqb_neq (_ - 27) _)) by lia.
      cbn [orb]. rewrite andb_false_r. by repeat case_match. }
    destruct s2 as [| |c2 m2]; cbn in Hne.
    - exists ErrInvalidSig. split; [|set_solver]. intros tx2 E2. cbn. rewrite E2, EV. apply Hold.
    - exists ErrInvalidSig. split; [|set_solver]. intros tx2 E2. cbn. rewrite E2, EV. apply Hold.
    - exists ErrInvalidChainId. split; [|set_solver]. intros tx2 E2. cbn. unfold Protected, ChainId.
      rewrite E2, EV, Hp, Hd. cbn [negb]. by rewrite Z.eqb_sym, Hne. }
  intros tx2 Htx2. exists err. split; [|done]. unfold Sender. destruct Htx2 as [->| ->].
  - rewrite Hfrom. by rewrite Herr.
  - unfold Sender. rewrite Hfrom, (Signer_Sender_signed tx s prv sig tx') by done. cbn [snd Tx.from].
    rewrite Hne. by rewrite Herr.
Qed.

End Sign.
End Signing.

(** ** A concrete signature *)

(** One key, one signature, and a recovery that gives its public key. *)
#[refine] Definition signing_crypto : Crypto :=
  {| Keccak256 := @Keccak256 sample_crypto; sha256_Sum256 := @sha256_Sum256 sample_crypto;
     ripemd160_Sum := @ripemd160_Sum sample_crypto; Ecrecover := λ _ _, Some (zb 4 :: zeros 64);
     G1 := (); G2 := (); G1_Unmarshal := λ _, Some (); G2_Unmarshal := λ _, Some ();
     G1_Marshal := λ _, zeros 64; G1_Add := λ _ _, (); G1_ScalarMult := λ _ _, (); PairingCheck := λ _ _, true |}.
Proof.
  - apply (@length_Keccak256 sample_crypto).
  - apply (@length_sha256 sample_crypto).
  - apply (@length_ripemd160 sample_crypto).
  - by intros h s p [= <-].
  - done.
Defined.

Definition sample_sig : list byte := be_bytes 32 1 ++ be_bytes 32 1 ++ [zb 0].
Definition sample_sign (h : list byte) (prv : ()) : option (list byte) := Some sample_sig.
Definition sample_key_address (prv : ()) : Address :=
  BytesToAddress (drop 12 (@Keccak256 signing_crypto (zeros 64))).

Lemma sample_sign_ok : @sign_ok signing_crypto () sample_sign sample_key_address.
Proof.
  split; intros h prv sig [= <-].
  - done.
  - split; [by vm_compute|]. split; [by vm_compute|]. by left.
  - exists (zeros 64). done.
Qed.

Definition sample_tx : Transaction := newTransaction 3 (Some 112) (Some 5) 50000 (Some 1) [].

Lemma SignTx_Sender_witness :
  ∃ tx' tx2, @SignTx signing_crypto () sample_sign sample_tx (NewEIP155Signer (Some 13)) () = Some tx' ∧
    sign_fields (Tx.data tx') = sign_fields (Tx.data sample_tx) ∧
    @Sender signing_crypto (NewEIP155Signer (Some 13)) tx' = (inl (sample_key_address ()), tx2) ∧
    @Sender signing_crypto (NewEIP155Signer (Some 13)) tx2 = (inl (sample_key_address ()), tx2).
Proof.
  exact (@SignTx_Sender signing_crypto () sample_sign sample_key_address sample_sign_ok sample_tx
    (EIP155Signer 13 26) () sample_sig (conj eq_refl eq_refl) eq_refl).
Defined.

Lemma replay_refused_witness :
  ∃ tx', @SignTx signing_crypto () sample_sign sample_tx (EIP155Signer 13 26) () = Some tx' ∧
    ∀ tx2, tx2 = tx' ∨ tx2 = (@Sender signing_crypto (EIP155Signer 13 26) tx').2 →
      ∃ err, @Sender signing_crypto (EIP155Signer 3 6) tx2 = (inr err, tx2) ∧
        err ∈ [ErrInvalidChainId; ErrInvalidSig].
Proof.
  exact (@replay_refused signing_crypto () sample_sign sample_key_address sample_sign_ok sample_tx 13 () sample_sig
    (EIP155Signer 3 6) eq_refl eq_refl eq_refl).
Defined.
