(* ===== verification/PowHash.v ===== *)
(** * Proof of work: [consensus/yochash/algorithm.go]

    The cache, the items of the dataset, the dataset made by several threads,
    and the hash over both.  [None] is a panic: an index out of range, a
    division by zero or a search that ran out of fuel.  Keccak-512 and the
    primality test are parameters. *)
From S2P Require Import Prelude BigMath Params OpCodes VmAnalysis VmMemory Rlp VmTypes PowSizes.

Definition uint32 (z : Z) : Z := z mod 2 ^ 32.

Notation datasetInitBytes := (2 ^ 30) (only parsing).
Notation datasetGrowthBytes := (2 ^ 23) (only parsing).
Notation cacheInitBytes := (2 ^ 24) (only parsing).
Notation cacheGrowthBytes := (2 ^ 17) (only parsing).
Notation epochLength := 30000 (only parsing).
Notation mixBytes := 128 (only parsing).
Notation hashBytes := 64 (only parsing).
Notation hashWords := 16 (only parsing).
Notation datasetParents := 256%nat (only parsing).
Notation cacheRounds := 3%nat (only parsing).
Notation loopAccesses := 64%nat (only parsing).
Notation maxEpoch := 2048 (only parsing).

(** ** Slices *)

(** [a % b] on unsigned integers *)
Definition rem (a b : Z) : option Z := if b =? 0 then None else Some (a mod b).

(** [l[i]] *)
Definition at_ {A} (l : list A) (i : Z) : option A := if i <? 0 then None else l !! Z.to_nat i.

(** [l[i:]] *)
Definition from {A} (l : list A) (i : Z) : option (list A) :=
  if (i <? 0) || (zlen l <? i) then None else Some (drop (Z.to_nat i) l).

(** [l[i:j]] *)
Definition range_ {A} (l : list A) (i j : Z) : option (list A) :=
  if (i <? 0) || (j <? i) || (zlen l <? j) then None else Some (take (Z.to_nat (j - i)) (drop (Z.to_nat i) l)).

(** [copy(l[i:], src)] *)
Definition copy_at {A} (l : list A) (i : Z) (src : list A) : option (list A) :=
  rest ← from l i; Some (take (Z.to_nat i) l ++ overlay src rest).

(** [binary.LittleEndian.Uint32(b)] *)
Definition Uint32 (b : list byte) : option Z :=
  if zlen b <? 4 then None else Some (SetBytes (reverse (take 4 b))).

(** [binary.LittleEndian.PutUint32(b[i:], v)] *)
Definition PutUint32 (b : list byte) (i v : Z) : option (list byte) :=
  rest ← from b i; if zlen rest <? 4 then None else copy_at b i (le_bytes 4 v).

(** [binary.BigEndian.PutUint32(b[i:], v)] *)
Definition PutUint32_big (b : list byte) (i v : Z) : option (list byte) :=
  rest ← from b i; if zlen rest <? 4 then None else copy_at b i (be_bytes 4 v).

(** A loop over a list of indices that can panic. *)
Fixpoint loop_on {A B} (f : A → B → option A) (a : A) (l : list B) : option A :=
  match l with [] => Some a | b :: l => a ← f a b; loop_on f a l end.

(** [lo], [lo + 1], ..., [hi - 1] *)
Definition upto (lo hi : Z) : list Z := seqZ lo (hi - lo).

(** The words of a byte buffer, and a byte buffer overwritten by words. *)
Definition read_words (b : list byte) (n : Z) : option (list Z) :=
  mapM (λ i, rest ← from b (i * 4); Uint32 rest) (upto 0 n).

Definition put_words (b : list byte) (ws : list Z) : option (list byte) :=
  loop_on (λ b '(i, v), PutUint32 b (i * 4) v) b (zip (upto 0 (zlen ws)) ws).

Definition fnv (a b : Z) : Z := Z.lxor (uint32 (a * 0x01000193)) b.

Definition fnvHash (mix data : list Z) : option (list Z) :=
  loop_on (λ mix i, a ← at_ mix i; d ← at_ data i; Some (<[Z.to_nat i := fnv a d]> mix))
    mix (upto 0 (zlen mix)).

Definition swap (buffer : list byte) : option (list byte) :=
  loop_on (λ b i, rest ← from b (i * 4); v ← Uint32 rest; PutUint32_big b (i * 4) v) buffer
    (upto 0 ((zlen buffer + 3) / 4)).

Section Pow.
Context `{!Crypto} (Keccak512 : list byte → list byte) (ProbablyPrime : Z → bool).

(** [makeHasher]: the hash over [data] goes to the front of [dest]. *)
Definition keccak512 (dest data : list byte) : option (list byte) :=
  if zlen dest <? hashBytes then None else copy_at dest 0 (Keccak512 data).

(** ** Sizes *)

Fixpoint next_prime (fuel : nat) (size unit : Z) : option Z :=
  match fuel with
  | O => None
  | S fuel => if ProbablyPrime (size / unit) then Some size else next_prime fuel (uint64 (size - 2 * unit)) unit
  end.

Definition calcCacheSize (fuel : nat) (epoch : Z) : option Z :=
  next_prime fuel (uint64 (uint64 (cacheInitBytes + uint64 (cacheGrowthBytes * uint64 epoch)) - hashBytes)) hashBytes.

Definition calcDatasetSize (fuel : nat) (epoch : Z) : option Z :=
  next_prime fuel (uint64 (uint64 (datasetInitBytes + uint64 (datasetGrowthBytes * uint64 epoch)) - mixBytes)) mixBytes.

Definition cacheSize (fuel : nat) (block : Z) : option Z :=
  let epoch := block / epochLength in
  if epoch <? maxEpoch then at_ cacheSizes epoch else calcCacheSize fuel epoch.

Definition datasetSize (fuel : nat) (block : Z) : option Z :=
  let epoch := block / epochLength in
  if epoch <? maxEpoch then at_ datasetSizes epoch else calcDatasetSize fuel epoch.

Definition seedHash (block : Z) : list byte :=
  if block <? epochLength then zeros 32
  else Nat.iter (Z.to_nat (block / epochLength)) Keccak256 (zeros 32).

(** ** The cache *)

(** [bitutil.XORBytes], which xors as far as both slices reach *)
Definition XORBytes (dst a b : list byte) : list byte :=
  overlay (zip_with (λ x y, zb (Z.lxor (bz x) (bz y))) a b) dst.

Definition cache_row (rows : Z) (cache : list byte) (j : Z) : option (list byte) :=
  srcOff ← (λ r, r * hashBytes) <$> rem (j - 1 + rows) rows;
  let dstOff := j * hashBytes in
  dst ← from cache dstOff;
  word ← Uint32 dst;
  xorOff ← (λ r, uint32 (r * hashBytes)) <$> rem word (uint32 rows);
  src ← range_ cache srcOff (srcOff + hashBytes);
  xor ← range_ cache xorOff (uint32 (xorOff + hashBytes));
  let temp := XORBytes (zeros 64) src xor in
  row ← keccak512 dst temp;
  copy_at cache dstOff row.

(** The bytes of the cache on a machine of either byte order. *)
Definition generateCache (little : bool) (dest : list byte) (seed : list byte) : option (list byte) :=
  let size := zlen dest in
  let rows := size / hashBytes in
  cache ← keccak512 dest seed;
  cache ← loop_on (λ cache r,
    let offset := r * hashBytes in
    src ← range_ cache (offset - hashBytes) offset;
    dst ← from cache offset;
    row ← keccak512 dst src;
    copy_at cache offset row) cache (upto 1 ((size + hashBytes - 1) / hashBytes));
  cache ← loop_on (λ cache _, loop_on (cache_row rows) cache (upto 0 rows)) cache (seq 0 cacheRounds);
  if little then Some cache else swap cache.

(** ** The items of the dataset *)

(** One parent mixed in. *)
Definition mix_parent (cache : list Z) (rows index : Z) (intMix : list Z) (i : Z) : option (list Z) :=
  m ← at_ intMix (i mod 16);
  parent ← rem (fnv (Z.lxor index i) m) rows;
  data ← from cache (uint32 (parent * hashWords));
  fnvHash intMix data.

Definition generateDatasetItem (cache : list Z) (index : Z) : option (list byte) :=
  let rows := uint32 (zlen cache / hashWords) in
  r ← rem index rows;
  let base := uint32 (r * hashWords) in
  first ← at_ cache base;
  mix ← PutUint32 (zeros 64) 0 (Z.lxor first index);
  mix ← loop_on (λ mix i, w ← at_ cache (uint32 (base + i)); PutUint32 mix (i * 4) w) mix (upto 1 hashWords);
  mix ← keccak512 mix mix;
  intMix ← read_words mix hashWords;
  intMix ← loop_on (mix_parent cache rows index) intMix (upto 0 (Z.of_nat datasetParents));
  mix ← put_words mix intMix;
  keccak512 mix mix.

(** ** The dataset *)

(** The items the thread [id] makes. *)
Definition thread_items (size threads id : Z) : list Z :=
  let batch := uint32 (uint64 (uint64 (size + uint64 (hashBytes * threads)) - 1) / uint64 (hashBytes * threads)) in
  let first := uint32 (uint32 id * batch) in
  let limit := uint32 (first + batch) in
  let limit := if limit >? uint32 (size / hashBytes) then uint32 (size / hashBytes) else limit in
  upto first limit.

(** One item is made and copied to its place; the progress is reported. *)
Definition write_item (little : bool) (cache : list Z) (dataset : list byte) (index : Z) : option (list byte) :=
  item ← generateDatasetItem cache index;
  item ← (if little then Some item else swap item);
  dataset ← copy_at dataset (uint32 (index * hashBytes)) item;
  _ ← rem 1 (uint32 (zlen dataset / hashBytes / 100));
  Some dataset.

(** The items written in the order in which the threads come to them. *)
Definition write_items (little : bool) (cache : list Z) (dest : list byte) (order : list Z) : option (list byte) :=
  loop_on (write_item little cache) dest order.

(** The threads one after the other. *)
Definition generateDataset (little : bool) (threads : Z) (cache : list Z) (dest : list byte) : option (list byte) :=
  write_items little cache dest (mjoin (thread_items (zlen dest) threads <$> upto 0 threads)).

(** The memory of the machine read as 32-bit words. *)
Definition machine_words (little : bool) (b : list byte) : option (list Z) :=
  mapM (λ i, w ← range_ b (i * 4) (i * 4 + 4);
             Some (SetBytes (if little then reverse w else w))) (upto 0 (zlen b / 4)).

(** ** The hash *)

(** One access to the dataset. *)
Definition mix_rows (lookup : Z → option (list Z)) (rows seedHead : Z) (mix : list Z) (i : Z) : option (list Z) :=
  m ← at_ mix (i mod zlen mix);
  parent ← rem (fnv (Z.lxor (uint32 i) seedHead) m) rows;
  temp ← loop_on (λ temp j, w ← lookup (uint32 (uint32 (2 * parent) + j)); copy_at temp (j * hashWords) w)
    (replicate 32 0) (upto 0 (mixBytes / hashBytes));
  fnvHash mix temp.

Definition compress_step (mix : list Z) (i : Z) : option (list Z) :=
  a ← at_ mix (i * 4); b ← at_ mix (i * 4 + 1); c ← at_ mix (i * 4 + 2); d ← at_ mix (i * 4 + 3);
  Some (<[Z.to_nat i := fnv (fnv (fnv a b) c) d]> mix).

(** [PutUint64] of the nonce behind the hash. *)
Definition pow_seed (hash : list byte) (nonce : Z) : list byte :=
  take 32 (overlay hash (zeros 40)) ++ le_bytes 8 nonce.

Definition hashimoto (hash : list byte) (nonce size : Z) (lookup : Z → option (list Z))
    : option (list byte * list byte) :=
  let rows := uint32 (size / mixBytes) in
  let seed := Keccak512 (pow_seed hash nonce) in
  seedHead ← Uint32 seed;
  mix ← mapM (λ i, rest ← from seed (i mod 16 * 4); Uint32 rest) (upto 0 (mixBytes / 4));
  mix ← loop_on (mix_rows lookup rows seedHead) mix (upto 0 (Z.of_nat loopAccesses));
  mix ← loop_on compress_step mix (upto 0 (zlen mix / 4));
  digest ← put_words (zeros 32) (take (length mix / 4) mix);
  Some (digest, Keccak256 (seed ++ digest)).

Definition hashimotoLight (size : Z) (cache : list Z) (hash : list byte) (nonce : Z) : option (list byte * list byte) :=
  let lookup index :=
    rawData ← generateDatasetItem cache index;
    read_words rawData (zlen rawData / 4) in
  hashimoto hash nonce size lookup.

Definition hashimotoFull (dataset : list Z) (hash : list byte) (nonce : Z) : option (list byte * list byte) :=
  let lookup index :=
    let offset := uint32 (index * hashWords) in
    range_ dataset offset (uint32 (offset + hashWords)) in
  hashimoto hash nonce (uint64 (zlen dataset * 4)) lookup.

End Pow.
