(* ===== verification/PowHashOk.v ===== *)
(** * The proof of work by the cache and by the dataset

    Items can always be made, the dataset holds them all whatever the order of
    the threads, and the two ways to compute the hash agree. *)
From S2P Require Import Prelude BigMath Params OpCodes VmAnalysis VmMemory Rlp VmTypes PowSizes PowHash.

(** ** Slices *)

Lemma from_ok {A} (l : list A) i : 0 <= i <= zlen l → from l i = Some (drop (Z.to_nat i) l).
Proof.
  intros Hi. unfold from. by rewrite (proj2 (Z.ltb_ge i 0)), (proj2 (Z.ltb_ge (zlen l) i)) by lia.
Qed.

Lemma range_ok {A} (l : list A) i j :
  0 <= i <= j → j <= zlen l → range_ l i j = Some (take (Z.to_nat (j - i)) (drop (Z.to_nat i) l)).
Proof.
  intros Hi Hj. unfold range_.
  by rewrite (proj2 (Z.ltb_ge i 0)), (proj2 (Z.ltb_ge j i)), (proj2 (Z.ltb_ge (zlen l) j)) by lia.
Qed.

Lemma at_ok {A} (l : list A) i : 0 <= i < zlen l → ∃ x, at_ l i = Some x.
Proof.
  intros Hi. unfold at_. rewrite (proj2 (Z.ltb_ge i 0)) by lia.
  destruct (lookup_lt_is_Some_2 l (Z.to_nat i)) as [x ->]; [unfold zlen in Hi; lia|]. by exists x.
Qed.

Lemma copy_at_ok {A} (l : list A) i src :
  0 <= i <= zlen l → ∃ l', copy_at l i src = Some l' ∧ length l' = length l ∧
    l' = take (Z.to_nat i) l ++ overlay src (drop (Z.to_nat i) l).
Proof.
  intros Hi. unfold copy_at. rewrite from_ok by done. eexists. split; [reflexivity|]. split; [|done].
  rewrite length_app, length_overlay, length_take, length_drop. unfold zlen in Hi. lia.
Qed.

Lemma rem_ok a b : 0 < b → rem a b = Some (a mod b).
Proof. intros Hb. unfold rem. by rewrite (proj2 (Z.eqb_neq b 0)) by lia. Qed.

Lemma uint32_id z : 0 <= z < 2 ^ 32 → uint32 z = z.
Proof. apply Z.mod_small. Qed.

Lemma elem_of_upto x lo hi : x ∈ upto lo hi ↔ lo <= x < hi.
Proof. unfold upto. rewrite elem_of_seqZ. lia. Qed.

Lemma length_upto lo hi : length (upto lo hi) = Z.to_nat (hi - lo).
Proof. unfold upto. by rewrite length_seqZ. Qed.

(** ** Loops *)

Lemma loop_on_ext {A B} (f g : A → B → option A) a l :
  (∀ a b, b ∈ l → f a b = g a b) → loop_on f a l = loop_on g a l.
Proof.
  revert a. induction l as [|b l IH]; intros a Hfg; cbn; [done|].
  rewrite Hfg by set_solver. destruct (g a b); cbn; [|done]. apply IH. set_solver.
Qed.

Lemma loop_on_app {A B} (f : A → B → option A) a l k :
  loop_on f a (l ++ k) = a ← loop_on f a l; loop_on f a k.
Proof.
  revert a. induction l as [|b l IH]; intros a; cbn; [done|]. destruct (f a b); cbn; [apply IH|done].
Qed.

(** A loop with an invariant does not panic. *)
Lemma loop_on_inv {A B} (P : A → Prop) (f : A → B → option A) l :
  (∀ a b, b ∈ l → P a → ∃ a', f a b = Some a' ∧ P a') → ∀ a, P a → ∃ a', loop_on f a l = Some a' ∧ P a'.
Proof.
  induction l as [|b l IH]; intros Hf a Ha; cbn; [eauto|].
  destruct (Hf a b) as (a1 & -> & H1); [set_solver|done|]. cbn. apply IH; [|done]. set_solver.
Qed.

Lemma mapM_ok {A B} (f : A → option B) (g : A → B) l :
  (∀ a, a ∈ l → f a = Some (g a)) → mapM f l = Some (g <$> l).
Proof.
  induction l as [|a l IH]; intros Hf; cbn; [done|]. rewrite Hf by set_solver. cbn.
  rewrite IH by set_solver. done.
Qed.

(** ** Words *)

Definition word (little : bool) (b : list byte) (i : Z) : Z :=
  let w := take 4 (drop (Z.to_nat (i * 4)) b) in SetBytes (if little then reverse w else w).

Definition words (little : bool) (b : list byte) : list Z := word little b <$> upto 0 (zlen b / 4).

Lemma Uint32_ok b : 4 <= zlen b → Uint32 b = Some (SetBytes (reverse (take 4 b))).
Proof. intros Hb. unfold Uint32. by rewrite (proj2 (Z.ltb_ge _ _)). Qed.

Lemma zlen_drop {A} (l : list A) i : 0 <= i <= zlen l → zlen (drop (Z.to_nat i) l) = zlen l - i.
Proof. intros Hi. unfold zlen in *. rewrite length_drop. lia. Qed.

Lemma read_words_ok b n : 0 <= n → n * 4 <= zlen b → read_words b n = Some (word true b <$> upto 0 n).
Proof.
  intros Hn Hb. apply mapM_ok. intros i Hi%elem_of_upto. rewrite from_ok by lia. cbn.
  rewrite Uint32_ok by (rewrite zlen_drop; lia). done.
Qed.

Lemma machine_words_ok little b : zlen b mod 4 = 0 → machine_words little b = Some (words little b).
Proof.
  intros Hb. apply mapM_ok. intros i Hi%elem_of_upto. pose proof (Z.div_mod (zlen b) 4).
  rewrite range_ok by lia. cbn. replace (i * 4 + 4 - i * 4) with 4 by lia. done.
Qed.

Lemma PutUint32_ok b i v :
  0 <= i → i + 4 <= zlen b → ∃ b', PutUint32 b i v = Some b' ∧ length b' = length b.
Proof.
  intros Hi Hb. unfold PutUint32. rewrite from_ok by lia. cbn [mbind option_bind]. rewrite (proj2 (Z.ltb_ge _ _)) by (rewrite zlen_drop; lia).
  destruct (copy_at_ok b i (le_bytes 4 v)) as (b' & -> & Hl & _); [lia|]. eauto.
Qed.

Lemma put_words_ok b ws :
  zlen ws * 4 <= zlen b → ∃ b', put_words b ws = Some b' ∧ length b' = length b.
Proof.
  intros Hl. apply (loop_on_inv (λ b', length b' = length b)); [|done].
  intros b' [i v] Hin Hb. apply elem_of_zip_l in Hin. apply elem_of_upto in Hin.
  destruct (PutUint32_ok b' (i * 4) v) as (b2 & -> & Hb2); [lia|unfold zlen in *; lia|]. exists b2.
  split; [done|congruence].
Qed.

Lemma fnvHash_ok mix data :
  zlen mix <= zlen data → ∃ r, fnvHash mix data = Some r ∧ length r = length mix.
Proof.
  intros Hl. apply (loop_on_inv (λ m, length m = length mix)); [|done].
  intros m i Hi%elem_of_upto Hm. destruct (at_ok m i) as [a ->]; [unfold zlen in *; lia|].
  destruct (at_ok data i) as [d ->]; [lia|]. cbn. eexists. split; [done|]. by rewrite length_insert.
Qed.

(** ** Items *)

Section Items.
Context (Keccak512 : list byte → list byte).

Lemma keccak512_ok dest data :
  64 <= zlen dest → ∃ d, keccak512 Keccak512 dest data = Some d ∧ length d = length dest.
Proof.
  intros Hd. unfold keccak512. rewrite (proj2 (Z.ltb_ge _ _)) by lia.
  destruct (copy_at_ok dest 0 (Keccak512 data)) as (d & -> & Hl & _); [lia|]. eauto.
Qed.

(** A cache of whole rows whose positions fit 32 bits. *)
Definition cache_ok (cache : list Z) : Prop := 16 <= zlen cache < 2 ^ 32.

Lemma mix_parent_ok cache index mix i :
  cache_ok cache → length mix = 16%nat →
  ∃ r, mix_parent cache (zlen cache / 16) index mix i = Some r ∧ length r = 16%nat.
Proof.
  intros Hc Hm. unfold cache_ok in Hc. unfold mix_parent.
  destruct (at_ok mix (i mod 16)) as [m ->].
  { pose proof (Z.mod_pos_bound i 16). unfold zlen. lia. }
  assert (0 < zlen cache / 16) by (apply Z.div_str_pos; lia).
  cbn [mbind option_bind]. rewrite rem_ok by done. cbn [mbind option_bind].
  set (p := _ mod _). assert (0 <= p < zlen cache / 16) as Hp by (by apply Z.mod_pos_bound).
  pose proof (Z.mul_div_le (zlen cache) 16). rewrite uint32_id by lia.
  rewrite from_ok by lia. cbn [mbind option_bind].
  destruct (fnvHash_ok mix (drop (Z.to_nat (p * 16)) cache)) as (r & -> & Hr).
  { rewrite zlen_drop by lia. unfold zlen at 1. lia. }
  exists r. split; [done|congruence].
Qed.

Lemma generateDatasetItem_ok cache index :
  cache_ok cache → ∃ item, generateDatasetItem Keccak512 cache index = Some item ∧ length item = 64%nat.
Proof.
  intros Hc. pose proof Hc as Hc'. unfold cache_ok in Hc'. unfold generateDatasetItem.
  assert (0 < zlen cache / 16) as Hr by (apply Z.div_str_pos; lia).
  pose proof (Z.mul_div_le (zlen cache) 16). rewrite (uint32_id (_ / _)) by lia.
  rewrite rem_ok by done. cbn [mbind option_bind].
  set (r := index mod _). assert (0 <= r < zlen cache / 16) as Hrr by (by apply Z.mod_pos_bound).
  rewrite (uint32_id (r * _)) by lia. destruct (at_ok cache (r * 16)) as [x ->]; [lia|]. cbn [mbind option_bind].
  destruct (PutUint32_ok (zeros 64) 0 (Z.lxor x index)) as (m1 & -> & H1); [done|done|]. cbn [mbind option_bind].
  destruct (loop_on_inv (λ m, length m = 64%nat)
    (λ mix i, w ← at_ cache (uint32 (r * 16 + i)); PutUint32 mix (i * 4) w) (upto 1 16)) with (a := m1)
    as (m2 & -> & H2); [|done|].
  { intros m i Hi%elem_of_upto Hm. rewrite uint32_id by lia.
    destruct (at_ok cache (r * 16 + i)) as [w ->]; [lia|]. cbn [mbind option_bind].
    destruct (PutUint32_ok m (i * 4) w) as (m' & -> & Hm'); [lia|unfold zlen; lia|]. exists m'. split; [done|lia]. }
  cbn [mbind option_bind].
  destruct (keccak512_ok m2 m2) as (m3 & -> & H3); [unfold zlen; lia|]. cbn [mbind option_bind].
  rewrite read_words_ok by (unfold zlen; lia). cbn [mbind option_bind].
  destruct (loop_on_inv (λ m, length m = 16%nat) (mix_parent cache (zlen cache / 16) index)
    (upto 0 (Z.of_nat 256))) with (a := word true m3 <$> upto 0 16) as (im & -> & Him).
  { intros m i _ Hm. by apply mix_parent_ok. }
  { by rewrite length_fmap, length_upto. }
  cbn [mbind option_bind].
  destruct (put_words_ok m3 im) as (m4 & -> & H4); [unfold zlen; lia|]. cbn [mbind option_bind].
  destruct (keccak512_ok m4 m4) as (m5 & -> & H5); [unfold zlen; lia|]. exists m5. split; [done|lia].
Qed.

(** The item, as the function it is. *)
Definition item_of (cache : list Z) (index : Z) : list byte :=
  default [] (generateDatasetItem Keccak512 cache index).

Lemma item_of_ok cache index :
  cache_ok cache → generateDatasetItem Keccak512 cache index = Some (item_of cache index) ∧
    length (item_of cache index) = 64%nat.
Proof.
  intros Hc. unfold item_of. by destruct (generateDatasetItem_ok cache index Hc) as (item & -> & Hl).
Qed.

End Items.

(** ** The hash *)

Section Hash.
Context `{!Crypto} (Keccak512 : list byte → list byte) (HKeccak512 : ∀ l, length (Keccak512 l) = 64%nat).

(** The positions in the dataset that a hash over [size] bytes can look at. *)
Definition in_dataset (size i : Z) : Prop := 0 <= i < 2 * (size / 128).

Lemma lookup_position rows a j :
  0 < rows < 2 ^ 31 → 0 <= j < 2 → 0 <= uint32 (uint32 (2 * (a mod rows)) + j) < 2 * rows.
Proof.
  intros Hr Hj. pose proof (Z.mod_pos_bound a rows). rewrite !uint32_id by (rewrite ?uint32_id; lia). lia.
Qed.

(** Only the lookups of the dataset matter. *)
Lemma hashimoto_ext hash nonce size lookup lookup' :
  128 <= size < 2 ^ 38 → (∀ i, in_dataset size i → lookup i = lookup' i) →
  hashimoto Keccak512 hash nonce size lookup = hashimoto Keccak512 hash nonce size lookup'.
Proof.
  intros Hs Hl. unfold hashimoto. set (rows := uint32 (size / 128)).
  assert (0 < size / 128 < 2 ^ 31) as Hrows.
  { split; [apply Z.div_str_pos; lia|apply Z.div_lt_upper_bound; lia]. }
  assert (rows = size / 128) as Er by (apply uint32_id; lia).
  destruct (Uint32 _) as [seedHead|]; [|done]. cbn [mbind option_bind].
  destruct (mapM _ _) as [mix|]; [|done]. cbn [mbind option_bind].
  rewrite (loop_on_ext (mix_rows lookup rows seedHead) (mix_rows lookup' rows seedHead)); [done|].
  intros m i _. unfold mix_rows. destruct (at_ m _) as [w|]; [|done]. cbn [mbind option_bind].
  rewrite rem_ok by lia. cbn [mbind option_bind].
  erewrite (loop_on_ext _ _ (replicate 32 0)); [done|].
  intros temp j Hj%elem_of_upto. change (128 / 64) with 2 in Hj. cbv beta. rewrite Hl; [done|]. unfold in_dataset. rewrite <-Er.
  apply lookup_position; lia.
Qed.

Lemma mix_rows_ok lookup rows seedHead m i :
  0 < rows < 2 ^ 31 → (∀ k, 0 <= k < 2 * rows → ∃ ws, lookup k = Some ws) → length m = 32%nat →
  ∃ r, mix_rows lookup rows seedHead m i = Some r ∧ length r = 32%nat.
Proof.
  intros Hr Hl Hm. unfold mix_rows. destruct (at_ok m (i mod zlen m)) as [w ->].
  { unfold zlen. rewrite Hm. apply Z.mod_pos_bound. lia. }
  cbn [mbind option_bind]. rewrite rem_ok by lia. cbn [mbind option_bind].
  match goal with |- context [loop_on ?f _ _] =>
    destruct (loop_on_inv (λ t, length t = 32%nat) f (upto 0 (128 / 64))) with (a := replicate 32 0)
      as (temp & -> & Ht); [|done|] end.
  - intros t j Hj%elem_of_upto Ht. change (128 / 64) with 2 in Hj. cbv beta.
    edestruct Hl as [ws ->]; [apply lookup_position; lia|]. cbn [mbind option_bind].
    destruct (copy_at_ok t (j * 16) ws) as (t' & -> & Ht' & _); [unfold zlen; lia|].
    exists t'. split; [done|lia].
  - cbn [mbind option_bind]. destruct (fnvHash_ok m temp) as (r & -> & Hr'); [unfold zlen; lia|].
    exists r. split; [done|lia].
Qed.

Lemma compress_step_ok m i :
  0 <= i < 8 → length m = 32%nat → ∃ r, compress_step m i = Some r ∧ length r = 32%nat.
Proof.
  intros Hi Hm. unfold compress_step. assert (zlen m = 32) as Hz by (unfold zlen; lia).
  destruct (at_ok m (i * 4)) as [a ->]; [lia|]. destruct (at_ok m (i * 4 + 1)) as [b ->]; [lia|].
  destruct (at_ok m (i * 4 + 2)) as [c ->]; [lia|]. destruct (at_ok m (i * 4 + 3)) as [d ->]; [lia|].
  eexists. split; [done|]. by rewrite length_insert.
Qed.

(** With an item at every position the hash is computed. *)
Lemma hashimoto_ok hash nonce size lookup :
  128 <= size < 2 ^ 38 → (∀ i, in_dataset size i → ∃ ws, lookup i = Some ws) →
  ∃ digest result, hashimoto Keccak512 hash nonce size lookup = Some (digest, result) ∧ length digest = 32%nat.
Proof.
  intros Hs Hl. unfold hashimoto. set (rows := uint32 (size / 128)).
  assert (0 < size / 128 < 2 ^ 31) as Hrows.
  { split; [apply Z.div_str_pos; lia|apply Z.div_lt_upper_bound; lia]. }
  assert (rows = size / 128) as Er by (apply uint32_id; lia).
  set (seed := Keccak512 _). assert (zlen seed = 64) as Hseed by (unfold zlen, seed; by rewrite HKeccak512).
  rewrite Uint32_ok by lia. cbn [mbind option_bind]. set (seedHead := SetBytes _).
  rewrite (mapM_ok _ (λ i, SetBytes (reverse (take 4 (drop (Z.to_nat (i mod 16 * 4)) seed))))).
  2: { intros i _. pose proof (Z.mod_pos_bound i 16). rewrite from_ok by lia. cbn [mbind option_bind].
       rewrite Uint32_ok by (rewrite zlen_drop; lia). done. }
  cbn [mbind option_bind]. set (mix0 := _ <$> _).
  destruct (loop_on_inv (λ m, length m = 32%nat) (mix_rows lookup rows seedHead) (upto 0 (Z.of_nat 64)))
    with (a := mix0) as (mix1 & -> & H1).
  { intros m i _ Hm. apply mix_rows_ok; [lia| |done]. intros k Hk. apply Hl. unfold in_dataset. lia. }
  { unfold mix0. by rewrite length_fmap, length_upto. }
  cbn [mbind option_bind].
  destruct (loop_on_inv (λ m, length m = 32%nat) compress_step (upto 0 (zlen mix1 / 4))) with (a := mix1)
    as (mix2 & -> & H2); [|done|].
  { intros m i Hi%elem_of_upto Hm. unfold zlen in Hi. rewrite H1 in Hi. by apply compress_step_ok. }
  cbn [mbind option_bind].
  destruct (put_words_ok (zeros 32) (take (length mix2 / 4) mix2)) as (digest & -> & Hd).
  { unfold zlen. rewrite length_take, H2. done. }
  cbn [mbind option_bind]. by exists digest, (Keccak256 (seed ++ digest)).
Qed.

End Hash.
