(* ===== verification/PowTheorems.v ===== *)
(** * Mining and verifying agree

    The dataset holds every item whatever the order of the threads, so the
    hash a miner computes over it is the one a verifier computes with the
    cache; from 4 GiB on the dataset is not filled. *)
From S2P Require Import Prelude BigMath Params OpCodes VmAnalysis VmMemory Rlp VmTypes VmLaws VmSample PowSizes PowHash PowHashOk.

(** ** Blocks of a buffer *)

(** The bytes of the [k]-th block of [n]. *)
Definition block_of (n : Z) (b : list byte) (k : Z) : list byte := take (Z.to_nat n) (drop (Z.to_nat (k * n)) b).

Lemma length_block_of n b k : 0 <= n → 0 <= k → (k + 1) * n <= zlen b → length (block_of n b k) = Z.to_nat n.
Proof. intros. unfold block_of, zlen in *. rewrite length_take, length_drop. nia. Qed.

Lemma block_of_copy n b k item k' :
  0 < n → 0 <= k → 0 <= k' → (k + 1) * n <= zlen b → (k' + 1) * n <= zlen b → zlen item = n →
  ∃ b', copy_at b (k * n) item = Some b' ∧ length b' = length b ∧
        block_of n b' k' = if decide (k = k') then item else block_of n b k'.
Proof.
  intros Hn Hk Hk' Hb Hb' Hi. destruct (copy_at_ok b (k * n) item) as (b' & E & Hl & Eb); [nia|].
  exists b'. split; [done|]. split; [done|]. unfold block_of, zlen in *. subst b'.
  rewrite overlay_app by (rewrite length_drop; nia). rewrite drop_drop. clear E Hl.
  apply list_eq. intros i. destruct (decide (Z.of_nat i < n)) as [Hin|Hin].
  2: { destruct (decide (k = k')); rewrite !lookup_ge_None_2; rewrite ?length_take; try done; lia. }
  rewrite lookup_take_lt, lookup_drop by lia. destruct (decide (k = k')) as [<-|Hne].
  - rewrite lookup_app_r, lookup_app_l by (rewrite ?length_take; nia). f_equal. rewrite length_take. nia.
  - rewrite lookup_take_lt, lookup_drop by lia. destruct (decide (k' < k)).
    + rewrite lookup_app_l, lookup_take_lt by (rewrite ?length_take; nia). done.
    + rewrite !lookup_app_r by (rewrite ?length_take; nia). rewrite lookup_drop, length_take. f_equal. nia.
Qed.

(** Two buffers with the same blocks of 4 in a range have the same words there. *)
Lemma word_block little b k :
  word little b k = SetBytes (if little then reverse (block_of 4 b k) else block_of 4 b k).
Proof. reflexivity. Qed.

Lemma block_of_block b k j :
  0 <= k → 0 <= j < 16 → block_of 4 (block_of 64 b k) j = block_of 4 b (k * 16 + j).
Proof.
  intros Hk Hj. unfold block_of. rewrite skipn_firstn_comm, take_take, drop_drop. f_equal; [lia|f_equal; lia].
Qed.

(** ** Swapping the byte order *)

Lemma swap_step b i :
  0 <= i → (i + 1) * 4 <= zlen b →
  ∃ b', (rest ← from b (i * 4); v ← Uint32 rest; PutUint32_big b (i * 4) v) = Some b' ∧ length b' = length b ∧
    ∀ k, 0 <= k → (k + 1) * 4 <= zlen b →
      block_of 4 b' k = if decide (i = k) then reverse (block_of 4 b k) else block_of 4 b k.
Proof.
  intros Hi Hb. rewrite from_ok by lia. cbn [mbind option_bind]. rewrite Uint32_ok by (rewrite zlen_drop; lia).
  cbn [mbind option_bind]. unfold PutUint32_big. rewrite from_ok by lia. cbn [mbind option_bind].
  rewrite (proj2 (Z.ltb_ge _ _)) by (rewrite zlen_drop; lia).
  set (w := reverse _). assert (be_bytes 4 (SetBytes w) = w) as ->.
  { assert (length w = 4%nat) as <-; [|apply be_bytes_SetBytes].
    unfold w. rewrite length_reverse, length_take, length_drop. unfold zlen in Hb. lia. }
  assert (zlen w = 4) as Hw.
  { unfold w, zlen in *. rewrite length_reverse, length_take, length_drop. lia. }
  destruct (copy_at_ok b (i * 4) w) as (b' & E & Hl & _); [lia|]. exists b'. split; [done|]. split; [done|].
  intros k Hk Hkb. destruct (block_of_copy 4 b i w k) as (b2 & E2 & _ & Hk2); try done.
  rewrite E in E2. injection E2 as <-. rewrite Hk2. case_decide; [by subst|done].
Qed.

Lemma swap_loop b n :
  0 <= n → n * 4 <= zlen b →
  ∃ b', loop_on (λ b i, rest ← from b (i * 4); v ← Uint32 rest; PutUint32_big b (i * 4) v) b (upto 0 n) = Some b' ∧
    length b' = length b ∧ ∀ k, 0 <= k → (k + 1) * 4 <= zlen b →
      block_of 4 b' k = if decide (k < n) then reverse (block_of 4 b k) else block_of 4 b k.
Proof.
  intros Hn. pattern n. apply natlike_ind; [..|done]; clear n Hn.
  { intros _. exists b. split; [done|]. split; [done|]. intros k Hk _. by rewrite decide_False by lia. }
  intros n Hn IH Hb. destruct IH as (b1 & E1 & Hl1 & H1); [lia|].
  unfold upto in *. rewrite Z.sub_0_r in *. replace (Z.succ n) with (n + 1) by lia.
  rewrite seqZ_app, loop_on_app, E1 by lia. cbn [mbind option_bind].
  change (seqZ (0 + n) 1) with [n].
  assert (zlen b1 = zlen b) as Hz by (unfold zlen; lia).
  destruct (swap_step b1 n) as (b2 & E2 & Hl2 & H2); [done|lia|].
  exists b2. split; [cbn [loop_on]; by rewrite E2|]. split; [congruence|].
  intros k Hk Hkb. rewrite H2, H1 by lia. repeat case_decide; subst; try done; lia.
Qed.

(** ** The dataset *)

Section Dataset.
Context (Keccak512 : list byte → list byte).
Context (little : bool) (cache : list Z) (Hcache : cache_ok cache).

(** The item as it lies in memory. *)
Definition stored (index : Z) : list byte :=
  let item := item_of Keccak512 cache index in if little then item else default [] (swap item).

Lemma item_length index : zlen (item_of Keccak512 cache index) = 64.
Proof. unfold zlen. by rewrite (proj2 (item_of_ok Keccak512 cache index Hcache)). Qed.

Lemma stored_ok index :
  (item ← generateDatasetItem Keccak512 cache index; if little then Some item else swap item) =
    Some (stored index) ∧ zlen (stored index) = 64 ∧
  ∀ j, 0 <= j < 16 → word little (stored index) j = word true (item_of Keccak512 cache index) j.
Proof.
  destruct (item_of_ok Keccak512 cache index Hcache) as [-> Hl]. cbn [mbind option_bind].
  pose proof (item_length index) as Hz. unfold stored. destruct little; [done|].
  set (item := item_of _ _ _) in *. unfold swap. rewrite Hz. change ((64 + 3) / 4) with 16.
  destruct (swap_loop item 16) as (b & -> & Hb & Hw); [lia|lia|]. cbn [default]. split; [done|].
  split; [unfold zlen in *; cbn; lia|]. intros j Hj. rewrite !word_block. cbn [default from_option id].
  by rewrite Hw, decide_True by lia.
Qed.

(** An item goes to the block its index has in 32-bit arithmetic. *)
Lemma write_item_ok d index :
  6400 <= zlen d < 2 ^ 38 → 0 <= index → (index mod 2 ^ 26 + 1) * 64 <= zlen d →
  ∃ d', write_item Keccak512 little cache d index = Some d' ∧ length d' = length d ∧
    ∀ k, 0 <= k → (k + 1) * 64 <= zlen d →
      block_of 64 d' k = if decide (index mod 2 ^ 26 = k) then stored index else block_of 64 d k.
Proof.
  intros Hd Hi Hfit. destruct (stored_ok index) as (Es & Hs & _). unfold write_item.
  destruct (generateDatasetItem _ _ _) as [item|]; [|done]. cbn [mbind option_bind] in Es |- *.
  rewrite Es. cbn [mbind option_bind].
  assert (uint32 (index * 64) = index mod 2 ^ 26 * 64) as ->.
  { unfold uint32. change (2 ^ 32) with (2 ^ 26 * 64). by rewrite Z.mul_mod_distr_r by lia. }
  pose proof (Z.mod_pos_bound index (2 ^ 26)).
  destruct (copy_at_ok d (index mod 2 ^ 26 * 64) (stored index)) as (d' & E & Hl & _); [lia|].
  rewrite E. cbn [mbind option_bind]. replace (zlen d') with (zlen d) by (unfold zlen; by rewrite Hl).
  assert (1 <= zlen d / 64 / 100 < 2 ^ 32) as Hp.
  { rewrite Z.div_div by lia. split; [apply Z.div_le_lower_bound; lia|apply Z.div_lt_upper_bound; lia]. }
  rewrite rem_ok by (rewrite uint32_id; lia). cbn [mbind option_bind]. exists d'. split; [done|].
  split; [done|]. intros k Hk Hkd.
  destruct (block_of_copy 64 d (index mod 2 ^ 26) (stored index) k) as (d2 & E2 & _ & H2); try lia.
  rewrite E in E2. injection E2 as <-. exact H2.
Qed.

(** What the writes of [order] leave. *)
Lemma write_items_ok order d :
  6400 <= zlen d < 2 ^ 38 → Forall (λ i, 0 <= i ∧ (i mod 2 ^ 26 + 1) * 64 <= zlen d) order →
  ∃ d', write_items Keccak512 little cache d order = Some d' ∧ length d' = length d ∧
    ∀ k, 0 <= k → (k + 1) * 64 <= zlen d →
      (∃ i, i ∈ order ∧ i mod 2 ^ 26 = k ∧ block_of 64 d' k = stored i) ∨
      (∀ i, i ∈ order → i mod 2 ^ 26 ≠ k) ∧ block_of 64 d' k = block_of 64 d k.
Proof.
  intros Hd Ho. induction order as [|i order IH] using rev_ind; unfold write_items.
  { exists d. split; [done|]. split; [done|]. intros k _ _. right. split; [set_solver|done]. }
  apply Forall_app in Ho as [Ho Hi]. rewrite Forall_singleton in Hi.
  destruct (IH Ho) as (d1 & E1 & Hl1 & H1). rewrite loop_on_app. unfold write_items in E1. rewrite E1.
  assert (zlen d1 = zlen d) as Hz by (unfold zlen; by rewrite Hl1).
  destruct (write_item_ok d1 i) as (d2 & E2 & Hl2 & H2); [lia|lia|lia|]. cbn. rewrite E2. cbn.
  exists d2. split; [done|]. split; [congruence|]. intros k Hk Hkd. rewrite H2 by lia.
  case_decide as Hik; [left; exists i; set_solver|].
  destruct (H1 k Hk Hkd) as [(i' & Hin & Hk' & Hb)|[Hno Hb]]; [left; exists i'; set_solver|].
  right. split; [|done]. intros i' [?|Hi']%elem_of_app; [by apply Hno|]. apply list_elem_of_singleton in Hi'. by subst.
Qed.

End Dataset.

(** ** The threads *)

(** The items of all threads. *)
Definition all_items (size threads : Z) : list Z := mjoin (thread_items size threads <$> upto 0 threads).

Lemma thread_items_ok size threads id :
  0 < threads <= 2 ^ 16 → 0 <= size < 2 ^ 37 → size mod 64 = 0 → 0 <= id < threads →
  let batch := (size + 64 * threads - 1) / (64 * threads) in
  thread_items size threads id = upto (id * batch) (Z.min (id * batch + batch) (size / 64)).
Proof.
  intros Ht Hs Hm Hid batch. unfold thread_items.
  pose proof (Z.div_mod size 64). set (rows := size / 64) in *.
  rewrite (uint64_id (64 * threads)), (uint64_id (size + _)), (uint64_id (size + _ - 1))
    by (unfold is_uint64; lia).
  fold batch. assert (0 <= batch <= rows / threads + 1) as Hb.
  { unfold batch. split; [apply Z.div_pos; lia|].
    replace (size + 64 * threads - 1) with (64 * rows - 1 + 1 * (64 * threads)) by lia.
    rewrite Z.div_add by lia. apply Z.add_le_mono_r. rewrite <-Z.div_div by lia.
    apply Z.div_le_mono; [lia|]. apply Z.div_le_upper_bound; lia. }
  assert (rows < 2 ^ 31) by lia. assert (threads * (rows / threads) <= rows) by (apply Z.mul_div_le; lia).
  assert (0 <= id * batch + batch < 2 ^ 32) as Hfit by nia.
  rewrite (uint32_id batch), (uint32_id id), (uint32_id (id * batch)), (uint32_id (_ + batch)), (uint32_id rows)
    by nia.
  rewrite Z.gtb_ltb. f_equal. zcases; lia.
Qed.

(** Every item is made, and nothing else. *)
Lemma elem_of_all_items size threads k :
  0 < threads <= 2 ^ 16 → 0 <= size < 2 ^ 37 → size mod 64 = 0 →
  k ∈ all_items size threads ↔ 0 <= k < size / 64.
Proof.
  intros Ht Hs Hm. unfold all_items. rewrite list_elem_of_join.
  set (batch := (size + 64 * threads - 1) / (64 * threads)).
  assert (size / 64 <= threads * batch) as Hcover.
  { pose proof (Z.div_mod size 64). pose proof (Z.div_mod (size + 64 * threads - 1) (64 * threads)) as Hd.
    pose proof (Z.mod_pos_bound (size + 64 * threads - 1) (64 * threads)). fold batch in Hd. nia. }
  split.
  - intros (l & Hk & (id & -> & Hid%elem_of_upto)%list_elem_of_fmap).
    rewrite thread_items_ok in Hk by done. apply elem_of_upto in Hk. fold batch in Hk.
    assert (0 <= batch) by (apply Z.div_pos; lia). nia.
  - intros Hk. assert (0 < batch) as Hb by nia. exists (thread_items size threads (k / batch)).
    assert (0 <= k / batch < threads) as Hid.
    { split; [apply Z.div_pos; lia|]. apply Z.div_lt_upper_bound; lia. }
    split; [|apply list_elem_of_fmap; exists (k / batch); split; [done|by apply elem_of_upto]].
    rewrite thread_items_ok by done. fold batch. apply elem_of_upto.
    pose proof (Z.div_mod k batch). pose proof (Z.mod_pos_bound k batch). nia.
Qed.

(** ** The sizes of the tables *)

(** Up to epoch 384 the dataset has at most 4 GiB. *)
Definition small_size (size : Z) : bool := (size mod 128 =? 0) && (6400 <=? size) && (size <=? 2 ^ 32).
Definition large_size (size : Z) : bool := (size mod 128 =? 0) && (2 ^ 32 <? size) && (size <? 2 ^ 37).

Lemma datasetSizes_sorted :
  length datasetSizes = 2048%nat ∧ forallb small_size (take 385 datasetSizes) = true ∧
  forallb large_size (drop 385 datasetSizes) = true.
Proof. by vm_compute. Qed.

Lemma forallb_lookup {A} (f : A → bool) l i x : forallb f l = true → l !! i = Some x → f x = true.
Proof.
  intros Hf Hi. rewrite forallb_forall in Hf. apply Hf, list_elem_of_In. by eapply list_elem_of_lookup_2.
Qed.

Lemma datasetSize_small ProbablyPrime fuel block size :
  0 <= block < 385 * 30000 → datasetSize ProbablyPrime fuel block = Some size →
  size mod 128 = 0 ∧ 6400 <= size <= 2 ^ 32.
Proof.
  intros Hb. unfold datasetSize. assert (0 <= block / 30000 < 385) as He.
  { split; [apply Z.div_pos; lia|apply Z.div_lt_upper_bound; lia]. }
  rewrite (proj2 (Z.ltb_lt _ _)) by lia. unfold at_. rewrite (proj2 (Z.ltb_ge _ 0)) by lia. intros E.
  destruct datasetSizes_sorted as (_ & Hs & _).
  apply (forallb_lookup _ _ (Z.to_nat (block / 30000)) size) in Hs; [|by rewrite lookup_take_lt by lia].
  unfold small_size in Hs. rewrite !andb_true_iff, Z.eqb_eq, !Z.leb_le in Hs. lia.
Qed.

Lemma datasetSize_large ProbablyPrime fuel block size :
  385 * 30000 <= block < 2048 * 30000 → datasetSize ProbablyPrime fuel block = Some size →
  size mod 128 = 0 ∧ 2 ^ 32 < size < 2 ^ 37.
Proof.
  intros Hb. unfold datasetSize. assert (385 <= block / 30000 < 2048) as He.
  { split; [apply Z.div_le_lower_bound; lia|apply Z.div_lt_upper_bound; lia]. }
  rewrite (proj2 (Z.ltb_lt _ _)) by lia. unfold at_. rewrite (proj2 (Z.ltb_ge _ 0)) by lia. intros E.
  destruct datasetSizes_sorted as (_ & _ & Hs).
  apply (forallb_lookup _ _ (Z.to_nat (block / 30000) - 385) size) in Hs.
  - unfold large_size in Hs. rewrite !andb_true_iff, Z.eqb_eq, !Z.ltb_lt in Hs. lia.
  - rewrite lookup_drop, <-E. f_equal. lia.
Qed.

(** ** Agreement *)

Lemma blocks_eq n b b' :
  0 < n → length b = length b' → zlen b mod n = 0 →
  (∀ k, 0 <= k → (k + 1) * n <= zlen b → block_of n b k = block_of n b' k) → b = b'.
Proof.
  intros Hn Hl Hm Hk. apply list_eq. intros i.
  destruct (decide (i < length b)%nat) as [Hi|Hi]; [|rewrite !lookup_ge_None_2 by lia; done].
  pose proof (Z.div_mod (Z.of_nat i) n). pose proof (Z.mod_pos_bound (Z.of_nat i) n).
  pose proof (Z.div_mod (zlen b) n). set (k := Z.of_nat i / n) in *. unfold zlen in *.
  assert (0 <= k) as Hk0 by (apply Z.div_pos; lia).
  assert (k < Z.of_nat (length b) / n) as Hkq by (apply (Z.mul_lt_mono_pos_l n); lia).
  assert ((k + 1) * n <= Z.of_nat (length b)) as Hkb by nia.
  specialize (Hk k Hk0 Hkb). unfold block_of in Hk.
  apply (f_equal (λ l, l !! Z.to_nat (Z.of_nat i mod n))) in Hk.
  rewrite !lookup_take_lt, !lookup_drop in Hk by lia.
  replace (Z.to_nat (k * n) + Z.to_nat (Z.of_nat i mod n))%nat with i in Hk by nia. done.
Qed.

Section Agree.
Context `{!Crypto} (Keccak512 : list byte → list byte) (HKeccak512 : ∀ l, length (Keccak512 l) = 64%nat).
Context (ProbablyPrime : Z → bool).

Lemma mod_128_64 size : size mod 128 = 0 → size mod 64 = 0.
Proof.
  intros Hm. rewrite (Z.div_mod size 128), Hm, Z.add_0_r by lia.
  replace (128 * (size / 128)) with (size / 128 * 2 * 64) by lia. apply Z.mod_mul. lia.
Qed.

(** The whole dataset in memory. *)
Lemma dataset_filled little cache threads dest order :
  cache_ok cache → 6400 <= zlen dest <= 2 ^ 32 → zlen dest mod 128 = 0 → 0 < threads <= 2 ^ 16 →
  order ≡ₚ all_items (zlen dest) threads →
  ∃ bytes, write_items Keccak512 little cache dest order = Some bytes ∧ length bytes = length dest ∧
    ∀ k, 0 <= k < zlen dest / 64 → block_of 64 bytes k = stored Keccak512 little cache k.
Proof.
  intros Hc Hs Hm Ht Ho. apply mod_128_64 in Hm. pose proof (Z.div_mod (zlen dest) 64).
  assert (∀ i, i ∈ order ↔ 0 <= i < zlen dest / 64) as Hin.
  { intros i. rewrite Ho. apply elem_of_all_items; [done|lia|done]. }
  destruct (write_items_ok Keccak512 little cache Hc order dest) as (bytes & E & Hl & Hb); [lia|..].
  { apply Forall_forall. intros i Hi%list_elem_of_In%Hin. rewrite Z.mod_small by lia. lia. }
  exists bytes. split; [done|]. split; [done|]. intros k Hk.
  destruct (Hb k) as [(i & Hi & Hik & Hblk)|[Hno _]]; [lia|lia|..].
  - apply Hin in Hi. rewrite Z.mod_small in Hik by lia. by subst.
  - destruct (Hno k); [by apply Hin|]. apply Z.mod_small. lia.
Qed.

(** What is looked up in the dataset is what the cache gives. *)
Lemma lookup_agree little cache bytes k :
  cache_ok cache → zlen bytes <= 2 ^ 32 → zlen bytes mod 64 = 0 → 0 <= k < zlen bytes / 64 →
  block_of 64 bytes k = stored Keccak512 little cache k →
  range_ (words little bytes) (uint32 (k * 16)) (uint32 (uint32 (k * 16) + 16)) =
    (rawData ← generateDatasetItem Keccak512 cache k; read_words rawData (zlen rawData / 4)).
Proof.
  intros Hc Hs Hm Hk Hblk. pose proof (Z.div_mod (zlen bytes) 64).
  assert (zlen (words little bytes) = zlen bytes / 4) as Hw.
  { unfold words, zlen. rewrite length_fmap, length_upto, Z.sub_0_r, Z2Nat.id; [done|]. apply Z.div_pos; lia. }
  assert (zlen bytes / 4 = 16 * (zlen bytes / 64)) as H4.
  { rewrite (Z.div_mod (zlen bytes) 64) at 1 by lia. rewrite Hm, Z.add_0_r.
    replace (64 * (zlen bytes / 64)) with (16 * (zlen bytes / 64) * 4) by lia. apply Z.div_mul. lia. }
  rewrite (uint32_id (k * 16)), uint32_id by lia. rewrite range_ok by lia.
  destruct (item_of_ok Keccak512 cache k Hc) as [-> Hl]. cbn [mbind option_bind].
  destruct (stored_ok Keccak512 little cache Hc k) as (_ & _ & Hst).
  rewrite read_words_ok by (unfold zlen; rewrite Hl; done).
  replace (zlen (item_of Keccak512 cache k) / 4) with 16 by (unfold zlen; by rewrite Hl).
  f_equal. apply list_eq. intros i. replace (k * 16 + 16 - k * 16) with 16 by lia.
  destruct (decide (i < 16)%nat) as [Hi|Hi].
  2: { rewrite !lookup_ge_None_2; rewrite ?length_fmap, ?length_upto, ?length_take; try done; lia. }
  rewrite lookup_take_lt, lookup_drop by lia. unfold words, upto. rewrite !list_lookup_fmap, !Z.sub_0_r.
  rewrite !lookup_seqZ_lt by lia. cbn [fmap option_fmap option_map]. f_equal.
  rewrite !Z.add_0_l. rewrite <-(Hst (Z.of_nat i)) by lia. rewrite <-Hblk, !word_block.
  rewrite block_of_block by lia. by rewrite Nat2Z.inj_add, Z2Nat.id by lia.
Qed.

(** C11: For every block of the first 385 epochs the dataset is made without a
    panic, and is the same whatever the number of threads and the order in which
    they write; the hash a miner computes over it is the one a verifier computes
    with the cache, on machines of either byte order. *)
Theorem hashimotoFull_light fuel little cache block threads dest hash nonce :
  cache_ok cache → 0 <= block < 385 * epochLength → 0 < threads <= 2 ^ 16 →
  datasetSize ProbablyPrime fuel block = Some (zlen dest) →
  ∃ bytes dataset digest result,
    generateDataset Keccak512 little threads cache dest = Some bytes ∧
    (∀ threads' order, 0 < threads' <= 2 ^ 16 → order ≡ₚ all_items (zlen dest) threads' →
       write_items Keccak512 little cache dest order = Some bytes) ∧
    machine_words little bytes = Some dataset ∧
    hashimotoFull Keccak512 dataset hash nonce = Some (digest, result) ∧
    hashimotoLight Keccak512 (zlen dest) cache hash nonce = Some (digest, result) ∧
    length digest = 32%nat.
Proof.
  intros Hc Hb Ht Hsize. apply datasetSize_small in Hsize as [Hm Hs]; [|done].
  destruct (dataset_filled little cache threads dest _ Hc Hs Hm Ht (reflexivity _)) as (bytes & E & Hl & Hblk).
  assert (zlen bytes = zlen dest) as Hz by (unfold zlen; by rewrite Hl).
  pose proof (mod_128_64 _ Hm) as Hm64. pose proof (Z.div_mod (zlen dest) 64). pose proof (Z.div_mod (zlen dest) 128).
  destruct (hashimoto_ok Keccak512 HKeccak512 hash nonce (zlen dest) (λ index,
    rawData ← generateDatasetItem Keccak512 cache index; read_words rawData (zlen rawData / 4)))
    as (digest & result & Eh & Hd); [lia|..].
  { intros i _. destruct (item_of_ok Keccak512 cache i Hc) as [-> Hi]. cbn [mbind option_bind].
    rewrite read_words_ok by (unfold zlen; rewrite Hi; done). eauto. }
  exists bytes, (words little bytes), digest, result. split; [exact E|]. split; [|split; [|split; [|done]]].
  - intros threads' order Ht' Ho.
    destruct (dataset_filled little cache threads' dest order Hc Hs Hm Ht' Ho) as (b2 & E2 & Hl2 & Hblk2).
    rewrite E2. f_equal. apply (blocks_eq 64); [lia|congruence|unfold zlen in *; by rewrite Hl2|].
    intros k Hk Hkb. replace (zlen b2) with (zlen dest) in Hkb by (unfold zlen; by rewrite Hl2).
    by rewrite Hblk, Hblk2 by lia.
  - apply machine_words_ok. rewrite Hz. apply Z.mod_divide; [lia|].
    apply Z.mod_divide in Hm64 as [q Hq]; [|lia]. exists (q * 16). lia.
  - rewrite <-Eh. unfold hashimotoFull.
    assert (zlen (words little bytes) = zlen dest / 4) as Hw.
    { unfold words, zlen. rewrite length_fmap, length_upto, Z.sub_0_r, Z2Nat.id; [by rewrite Hl|]. apply Z.div_pos; lia. }
    assert (uint64 (zlen (words little bytes) * 4) = zlen dest) as ->.
    { rewrite Hw. apply Z.mod_divide in Hm64 as [q Hq]; [|lia].
      replace (zlen dest) with (q * 16 * 4) at 1 by lia. rewrite Z.div_mul by lia.
      rewrite uint64_id by (unfold is_uint64; lia). lia. }
    apply hashimoto_ext; [lia|]. intros k Hk. unfold in_dataset in Hk.
    assert (0 <= k < zlen bytes / 64) as Hk64 by (rewrite Hz; lia).
    apply lookup_agree; [done|lia|by rewrite Hz|done|]. apply Hblk. lia.
Qed.

(** C39: From epoch 385 on (and below epoch 2048, with up to 2^16 threads), when
    the dataset has more than 4 GiB, no order of the threads fills it: the offset of an item wraps around in 32 bits, and
    everything above 4 GiB stays as it was. *)
Theorem generateDataset_unfilled fuel little cache block threads dest order :
  cache_ok cache → 385 * epochLength <= block < 2048 * epochLength → 0 < threads <= 2 ^ 16 →
  datasetSize ProbablyPrime fuel block = Some (zlen dest) → order ≡ₚ all_items (zlen dest) threads →
  2 ^ 26 < zlen dest / 64 ∧
  ∃ bytes, write_items Keccak512 little cache dest order = Some bytes ∧
    ∀ k, 2 ^ 26 <= k < zlen dest / 64 → block_of 64 bytes k = block_of 64 dest k.
Proof.
  intros Hc Hb Ht Hsize Ho. apply datasetSize_large in Hsize as [Hm Hs]; [|done].
  apply mod_128_64 in Hm. pose proof (Z.div_mod (zlen dest) 64). split; [lia|].
  destruct (write_items_ok Keccak512 little cache Hc order dest) as (bytes & E & _ & Hblk); [lia|..].
  { apply Forall_forall. intros i Hi%list_elem_of_In. rewrite Ho in Hi.
    apply elem_of_all_items in Hi; [|done|lia|done]. pose proof (Z.mod_pos_bound i (2 ^ 26)). lia. }
  exists bytes. split; [done|]. intros k Hk.
  destruct (Hblk k) as [(i & _ & Hi & _)|[_ ?]]; [lia|lia| |done].
  pose proof (Z.mod_pos_bound i (2 ^ 26)). lia.
Qed.

End Agree.

(** A hash of 64 bytes, one thread, and a dataset of zeros. *)
Lemma hashimotoFull_light_witness :
  let Keccak512 := λ l, be_bytes 64 (SetBytes l * 257 + 1) in
  let dest := zeros (Z.to_nat 1073739904) in
  ∃ bytes dataset digest result,
    generateDataset Keccak512 true 1 (replicate 16 7) dest = Some bytes ∧
    (∀ threads' order, 0 < threads' <= 2 ^ 16 → order ≡ₚ all_items (zlen dest) threads' →
       write_items Keccak512 true (replicate 16 7) dest order = Some bytes) ∧
    machine_words true bytes = Some dataset ∧
    @hashimotoFull sample_crypto Keccak512 dataset [] 5 = Some (digest, result) ∧
    @hashimotoLight sample_crypto Keccak512 (zlen dest) (replicate 16 7) [] 5 = Some (digest, result) ∧
    length digest = 32%nat.
Proof.
  intros Keccak512 dest.
  apply (@hashimotoFull_light sample_crypto Keccak512 (λ l, length_be_bytes 64 _) (λ _, false) 0 true (replicate 16 7) 0 1
    dest [] 5); [done|done|done|].
  unfold dest, zeros, zlen. rewrite length_replicate, Z2Nat.id by lia. reflexivity.
Defined.

Lemma generateDataset_unfilled_witness :
  let Keccak512 := λ l, be_bytes 64 (SetBytes l * 257 + 1) in
  let dest := zeros (Z.to_nat 4303349632) in
  2 ^ 26 < zlen dest / 64 ∧
  ∃ bytes, write_items Keccak512 true (replicate 16 7) dest (all_items (zlen dest) 1) = Some bytes ∧
    ∀ k, 2 ^ 26 <= k < zlen dest / 64 → block_of 64 bytes k = block_of 64 dest k.
Proof.
  intros Keccak512 dest.
  apply (generateDataset_unfilled Keccak512 (λ _, false) 0 true (replicate 16 7) 11550000 1 dest);
    [done|done|done| |reflexivity].
  unfold dest, zeros, zlen. rewrite length_replicate, Z2Nat.id by lia. reflexivity.
Defined.
