(* ===== verification/Yochash.v ===== *)
(** * The consensus rules: [consensus/yochash/consensus.go], [consensus/misc]

    The difficulty of a block, the checks of a header, of its seal and of the
    uncles of a block.  The chain, the clock and the caches of the proof of
    work are parameters. *)
From S2P Require Import Prelude BigMath Params OpCodes VmAnalysis VmMemory Rlp VmTypes VmLaws.
From S2P Require Import Chain BlockTypes PowSizes PowHash.

Inductive verify_error :=
  | ErrUnknownAncestor
  | ErrFutureBlock
  | ErrInvalidNumber
  | errExtraTooLong
  | errLargeBlockTime
  | errZeroBlockTime
  | errWrongDifficulty
  | errGasLimitCap
  | errGasUsed
  | errGasLimitBounds
  | errTooManyUncles
  | errDuplicateUncle
  | errUncleIsAncestor
  | errDanglingUncle
  | errInvalidDifficulty
  | errInvalidMixDigest
  | errInvalidPoW
  | ErrBadProDAOExtra
  | ErrBadNoDAOExtra
  | errForkHash.

Notation MaximumExtraDataSize := 32 (only parsing).
Notation GasLimitBoundDivisor := 1024 (only parsing).
Notation MinGasLimit := 5000 (only parsing).
Notation DifficultyBoundDivisor := 2048 (only parsing).
Notation MinimumDifficulty := 131072 (only parsing).
Notation DurationLimit := 13 (only parsing).
Notation DAOForkExtraRange := 10 (only parsing).
Notation expDiffPeriod := 100000 (only parsing).
Notation maxUncles := 2%nat (only parsing).
Notation allowedFutureBlockTime := 15 (only parsing).

(** The modes of the engine, and the engine it may share. *)
Inductive Mode := ModeNormal | ModeShared | ModeTest | ModeFake | ModeFullFake.
Inductive Engine := mkEngine { PowMode : Mode; fakeFail : Z; shared : option Engine }.

Section Yochash.
Context `{!Crypto}.

(** ** Difficulty *)

Definition calcDifficultyByzantium (time : Z) (parent : Header) : Z :=
  let x := bigDiv (time - Block.Time parent) 9 in
  let x := if Block.UncleHash parent =? EmptyUncleHash then 1 - x else 2 - x in
  let x := if x <? -99 then -99 else x in
  let y := bigDiv (Block.Difficulty parent) DifficultyBoundDivisor in
  let x := Block.Difficulty parent + y * x in
  let x := if x <? MinimumDifficulty then MinimumDifficulty else x in
  let fakeBlockNumber := if 2999999 <=? Block.Number parent then Block.Number parent - 2999999 else 0 in
  let periodCount := bigDiv fakeBlockNumber expDiffPeriod in
  if periodCount >? 1 then x + 2 ^ (periodCount - 2) else x.

Definition calcDifficultyHomestead (time : Z) (parent : Header) : Z :=
  let x := bigDiv (time - Block.Time parent) 10 in
  let x := 1 - x in
  let x := if x <? -99 then -99 else x in
  let y := bigDiv (Block.Difficulty parent) DifficultyBoundDivisor in
  let x := Block.Difficulty parent + y * x in
  let x := if x <? MinimumDifficulty then MinimumDifficulty else x in
  let periodCount := bigDiv (Block.Number parent + 1) expDiffPeriod in
  if periodCount >? 1 then x + 2 ^ (periodCount - 2) else x.

Definition calcDifficultyFrontier (time : Z) (parent : Header) : Z :=
  let adjust := bigDiv (Block.Difficulty parent) DifficultyBoundDivisor in
  let diff := if time - Block.Time parent <? DurationLimit then Block.Difficulty parent + adjust
              else Block.Difficulty parent - adjust in
  let diff := if diff <? MinimumDifficulty then MinimumDifficulty else diff in
  let periodCount := bigDiv (Block.Number parent + 1) expDiffPeriod in
  if periodCount >? 1 then BigMax (diff + 2 ^ (periodCount - 2)) MinimumDifficulty else diff.

Definition CalcDifficulty (config : ChainConfig) (time : Z) (parent : Header) : Z :=
  let next := Block.Number parent + 1 in
  if IsByzantium config next then calcDifficultyByzantium time parent
  else if IsHomestead config next then calcDifficultyHomestead time parent
  else calcDifficultyFrontier time parent.

(** ** Special fields *)

(** [params.DAOForkBlockExtra]: "dao-hard-fork" *)
Definition DAOForkBlockExtra : list byte :=
  zb <$> [0x64; 0x61; 0x6f; 0x2d; 0x68; 0x61; 0x72; 0x64; 0x2d; 0x66; 0x6f; 0x72; 0x6b].

Definition VerifyDAOHeaderExtraData (config : ChainConfig) (header : Header) : option verify_error :=
  match DAOForkBlock config with
  | None => None
  | Some fork =>
      let limit := fork + DAOForkExtraRange in
      if (Block.Number header <? fork) || (limit <=? Block.Number header) then None
      else if DAOForkSupport config then
        if bool_decide (Block.Extra header ≠ DAOForkBlockExtra) then Some ErrBadProDAOExtra else None
      else if bool_decide (Block.Extra header = DAOForkBlockExtra) then Some ErrBadNoDAOExtra else None
  end.

Definition VerifyForkHashes (config : ChainConfig) (header : Header) (uncle : bool) : option verify_error :=
  if uncle then None
  else
    match EIP150Block config with
    | Some b =>
        if (b =? Block.Number header) && negb (EIP150Hash config =? 0) &&
           negb (EIP150Hash config =? Header_Hash header) then Some errForkHash
        else None
    | None => None
    end.

(** ** Headers *)

Section Verify.
Context (Keccak512 : list byte → list byte) (ProbablyPrime : Z → bool) (prime_fuel : nat).
Context (cache : Z → list Z) (now : Z) (config : ChainConfig).

(** [None] is a panic, [Some None] no error. *)
Fixpoint VerifySeal (engine : Engine) (header : Header) : option (option verify_error) :=
  match PowMode engine with
  | ModeFake | ModeFullFake =>
      Some (if fakeFail engine =? Uint64 (Block.Number header) then Some errInvalidPoW else None)
  | mode =>
      match shared engine with
      | Some engine => VerifySeal engine header
      | None =>
          if Block.Difficulty header <=? 0 then Some (Some errInvalidDifficulty)
          else
            let number := Uint64 (Block.Number header) in
            size ← datasetSize ProbablyPrime prime_fuel number;
            let size := match mode with ModeTest => 32 * 1024 | _ => size end in
            '(digest, result) ← hashimotoLight Keccak512 size (cache number) (HashBytes (HashNoNonce header))
                                  (Block.Nonce header);
            Some (if negb (bool_decide (HashBytes (Block.MixDigest header) = digest)) then Some errInvalidMixDigest
                  else
                    let target := bigDiv (2 ^ 256) (Block.Difficulty header) in
                    if SetBytes result >? target then Some errInvalidPoW else None)
      end
  end.

Definition gas_limit_diff (parent header : Header) : Z :=
  let diff := int64 (int64 (Block.GasLimit parent) - int64 (Block.GasLimit header)) in
  uint64 (if diff <? 0 then int64 (diff * -1) else diff).

(** The checks before the seal. *)
Definition verify_fields (header parent : Header) (uncle : bool) : option verify_error :=
  if uint64 (zlen (Block.Extra header)) >? MaximumExtraDataSize then Some errExtraTooLong
  else if uncle && (Block.Time header >? 2 ^ 256 - 1) then Some errLargeBlockTime
  else if negb uncle && (Block.Time header >? now + allowedFutureBlockTime) then Some ErrFutureBlock
  else if Block.Time header <=? Block.Time parent then Some errZeroBlockTime
  else if negb (CalcDifficulty config (Uint64 (Block.Time header)) parent =? Block.Difficulty header)
  then Some errWrongDifficulty
  else if Block.GasLimit header >? 0x7fffffffffffffff then Some errGasLimitCap
  else if Block.GasUsed header >? Block.GasLimit header then Some errGasUsed
  else
    let limit := Block.GasLimit parent / GasLimitBoundDivisor in
    if (limit <=? gas_limit_diff parent header) || (Block.GasLimit header <? MinGasLimit)
    then Some errGasLimitBounds
    else if negb (Block.Number header - Block.Number parent =? 1) then Some ErrInvalidNumber
    else None.

Definition verifyHeader (engine : Engine) (header parent : Header) (uncle seal : bool) : option (option verify_error) :=
  match verify_fields header parent uncle with
  | Some err => Some (Some err)
  | None =>
      err ← (if seal then VerifySeal engine header else Some None);
      Some (match err with
            | Some err => Some err
            | None =>
                match VerifyDAOHeaderExtraData config header with
                | Some err => Some err
                | None => VerifyForkHashes config header uncle
                end
            end)
  end.

Context (GetHeader : Hash → Z → option Header).

Definition VerifyHeader (engine : Engine) (header : Header) (seal : bool) : option (option verify_error) :=
  match PowMode engine with
  | ModeFullFake => Some None
  | _ =>
      let number := Uint64 (Block.Number header) in
      match GetHeader (Header_Hash header) number with
      | Some _ => Some None
      | None =>
          match GetHeader (Block.ParentHash header) (uint64 (number - 1)) with
          | None => Some (Some ErrUnknownAncestor)
          | Some parent => verifyHeader engine header parent false seal
          end
      end
  end.

(** One of a batch of headers, each next to its parent. *)
Definition verifyHeaderWorker (engine : Engine) (headers : list Header) (seals : list bool) (index : nat)
    : option (option verify_error) :=
  header ← headers !! index;
  parent ← (match index with
            | O => Some (GetHeader (Block.ParentHash header) (uint64 (Uint64 (Block.Number header) - 1)))
            | S i => before ← headers !! i;
                     Some (if Header_Hash before =? Block.ParentHash header then Some before else None)
            end);
  match parent with
  | None => Some (Some ErrUnknownAncestor)
  | Some parent =>
      match GetHeader (Header_Hash header) (Uint64 (Block.Number header)) with
      | Some _ => Some None
      | None => seal ← seals !! index; verifyHeader engine header parent false seal
      end
  end.

(** The difficulty [Prepare] writes to a header. *)
Definition Prepare (header : Header) : Z + verify_error :=
  match GetHeader (Block.ParentHash header) (uint64 (Uint64 (Block.Number header) - 1)) with
  | None => inr ErrUnknownAncestor
  | Some parent => inl (CalcDifficulty config (Uint64 (Block.Time header)) parent)
  end.

(** ** Uncles *)

(** A block's header and uncles. *)
Context (GetBlock : Hash → Z → option (Header * list Header)).

(** The ancestors by their hash, and the uncles they have. *)
Fixpoint gather (n : nat) (parent : Hash) (number : Z) (ancestors : gmap Hash Header) (uncles : gset Hash)
    : gmap Hash Header * gset Hash :=
  match n with
  | O => (ancestors, uncles)
  | S n =>
      match GetBlock parent number with
      | None => (ancestors, uncles)
      | Some (h, us) =>
          gather n (Block.ParentHash h) (uint64 (number - 1)) (<[Header_Hash h := h]> ancestors)
            (foldl (λ s u, {[ Header_Hash u ]} ∪ s) uncles us)
      end
  end.

Fixpoint check_uncles (engine : Engine) (parentHash : Hash) (ancestors : gmap Hash Header) (uncles : gset Hash)
    (us : list Header) : option (option verify_error) :=
  match us with
  | [] => Some None
  | uncle :: us =>
      let hash := Header_Hash uncle in
      if bool_decide (hash ∈ uncles) then Some (Some errDuplicateUncle)
      else
        let uncles := {[ hash ]} ∪ uncles in
        match ancestors !! hash, ancestors !! Block.ParentHash uncle with
        | Some _, _ => Some (Some errUncleIsAncestor)
        | None, None => Some (Some errDanglingUncle)
        | None, Some parent =>
            if Block.ParentHash uncle =? parentHash then Some (Some errDanglingUncle)
            else
              err ← verifyHeader engine uncle parent true true;
              match err with
              | Some err => Some (Some err)
              | None => check_uncles engine parentHash ancestors uncles us
              end
        end
  end.

Definition VerifyUncles (engine : Engine) (header : Header) (us : list Header) : option (option verify_error) :=
  match PowMode engine with
  | ModeFullFake => Some None
  | _ =>
      if (maxUncles <? length us)%nat then Some (Some errTooManyUncles)
      else
        let '(ancestors, uncles) :=
          gather 7 (Block.ParentHash header) (uint64 (Uint64 (Block.Number header) - 1)) ∅ ∅ in
        check_uncles engine (Block.ParentHash header) (<[Header_Hash header := header]> ancestors)
          ({[ Header_Hash header ]} ∪ uncles) us
  end.

End Verify.
End Yochash.
