(* ===== verification/YochashTheorems.v ===== *)
(** * What the consensus rules accept

    Bounds of the difficulty, the headers that are accepted, and the uncles a
    block may have. *)
From S2P Require Import Prelude BigMath Params OpCodes VmAnalysis VmMemory Rlp VmTypes VmLaws VmSample.
From S2P Require Import Chain BlockTypes PowSizes PowHash Yochash.

Section Difficulty.
Context `{!Crypto}.

(** ** Difficulty *)

Definition clamp (x : Z) : Z := Z.max 131072 x.

(** The exponential part, by the count of periods. *)
Definition bomb (periods : Z) : Z := if periods >? 1 then 2 ^ (periods - 2) else 0.

Lemma bomb_nonneg p : 0 <= bomb p.
Proof. unfold bomb. case_match; [|lia]. apply Z.pow_nonneg. lia. Qed.

Lemma bigDiv_pos x y : 0 < y → bigDiv x y = x / y.
Proof. intros Hy. unfold bigDiv. rewrite Z.sgn_pos, Z.abs_eq by lia. lia. Qed.

Lemma floor_99 x : (if x <? -99 then -99 else x) = Z.max x (-99).
Proof. zcases; lia. Qed.

Lemma floor_min x : (if x <? 131072 then 131072 else x) = clamp x.
Proof. unfold clamp. zcases; lia. Qed.

Lemma add_bomb x p : (if p >? 1 then x + 2 ^ (p - 2) else x) = x + bomb p.
Proof. unfold bomb. case_match; lia. Qed.

(** Each of the three rules: the parent's difficulty, adjusted by a factor
    that does not grow with time, and the exponential part. *)
Lemma CalcDifficulty_shape config parent :
  0 <= Block.Difficulty parent →
  ∃ (k : Z → Z) (periods : Z), (∀ time, Block.Time parent < time → -99 <= k time <= 2) ∧
    (∀ t t', t <= t' → k t' <= k t) ∧ periods <= Z.max ((Block.Number parent + 1) / 100000) 0 ∧
    ∀ time, CalcDifficulty config time parent =
      clamp (Block.Difficulty parent + Block.Difficulty parent / 2048 * k time) + bomb periods.
Proof.
  intros Hd. set (pd := Block.Difficulty parent) in *. assert (0 <= pd / 2048) as Hd0 by (apply Z.div_pos; lia).
  unfold CalcDifficulty. destruct (IsByzantium _ _); [|destruct (IsHomestead _ _)].
  - set (u := if Block.UncleHash parent =? EmptyUncleHash then 1 else 2).
    exists (λ time, Z.max (u - (time - Block.Time parent) / 9) (-99)),
      ((if 2999999 <=? Block.Number parent then Block.Number parent - 2999999 else 0) / 100000).
    split; [|split; [|split]].
    + intros time Ht. assert (0 <= (time - Block.Time parent) / 9) by (apply Z.div_pos; lia).
      unfold u. case_match; lia.
    + intros t t' Ht. assert ((t - Block.Time parent) / 9 <= (t' - Block.Time parent) / 9)
        by (apply Z.div_le_mono; lia). lia.
    + destruct (Z.leb_spec 2999999 (Block.Number parent)); [|rewrite Z.div_0_l by lia; lia].
      assert ((Block.Number parent - 2999999) / 100000 <= (Block.Number parent + 1) / 100000)
        by (apply Z.div_le_mono; lia). lia.
    + intros time. unfold calcDifficultyByzantium. rewrite !bigDiv_pos, floor_99, floor_min, add_bomb by lia. fold pd.
      unfold u. by destruct (_ =? EmptyUncleHash).
  - exists (λ time, Z.max (1 - (time - Block.Time parent) / 10) (-99)), ((Block.Number parent + 1) / 100000).
    split; [|split; [|split]].
    + intros time Ht. assert (0 <= (time - Block.Time parent) / 10) by (apply Z.div_pos; lia). lia.
    + intros t t' Ht. assert ((t - Block.Time parent) / 10 <= (t' - Block.Time parent) / 10)
        by (apply Z.div_le_mono; lia). lia.
    + lia.
    + intros time. unfold calcDifficultyHomestead. rewrite !bigDiv_pos, floor_99, floor_min, add_bomb by lia. done.
  - exists (λ time, if time - Block.Time parent <? 13 then 1 else -1), ((Block.Number parent + 1) / 100000).
    split; [|split; [|split]].
    + intros time Ht. case_match; lia.
    + intros t t' Ht. zcases; lia.
    + lia.
    + intros time. unfold calcDifficultyFrontier, BigMax. rewrite !bigDiv_pos, floor_min by lia. fold pd.
      assert (0 <= 2 ^ ((Block.Number parent + 1) / 100000 - 2)) by (apply Z.pow_nonneg; lia).
      unfold clamp, bomb. destruct (time - Block.Time parent <? 13); zcases; repeat case_match; lia.
Qed.

(** C33: By each of the three rules a block's difficulty is at least 131072; it
    is at most two and at least minus 99 parts in 2048 from its parent's, but
    for the exponential part, which is nothing before block 200000; and a later
    time stamp never makes a block harder. *)
Theorem CalcDifficulty_bounds config time parent :
  0 <= Block.Difficulty parent → Block.Time parent < time →
  let pd := Block.Difficulty parent in
  let diff := CalcDifficulty config time parent in
  131072 <= diff ∧ pd - 99 * (pd / 2048) <= diff ∧
  (0 <= Block.Number parent < 199999 → diff <= Z.max 131072 (pd + 2 * (pd / 2048))) ∧
  ∀ time', time <= time' → CalcDifficulty config time' parent <= diff.
Proof.
  intros Hd Ht pd diff. destruct (CalcDifficulty_shape config parent Hd) as (k & p & Hk & Hmono & Hp & E).
  unfold diff. rewrite !E. fold pd. specialize (Hk time Ht). pose proof (bomb_nonneg p).
  assert (0 <= pd / 2048) by (apply Z.div_pos; lia). unfold clamp.
  split; [lia|]. split; [nia|]. split.
  - intros Hn. assert ((Block.Number parent + 1) / 100000 < 2) by (apply Z.div_lt_upper_bound; lia).
    unfold bomb. rewrite Z.gtb_ltb, (proj2 (Z.ltb_ge _ _)) by lia. nia.
  - intros time' Hle. rewrite E. fold pd. specialize (Hmono time time' Hle). unfold clamp. nia.
Qed.

(** ** Headers *)

Context (Keccak512 : list byte → list byte) (ProbablyPrime : Z → bool) (prime_fuel : nat).
Context (cache : Z → list Z) (now : Z) (config : ChainConfig).

Notation VerifySeal := (VerifySeal Keccak512 ProbablyPrime prime_fuel cache).
Notation verifyHeader := (verifyHeader Keccak512 ProbablyPrime prime_fuel cache now config).

(** The rules for a header on its parent. *)
Record header_valid (engine : Engine) (header parent : Header) (uncle seal : bool) : Prop := {
  hv_extra : zlen (Block.Extra header) <= 32;
  hv_time : Block.Time header <= if uncle then 2 ^ 256 - 1 else now + 15;
  hv_later : Block.Time parent < Block.Time header;
  hv_difficulty : Block.Difficulty header = CalcDifficulty config (Uint64 (Block.Time header)) parent;
  hv_cap : Block.GasLimit header < 2 ^ 63;
  hv_used : Block.GasUsed header <= Block.GasLimit header;
  hv_limit : Z.abs (Block.GasLimit parent - Block.GasLimit header) < Block.GasLimit parent / 1024;
  hv_min : 5000 <= Block.GasLimit header;
  hv_number : Block.Number header = Block.Number parent + 1;
  hv_seal : seal = true → VerifySeal engine header = Some None;
  hv_dao : VerifyDAOHeaderExtraData config header = None;
  hv_fork : VerifyForkHashes config header uncle = None
}.

Lemma gas_limit_diff_exact parent header :
  0 <= Block.GasLimit parent < 2 ^ 63 → 0 <= Block.GasLimit header < 2 ^ 63 →
  gas_limit_diff parent header = Z.abs (Block.GasLimit parent - Block.GasLimit header).
Proof.
  intros Hp Hh. unfold gas_limit_diff. rewrite (int64_id (Block.GasLimit parent)), (int64_id (Block.GasLimit header)) by lia.
  rewrite (int64_id (_ - _)) by lia. destruct (Z.ltb_spec (Block.GasLimit parent - Block.GasLimit header) 0).
  - rewrite int64_id, uint64_id by (unfold is_uint64; lia). lia.
  - rewrite uint64_id by (unfold is_uint64; lia). lia.
Qed.

(** The fields that are checked without the seal. *)
Lemma verify_fields_ok header parent uncle :
  zlen (Block.Extra header) < 2 ^ 63 → 0 <= Block.GasLimit parent < 2 ^ 63 → 0 <= Block.GasLimit header →
  verify_fields now config header parent uncle = None ↔
  zlen (Block.Extra header) <= 32 ∧ Block.Time header <= (if uncle then 2 ^ 256 - 1 else now + 15) ∧
  Block.Time parent < Block.Time header ∧
  Block.Difficulty header = CalcDifficulty config (Uint64 (Block.Time header)) parent ∧
  Block.GasLimit header < 2 ^ 63 ∧ Block.GasUsed header <= Block.GasLimit header ∧
  Z.abs (Block.GasLimit parent - Block.GasLimit header) < Block.GasLimit parent / 1024 ∧
  5000 <= Block.GasLimit header ∧ Block.Number header = Block.Number parent + 1.
Proof.
  intros Hx Hp Hh. unfold verify_fields. pose proof (zlen_nonneg (Block.Extra header)).
  rewrite uint64_id by (unfold is_uint64; lia). set (d := CalcDifficulty _ _ _).
  destruct (Z.gtb_spec (zlen (Block.Extra header)) 32); [split; [done|lia]|].
  assert (∀ b : bool, (if uncle && (Block.Time header >? 2 ^ 256 - 1) then Some errLargeBlockTime
    else if negb uncle && (Block.Time header >? now + 15) then Some ErrFutureBlock
    else if b then Some errZeroBlockTime else None) = None ↔
    Block.Time header <= (if uncle then 2 ^ 256 - 1 else now + 15) ∧ b = false) as Htime.
  { intros b. destruct uncle; cbn [andb negb];
      [destruct (Z.gtb_spec (Block.Time header) (2 ^ 256 - 1))|destruct (Z.gtb_spec (Block.Time header) (now + 15))];
      destruct b; split; intros; try done; lia. }
  destruct (uncle && _) eqn:E1; [split; [done|]; intros; specialize (Htime false); cbn in Htime; destruct Htime as [_ Hc]; naive_solver|].
  destruct (negb uncle && _) eqn:E2; [split; [done|]; intros; specialize (Htime false); cbn in Htime; naive_solver|].
  destruct (Z.leb_spec (Block.Time header) (Block.Time parent)); [split; [done|lia]|].
  specialize (Htime false). destruct Htime as [Ht _]. specialize (Ht eq_refl) as [Ht _].
  destruct (Z.eqb_spec d (Block.Difficulty header)); cbn [negb]; [|split; [done|]; intros; naive_solver].
  destruct (Z.gtb_spec (Block.GasLimit header) 0x7fffffffffffffff); [split; [done|lia]|].
  destruct (Z.gtb_spec (Block.GasUsed header) (Block.GasLimit header)); [split; [done|lia]|].
  rewrite gas_limit_diff_exact by lia.
  destruct (Z.leb_spec (Block.GasLimit parent / 1024) (Z.abs (Block.GasLimit parent - Block.GasLimit header)));
    cbn [orb]; [split; [done|lia]|].
  destruct (Z.ltb_spec (Block.GasLimit header) 5000); [split; [done|lia]|].
  destruct (Z.eqb_spec (Block.Number header - Block.Number parent) 1); cbn [negb]; [|split; [done|lia]].
  split; [intros _|done]. by repeat split; try lia.
Qed.

Lemma verifyHeader_valid engine header parent uncle seal :
  zlen (Block.Extra header) < 2 ^ 63 → 0 <= Block.GasLimit parent < 2 ^ 63 → 0 <= Block.GasLimit header →
  verifyHeader engine header parent uncle seal = Some None ↔ header_valid engine header parent uncle seal.
Proof.
  intros Hx Hp Hh. pose proof (verify_fields_ok header parent uncle Hx Hp Hh) as Hf. unfold Yochash.verifyHeader.
  destruct (verify_fields _ _ _ _ _) as [err|].
  { split; [done|]. intros []. destruct Hf as [_ Hf]. discriminate Hf. done. }
  destruct Hf as [Hf _]. specialize (Hf eq_refl). destr_ands. split.
  - intros E. destruct seal.
    + destruct (VerifySeal engine header) as [[err|]|] eqn:Es; try done. cbn in E.
      destruct (VerifyDAOHeaderExtraData _ _) eqn:Ed; [done|]. by split; try congruence.
    + cbn in E. destruct (VerifyDAOHeaderExtraData _ _) eqn:Ed; [done|]. by split; try congruence.
  - intros [? ? ? ? ? ? ? ? ? Hs Hd Hfork]. destruct seal; [rewrite Hs by done|]; cbn; by rewrite Hd, Hfork.
Qed.

(** C32: A header is accepted on its parent exactly if it meets all of these rules
    ([header_valid]): at most 32 bytes of extra data; a time after its parent's, and
    at most 15 seconds ahead of the clock (below 2^256 for an uncle); the
    difficulty that [CalcDifficulty] computes; a gas limit below 2^63, of at least
    5000, and less than a 1024th of its parent's away from its parent's, with no
    overflow in the comparison; no more gas used than the limit; the next number;
    where asked for, a seal that [VerifySeal] accepts; the extra data that the DAO
    fork requires or forbids; and the fork hash the configuration fixes
    ([VerifyForkHashes]).  The parent's gas limit is taken to be below 2^63, as
    this rule itself ensures for a parent that has been accepted; the gas limits
    are not negative, and the extra data is shorter than 2^63 bytes. *)
Theorem verifyHeader_exact engine header parent uncle seal :
  zlen (Block.Extra header) < 2 ^ 63 → 0 <= Block.GasLimit parent < 2 ^ 63 → 0 <= Block.GasLimit header →
  verifyHeader engine header parent uncle seal = Some None ↔ header_valid engine header parent uncle seal.
Proof. apply verifyHeader_valid. Qed.

(** ** Uncles *)

Context (GetBlock : Hash → Z → option (Header * list Header)).

Notation gather := (gather GetBlock).
Notation check_uncles := (check_uncles Keccak512 ProbablyPrime prime_fuel cache now config).
Notation VerifyUncles := (VerifyUncles Keccak512 ProbablyPrime prime_fuel cache now config GetBlock).

(** The blocks the walk over the ancestors visits. *)
Fixpoint recent (n : nat) (parent : Hash) (number : Z) : list (Header * list Header) :=
  match n with
  | O => []
  | S n => match GetBlock parent number with
           | None => []
           | Some b => b :: recent n (Block.ParentHash b.1) (uint64 (number - 1))
           end
  end.

Lemma foldl_hashes us (s : gset Hash) : foldl (λ s u, {[ Header_Hash u ]} ∪ s) s us = list_to_set (Header_Hash <$> us) ∪ s.
Proof. revert s. induction us as [|u us IH]; intros s; cbn; [set_solver|]. rewrite IH. set_solver. Qed.

(** The block and its recent ancestors, the farthest ancestor first, and the first
    of these with a given hash. *)
Definition family (header : Header) (blocks : list (Header * list Header)) : list Header :=
  header :: reverse (fst <$> blocks).
Definition find_hash (h : Hash) (l : list Header) : option Header := List.find (λ a, Header_Hash a =? h) l.

Lemma find_hash_app h l k :
  find_hash h (l ++ k) = match find_hash h l with Some a => Some a | None => find_hash h k end.
Proof. induction l as [|a l IH]; cbn; [done|]. destruct (_ =? _); [done|exact IH]. Qed.

(** The walk collects the uncles of the recent blocks. *)
Lemma gather_uncles n parent number anc unc :
  (gather n parent number anc unc).2 = list_to_set (b ← recent n parent number; Header_Hash <$> b.2) ∪ unc.
Proof.
  revert parent number anc unc. induction n as [|n IH]; intros parent number anc unc; cbn; [set_solver|].
  destruct (GetBlock parent number) as [[b us]|]; cbn; [|set_solver].
  rewrite IH, foldl_hashes, list_to_set_app_L. set_solver.
Qed.

(** It collects the recent blocks under their hashes; the last of them that has a
    hash is the one kept under it. *)
Lemma gather_ancestors n parent number anc unc h :
  (gather n parent number anc unc).1 !! h =
  match find_hash h (reverse (fst <$> recent n parent number)) with Some a => Some a | None => anc !! h end.
Proof.
  revert parent number anc unc. induction n as [|n IH]; intros parent number anc unc; cbn [Yochash.gather recent]; [done|].
  destruct (GetBlock parent number) as [[b us]|]; [|done]. cbn [fmap list_fmap fst].
  rewrite IH, reverse_cons, find_hash_app. destruct (find_hash h (reverse _)) as [a|]; [done|]. cbn.
  destruct (Z.eqb_spec (Header_Hash b) h) as [<-|Hne]; [by rewrite lookup_insert_eq|by rewrite lookup_insert_ne].
Qed.

Lemma VerifyUncles_ancestors header parent number unc h :
  (<[Header_Hash header := header]> (gather 7 parent number ∅ unc).1) !! h =
  find_hash h (family header (recent 7 parent number)).
Proof.
  unfold family. cbn [find_hash List.find].
  destruct (Z.eqb_spec (Header_Hash header) h) as [<-|Hne]; [by rewrite lookup_insert_eq|].
  rewrite lookup_insert_ne, gather_ancestors, lookup_empty by done. unfold find_hash. by destruct (List.find _ _).
Qed.

(** What an uncle must be, given the block and its recent ancestors. *)
Record uncle_valid (engine : Engine) (header : Header) (blocks : list (Header * list Header)) (uncle : Header)
    : Prop := {
  uv_new : Header_Hash uncle ∉ Header_Hash <$> family header blocks;
  uv_cousin : Block.ParentHash uncle ≠ Block.ParentHash header;
  uv_parent : ∃ parent, find_hash (Block.ParentHash uncle) (family header blocks) = Some parent ∧
                        verifyHeader engine uncle parent true true = Some None
}.

Lemma find_hash_None h l : find_hash h l = None ↔ h ∉ Header_Hash <$> l.
Proof.
  induction l as [|a l IH]; [split; [intros _; apply not_elem_of_nil|done]|].
  cbn [find_hash List.find fmap list_fmap]. rewrite not_elem_of_cons. fold (find_hash h l).
  destruct (Z.eqb_spec (Header_Hash a) h) as [->|Hne]; [split; [done|by intros []]|]. rewrite IH. naive_solver.
Qed.

Lemma check_uncles_ok engine header blocks ancestors uncles us :
  (∀ h, ancestors !! h = find_hash h (family header blocks)) →
  check_uncles engine (Block.ParentHash header) ancestors uncles us = Some None ↔
  NoDup (Header_Hash <$> us) ∧ Forall (λ u, Header_Hash u ∉ uncles) us ∧
  Forall (uncle_valid engine header blocks) us.
Proof.
  intros Hanc. revert uncles. induction us as [|u us IH]; intros uncles; cbn [Yochash.check_uncles fmap list_fmap].
  { split; [|done]. intros _. split; [constructor|done]. }
  rewrite list.NoDup_cons, !Forall_cons_iff. case_bool_decide as Hin; [split; [done|naive_solver]|].
  rewrite !Hanc. pose proof (find_hash_None (Header_Hash u) (family header blocks)) as Hnone.
  destruct (find_hash (Header_Hash u) _) as [a|] eqn:Ea.
  { split; [done|]. intros (_ & _ & [Hn _ _] & _). apply Hnone in Hn. done. }
  destruct (find_hash (Block.ParentHash u) _) as [p|] eqn:Ep.
  2: { split; [done|]. intros (_ & _ & [? ? (q & ? & ?)] & _). congruence. }
  destruct (Z.eqb_spec (Block.ParentHash u) (Block.ParentHash header)); [split; [done|]; by intros (_ & _ & [] & _)|].
  destruct (verifyHeader engine u p true true) as [[err|]|] eqn:Ev; cbn [mbind option_bind].
  - split; [done|]. intros (_ & _ & [? ? (q & ? & ?)] & _). congruence.
  - rewrite IH. assert (uncle_valid engine header blocks u) as Hu by (split; [by apply Hnone|done|eauto]).
    assert (Forall (λ x, Header_Hash x ∉ {[ Header_Hash u ]} ∪ uncles) us ↔
            Header_Hash u ∉ (Header_Hash <$> us) ∧ Forall (λ x, Header_Hash x ∉ uncles) us) as ->.
    { rewrite !Forall_forall. setoid_rewrite <-list_elem_of_In. rewrite list_elem_of_fmap. set_solver. }
    naive_solver.
  - split; [done|]. intros (_ & _ & [? ? (q & ? & ?)] & _). congruence.
Qed.

(** C31: The uncles of a block are accepted exactly if the engine is the one that
    accepts everything (ModeFullFake), or there are at most two, they have distinct
    hashes, none has the hash of the block, of one of its seven nearest known
    ancestors or of an uncle of one of these ancestors, none has the parent of the
    block as its parent, and each names as its parent the block itself or one of the
    seven ancestors (should two of them have one hash, the block and then the
    farthest counts), on which it is accepted as an uncle with a seal. *)
Theorem VerifyUncles_exact engine header us :
  let blocks := recent 7 (Block.ParentHash header) (uint64 (Uint64 (Block.Number header) - 1)) in
  VerifyUncles engine header us = Some None ↔
  PowMode engine = ModeFullFake ∨
  (length us <= 2)%nat ∧ NoDup (Header_Hash <$> us) ∧
  Forall (λ u, Header_Hash u ∉ (b ← blocks; Header_Hash <$> b.2)) us ∧
  Forall (uncle_valid engine header blocks) us.
Proof.
  intros blocks. assert (PowMode engine = ModeFullFake ∨ PowMode engine ≠ ModeFullFake) as [Hm|Hm]
    by (destruct (PowMode engine); auto).
  { unfold Yochash.VerifyUncles. rewrite Hm. tauto. }
  pose proof (gather_uncles 7 (Block.ParentHash header) (uint64 (Uint64 (Block.Number header) - 1)) ∅ ∅) as Hu.
  pose proof (VerifyUncles_ancestors header (Block.ParentHash header)
    (uint64 (Uint64 (Block.Number header) - 1)) ∅) as Ha. fold blocks in Hu, Ha.
  assert (VerifyUncles engine header us = if (2 <? length us)%nat then Some (Some errTooManyUncles)
    else check_uncles engine (Block.ParentHash header) (<[Header_Hash header := header]>
           (gather 7 (Block.ParentHash header) (uint64 (Uint64 (Block.Number header) - 1)) ∅ ∅).1)
           ({[ Header_Hash header ]} ∪ (list_to_set (b ← blocks; Header_Hash <$> b.2) ∪ ∅)) us) as ->.
  { rewrite <-Hu. unfold Yochash.VerifyUncles. destruct (gather _ _ _ _) as [anc unc]. by destruct (PowMode engine). }
  destruct (Nat.ltb_spec 2 (length us)); [split; [done|]; intros [?|[? _]]; [done|lia]|].
  rewrite (check_uncles_ok _ _ _ _ _ _ Ha). split.
  - intros (Hd & Hn & Hv). right. repeat split; try done. eapply list.Forall_impl; [exact Hn|]. cbn. set_solver.
  - intros [?|(_ & Hd & Hn & Hv)]; [done|]. repeat split; try done.
    rewrite Forall_forall in *. intros u Hin. specialize (Hn u Hin). destruct (Hv u Hin) as [Hnew _ _].
    cbn [family fmap list_fmap] in Hnew. set_solver.
Qed.

End Difficulty.

(** ** Concrete headers *)

#[local] Existing Instance sample_crypto.

Definition sample_header (parent : Hash) (n difficulty : Z) : Header :=
  {| Block.ParentHash := parent; Block.UncleHash := EmptyUncleHash; Block.Coinbase := 7; Block.Root := 0;
     Block.TxHash := 0; Block.ReceiptHash := 0; Block.Bloom := 0; Block.Difficulty := difficulty;
     Block.Number := n; Block.GasLimit := 8000000; Block.GasUsed := 0; Block.Time := 10 * n;
     Block.Extra := []; Block.MixDigest := 0; Block.Nonce := 0 |}.

Lemma CalcDifficulty_bounds_witness :
  let diff := CalcDifficulty MainnetChainConfig 60 (sample_header 0 5 500000) in
  131072 <= diff ∧ 500000 - 99 * (500000 / 2048) <= diff ∧
  (0 <= 5 < 199999 → diff <= Z.max 131072 (500000 + 2 * (500000 / 2048))) ∧
  ∀ time', 60 <= time' → CalcDifficulty MainnetChainConfig time' (sample_header 0 5 500000) <= diff.
Proof. apply (CalcDifficulty_bounds MainnetChainConfig 60 (sample_header 0 5 500000)); by vm_compute. Defined.

Definition fake_engine : Engine := mkEngine ModeFake 0 None.

Lemma verifyHeader_exact_witness :
  let verify := verifyHeader (λ l, l) (λ _, true) 1 (λ _, []) 1000 MainnetChainConfig in
  verify fake_engine (sample_header 1 6 500000) (sample_header 0 5 500000) false true = Some None ↔
  header_valid (λ l, l) (λ _, true) 1 (λ _, []) 1000 MainnetChainConfig fake_engine
    (sample_header 1 6 500000) (sample_header 0 5 500000) false true.
Proof.
  apply (verifyHeader_exact (λ l, l) (λ _, true) 1 (λ _, []) 1000 MainnetChainConfig fake_engine
    (sample_header 1 6 500000) (sample_header 0 5 500000) false true); by vm_compute.
Defined.

(** The header is in fact accepted. *)
Example verifyHeader_accepts :
  verifyHeader (λ l, l) (λ _, true) 1 (λ _, []) 1000 MainnetChainConfig fake_engine
    (sample_header 1 6 500000) (sample_header 0 5 500000) false true = Some None.
Proof. by vm_compute. Qed.

(** A chain 4, 5, 6 and a block 5' on 4: it is accepted as an uncle of 6. *)
Definition with_nonce (nonce : Z) (h : Header) : Header :=
  {| Block.ParentHash := Block.ParentHash h; Block.UncleHash := Block.UncleHash h; Block.Coinbase := Block.Coinbase h;
     Block.Root := Block.Root h; Block.TxHash := Block.TxHash h; Block.ReceiptHash := Block.ReceiptHash h;
     Block.Bloom := Block.Bloom h; Block.Difficulty := Block.Difficulty h; Block.Number := Block.Number h;
     Block.GasLimit := Block.GasLimit h; Block.GasUsed := Block.GasUsed h; Block.Time := Block.Time h;
     Block.Extra := Block.Extra h; Block.MixDigest := Block.MixDigest h; Block.Nonce := nonce |}.
Definition block4 : Header := with_nonce 4 (sample_header 0 4 500000).
Definition block5 : Header := with_nonce 5 (sample_header (Header_Hash block4) 5 500000).
Definition block6 : Header := with_nonce 6 (sample_header (Header_Hash block5) 6 500000).
Definition uncle5 : Header := with_nonce 7 (sample_header (Header_Hash block4) 5 500000).
Definition chain_GetBlock (h n : Z) : option (Header * list Header) :=
  if h =? Header_Hash block5 then Some (block5, []) else if h =? Header_Hash block4 then Some (block4, []) else None.

Lemma VerifyUncles_exact_witness :
  recent chain_GetBlock 7 (Header_Hash block5) 5 = [(block5, []); (block4, [])] ∧
  VerifyUncles (λ l, l) (λ _, true) 1 (λ _, []) 1000 MainnetChainConfig chain_GetBlock fake_engine block6 [uncle5] =
  Some None.
Proof.
  assert (recent chain_GetBlock 7 (Header_Hash block5) 5 = [(block5, []); (block4, [])]) as Hr by by vm_compute.
  split; [exact Hr|].
  apply (VerifyUncles_exact (λ l, l) (λ _, true) 1 (λ _, []) 1000 MainnetChainConfig chain_GetBlock
    fake_engine block6 [uncle5]).
  change (recent _ 7 _ _) with (recent chain_GetBlock 7 (Header_Hash block5) 5). rewrite Hr. right.
  split; [cbn; lia|]. split; [apply NoDup_singleton|].
  split; (constructor; [|constructor]); [by apply not_elem_of_nil|]. split.
  - change (family block6 _) with [block6; block4; block5]. apply (bool_decide_unpack _). by vm_compute.
  - by vm_compute.
  - exists block4. split; by vm_compute.
Defined.
