(* ===== verification/Rewards.v ===== *)
(** * Block rewards: [consensus/yochash/consensus.go]

    The rewards are package variables; a block of the special miner writes to
    them.  The process environment is a parameter, as in [Nov2019]. *)
From S2P Require Import Prelude BigMath Params OpCodes VmAnalysis VmMemory Rlp VmTypes VmLaws VmSample.
From S2P Require Import Nov2019 StateDb StateObs StateInv StateOps StateOk.
From S2P Require Import Chain BlockTypes.
Import State.

Section Rewards.
Context `{!Crypto} `{!Database} `{!MapOrder} (Getenv : str → str).

(** The two variables, the manager of the migration and the state. *)
Record Rewards := {
  FrontierBlockReward : Z;
  ByzantiumBlockReward : Z;
  rw_mgr : Nov;
  rw_state : stateDB
}.

Notation RM := (M Rewards).

Definition with_reward (byzantium : bool) (v : Z) (w : Rewards) : Rewards :=
  {| FrontierBlockReward := if byzantium then FrontierBlockReward w else v;
     ByzantiumBlockReward := if byzantium then v else ByzantiumBlockReward w;
     rw_mgr := rw_mgr w; rw_state := rw_state w |}.
Definition with_mgr (m : Nov) (w : Rewards) : Rewards :=
  {| FrontierBlockReward := FrontierBlockReward w; ByzantiumBlockReward := ByzantiumBlockReward w;
     rw_mgr := m; rw_state := rw_state w |}.
Definition with_rw_state (s : stateDB) (w : Rewards) : Rewards :=
  {| FrontierBlockReward := FrontierBlockReward w; ByzantiumBlockReward := ByzantiumBlockReward w;
     rw_mgr := rw_mgr w; rw_state := s |}.

Definition on_rw {A} (m : M stateDB A) : RM A := zoom rw_state with_rw_state m.

(** The variable [blockReward] points to. *)
Definition blockReward (byzantium : bool) (w : Rewards) : Z :=
  if byzantium then ByzantiumBlockReward w else FrontierBlockReward w.

Definition MakeSuicideChange (addr : Address) (prev : bool) (prevBalance : Z) : journalEntry :=
  suicideChange addr prev prevBalance.

(** The block of the special miner: [blockReward.Set] writes the variable. *)
Definition reward_1810 (byzantium : bool) (header : Header) : RM () :=
  mgr ← gets rw_mgr;
  if negb (Is1810 Getenv mgr (Block.Coinbase header)) then mret ()
  else if negb (IfOnSuitableHeight Getenv mgr (Int64 (Block.Number header)) 0) then mret ()
  else
    let '(newBlockReward, cb1Shot) := Get1810 Getenv mgr in
    _ ← modify (with_reward byzantium newBlockReward);
    let confirm : RM () := if (cb1Shot : bool) then modify (λ w, with_mgr (oneShotDone (rw_mgr w)) w) else mret () in
    if Int64 newBlockReward <? 0 then
      suicided ← on_rw (HasSuicided (Block.Coinbase header));
      if negb suicided then
        prev ← on_rw (HasSuicided (Block.Coinbase header));
        balance ← on_rw (GetBalance (Block.Coinbase header));
        on_rw (journal_append (MakeSuicideChange (Block.Coinbase header) prev balance))
      else
        suicided ← on_rw (HasSuicided (Block.Coinbase header));
        confirm
    else confirm.

Definition uncle_reward (reward : Z) (header uncle : Header) : Z :=
  bigDiv ((Block.Number uncle + 8 - Block.Number header) * reward) 8.

(** The loop over the uncles; [reward] is what the miner gets so far. *)
Fixpoint reward_uncles (block reward : Z) (header : Header) (uncles : list Header) : M stateDB Z :=
  match uncles with
  | [] => mret reward
  | uncle :: uncles =>
      _ ← AddBalance Getenv (Block.Coinbase uncle) (uncle_reward block header uncle) (Block.Number header);
      reward_uncles block (reward + bigDiv block 32) header uncles
  end.

Definition accumulateRewards (config : ChainConfig) (header : Header) (uncles : list Header) : RM () :=
  let byzantium := IsByzantium config (Block.Number header) in
  _ ← reward_1810 byzantium header;
  block ← gets (blockReward byzantium);
  on_rw (
    reward ← reward_uncles block block header uncles;
    AddBalance Getenv (Block.Coinbase header) reward (Block.Number header)).

(** [Finalize]: the rewards, and the root that goes into the header. *)
Definition Finalize_root (config : ChainConfig) (header : Header) (uncles : list Header) : RM Hash :=
  _ ← accumulateRewards config header uncles;
  on_rw (IntermediateRoot (IsEIP158 config (Block.Number header))).

(** ** What is paid *)

Context `{!DatabaseLaws}.

(** What account [a] gets for the uncles of a block. *)
Definition uncles_paid (a : Address) (block : Z) (header : Header) (uncles : list Header) : Z :=
  foldr (λ u acc, (if decide (Block.Coinbase u = a)
                   then credit Getenv a (uncle_reward block header u) (Block.Number header) else 0) + acc) 0 uncles.

Lemma reward_uncles_goes block reward header uncles s :
  state_inv s → 0 <= block → Forall (λ u, Block.Number header - 8 <= Block.Number u) uncles →
  goes (reward_uncles block reward header uncles) s (λ r s',
    r = reward + zlen uncles * (block / 32) ∧
    ∀ a, v_balance (state_view s') a = v_balance (state_view s) a + uncles_paid a block header uncles).
Proof.
  intros Hi Hb Hu. revert reward s Hi. induction Hu as [|u us Hn _ IH]; intros reward s Hi; cbn [reward_uncles].
  { apply goes_ret; [done|]. split; [unfold zlen; cbn; lia|]. intros a. cbn. lia. }
  assert (0 <= uncle_reward block header u) as Hr.
  { unfold uncle_reward, bigDiv. change (Z.sgn 8) with 1. change (Z.abs 8) with 8.
    assert (0 <= (Block.Number u + 8 - Block.Number header) * block / 8) by (apply Z.div_pos; nia). lia. }
  eapply goes_bind; [by apply AddBalance_goes|]. intros [] s1 Hi1 [Hc _].
  eapply goes_mono; [by apply IH|]. intros r s2 Hi2 [-> Hbal]. split.
  - unfold bigDiv, zlen. change (Z.sgn 32) with 1. change (Z.abs 32) with 32. cbn [length]. lia.
  - intros a. rewrite Hbal, Hc. cbn [uncles_paid foldr]. unfold uncles_paid. case_decide as Ha; [subst a|]; lia.
Qed.

(** What everybody gets for an ordinary block. *)
Definition block_paid (a : Address) (block : Z) (header : Header) (uncles : list Header) : Z :=
  uncles_paid a block header uncles +
  if decide (Block.Coinbase header = a)
  then credit Getenv a (block + zlen uncles * (block / 32)) (Block.Number header) else 0.

(** What is paid once the special miner's case has been dealt with. *)
Lemma accumulateRewards_after config header uncles w w1 :
  reward_1810 (IsByzantium config (Block.Number header)) header w = Done () w1 → state_inv (rw_state w1) →
  let block := blockReward (IsByzantium config (Block.Number header)) w1 in
  0 <= block → Forall (λ u, Block.Number header - 8 <= Block.Number u) uncles →
  ∃ s', accumulateRewards config header uncles w = Done () (with_rw_state s' w1) ∧ state_inv s' ∧
    ∀ a, v_balance (state_view s') a = v_balance (state_view (rw_state w1)) a + block_paid a block header uncles.
Proof.
  intros E1 Hi block Hb Hu.
  assert (goes (reward ← reward_uncles block block header uncles;
                AddBalance Getenv (Block.Coinbase header) reward (Block.Number header)) (rw_state w1)
    (λ _ s', ∀ a, v_balance (state_view s') a =
       v_balance (state_view (rw_state w1)) a + block_paid a block header uncles)) as ([] & s' & E & Hi' & _ & Hbal).
  { eapply goes_bind; [by apply reward_uncles_goes|]. intros r s1 Hi1 [-> Hb1].
    eapply goes_mono; [apply AddBalance_goes; [done|]|].
    - assert (0 <= block / 32) by (apply Z.div_pos; lia). pose proof (zlen_nonneg uncles). nia.
    - intros [] s2 _ [Hc _] a. rewrite Hc, Hb1. unfold block_paid. case_decide as Ha; [subst a|]; lia. }
  exists s'. split; [|done]. unfold accumulateRewards. unfold mbind at 1, M_bind at 1. rewrite E1.
  unfold mbind at 1, M_bind at 1, gets. fold block. unfold on_rw, zoom. by rewrite E.
Qed.



(** ** The special miner *)

(** The environment that turns the special miner on, and nothing else. *)
Definition special_env : Prop :=
  Getenv envNov_forceAddr1810 = s2b "1" ∧ ∀ name, name ≠ envNov_forceAddr1810 → Getenv name = [].

Lemma special_env_number name bits d : special_env → name ≠ envNov_forceAddr1810 → env_number Getenv name bits d = d.
Proof. intros [_ He] Hn. unfold env_number. by rewrite He. Qed.

Lemma special_Get1810 : special_env → Get1810 Getenv (init Getenv) = (1000 * 10 ^ 18, false).
Proof.
  intros Henv. pose proof Henv as [_ Hrest]. unfold Get1810, If1810Oneshot, env_is_1.
  rewrite special_env_number, Hrest by done. reflexivity.
Qed.

Lemma special_applies header :
  special_env → Block.Coinbase header = good_address → 3001492 <= Block.Number header <= 3500000 →
  Is1810 Getenv (init Getenv) (Block.Coinbase header) = true ∧
  IfOnSuitableHeight Getenv (init Getenv) (Int64 (Block.Number header)) 0 = true.
Proof.
  intros Henv -> Hn. pose proof Henv as [Hone Hrest].
  assert (Is2019RetestNet Getenv = false) as Hr by (unfold Is2019RetestNet, env_is_1; by rewrite Hrest). split.
  - unfold Is1810, env_is_1. rewrite Hone. unfold init. rewrite Hr. cbn [NOV2019Good].
    rewrite (ezAddress_const nov2019Good good_address) by done. by rewrite Z.eqb_refl.
  - unfold IfOnSuitableHeight. rewrite !special_env_number by done. rewrite Int64_id by lia.
    rewrite (proj2 (Z.ltb_ge _ _)), Z.gtb_ltb, (proj2 (Z.ltb_ge _ _)) by lia.
    by destruct (_ && bool_decide _ || _).
Qed.

(** Whatever the block, all that its miner can do is set the reward to a thousand coins. *)
Lemma reward_1810_cases byzantium header w :
  special_env → rw_mgr w = init Getenv →
  reward_1810 byzantium header w = Done ()
    (if Is1810 Getenv (init Getenv) (Block.Coinbase header) &&
        IfOnSuitableHeight Getenv (init Getenv) (Int64 (Block.Number header)) 0
     then with_reward byzantium (1000 * 10 ^ 18) w else w).
Proof.
  intros Henv Hm. unfold reward_1810, mbind, M_bind, gets. rewrite Hm.
  destruct (Is1810 _ _ _); [|done]. destruct (IfOnSuitableHeight _ _ _ _); [|done].
  rewrite special_Get1810 by done. cbn [negb andb]. by vm_compute (Int64 _ <? 0).
Qed.

Lemma reward_1810_kept byzantium header w :
  special_env → rw_mgr w = init Getenv → blockReward byzantium w = 1000 * 10 ^ 18 →
  reward_1810 byzantium header w = Done () w.
Proof.
  intros Henv Hm Hr. rewrite reward_1810_cases by done. destruct (_ && _); [|done].
  rewrite <-Hr. by destruct w, byzantium.
Qed.

(** The blocks are paid one after the other at the given reward. *)
Fixpoint paid_all (config : ChainConfig) (reward : Z) (blocks : list (Header * list Header)) (w : Rewards) : Prop :=
  match blocks with
  | [] => True
  | (header, uncles) :: blocks =>
      ∃ s', accumulateRewards config header uncles w = Done () (with_rw_state s' w) ∧ state_inv s' ∧
        (∀ a, v_balance (state_view s') a =
              v_balance (state_view (rw_state w)) a + block_paid a reward header uncles) ∧
        paid_all config reward blocks (with_rw_state s' w)
  end.

Lemma paid_all_thousand config byz blocks w :
  special_env → state_inv (rw_state w) → rw_mgr w = init Getenv → blockReward byz w = 1000 * 10 ^ 18 →
  Forall (λ b, IsByzantium config (Block.Number b.1) = byz ∧
               Forall (λ u, Block.Number b.1 - 8 <= Block.Number u) b.2) blocks →
  paid_all config (1000 * 10 ^ 18) blocks w.
Proof.
  intros Henv Hi Hm Hr Hall. revert w Hi Hm Hr. induction Hall as [|[h us] blocks [Hb Hu] _ IH]; intros w Hi Hm Hr; [done|].
  cbn [paid_all]. cbn [fst snd] in Hb, Hu.
  destruct (accumulateRewards_after config h us w w) as (s' & E & Hi' & Hbal); rewrite ?Hb, ?Hr; try done.
  { by apply reward_1810_kept. }
  rewrite Hb, Hr in Hbal. exists s'. split_and!; [done|done|done|]. apply IH; [done|done|]. rewrite <-Hr. by destruct byz.
Qed.

(** An ordinary miner gets the reward in full. *)
Lemma block_paid_miner reward header uncles :
  special_env → is_address (Block.Coinbase header) → Block.Coinbase header ≠ good_address →
  Block.Coinbase header ≠ black_address →
  block_paid (Block.Coinbase header) reward header uncles =
  uncles_paid (Block.Coinbase header) reward header uncles + (reward + zlen uncles * (reward / 32)).
Proof.
  intros [_ Hrest] Ha Hg Hb. unfold block_paid. rewrite decide_True by done. f_equal. unfold credit, criteria_met.
  rewrite IfApplicableCriteria_two by (try done; by rewrite Hrest).
  rewrite !(proj2 (Z.eqb_neq (Block.Coinbase header) _)) by done. by rewrite andb_false_r.
Qed.

(** C35: One block of the special miner changes the reward of the blocks after it:
    the assignment writes the package variable.  In a process whose environment
    sets NOV2019_ADDR1810 to 1 and no other variable, once a block of the special
    miner at a height from 3001492 to 3500000 has been paid, every block that is
    paid later, whoever mined it, is paid at a reward of a thousand coins instead
    of the reward of the time, as long as it is on the same side of the Byzantium
    fork (the two sides have a variable each); a miner other than the special and
    the blocked address gets it in full. *)
Theorem reward_leaks config header uncles later w :
  special_env → state_inv (rw_state w) → rw_mgr w = init Getenv →
  Block.Coinbase header = good_address → 3001492 <= Block.Number header <= 3500000 →
  Forall (λ u, Block.Number header - 8 <= Block.Number u) uncles →
  Forall (λ b, IsByzantium config (Block.Number b.1) = IsByzantium config (Block.Number header) ∧
               Forall (λ u, Block.Number b.1 - 8 <= Block.Number u) b.2) later →
  (∃ w1, accumulateRewards config header uncles w = Done () w1 ∧ paid_all config (1000 * 10 ^ 18) later w1) ∧
  Forall (λ b, is_address (Block.Coinbase b.1) → Block.Coinbase b.1 ≠ good_address →
               Block.Coinbase b.1 ≠ black_address →
               block_paid (Block.Coinbase b.1) (1000 * 10 ^ 18) b.1 b.2 =
               uncles_paid (Block.Coinbase b.1) (1000 * 10 ^ 18) b.1 b.2 +
               (1000 * 10 ^ 18 + zlen b.2 * (1000 * 10 ^ 18 / 32))) later.
Proof.
  intros Henv Hi Hm Hc Hn Hu Hl. split; [|apply Forall_forall; intros; by apply block_paid_miner].
  set (byz := IsByzantium config (Block.Number header)) in *.
  destruct (special_applies header Henv Hc Hn) as [Hs1 Hs2].
  pose proof (reward_1810_cases byz header w Henv Hm) as E1. rewrite Hs1, Hs2 in E1. cbn [andb] in E1.
  assert (blockReward byz (with_reward byz (1000 * 10 ^ 18) w) = 1000 * 10 ^ 18) as Hr by by destruct byz.
  destruct (accumulateRewards_after config header uncles w _ E1) as (s' & E & Hi' & _); fold byz; rewrite ?Hr; try done.
  exists (with_rw_state s' (with_reward byz (1000 * 10 ^ 18) w)). split; [done|].
  by apply paid_all_thousand with (byz := byz).
Qed.

End Rewards.

(** ** Concrete blocks *)

#[local] Existing Instance sample_crypto.
#[local] Existing Instance sample_database.
#[local] Existing Instance sample_laws.

Definition rewards_of (Getenv : str → str) : Rewards :=
  {| FrontierBlockReward := 5 * 10 ^ 18; ByzantiumBlockReward := 3 * 10 ^ 18; rw_mgr := init Getenv;
     rw_state := funded |}.

Definition miner_header (coinbase n : Z) : Header :=
  {| Block.ParentHash := 0; Block.UncleHash := 0; Block.Coinbase := coinbase; Block.Root := 0;
     Block.TxHash := 0; Block.ReceiptHash := 0; Block.Bloom := 0; Block.Difficulty := 131072;
     Block.Number := n; Block.GasLimit := 8000000; Block.GasUsed := 0; Block.Time := n;
     Block.Extra := []; Block.MixDigest := 0; Block.Nonce := 0 |}.

#[local] Opaque funded.


Definition special_Getenv (name : str) : str :=
  if bool_decide (name = envNov_forceAddr1810) then s2b "1" else [].

Lemma reward_leaks_witness :
  let later := [(miner_header 7 3200001, []); (miner_header 8 3200002, [miner_header 9 3200000])] in
  (∃ w1, accumulateRewards special_Getenv MainnetChainConfig (miner_header good_address 3200000) []
           (rewards_of special_Getenv) = Done () w1 ∧
         paid_all special_Getenv MainnetChainConfig (1000 * 10 ^ 18) later w1) ∧
  Forall (λ b, is_address (Block.Coinbase b.1) → Block.Coinbase b.1 ≠ good_address →
               Block.Coinbase b.1 ≠ black_address →
               block_paid special_Getenv (Block.Coinbase b.1) (1000 * 10 ^ 18) b.1 b.2 =
               uncles_paid special_Getenv (Block.Coinbase b.1) (1000 * 10 ^ 18) b.1 b.2 +
               (1000 * 10 ^ 18 + zlen b.2 * (1000 * 10 ^ 18 / 32))) later.
Proof.
  intros later. apply (reward_leaks special_Getenv MainnetChainConfig (miner_header good_address 3200000) [] later
    (rewards_of special_Getenv)).
  - split; [done|]. intros name Hn. unfold special_Getenv. by rewrite bool_decide_eq_false_2.
  - apply funded_inv.
  - reflexivity.
  - reflexivity.
  - cbn. lia.
  - constructor.
  - constructor; [|constructor; [|constructor]]; (split; [reflexivity|]);
      repeat (constructor; [cbn; lia|]); constructor.
Defined.
