(* ===== verification/TrieEncoding.v ===== *)
(** * Key encodings of the trie: [trie/encoding.go]

    Keys are byte strings in three encodings: the bytes of the key, one nibble
    per byte with an optional terminator, and the compact form of stored nodes.
    [None] is a panic: an index out of range, or a key of odd length. *)
From S2P Require Import Prelude BigMath.

(** The terminator, 16. *)
Notation terminator := Byte.x10 (only parsing).

(** [nibbles[ni]<<4 | nibbles[ni+1]] in a byte. *)
Definition join_nibbles (a b : byte) : byte := zb (Z.lor (Z.shiftl (bz a) 4) (bz b)).

Fixpoint decodeNibbles (nibbles bytes : list byte) : option (list byte) :=
  match nibbles, bytes with
  | [], _ => Some bytes
  | a :: b :: nibbles, _ :: bytes => bytes ← decodeNibbles nibbles bytes; Some (join_nibbles a b :: bytes)
  | _, _ => None
  end.

Definition hasTerm (s : list byte) : bool :=
  match list.last s with Some b => bz b =? 16 | None => false end.

Definition without_term (hex : list byte) : list byte :=
  if hasTerm hex then take (length hex - 1) hex else hex.

Definition hexToCompact (hex : list byte) : option (list byte) :=
  let term := if hasTerm hex then 1 else 0 in
  let hex := without_term hex in
  let buf := zeros (length hex / 2) in
  let flag := Z.shiftl term 5 in
  match hex with
  | b :: hex' =>
      if Nat.odd (length hex) then
        buf ← decodeNibbles hex' buf;
        Some (zb (Z.lor (Z.lor flag (Z.shiftl 1 4)) (bz b)) :: buf)
      else buf ← decodeNibbles hex buf; Some (zb flag :: buf)
  | [] => Some (zb flag :: buf)
  end.

Definition keybytesToHex (str : list byte) : list byte :=
  concat (map (λ b, [zb (bz b / 16); zb (bz b mod 16)]) str) ++ [terminator].

Definition compactToHex (compact : list byte) : option (list byte) :=
  let base := keybytesToHex compact in
  first ← list.head base;
  let base := if bz first <? 2 then take (length base - 1) base else base in
  let chop := Z.to_nat (2 - Z.land (bz first) 1) in
  if (chop <=? length base)%nat then Some (drop chop base) else None.

Definition hexToKeybytes (hex : list byte) : option (list byte) :=
  let hex := without_term hex in
  if Nat.odd (length hex) then None else decodeNibbles hex (zeros (length hex / 2)).

Fixpoint prefixLen (a b : list byte) : nat :=
  match a, b with
  | x :: a, y :: b => if bool_decide (x = y) then S (prefixLen a b) else 0%nat
  | _, _ => 0%nat
  end.

(** ** What the encodings are of *)

Definition nibble (b : byte) : Prop := bz b < 16.
Definition nibbles (l : list byte) : Prop := Forall nibble l.

(** The key of a value: nibbles and the terminator. *)
Definition hex_key (l : list byte) : Prop := ∃ ns, nibbles ns ∧ l = ns ++ [terminator].

(** ** Lemmas *)

Lemma bz_term : bz terminator = 16.
Proof. reflexivity. Qed.

Lemma nibble_not_term b : nibble b → b ≠ terminator.
Proof. intros Hb ->. by unfold nibble in Hb. Qed.

Lemma join_split b : join_nibbles (zb (bz b / 16)) (zb (bz b mod 16)) = b.
Proof. by destruct b. Qed.

Lemma lor_nibble a b : 0 <= a → 0 <= b < 16 → Z.lor (a * 16) b = a * 16 + b.
Proof.
  intros Ha Hb. replace (a * 16) with (Z.shiftl a 4) by (rewrite Z.shiftl_mul_pow2; lia).
  rewrite <-Z.lxor_lor; [rewrite <-Z.add_nocarry_lxor; [done|]|];
    apply Z.bits_inj'; intros n Hn; rewrite Z.land_spec, Z.bits_0;
    (destruct (Z.ltb_spec n 4);
       [rewrite Z.shiftl_spec_low by lia; done
       |rewrite (Z.bits_above_log2 b) by
          (destruct (Z.eq_dec b 0); [subst; simpl; lia|];
           try (apply Z.log2_lt_pow2; [lia|]; apply Z.lt_le_trans with (2 ^ 4); [lia|apply Z.pow_le_mono_r; lia]); lia);
        apply andb_false_r]).
Qed.

Lemma join_value a b : nibble a → nibble b → bz (join_nibbles a b) = bz a * 16 + bz b.
Proof.
  unfold nibble, join_nibbles. intros Ha Hb. pose proof (bz_range a). pose proof (bz_range b).
  rewrite bz_zb, Z.shiftl_mul_pow2, lor_nibble by lia. apply Z.mod_small. lia.
Qed.

Lemma split_join a b :
  nibble a → nibble b → zb (bz (join_nibbles a b) / 16) = a ∧ zb (bz (join_nibbles a b) mod 16) = b.
Proof.
  intros Ha Hb. rewrite join_value by done. unfold nibble in *. pose proof (bz_range a). pose proof (bz_range b).
  rewrite (Z.add_comm (bz a * 16)), Z.div_add, Z.div_small, Z.mod_add, Z.mod_small, Z.add_0_l, !zb_bz by lia. done.
Qed.

Lemma keybytesToHex_cons b k :
  keybytesToHex (b :: k) = zb (bz b / 16) :: zb (bz b mod 16) :: keybytesToHex k.
Proof. done. Qed.

Lemma hi_nibble b : nibble (zb (bz b / 16)).
Proof.
  unfold nibble. rewrite bz_zb. pose proof (bz_range b). rewrite Z.mod_small; [apply Z.div_lt_upper_bound; lia|].
  split; [apply Z.div_pos; lia|]. apply Z.div_lt_upper_bound; lia.
Qed.

Lemma lo_nibble b : nibble (zb (bz b mod 16)).
Proof.
  unfold nibble. rewrite bz_zb. pose proof (Z.mod_pos_bound (bz b) 16). rewrite Z.mod_small; lia.
Qed.

#[export] Hint Resolve hi_nibble lo_nibble : yoc.

(** The nibbles of a key, without the terminator. *)
Fixpoint key_nibbles (k : list byte) : list byte :=
  match k with [] => [] | b :: k => zb (bz b / 16) :: zb (bz b mod 16) :: key_nibbles k end.

Lemma keybytesToHex_nibbles k : keybytesToHex k = key_nibbles k ++ [terminator].
Proof. induction k as [|b k IH]; [done|]. rewrite keybytesToHex_cons, IH. done. Qed.

Lemma key_nibbles_nibbles k : nibbles (key_nibbles k).
Proof. induction k; simpl; repeat constructor; auto with yoc. Qed.

Lemma length_key_nibbles k : length (key_nibbles k) = (2 * length k)%nat.
Proof. induction k; simpl; lia. Qed.

Lemma keybytesToHex_hex_key k : hex_key (keybytesToHex k).
Proof. exists (key_nibbles k). rewrite keybytesToHex_nibbles. split; [apply key_nibbles_nibbles|done]. Qed.

Lemma last_nibbles l : nibbles l → hasTerm l = false.
Proof.
  intros Hl. unfold hasTerm. destruct (list.last l) as [b|] eqn:E; [|done].
  apply last_Some in E as [l' ->]. apply Forall_app in Hl as [_ Hb].
  apply Forall_cons_1 in Hb as [Hb _]. unfold nibble in Hb. apply Z.eqb_neq. lia.
Qed.

Lemma hasTerm_key l : hasTerm (l ++ [terminator]) = true.
Proof. unfold hasTerm. by rewrite last_snoc. Qed.

Lemma without_term_key l : without_term (l ++ [terminator]) = l.
Proof.
  unfold without_term. rewrite hasTerm_key, length_app. simpl.
  rewrite Nat.add_sub. apply take_app_length.
Qed.

Lemma without_term_nibbles l : nibbles l → without_term l = l.
Proof. intros Hl. unfold without_term. by rewrite last_nibbles. Qed.

Lemma decodeNibbles_key k : decodeNibbles (key_nibbles k) (zeros (length k)) = Some k.
Proof.
  induction k as [|b k IH]; [done|]. cbn [key_nibbles decodeNibbles length zeros replicate].
  unfold zeros in IH. rewrite IH. cbn [mbind option_bind]. by rewrite join_split.
Qed.

(** Nibbles of even length are the nibbles of a key. *)
Lemma even_nibbles l : nibbles l → Nat.even (length l) = true → ∃ k, l = key_nibbles k.
Proof.
  induction l as [l IH] using (induction_ltof1 _ (@length byte)). unfold ltof in IH.
  destruct l as [|a [|b l]]; intros Hl He; [by exists []|done|].
  apply Forall_cons_1 in Hl as [Ha Hl]. apply Forall_cons_1 in Hl as [Hb Hl].
  destruct (IH l) as [k ->]; [simpl; lia|done|done|].
  exists (join_nibbles a b :: k). simpl. by destruct (split_join a b) as [-> ->].
Qed.

Lemma half_double n : (2 * n / 2 = n)%nat.
Proof. rewrite Nat.mul_comm. apply Nat.div_mul. lia. Qed.

Lemma odd_double n : Nat.odd (2 * n) = false.
Proof. unfold Nat.odd. by rewrite Nat.even_mul. Qed.

Lemma hexToKeybytes_key k : hexToKeybytes (keybytesToHex k) = Some k.
Proof.
  unfold hexToKeybytes. rewrite keybytesToHex_nibbles, without_term_key, length_key_nibbles, odd_double, half_double.
  apply decodeNibbles_key.
Qed.

Lemma keybytesToHex_inj k k' : keybytesToHex k = keybytesToHex k' → k = k'.
Proof. intros E. apply (inj Some). by rewrite <-!hexToKeybytes_key, E. Qed.

(** ** The compact encoding *)

(** A flag nibble, the odd nibble if there is one, and the other nibbles, by twos. *)
Definition compact_of (term : bool) (ns : list byte) : list byte :=
  (if term then ns ++ [terminator] else ns).

Definition flag (term odd : bool) : Z := (if term then 2 else 0) + (if odd then 1 else 0).

Lemma hexToCompact_even term k :
  hexToCompact (compact_of term (key_nibbles k)) = Some (zb (flag term false * 16) :: k).
Proof.
  unfold hexToCompact.
  assert (hasTerm (compact_of term (key_nibbles k)) = term ∧
    without_term (compact_of term (key_nibbles k)) = key_nibbles k) as [-> ->].
  { destruct term; cbn [compact_of].
    - split; [apply hasTerm_key|apply without_term_key].
    - split; [apply last_nibbles, key_nibbles_nibbles|apply without_term_nibbles, key_nibbles_nibbles]. }
  rewrite length_key_nibbles, half_double, odd_double.
  pose proof (decodeNibbles_key k) as Hk. destruct (key_nibbles k) eqn:E.
  - destruct k; [|done]. by destruct term.
  - rewrite Hk. by destruct term.
Qed.

Lemma hexToCompact_odd term b k :
  nibble b →
  hexToCompact (compact_of term (b :: key_nibbles k)) = Some (zb (flag term true * 16 + bz b) :: k).
Proof.
  intros Hb. unfold hexToCompact.
  assert (nibbles (b :: key_nibbles k)) as Hn by (constructor; [done|apply key_nibbles_nibbles]).
  assert (hasTerm (compact_of term (b :: key_nibbles k)) = term ∧
    without_term (compact_of term (b :: key_nibbles k)) = b :: key_nibbles k) as [-> ->].
  { destruct term; cbn [compact_of].
    - split; [apply (hasTerm_key (b :: _))|apply (without_term_key (b :: _))].
    - split; [by apply last_nibbles|by apply without_term_nibbles]. }
  cbn [length]. rewrite length_key_nibbles, Nat.odd_succ, <-Nat.negb_odd, odd_double.
  replace (S (2 * length k) / 2)%nat with (length k)
    by (rewrite <-Nat.add_1_l, Nat.mul_comm, Nat.div_add by lia; done).
  rewrite decodeNibbles_key. cbn [mbind option_bind negb].
  do 3 f_equal. pose proof (bz_range b). unfold nibble in Hb.
  destruct term; cbn [flag]; [apply (lor_nibble 3)|apply (lor_nibble 1)]; lia.
Qed.

(** Reading back a first byte with flag [f] and low nibble [lo]. *)
Lemma compactToHex_read term odd lo k :
  0 <= lo < 16 → 
  compactToHex (zb (flag term odd * 16 + lo) :: k) =
    Some (compact_of term ((if odd then [zb lo] else []) ++ key_nibbles k)).
Proof.
  intros Hlo. unfold compactToHex. rewrite keybytesToHex_cons, keybytesToHex_nibbles.
  assert (bz (zb (flag term odd * 16 + lo)) = flag term odd * 16 + lo) as ->.
  { rewrite bz_zb. apply Z.mod_small. unfold flag. destruct term, odd; lia. }
  assert ((flag term odd * 16 + lo) / 16 = flag term odd) as ->
    by (rewrite Z.div_add_l, Z.div_small; lia).
  assert ((flag term odd * 16 + lo) mod 16 = lo) as ->
    by (rewrite Z.add_comm, Z.mod_add, Z.mod_small; lia).
  cbn [list.head mbind option_bind].
  assert (take (length (zb (flag term odd) :: zb lo :: key_nibbles k ++ [terminator]) - 1)
    (zb (flag term odd) :: zb lo :: key_nibbles k ++ [terminator]) = zb (flag term odd) :: zb lo :: key_nibbles k) as ->.
  { rewrite !app_comm_cons, length_app. simpl length at 2. rewrite Nat.add_sub. apply take_app_length. }
  destruct term, odd; done.
Qed.

(** The encoding of a key, with or without terminator, in one form. *)
Lemma compact_cases h :
  (nibbles h ∨ hex_key h) → ∃ term ns, h = compact_of term ns ∧ nibbles ns.
Proof. intros [Hh|(ns & Hn & ->)]; [by exists false, h|by exists true, ns]. Qed.

Lemma hexToCompact_total h :
  (nibbles h ∨ hex_key h) → ∃ c, hexToCompact h = Some c ∧ compactToHex c = Some h.
Proof.
  intros (term & ns & -> & Hn)%compact_cases.
  destruct (Nat.even (length ns)) eqn:He.
  - destruct (even_nibbles ns Hn He) as [k ->]. exists (zb (flag term false * 16) :: k).
    split; [apply hexToCompact_even|].
    rewrite <-(Z.add_0_r (flag term false * 16)), compactToHex_read by lia. done.
  - destruct ns as [|b ns]; [done|]. apply Forall_cons_1 in Hn as [Hb Hn].
    destruct (even_nibbles ns Hn) as [k ->].
    { cbn [length] in He. rewrite Nat.even_succ, <-Nat.negb_even in He. by destruct (Nat.even _). }
    exists (zb (flag term true * 16 + bz b) :: k). split; [by apply hexToCompact_odd|].
    unfold nibble in Hb. pose proof (bz_range b). rewrite compactToHex_read, zb_bz by lia. done.
Qed.

(** The three encodings of keys lose nothing: the bytes of a key come back
    from its nibbles; every string of nibbles, with or without terminator, has a
    compact form that is read back as the same string; and the compact form of
    what a canonical compact string was read as is that string again.  None of
    the conversions panics there. *)
Theorem key_encodings_roundtrip k h :
  hexToKeybytes (keybytesToHex k) = Some k ∧
  ((nibbles h ∨ hex_key h) → ∃ c, hexToCompact h = Some c ∧ compactToHex c = Some h) ∧
  (∀ term odd lo, 0 <= lo < 16 → (odd = false → lo = 0) →
     ∃ h', compactToHex (zb (flag term odd * 16 + lo) :: k) = Some h' ∧
           hexToCompact h' = Some (zb (flag term odd * 16 + lo) :: k)).
Proof.
  split_and!; [apply hexToKeybytes_key|apply hexToCompact_total|].
  intros term odd lo Hlo Ho. eexists. split; [by apply compactToHex_read|].
  destruct odd; cbn [app].
  - rewrite hexToCompact_odd; unfold nibble; rewrite bz_zb, Z.mod_small by lia; [done|lia].
  - rewrite Ho by done. rewrite hexToCompact_even. by rewrite Z.add_0_r.
Qed.

Lemma key_encodings_roundtrip_witness :
  hexToKeybytes (keybytesToHex [Byte.x12; Byte.xf5]) = Some [Byte.x12; Byte.xf5] ∧
  (∃ c, hexToCompact [Byte.x0f; Byte.x01; terminator] = Some c ∧
        compactToHex c = Some [Byte.x0f; Byte.x01; terminator]) ∧
  ∃ h', compactToHex (zb (flag true true * 16 + 9) :: [Byte.x12; Byte.xf5]) = Some h' ∧
        hexToCompact h' = Some (zb (flag true true * 16 + 9) :: [Byte.x12; Byte.xf5]).
Proof.
  destruct (key_encodings_roundtrip [Byte.x12; Byte.xf5] [Byte.x0f; Byte.x01; terminator]) as (H1 & H2 & H3).
  split_and!; [exact H1| |].
  - apply H2. right. exists [Byte.x0f; Byte.x01]. split; [repeat constructor|done].
  - apply H3; [lia|done].
Defined.

(** An empty compact key, which no encoder makes, is an index out of range. *)
Lemma compactToHex_empty : compactToHex [] = None.
Proof. reflexivity. Qed.

(** ** Common prefixes *)

Lemma prefixLen_split a b :
  let m := prefixLen a b in
  take m a = take m b ∧ (m <= length a)%nat ∧ (m <= length b)%nat ∧
  ∀ x y, a !! m = Some x → b !! m = Some y → x ≠ y.
Proof.
  cbv zeta. revert b. induction a as [|x a IH]; intros [|y b]; simpl; [by split_and!; try lia..|].
  case_bool_decide as E; simpl.
  - subst y. destruct (IH b) as (H1 & H2 & H3 & H4). split_and!; [by rewrite H1|lia|lia|done].
  - split_and!; [done|lia|lia|]. intros ?? [= <-] [= <-]. done.
Qed.
