(* ===== verification/TrieNode.v ===== *)
(** * Nodes of the trie: [trie/node.go], [trie/errors.go]

    A node of the trie, its flags, its encoding and decoding.  [None] is a
    panic.  The nodes of the memory database ([trie/database.go]) are nodes too,
    and must never end up in a live trie. *)
From S2P Require Import Prelude BigMath Rlp TrieEncoding.
Import Rlp.

Record nodeFlag := { hash : option (list byte); gen : Z; dirty : bool }.

(** [nil_node] is the nil interface. *)
Inductive node :=
  | nil_node
  | fullNode (Children : list node) (flags : nodeFlag)
  | shortNode (Key : list byte) (Val : node) (flags : nodeFlag)
  | hashNode (h : list byte)
  | valueNode (v : list byte)
  | rawNode (blob : list byte)
  | rawFullNode (Children : list node)
  | rawShortNode (Key : list byte) (Val : node).

Definition is_nil (n : node) : bool := match n with nil_node => true | _ => false end.

Definition uint16 (z : Z) : Z := z mod 2 ^ 16.

Definition flag_canUnload (n : nodeFlag) (cachegen cachelimit : Z) : bool :=
  negb (dirty n) && (uint16 (cachegen - gen n) >=? cachelimit).

(** [canUnload] and [cache] of a raw node, and of nil, panic. *)
Definition canUnload (n : node) (cachegen cachelimit : Z) : option bool :=
  match n with
  | fullNode _ fl | shortNode _ _ fl => Some (flag_canUnload fl cachegen cachelimit)
  | hashNode _ | valueNode _ => Some false
  | _ => None
  end.

Definition cache (n : node) : option (option (list byte) * bool) :=
  match n with
  | fullNode _ fl | shortNode _ _ fl => Some (hash fl, dirty fl)
  | hashNode _ | valueNode _ => Some (None, true)
  | _ => None
  end.

(** What [rlp] writes for a node: a short node is a struct of two exported
    fields, a full node has an encoder of its own, that writes an empty string
    for a missing child. *)
Fixpoint node_value (n : node) : value :=
  match n with
  | nil_node => VNil
  | fullNode cs _ | rawFullNode cs =>
      VList (map (λ c, if is_nil c then VBytes [] else node_value c) cs)
  | shortNode k v _ | rawShortNode k v => VList [VBytes k; node_value v]
  | hashNode b | valueNode b | rawNode b => VBytes b
  end.

(** ** Decoding *)

Notation hashLen := 32 (only parsing).

Inductive decode_cause :=
  | UnexpectedEOF
  | DecodeFailed (e : rlp_error)
  | BadListLength (c : Z)
  | BadValue (e : rlp_error)
  | Oversized (size : Z)
  | BadStringSize (size : Z)
  | SplitFailed (e : rlp_error).

(** A cause and the path to it; an error that was not wrapped has no path. *)
Record decodeError := { what : decode_cause; path : list string }.

Definition plain (c : decode_cause) : decodeError := {| what := c; path := [] |}.

Definition wrapError (err : decodeError) (ctx : string) : decodeError :=
  {| what := what err; path := path err ++ [ctx] |}.

(** Decoding ends with a value or an error, or panics. *)
Definition DR (A : Type) : Type := option (A + decodeError).

#[global] Instance DR_ret : MRet DR := λ A a, Some (inl a).
#[global] Instance DR_bind : MBind DR := λ A B k m,
  match m with Some (inl a) => k a | Some (inr e) => Some (inr e) | None => None end.

Definition throw {A} (e : decodeError) : DR A := Some (inr e).
Definition from_split {A} (f : rlp_error → decode_cause) (r : A + rlp_error) : DR A :=
  match r with inl a => mret a | inr e => throw (plain (f e)) end.
Definition with_path {A} (ctx : string) (m : DR A) : DR A :=
  match m with Some (inr e) => throw (wrapError e ctx) | _ => m end.

(** The decimal digits of an index below 17, as [fmt.Sprintf] writes it in brackets. *)
Definition index_names : list string :=
  ["[0]"; "[1]"; "[2]"; "[3]"; "[4]"; "[5]"; "[6]"; "[7]"; "[8]"; "[9]"; "[10]"; "[11]"; "[12]"; "[13]"; "[14]"; "[15]"]%string.

Section decode.
(** [decodeNode] on an embedded node: one level down. *)
Variable decode_embedded : list byte → DR node.

Definition decodeRef (buf : list byte) : DR (node * list byte) :=
  '(kind, val, rest) ← from_split SplitFailed (Split buf);
  match kind with
  | List =>
      let size := zlen buf - zlen rest in
      if size >? hashLen then throw (plain (Oversized size))
      else n ← decode_embedded buf; mret (n, rest)
  | String =>
      if zlen val =? 0 then mret (nil_node, rest)
      else if zlen val =? 32 then mret (hashNode val, rest)
      else throw (plain (BadStringSize (zlen val)))
  | Byte => throw (plain (BadStringSize (zlen val)))
  end.

Definition decodeShort (hash : option (list byte)) (elems : list byte) (cachegen : Z) : DR node :=
  '(kbuf, rest) ← from_split SplitFailed (SplitString elems);
  let flag := {| hash := hash; gen := cachegen; dirty := false |} in
  key ← (inl <$> compactToHex kbuf : DR (list byte));
  if hasTerm key then
    '(val, _) ← from_split BadValue (SplitString rest);
    mret (shortNode key (valueNode val) flag)
  else
    '(r, _) ← with_path "val" (decodeRef rest);
    mret (shortNode key r flag).

(** The first sixteen children, from the names of their positions. *)
Fixpoint decode_children (names : list string) (elems : list byte) : DR (list node * list byte) :=
  match names with
  | [] => mret ([], elems)
  | name :: names =>
      '(cld, rest) ← with_path name (decodeRef elems);
      '(cs, rest) ← decode_children names rest;
      mret (cld :: cs, rest)
  end.

Definition decodeFull (hash : option (list byte)) (elems : list byte) (cachegen : Z) : DR node :=
  '(cs, elems) ← decode_children index_names elems;
  '(val, _) ← from_split SplitFailed (SplitString elems);
  mret (fullNode (cs ++ [if zlen val >? 0 then valueNode val else nil_node])
          {| hash := hash; gen := cachegen; dirty := false |}).
End decode.

(** The fuel bounds the nesting of embedded nodes, each shorter than the one it is in. *)
Fixpoint decodeNode_fuel (fuel : nat) (hash : option (list byte)) (buf : list byte) (cachegen : Z) : DR node :=
  match fuel with
  | O => None
  | S fuel =>
      if zlen buf =? 0 then throw (plain UnexpectedEOF)
      else
        '(elems, _) ← from_split DecodeFailed (SplitList buf);
        let c := match CountValues elems with inl c => c | inr _ => 0 end in
        let embedded := λ buf, decodeNode_fuel fuel None buf cachegen in
        if c =? 2 then with_path "short" (decodeShort embedded hash elems cachegen)
        else if c =? 17 then with_path "full" (decodeFull embedded hash elems cachegen)
        else throw (plain (BadListLength c))
  end.

Definition decodeNode (hash : option (list byte)) (buf : list byte) (cachegen : Z) : DR node :=
  decodeNode_fuel (S (length buf)) hash buf cachegen.

Definition mustDecodeNode (hash : option (list byte)) (buf : list byte) (cachegen : Z) : option node :=
  match decodeNode hash buf cachegen with Some (inl n) => Some n | _ => None end.
