(* ===== verification/Trie.v ===== *)
(** * The trie: [trie/trie.go]

    Looking up, inserting and deleting.  The database a trie loads its nodes
    from is [db_node], the method [Database.node]; it can panic ([None]) or know
    no such node ([nil_node]).  A call ends with a result or a missing node, or
    panics ([None]).  The fuel bounds the recursion: a step goes down a node or
    loads one, so twice the length of the key is enough. *)
From S2P Require Import Prelude BigMath TrieEncoding TrieNode.

Record MissingNodeError := { NodeHash : Hash; Path : list byte }.

Definition TR (A : Type) : Type := option (A + MissingNodeError).

#[global] Instance TR_ret : MRet TR := λ A a, Some (inl a).
#[global] Instance TR_bind : MBind TR := λ A B k m,
  match m with Some (inl a) => k a | Some (inr e) => Some (inr e) | None => None end.

(** An access that panics out of range. *)
Definition at_index {A} (o : option A) : TR A := inl <$> o.

(** The index a byte of a key is in the array of children, and writing there. *)
Definition pos_of (b : byte) : nat := Z.to_nat (bz b).

Definition no_children : list node := replicate 17 nil_node.

Definition set_child (cs : list node) (b : byte) (c : node) : TR (list node) :=
  if (pos_of b <? length cs)%nat then mret (<[pos_of b := c]> cs) else None.

Section Trie.
Variable db_node : Hash → Z → option node.
Variable cachegen : Z.

Definition newFlag : nodeFlag := {| hash := None; gen := cachegen; dirty := true |}.

Definition touch (fl : nodeFlag) : nodeFlag := {| hash := hash fl; gen := cachegen; dirty := dirty fl |}.

Definition resolveHash (n prefix : list byte) : TR node :=
  let hash := BytesToHash n in
  match db_node hash cachegen with
  | None => None
  | Some nil_node => Some (inr {| NodeHash := hash; Path := prefix |})
  | Some nd => mret nd
  end.

Definition resolve (n : node) (prefix : list byte) : TR node :=
  match n with hashNode h => resolveHash h prefix | _ => mret n end.

(** The value, the node that replaces [origNode], and whether it does. *)
Fixpoint tryGet (fuel : nat) (origNode : node) (key : list byte) (pos : nat) : TR (list byte * node * bool) :=
  match fuel with
  | O => None
  | S fuel =>
      match origNode with
      | nil_node => mret ([], nil_node, false)
      | valueNode v => mret (v, origNode, false)
      | shortNode Key Val fl =>
          if (length key <? pos + length Key)%nat || negb (bool_decide (Key = take (length Key) (drop pos key))) then
            mret ([], origNode, false)
          else
            '(value, newnode, didResolve) ← tryGet fuel Val key (pos + length Key);
            if (didResolve : bool) then mret (value, shortNode Key newnode (touch fl), true)
            else mret (value, origNode, false)
      | fullNode cs fl =>
          b ← at_index (key !! pos);
          c ← at_index (cs !! pos_of b);
          '(value, newnode, didResolve) ← tryGet fuel c key (S pos);
          if (didResolve : bool) then
            cs ← set_child cs b newnode; mret (value, fullNode cs (touch fl), true)
          else mret (value, origNode, false)
      | hashNode h =>
          child ← resolveHash h (take pos key);
          '(value, newnode, _) ← tryGet fuel child key pos;
          mret (value, newnode, true)
      | _ => None
      end
  end.

(** Whether the trie changed, and the node that replaces [n]. *)
Fixpoint insert (fuel : nat) (n : node) (prefix key : list byte) (value : node) : TR (bool * node) :=
  match fuel with
  | O => None
  | S fuel =>
      match key with
      | [] =>
          match n, value with
          | valueNode v, valueNode w => mret (negb (bool_decide (v = w)), value)
          | valueNode _, _ => None
          | _, _ => mret (true, value)
          end
      | k0 :: ks =>
          match n with
          | shortNode Key Val _ =>
              let matchlen := prefixLen key Key in
              if (matchlen =? length Key)%nat then
                '(dirty, nn) ← insert fuel Val (prefix ++ take matchlen key) (drop matchlen key) value;
                if (dirty : bool) then mret (true, shortNode Key nn newFlag) else mret (false, n)
              else
                a ← at_index (Key !! matchlen);
                '(_, old) ← insert fuel nil_node (prefix ++ take (S matchlen) Key) (drop (S matchlen) Key) Val;
                branch ← set_child no_children a old;
                b ← at_index (key !! matchlen);
                '(_, new) ← insert fuel nil_node (prefix ++ take (S matchlen) key) (drop (S matchlen) key) value;
                branch ← set_child branch b new;
                let branch := fullNode branch newFlag in
                if (matchlen =? 0)%nat then mret (true, branch)
                else mret (true, shortNode (take matchlen key) branch newFlag)
          | fullNode cs _ =>
              c ← at_index (cs !! pos_of k0);
              '(dirty, nn) ← insert fuel c (prefix ++ [k0]) ks value;
              if (dirty : bool) then cs ← set_child cs k0 nn; mret (true, fullNode cs newFlag)
              else mret (false, n)
          | nil_node => mret (true, shortNode key value newFlag)
          | hashNode h =>
              rn ← resolveHash h prefix;
              '(dirty, nn) ← insert fuel rn prefix key value;
              if (dirty : bool) then mret (true, nn) else mret (false, rn)
          | _ => None
          end
      end
  end.

(** The index of the only child, -1 if there is none and -2 if there are more. *)
Fixpoint only_child (i pos : Z) (cs : list node) : Z :=
  match cs with
  | [] => pos
  | c :: cs => if is_nil c then only_child (i + 1) pos cs
               else if pos =? -1 then only_child (i + 1) i cs else -2
  end.

(** A full node after one of its children changed: reduced to a short node if
    only one child is left. *)
Definition reduce (cs : list node) (prefix : list byte) : TR (bool * node) :=
  let pos := only_child 0 (-1) cs in
  if pos >=? 0 then
    only ← at_index (cs !! Z.to_nat pos);
    if negb (pos =? 16) then
      cnode ← resolve only prefix;
      match cnode with
      | shortNode Key Val _ => mret (true, shortNode (zb pos :: Key) Val newFlag)
      | _ => mret (true, shortNode [zb pos] only newFlag)
      end
    else mret (true, shortNode [zb pos] only newFlag)
  else mret (true, fullNode cs newFlag).

Fixpoint delete (fuel : nat) (n : node) (prefix key : list byte) : TR (bool * node) :=
  match fuel with
  | O => None
  | S fuel =>
      match n with
      | shortNode Key Val _ =>
          let matchlen := prefixLen key Key in
          if (matchlen <? length Key)%nat then mret (false, n)
          else if (matchlen =? length key)%nat then mret (true, nil_node)
          else
            '(dirty, child) ← delete fuel Val (prefix ++ take (length Key) key) (drop (length Key) key);
            if (dirty : bool) then
              match child with
              | shortNode Key' Val' _ => mret (true, shortNode (Key ++ Key') Val' newFlag)
              | _ => mret (true, shortNode Key child newFlag)
              end
            else mret (false, n)
      | fullNode cs _ =>
          k0 ← at_index (list.head key);
          c ← at_index (cs !! pos_of k0);
          '(dirty, nn) ← delete fuel c (prefix ++ [k0]) (tail key);
          if (dirty : bool) then cs ← set_child cs k0 nn; reduce cs prefix
          else mret (false, n)
      | valueNode _ => mret (true, nil_node)
      | nil_node => mret (false, nil_node)
      | hashNode h =>
          rn ← resolveHash h prefix;
          '(dirty, nn) ← delete fuel rn prefix key;
          if (dirty : bool) then mret (true, nn) else mret (false, rn)
      | _ => None
      end
  end.

(** Enough fuel for a key. *)
Definition key_fuel (key : list byte) : nat := 2 * length key + 3.
End Trie.

(** The trie without its database. *)
Record Trie := { root : node; originalRoot : Hash; cachegen : Z; cachelimit : Z }.

Definition with_root (n : node) (t : Trie) : Trie :=
  {| root := n; originalRoot := originalRoot t; cachegen := cachegen t; cachelimit := cachelimit t |}.

Definition SetCacheLimit (l : Z) (t : Trie) : Trie :=
  {| root := root t; originalRoot := originalRoot t; cachegen := cachegen t; cachelimit := l |}.

Notation emptyRoot := 0x56e81f171bcc55a6ff8345e692c0f86e5b48e01b996cadc001622fb5e363b421 (only parsing).

Section Operations.
Variable db_node : Hash → Z → option node.

Definition New (root : Hash) : TR Trie :=
  if negb (root =? 0) && negb (root =? emptyRoot) then
    rootnode ← resolveHash db_node 0 (HashBytes root) [];
    mret {| root := rootnode; originalRoot := root; cachegen := 0; cachelimit := 0 |}
  else mret {| root := nil_node; originalRoot := root; cachegen := 0; cachelimit := 0 |}.

Definition TryGet (t : Trie) (key : list byte) : TR (list byte * Trie) :=
  let key := keybytesToHex key in
  '(value, newroot, didResolve) ← tryGet db_node (cachegen t) (key_fuel key) (root t) key 0;
  mret (value, if (didResolve : bool) then with_root newroot t else t).

Definition TryDelete (t : Trie) (key : list byte) : TR Trie :=
  let k := keybytesToHex key in
  '(_, n) ← delete db_node (cachegen t) (key_fuel k) (root t) [] k;
  mret (with_root n t).

Definition TryUpdate (t : Trie) (key value : list byte) : TR Trie :=
  let k := keybytesToHex key in
  if negb (zlen value =? 0) then
    '(_, n) ← insert db_node (cachegen t) (key_fuel k) (root t) [] k (valueNode value);
    mret (with_root n t)
  else
    '(_, n) ← delete db_node (cachegen t) (key_fuel k) (root t) [] k;
    mret (with_root n t).

(** [Get], [Update] and [Delete] log a missing node and go on without it. *)
Definition Get (t : Trie) (key : list byte) : option (list byte * Trie) :=
  match TryGet t key with Some (inl r) => Some r | Some (inr _) => Some ([], t) | None => None end.

Definition Update (t : Trie) (key value : list byte) : option Trie :=
  match TryUpdate t key value with Some (inl t') => Some t' | Some (inr _) => Some t | None => None end.

Definition Delete (t : Trie) (key : list byte) : option Trie :=
  match TryDelete t key with Some (inl t') => Some t' | Some (inr _) => Some t | None => None end.
End Operations.
