(* ===== verification/TrieTree.v ===== *)
(** * Tries as trees

    What a trie stands for: a tree of values without flags and references, the
    values it holds, and the minimal form in which there is only one tree for
    given contents. *)
From S2P Require Import Prelude BigMath TrieEncoding TrieNode Trie.

Inductive tree :=
  | TVal (v : list byte)
  | TShort (k : list byte) (t : tree)
  | TFull (ts : list (option tree)).

(** The value under a key of nibbles. *)
Fixpoint tfind (t : tree) (key : list byte) : option (list byte) :=
  match t with
  | TVal v => match key with [] => Some v | _ => None end
  | TShort k t => if bool_decide (k `prefix_of` key) then tfind t (drop (length k) key) else None
  | TFull ts =>
      match key with
      | [] => None
      | b :: key =>
          match map (λ c, match c with Some t => tfind t | None => λ _, None end) ts !! pos_of b with
          | Some f => f key
          | None => None
          end
      end
  end.

Definition leaf_val (t : tree) : Prop := ∃ v, t = TVal v ∧ v ≠ [].

Definition is_full (t : tree) : Prop := match t with TFull _ => True | _ => False end.

(** Minimal form: a short node leads to a value or to a full node, a full node
    has two children or more. *)
Inductive ok : tree → Prop :=
  | ok_leaf ns v : nibbles ns → v ≠ [] → ok (TShort (ns ++ [terminator]) (TVal v))
  | ok_ext ns ts : nibbles ns → ns ≠ [] → ok (TFull ts) → ok (TShort ns (TFull ts))
  | ok_full ts :
      length ts = 17%nat →
      (∀ i t, (i < 16)%nat → ts !! i = Some (Some t) → ok t) →
      (∀ t, ts !! 16%nat = Some (Some t) → leaf_val t) →
      (∃ i j t u, i ≠ j ∧ ts !! i = Some (Some t) ∧ ts !! j = Some (Some u)) →
      ok (TFull ts).

(** ** Keys *)

Lemma hex_key_nil : ¬ hex_key [].
Proof. intros (ns & _ & E). by destruct ns. Qed.

Lemma hex_key_cons b k : hex_key (b :: k) ↔ (b = terminator ∧ k = []) ∨ (nibble b ∧ hex_key k).
Proof.
  split.
  - intros ([|c ns] & Hn & [= -> ->]); [by left|]. apply Forall_cons_1 in Hn as [Hb Hn].
    right. split; [done|]. by exists ns.
  - intros [[-> ->]|[Hb (ns & Hn & ->)]]; [exists []; split; [constructor|done]|]. exists (b :: ns). split; [by constructor|done].
Qed.

Lemma hex_key_app p s : nibbles p → hex_key (p ++ s) ↔ hex_key s.
Proof.
  induction p as [|b p IH]; intros Hp; [done|]. apply Forall_cons_1 in Hp as [Hb Hp].
  rewrite <-app_comm_cons, hex_key_cons, IH by done. split; [|by right].
  intros [[-> _]|[_ ?]]; [by apply nibble_not_term in Hb|done].
Qed.

Lemma hex_key_snoc ns : nibbles ns → hex_key (ns ++ [terminator]).
Proof. intros Hn. by exists ns. Qed.

(** No key is a proper prefix of another. *)
Lemma hex_key_prefix a s : hex_key a → hex_key (a ++ s) → s = [].
Proof.
  intros (ns & Hn & ->). rewrite <-app_assoc, hex_key_app by done. cbn [app].
  rewrite hex_key_cons. intros [[_ ?]|[Hb _]]; [done|]. by apply nibble_not_term in Hb.
Qed.

Lemma nibbles_not_key a s : nibbles (a ++ s) → ¬ hex_key a.
Proof.
  intros Ha (ns & _ & ->). apply Forall_app in Ha as [Ha _]. apply Forall_app in Ha as [_ Ha].
  apply Forall_cons_1 in Ha as [Ha _]. by apply nibble_not_term in Ha.
Qed.

Lemma pos_nibble b : nibble b → (pos_of b < 16)%nat.
Proof. unfold nibble, pos_of. pose proof (bz_range b). lia. Qed.

Lemma pos_inj a b : pos_of a = pos_of b → a = b.
Proof. unfold pos_of. intros E. apply bz_inj. pose proof (bz_range a). pose proof (bz_range b). lia. Qed.

Lemma pos_zb i : (i < 256)%nat → pos_of (zb (Z.of_nat i)) = i.
Proof. intros Hi. unfold pos_of. rewrite bz_zb, Z.mod_small by lia. lia. Qed.

Lemma nibble_zb i : (i < 16)%nat → nibble (zb (Z.of_nat i)).
Proof. intros Hi. unfold nibble. rewrite bz_zb, Z.mod_small; lia. Qed.

Lemma pos_term : pos_of terminator = 16%nat.
Proof. reflexivity. Qed.

(** A key that may start at a child of a full node. *)
Definition key_byte (b : byte) : Prop := nibble b ∨ b = terminator.

Lemma pos_key_byte b : key_byte b → (pos_of b < 17)%nat.
Proof. intros [Hb| ->]; [apply pos_nibble in Hb; lia|rewrite pos_term; lia]. Qed.

Lemma hex_key_byte b k : hex_key (b :: k) → key_byte b.
Proof. rewrite hex_key_cons. intros [[-> _]|[? _]]; [by right|by left]. Qed.

#[export] Hint Resolve pos_nibble pos_key_byte hex_key_byte : yoc.

(** ** Finding *)

Lemma tfind_short k t s : tfind (TShort k t) (k ++ s) = tfind t s.
Proof.
  cbn [tfind]. rewrite bool_decide_eq_true_2 by by apply prefix_app_r.
  by rewrite drop_app_length.
Qed.

Lemma tfind_short_none k t key : ¬ k `prefix_of` key → tfind (TShort k t) key = None.
Proof. intros Hk. cbn [tfind]. by rewrite bool_decide_eq_false_2. Qed.

Lemma tfind_short_inv k t key v :
  tfind (TShort k t) key = Some v → ∃ s, key = k ++ s ∧ tfind t s = Some v.
Proof.
  cbn [tfind]. case_bool_decide as Hk; [|done]. destruct Hk as [s ->].
  rewrite drop_app_length. eauto.
Qed.

Lemma tfind_full ts b key :
  tfind (TFull ts) (b :: key) = match ts !! pos_of b with Some (Some t) => tfind t key | _ => None end.
Proof.
  cbn [tfind]. change (map ?f ts) with (f <$> ts). rewrite list_lookup_fmap.
  destruct (ts !! pos_of b) as [[t|]|]; done.
Qed.

Lemma tfind_val v key : tfind (TVal v) key = if bool_decide (key = []) then Some v else None.
Proof. by destruct key. Qed.

Lemma tfind_leaf k v key : tfind (TShort k (TVal v)) key = if decide (key = k) then Some v else None.
Proof.
  cbn [tfind]. case_bool_decide as Hk.
  - destruct Hk as [s ->]. rewrite drop_app_length. destruct s as [|b s].
    + by rewrite app_nil_r, decide_True.
    + rewrite decide_False; [done|]. intros E. apply (f_equal length) in E.
      rewrite length_app in E. simpl in E. lia.
  - rewrite decide_False; [done|]. by intros ->.
Qed.

(** Every child of a full node in minimal form. *)
Lemma ok_full_inv ts :
  ok (TFull ts) →
  length ts = 17%nat ∧
  (∀ i t, (i < 16)%nat → ts !! i = Some (Some t) → ok t) ∧
  (∀ t, ts !! 16%nat = Some (Some t) → leaf_val t) ∧
  (∃ i j t u, i ≠ j ∧ ts !! i = Some (Some t) ∧ ts !! j = Some (Some u)).
Proof. by inversion 1. Qed.

Definition child_ok (b : byte) (t : tree) : Prop :=
  (nibble b ∧ ok t) ∨ (b = terminator ∧ leaf_val t).

Lemma ok_child ts i t :
  ok (TFull ts) → ts !! i = Some (Some t) → ∃ b, i = pos_of b ∧ child_ok b t.
Proof.
  intros (Hl & Hc & Hv & _)%ok_full_inv Hi. pose proof (lookup_lt_Some _ _ _ Hi) as Hlt.
  destruct (decide (i = 16%nat)) as [->|Hn].
  - exists terminator. split; [done|]. right. eauto.
  - exists (zb (Z.of_nat i)). rewrite pos_zb by lia. split; [done|]. left.
    split; [apply nibble_zb; lia|]. apply (Hc i); [lia|done].
Qed.

Lemma ok_child_at ts b t :
  ok (TFull ts) → key_byte b → ts !! pos_of b = Some (Some t) → child_ok b t.
Proof.
  intros Hts Hb Hi. destruct (ok_child ts _ t Hts Hi) as (c & E & Hc). by apply pos_inj in E as ->.
Qed.

(** Every tree in minimal form holds a value. *)
Lemma ok_has t : ok t → ∃ key v, hex_key key ∧ tfind t key = Some v ∧ v ≠ [].
Proof.
  induction 1 as [ns v Hn Hv|ns ts Hn Hne _ IH|ts Hl Hc IH Hv Htwo].
  - exists (ns ++ [terminator]), v. split; [by apply hex_key_snoc|].
    rewrite tfind_leaf, decide_True by done. done.
  - destruct IH as (key & v & Hk & Hf & ?). exists (ns ++ key), v.
    rewrite hex_key_app, tfind_short by done. done.
  - destruct Htwo as (i & j & t & u & _ & Hi & _). pose proof (lookup_lt_Some _ _ _ Hi) as Hlt.
    destruct (decide (i = 16%nat)) as [->|Hn].
    + destruct (Hv t Hi) as (v & -> & Hne). exists [terminator], v.
      rewrite hex_key_cons, tfind_full, pos_term, Hi. auto.
    + destruct (IH i t ltac:(lia) Hi) as (key & v & Hk & Hf & ?).
      exists (zb (Z.of_nat i) :: key), v.
      rewrite hex_key_cons, tfind_full, pos_zb, Hi by lia.
      split_and!; [right; split; [apply nibble_zb; lia|done]|done|done].
Qed.

Lemma child_has b t : child_ok b t → ∃ key v, hex_key (b :: key) ∧ tfind t key = Some v ∧ v ≠ [].
Proof.
  intros [[Hb Ht]|[-> (v & -> & Hv)]].
  - destruct (ok_has t Ht) as (key & v & Hk & Hf). exists key, v. rewrite hex_key_cons. auto.
  - exists [], v. rewrite hex_key_cons. auto.
Qed.

Lemma full_two ts :
  ok (TFull ts) → ∃ a b k l v w, a ≠ b ∧
    hex_key (a :: k) ∧ tfind (TFull ts) (a :: k) = Some v ∧
    hex_key (b :: l) ∧ tfind (TFull ts) (b :: l) = Some w.
Proof.
  intros Hts. destruct (ok_full_inv ts Hts) as (_ & _ & _ & i & j & t & u & Hij & Hi & Hj).
  destruct (ok_child ts i t Hts Hi) as (a & -> & Ha). destruct (ok_child ts j u Hts Hj) as (b & -> & Hb).
  destruct (child_has a t Ha) as (k & v & Hk & Hv & _). destruct (child_has b u Hb) as (l & w & Hl & Hw & _).
  exists a, b, k, l, v, w. rewrite !tfind_full, Hi, Hj. split_and!; congruence || done.
Qed.

(** ** One tree for given contents *)

Definition same (t u : tree) : Prop := ∀ key, hex_key key → tfind t key = tfind u key.

Lemma same_sym t u : same t u → same u t.
Proof. intros E key Hk. symmetry. by apply E. Qed.

Lemma common_prefix (k m : list byte) a b x y :
  k `prefix_of` m ++ a :: x → k `prefix_of` m ++ b :: y → a ≠ b → k `prefix_of` m.
Proof.
  intros Hx Hy Hab. revert k Hx Hy. induction m as [|c m IH]; intros [|d k] Hx Hy; [done| |apply prefix_nil|].
  - apply prefix_cons_inv_1 in Hx. apply prefix_cons_inv_1 in Hy. congruence.
  - pose proof (prefix_cons_inv_1 _ _ _ _ Hx) as ->. apply prefix_cons.
    apply IH; [by apply prefix_cons_inv_2 in Hx|by apply prefix_cons_inv_2 in Hy].
Qed.

Lemma short_prefix k t key v : tfind (TShort k t) key = Some v → k `prefix_of` key.
Proof. intros (s & -> & _)%tfind_short_inv. by apply prefix_app_r. Qed.

(** Where a full node's contents are found, a short node's key has no room. *)
Lemma full_in_short p ts k u :
  ok (TFull ts) → nibbles p →
  (∀ key, hex_key key → tfind (TFull ts) key = tfind (TShort k u) (p ++ key)) → k `prefix_of` p.
Proof.
  intros Hts Hp Hs. destruct (full_two ts Hts) as (a & b & x & y & v & w & Hab & Hx & Hv & Hy & Hw).
  rewrite Hs in Hv, Hw by done. apply short_prefix in Hv, Hw. by apply (common_prefix k p a b x y).
Qed.

Lemma full_not_short ts k u : ok (TFull ts) → ok (TShort k u) → ¬ same (TFull ts) (TShort k u).
Proof.
  intros Hts Hu Hs. assert (k `prefix_of` []) as Hk.
  { eapply (full_in_short [] ts k u); [done|constructor|done]. }
  apply prefix_nil_inv in Hk as ->. inversion Hu as [ns v _ _ E| |]; [by destruct ns|done].
Qed.

Lemma leaf_not_ext k v p ts : nibbles p → ok (TFull ts) → ¬ same (TShort k (TVal v)) (TShort p (TFull ts)).
Proof.
  intros Hp Hts Hs. destruct (full_two ts Hts) as (a & b & x & y & v1 & w1 & Hab & Hx & Hv & Hy & Hw).
  assert (Hall : ∀ c z w, hex_key (c :: z) → tfind (TFull ts) (c :: z) = Some w → p ++ c :: z = k).
  { intros c z w Hz Hf. rewrite <-(tfind_short p), <-Hs in Hf by by rewrite hex_key_app.
    rewrite tfind_leaf in Hf. by destruct (decide _). }
  pose proof (Hall _ _ _ Hx Hv) as E1. pose proof (Hall _ _ _ Hy Hw) as E2.
  rewrite <-E1 in E2. apply app_inv_head in E2. congruence.
Qed.

Lemma same_child ts us b t u :
  same (TFull ts) (TFull us) → ts !! pos_of b = Some (Some t) → us !! pos_of b = Some (Some u) →
  ∀ key, hex_key (b :: key) → tfind t key = tfind u key.
Proof. intros Hs Ht Hu key Hk. specialize (Hs _ Hk). by rewrite !tfind_full, Ht, Hu in Hs. Qed.

Lemma same_none ts us i :
  ok (TFull us) → same (TFull ts) (TFull us) → ts !! i = Some None → us !! i ≠ None → us !! i = Some None.
Proof.
  intros Hus Hs Ht Hn. destruct (us !! i) as [[u|]|] eqn:Hu; [|done..].
  destruct (ok_child us i u Hus Hu) as (b & -> & Hb). destruct (child_has b u Hb) as (key & v & Hk & Hf & _).
  specialize (Hs _ Hk). rewrite !tfind_full, Ht, Hu in Hs. congruence.
Qed.

(** Two trees in minimal form with the same contents are the same tree. *)
Lemma canonical t u : ok t → ok u → same t u → t = u.
Proof.
  intros Ht. revert u. induction Ht as [ns v Hn Hv|ns ts Hn Hne Hts IH|ts Hl Hc IH Hv Htwo]; intros u Hu Hs.
  - inversion Hu as [ms w Hm Hw|ms us Hm Hme Hus|us]; subst.
    + pose proof (Hs _ (hex_key_snoc ns Hn)) as E. rewrite !tfind_leaf, decide_True in E by done.
      destruct (decide _) as [E'|]; congruence.
    + by destruct (leaf_not_ext (ns ++ [terminator]) v ms us).
    + destruct (full_not_short us (ns ++ [terminator]) (TVal v)); [done|by constructor|by apply same_sym].
  - inversion Hu as [ms w Hm Hw|ms us Hm Hme Hus|us]; subst.
    + destruct (leaf_not_ext (ms ++ [terminator]) w ns ts); [done..|by apply same_sym].
    + assert (ns = ms) as <-.
      { apply (anti_symm prefix).
        - apply (full_in_short ms us ns (TFull ts)); [done..|]. intros key Hk.
          rewrite <-(tfind_short ms). symmetry. apply Hs. by rewrite hex_key_app.
        - apply (full_in_short ns ts ms (TFull us)); [done..|]. intros key Hk.
          rewrite <-(tfind_short ns). apply Hs. by rewrite hex_key_app. }
      f_equal. apply IH; [done|]. intros key Hk.
      rewrite <-(tfind_short ns), <-(tfind_short ns (TFull us)). apply Hs. by rewrite hex_key_app.
    + destruct (full_not_short us ns (TFull ts)); [done|by constructor|by apply same_sym].
  - assert (ok (TFull ts)) as Hts by by constructor.
    destruct u as [w|k u|us]; [by inversion Hu|by destruct (full_not_short ts k u)|].
    f_equal. apply list_eq_same_length with 17%nat; [by apply ok_full_inv in Hu as [? _]|done|].
    intros i x y Hi Hx Hy. destruct x as [t|].
    2:{ pose proof (same_none ts us i Hu Hs Hx ltac:(by rewrite Hy)). congruence. }
    destruct y as [u|].
    2:{ pose proof (same_none us ts i Hts (same_sym _ _ Hs) Hy ltac:(by rewrite Hx)). congruence. }
    destruct (ok_child ts i t Hts Hx) as (b & -> & Hb).
    pose proof (same_child _ _ _ _ _ Hs Hx Hy) as Hsub. f_equal.
    destruct Hb as [[Hb Hok]|[-> Hleaf]].
    + apply (IH (pos_of b)); [by apply pos_nibble|done| |].
      * apply (proj1 (proj2 (ok_full_inv us Hu)) (pos_of b)); [by apply pos_nibble|done].
      * intros key Hk. apply Hsub. apply hex_key_cons. by right.
    + destruct (Hv t Hx) as (v & -> & _).
      destruct (proj1 (proj2 (proj2 (ok_full_inv us Hu))) u Hy) as (w & -> & _).
      specialize (Hsub [] ltac:(apply hex_key_cons; by left)). simpl in Hsub. congruence.
Qed.
