(* ===== verification/TrieRep.v ===== *)
(** * Which tree a node stands for

    The item a tree is encoded as, with large subtrees replaced by their hash;
    the node that is loaded from the database for it; and the relation [Rep]
    between the nodes of a live trie, partly loaded and with cached hashes, and
    the tree they stand for. *)
From S2P Require Import Prelude BigMath Rlp VmTypes TrieEncoding TrieNode Trie TrieTree.
Import Rlp.

Definition is_val (t : tree) : Prop := match t with TVal _ => True | _ => False end.
Definition is_hash (n : node) : Prop := match n with hashNode _ => True | _ => False end.

(** [t] is [s] or has it below. *)
Inductive part : tree → tree → Prop :=
  | part_refl t : part t t
  | part_short k t s : part t s → part (TShort k t) s
  | part_full ts i t s : ts !! i = Some (Some t) → part t s → part (TFull ts) s.

Lemma part_trans t s r : part t s → part s r → part t r.
Proof. induction 1; eauto using part. Qed.

#[export] Hint Constructors part : yoc.

Section tree_ind.
Variable P : tree → Prop.
Hypothesis HV : ∀ v, P (TVal v).
Hypothesis HS : ∀ k t, P t → P (TShort k t).
Hypothesis HF : ∀ ts, (∀ i t, ts !! i = Some (Some t) → P t) → P (TFull ts).

Fixpoint tree_ind' (t : tree) : P t :=
  match t with
  | TVal v => HV v
  | TShort k t => HS k t (tree_ind' t)
  | TFull ts =>
      HF ts ((fix go (ts : list (option tree)) : ∀ i t, ts !! i = Some (Some t) → P t :=
        match ts with
        | [] => λ i t E, match (eq_rect None (λ o, match o with None => True | _ => P t end) I _ E) with p => p end
        | c :: ts => λ i,
            match i with
            | O => λ t E, match c as c' return (Some c' = Some (Some t) → P t) with
                          | Some u => λ E, eq_ind u P (tree_ind' u) t (f_equal (λ o, match o with Some (Some x) => x | _ => u end) E)
                          | None => λ E, match (eq_rect (Some None) (λ o, match o with Some None => True | _ => P t end) I _ E) with p => p end
                          end E
            | S i => λ t E, go ts i t E
            end
        end) ts)
  end.
End tree_ind.

Section Rep.
Context `{!Crypto}.

(** ** Encoding of a tree *)

Definition compact (k : list byte) : list byte := default [] (hexToCompact k).

(** A subtree inside its parent: values and short encodings as they are, others by their hash. *)
Definition collapse (c : tree) (i : item) : item :=
  match c with
  | TVal _ => i
  | _ => if zlen (enc i) <? 32 then i else Str (Keccak256 (enc i))
  end.

Fixpoint titem (t : tree) : item :=
  match t with
  | TVal v => Str v
  | TShort k c => Lst [Str (compact k); collapse c (titem c)]
  | TFull ts => Lst (map (λ c, match c with Some c => collapse c (titem c) | None => Str [] end) ts)
  end.

Definition tenc (t : tree) : list byte := enc (titem t).
Definition thash (t : tree) : list byte := Keccak256 (tenc t).
Definition big (t : tree) : Prop := 32 <= zlen (tenc t).

(** ** The node loaded for a tree *)

Definition lref (c : tree) (n : node) : node :=
  match c with
  | TVal _ => n
  | _ => if zlen (tenc c) <? 32 then n else hashNode (thash c)
  end.

Fixpoint loaded (gen : Z) (t : tree) (h : option (list byte)) : node :=
  let fl := {| hash := h; gen := gen; dirty := false |} in
  match t with
  | TVal v => valueNode v
  | TShort k c => shortNode k (lref c (loaded gen c None)) fl
  | TFull ts =>
      fullNode (map (λ c, match c with Some c => lref c (loaded gen c None) | None => nil_node end) ts) fl
  end.

Variable db_node : Hash → Z → option node.

(** The database has the tree, and all its parts that are stored on their own. *)
Definition entry (t : tree) : Prop :=
  ∀ gen, db_node (BytesToHash (thash t)) gen = Some (loaded gen t (Some (thash t))).

Definition stored (t : tree) : Prop := ∀ s, part t s → ¬ is_val s → big s → entry s.

(** A cached hash is the hash of the tree, and a clean one is in the database.
    Below the root only large nodes have one; a clean node without is small. *)
Definition flag_ok (top : bool) (fl : nodeFlag) (t : tree) : Prop :=
  match hash fl with
  | Some h => h = thash t ∧ (top = true ∨ big t) ∧ (dirty fl = false → entry t ∧ stored t)
  | None => dirty fl = false → top = false ∧ ¬ big t
  end.

Inductive Rep : bool → node → tree → Prop :=
  | Rep_val top v : Rep top (valueNode v) (TVal v)
  | Rep_short top k n fl t :
      Rep false n t → flag_ok top fl (TShort k t) → Rep top (shortNode k n fl) (TShort k t)
  | Rep_full top cs fl ts :
      length cs = length ts →
      (∀ i c, cs !! i = Some c → ts !! i = Some None → c = nil_node) →
      (∀ i c t, cs !! i = Some c → ts !! i = Some (Some t) → Rep false c t) →
      flag_ok top fl (TFull ts) →
      Rep top (fullNode cs fl) (TFull ts)
  | Rep_hash top t :
      ¬ is_val t → (top = true ∨ big t) → entry t → stored t → Rep top (hashNode (thash t)) t.

(** A child of a full node and its tree. *)
Definition slot (c : node) (ot : option tree) : Prop :=
  match ot with Some t => Rep false c t | None => c = nil_node end.

Lemma Rep_slots top cs fl ts :
  length cs = length ts → (∀ i c ot, cs !! i = Some c → ts !! i = Some ot → slot c ot) →
  flag_ok top fl (TFull ts) → Rep top (fullNode cs fl) (TFull ts).
Proof.
  intros Hl Hs Hf. constructor; [done| | |done].
  - intros i c Hc Ht. exact (Hs i c None Hc Ht).
  - intros i c t Hc Ht. exact (Hs i c (Some t) Hc Ht).
Qed.

Lemma Rep_full_inv top cs fl ts :
  Rep top (fullNode cs fl) (TFull ts) →
  length cs = length ts ∧ (∀ i c ot, cs !! i = Some c → ts !! i = Some ot → slot c ot) ∧
  flag_ok top fl (TFull ts).
Proof.
  inversion 1 as [| |? ? ? ? Hl Hn Hs Hf|]; subst. split_and!; [done| |done].
  intros i c [t|] Hc Ht; [by eapply Hs|by eapply Hn].
Qed.

Lemma Rep_new top k n gen t :
  Rep false n t → Rep top (shortNode k n (newFlag gen)) (TShort k t).
Proof. intros Hr. by constructor. Qed.

Lemma Rep_full_new top cs gen ts :
  length cs = length ts → (∀ i c ot, cs !! i = Some c → ts !! i = Some ot → slot c ot) →
  Rep top (fullNode cs (newFlag gen)) (TFull ts).
Proof. intros. by apply Rep_slots. Qed.

(** A node that is not a reference has the shape of its tree. *)
Lemma Rep_shape top n t :
  Rep top n t → ¬ is_hash n →
  match t with
  | TVal v => n = valueNode v
  | TShort k c => ∃ m fl, n = shortNode k m fl ∧ Rep false m c ∧ flag_ok top fl t
  | TFull ts => ∃ cs fl, n = fullNode cs fl
  end.
Proof. inversion 1; subst; intros Hh; [done|eauto..|by destruct Hh]. Qed.

Lemma Rep_not_nil top n t : Rep top n t → n ≠ nil_node.
Proof. by inversion 1. Qed.

Lemma stored_part t s : stored t → part t s → stored s.
Proof. intros Hs Hp r Hr. apply Hs. by eapply part_trans. Qed.

(** The hash a loaded node comes with. *)
Definition load_ok (top : bool) (h : option (list byte)) (t : tree) : Prop :=
  match h with
  | Some h => h = thash t ∧ (top = true ∨ big t) ∧ entry t
  | None => is_val t ∨ top = false ∧ ¬ big t
  end.

Lemma load_flag top h gen t :
  load_ok top h t → ¬ is_val t → stored t → flag_ok top {| hash := h; gen := gen; dirty := false |} t.
Proof.
  unfold flag_ok, load_ok. cbn. destruct h; [naive_solver|]. intros [?|?]; [done|auto].
Qed.

Lemma lref_cases c n :
  ¬ is_val c → (zlen (tenc c) < 32 ∧ lref c n = n) ∨ (big c ∧ lref c n = hashNode (thash c)).
Proof.
  intros Hc. unfold big. destruct c as [v|k c|ts]; [by destruct Hc|..]; unfold lref;
    [destruct (Z.ltb_spec (zlen (tenc (TShort k c))) 32)|destruct (Z.ltb_spec (zlen (tenc (TFull ts))) 32)]; auto.
Qed.

Lemma is_val_dec t : is_val t ∨ ¬ is_val t.
Proof. destruct t; cbn; auto. Qed.

Lemma Rep_loaded gen t : ∀ top h, stored t → load_ok top h t → Rep top (loaded gen t h) t.
Proof.
  assert (Href : ∀ c, (∀ top h, stored c → load_ok top h c → Rep top (loaded gen c h) c) →
                       stored c → Rep false (lref c (loaded gen c None)) c).
  { intros c IH Hs. destruct (is_val_dec c) as [Hv|Hv].
    { destruct c; [|done..]. constructor. }
    destruct (lref_cases c (loaded gen c None) Hv) as [[Hsm ->]|[Hb ->]].
    - apply IH; [done|]. right. split; [done|]. unfold big. lia.
    - apply Rep_hash; [done|by right| |done]. by apply Hs; [apply part_refl|..]. }
  induction t as [v|k c IH|ts IH] using tree_ind'; intros top h Hs Hh; cbn [loaded].
  - constructor.
  - constructor; [apply Href; [done|]|].
    + by eapply stored_part; [|apply part_short, part_refl].
    + by apply load_flag; [|intros []|].
  - apply Rep_slots; [by rewrite length_map| |by apply load_flag; [|intros []|]].
    intros i c ot Hc Ht. change (map ?f ts) with (f <$> ts) in Hc.
    rewrite list_lookup_fmap, Ht in Hc. injection Hc as <-.
    destruct ot as [t|]; [|done]. apply (Href t); [by apply (IH i)|].
    by eapply stored_part; [|eapply part_full; [exact Ht|apply part_refl]].
Qed.

(** Loading the node a reference stands for. *)
Lemma resolve_rep top n t gen prefix :
  Rep top n t → is_hash n →
  ∃ h m, n = hashNode h ∧ resolveHash db_node gen h prefix = Some (inl m) ∧ ¬ is_hash m ∧ Rep top m t.
Proof.
  inversion 1 as [| | |top' t' Hv Hb He Hs]; subst; intros Hh; [done..|].
  exists (thash t), (loaded gen t (Some (thash t))). split_and!; [done| | |].
  - unfold resolveHash. rewrite (He gen). by destruct t.
  - destruct t; cbn; auto.
  - by apply Rep_loaded.
Qed.
End Rep.
