(* ===== verification/TrieOps.v ===== *)
(** * The operations of the trie

    Looking up finds what the tree holds; inserting and deleting lead to a tree
    in minimal form with the value added or removed.  None of them panics or
    runs out of fuel, whatever part of the trie has been loaded. *)
From S2P Require Import Prelude BigMath Rlp VmTypes TrieEncoding TrieNode Trie TrieTree TrieRep.

(** Goes on behind a call that has returned. *)
Ltac tr_step := cbn [at_index fmap option_fmap option_map mbind TR_bind].

Lemma is_hash_dec n : is_hash n ∨ ¬ is_hash n.
Proof. destruct n; simpl; auto. Qed.

Section Ops.
Context `{!Crypto} (db_node : Hash → Z → option node) (gen : Z).

Notation Rep := (Rep db_node).
Notation resolveHash := (resolveHash db_node gen).

(** ** Looking up *)

Definition gets_to (r : TR (list byte * node * bool)) (top : bool) (t : tree) (v : list byte) : Prop :=
  ∃ n' d, r = Some (inl (v, n', d)) ∧ Rep top n' t.

Definition get_spec (t : tree) (any : bool) : Prop := ∀ fuel top n key pos,
  Rep top n t → (any = false → ¬ is_hash n) → hex_key (drop pos key) →
  (2 * length (drop pos key) + (if any then 2 else 1) <= fuel)%nat →
  gets_to (tryGet db_node gen fuel n key pos) top t (default [] (tfind t (drop pos key))).

Lemma get_any t : get_spec t false → get_spec t true.
Proof.
  intros IH fuel top n key pos Hr _ Hk Hf. cbv iota in Hf.
  destruct (is_hash_dec n) as [Hh|Hh]; [|apply IH; [done..|cbv iota; lia]].
  destruct (resolve_rep db_node top n t gen (take pos key) Hr Hh) as (h & m & -> & Hres & Hm & Hrm).
  destruct fuel as [|fuel]; [lia|]. cbn [tryGet]. rewrite Hres. tr_step.
  destruct (IH fuel top m key pos Hrm ltac:(done) Hk ltac:(cbv iota; lia)) as (n' & d & -> & Hn'). by exists n', true.
Qed.

Lemma get_value fuel top n v key pos :
  Rep top n (TVal v) → (0 < fuel)%nat → gets_to (tryGet db_node gen fuel n key pos) top (TVal v) v.
Proof.
  intros Hr Hf. destruct fuel; [lia|]. inversion Hr as [| | |? ? Hv]; subst; [|by destruct Hv].
  exists (valueNode v), false. split; [done|constructor].
Qed.

Lemma flag_ok_touch top fl t : flag_ok db_node top fl t → flag_ok db_node top (touch gen fl) t.
Proof. done. Qed.

Lemma get_short fuel top k m fl c key pos :
  k ≠ [] → flag_ok db_node top fl (TShort k c) → Rep false m c →
  (∀ s, drop pos key = k ++ s → gets_to (tryGet db_node gen fuel m key (pos + length k)) false c (default [] (tfind c s))) →
  gets_to (tryGet db_node gen (S fuel) (shortNode k m fl) key pos) top (TShort k c)
    (default [] (tfind (TShort k c) (drop pos key))).
Proof.
  intros Hne Hfl Hm IH. cbn [tryGet]. destruct (decide (k `prefix_of` drop pos key)) as [[s Hs]|Hn].
  - assert ((length key <? pos + length k)%nat || negb (bool_decide (k = take (length k) (drop pos key))) = false) as ->.
    { apply orb_false_iff. rewrite Hs, take_app_length, bool_decide_eq_true_2 by done. split; [|done].
      apply (f_equal length) in Hs. rewrite length_drop, length_app in Hs. apply Nat.ltb_ge.
      destruct k; [done|]. simpl in *. lia. }
    destruct (IH s Hs) as (n' & d & -> & Hn'). rewrite Hs, tfind_short. tr_step.
    destruct d; [exists (shortNode k n' (touch gen fl)), true|exists (shortNode k m fl), false];
      (split; [done|by constructor]).
  - rewrite tfind_short_none by done.
    assert ((length key <? pos + length k)%nat || negb (bool_decide (k = take (length k) (drop pos key))) = true) as ->.
    { apply orb_true_iff. right. rewrite bool_decide_eq_false_2; [done|]. intros E. apply Hn.
      exists (drop (length k) (drop pos key)). by rewrite E at 1; rewrite take_drop. }
    exists (shortNode k m fl), false. split; [done|by constructor].
Qed.

Lemma get_slot fuel b c ot key pos :
  slot db_node c ot → (∀ t, ot = Some t → child_ok b t ∧ (nibble b → get_spec t true)) →
  hex_key (b :: drop (S pos) key) → (2 * length (drop (S pos) key) + 2 <= fuel)%nat →
  ∃ n' d, tryGet db_node gen fuel c key (S pos) =
            Some (inl (default [] (t ← ot; tfind t (drop (S pos) key)), n', d)) ∧ slot db_node n' ot.
Proof.
  intros Hc Ht Hk Hf. destruct ot as [t|]; cbn [slot mbind option_bind] in *.
  - destruct (Ht t eq_refl) as [[[Hb Hok]|[-> (v & -> & _)]] IH].
    + apply (IH Hb); [done..| |done]. apply hex_key_cons in Hk as [[-> _]|[_ ?]]; [|done].
      by apply nibble_not_term in Hb.
    + apply hex_key_cons in Hk as [[_ ->]|[Hb _]]; [|by apply nibble_not_term in Hb].
      apply get_value; [done|lia].
  - subst c. destruct fuel; [lia|]. by exists nil_node, false.
Qed.

Lemma slot_set (cs : list node) (ts : list (option tree)) (i : nat) c ot :
  (∀ i c ot, cs !! i = Some c → ts !! i = Some ot → slot db_node c ot) → slot db_node c ot →
  ∀ j c' ot', <[i:=c]> cs !! j = Some c' → <[i:=ot]> ts !! j = Some ot' → slot db_node c' ot'.
Proof.
  intros Hs Hc j c' ot' Hj Ht. destruct (decide (i = j)) as [<-|Hij].
  - apply list_lookup_insert_Some in Hj as [(_ & <- & _)|[? _]]; [|done].
    apply list_lookup_insert_Some in Ht as [(_ & <- & _)|[? _]]; [|done]. done.
  - rewrite list_lookup_insert_ne in Hj by done. rewrite list_lookup_insert_ne in Ht by done. by eapply Hs.
Qed.

Lemma set_child_ok cs b c :
  length cs = 17%nat → key_byte b → set_child cs b c = Some (inl (<[pos_of b := c]> cs)).
Proof.
  intros Hl Hb. unfold set_child. rewrite (proj2 (Nat.ltb_lt _ _)); [done|].
  rewrite Hl. by apply pos_key_byte.
Qed.

Lemma drop_cons key pos (b : byte) s : drop pos key = b :: s → key !! pos = Some b ∧ drop (S pos) key = s.
Proof.
  intros E. split.
  - rewrite <-(Nat.add_0_r pos), <-lookup_drop, E. done.
  - rewrite <-Nat.add_1_r, <-drop_drop, E. done.
Qed.

Lemma get_ok t : ok t → get_spec t false.
Proof.
  induction 1 as [ns v Hn Hv|ns ts Hn Hne Hok IH|ts Hl Hc IH Hv Htwo];
    intros fuel top n key pos Hr Hh Hk Hf; (destruct fuel as [|fuel]; [lia|]).
  - destruct (Rep_shape db_node _ _ _ Hr (Hh eq_refl)) as (m & fl & -> & Hm & Hfl).
    apply get_short; [by destruct ns|done..|]. intros s Hs. rewrite tfind_val.
    rewrite Hs in Hk. apply hex_key_prefix in Hk as ->; [|by apply hex_key_snoc].
    apply get_value; [done|]. rewrite Hs, app_nil_r, length_app in Hf. simpl in Hf. lia.
  - destruct (Rep_shape db_node _ _ _ Hr (Hh eq_refl)) as (m & fl & -> & Hm & Hfl).
    apply get_short; [done..|]. intros s Hs.
    assert (drop (pos + length ns) key = s) as Hd by (rewrite <-drop_drop, Hs; apply drop_app_length).
    rewrite <-Hd. apply (get_any _ IH); [done..| |].
    + rewrite Hd. rewrite Hs in Hk. by apply hex_key_app in Hk.
    + rewrite Hd. rewrite Hs, length_app in Hf. destruct ns; [done|]. simpl in *. lia.
  - destruct (Rep_shape db_node _ _ _ Hr (Hh eq_refl)) as (cs & fl & ->).
    destruct (Rep_full_inv db_node _ _ _ _ Hr) as (Hlen & Hslots & Hfl).
    destruct (drop pos key) as [|b s] eqn:E; [by apply hex_key_nil in Hk|].
    destruct (drop_cons key pos b s E) as [Hb <-]. pose proof (hex_key_byte b _ Hk) as Hkb.
    destruct (lookup_lt_is_Some_2 ts (pos_of b)) as [ot Hot]; [rewrite Hl; by apply pos_key_byte|].
    destruct (lookup_lt_is_Some_2 cs (pos_of b)) as [c Hcc]; [rewrite Hlen, Hl; by apply pos_key_byte|].
    assert (ok (TFull ts)) as Hok by by constructor.
    destruct (get_slot fuel b c ot key pos (Hslots _ _ _ Hcc Hot)) as (n' & d & Hget & Hn');
      [|done|simpl in Hf; lia|].
    { intros t ->. split; [by eapply ok_child_at|]. intros Hnb.
      apply get_any, (IH (pos_of b)); [by apply pos_nibble|done]. }
    cbn [tryGet]. rewrite Hb. tr_step.
    rewrite Hcc. tr_step. rewrite Hget. tr_step.
    rewrite tfind_full, Hot.
    assert (default [] (t ← ot; tfind t (drop (S pos) key)) =
      default [] match ot with Some t => tfind t (drop (S pos) key) | None => None end) as -> by by destruct ot.
    destruct d; [|by eexists _, _; split].
    rewrite set_child_ok by (done || congruence). eexists _, _. split; [done|].
    apply Rep_slots; [by rewrite length_insert| |by apply flag_ok_touch].
    rewrite <-(list_insert_id ts (pos_of b) ot) by done. by apply slot_set.
Qed.

(** ** Inserting *)

(** A subtree below a key that may be empty. *)
Definition mk (r : list byte) (t : tree) : tree := match r with [] => t | _ => TShort r t end.
Definition mkn (r : list byte) (n : node) : node := match r with [] => n | _ => shortNode r n (newFlag gen) end.

Lemma mk_rep r n t : Rep false n t → Rep false (mkn r n) (mk r t).
Proof. intros Hn. destruct r; [done|]. by apply Rep_new. Qed.

Lemma tfind_mk r t s : tfind (mk r t) (r ++ s) = tfind t s.
Proof. destruct r; [done|]. apply tfind_short. Qed.

Lemma tfind_mk_none r t key : ¬ r `prefix_of` key → tfind (mk r t) key = None.
Proof. destruct r; [|apply tfind_short_none]. intros []. apply prefix_nil. Qed.

Lemma insert_nil fuel prefix r value :
  (0 < fuel)%nat → insert db_node gen fuel nil_node prefix r value = Some (inl (true, mkn r value)).
Proof. intros Hf. destruct fuel; [lia|]. by destruct r. Qed.

Lemma leaf_child b s v : hex_key (b :: s) → v ≠ [] → child_ok b (mk s (TVal v)).
Proof.
  intros Hk Hv. apply hex_key_cons in Hk as [[-> ->]|[Hb Hs]].
  - right. split; [done|]. by exists v.
  - left. split; [done|]. destruct Hs as (ns & Hn & ->).
    assert (mk (ns ++ [terminator]) (TVal v) = TShort (ns ++ [terminator]) (TVal v)) as -> by by destruct ns.
    by constructor.
Qed.

(** What is left of a short node below the point where a key leaves it. *)
Lemma rest_child p a r c : ok (TShort (p ++ a :: r) c) → child_ok a (mk r c).
Proof.
  inversion 1 as [ns v Hn Hv E|ns ts Hn Hne Hok E|]; subst.
  - apply leaf_child; [|done].
    assert (hex_key (p ++ a :: r)) as Hk by (rewrite <-E; by apply hex_key_snoc).
    assert (nibbles p) as Hp.
    { destruct (exists_last (l := a :: r)) as (x & y & E'); [done|]. rewrite E', app_assoc in E.
      apply app_inj_tail in E as [-> _]. by apply Forall_app in Hn as [? _]. }
    by apply hex_key_app in Hk.
  - apply Forall_app in Hn as [_ Hn]. apply Forall_cons_1 in Hn as [Ha Hr]. left. split; [done|].
    destruct r; [done|]. by constructor.
Qed.

Definition tbranch (a : byte) (t : tree) (b : byte) (u : tree) : list (option tree) :=
  <[pos_of b := Some u]> (<[pos_of a := Some t]> (replicate 17 None)).

Lemma tbranch_lookup a t b u i :
  key_byte a → key_byte b → a ≠ b → (i < 17)%nat →
  tbranch a t b u !! i =
    Some (if decide (i = pos_of b) then Some u else if decide (i = pos_of a) then Some t else None).
Proof.
  intros Ha Hb Hab Hi. unfold tbranch. pose proof (pos_key_byte a Ha). pose proof (pos_key_byte b Hb).
  destruct (decide (i = pos_of b)) as [->|Hib].
  { apply list_lookup_insert_eq. rewrite length_insert, length_replicate. lia. }
  rewrite list_lookup_insert_ne by done. destruct (decide (i = pos_of a)) as [->|Hia].
  { apply list_lookup_insert_eq. rewrite length_replicate. lia. }
  rewrite list_lookup_insert_ne by done. by apply lookup_replicate_2.
Qed.

Lemma child_ok_byte b t : child_ok b t → key_byte b.
Proof. intros [[? _]|[-> _]]; [by left|by right]. Qed.

Lemma branch_ok a t b u : a ≠ b → child_ok a t → child_ok b u → ok (TFull (tbranch a t b u)).
Proof.
  intros Hab Ht Hu. pose proof (child_ok_byte _ _ Ht) as Ha. pose proof (child_ok_byte _ _ Hu) as Hb.
  assert (Hchild : ∀ i x, (i < 17)%nat → tbranch a t b u !! i = Some (Some x) → ∃ c, i = pos_of c ∧ child_ok c x).
  { intros i x Hi. rewrite tbranch_lookup by done. intros E. injection E as E.
    destruct (decide (i = pos_of b)) as [->|]; [simplify_eq; eauto|].
    destruct (decide (i = pos_of a)) as [->|]; [simplify_eq; eauto|done]. }
  constructor.
  - unfold tbranch. by rewrite !length_insert, length_replicate.
  - intros i x Hi Hx. destruct (Hchild i x ltac:(lia) Hx) as (c & -> & [[_ ?]|[-> _]]); [done|].
    rewrite pos_term in Hi. lia.
  - intros x Hx. destruct (Hchild 16%nat x ltac:(lia) Hx) as (c & E & [[Hc _]|[_ ?]]); [|done].
    apply pos_nibble in Hc. lia.
  - exists (pos_of a), (pos_of b), t, u. split; [by intros E%pos_inj|].
    rewrite !tbranch_lookup by auto using pos_key_byte. rewrite (decide_True (P := pos_of b = pos_of b)) by done.
    rewrite (decide_False (P := pos_of a = pos_of b)) by (by intros E%pos_inj). by rewrite decide_True.
Qed.

Lemma tfind_branch a t b u c key :
  key_byte a → key_byte b → a ≠ b → key_byte c →
  tfind (TFull (tbranch a t b u)) (c :: key) =
    if decide (c = b) then tfind u key else if decide (c = a) then tfind t key else None.
Proof.
  intros Ha Hb Hab Hc. rewrite tfind_full, tbranch_lookup by auto using pos_key_byte.
  destruct (decide (c = b)) as [->|Hcb]; [by rewrite decide_True|].
  rewrite decide_False by by intros E%pos_inj.
  destruct (decide (c = a)) as [->|Hca]; [by rewrite decide_True|].
  rewrite decide_False by by intros E%pos_inj. done.
Qed.

(** [t'] holds [v] under [key], and otherwise what [f] says. *)
Definition adds (t' : tree) (f : list byte → option (list byte)) (key v : list byte) (pre : list byte) : Prop :=
  ∀ k, hex_key (pre ++ k) → tfind t' k = if decide (k = key) then Some v else f k.

Definition inserted (r : TR (bool * node)) (top : bool) (t : tree) (key v : list byte) : Prop :=
  ∃ d n', r = Some (inl (d, n')) ∧
    if (d : bool) then ∃ t', ok t' ∧ Rep top n' t' ∧ adds t' (tfind t) key v [] ∧ (is_full t → is_full t')
    else Rep top n' t ∧ tfind t key = Some v.

Definition insert_spec (t : tree) (any : bool) : Prop := ∀ fuel top n prefix key v,
  Rep top n t → (any = false → ¬ is_hash n) → hex_key key → v ≠ [] →
  (2 * length key + (if any then 2 else 1) <= fuel)%nat →
  inserted (insert db_node gen fuel n prefix key (valueNode v)) top t key v.

Lemma insert_any t : insert_spec t false → insert_spec t true.
Proof.
  intros IH fuel top n prefix key v Hr _ Hk Hv Hf. cbv iota in Hf.
  destruct (is_hash_dec n) as [Hh|Hh]; [|apply IH; [done..|cbv iota; lia]].
  destruct (resolve_rep db_node top n t gen prefix Hr Hh) as (h & m & -> & Hres & Hm & Hrm).
  destruct fuel as [|fuel]; [lia|]. destruct key as [|k0 ks]; [by apply hex_key_nil in Hk|].
  cbn [insert]. rewrite Hres. tr_step.
  destruct (IH fuel top m prefix (k0 :: ks) v Hrm ltac:(done) Hk Hv ltac:(cbv iota; lia)) as ([] & n' & -> & Hn');
    tr_step; [by exists true, n'|]. exists false, m. split; [done|]. by split; [|apply Hn'].
Qed.

(** Below a full node, at the byte [b]. *)
Definition slot_inserted (r : TR (bool * node)) (b : byte) (ot : option tree) (s v : list byte) : Prop :=
  ∃ d n', r = Some (inl (d, n')) ∧
    if (d : bool) then ∃ t', child_ok b t' ∧ Rep false n' t' ∧ adds t' (λ k, t ← ot; tfind t k) s v [b]
    else (t ← ot; tfind t s) = Some v.

Lemma insert_value fuel w prefix v :
  (0 < fuel)%nat → v ≠ [] →
  ∃ d, insert db_node gen fuel (valueNode w) prefix [] (valueNode v) = Some (inl (d, valueNode v)) ∧
       (d = false → w = v).
Proof.
  intros Hf Hv. destruct fuel; [lia|]. cbn [insert]. eexists. split; [done|].
  case_bool_decide; done.
Qed.

Lemma insert_slot fuel b c ot prefix s v :
  slot db_node c ot → (∀ t, ot = Some t → child_ok b t ∧ (nibble b → insert_spec t true)) →
  hex_key (b :: s) → v ≠ [] → (2 * length s + 2 <= fuel)%nat →
  slot_inserted (insert db_node gen fuel c prefix s (valueNode v)) b ot s v.
Proof.
  intros Hc Ht Hk Hv Hf. destruct ot as [t|]; cbn [slot] in Hc.
  - destruct (Ht t eq_refl) as [[[Hb Hok]|[-> (w & -> & _)]] IH].
    + apply hex_key_cons in Hk as [[-> _]|[_ Hs]]; [by apply nibble_not_term in Hb|].
      destruct (IH Hb fuel false c prefix s v Hc ltac:(done) Hs Hv Hf) as (d & n' & -> & Hd).
      exists d, n'. split; [done|]. destruct d; [|by destruct Hd].
      destruct Hd as (t' & Hok' & Hr' & Ha & _). exists t'. split_and!; [by left|done|].
      intros k Hk. apply Ha. cbn [app] in Hk. apply hex_key_cons in Hk as [[-> _]|[_ ?]]; [|done].
      by apply nibble_not_term in Hb.
    + apply hex_key_cons in Hk as [[_ ->]|[Hb _]]; [|by apply nibble_not_term in Hb].
      inversion Hc as [| | |? ? Hnv]; subst; [|by destruct Hnv].
      destruct (insert_value fuel w prefix v ltac:(lia) Hv) as (d & -> & Hd).
      exists d, (valueNode v). split; [done|]. destruct d; [|by rewrite Hd].
      exists (TVal v). split_and!; [right; split; [done|by exists v]|constructor|].
      intros k Hk. cbn [app] in Hk. apply hex_key_cons in Hk as [[_ ->]|[Hb _]]; [done|].
      by apply nibble_not_term in Hb.
  - subst c. rewrite insert_nil by lia. exists true, (mkn s (valueNode v)). split; [done|].
    exists (mk s (TVal v)). split_and!; [by apply leaf_child|by apply mk_rep; constructor|].
    intros k Hk'. destruct (decide (k = s)) as [->|Hne].
    + rewrite <-(app_nil_r s) at 2. by rewrite tfind_mk.
    + destruct s as [|c s]; [by destruct k|]. cbn [mk]. rewrite tfind_leaf. by rewrite decide_False.
Qed.

Lemma set_full ts b t' :
  ok (TFull ts) → key_byte b → child_ok b t' → ok (TFull (<[pos_of b := Some t']> ts)).
Proof.
  intros Hok Hb Ht'. destruct (ok_full_inv ts Hok) as (Hl & Hc & Hv & i & j & t1 & u1 & Hij & Hi & Hj).
  assert (pos_of b < length ts)%nat as Hlt by (rewrite Hl; by apply pos_key_byte).
  constructor.
  - by rewrite length_insert.
  - intros k x Hk Hx. destruct (decide (pos_of b = k)) as [<-|Hn].
    + rewrite list_lookup_insert_eq in Hx by done. simplify_eq.
      destruct Ht' as [[_ ?]|[-> _]]; [done|]. rewrite pos_term in Hk. lia.
    + rewrite list_lookup_insert_ne in Hx by done. by apply (Hc k).
  - intros x Hx. destruct (decide (pos_of b = 16%nat)) as [Hb16|Hn].
    + rewrite Hb16, list_lookup_insert_eq in Hx by (by rewrite <-Hb16). simplify_eq.
      destruct Ht' as [[Hnb _]|[_ ?]]; [|done]. apply pos_nibble in Hnb. lia.
    + rewrite list_lookup_insert_ne in Hx by done. by apply Hv.
  - assert (Hsome : ∀ k x, ts !! k = Some (Some x) → ∃ y, <[pos_of b := Some t']> ts !! k = Some (Some y)).
    { intros k x Hx. destruct (decide (pos_of b = k)) as [<-|Hn].
      - rewrite list_lookup_insert_eq by done. eauto.
      - rewrite list_lookup_insert_ne by done. eauto. }
    destruct (Hsome i t1 Hi) as [y1 H1]. destruct (Hsome j u1 Hj) as [y2 H2]. exists i, j, y1, y2. done.
Qed.

Lemma tfind_set ts b t' c k :
  key_byte b → length ts = 17%nat →
  tfind (TFull (<[pos_of b := Some t']> ts)) (c :: k) =
    if decide (c = b) then tfind t' k else tfind (TFull ts) (c :: k).
Proof.
  intros Hb Hl. rewrite !tfind_full. destruct (decide (c = b)) as [->|Hn].
  - rewrite list_lookup_insert_eq; [done|]. rewrite Hl. by apply pos_key_byte.
  - rewrite list_lookup_insert_ne by (by intros E%pos_inj). done.
Qed.

(** Where a key leaves the key of a short node. *)
Lemma split_key k c key :
  ok (TShort k c) → hex_key key → prefixLen key k ≠ length k →
  ∃ p a r b s, k = p ++ a :: r ∧ key = p ++ b :: s ∧ a ≠ b ∧ prefixLen key k = length p.
Proof.
  intros Hok Hk Hne. destruct (prefixLen_split key k) as (Ht & Hlk & Hlk' & Hd).
  set (m := prefixLen key k) in *.
  destruct (lookup_lt_is_Some_2 k m) as [a Ha]; [lia|].
  assert (m < length key)%nat as Hlt.
  { destruct (decide (m = length key)) as [E|]; [exfalso|lia].
    rewrite E, firstn_all in Ht. assert (k = key ++ drop (length key) k) as Ek by (rewrite Ht at 1; by rewrite take_drop).
    inversion Hok as [ns v Hn _ E1|ns ts Hn _ _ E1|]; subst.
    - apply (hex_key_prefix key (drop (length key) (ns ++ [terminator]))) in Hk as Hnil;
        [|rewrite <-Ek; by apply hex_key_snoc].
      rewrite Hnil, app_nil_r in Ek. rewrite Ek in Hne. apply Hne. rewrite <-Ek. fold m. by rewrite E, Ek.
    - rewrite Ek in Hn. by apply (nibbles_not_key key (drop (length key) k)). }
  destruct (lookup_lt_is_Some_2 key m Hlt) as [b Hb].
  exists (take m key), a, (drop (S m) k), b, (drop (S m) key). split_and!.
  - rewrite Ht. by rewrite take_drop_middle.
  - by rewrite take_drop_middle.
  - intros ->. by apply (Hd b b).
  - rewrite length_take. lia.
Qed.

Lemma prefixLen_app k s : prefixLen (k ++ s) k = length k.
Proof. induction k as [|b k IH]; simpl; [by destruct s|]. by rewrite bool_decide_eq_true_2, IH. Qed.

Lemma prefixLen_prefix key k : prefixLen key k = length k → ∃ s, key = k ++ s.
Proof.
  intros E. destruct (prefixLen_split key k) as (Ht & _). rewrite E, firstn_all in Ht.
  exists (drop (length k) key). by rewrite <-Ht at 1; rewrite take_drop.
Qed.

Lemma hex_key_front p b s : hex_key (p ++ b :: s) → nibbles p ∧ hex_key (b :: s).
Proof.
  intros (ns & Hn & E). destruct (exists_last (l := b :: s)) as (x & y & E'); [done|].
  rewrite E', app_assoc in E. apply app_inj_tail in E as [<- ->]. apply Forall_app in Hn as [Hp Hx].
  split; [done|]. rewrite E'. by exists x.
Qed.

Lemma prefix_middle (p : list byte) a r x z : p ++ a :: r `prefix_of` p ++ x :: z ↔ a = x ∧ r `prefix_of` z.
Proof.
  split.
  - intros Hp%prefix_app_inv. split; [by eapply prefix_cons_inv_1|by eapply prefix_cons_inv_2].
  - intros [-> ?]. by apply prefix_app, prefix_cons.
Qed.

Lemma tfind_short_split p a r c x z :
  tfind (TShort (p ++ a :: r) c) (p ++ x :: z) = if decide (x = a) then tfind (mk r c) z else None.
Proof.
  destruct (decide (x = a)) as [->|Hne].
  - destruct (decide (r `prefix_of` z)) as [[y ->]|Hn].
    + rewrite app_comm_cons, app_assoc, tfind_short, tfind_mk. done.
    + rewrite tfind_mk_none by done. apply tfind_short_none. by rewrite prefix_middle; intros [].
  - apply tfind_short_none. rewrite prefix_middle. intros []. congruence.
Qed.

Definition split_tree (p : list byte) a r c b s v : tree :=
  mk p (TFull (tbranch a (mk r c) b (mk s (TVal v)))).

Lemma split_tree_ok p a r c b s v :
  ok (TShort (p ++ a :: r) c) → hex_key (p ++ b :: s) → a ≠ b → v ≠ [] → ok (split_tree p a r c b s v).
Proof.
  intros Hok Hk Hab Hv. apply hex_key_front in Hk as [Hp Hbs].
  assert (ok (TFull (tbranch a (mk r c) b (mk s (TVal v))))) as Hb.
  { apply branch_ok; [done|by eapply rest_child|by apply leaf_child]. }
  unfold split_tree. destruct p; [done|]. by constructor.
Qed.

Lemma split_tree_adds p a r c b s v :
  ok (TShort (p ++ a :: r) c) → hex_key (p ++ b :: s) → a ≠ b → v ≠ [] →
  adds (split_tree p a r c b s v) (tfind (TShort (p ++ a :: r) c)) (p ++ b :: s) v [].
Proof.
  intros Hok Hk Hab Hv k' Hk'. cbn [app] in Hk'. unfold split_tree.
  destruct (hex_key_front p b s Hk) as [Hp Hbs]. pose proof (child_ok_byte _ _ (rest_child p a r c Hok)) as Ha.
  destruct (decide (p `prefix_of` k')) as [[y ->]|Hn].
  2:{ rewrite tfind_mk_none by done. rewrite decide_False; [|by intros ->; apply Hn, prefix_app_r].
      rewrite tfind_short_none; [done|]. intros [y ->]. apply Hn. rewrite <-app_assoc. by apply prefix_app_r. }
  apply hex_key_app in Hk'; [|done]. destruct y as [|x z]; [by apply hex_key_nil in Hk'|].
  pose proof (hex_key_byte x z Hk') as Hx. pose proof (hex_key_byte b s Hbs) as Hb.
  rewrite tfind_mk, tfind_branch, tfind_short_split by done.
  destruct (decide (x = b)) as [->|Hxb].
  - rewrite (decide_False (P := b = a)) by congruence. destruct s as [|s0 s].
    + cbn [mk]. rewrite tfind_val. case_bool_decide as Hz; [subst; by rewrite decide_True|].
      rewrite decide_False; [done|]. intros E%app_inv_head. congruence.
    + cbn [mk]. rewrite tfind_leaf. destruct (decide (z = s0 :: s)) as [->|Hz]; [by rewrite decide_True|].
      rewrite decide_False; [done|]. intros E%app_inv_head. congruence.
  - rewrite (decide_False (P := p ++ x :: z = p ++ b :: s)) by (intros E%app_inv_head; congruence).
    destruct (decide (x = a)) as [->|]; done.
Qed.

Lemma branch_rep top a m t b m' u :
  key_byte a → key_byte b → Rep false m t → Rep false m' u →
  Rep top (fullNode (<[pos_of b := m']> (<[pos_of a := m]> no_children)) (newFlag gen)) (TFull (tbranch a t b u)).
Proof.
  intros Ha Hb Hm Hm'. unfold tbranch. apply Rep_full_new; [by rewrite !length_insert|].
  apply slot_set; [|done]. apply slot_set; [|done].
  intros i c ot Hc Ht. apply lookup_replicate_1 in Hc as [-> _]. apply lookup_replicate_1 in Ht as [-> _]. done.
Qed.

Lemma insert_split fuel top k m fl c prefix key v :
  ok (TShort k c) → Rep false m c → hex_key key → v ≠ [] → prefixLen key k ≠ length k → (0 < fuel)%nat →
  inserted (insert db_node gen (S fuel) (shortNode k m fl) prefix key (valueNode v)) top (TShort k c) key v.
Proof.
  intros Hok Hm Hk Hv Hne Hf. destruct (split_key k c key Hok Hk Hne) as (p & a & r & b & s & -> & -> & Hab & Hlen).
  pose proof (child_ok_byte _ _ (rest_child p a r c Hok)) as Ha.
  destruct (hex_key_front p b s Hk) as [Hp Hbs]. pose proof (hex_key_byte b s Hbs) as Hb.
  assert (Hkey : ∃ k0 ks, p ++ b :: s = k0 :: ks) by (destruct p; eauto). destruct Hkey as (k0 & ks & Ekey).
  cbn [insert]. rewrite Ekey. cbv iota. rewrite <-Ekey. rewrite (proj2 (Nat.eqb_neq _ _) Hne), Hlen.
  assert (∀ (l : list byte) x y, (l ++ x :: y) !! length l = Some x ∧ drop (S (length l)) (l ++ x :: y) = y) as Hmid.
  { intros l x y. split; [by apply list_lookup_middle|]. by rewrite <-Nat.add_1_r, <-drop_drop, drop_app_length. }
  rewrite (proj1 (Hmid p a r)), (proj1 (Hmid p b s)), (proj2 (Hmid p a r)), (proj2 (Hmid p b s)).
  tr_step. rewrite !insert_nil by done. tr_step. rewrite set_child_ok by done. tr_step.
  rewrite set_child_ok by (rewrite ?length_insert; done). tr_step. rewrite take_app_length.
  exists true. eexists (if (length p =? 0)%nat then _ else _). split; [by destruct (length p =? 0)%nat|].
  exists (split_tree p a r c b s v). split_and!; [by apply split_tree_ok| |by apply split_tree_adds|done].
  unfold split_tree. destruct p as [|p0 p]; cbn [length Nat.eqb mk]; [|apply Rep_new];
    (apply branch_rep; [done..|by apply mk_rep|apply mk_rep; constructor]).
Qed.

(** A short node whose whole key matches. *)
Lemma insert_match fuel k m fl prefix s v r :
  k ≠ [] → insert db_node gen fuel m (prefix ++ k) s (valueNode v) = Some (inl r) →
  insert db_node gen (S fuel) (shortNode k m fl) prefix (k ++ s) (valueNode v) =
    Some (inl (if r.1 then (true, shortNode k r.2 (newFlag gen)) else (false, shortNode k m fl))).
Proof.
  intros Hk Hi. assert (Hkey : ∃ k0 ks, k ++ s = k0 :: ks) by (destruct k; [done|eauto]).
  destruct Hkey as (k0 & ks & E). cbn [insert]. rewrite E. cbv iota. rewrite <-E.
  rewrite prefixLen_app, Nat.eqb_refl, take_app_length, drop_app_length, Hi. tr_step.
  by destruct r as [[] nn].
Qed.

Lemma hex_key_length key : hex_key key → (1 <= length key)%nat.
Proof. intros Hk. destruct key; [by apply hex_key_nil in Hk|simpl; lia]. Qed.

Lemma insert_leaf ns w : nibbles ns → w ≠ [] → insert_spec (TShort (ns ++ [terminator]) (TVal w)) false.
Proof.
  intros Hn Hw fuel top n prefix key v Hr Hh Hk Hv Hf. destruct fuel as [|fuel]; [lia|]. cbv iota in Hf.
  destruct (Rep_shape db_node _ _ _ Hr (Hh eq_refl)) as (m & fl & -> & Hm & Hfl). set (k := ns ++ [terminator]) in *.
  pose proof (hex_key_length key Hk).
  destruct (decide (prefixLen key k = length k)) as [E|E]; [|apply insert_split; [by constructor|done..|lia]].
  apply prefixLen_prefix in E as [s ->]. apply hex_key_prefix in Hk as ->; [|by apply hex_key_snoc].
  inversion Hm as [| | |? ? Hnv]; subst; [|by destruct Hnv].
  destruct (insert_value fuel w (prefix ++ k) v ltac:(lia) Hv) as (d & Hi & Hd).
  rewrite (insert_match fuel k (valueNode w) fl prefix [] v (d, valueNode v) ltac:(by destruct ns) Hi).
  rewrite app_nil_r. cbn [fst snd]. destruct d; (eexists _, _; split; [done|]).
  - exists (TShort k (TVal v)). split_and!; [by constructor|by apply Rep_new; constructor| |done].
    intros k' _. rewrite !tfind_leaf. by destruct (decide (k' = k)).
  - split; [done|]. rewrite Hd by done. by rewrite tfind_leaf, decide_True.
Qed.

Lemma insert_ext ns ts :
  nibbles ns → ns ≠ [] → ok (TFull ts) → insert_spec (TFull ts) false → insert_spec (TShort ns (TFull ts)) false.
Proof.
  intros Hn Hne Hok IH fuel top n prefix key v Hr Hh Hk Hv Hf. destruct fuel as [|fuel]; [lia|]. cbv iota in Hf.
  destruct (Rep_shape db_node _ _ _ Hr (Hh eq_refl)) as (m & fl & -> & Hm & Hfl).
  pose proof (hex_key_length key Hk).
  destruct (decide (prefixLen key ns = length ns)) as [E|E]; [|apply insert_split; [by constructor|done..|lia]].
  apply prefixLen_prefix in E as [s ->]. rewrite length_app in Hf.
  assert (1 <= length ns)%nat by (destruct ns; [done|simpl; lia]).
  destruct (insert_any _ IH fuel false m (prefix ++ ns) s v Hm) as (d & n' & Hi & Hd);
    [done|by apply hex_key_app in Hk|done|cbv iota; lia|].
  rewrite (insert_match fuel ns m fl prefix s v (d, n') Hne Hi). cbn [fst snd].
  destruct d; (eexists _, _; split; [done|]).
  - destruct Hd as (t' & Hok' & Hr' & Ha & Hfull). destruct t' as [|k' c'|us]; [by destruct (Hfull I)..|].
    exists (TShort ns (TFull us)). split_and!; [by constructor|by apply Rep_new| |done].
    intros k' Hk'. cbn [app] in Hk'. destruct (decide (ns `prefix_of` k')) as [[y ->]|Hnp].
    + rewrite !tfind_short, Ha by by apply hex_key_app in Hk'.
      destruct (decide (y = s)) as [->|Hys]; [by rewrite decide_True|].
      rewrite decide_False; [done|]. by intros E%app_inv_head.
    + rewrite !tfind_short_none by done. rewrite decide_False; [done|]. intros ->. apply Hnp. by apply prefix_app_r.
  - split; [done|]. rewrite tfind_short. apply Hd.
Qed.

(** A full node, the child at a byte of a key and its tree. *)
Lemma full_slot top cs fl ts b s :
  Rep top (fullNode cs fl) (TFull ts) → ok (TFull ts) → hex_key (b :: s) →
  ∃ c ot, cs !! pos_of b = Some c ∧ ts !! pos_of b = Some ot ∧ slot db_node c ot ∧ key_byte b ∧
    length cs = 17%nat ∧ length ts = 17%nat ∧
    (∀ i c ot, cs !! i = Some c → ts !! i = Some ot → slot db_node c ot) ∧
    (∀ P : tree → Prop, (∀ i t, (i < 16)%nat → ts !! i = Some (Some t) → P t) →
       ∀ t, ot = Some t → child_ok b t ∧ (nibble b → P t)).
Proof.
  intros Hr Hok Hk. destruct (Rep_full_inv db_node _ _ _ _ Hr) as (Hlen & Hslots & _).
  destruct (ok_full_inv ts Hok) as (Hl & _). pose proof (hex_key_byte b s Hk) as Hb.
  destruct (lookup_lt_is_Some_2 ts (pos_of b)) as [ot Hot]; [rewrite Hl; by apply pos_key_byte|].
  destruct (lookup_lt_is_Some_2 cs (pos_of b)) as [c Hc]; [rewrite Hlen, Hl; by apply pos_key_byte|].
  exists c, ot. split_and!; [done..|by eapply Hslots|done|congruence|done|done|].
  intros P HP t ->. split; [by eapply ok_child_at|]. intros Hnb. apply (HP (pos_of b)); [by apply pos_nibble|done].
Qed.

Lemma insert_full ts :
  ok (TFull ts) → (∀ i t, (i < 16)%nat → ts !! i = Some (Some t) → insert_spec t false) → insert_spec (TFull ts) false.
Proof.
  intros Hok IH fuel top n prefix key v Hr Hh Hk Hv Hf. destruct fuel as [|fuel]; [lia|]. cbv iota in Hf.
  destruct (Rep_shape db_node _ _ _ Hr (Hh eq_refl)) as (cs & fl & ->).
  destruct key as [|b s]; [by apply hex_key_nil in Hk|].
  destruct (full_slot _ _ _ _ _ _ Hr Hok Hk) as (c & ot & Hc & Hot & Hs & Hb & Hlc & Hlt & Hslots & Hsub).
  destruct (insert_slot fuel b c ot (prefix ++ [b]) s v Hs) as (d & n' & Hi & Hd); [|done..|simpl in Hf; lia|].
  { apply (Hsub (λ t, insert_spec t true)). intros i t Hi Ht. by apply insert_any, (IH i). }
  cbn [insert]. rewrite Hc. tr_step. rewrite Hi. tr_step. destruct d.
  2:{ eexists _, _. split; [done|]. split; [done|]. rewrite tfind_full, Hot. by destruct ot. }
  rewrite set_child_ok by done. eexists _, _. split; [done|].
  destruct Hd as (t' & Hc' & Hr' & Ha). exists (TFull (<[pos_of b := Some t']> ts)). split_and!; [by apply set_full| | |done].
  - apply Rep_full_new; [by rewrite !length_insert, Hlc, Hlt|]. by apply slot_set.
  - intros [|x k] Hk'; [by apply hex_key_nil in Hk'|]. cbn [app] in Hk'. rewrite tfind_set by done.
    destruct (decide (x = b)) as [->|Hxb]; [|by rewrite decide_False by congruence].
    rewrite Ha by done. rewrite tfind_full, Hot. destruct (decide (k = s)) as [->|Hks]; [by rewrite decide_True|].
    rewrite decide_False by congruence. by destruct ot.
Qed.

Lemma insert_ok t : ok t → insert_spec t false.
Proof.
  induction 1 as [ns w Hn Hw|ns ts Hn Hne Hok IH|ts Hl Hc IH Hv Htwo].
  - by apply insert_leaf.
  - by apply insert_ext.
  - apply insert_full; [by constructor|done].
Qed.

(** ** Deleting *)

Lemma only_child_found i pos cs :
  0 <= pos →
  (only_child i pos cs = pos ∧ ∀ j c, cs !! j = Some c → is_nil c = true) ∨
  (only_child i pos cs = -2 ∧ ∃ j c, cs !! j = Some c ∧ is_nil c = false).
Proof.
  intros Hp. revert i. induction cs as [|c cs IH]; intros i; cbn [only_child]; [by left|].
  destruct (is_nil c) eqn:Ec.
  - destruct (IH (i + 1)) as [[E Hn]|(E & j & c' & Hj & Hc')]; [left|right].
    + split; [done|]. intros [|j] c'; simpl; [by intros [= <-]|apply Hn].
    + split; [done|]. by exists (S j), c'.
  - rewrite (proj2 (Z.eqb_neq pos (-1))) by lia. right. split; [done|]. by exists 0%nat, c.
Qed.

Lemma only_child_cases i cs :
  0 <= i →
  (only_child i (-1) cs = -1 ∧ ∀ j c, cs !! j = Some c → is_nil c = true) ∨
  (∃ j c, only_child i (-1) cs = i + Z.of_nat j ∧ cs !! j = Some c ∧ is_nil c = false ∧
     ∀ j' c', cs !! j' = Some c' → j' ≠ j → is_nil c' = true) ∨
  (only_child i (-1) cs = -2 ∧ ∃ j j' c c', j ≠ j' ∧ cs !! j = Some c ∧ cs !! j' = Some c' ∧
     is_nil c = false ∧ is_nil c' = false).
Proof.
  revert i. induction cs as [|c cs IH]; intros i Hi; cbn [only_child]; [by left|].
  destruct (is_nil c) eqn:Ec.
  - destruct (IH (i + 1) ltac:(lia)) as [[E Hn]|[(j & c' & E & Hj & Hc' & Ho)|(E & j & j' & c1 & c2 & ? & ? & ? & ? & ?)]].
    + left. split; [done|]. intros [|j] c'; simpl; [by intros [= <-]|apply Hn].
    + right; left. exists (S j), c'. split_and!; [lia|done..|].
      intros [|j'] c2; simpl; [by intros [= <-]|]. intros Hj' Hne. apply (Ho j'); [done|congruence].
    + right; right. split; [done|]. exists (S j), (S j'), c1, c2. split_and!; [congruence|done..].
  - cbn. destruct (only_child_found (i + 1) i cs Hi) as [[E Hn]|(E & j & c' & Hj & Hc')].
    + right; left. exists 0%nat, c. split_and!; [lia|done..|].
      intros [|j'] c2; simpl; [done|]. intros Hj' _. by apply (Hn j').
    + right; right. split; [done|]. exists 0%nat, (S j), c, c'. done.
Qed.

Lemma slot_nil c ot : slot db_node c ot → is_nil c = true ↔ ot = None.
Proof.
  intros Hs. destruct ot as [t|]; cbn [slot] in Hs; [|by subst].
  split; [|done]. intros Hn. destruct c; try done. by apply Rep_not_nil in Hs.
Qed.

(** The children of a full node after one of them changed. *)
Record children (cs : list node) (ts : list (option tree)) : Prop := {
  ch_cs : length cs = 17%nat;
  ch_ts : length ts = 17%nat;
  ch_slots i c ot : cs !! i = Some c → ts !! i = Some ot → slot db_node c ot;
  ch_ok i t : (i < 16)%nat → ts !! i = Some (Some t) → ok t;
  ch_val t : ts !! 16%nat = Some (Some t) → leaf_val t
}.

Lemma children_child cs ts i c :
  children cs ts → cs !! i = Some c → is_nil c = false →
  ∃ t, ts !! i = Some (Some t) ∧ Rep false c t.
Proof.
  intros Hch Hc Hn. pose proof (lookup_lt_Some _ _ _ Hc) as Hlt. rewrite (ch_cs _ _ Hch) in Hlt.
  destruct (lookup_lt_is_Some_2 ts i) as [ot Hot]; [by rewrite (ch_ts _ _ Hch)|].
  pose proof (ch_slots _ _ Hch _ _ _ Hc Hot) as Hs. destruct ot as [t|]; [by exists t|].
  apply slot_nil in Hs. rewrite (proj2 Hs) in Hn; done.
Qed.

(** Only one child is left. *)
Lemma tfind_only ts j t :
  length ts = 17%nat → ts !! j = Some (Some t) → (∀ i ot, ts !! i = Some ot → i ≠ j → ot = None) →
  ∀ b k, key_byte b → tfind (TFull ts) (b :: k) = if decide (pos_of b = j) then tfind t k else None.
Proof.
  intros Hl Hj Ho b k Hb. rewrite tfind_full. destruct (decide (pos_of b = j)) as [->|Hne]; [by rewrite Hj|].
  destruct (lookup_lt_is_Some_2 ts (pos_of b)) as [ot Hot]; [rewrite Hl; by apply pos_key_byte|].
  rewrite Hot, (Ho _ _ Hot Hne). done.
Qed.

Definition reduced (r : TR (bool * node)) (top : bool) (f : list byte → option (list byte)) : Prop :=
  ∃ n' t', r = Some (inl (true, n')) ∧ ok t' ∧ Rep top n' t' ∧ ¬ is_hash n' ∧ ∀ k, hex_key k → tfind t' k = f k.

(** A child below the one byte that leads to it. *)
Lemma tfind_one_byte j k c x z :
  (j < 256)%nat →
  tfind (TShort (zb (Z.of_nat j) :: k) c) (x :: z) = if decide (pos_of x = j) then tfind (mk k c) z else None.
Proof.
  intros Hj. pose proof (tfind_short_split [] (zb (Z.of_nat j)) k c x z) as E. cbn [app] in E. rewrite E.
  destruct (decide (x = _)) as [->|Hx]; [by rewrite pos_zb, decide_True by done|].
  rewrite decide_False; [done|]. intros <-. apply Hx. apply pos_inj. by rewrite pos_zb.
Qed.

Lemma resolve_any top c t prefix :
  Rep top c t → ∃ m, resolve db_node gen c prefix = Some (inl m) ∧ ¬ is_hash m ∧ Rep top m t.
Proof.
  intros Hr. destruct (is_hash_dec c) as [Hh|Hh].
  - destruct (resolve_rep db_node top c t gen prefix Hr Hh) as (h & m & -> & Hres & Hm & Hrm). by exists m.
  - exists c. split; [|done]. by destruct c.
Qed.

(** The only child that is left moves up. *)
Lemma move_up top c t j prefix :
  Rep false c t → ok t → (j < 16)%nat →
  reduced (cnode ← resolve db_node gen c prefix;
           match cnode with
           | shortNode Key Val _ => mret (true, shortNode (zb (Z.of_nat j) :: Key) Val (newFlag gen))
           | _ => mret (true, shortNode [zb (Z.of_nat j)] c (newFlag gen))
           end) top (tfind (TShort [zb (Z.of_nat j)] t)).
Proof.
  intros Hr Hok Hj. destruct (resolve_any false c t prefix Hr) as (m & -> & Hm & Hrm). tr_step.
  pose proof (nibble_zb j Hj) as Hnj. pose proof (Rep_shape db_node _ _ _ Hrm Hm) as Hs.
  destruct t as [v|k c'|ts]; [by inversion Hok| |].
  - destruct Hs as (x & fl & -> & Hx & _). eexists _, (TShort (zb (Z.of_nat j) :: k) c').
    split_and!; [done| |by apply Rep_new|by intros []|].
    + inversion Hok as [ns v Hn Hv|ns ts Hn Hne Hts|]; subst.
      * apply (ok_leaf (zb (Z.of_nat j) :: ns)); [by constructor|done].
      * constructor; [by constructor|done..].
    + intros [|y z] Hk; [by apply hex_key_nil in Hk|]. rewrite !tfind_one_byte by lia.
      destruct (decide _); [|done]. destruct k; [|done]. inversion Hok as [ns ? ? ? E| |]; by destruct ns.
  - destruct Hs as (cs & fl & ->). eexists _, (TShort [zb (Z.of_nat j)] (TFull ts)).
    split_and!; [done| |by apply Rep_new|by intros []|done].
    constructor; [by repeat constructor|done..].
Qed.

Lemma children_two cs ts j j' c c' :
  children cs ts → j ≠ j' → cs !! j = Some c → cs !! j' = Some c' → is_nil c = false → is_nil c' = false →
  ok (TFull ts).
Proof.
  intros Hch Hne Hj Hj' Hc Hc'. constructor; [apply Hch..|].
  destruct (children_child cs ts j c Hch Hj Hc) as (t & Ht & _).
  destruct (children_child cs ts j' c' Hch Hj' Hc') as (u & Hu & _). by exists j, j', t, u.
Qed.

Lemma children_rep top cs ts : children cs ts → Rep top (fullNode cs (newFlag gen)) (TFull ts).
Proof. intros Hch. apply Rep_full_new; [by rewrite (ch_cs _ _ Hch), (ch_ts _ _ Hch)|apply Hch]. Qed.

Lemma children_only cs ts j c t :
  children cs ts → ts !! j = Some (Some t) →
  (∀ j' c', cs !! j' = Some c' → j' ≠ j → is_nil c' = true) → cs !! j = Some c →
  ∀ k, hex_key k → tfind (TShort [zb (Z.of_nat j)] t) k = tfind (TFull ts) k.
Proof.
  intros Hch Ht Ho Hc [|x z] Hk; [by apply hex_key_nil in Hk|].
  assert (j < 17)%nat by (rewrite <-(ch_ts _ _ Hch); by eapply lookup_lt_Some).
  rewrite tfind_one_byte by lia. rewrite (tfind_only ts j t); [done|apply Hch|done| |by eapply hex_key_byte].
  intros i ot Hot Hij. destruct (lookup_lt_is_Some_2 cs i) as [ci Hci].
  { rewrite (ch_cs _ _ Hch), <-(ch_ts _ _ Hch). by eapply lookup_lt_Some. }
  eapply slot_nil; [by eapply ch_slots|by eapply Ho].
Qed.

Lemma reduce_ok top cs ts prefix :
  children cs ts → (∃ i t, ts !! i = Some (Some t)) →
  reduced (reduce db_node gen cs prefix) top (tfind (TFull ts)).
Proof.
  intros Hch (i0 & t0 & Hi0). pose proof (ch_ts _ _ Hch) as Hlt. unfold reduce.
  destruct (only_child_cases 0 cs ltac:(lia)) as
    [[_ Hn]|[(j & c & -> & Hj & Hc & Ho)|(-> & j & j' & c & c' & Hne & Hj & Hj' & Hc & Hc')]].
  - destruct (lookup_lt_is_Some_2 cs i0) as [c0 Hc0].
    { rewrite (ch_cs _ _ Hch), <-Hlt. by eapply lookup_lt_Some. }
    pose proof (proj1 (slot_nil _ _ (ch_slots _ _ Hch _ _ _ Hc0 Hi0)) (Hn _ _ Hc0)). done.
  - destruct (children_child cs ts j c Hch Hj Hc) as (t & Ht & Hr).
    assert (Hjl : (j < 17)%nat) by (rewrite <-Hlt; by eapply lookup_lt_Some).
    pose proof (children_only cs ts j c t Hch Ht Ho Hj) as Hone.
    rewrite Z.add_0_l, Z.geb_leb, (proj2 (Z.leb_le _ _)), Nat2Z.id, Hj by lia. tr_step.
    destruct (decide (j = 16%nat)) as [->|Hj16].
    + destruct (ch_val _ _ Hch t Ht) as (v & -> & Hv).
      eexists _, _. split; [done|]. split; [apply (ok_leaf [] v); [constructor|done]|].
      split_and!; [by apply Rep_new|by intros []|done].
    + rewrite (proj2 (Z.eqb_neq _ _)) by lia. cbn [negb].
      destruct (move_up top c t j prefix Hr) as (n' & t' & E & H1 & H2 & H3 & H4);
        [apply (ch_ok _ _ Hch j); [lia|done]|lia|].
      exists n', t'. split_and!; [done..|]. intros k Hk. by rewrite H4, Hone.
  - eexists _, _. split; [done|]. split_and!; [by eapply children_two|by apply children_rep|by intros []|done].
Qed.

(** What is left after a deletion, nothing or a tree. *)
Definition leaves (n' : node) (ot' : option tree) (top : bool) (f : list byte → option (list byte)) key : Prop :=
  match ot' with
  | None => n' = nil_node
  | Some t' => ok t' ∧ Rep top n' t' ∧ ¬ is_hash n'
  end ∧ ∀ k, hex_key k → (t' ← ot'; tfind t' k) = if decide (k = key) then None else f k.

Definition deleted (r : TR (bool * node)) (top : bool) (t : tree) (key : list byte) : Prop :=
  ∃ d n', r = Some (inl (d, n')) ∧
    if (d : bool) then ∃ ot', leaves n' ot' top (tfind t) key ∧ (is_full t → ot' ≠ None)
    else Rep top n' t ∧ tfind t key = None.

Definition delete_spec (t : tree) (any : bool) : Prop := ∀ fuel top n prefix key,
  Rep top n t → (any = false → ¬ is_hash n) → hex_key key →
  (2 * length key + (if any then 2 else 1) <= fuel)%nat →
  deleted (delete db_node gen fuel n prefix key) top t key.

Lemma delete_any t : delete_spec t false → delete_spec t true.
Proof.
  intros IH fuel top n prefix key Hr _ Hk Hf. cbv iota in Hf.
  destruct (is_hash_dec n) as [Hh|Hh]; [|apply IH; [done..|cbv iota; lia]].
  destruct (resolve_rep db_node top n t gen prefix Hr Hh) as (h & m & -> & Hres & Hm & Hrm).
  destruct fuel as [|fuel]; [lia|]. cbn [delete]. rewrite Hres. tr_step.
  destruct (IH fuel top m prefix key Hrm ltac:(done) Hk ltac:(cbv iota; lia)) as ([] & n' & -> & Hn');
    tr_step; [by exists true, n'|]. exists false, m. split; [done|]. by split; [|apply Hn'].
Qed.

Lemma delete_leaf ns w : nibbles ns → delete_spec (TShort (ns ++ [terminator]) (TVal w)) false.
Proof.
  intros Hn fuel top n prefix key Hr Hh Hk Hf. destruct fuel as [|fuel]; [lia|].
  destruct (Rep_shape db_node _ _ _ Hr (Hh eq_refl)) as (m & fl & -> & Hm & Hfl).
  set (k := ns ++ [terminator]) in *. cbn [delete].
  destruct (decide (prefixLen key k = length k)) as [E|E].
  - apply prefixLen_prefix in E as [s ->]. apply hex_key_prefix in Hk as ->; [|by apply hex_key_snoc].
    rewrite prefixLen_app, app_nil_r, Nat.ltb_irrefl, Nat.eqb_refl. exists true, nil_node. split; [done|].
    exists None. split; [|by intros []]. split; [done|]. intros k' _. rewrite tfind_leaf. by destruct (decide _).
  - destruct (prefixLen_split key k) as (_ & _ & Hle & _). rewrite (proj2 (Nat.ltb_lt _ _)) by lia.
    exists false. eexists. split; [done|]. split; [done|].
    rewrite tfind_leaf, decide_False; [done|]. intros ->. apply E.
    pose proof (prefixLen_app k []) as E'. by rewrite app_nil_r in E'.
Qed.

(** A short node joined with what is left below it. *)
Definition joined (k : list byte) (n' : node) : node :=
  match n' with
  | shortNode k' m' _ => shortNode (k ++ k') m' (newFlag gen)
  | _ => shortNode k n' (newFlag gen)
  end.

Lemma delete_join top k n' t' s f :
  nibbles k → k ≠ [] → leaves n' (Some t') false f s →
  ∃ u, ok u ∧ (∀ y, hex_key y → tfind u (k ++ y) = if decide (y = s) then None else f y) ∧
    (∀ y, ¬ k `prefix_of` y → tfind u y = None) ∧
    Rep top (joined k n') u.
Proof.
  intros Hk Hne [(Hok & Hr & Hh) Hf]. pose proof (Rep_shape db_node _ _ _ Hr Hh) as Hs. cbn [mbind option_bind] in Hf.
  destruct t' as [v|k' c'|ts]; [by inversion Hok| |].
  - destruct Hs as (m & fl & -> & Hm & _). exists (TShort (k ++ k') c'). split_and!.
    + inversion Hok as [ns v Hn Hv|ns ts Hn Hne' Hts|]; subst.
      * rewrite app_assoc. constructor; [by apply Forall_app|done].
      * constructor; [by apply Forall_app|by destruct k|done].
    + intros y Hy. rewrite <-Hf by done. destruct (decide (k' `prefix_of` y)) as [[z ->]|Hn].
      * by rewrite app_assoc, !tfind_short.
      * rewrite !tfind_short_none; [done..|]. by intros Hp%prefix_app_inv.
    + intros y Hy. apply tfind_short_none. intros [z ->]. apply Hy. rewrite <-app_assoc. by apply prefix_app_r.
    + by apply Rep_new.
  - destruct Hs as (cs & fl & ->). exists (TShort k (TFull ts)). split_and!; [by constructor| | |by apply Rep_new].
    + intros y Hy. by rewrite tfind_short, Hf.
    + intros y Hy. by apply tfind_short_none.
Qed.

Lemma delete_ext ns ts :
  nibbles ns → ns ≠ [] → ok (TFull ts) → delete_spec (TFull ts) false → delete_spec (TShort ns (TFull ts)) false.
Proof.
  intros Hn Hne Hok IH fuel top n prefix key Hr Hh Hk Hf. destruct fuel as [|fuel]; [lia|]. cbv iota in Hf.
  destruct (Rep_shape db_node _ _ _ Hr (Hh eq_refl)) as (m & fl & -> & Hm & Hfl). cbn [delete].
  destruct (decide (prefixLen key ns = length ns)) as [E|E].
  2:{ destruct (prefixLen_split key ns) as (_ & _ & Hle & _). rewrite (proj2 (Nat.ltb_lt _ _)) by lia.
      exists false. eexists. split; [done|]. split; [done|]. apply tfind_short_none. intros [s ->].
      apply E, prefixLen_app. }
  apply prefixLen_prefix in E as [s ->]. apply hex_key_app in Hk; [|done]. pose proof (hex_key_length s Hk).
  assert (1 <= length ns)%nat by (destruct ns; [done|simpl; lia]). rewrite length_app in Hf.
  rewrite prefixLen_app, Nat.ltb_irrefl, (proj2 (Nat.eqb_neq _ _)), drop_app_length by (rewrite length_app; lia).
  destruct (delete_any _ IH fuel false m (prefix ++ take (length ns) (ns ++ s)) s Hm) as (d & n' & -> & Hd);
    [done..|cbv iota; lia|]. tr_step. destruct d.
  2:{ exists false. eexists. split; [done|]. split; [done|]. rewrite tfind_short. apply Hd. }
  destruct Hd as ([t'|] & Hl & Hfull); [|by destruct (Hfull I)].
  destruct (delete_join top ns n' t' s (tfind (TFull ts)) Hn Hne Hl) as (u & Hu & Hin & Hout & Hru).
  exists true, (joined ns n'). split; [by destruct n'|]. exists (Some u). split; [|by intros []]. split.
  - split_and!; [done|done|]. destruct n'; by intros [].
  - intros y Hy. cbn [mbind option_bind]. destruct (decide (ns `prefix_of` y)) as [[z ->]|Hnp].
    + apply hex_key_app in Hy; [|done]. rewrite Hin, tfind_short by done.
      destruct (decide (z = s)) as [->|Hz]; [by rewrite decide_True|].
      rewrite decide_False; [done|]. by intros E%app_inv_head.
    + rewrite Hout, tfind_short_none by done. by destruct (decide _).
Qed.

(** Below a full node, at the byte [b]. *)
Definition slot_deleted (r : TR (bool * node)) (b : byte) (ot : option tree) (s : list byte) : Prop :=
  ∃ d n', r = Some (inl (d, n')) ∧
    if (d : bool) then
      ∃ ot', slot db_node n' ot' ∧ (∀ t', ot' = Some t' → child_ok b t') ∧
        ∀ k, hex_key (b :: k) → (t' ← ot'; tfind t' k) = if decide (k = s) then None else t ← ot; tfind t k
    else (t ← ot; tfind t s) = None.

Lemma delete_slot fuel b c ot prefix s :
  slot db_node c ot → (∀ t, ot = Some t → child_ok b t ∧ (nibble b → delete_spec t true)) →
  hex_key (b :: s) → (2 * length s + 2 <= fuel)%nat →
  slot_deleted (delete db_node gen fuel c prefix s) b ot s.
Proof.
  intros Hc Ht Hk Hf. destruct ot as [t|]; cbn [slot] in Hc.
  - destruct (Ht t eq_refl) as [[[Hb Hok]|[-> (w & -> & _)]] IH].
    + apply hex_key_cons in Hk as [[-> _]|[_ Hs]]; [by apply nibble_not_term in Hb|].
      destruct (IH Hb fuel false c prefix s Hc ltac:(done) Hs Hf) as (d & n' & -> & Hd).
      exists d, n'. split; [done|]. destruct d; [|by destruct Hd].
      destruct Hd as (ot' & [Hn' Hf'] & _). exists ot'. split_and!.
      * destruct ot'; [|done]. apply Hn'.
      * intros t' ->. left. split; [done|]. apply Hn'.
      * intros k Hk. apply Hf'. apply hex_key_cons in Hk as [[-> _]|[_ ?]]; [|done].
        by apply nibble_not_term in Hb.
    + apply hex_key_cons in Hk as [[_ ->]|[Hb _]]; [|by apply nibble_not_term in Hb].
      inversion Hc as [| | |? ? Hnv]; subst; [|by destruct Hnv].
      destruct fuel; [lia|]. exists true, nil_node. split; [done|]. exists None. split_and!; [done..|].
      intros k Hk. apply hex_key_cons in Hk as [[_ ->]|[Hb _]]; [done|]. by apply nibble_not_term in Hb.
  - subst c. destruct fuel; [lia|]. by exists false, nil_node.
Qed.

Lemma children_set cs ts b c ot :
  ok (TFull ts) → length cs = 17%nat → key_byte b →
  (∀ i c ot, cs !! i = Some c → ts !! i = Some ot → slot db_node c ot) →
  slot db_node c ot → (∀ t, ot = Some t → child_ok b t) →
  children (<[pos_of b := c]> cs) (<[pos_of b := ot]> ts).
Proof.
  intros Hok Hlc Hb Hs Hc Hot. destruct (ok_full_inv ts Hok) as (Hl & Hsub & Hv & _).
  assert (pos_of b < length ts)%nat as Hlt by (rewrite Hl; by apply pos_key_byte).
  split; [by rewrite length_insert..|by apply slot_set| |].
  - intros i t Hi Ht. destruct (decide (pos_of b = i)) as [<-|Hn].
    + rewrite list_lookup_insert_eq in Ht by done. injection Ht as ->.
      destruct (Hot t eq_refl) as [[_ ?]|[-> _]]; [done|]. rewrite pos_term in Hi. lia.
    + rewrite list_lookup_insert_ne in Ht by done. by eapply Hsub.
  - intros t Ht. destruct (decide (pos_of b = 16%nat)) as [Hb16|Hn].
    + rewrite Hb16, list_lookup_insert_eq in Ht by by rewrite <-Hb16. injection Ht as ->.
      destruct (Hot t eq_refl) as [[Hnb _]|[_ ?]]; [|done]. apply pos_nibble in Hnb. lia.
    + rewrite list_lookup_insert_ne in Ht by done. by apply Hv.
Qed.

(** At least one child is left, since there were two. *)
Lemma child_left ts b ot : ok (TFull ts) → ∃ i t, <[pos_of b := ot]> ts !! i = Some (Some t).
Proof.
  intros Hok. destruct (ok_full_inv ts Hok) as (_ & _ & _ & i & j & t & u & Hij & Hi & Hj).
  destruct (decide (pos_of b = i)) as [E|Hn].
  - exists j, u. rewrite list_lookup_insert_ne by congruence. done.
  - exists i, t. by rewrite list_lookup_insert_ne.
Qed.

Lemma delete_full ts :
  ok (TFull ts) → (∀ i t, (i < 16)%nat → ts !! i = Some (Some t) → delete_spec t false) → delete_spec (TFull ts) false.
Proof.
  intros Hok IH fuel top n prefix key Hr Hh Hk Hf. destruct fuel as [|fuel]; [lia|]. cbv iota in Hf.
  destruct (Rep_shape db_node _ _ _ Hr (Hh eq_refl)) as (cs & fl & ->).
  destruct key as [|b s]; [by apply hex_key_nil in Hk|].
  destruct (full_slot _ _ _ _ _ _ Hr Hok Hk) as (c & ot & Hc & Hot & Hs & Hb & Hlc & Hlt & Hslots & Hsub).
  destruct (delete_slot fuel b c ot (prefix ++ [b]) s Hs) as (d & n' & Hi & Hd); [|done|simpl in Hf; lia|].
  { apply (Hsub (λ t, delete_spec t true)). intros i t Hi Ht. by apply delete_any, (IH i). }
  cbn [delete list.head tail]. tr_step. rewrite Hc. tr_step. rewrite Hi. tr_step. destruct d.
  2:{ eexists _, _. split; [done|]. split; [done|]. rewrite tfind_full, Hot. by destruct ot. }
  rewrite set_child_ok by done. tr_step. destruct Hd as (ot' & Hs' & Hok' & Hfind).
  destruct (reduce_ok top _ _ prefix (children_set cs ts b n' ot' Hok Hlc Hb Hslots Hs' Hok')
    (child_left ts b ot' Hok)) as (m & t' & -> & Ht' & Hrt & Hmh & Hft).
  exists true, m. split; [done|]. exists (Some t'). split; [|done]. split; [done|].
  intros [|x k] Hk'; [by apply hex_key_nil in Hk'|]. cbn [mbind option_bind]. rewrite Hft by done.
  rewrite !tfind_full. destruct (decide (x = b)) as [->|Hxb].
  - rewrite list_lookup_insert_eq, Hot by (rewrite Hlt; by apply pos_key_byte).
    specialize (Hfind k Hk'). destruct (decide (k = s)) as [->|Hks].
    + rewrite decide_True by done. by destruct ot'.
    + rewrite decide_False by congruence. by destruct ot', ot.
  - rewrite list_lookup_insert_ne, decide_False by (congruence || by intros E%pos_inj). done.
Qed.

Lemma delete_ok t : ok t → delete_spec t false.
Proof.
  induction 1 as [ns w Hn Hw|ns ts Hn Hne Hok IH|ts Hl Hc IH Hv Htwo].
  - by apply delete_leaf.
  - by apply delete_ext.
  - apply delete_full; [by constructor|done].
Qed.
End Ops.
