(* ===== verification/TrieDb.v ===== *)
(** * The database of tries: [trie/database.go], [yocdb/memory_database.go]

    Nodes written by tries are kept in memory, with counts of the references to
    them and in the order of their insertion, until they are written to disk or
    no longer referenced.  The disk is the memory database of [yocdb].  Sizes
    are integers here, floats that hold integers in the source; times, meters
    and the lock are left out. *)
From S2P Require Import Prelude BigMath Rlp TrieEncoding TrieNode.

(** ** The key-value store *)

Notation IdealBatchSize := (100 * 1024) (only parsing).

Record MemDatabase := { entries : gmap (list byte) (list byte) }.

Definition mem_Get (d : MemDatabase) (key : list byte) : option (list byte) := entries d !! key.

Definition mem_Put (key value : list byte) (d : MemDatabase) : MemDatabase :=
  {| entries := <[key := value]> (entries d) |}.

Record kv := { k : list byte; v : list byte; del : bool }.

Record memBatch := { writes : list kv; b_size : Z }.

Definition NewBatch : memBatch := {| writes := []; b_size := 0 |}.

Definition batch_Put (key value : list byte) (b : memBatch) : memBatch :=
  {| writes := writes b ++ [{| k := key; v := value; del := false |}]; b_size := b_size b + zlen value |}.

Definition batch_Write (b : memBatch) (d : MemDatabase) : MemDatabase :=
  {| entries := foldl (λ m w, if del w then delete (k w) m else <[k w := v w]> m) (entries d) (writes b) |}.

(** ** Cached nodes *)

Record cachedNode := {
  cnode : node;
  csize : Z;
  parents : Z;
  children : gmap Hash Z;
  flushPrev : Hash;
  flushNext : Hash
}.

Definition with_parents (p : Z) (c : cachedNode) : cachedNode :=
  {| cnode := cnode c; csize := csize c; parents := p; children := children c;
     flushPrev := flushPrev c; flushNext := flushNext c |}.
Definition with_children (m : gmap Hash Z) (c : cachedNode) : cachedNode :=
  {| cnode := cnode c; csize := csize c; parents := parents c; children := m;
     flushPrev := flushPrev c; flushNext := flushNext c |}.
Definition with_flushPrev (h : Hash) (c : cachedNode) : cachedNode :=
  {| cnode := cnode c; csize := csize c; parents := parents c; children := children c;
     flushPrev := h; flushNext := flushNext c |}.
Definition with_flushNext (h : Hash) (c : cachedNode) : cachedNode :=
  {| cnode := cnode c; csize := csize c; parents := parents c; children := children c;
     flushPrev := flushPrev c; flushNext := h |}.

(** The root of all roots: [&cachedNode{}]. *)
Definition metaRoot : cachedNode :=
  {| cnode := nil_node; csize := 0; parents := 0; children := ∅; flushPrev := 0; flushNext := 0 |}.

(** [None] is a panic, or an error of the encoder, which makes it panic. *)
Definition encode_node (n : node) : option (list byte) :=
  match Rlp.EncodeToBytes (node_value n) with Some (Some b) => Some b | _ => None end.

Definition cached_rlp (n : cachedNode) : option (list byte) :=
  match cnode n with rawNode b => Some b | _ => encode_node (cnode n) end.

Fixpoint simplifyNode (n : node) : option node :=
  match n with
  | shortNode Key Val _ => v ← simplifyNode Val; Some (rawShortNode Key v)
  | fullNode cs _ => cs ← mapM (λ c, if is_nil c then Some c else simplifyNode c) cs; Some (rawFullNode cs)
  | valueNode _ | hashNode _ | rawNode _ => Some n
  | _ => None
  end.

Fixpoint expandNode (hash : option (list byte)) (n : node) (cachegen : Z) : option node :=
  let flags := {| hash := hash; gen := cachegen; dirty := false |} in
  match n with
  | rawShortNode Key Val =>
      key ← compactToHex Key; v ← expandNode None Val cachegen; Some (shortNode key v flags)
  | rawFullNode cs =>
      cs ← mapM (λ c, if is_nil c then Some c else expandNode None c cachegen) cs; Some (fullNode cs flags)
  | valueNode _ | hashNode _ => Some n
  | _ => None
  end.

Definition obj (n : cachedNode) (hash : Hash) (cachegen : Z) : option node :=
  match cnode n with
  | rawNode b => mustDecodeNode (Some (HashBytes hash)) b cachegen
  | _ => expandNode (Some (HashBytes hash)) (cnode n) cachegen
  end.

(** The references of a node, from left to right. *)
Fixpoint gatherChildren (n : node) : option (list Hash) :=
  match n with
  | rawShortNode _ Val => gatherChildren Val
  | rawFullNode cs => mjoin <$> mapM id (take 16 (map gatherChildren cs))
  | hashNode h => Some [BytesToHash h]
  | valueNode _ | nil_node => Some []
  | _ => None
  end.

Section Database.
Context `{!MapOrder}.

Definition childs (n : cachedNode) : option (list Hash) :=
  let external := map fst (range (children n)) in
  match cnode n with
  | rawNode _ => Some external
  | _ => own ← gatherChildren (cnode n); Some (external ++ own)
  end.

(** ** The database *)

Record Database := {
  diskdb : MemDatabase;
  nodes : gmap Hash cachedNode;
  oldest : Hash;
  newest : Hash;
  preimages : gmap Hash (list byte);
  gcnodes : Z;
  gcsize : Z;
  flushnodes : Z;
  flushsize : Z;
  nodesSize : Z;
  preimagesSize : Z
}.

Definition NewDatabase (diskdb : MemDatabase) : Database :=
  {| diskdb := diskdb; nodes := {[0 := metaRoot]}; oldest := 0; newest := 0; preimages := ∅;
     gcnodes := 0; gcsize := 0; flushnodes := 0; flushsize := 0; nodesSize := 0; preimagesSize := 0 |}.

Definition with_nodes (ns : gmap Hash cachedNode) (db : Database) : Database :=
  {| diskdb := diskdb db; nodes := ns; oldest := oldest db; newest := newest db; preimages := preimages db;
     gcnodes := gcnodes db; gcsize := gcsize db; flushnodes := flushnodes db; flushsize := flushsize db;
     nodesSize := nodesSize db; preimagesSize := preimagesSize db |}.
Definition with_disk (d : MemDatabase) (db : Database) : Database :=
  {| diskdb := d; nodes := nodes db; oldest := oldest db; newest := newest db; preimages := preimages db;
     gcnodes := gcnodes db; gcsize := gcsize db; flushnodes := flushnodes db; flushsize := flushsize db;
     nodesSize := nodesSize db; preimagesSize := preimagesSize db |}.
Definition with_ends (o n : Hash) (db : Database) : Database :=
  {| diskdb := diskdb db; nodes := nodes db; oldest := o; newest := n; preimages := preimages db;
     gcnodes := gcnodes db; gcsize := gcsize db; flushnodes := flushnodes db; flushsize := flushsize db;
     nodesSize := nodesSize db; preimagesSize := preimagesSize db |}.
Definition with_preimages (p : gmap Hash (list byte)) (size : Z) (db : Database) : Database :=
  {| diskdb := diskdb db; nodes := nodes db; oldest := oldest db; newest := newest db; preimages := p;
     gcnodes := gcnodes db; gcsize := gcsize db; flushnodes := flushnodes db; flushsize := flushsize db;
     nodesSize := nodesSize db; preimagesSize := size |}.
Definition with_stats (gn gs fn fs : Z) (db : Database) : Database :=
  {| diskdb := diskdb db; nodes := nodes db; oldest := oldest db; newest := newest db; preimages := preimages db;
     gcnodes := gn; gcsize := gs; flushnodes := fn; flushsize := fs;
     nodesSize := nodesSize db; preimagesSize := preimagesSize db |}.
Definition add_nodesSize (d : Z) (db : Database) : Database :=
  {| diskdb := diskdb db; nodes := nodes db; oldest := oldest db; newest := newest db; preimages := preimages db;
     gcnodes := gcnodes db; gcsize := gcsize db; flushnodes := flushnodes db; flushsize := flushsize db;
     nodesSize := nodesSize db + d; preimagesSize := preimagesSize db |}.

Definition on_nodes (f : gmap Hash cachedNode → gmap Hash cachedNode) : M Database () :=
  modify (λ db, with_nodes (f (nodes db)) db).

(** Writing a field of [db.nodes[hash]], which must be there. *)
Definition write_node (hash : Hash) (f : cachedNode → cachedNode) : M Database () :=
  ns ← gets nodes; n ← must (ns !! hash); on_nodes (<[hash := f n]>).

(** The size of an entry is added up in 16 bits here, and in full where it is
    subtracted. *)
Definition insert (hash : Hash) (blob : list byte) (n : node) : M Database () :=
  ns ← gets nodes;
  match ns !! hash with
  | Some _ => mret ()
  | None =>
      raw ← must (simplifyNode n);
      last ← gets newest;
      let entry := {| cnode := raw; csize := uint16 (zlen blob); parents := 0; children := ∅;
                      flushPrev := last; flushNext := 0 |} in
      cs ← must (childs entry);
      _ ← on_nodes (λ ns, foldl (λ ns child, alter (λ c, with_parents (uint16 (parents c + 1)) c) child ns) ns cs);
      _ ← on_nodes (<[hash := entry]>);
      first ← gets oldest;
      _ ← (if first =? 0 then modify (with_ends hash hash)
           else _ ← write_node last (with_flushNext hash); modify (with_ends first hash));
      modify (add_nodesSize (uint16 (32 + csize entry)))
  end.

Definition InsertBlob (hash : Hash) (blob : list byte) : M Database () := insert hash blob (rawNode blob).

Definition insertPreimage (hash : Hash) (preimage : list byte) : M Database () :=
  ps ← gets preimages;
  match ps !! hash with
  | Some _ => mret ()
  | None => modify (λ db, with_preimages (<[hash := preimage]> ps) (preimagesSize db + (32 + zlen preimage)) db)
  end.

(** [Database.node]: nil if there is no such node. *)
Definition db_node (db : Database) (hash : Hash) (cachegen : Z) : option node :=
  match nodes db !! hash with
  | Some n => obj n hash cachegen
  | None =>
      match mem_Get (diskdb db) (HashBytes hash) with
      | None => Some nil_node
      | Some enc => mustDecodeNode (Some (HashBytes hash)) enc cachegen
      end
  end.

(** [Database.Node]: the inner [None] is an error, not found. *)
Definition Node (db : Database) (hash : Hash) : option (option (list byte)) :=
  match nodes db !! hash with
  | Some n => Some <$> cached_rlp n
  | None => Some (mem_Get (diskdb db) (HashBytes hash))
  end.

Definition secureKeyPrefix : list byte := map (λ c, zb (Z.of_N (Ascii.N_of_ascii c))) (String.list_ascii_of_string "secure-key-").

Definition secureKey (key : list byte) : list byte := secureKeyPrefix ++ key.

Definition preimage (db : Database) (hash : Hash) : option (list byte) :=
  match preimages db !! hash with
  | Some p => Some p
  | None => mem_Get (diskdb db) (secureKey (HashBytes hash))
  end.

(** ** References *)

Definition reference (child parent : Hash) : M Database () :=
  ns ← gets nodes;
  match ns !! child with
  | None => mret ()
  | Some _ =>
      p ← must (ns !! parent);
      if bool_decide (is_Some (children p !! child)) && negb (parent =? 0) then mret ()
      else
        _ ← write_node child (λ n, with_parents (uint16 (parents n + 1)) n);
        write_node parent (λ p, with_children
          (<[child := uint16 (default 0 (children p !! child) + 1)]> (children p)) p)
  end.

(** Removing a node from the list of nodes in order of insertion. *)
Definition unlink (hash : Hash) (n : cachedNode) : M Database () :=
  first ← gets oldest; last ← gets newest;
  if hash =? first then
    _ ← modify (with_ends (flushNext n) last); write_node (flushNext n) (with_flushPrev 0)
  else if hash =? last then
    _ ← modify (with_ends first (flushPrev n)); write_node (flushPrev n) (with_flushNext 0)
  else
    _ ← write_node (flushPrev n) (with_flushNext (flushNext n));
    write_node (flushNext n) (with_flushPrev (flushPrev n)).

(** Removing one reference from the parent. *)
Definition unreference (child : Hash) (p : cachedNode) : cachedNode :=
  let count := default 0 (children p !! child) in
  if count >? 0 then
    with_children (if count - 1 =? 0 then delete child (children p) else <[child := count - 1]> (children p)) p
  else p.

(** One after the other, as a loop over the children of a node. *)
Fixpoint for_each {A} (f : Hash → A → M Database A) (hs : list Hash) (a : A) : M Database A :=
  match hs with
  | [] => mret a
  | h :: hs => a ← f h a; for_each f hs a
  end.

(** The fuel bounds the depth of the tree of references. *)
Fixpoint dereference (fuel : nat) (child parent : Hash) : M Database () :=
  match fuel with
  | O => fail OutOfFuel
  | S fuel =>
      _ ← write_node parent (unreference child);
      ns ← gets nodes;
      match ns !! child with
      | None => mret ()
      | Some _ =>
          _ ← write_node child (λ n, if parents n >? 0 then with_parents (parents n - 1) n else n);
          ns ← gets nodes; n ← must (ns !! child);
          if parents n =? 0 then
            _ ← unlink child n;
            cs ← must (childs n);
            _ ← for_each (λ h _, dereference fuel h child) cs ();
            _ ← on_nodes (delete child);
            modify (add_nodesSize (- (32 + csize n)))
          else mret ()
      end
  end.

(** Fuel for a walk over the nodes in memory. *)
Definition walk_fuel (db : Database) : nat := S (size (nodes db)).

Definition Dereference (root : Hash) : M Database () :=
  count ← gets (λ db, Z.of_nat (size (nodes db))); storage ← gets nodesSize;
  fuel ← gets walk_fuel;
  _ ← dereference fuel root 0;
  modify (λ db, with_stats (uint64 (gcnodes db + (count - Z.of_nat (size (nodes db)))))
                           (gcsize db + (storage - nodesSize db)) (flushnodes db) (flushsize db) db).

(** ** Writing to disk *)

(** A batch that has grown is written and emptied. *)
Definition write_if (full : bool) (b : memBatch) : M Database memBatch :=
  if full then _ ← modify (λ db, with_disk (batch_Write b (diskdb db)) db); mret NewBatch else mret b.

Fixpoint put_preimages (ps : list (Hash * list byte)) (b : memBatch) : M Database memBatch :=
  match ps with
  | [] => mret b
  | (hash, preimage) :: ps =>
      let b := batch_Put (secureKey (HashBytes hash)) preimage b in
      b ← write_if (b_size b >? IdealBatchSize) b;
      put_preimages ps b
  end.

(** The first node that stays in memory. *)
Fixpoint flush_nodes (fuel : nat) (size limit : Z) (first : Hash) (b : memBatch) : M Database (Hash * memBatch) :=
  match fuel with
  | O => fail OutOfFuel
  | S fuel =>
      if (size >? limit) && negb (first =? 0) then
        ns ← gets nodes; n ← must (ns !! first);
        enc ← must (cached_rlp n);
        let b := batch_Put (HashBytes first) enc b in
        b ← write_if (b_size b >=? IdealBatchSize) b;
        flush_nodes fuel (size - (3 * 32 + csize n)) limit (flushNext n) b
      else mret (first, b)
  end.

(** Nodes that have been written leave the memory. *)
Fixpoint drop_until (fuel : nat) (first : Hash) : M Database () :=
  match fuel with
  | O => fail OutOfFuel
  | S fuel =>
      o ← gets oldest;
      if o =? first then mret ()
      else
        ns ← gets nodes; n ← must (ns !! o);
        _ ← on_nodes (delete o);
        _ ← modify (λ db, with_ends (flushNext n) (newest db) db);
        _ ← modify (add_nodesSize (- (32 + csize n)));
        drop_until fuel first
  end.

Definition Cap (limit : Z) : M Database () :=
  count ← gets (λ db, Z.of_nat (size (nodes db))); storage ← gets nodesSize; fuel ← gets walk_fuel;
  let total := storage + (count - 1) * 2 * 32 in
  flushPreimages ← gets (λ db, preimagesSize db >? 4 * 1024 * 1024);
  ps ← gets preimages;
  b ← (if (flushPreimages : bool) then put_preimages (range ps) NewBatch else mret NewBatch);
  o ← gets oldest;
  '(first, b) ← flush_nodes fuel total limit o b;
  _ ← modify (λ db, with_disk (batch_Write b (diskdb db)) db);
  _ ← (if (flushPreimages : bool) then modify (with_preimages ∅ 0) else mret ());
  _ ← drop_until fuel first;
  o ← gets oldest;
  _ ← (if negb (o =? 0) then write_node o (with_flushPrev 0) else mret ());
  modify (λ db, with_stats (gcnodes db) (gcsize db)
                  (uint64 (flushnodes db + (count - Z.of_nat (size (nodes db)))))
                  (flushsize db + (storage - nodesSize db)) db).

Fixpoint commit (fuel : nat) (hash : Hash) (b : memBatch) : M Database memBatch :=
  match fuel with
  | O => fail OutOfFuel
  | S fuel =>
      ns ← gets nodes;
      match ns !! hash with
      | None => mret b
      | Some n =>
          cs ← must (childs n);
          b ← for_each (commit fuel) cs b;
          enc ← must (cached_rlp n);
          let b := batch_Put (HashBytes hash) enc b in
          write_if (b_size b >=? IdealBatchSize) b
      end
  end.

Fixpoint uncache (fuel : nat) (hash : Hash) : M Database () :=
  match fuel with
  | O => fail OutOfFuel
  | S fuel =>
      ns ← gets nodes;
      match ns !! hash with
      | None => mret ()
      | Some n =>
          _ ← unlink hash n;
          cs ← must (childs n);
          _ ← for_each (λ h _, uncache fuel h) cs ();
          _ ← on_nodes (delete hash);
          modify (add_nodesSize (- (32 + csize n)))
      end
  end.

Definition Commit (hash : Hash) : M Database () :=
  fuel ← gets walk_fuel;
  ps ← gets preimages;
  b ← put_preimages (range ps) NewBatch;
  b ← commit fuel hash b;
  _ ← modify (λ db, with_disk (batch_Write b (diskdb db)) db);
  _ ← modify (with_preimages ∅ 0);
  _ ← uncache fuel hash;
  modify (with_stats 0 0 0 0).

Definition Size (db : Database) : Z * Z :=
  (nodesSize db + (Z.of_nat (size (nodes db)) - 1) * 2 * 32, preimagesSize db).
End Database.
