(* ===== verification/TrieHash.v ===== *)
(** * Hashing a trie: [trie/hasher.go], [Trie.Hash], [Trie.Commit]

    A trie is hashed bottom up; when there is a database, every node that is
    not part of its parent is written to it.  The state is the database, if
    there is one.  The functions never return an error; [Fault] is a panic.
    The pool of hashers is left out. *)
From S2P Require Import Prelude BigMath Rlp VmTypes TrieEncoding TrieNode Trie TrieDb.

Section Hasher.
Context `{!Crypto} `{!MapOrder}.

(** [LeafCallback]; the hasher ignores the error it returns. *)
Notation LeafCallback := (list byte → Hash → M Database ()).

Notation HM := (M (option Database)).

Record hasher := { h_cachegen : Z; h_cachelimit : Z; onleaf : option LeafCallback }.

Variable h : hasher.

(** A computation on the database, if there is one. *)
Definition with_db (m : M Database ()) : HM () := λ odb,
  match odb with
  | None => Done () None
  | Some db => match m db with Done _ db' => Done () (Some db') | Fault f => Fault f end
  end.

Definition makeHashNode (data : list byte) : list byte := Keccak256 data.

(** Leaves of a stored node are reported. *)
Definition report_leaves (n : node) (hash : Hash) : M Database () :=
  match onleaf h with
  | None => mret ()
  | Some f =>
      match n with
      | shortNode _ (valueNode v) _ => f v hash
      | fullNode cs _ =>
          foldl (λ m c, _ ← m; match c with valueNode v => f v hash | _ => mret () end) (mret ()) (take 16 cs)
      | _ => mret ()
      end
  end.

Definition store (n : node) (force : bool) : HM node :=
  match n with
  | nil_node | hashNode _ => mret n
  | _ =>
      tmp ← must (encode_node n);
      if (zlen tmp <? 32) && negb force then mret n
      else
        c ← must (cache n);
        let hash := match c.1 with Some hash => hash | None => makeHashNode tmp end in
        let key := BytesToHash hash in
        _ ← with_db (_ ← insert key tmp n; report_leaves n key);
        mret (hashNode hash)
  end.

(** The hash of a node is kept in its copy; with a database it is clean now. *)
Definition set_hash (hashed cached : node) (has_db : bool) : node :=
  let hash := match hashed with hashNode b => Some b | _ => None end in
  let set fl := {| hash := hash; gen := gen fl; dirty := if has_db then false else dirty fl |} in
  match cached with
  | shortNode k v fl => shortNode k v (set fl)
  | fullNode cs fl => fullNode cs (set fl)
  | _ => cached
  end.

(** The children of a full node but the last, from left to right: the hashed and the cached ones. *)
Definition hash_each (hash : node → HM (node * node)) : nat → list node → HM (list node * list node) :=
  fix each (i : nat) (cs : list node) : HM (list node * list node) :=
    match cs with
    | [] => mret ([], [])
    | c :: cs =>
        '(a, b) ← (if (i <? 16)%nat && negb (is_nil c) then hash c else mret (c, c));
        '(hs, ds) ← each (S i) cs;
        mret (a :: hs, b :: ds)
    end.

Definition hashChildren (hash : node → HM (node * node)) (original : node) : HM (node * node) :=
  match original with
  | shortNode k v fl =>
      key ← must (hexToCompact k);
      match v with
      | valueNode _ => mret (shortNode key v fl, original)
      | _ => '(hv, cv) ← hash v; mret (shortNode key hv fl, shortNode k cv fl)
      end
  | fullNode cs fl =>
      '(hs, ds) ← hash_each hash 0 cs;
      mret (fullNode hs fl, fullNode ds fl)
  | _ => mret (original, original)
  end.

(** What is known of the node already: its hash and the node that replaces it. *)
Definition known (n : node) (has_db : bool) : option (option (node * node)) :=
  '(ohash, dirty) ← cache n;
  match ohash with
  | None => Some None
  | Some hash =>
      if negb has_db then Some (Some (hashNode hash, n))
      else
        unload ← canUnload n (h_cachegen h) (h_cachelimit h);
        if (unload : bool) then Some (Some (hashNode hash, hashNode hash))
        else if negb dirty then Some (Some (hashNode hash, n))
        else Some None
  end.

Fixpoint hash_node (n : node) (force : bool) : HM (node * node) :=
  has_db ← gets (λ odb, bool_decide (odb ≠ None));
  quick ← must (known n has_db);
  match quick with
  | Some r => mret r
  | None =>
      '(collapsed, cached) ← hashChildren (λ c, hash_node c false) n;
      hashed ← store collapsed force;
      mret (hashed, set_hash hashed cached has_db)
  end.
End Hasher.

(** ** The hash of a trie *)

Section Trie.
Context `{!Crypto} `{!MapOrder}.

Definition hashRoot (t : Trie) (onleaf : option (list byte → Hash → M Database ())) : M (option Database) (node * node) :=
  if is_nil (root t) then mret (hashNode (HashBytes emptyRoot), nil_node)
  else hash_node {| h_cachegen := cachegen t; h_cachelimit := cachelimit t; onleaf := onleaf |} (root t) true.

Definition node_hash (n : node) : option Hash :=
  match n with hashNode b => Some (BytesToHash b) | _ => None end.

Definition Trie_Hash (t : Trie) : option (Hash * Trie) :=
  match hashRoot t None None with
  | Done (hash, cached) _ => h ← node_hash hash; Some (h, with_root cached t)
  | Fault _ => None
  end.

Definition next_gen (t : Trie) : Trie :=
  {| root := root t; originalRoot := originalRoot t; cachegen := uint16 (cachegen t + 1); cachelimit := cachelimit t |}.

Definition Trie_Commit (t : Trie) (onleaf : option (list byte → Hash → M Database ())) : M Database (Hash * Trie) := λ db,
  match hashRoot t onleaf (Some db) with
  | Done (hash, cached) (Some db') =>
      match node_hash hash with
      | Some h => Done (h, next_gen (with_root cached t)) db'
      | None => Fault Panic
      end
  | Done _ None => Fault Panic
  | Fault f => Fault f
  end.
End Trie.
