(* ===== verification/TrieCodec.v ===== *)
(** * Encoding and decoding of nodes

    A tree in minimal form, in the form of the memory database or encoded, is
    read back as the node that is loaded for it.  Then the references between
    nodes: the subtrees a node refers to by their hash, [refs], are what the
    database finds as the children of its cached form, and every part of a tree
    that is stored on its own is reached through them. *)
From S2P Require Import Prelude BigMath Rlp VmTypes TrieEncoding TrieNode Trie TrieTree TrieRep TrieDb.
Import Rlp.

Section node_ind.
Variable P : node → Prop.
Hypothesis Hnil : P nil_node.
Hypothesis Hfull : ∀ cs fl, Forall P cs → P (fullNode cs fl).
Hypothesis Hshort : ∀ k n fl, P n → P (shortNode k n fl).
Hypothesis Hhash : ∀ b, P (hashNode b).
Hypothesis Hvalue : ∀ b, P (valueNode b).
Hypothesis Hraw : ∀ b, P (rawNode b).
Hypothesis Hrfull : ∀ cs, Forall P cs → P (rawFullNode cs).
Hypothesis Hrshort : ∀ k n, P n → P (rawShortNode k n).

Fixpoint node_ind' (n : node) : P n :=
  let each := fix each (cs : list node) : Forall P cs :=
    match cs with [] => Forall_nil_2 P | c :: cs => Forall_cons_2 P c cs (node_ind' c) (each cs) end in
  match n with
  | nil_node => Hnil
  | fullNode cs fl => Hfull cs fl (each cs)
  | shortNode k n fl => Hshort k n fl (node_ind' n)
  | hashNode b => Hhash b
  | valueNode b => Hvalue b
  | rawNode b => Hraw b
  | rawFullNode cs => Hrfull cs (each cs)
  | rawShortNode k n => Hrshort k n (node_ind' n)
  end.
End node_ind.

(** Lists of results. *)
Lemma mapM_lookup {A B} (f : A → option B) l r :
  mapM f l = Some r → length r = length l ∧ ∀ i x, l !! i = Some x → ∃ y, r !! i = Some y ∧ f x = Some y.
Proof.
  intros E%mapM_Some. split; [symmetry; by eapply Forall2_length|]. intros i x Hx.
  destruct (Forall2_lookup_l _ _ _ _ _ E Hx) as (y & Hy & Hf). eauto.
Qed.

Lemma mapM_map {A B C} (f : B → option C) (g : A → B) (h : A → C) l :
  (∀ i x, l !! i = Some x → f (g x) = Some (h x)) → mapM f (map g l) = Some (map h l).
Proof.
  intros Hf. apply mapM_Some. apply Forall2_same_length_lookup. rewrite !length_map. split; [done|].
  intros i x y Hx Hy. change (map g l) with (g <$> l) in Hx. change (map h l) with (h <$> l) in Hy.
  rewrite list_lookup_fmap in Hx. rewrite list_lookup_fmap in Hy. destruct (l !! i) as [a|] eqn:Ha; simplify_eq/=. by eapply Hf.
Qed.

Section Codec.
Context `{!Crypto}.

(** ** The form of the memory database *)

Fixpoint rawt (t : tree) : node :=
  match t with
  | TVal v => valueNode v
  | TShort k c => rawShortNode (compact k) (lref c (rawt c))
  | TFull ts => rawFullNode (map (λ c, match c with Some c => lref c (rawt c) | None => nil_node end) ts)
  end.

Lemma simplify_value n : ∀ r, simplifyNode n = Some r → node_value r = node_value n.
Proof.
  induction n as [|cs fl IH|k n fl IH| | | | |] using node_ind'; intros r E; simplify_eq/=; try done.
  - destruct (mapM _ cs) as [rs|] eqn:Em; simplify_eq/=. f_equal. apply list_eq. intros i.
    apply mapM_lookup in Em as [Hl Em]. rewrite !list_lookup_fmap.
    destruct (cs !! i) as [c|] eqn:Hc; cbn.
    + destruct (Em i c Hc) as (y & -> & Hy). cbn. f_equal.
      destruct (is_nil c) eqn:En; simplify_eq/=; [by rewrite En|].
      rewrite Forall_lookup in IH. pose proof (IH i c Hc y Hy) as ->.
      destruct (is_nil y) eqn:Ey; [|done]. destruct y; try done. destruct c; cbn in *; simplify_eq.
      * destruct (mapM _ Children); simplify_eq.
      * destruct (simplifyNode c); simplify_eq.
    + apply lookup_ge_None in Hc. rewrite (proj2 (lookup_ge_None rs i)); [done|]. lia.
  - destruct (simplifyNode n) as [m|] eqn:En; simplify_eq/=. by rewrite (IH m).
Qed.

Lemma node_value_ok n : value_ok (node_value n).
Proof.
  induction n as [|cs fl IH|k n fl IH| | | |cs IH|k n IH] using node_ind'; cbn; try done;
    (induction IH as [|c cs Hc Hcs IHcs]; cbn; [done|]; split; [by destruct (is_nil c)|done]).
Qed.

Lemma denotes_map {A} (f : A → value) (g : A → item) l :
  (∀ i x, l !! i = Some x → denote (f x) = Some (g x)) → denotes (map f l) = Some (map g l).
Proof.
  induction l as [|x l IH]; intros Hf; cbn; [done|].
  rewrite (Hf 0%nat x eq_refl), IH; [done|]. intros i y Hy. by apply (Hf (S i)).
Qed.

Lemma lref_not_nil c n : n ≠ nil_node → lref c n ≠ nil_node.
Proof. destruct c; cbn; [done|..]; by destruct (_ <? 32). Qed.

Lemma rawt_not_nil t : rawt t ≠ nil_node.
Proof. by destruct t. Qed.

Lemma loaded_not_nil gen t h : loaded gen t h ≠ nil_node.
Proof. by destruct t. Qed.

Lemma not_nil n : n ≠ nil_node → is_nil n = false.
Proof. by destruct n. Qed.

Lemma denote_lref c :
  denote (node_value (rawt c)) = Some (titem c) →
  denote (node_value (lref c (rawt c))) = Some (collapse c (titem c)).
Proof.
  intros E. destruct c; cbn [lref collapse]; [done|..]; unfold tenc, thash, tenc;
    destruct (_ <? 32); done.
Qed.

Lemma denote_rawt t : denote (node_value (rawt t)) = Some (titem t).
Proof.
  induction t as [v|k c IH|ts IH] using tree_ind'; [done|..].
  - cbn [rawt node_value titem]. rewrite denote_VList. cbn [denotes denote mbind option_bind].
    by rewrite denote_lref.
  - cbn [rawt node_value titem]. rewrite denote_VList, map_map.
    rewrite (denotes_map _ (λ c, match c with Some c => collapse c (titem c) | None => Str [] end)); [done|].
    intros i [c|] Hc; [|done]. rewrite not_nil by apply lref_not_nil, rawt_not_nil. apply denote_lref, (IH i c Hc).
Qed.

Lemma encode_simplified n t :
  simplifyNode n = Some (rawt t) → zlen (tenc t) < 2 ^ 63 → encode_node n = Some (tenc t).
Proof.
  intros Hs Hl. unfold encode_node. rewrite <-(simplify_value n _ Hs).
  rewrite (EncodeToBytes_enc _ (titem t)); [done|apply denote_rawt|apply node_value_ok|done].
Qed.

Lemma encode_rawt t : zlen (tenc t) < 2 ^ 63 → encode_node (rawt t) = Some (tenc t).
Proof.
  intros Hl. unfold encode_node.
  rewrite (EncodeToBytes_enc _ (titem t)); [done|apply denote_rawt|apply node_value_ok|done].
Qed.

(** Keys that have a compact form. *)
Definition keys_ok (t : tree) : Prop := ∀ k c, part t (TShort k c) → nibbles k ∨ hex_key k.

Lemma keys_ok_part t s : keys_ok t → part t s → keys_ok s.
Proof. intros Hk Hp k c Hs. apply (Hk k c). by eapply part_trans. Qed.

Lemma ok_keys t : ok t → keys_ok t.
Proof.
  induction 1 as [ns v Hn Hv|ns ts Hn Hne _ IH|ts Hl Hc IH Hv Htwo]; intros k c Hp.
  - inversion Hp as [|? ? ? Hp'|]; subst; [right; by apply hex_key_snoc|inversion Hp'].
  - inversion Hp as [|? ? ? Hp'|]; subst; [by left|by eapply IH].
  - inversion Hp as [| |? i t ? Hi Hp']; subst. pose proof (lookup_lt_Some _ _ _ Hi).
    destruct (decide (i = 16%nat)) as [->|].
    + destruct (Hv t Hi) as (v & -> & _). inversion Hp'.
    + eapply (IH i t); [lia|done..].
Qed.

Lemma compact_spec k : nibbles k ∨ hex_key k → hexToCompact k = Some (compact k) ∧ compactToHex (compact k) = Some k.
Proof. intros Hk. destruct (hexToCompact_total k Hk) as (c & E & Hc). unfold compact. by rewrite E. Qed.

Lemma expand_lref gen c :
  expandNode None (rawt c) gen = Some (loaded gen c None) →
  expandNode None (lref c (rawt c)) gen = Some (lref c (loaded gen c None)).
Proof. intros E. destruct c; cbn [lref]; [done|..]; destruct (_ <? 32); done. Qed.

Lemma expand_rawt gen t : keys_ok t → ∀ h, expandNode h (rawt t) gen = Some (loaded gen t h).
Proof.
  induction t as [v|k c IH|ts IH] using tree_ind'; intros Hk h; [done|..].
  - cbn [rawt expandNode loaded]. destruct (compact_spec k) as [_ ->]; [by eapply Hk, part_refl|].
    cbn [mbind option_bind]. rewrite expand_lref; [done|]. apply IH. by eapply keys_ok_part; [|apply part_short, part_refl].
  - cbn [rawt expandNode loaded].
    rewrite (mapM_map _ _ (λ c, match c with Some c => lref c (loaded gen c None) | None => nil_node end)); [done|].
    intros i [c|] Hc; [|done]. rewrite not_nil by apply lref_not_nil, rawt_not_nil. apply expand_lref, (IH i c Hc).
    by eapply keys_ok_part; [|eapply part_full; [exact Hc|apply part_refl]].
Qed.

Lemma gather_rawt t : is_Some (gatherChildren (rawt t)).
Proof.
  assert (Href : ∀ c, is_Some (gatherChildren (rawt c)) → is_Some (gatherChildren (lref c (rawt c)))).
  { intros c Hc. destruct c; cbn [lref]; [done|..]; destruct (_ <? 32); done. }
  induction t as [v|k c IH|ts IH] using tree_ind'; [done|by apply Href|].
  cbn [rawt gatherChildren]. apply fmap_is_Some. rewrite map_map. apply mapM_is_Some, Forall_lookup.
  intros i x Hx. apply lookup_take_Some in Hx as [Hx _]. change (map ?f ts) with (f <$> ts) in Hx.
  rewrite list_lookup_fmap in Hx. destruct (ts !! i) as [[c|]|] eqn:Hc; simplify_eq/=; [|done].
  apply Href. by apply (IH i).
Qed.

(** ** Sizes *)

(** Keys and values are far from the largest length a slice can have. *)
Definition fits (t : tree) : Prop := ∀ key v, hex_key key → tfind t key = Some v → zlen key + zlen v < 2 ^ 57.

Lemma headsize_le n : 0 <= n < 2 ^ 64 → 1 <= headsize n <= 9.
Proof.
  intros Hn. split; [by apply headsize_pos|]. unfold headsize. destruct (Z.ltb_spec n 56); [lia|].
  rewrite intsize_spec by lia. pose proof (zlen_Bytes_long n ltac:(lia)). lia.
Qed.

Lemma zlen_enc_str_le l : zlen l < 2 ^ 64 → zlen (enc_str l) <= zlen l + 9.
Proof.
  intros Hl. pose proof (zlen_nonneg l). unfold enc_str. destruct l as [|b0 [|b1 l]].
  - rewrite zlen_app, zlen_enc_head by lia. pose proof (headsize_le _ (conj (zlen_nonneg []) Hl)). lia.
  - destruct (_ <=? _); [lia|]. rewrite zlen_app, zlen_enc_head by lia. pose proof (headsize_le 1 ltac:(lia)). lia.
  - rewrite zlen_app, zlen_enc_head by lia. pose proof (headsize_le (zlen (b0 :: b1 :: l)) ltac:(lia)). lia.
Qed.

Lemma zlen_enc_lst its :
  zlen (concat (map enc its)) < 2 ^ 64 → zlen (enc (Lst its)) <= zlen (concat (map enc its)) + 9.
Proof.
  intros Hl. pose proof (zlen_nonneg (concat (map enc its))). cbn [enc]. rewrite zlen_app, zlen_enc_head by lia.
  pose proof (headsize_le (zlen (concat (map enc its))) ltac:(lia)). lia.
Qed.

Lemma zlen_concat (ls : list (list byte)) B :
  (∀ i l, ls !! i = Some l → zlen l <= B) → zlen (concat ls) <= zlen ls * B.
Proof.
  induction ls as [|l ls IH]; intros Hb; [done|]. cbn [concat]. rewrite zlen_app.
  pose proof (Hb 0%nat l eq_refl). specialize (IH (λ i, Hb (S i))).
  unfold zlen in *. cbn [length]. rewrite Nat2Z.inj_succ, Z.mul_succ_l. lia.
Qed.

Lemma zlen_enc_hash l : zlen (enc (Str (Keccak256 l))) = 33.
Proof.
  cbn [enc]. unfold enc_str. pose proof (length_Keccak256 l) as Hl. destruct (Keccak256 l) as [|b0 [|b1 k]] eqn:E; [done..|].
  rewrite zlen_app, zlen_enc_head; unfold zlen; rewrite Hl; [done|lia].
Qed.

Lemma zlen_enc_collapse c : ¬ is_val c → zlen (enc (collapse c (titem c))) <= 33.
Proof.
  intros Hc. destruct c; [by destruct Hc|..]; cbn [collapse];
    (destruct (Z.ltb_spec (zlen (enc (titem (TShort k c)))) 32) || destruct (Z.ltb_spec (zlen (enc (titem (TFull ts)))) 32));
    (lia || by rewrite zlen_enc_hash).
Qed.

Lemma length_compact k : nibbles k ∨ hex_key k → zlen (compact k) <= zlen k + 1.
Proof.
  intros Hk. destruct (compact_cases k Hk) as (term & ns & -> & Hn).
  assert (length (compact_of term ns) = length ns + (if term then 1 else 0))%nat as Hlen.
  { destruct term; cbn [compact_of]; [by rewrite length_app|lia]. }
  destruct (Nat.even (length ns)) eqn:He.
  - destruct (even_nibbles ns Hn He) as [b ->]. unfold compact. rewrite hexToCompact_even.
    rewrite length_key_nibbles in Hlen. unfold zlen. rewrite Hlen. simpl. lia.
  - destruct ns as [|b ns]; [done|]. apply Forall_cons_1 in Hn as [Hb Hn].
    destruct (even_nibbles ns Hn) as [b' ->].
    { cbn [length] in He. rewrite Nat.even_succ, <-Nat.negb_even in He. by destruct (Nat.even _). }
    unfold compact. rewrite hexToCompact_odd by done.
    cbn [length] in Hlen. rewrite length_key_nibbles in Hlen. unfold zlen. rewrite Hlen. simpl. lia.
Qed.

Lemma fits_short k c : nibbles k → fits (TShort k c) → fits c.
Proof.
  intros Hk Hf key v Hkey E. specialize (Hf (k ++ key) v). rewrite hex_key_app, tfind_short in Hf by done.
  specialize (Hf Hkey E). rewrite zlen_app in Hf. pose proof (zlen_nonneg k). lia.
Qed.

Lemma fits_child ts b t : fits (TFull ts) → nibble b → ts !! pos_of b = Some (Some t) → fits t.
Proof.
  intros Hf Hb Ht key v Hkey E. specialize (Hf (b :: key) v). rewrite tfind_full, Ht in Hf.
  specialize (Hf ltac:(apply hex_key_cons; auto) E). unfold zlen in *. cbn [length] in Hf. lia.
Qed.

Lemma fits_key k c : ok (TShort k c) → fits (TShort k c) → zlen k < 2 ^ 57.
Proof.
  intros Hok Hf. destruct (ok_has _ Hok) as (key & v & Hk & E & _). specialize (Hf key v Hk E).
  destruct (tfind_short_inv _ _ _ _ E) as (s & -> & _). rewrite zlen_app in Hf.
  pose proof (zlen_nonneg s). pose proof (zlen_nonneg v). lia.
Qed.

Lemma fits_value ts v : fits (TFull ts) → ts !! 16%nat = Some (Some (TVal v)) → zlen v < 2 ^ 57.
Proof.
  intros Hf Ht. specialize (Hf [terminator] v). rewrite tfind_full, pos_term, Ht in Hf.
  specialize (Hf ltac:(apply hex_key_cons; auto) eq_refl). unfold zlen in *. cbn [length] in Hf. lia.
Qed.

(** The encoding of a child of a full node. *)
Definition child_item (c : option tree) : item :=
  match c with Some c => collapse c (titem c) | None => Str [] end.

Lemma ok_not_val t : ok t → ¬ is_val t.
Proof. by intros [] []. Qed.

Lemma zlen_child ts i c :
  ok (TFull ts) → fits (TFull ts) → ts !! i = Some c → zlen (enc (child_item c)) <= 2 ^ 57 + 9.
Proof.
  intros Hok Hf Hc. destruct c as [c|]; [|by cbn].
  destruct (ok_child ts i c Hok Hc) as (b & -> & [[Hb Hokc]|[-> (v & -> & _)]]).
  - pose proof (zlen_enc_collapse c (ok_not_val c Hokc)). cbn [child_item]. lia.
  - pose proof (fits_value ts v Hf Hc). pose proof (zlen_enc_str_le v ltac:(lia)). cbn in *. lia.
Qed.

Lemma content_full ts :
  ok (TFull ts) → fits (TFull ts) → zlen (concat (map enc (map child_item ts))) <= 17 * (2 ^ 57 + 9).
Proof.
  intros Hok Hf. destruct (ok_full_inv ts Hok) as (Hl & _).
  pose proof (zlen_concat (map enc (map child_item ts)) (2 ^ 57 + 9)) as Hz.
  assert (zlen (map enc (map child_item ts)) = 17) as E by (unfold zlen; rewrite !length_map, Hl; done).
  rewrite E in Hz. apply Hz. intros i l Hi. rewrite map_map in Hi. change (map ?f ts) with (f <$> ts) in Hi.
  rewrite list_lookup_fmap in Hi. destruct (ts !! i) as [c|] eqn:Hc; simplify_eq/=. by eapply zlen_child.
Qed.

Lemma content_short k c :
  ok (TShort k c) → fits (TShort k c) →
  zlen (concat (map enc [Str (compact k); collapse c (titem c)])) <= 2 ^ 59.
Proof.
  intros Hok Hf. pose proof (fits_key k c Hok Hf) as Hk.
  assert (nibbles k ∨ hex_key k) as Hkk by (eapply (ok_keys _ Hok), part_refl).
  pose proof (length_compact k Hkk) as Hc. pose proof (zlen_enc_str_le (compact k) ltac:(lia)).
  cbn [map concat]. rewrite app_nil_r, zlen_app. cbn [enc].
  inversion Hok as [ns v Hn Hv|ns ts Hn Hne Hts|]; subst.
  - specialize (Hf _ v (hex_key_snoc ns Hn)). rewrite tfind_leaf, decide_True in Hf by done. specialize (Hf eq_refl).
    pose proof (zlen_nonneg (ns ++ [terminator])). cbn [collapse titem enc].
    pose proof (zlen_enc_str_le v ltac:(lia)). lia.
  - pose proof (zlen_enc_collapse (TFull ts) ltac:(by intros [])). lia.
Qed.

Lemma tenc_bound t : ok t → fits t → zlen (tenc t) < 2 ^ 62.
Proof.
  intros Hok Hf. destruct t as [v|k c|ts]; [by inversion Hok|..]; unfold tenc.
  - pose proof (content_short k c Hok Hf) as Hb. pose proof (zlen_enc_lst _ ltac:(eapply Z.le_lt_trans; [exact Hb|lia])) as He.
    cbn [titem]. lia.
  - pose proof (content_full ts Hok Hf) as Hb. pose proof (zlen_enc_lst _ ltac:(eapply Z.le_lt_trans; [exact Hb|lia])) as He.
    change (titem (TFull ts)) with (Lst (map child_item ts)). lia.
Qed.

(** ** Decoding *)

Ltac dr_step := cbn [mbind DR_bind mret DR_ret from_split with_path].

Lemma SplitList_enc its rest :
  zlen (enc (Lst its) ++ rest) < 2 ^ 64 → SplitList (enc (Lst its) ++ rest) = inl (concat (map enc its), rest).
Proof. intros Hl. unfold SplitList. by rewrite Split_enc_lemma. Qed.

Lemma SplitString_enc l rest :
  zlen (enc (Str l) ++ rest) < 2 ^ 64 → SplitString (enc (Str l) ++ rest) = inl (l, rest).
Proof.
  intros Hl. unfold SplitString. rewrite Split_enc_lemma by done.
  destruct l as [|b [|b' l]]; cbn [kind_of content_of]; [done|by destruct (_ <=? _)|done].
Qed.

Lemma zlen_concat_app its rest i :
  zlen (concat (map enc (i :: its)) ++ rest) = zlen (enc i) + zlen (concat (map enc its) ++ rest).
Proof. cbn [map concat]. by rewrite <-app_assoc, zlen_app. Qed.

Section decode.
Variable gen : Z.
Variable fuel : nat.
Notation embedded := (λ buf, decodeNode_fuel fuel None buf gen).

(** [t] is decoded where it is embedded. *)
Definition decodes (t : tree) : Prop := ∀ h rest,
  zlen (tenc t ++ rest) < 2 ^ 63 → decodeNode_fuel fuel h (tenc t ++ rest) gen = Some (inl (loaded gen t h)).

Lemma decodeRef_nil rest :
  zlen rest < 2 ^ 62 → decodeRef embedded (enc (Str []) ++ rest) = Some (inl (nil_node, rest)).
Proof.
  intros Hl. unfold decodeRef. rewrite Split_enc_lemma; [done|].
  rewrite zlen_app. change (zlen (enc (Str []))) with 1. lia.
Qed.

Lemma decodeRef_tree t rest :
  ok t → (zlen (tenc t) < 32 → decodes t) → zlen rest < 2 ^ 62 →
  decodeRef embedded (enc (collapse t (titem t)) ++ rest) = Some (inl (lref t (loaded gen t None), rest)).
Proof.
  intros Hok Hd Hl. unfold decodeRef. pose proof (zlen_enc_collapse t (ok_not_val t Hok)) as Hz.
  rewrite Split_enc_lemma by (rewrite zlen_app; lia). dr_step.
  assert (collapse t (titem t) = if zlen (tenc t) <? 32 then titem t else Str (thash t)) as Ec
    by (destruct t; [inversion Hok|done..]).
  assert (lref t (loaded gen t None) = if zlen (tenc t) <? 32 then loaded gen t None else hashNode (thash t)) as El
    by (destruct t; [inversion Hok|done..]).
  rewrite Ec, El. destruct (Z.ltb_spec (zlen (tenc t)) 32) as [Hs|Hb].
  - assert (kind_of (titem t) = List) as -> by (destruct t; [inversion Hok|done..]). cbv iota beta. dr_step.
    rewrite zlen_app. change (enc (titem t)) with (tenc t).
    replace (zlen (tenc t) + zlen rest - zlen rest) with (zlen (tenc t)) by lia.
    rewrite Z.gtb_ltb, (proj2 (Z.ltb_ge 32 (zlen (tenc t)))) by lia. rewrite (Hd Hs) by (rewrite zlen_app; lia). done.
  - unfold thash. pose proof (length_Keccak256 (tenc t)) as Hlen.
    destruct (Keccak256 (tenc t)) as [|b0 [|b1 l]] eqn:E; [done..|]. cbn [kind_of content_of].
    unfold zlen. rewrite Hlen. done.
Qed.

Lemma decode_children_ok names ts rest :
  length names = length ts → zlen rest < 2 ^ 61 →
  zlen (concat (map enc (map child_item ts)) ++ rest) < 2 ^ 62 →
  (∀ i t, ts !! i = Some (Some t) → ok t ∧ (zlen (tenc t) < 32 → decodes t)) →
  decode_children embedded names (concat (map enc (map child_item ts)) ++ rest) =
    Some (inl (map (λ c, match c with Some c => lref c (loaded gen c None) | None => nil_node end) ts, rest)).
Proof.
  revert names. induction ts as [|c ts IH]; intros [|name names] Hl Hr Hz Hc; try done.
  change (map child_item (c :: ts)) with (child_item c :: map child_item ts) in *.
  rewrite zlen_concat_app in Hz. cbn [concat map decode_children]. rewrite <-app_assoc.
  pose proof (zlen_nonneg (enc (child_item c))).
  assert (decodeRef embedded (enc (child_item c) ++ concat (map enc (map child_item ts)) ++ rest) =
    Some (inl (match c with Some c => lref c (loaded gen c None) | None => nil_node end,
               concat (map enc (map child_item ts)) ++ rest))) as ->.
  { destruct c as [c|]; [|apply decodeRef_nil; lia]. destruct (Hc 0%nat c eq_refl) as [Hok Hd].
    apply decodeRef_tree; [done..|lia]. }
  dr_step. rewrite IH; [done|by injection Hl|done|lia|]. intros i t Ht. by apply (Hc (S i)).
Qed.
End decode.

Lemma length_enc_in its i x : its !! i = Some x → (length (enc x) <= length (concat (map enc its)))%nat.
Proof.
  revert i. induction its as [|y its IH]; intros [|i] Hx; simplify_eq/=; rewrite length_app; [lia|].
  specialize (IH i Hx). lia.
Qed.

Lemma length_enc_lst its : (length (concat (map enc its)) < length (enc (Lst its)))%nat.
Proof. cbn [enc]. rewrite length_app. unfold enc_head. destruct (_ <? 56); cbn [length]; lia. Qed.

Lemma decode_start fuel h t its rest gen :
  titem t = Lst its → zlen (tenc t ++ rest) < 2 ^ 63 →
  decodeNode_fuel (S fuel) h (tenc t ++ rest) gen =
    let embedded := λ buf, decodeNode_fuel fuel None buf gen in
    if zlen its =? 2 then with_path "short" (decodeShort embedded h (concat (map enc its)) gen)
    else if zlen its =? 17 then with_path "full" (decodeFull embedded h (concat (map enc its)) gen)
    else throw (plain (BadListLength (zlen its))).
Proof.
  intros E Hl. unfold tenc in *. rewrite E in *. cbn [decodeNode_fuel].
  pose proof (length_enc_lst its) as Hlt. rewrite zlen_app in Hl. pose proof (zlen_nonneg rest).
  rewrite (proj2 (Z.eqb_neq _ _)) by (rewrite zlen_app; unfold zlen in *; lia).
  rewrite SplitList_enc by (rewrite zlen_app; lia). dr_step.
  rewrite CountValues_enc; [done|]. unfold zlen in *. lia.
Qed.

Lemma decode_leaf gen fuel ns v :
  nibbles ns → fits (TShort (ns ++ [terminator]) (TVal v)) → ok (TShort (ns ++ [terminator]) (TVal v)) →
  decodes gen (S fuel) (TShort (ns ++ [terminator]) (TVal v)).
Proof.
  intros Hn Hf Hok h rest Hl. set (k := ns ++ [terminator]) in *.
  rewrite (decode_start _ _ _ [Str (compact k); Str v]) by done. cbn [zlen length Z.of_nat]. cbv zeta.
  change (_ =? 2) with true. cbv iota. pose proof (content_short k (TVal v) Hok Hf) as Hc.
  cbn [map concat collapse titem] in Hc |- *. rewrite app_nil_r in Hc |- *.
  unfold decodeShort. rewrite SplitString_enc by lia. dr_step.
  destruct (compact_spec k) as [_ ->]; [right; by apply hex_key_snoc|]. cbn [fmap option_fmap option_map]. dr_step.
  unfold k at 1. rewrite hasTerm_key. rewrite <-(app_nil_r (enc (Str v))), SplitString_enc; [done|].
  rewrite app_nil_r. rewrite zlen_app in Hc. pose proof (zlen_nonneg (enc (Str (compact k)))). lia.
Qed.

Lemma decode_ext gen fuel ns ts :
  nibbles ns → fits (TShort ns (TFull ts)) → ok (TShort ns (TFull ts)) → ok (TFull ts) →
  (zlen (tenc (TFull ts)) < 32 → decodes gen fuel (TFull ts)) →
  decodes gen (S fuel) (TShort ns (TFull ts)).
Proof.
  intros Hn Hf Hok Hts Hd h rest Hl.
  rewrite (decode_start _ _ _ [Str (compact ns); collapse (TFull ts) (titem (TFull ts))]) by done. cbv zeta.
  change (_ =? 2) with true. cbv iota. pose proof (content_short ns (TFull ts) Hok Hf) as Hc.
  cbn [map concat] in Hc |- *. rewrite app_nil_r in Hc |- *.
  unfold decodeShort. rewrite SplitString_enc by lia. dr_step.
  destruct (compact_spec ns) as [_ ->]; [by left|]. cbn [fmap option_fmap option_map]. dr_step.
  rewrite last_nibbles by done. rewrite <-(app_nil_r (enc (collapse _ _))).
  rewrite decodeRef_tree; [done..|by cbn].
Qed.

Lemma full_last ts : ok (TFull ts) → ∃ ts' c, ts = ts' ++ [c] ∧ length ts' = 16%nat ∧ ts !! 16%nat = Some c.
Proof.
  intros (Hl & _)%ok_full_inv. destruct (exists_last (l := ts)) as (ts' & c & ->); [by destruct ts|].
  rewrite length_app in Hl. cbn [length] in Hl. exists ts', c. split_and!; [done|lia|].
  rewrite lookup_app_r by lia. by replace (16 - length ts')%nat with 0%nat by lia.
Qed.

Lemma decode_full gen fuel ts :
  fits (TFull ts) → ok (TFull ts) →
  (∀ i t, (i < 16)%nat → ts !! i = Some (Some t) → ok t ∧ (zlen (tenc t) < 32 → decodes gen fuel t)) →
  decodes gen (S fuel) (TFull ts).
Proof.
  intros Hf Hok Hd h rest Hl. rewrite (decode_start _ _ _ (map child_item ts)) by done. cbv zeta.
  destruct (full_last ts Hok) as (ts' & c & -> & Hl' & Hc). pose proof (content_full _ Hok Hf) as Hz.
  assert (zlen (map child_item (ts' ++ [c])) = 17) as ->.
  { unfold zlen. rewrite length_map, length_app, Hl'. done. }
  cbn [Z.eqb Pos.eqb]. unfold decodeFull.
  rewrite !map_app, concat_app in Hz |- *. cbn [map concat] in Hz |- *. rewrite app_nil_r in Hz |- *.
  rewrite zlen_app in Hz. pose proof (zlen_nonneg (concat (map enc (map child_item ts')))).
  pose proof (zlen_nonneg (enc (child_item c))).
  pose proof (zlen_child _ _ _ Hok Hf Hc) as Hcz.
  rewrite (decode_children_ok gen fuel); [|done|lia|rewrite zlen_app; lia|].
  2:{ intros i t Ht. pose proof (lookup_lt_Some _ _ _ Ht). apply (Hd i); [lia|]. by apply lookup_app_l_Some. }
  dr_step. cbn [loaded]. rewrite map_app. cbn [map].
  destruct c as [c|].
  - destruct (proj1 (proj2 (proj2 (ok_full_inv _ Hok))) c Hc) as (v & -> & Hv). cbn [child_item collapse titem] in *.
    rewrite <-(app_nil_r (enc (Str v))), SplitString_enc by (rewrite app_nil_r; lia). dr_step.
    destruct v as [|b v]; [done|]. cbn [lref loaded]. by rewrite (proj2 (Z.gtb_lt (zlen (b :: v)) 0)) by (unfold zlen; cbn; lia).
  - cbn [child_item]. rewrite <-(app_nil_r (enc (Str []))), SplitString_enc by reflexivity. done.
Qed.

(** An embedded node is shorter than the node it is in. *)
Lemma embedded_shorter t its i c :
  titem t = Lst its → its !! i = Some (collapse c (titem c)) → zlen (tenc c) < 32 →
  (length (tenc c) < length (tenc t))%nat.
Proof.
  intros Et Hi Hs. assert (collapse c (titem c) = titem c) as Ec.
  { destruct c; [done|..]; apply Z.ltb_lt in Hs; unfold tenc in Hs; cbn [collapse]; by rewrite Hs. }
  rewrite Ec in Hi. pose proof (length_enc_in _ _ _ Hi). pose proof (length_enc_lst its).
  unfold tenc at 2. rewrite Et. unfold tenc. lia.
Qed.

Lemma decode_ok gen t : ok t → fits t → ∀ fuel, (length (tenc t) < fuel)%nat → decodes gen fuel t.
Proof.
  induction 1 as [ns v Hn Hv|ns ts Hn Hne Hts IH|ts Hl Hc IH Hv Htwo]; intros Hf fuel Hfuel;
    (destruct fuel as [|fuel]; [lia|]).
  - apply decode_leaf; [done..|by constructor].
  - apply decode_ext; [done..|by constructor|done|]. intros Hs. apply IH; [by eapply fits_short|].
    pose proof (embedded_shorter (TShort ns (TFull ts)) _ 1 (TFull ts) eq_refl eq_refl Hs). lia.
  - assert (ok (TFull ts)) as Hok by by constructor. apply decode_full; [done..|].
    intros i t Hi Ht. split; [by eapply Hc|]. intros Hs. apply (IH i); [done..| |].
    + apply (fits_child ts (zb (Z.of_nat i))); [done|by apply nibble_zb|]. by rewrite pos_zb by lia.
    + pose proof (embedded_shorter (TFull ts) (map child_item ts) i t eq_refl) as Hlt.
      change (map child_item ts) with (child_item <$> ts) in Hlt.
      rewrite list_lookup_fmap, Ht in Hlt. specialize (Hlt eq_refl Hs). lia.
Qed.

(** A node is read back as it is loaded. *)
Lemma decodeNode_tenc gen t h :
  ok t → fits t → decodeNode h (tenc t) gen = Some (inl (loaded gen t h)).
Proof.
  intros Hok Hf. unfold decodeNode. pose proof (tenc_bound t Hok Hf).
  pose proof (decode_ok gen t Hok Hf (S (length (tenc t))) ltac:(lia) h []) as Hd. rewrite app_nil_r in Hd.
  apply Hd. lia.
Qed.

Lemma mustDecodeNode_tenc gen t h :
  ok t → fits t → mustDecodeNode h (tenc t) gen = Some (loaded gen t h).
Proof. intros Hok Hf. unfold mustDecodeNode. by rewrite decodeNode_tenc. Qed.
End Codec.

(** ** References between nodes *)

#[local] Arguments HashBytes : simpl never.
#[local] Arguments BytesToHash : simpl never.

Lemma mjoin_concat {A} (ls : list (list A)) : mjoin ls = concat ls.
Proof. induction ls as [|l ls IH]; [done|]. cbn. by rewrite <-IH. Qed.

Section Refs.
Context `{!Crypto}.

Definition ref_of (c : tree) (sub : list tree) : list tree :=
  match c with TVal _ => [] | _ => if zlen (tenc c) <? 32 then sub else [c] end.

Fixpoint refs (t : tree) : list tree :=
  match t with
  | TVal _ => []
  | TShort _ c => ref_of c (refs c)
  | TFull ts => concat (take 16 (map (λ c, match c with Some c => ref_of c (refs c) | None => [] end) ts))
  end.

(** The hash a tree is filed under. *)
Definition tkey (t : tree) : Hash := BytesToHash (thash t).

Lemma gather_lref c :
  gatherChildren (rawt c) = Some (map tkey (refs c)) →
  gatherChildren (lref c (rawt c)) = Some (map tkey (ref_of c (refs c))).
Proof. intros Hc. destruct c; cbn [lref ref_of]; [done|..]; destruct (_ <? 32); done. Qed.

Lemma gather_refs t : gatherChildren (rawt t) = Some (map tkey (refs t)).
Proof.
  induction t as [v|k c IH|ts IH] using tree_ind'; [done|by apply gather_lref|].
  cbn [rawt gatherChildren refs]. rewrite map_map.
  assert (mapM id (take 16 (map (λ c, gatherChildren match c with Some c => lref c (rawt c) | None => nil_node end) ts)) =
    Some (map (map tkey) (take 16 (map (λ c, match c with Some c => ref_of c (refs c) | None => [] end) ts)))) as ->.
  2:{ cbn. by rewrite mjoin_concat, concat_map. }
  rewrite !firstn_map. rewrite map_map. apply mapM_map. intros i c Hi. cbn [id].
  apply lookup_take_Some in Hi as [Hi _]. destruct c as [c|]; [|done]. apply gather_lref. by apply (IH i).
Qed.

Lemma refs_full ts s : s ∈ refs (TFull ts) ↔ ∃ i c, (i < 16)%nat ∧ ts !! i = Some (Some c) ∧ s ∈ ref_of c (refs c).
Proof.
  cbn [refs]. rewrite <-mjoin_concat. rewrite list_elem_of_join. split.
  - intros (l & Hs & Hl). apply list_elem_of_lookup in Hl as [i Hi]. apply lookup_take_Some in Hi as [Hi Hlt].
    change (map ?f ts) with (f <$> ts) in Hi. rewrite list_lookup_fmap in Hi.
    destruct (ts !! i) as [[c|]|] eqn:Hc; [| |done]; injection Hi as <-; [|by apply elem_of_nil in Hs]. eauto.
  - intros (i & c & Hlt & Hc & Hs). exists (ref_of c (refs c)). split; [done|]. apply list_elem_of_lookup. exists i.
    apply lookup_take_Some. split; [|done]. change (map ?f ts) with (f <$> ts). by rewrite list_lookup_fmap, Hc.
Qed.

Lemma ref_of_cases c s : s ∈ ref_of c (refs c) → ¬ is_val c ∧ ((s = c ∧ big c) ∨ (s ∈ refs c ∧ ¬ big c)).
Proof.
  unfold big. destruct c as [v|k c|ts]; cbn [ref_of]; [by intros ?%elem_of_nil|..].
  - intros Hs. split; [by intros []|]. destruct (Z.ltb_spec (zlen (tenc (TShort k c))) 32); [right; split; [done|lia]|].
    apply list_elem_of_singleton in Hs. by left.
  - intros Hs. split; [by intros []|]. destruct (Z.ltb_spec (zlen (tenc (TFull ts))) 32); [right; split; [done|lia]|].
    apply list_elem_of_singleton in Hs. by left.
Qed.

Lemma ref_of_in c s : ¬ is_val c → (s = c ∧ big c) ∨ (s ∈ refs c ∧ ¬ big c) → s ∈ ref_of c (refs c).
Proof.
  unfold big. destruct c as [v|k c|ts]; cbn [ref_of]; [by intros []|..]; intros _ [[-> Hb]|[Hs Hb]].
  all: first [rewrite (proj2 (Z.ltb_ge _ _)) by done; by left|rewrite (proj2 (Z.ltb_lt _ _)) by lia; done].
Qed.

(** A reference is to a large part. *)
Lemma refs_part t : ∀ s, s ∈ refs t → part t s ∧ big s ∧ ¬ is_val s.
Proof.
  induction t as [v|k c IH|ts IH] using tree_ind'; intros s Hs.
  - by apply elem_of_nil in Hs.
  - cbn [refs] in Hs. apply ref_of_cases in Hs as [Hv [[-> Hb]|[Hs _]]].
    + split_and!; [apply part_short, part_refl|done..].
    + destruct (IH s Hs) as (? & ? & ?). split_and!; [by apply part_short|done..].
  - apply refs_full in Hs as (i & c & Hi & Hc & Hs). apply ref_of_cases in Hs as [Hv [[-> Hb]|[Hs _]]].
    + split_and!; [by eapply part_full, part_refl|done..].
    + destruct (IH i c Hc s Hs) as (? & ? & ?). split_and!; [by eapply part_full|done..].
Qed.

Lemma refs_ok t : ok t → fits t → ∀ s, s ∈ refs t → ok s ∧ fits s.
Proof.
  induction 1 as [ns v Hn Hv|ns ts Hn Hne Hts IH|ts Hl Hc IH Hv Htwo]; intros Hf s Hs.
  - by apply elem_of_nil in Hs.
  - assert (fits (TFull ts)) as Hf' by by eapply fits_short.
    cbn [refs] in Hs. apply ref_of_cases in Hs as [_ [[-> _]|[Hs _]]]; [done|by apply IH].
  - apply refs_full in Hs as (i & c & Hi & Hic & Hs).
    assert (fits c). { apply (fits_child ts (zb (Z.of_nat i))); [done|by apply nibble_zb|]. by rewrite pos_zb by lia. }
    apply ref_of_cases in Hs as [_ [[-> _]|[Hs _]]]; [split; [by eapply Hc|done]|by apply (IH i c)].
Qed.

(** A large part is the tree itself or below one of its references. *)
Lemma part_refs t : ok t → ∀ s, part t s → ¬ is_val s → big s → s = t ∨ ∃ r, r ∈ refs t ∧ part r s.
Proof.
  assert (Hsub : ∀ c s, ¬ is_val c → part c s → (s = c ∨ ∃ r, r ∈ refs c ∧ part r s) → big s →
    ∃ r, r ∈ ref_of c (refs c) ∧ part r s).
  { intros c s Hv Hp Hc Hb. destruct (Z.ltb_spec (zlen (tenc c)) 32) as [Hs|Hs].
    - destruct Hc as [->|(r & Hr & Hpr)]; [unfold big in Hb; lia|]. exists r. split; [|done].
      apply ref_of_in; [done|]. right. split; [done|]. unfold big. lia.
    - exists c. split; [|done]. apply ref_of_in; [done|]. by left. }
  induction 1 as [ns v Hn Hv|ns ts Hn Hne Hts IH|ts Hl Hc IH Hv Htwo]; intros s Hp Hvs Hb.
  - inversion Hp as [|? ? ? Hp'|]; subst; [by left|]. inversion Hp'; subst. by destruct Hvs.
  - inversion Hp as [|? ? ? Hp'|]; subst; [by left|]. right. apply Hsub; [by intros []|done|by apply IH|done].
  - inversion Hp as [| |? i c ? Hi Hp']; subst; [by left|]. right.
    assert (i < 16)%nat as Hlt.
    { pose proof (lookup_lt_Some _ _ _ Hi). destruct (decide (i = 16)%nat) as [->|]; [|lia].
      destruct (Hv c Hi) as (v & -> & _). inversion Hp'; subst. by destruct Hvs. }
    destruct (Hsub c s) as (r & Hr & Hpr); [by apply ok_not_val, (Hc i)|done|by apply (IH i)|done|].
    exists r. split; [|done]. apply refs_full. eauto.
Qed.
End Refs.

(** ** References read off an encoding *)

(** The references in a node that has been decoded. *)
Fixpoint hashes_of (n : node) : list Hash :=
  match n with
  | shortNode _ v _ => hashes_of v
  | fullNode cs _ => concat (take 16 (map hashes_of cs))
  | hashNode h => [BytesToHash h]
  | _ => []
  end.

Definition enc_refs (e : list byte) : list Hash :=
  match decodeNode None e 0 with Some (inl n) => hashes_of n | _ => [] end.

Lemma hashes_loaded `{!Crypto} gen t : ∀ h, hashes_of (loaded gen t h) = map tkey (refs t).
Proof.
  assert (Href : ∀ c, (∀ h, hashes_of (loaded gen c h) = map tkey (refs c)) →
    hashes_of (lref c (loaded gen c None)) = map tkey (ref_of c (refs c))).
  { intros c Hc. destruct c; cbn [lref ref_of]; [done|..]; destruct (_ <? 32); done. }
  induction t as [v|k c IH|ts IH] using tree_ind'; intros h; [done|by apply Href|].
  cbn [loaded hashes_of refs]. rewrite concat_map, !firstn_map, !map_map. f_equal.
  apply list_eq. intros i. change (map ?f ?l) with (f <$> l). rewrite !list_lookup_fmap.
  destruct (take 16 ts !! i) as [[c|]|] eqn:Hi; [|done..]. cbn. f_equal.
  apply lookup_take_Some in Hi as [Hi _]. by apply Href, (IH i).
Qed.

Lemma enc_refs_tenc `{!Crypto} t : ok t → fits t → enc_refs (tenc t) = map tkey (refs t).
Proof. intros Hok Hf. unfold enc_refs. rewrite decodeNode_tenc by done. apply hashes_loaded. Qed.
