(* ===== verification/TrieFlush.v ===== *)
(** * The list of nodes in order of insertion

    The cached nodes are linked in both directions from the oldest to the
    newest.  [chain] says that a list of hashes is what the links spell; adding a
    node at the end and taking one out keep it. *)
From S2P Require Import Prelude BigMath TrieNode TrieDb.

(** A node without its links. *)
Definition shape (c : cachedNode) : node * Z * Z * gmap Hash Z := (cnode c, csize c, parents c, children c).

Definition alike (ns ns' : gmap Hash cachedNode) : Prop := ∀ h, shape <$> ns !! h = shape <$> ns' !! h.

#[export] Instance alike_equiv : Equivalence alike.
Proof. split; [by intros ns h|by intros ns ns' Hs h|by intros ns1 ns2 ns3 H12 H23 h; rewrite H12]. Qed.

Lemma alike_some ns ns' h c : alike ns ns' → ns !! h = Some c → ∃ c', ns' !! h = Some c' ∧ shape c' = shape c.
Proof.
  intros Hs Hc. specialize (Hs h). rewrite Hc in Hs. cbn in Hs.
  destruct (ns' !! h) as [c'|]; [|done]. exists c'. split; [done|]. symmetry. by apply (inj Some).
Qed.

Lemma alike_is_Some ns ns' h : alike ns ns' → is_Some (ns !! h) ↔ is_Some (ns' !! h).
Proof.
  intros Hs. specialize (Hs h). destruct (ns !! h), (ns' !! h); try done; split; intros []; try done; eauto.
Qed.

Lemma alike_insert ns h c c' : ns !! h = Some c → shape c' = shape c → alike (<[h := c']> ns) ns.
Proof.
  intros Hc Hcc h'. destruct (decide (h = h')) as [<-|Hn]; [|by rewrite lookup_insert_ne].
  rewrite lookup_insert_eq, Hc. cbn. by rewrite Hcc.
Qed.

Lemma alike_insert_both ns h h' c c1 c' c1' :
  h ≠ h' → ns !! h = Some c → ns !! h' = Some c' → shape c1 = shape c → shape c1' = shape c' →
  alike (<[h' := c1']> (<[h := c1]> ns)) ns.
Proof.
  intros Hn Hc Hc' Hs Hs'. trans (<[h := c1]> ns); [|by eapply alike_insert].
  apply (alike_insert _ _ c'); [|done]. by rewrite lookup_insert_ne.
Qed.

Record chain (ns : gmap Hash cachedNode) (o n : Hash) (l : list Hash) : Prop := {
  ch_nodup : NoDup l;
  ch_zero : 0 ∉ l;
  ch_some h : h ∈ l → is_Some (ns !! h);
  ch_first : o = default 0 (list.head l);
  ch_last : l = [] ∨ list.last l = Some n;
  ch_next i h c : l !! i = Some h → ns !! h = Some c → flushNext c = default 0 (l !! S i);
  ch_prev i h c : l !! S i = Some h → ns !! h = Some c → l !! i = Some (flushPrev c)
}.

Lemma chain_nil ns n : chain ns 0 n [].
Proof. split; try done; [constructor|by intros ?%elem_of_nil|by intros ? ?%elem_of_nil|by left]. Qed.

Lemma chain_o ns o n l : chain ns o n l → o = 0 ↔ l = [].
Proof.
  intros Hc. rewrite (ch_first _ _ _ _ Hc). destruct l as [|h l]; [done|]. cbn. split; [|done].
  intros ->. destruct (ch_zero _ _ _ _ Hc). by left.
Qed.

(** The links are all that matters. *)
Lemma chain_same ns ns' o n l :
  chain ns o n l → (∀ h, h ∈ l → is_Some (ns' !! h)) →
  (∀ h c', h ∈ l → ns' !! h = Some c' → ∃ c, ns !! h = Some c ∧ flushNext c' = flushNext c ∧ flushPrev c' = flushPrev c) →
  chain ns' o n l.
Proof.
  intros Hc Hs Hl. split; try apply Hc; try done.
  - intros i h c' Hi Hh. destruct (Hl h c') as (c & Hcc & -> & _); [by eapply list_elem_of_lookup_2|done|].
    by eapply (ch_next _ _ _ _ Hc).
  - intros i h c' Hi Hh. destruct (Hl h c') as (c & Hcc & _ & ->); [by eapply list_elem_of_lookup_2|done|].
    by eapply (ch_prev _ _ _ _ Hc).
Qed.

(** ** At the end *)

Lemma last_index (l : list Hash) n i h :
  NoDup l → list.last l = Some n → l !! i = Some h → h = n ↔ S i = length l.
Proof.
  intros Hd Hl Hi. rewrite last_lookup in Hl. split.
  - intros ->. pose proof (NoDup_lookup _ _ _ _ Hd Hi Hl). destruct l; [done|]. cbn in *. lia.
  - intros E. rewrite <-E in Hl. cbn in Hl. congruence.
Qed.

Lemma chain_snoc ns o n l h e :
  chain ns o n l → h ∉ l → h ≠ 0 → flushPrev e = n → flushNext e = 0 →
  (o = 0 → chain (<[h := e]> ns) h h (l ++ [h])) ∧
  (o ≠ 0 → ∀ c, ns !! n = Some c → chain (<[n := with_flushNext h c]> (<[h := e]> ns)) o h (l ++ [h])).
Proof.
  intros Hc Hh H0 Hp Hn. split.
  - intros Ho. apply (chain_o _ _ _ _ Hc) in Ho as ->. cbn. split.
    + apply NoDup_singleton.
    + intros E%list_elem_of_singleton. done.
    + intros x ->%list_elem_of_singleton. rewrite lookup_insert_eq. eauto.
    + done.
    + by right.
    + intros [|i] x c; [|done]. intros [= <-]. rewrite lookup_insert_eq. by intros [= <-].
    + by intros [|i] x c.
  - intros Ho c Hcn. destruct (ch_last _ _ _ _ Hc) as [->|Hl]; [by destruct Ho; apply (chain_o _ _ _ _ Hc)|].
    assert (n ∈ l) as Hin by by apply last_Some_elem_of. assert (n ≠ h) by (by intros ->).
    assert (Hlook : ∀ x c', x ∈ l → <[n := with_flushNext h c]> (<[h := e]> ns) !! x = Some c' →
      ∃ c0, ns !! x = Some c0 ∧ flushPrev c' = flushPrev c0 ∧ flushNext c' = if decide (x = n) then h else flushNext c0).
    { intros x c' Hx. destruct (decide (n = x)) as [<-|Hne].
      - rewrite lookup_insert_eq. intros [= <-]. exists c. by rewrite decide_True.
      - rewrite lookup_insert_ne by done. rewrite lookup_insert_ne by (by intros <-). intros Hx'. exists c'. by rewrite decide_False. }
    split.
    + apply list.NoDup_app. split_and!; [apply Hc|by intros x Hx ->%list_elem_of_singleton|apply NoDup_singleton].
    + intros [?|E%list_elem_of_singleton]%elem_of_app; [by apply (ch_zero _ _ _ _ Hc)|done].
    + intros x Hx. destruct (decide (n = x)) as [<-|]; [rewrite lookup_insert_eq; eauto|]. rewrite lookup_insert_ne by done.
      destruct (decide (h = x)) as [<-|]; [rewrite lookup_insert_eq; eauto|]. rewrite lookup_insert_ne by done.
      apply (ch_some _ _ _ _ Hc). apply elem_of_app in Hx as [?|E%list_elem_of_singleton]; [done|by destruct E].
    + rewrite (ch_first _ _ _ _ Hc). destruct l; [by apply elem_of_nil in Hin|done].
    + right. by rewrite last_snoc.
    + intros i x c' Hi. destruct (decide (i < length l)%nat) as [Hlt|Hge].
      * rewrite lookup_app_l in Hi by done. intros Hx.
        destruct (Hlook x c') as (c0 & Hc0 & _ & ->); [by eapply list_elem_of_lookup_2|done|].
        pose proof (last_index l n i x (ch_nodup _ _ _ _ Hc) Hl Hi). destruct (decide (x = n)) as [->|Hne].
        -- assert (S i = length l) as -> by naive_solver. rewrite lookup_app_r, Nat.sub_diag by lia. done.
        -- rewrite (ch_next _ _ _ _ Hc i x c0) by done. rewrite lookup_app_l; [done|].
           assert (S i ≠ length l) by naive_solver. lia.
      * rewrite lookup_app_r in Hi by lia. destruct (i - length l)%nat as [|j] eqn:Ej; [|done]. injection Hi as <-.
        rewrite lookup_insert_ne, lookup_insert_eq by done. intros [= <-].
        rewrite lookup_ge_None_2; [done|]. rewrite length_app. cbn. lia.
    + intros i x c' Hi. destruct (decide (S i < length l)%nat) as [Hlt|Hge].
      * rewrite lookup_app_l in Hi by done. intros Hx.
        destruct (Hlook x c') as (c0 & Hc0 & -> & _); [by eapply list_elem_of_lookup_2|done|].
        rewrite lookup_app_l by lia. by eapply (ch_prev _ _ _ _ Hc).
      * rewrite lookup_app_r in Hi by lia. destruct (S i - length l)%nat as [|j] eqn:Ej; [|done]. injection Hi as <-.
        rewrite lookup_insert_ne, lookup_insert_eq by done. intros [= <-]. rewrite Hp.
        rewrite lookup_app_l by lia. rewrite last_lookup in Hl. by replace (Init.Nat.pred (length l)) with i in Hl by lia.
Qed.

Lemma wp_write_node F h f Q db :
  (∀ c, nodes db !! h = Some c → Q () (with_nodes (<[h := f c]> (nodes db)) db)) → is_Some (nodes db !! h) →
  wp F (write_node h f) Q db.
Proof.
  intros HQ [c Hc]. unfold write_node. apply wp_bind, wp_gets, wp_bind. eapply wp_must; [exact Hc|].
  apply wp_modify. by apply HQ.
Qed.

(** ** Taking a node out *)

Lemma NoDup_delete (l : list Hash) i h : NoDup l → l !! i = Some h → NoDup (delete i l) ∧ ∀ x, x ∈ delete i l ↔ x ∈ l ∧ x ≠ h.
Proof.
  intros Hd Hi. rewrite <-(take_drop_middle l i h Hi) in Hd. rewrite delete_take_drop.
  apply list.NoDup_app in Hd as (H1 & H2 & H3). apply list.NoDup_cons in H3 as [H3 H4].
  split.
  - apply list.NoDup_app. split_and!; [done| |done]. intros x Hx Hx'. apply (H2 x Hx). by right.
  - intros x. rewrite <-(take_drop_middle l i h Hi) at 3. rewrite !elem_of_app, elem_of_cons. split.
    + intros [Hx|Hx]; [split; [auto|]|split; [auto|]]; intros ->; [|done]. apply (H2 h Hx). by left.
    + naive_solver.
Qed.

(** The neighbours of a node that is taken out are linked to each other. *)
Lemma chain_delete ns ns' o n o' n' l i h c :
  chain ns o n l → l !! i = Some h → ns !! h = Some c →
  (∀ j x c', l !! j = Some x → ns' !! x = Some c' → j ≠ i → ∃ c0, ns !! x = Some c0 ∧
     flushNext c' = (if decide (S j = i) then flushNext c else flushNext c0) ∧
     (i ≠ 0%nat → flushPrev c' = if decide (j = S i) then flushPrev c else flushPrev c0)) →
  (i = 0%nat → ∀ j x c', l !! S (S j) = Some x → ns' !! x = Some c' → ∃ c0, ns !! x = Some c0 ∧ flushPrev c' = flushPrev c0) →
  (∀ x, x ∈ l → is_Some (ns' !! x)) →
  o' = default 0 (list.head (delete i l)) → delete i l = [] ∨ list.last (delete i l) = Some n' →
  chain ns' o' n' (delete i l).
Proof.
  intros Hc Hi Hh Hl Hl0 Hs Ho Hn. destruct (NoDup_delete l i h (ch_nodup _ _ _ _ Hc) Hi) as [Hd Hin]. split; try done.
  - intros [? _]%Hin. by apply (ch_zero _ _ _ _ Hc).
  - intros x [? _]%Hin. by apply Hs.
  - intros j x c'. rewrite !list_lookup_delete. case_decide as Hj; intros Hx Hx'.
    + destruct (Hl j x c') as (c0 & Hc0 & -> & _); [done|done|lia|]. destruct (decide (S j = i)) as [<-|].
      * rewrite (ch_next _ _ _ _ Hc (S j) h c) by done. rewrite decide_False by lia. done.
      * rewrite (ch_next _ _ _ _ Hc j x c0) by done. rewrite decide_True by lia. done.
    + destruct (Hl (S j) x c') as (c0 & Hc0 & -> & _); [done|done|lia|]. rewrite decide_False by lia.
      rewrite (ch_next _ _ _ _ Hc (S j) x c0) by done. rewrite decide_False by lia. done.
  - intros j x c'. rewrite !list_lookup_delete. case_decide as Hj; intros Hx Hx'.
    + destruct (Hl (S j) x c') as (c0 & Hc0 & _ & Hp); [done|done|lia|].
      specialize (Hp ltac:(lia)). rewrite decide_False in Hp by lia. rewrite Hp, decide_True by lia. by eapply (ch_prev _ _ _ _ Hc).
    + destruct (decide (i = 0)%nat) as [->|Hi0].
      * destruct (Hl0 eq_refl j x c') as (c0 & Hc0 & ->); [done..|]. rewrite decide_False by lia. by eapply (ch_prev _ _ _ _ Hc).
      * destruct (Hl (S (S j)) x c') as (c0 & Hc0 & _ & Hp); [done|done|lia|].
        rewrite Hp by done. destruct (decide (S (S j) = S i)) as [E|].
        -- injection E as <-. rewrite decide_True by lia. by eapply (ch_prev _ _ _ _ Hc).
        -- rewrite decide_False by lia. by eapply (ch_prev _ _ _ _ Hc).
Qed.

Lemma chain_index ns o n l i h :
  chain ns o n l → l !! i = Some h → (h = o ↔ i = 0%nat) ∧ (h = n ↔ S i = length l).
Proof.
  intros Hc Hi. split.
  - rewrite (ch_first _ _ _ _ Hc). destruct l as [|x l]; [done|]. cbn. split.
    + intros ->. by apply (NoDup_lookup _ _ _ _ (ch_nodup _ _ _ _ Hc) Hi).
    + intros ->. cbn in Hi. congruence.
  - destruct (ch_last _ _ _ _ Hc) as [->|Hl]; [done|]. apply last_index; [apply Hc|done|done].
Qed.

(** The three places a node can be at: first, last and between two others. *)
Section unlink.
  Context (ns : gmap Hash cachedNode) (o n : Hash) (l : list Hash) (i : nat) (h : Hash) (c : cachedNode).
  Context (Hc : chain ns o n l) (Hi : l !! i = Some h) (Hh : ns !! h = Some c).

Lemma next_of : flushNext c = default 0 (l !! S i).
Proof. by eapply (ch_next _ _ _ _ Hc). Qed.

Lemma prev_of : i ≠ 0%nat → l !! pred i = Some (flushPrev c).
Proof. intros Hi0. destruct i as [|j]; [done|]. by eapply (ch_prev _ _ _ _ Hc). Qed.

Lemma alike_there ns' : alike ns' ns → ∀ x, x ∈ l → is_Some (ns' !! x).
Proof. intros Ha x Hx. apply (alike_is_Some _ _ _ Ha). by apply (ch_some _ _ _ _ Hc). Qed.

Lemma first_left : i ≠ 0%nat → o = default 0 (list.head (delete i l)).
Proof. intros Hi0. rewrite (ch_first _ _ _ _ Hc). destruct l as [|y l']; [done|]. by destruct i. Qed.

Lemma chain_unlink_first q :
  i = 0%nat → ns !! flushNext c = Some q →
  chain (<[flushNext c := with_flushPrev 0 q]> ns) (flushNext c) n (delete i l).
Proof.
  intros Hi0 Hq. pose proof next_of as Hnext. eapply chain_delete; [exact Hc|exact Hi|exact Hh|..].
  - intros j x c' Hx Hx' Hj. destruct (decide (flushNext c = x)) as [<-|].
    + rewrite lookup_insert_eq in Hx'. injection Hx' as <-. exists q. by rewrite decide_False by lia.
    + rewrite lookup_insert_ne in Hx' by done. exists c'. by rewrite decide_False by lia.
  - intros _ j x c' Hx Hx'. destruct (decide (flushNext c = x)) as [<-|].
    + rewrite Hnext, Hi0 in Hx. destruct (l !! 1%nat) as [y|] eqn:Ey; cbn in Hx.
      * by pose proof (NoDup_lookup _ _ _ _ (ch_nodup _ _ _ _ Hc) Ey Hx).
      * apply lookup_lt_Some in Hx. apply lookup_ge_None in Ey. lia.
    + rewrite lookup_insert_ne in Hx' by done. by exists c'.
  - apply alike_there. by eapply alike_insert.
  - rewrite Hnext, Hi0. destruct l as [|y l']; [by rewrite lookup_nil in Hi|]. cbn. by destruct l'.
  - rewrite Hi0. destruct l as [|y l']; [by rewrite lookup_nil in Hi|]. cbn. destruct l'; [by left|right].
    destruct (ch_last _ _ _ _ Hc) as [?|Hl]; [done|]. exact Hl.
Qed.

(** What the links are once the predecessor has been changed. *)
Lemma chain_prev_changed p j x c' :
  i ≠ 0%nat → ns !! flushPrev c = Some p → l !! j = Some x → j ≠ i → j ≠ S i →
  <[flushPrev c := with_flushNext (flushNext c) p]> ns !! x = Some c' →
  ∃ c0, ns !! x = Some c0 ∧ flushNext c' = (if decide (S j = i) then flushNext c else flushNext c0) ∧
    (i ≠ 0%nat → flushPrev c' = if decide (j = S i) then flushPrev c else flushPrev c0).
Proof.
  intros Hi0 Hp Hx Hj Hj1 Hx'. pose proof (prev_of Hi0) as Hpi. destruct (decide (flushPrev c = x)) as [<-|Hne].
  - rewrite lookup_insert_eq in Hx'. injection Hx' as <-. exists p. rewrite (decide_False (P := j = S i)) by done. split_and!; [done| |done].
    pose proof (NoDup_lookup _ _ _ _ (ch_nodup _ _ _ _ Hc) Hpi Hx). rewrite decide_True by lia. done.
  - rewrite lookup_insert_ne in Hx' by done. exists c'. rewrite (decide_False (P := j = S i)) by done. split_and!; [done| |done]. rewrite decide_False; [done|].
    intros E. apply Hne. rewrite <-E in Hpi. cbn in Hpi. congruence.
Qed.

Lemma chain_unlink_last p :
  i ≠ 0%nat → S i = length l → ns !! flushPrev c = Some p →
  chain (<[flushPrev c := with_flushNext 0 p]> ns) o (flushPrev c) (delete i l).
Proof.
  intros Hi0 Hlast Hp. assert (flushNext c = 0) as E0 by (rewrite next_of, lookup_ge_None_2; [done|lia]).
  rewrite <-E0. eapply chain_delete; [exact Hc|exact Hi|exact Hh|..].
  - intros j x c' Hx Hx' Hj. apply (chain_prev_changed p); try done. apply lookup_lt_Some in Hx. lia.
  - done.
  - apply alike_there. by eapply alike_insert.
  - by apply first_left.
  - right. rewrite last_lookup, length_delete by eauto. rewrite list_lookup_delete_lt by lia.
    replace (Init.Nat.pred (length l - 1)) with (pred i) by lia. by apply prev_of.
Qed.

Lemma chain_unlink_between p q :
  i ≠ 0%nat → S i ≠ length l → ns !! flushPrev c = Some p → ns !! flushNext c = Some q →
  flushPrev c ≠ flushNext c ∧
  chain (<[flushNext c := with_flushPrev (flushPrev c) q]> (<[flushPrev c := with_flushNext (flushNext c) p]> ns)) o n (delete i l).
Proof.
  intros Hi0 Hlast Hp Hq. pose proof (prev_of Hi0) as Hpi. pose proof (lookup_lt_Some _ _ _ Hi).
  assert (Hx1 : l !! S i = Some (flushNext c)).
  { rewrite next_of. destruct (lookup_lt_is_Some_2 l (S i)) as [x ->]; [lia|done]. }
  assert (flushPrev c ≠ flushNext c) as Hpq.
  { intros E. rewrite E in Hpi. pose proof (NoDup_lookup _ _ _ _ (ch_nodup _ _ _ _ Hc) Hpi Hx1). lia. }
  split; [done|]. eapply chain_delete; [exact Hc|exact Hi|exact Hh|..].
  - intros j x c' Hx Hx' Hj. destruct (decide (flushNext c = x)) as [<-|Hnx].
    + rewrite lookup_insert_eq in Hx'. injection Hx' as <-. exists q. split; [done|].
      pose proof (NoDup_lookup _ _ _ _ (ch_nodup _ _ _ _ Hc) Hx1 Hx). subst j. rewrite decide_False by lia.
      split; [done|]. intros _. by rewrite decide_True.
    + rewrite lookup_insert_ne in Hx' by done. apply (chain_prev_changed p); try done. intros ->. congruence.
  - done.
  - apply alike_there. eapply alike_insert_both; eauto.
  - by apply first_left.
  - right. destruct (ch_last _ _ _ _ Hc) as [E|Hl]; [by rewrite E in Hi|]. rewrite last_lookup in Hl |- *.
    rewrite length_delete by eauto. rewrite list_lookup_delete_ge by lia.
    replace (S (Init.Nat.pred (length l - 1))) with (Init.Nat.pred (length l)) by lia. done.
Qed.
End unlink.

Lemma unlink_ok F db l i h c :
  chain (nodes db) (oldest db) (newest db) l → l !! i = Some h → nodes db !! h = Some c → is_Some (nodes db !! 0) →
  wp F (unlink h c) (λ _ db', ∃ ns' o' n', db' = with_ends o' n' (with_nodes ns' db) ∧ alike ns' (nodes db) ∧
    chain ns' o' n' (delete i l)) db.
Proof.
  intros Hc Hi Hh H0. destruct (chain_index _ _ _ _ _ _ Hc Hi) as [Ho Hn].
  assert (is_Some (nodes db !! flushNext c)) as [q Hq].
  { rewrite (next_of _ _ _ _ _ _ _ Hc Hi Hh). destruct (l !! S i) as [x|] eqn:Ex; [|done].
    apply (ch_some _ _ _ _ Hc). by eapply list_elem_of_lookup_2. }
  unfold unlink. apply wp_bind, wp_gets, wp_bind, wp_gets. destruct (Z.eqb_spec h (oldest db)) as [E|Hno].
  { apply Ho in E. apply wp_bind, wp_modify, wp_write_node; cbn [nodes with_ends]; [|eauto].
    intros q' Hq'. simplify_eq. eexists _, _, _. split_and!; [reflexivity|by eapply alike_insert|].
    by apply (chain_unlink_first _ _ _ _ _ _ _ Hc Hi Hh). }
  assert (i ≠ 0%nat) as Hi0 by (intros ->; apply Hno; by apply Ho).
  pose proof (prev_of _ _ _ _ _ _ _ Hc Hi Hh Hi0) as Hpi.
  destruct (ch_some _ _ _ _ Hc (flushPrev c)) as [p Hp]; [by eapply list_elem_of_lookup_2|].
  destruct (Z.eqb_spec h (newest db)) as [E|Hnn].
  { apply Hn in E. apply wp_bind, wp_modify, wp_write_node; cbn [nodes with_ends]; [|eauto].
    intros p' Hp'. simplify_eq. eexists _, _, _. split_and!; [reflexivity|by eapply alike_insert|].
    by apply (chain_unlink_last _ _ _ _ _ _ _ Hc Hi Hh). }
  destruct (chain_unlink_between _ _ _ _ _ _ _ Hc Hi Hh p q) as [Hpq Hch]; [done|by intros ?%Hn|done..|].
  apply wp_bind, wp_write_node; [|eauto]. intros p' Hp'. simplify_eq.
  apply wp_write_node; cbn [nodes with_nodes]; [|rewrite lookup_insert_ne by done; eauto].
  intros q' Hq'. rewrite lookup_insert_ne in Hq' by done. simplify_eq.
  eexists _, _, _. split_and!; [| |exact Hch]; [reflexivity|].
  eapply alike_insert_both; eauto.
Qed.
