(* ===== verification/TrieDbOk.v ===== *)
(** * The database of tries keeps what is written to it

    What the database holds is addressed by its hash.  Of the encodings that
    occur ([E]) no two have the same hash, and none refers back to itself through
    others ([rank]); this is assumed of the hash function, for these encodings
    only.  What a node in memory or on disk refers to is there too: on disk, or
    for a node in memory, inserted before it. *)
From S2P Require Import Prelude BigMath Rlp VmTypes TrieEncoding TrieNode Trie TrieTree TrieRep TrieDb TrieCodec TrieFlush.

#[local] Arguments HashBytes : simpl never.
#[local] Arguments BytesToHash : simpl never.
#[local] Arguments mem_Get : simpl never.

Section DbOk.
Context `{!Crypto} `{!MapOrder}.

Notation keccak_hash e := (BytesToHash (Keccak256 e)).

(** The encodings that occur do not clash. *)
Record distinct (E : list byte → Prop) : Prop := {
  d_inj x y : E x → E y → Keccak256 x = Keccak256 y → x = y;
  d_zero x : E x → keccak_hash x ≠ 0
}.

(** No encoding refers to itself, through others or directly. *)
Definition acyclic (E : list byte → Prop) (rank : Hash → nat) : Prop :=
  ∀ e x, E e → x ∈ enc_refs e → (rank x < rank (keccak_hash e))%nat.

Lemma HashBytes_keccak e : HashBytes (keccak_hash e) = Keccak256 e.
Proof. apply HashBytes_BytesToHash, length_Keccak256. Qed.

Lemma keccak_hash_inj x y : keccak_hash x = keccak_hash y → Keccak256 x = Keccak256 y.
Proof. apply BytesToHash_inj; apply length_Keccak256. Qed.

Lemma distinct_hash E x y : distinct E → E x → E y → keccak_hash x = keccak_hash y → x = y.
Proof. intros Hd Hx Hy Hh. apply keccak_hash_inj in Hh. by apply (d_inj E Hd). Qed.

Variable E : list byte → Prop.
Variable rank : Hash → nat.

(** The references in the node itself, without those from outside. *)
Definition own_refs (c : cachedNode) : option (list Hash) :=
  match cnode c with rawNode _ => Some [] | n => gatherChildren n end.

Lemma childs_own c own : own_refs c = Some own → childs c = Some (map fst (range (children c)) ++ own).
Proof.
  unfold own_refs, childs. destruct (cnode c); try (intros Eg; by rewrite Eg).
  intros [= <-]. by rewrite app_nil_r.
Qed.

(** A cached node holds the encoding its key is the hash of. *)
Definition cached_ok (h : Hash) (c : cachedNode) : Prop :=
  ∃ e, E e ∧ h = keccak_hash e ∧ cached_rlp c = Some e ∧ own_refs c = Some (enc_refs e) ∧
    ∀ gen, obj c h gen = mustDecodeNode (Some (HashBytes h)) e gen.

(** On disk. *)
Definition filed (db : Database) (h : Hash) : Prop := is_Some (mem_Get (diskdb db) (HashBytes h)).

(** The nodes in order of insertion, what they refer to before them or on disk. *)
Record listed (db : Database) (l : list Hash) : Prop := {
  li_chain : chain (nodes db) (oldest db) (newest db) l;
  li_all h : is_Some (nodes db !! h) → h = 0 ∨ h ∈ l;
  li_order i e x : l !! i = Some (keccak_hash e) → E e → x ∈ enc_refs e →
    filed db x ∨ ∃ j, (j < i)%nat ∧ l !! j = Some x
}.

Record db_inv (db : Database) : Prop := {
  di_nodes h c : nodes db !! h = Some c → h ≠ 0 → cached_ok h c;
  di_disk h e : 0 <= h < 2 ^ 256 → mem_Get (diskdb db) (HashBytes h) = Some e → E e ∧ h = keccak_hash e;
  di_meta : is_Some (nodes db !! 0);
  di_rank h c x : nodes db !! h = Some c → h ≠ 0 → is_Some (children c !! x) → x ≠ 0 ∧ (rank x < rank h)%nat;
  di_closed e x : E e → filed db (keccak_hash e) → x ∈ enc_refs e → filed db x;
  di_list : ∃ l, listed db l
}.

(** ** A later database *)

Definition grows (db db' : Database) : Prop := ∀ h gen n,
  db_node db h gen = Some n → n ≠ nil_node → db_node db' h gen = Some n.

#[export] Instance grows_preorder : PreOrder grows.
Proof.
  split; [by intros db h gen n|]. intros db1 db2 db3 H12 H23 h gen n Hn Hne. auto.
Qed.

Lemma entry_grows db db' t : grows db db' → entry (db_node db) t → entry (db_node db') t.
Proof. intros Hg He gen. apply Hg; [apply He|apply loaded_not_nil]. Qed.

Lemma stored_grows db db' t : grows db db' → stored (db_node db) t → stored (db_node db') t.
Proof. intros Hg Hs s Hp Hv Hb. eapply entry_grows; [done|]. by apply Hs. Qed.

Lemma flag_ok_grows db db' top fl t : grows db db' → flag_ok (db_node db) top fl t → flag_ok (db_node db') top fl t.
Proof.
  unfold flag_ok. intros Hg. destruct (hash fl); [|done]. intros (? & ? & Hd). split_and!; [done..|].
  intros Hf. destruct (Hd Hf). split; [by eapply entry_grows|by eapply stored_grows].
Qed.

Lemma Rep_grows db db' top n t : grows db db' → Rep (db_node db) top n t → Rep (db_node db') top n t.
Proof.
  intros Hg. induction 1 as [|top k n fl t Hr IH Hf|top cs fl ts Hl Hn Hc IH Hf|top t Hv Hb He Hs].
  - constructor.
  - constructor; [done|]. by eapply flag_ok_grows.
  - constructor; [done..|]. by eapply flag_ok_grows.
  - constructor; [done..|by eapply entry_grows|by eapply stored_grows].
Qed.

(** ** Lookups by hash *)

Lemma nodes_entry db t c :
  ok t → fits t → distinct E → db_inv db → E (tenc t) →
  nodes db !! keccak_hash (tenc t) = Some c → entry (db_node db) t.
Proof.
  intros Hok Hf Hd Hinv Ht Hc gen. unfold db_node, thash. rewrite Hc.
  destruct (di_nodes _ Hinv _ _ Hc) as (e & He & Hh & _ & _ & Hobj); [by eapply d_zero|].
  rewrite Hobj, HashBytes_keccak. apply keccak_hash_inj in Hh.
  rewrite (d_inj _ Hd e (tenc t)) by done. by apply mustDecodeNode_tenc.
Qed.

(** What can be loaded is in memory or on disk. *)
Lemma entry_there db t : entry (db_node db) t → is_Some (nodes db !! tkey t) ∨ filed db (tkey t).
Proof.
  intros He. specialize (He 0). unfold db_node in He. fold (tkey t) in He. unfold filed.
  destruct (nodes db !! tkey t); [eauto|]. destruct (mem_Get _ _); [eauto|].
  injection He as He. by apply eq_sym, loaded_not_nil in He.
Qed.

(** A cached node apart from its counts. *)
Definition core (c : cachedNode) : node * gmap Hash Z * Hash * Hash := (cnode c, children c, flushPrev c, flushNext c).

Lemma core_ok h c c' : cnode c = cnode c' → cached_ok h c → cached_ok h c'.
Proof.
  intros E1 (e & He & Hh & Hr & Hc & Ho). exists e. unfold cached_rlp, own_refs, obj in *. by rewrite <-E1.
Qed.

(** The same nodes. *)
Definition same_nodes (ns ns' : gmap Hash cachedNode) : Prop := ∀ h, core <$> ns !! h = core <$> ns' !! h.

#[export] Instance same_nodes_equiv : Equivalence same_nodes.
Proof. split; [by intros ns h|by intros ns ns' Hs h|by intros ns1 ns2 ns3 H12 H23 h; rewrite H12]. Qed.

Lemma same_nodes_alter ns h f : (∀ c, core (f c) = core c) → same_nodes (alter f h ns) ns.
Proof.
  intros Hf h'. destruct (decide (h = h')) as [<-|Hn]; [|by rewrite lookup_alter_ne].
  rewrite lookup_alter_eq. destruct (ns !! h) as [c|]; [|done]. cbn. by rewrite Hf.
Qed.

Lemma same_nodes_foldl (f : cachedNode → cachedNode) hs ns :
  (∀ c, core (f c) = core c) → same_nodes (foldl (λ ns h, alter f h ns) ns hs) ns.
Proof.
  intros Hf. revert ns. induction hs as [|h hs IH]; intros ns; [done|]. cbn [foldl].
  rewrite IH. by apply same_nodes_alter.
Qed.

Lemma same_nodes_some ns ns' h c : same_nodes ns ns' → ns !! h = Some c → ∃ c', ns' !! h = Some c' ∧ core c' = core c.
Proof.
  intros Hs Hc. specialize (Hs h). rewrite Hc in Hs. cbn in Hs.
  destruct (ns' !! h) as [c'|]; [|done]. exists c'. split; [done|]. symmetry. by apply (inj Some).
Qed.

Lemma same_nodes_chain ns ns' o n l : same_nodes ns ns' → chain ns o n l → chain ns' o n l.
Proof.
  intros Hs Hc. eapply chain_same; [exact Hc|..].
  - intros h Hh. destruct (ch_some _ _ _ _ Hc h Hh) as [c Hcc].
    destruct (same_nodes_some _ _ _ _ Hs Hcc) as (c' & -> & _). eauto.
  - intros h c' Hh Hc'. symmetry in Hs. destruct (same_nodes_some _ _ _ _ Hs Hc') as (c & Hcc & Ec).
    exists c. injection Ec as _ _ -> ->. done.
Qed.

(** A cached node apart from its counts and links. *)
Definition content (c : cachedNode) : node * gmap Hash Z := (cnode c, children c).

Definition same_content (ns ns' : gmap Hash cachedNode) : Prop := ∀ h, content <$> ns !! h = content <$> ns' !! h.

#[export] Instance same_content_equiv : Equivalence same_content.
Proof. split; [by intros ns h|by intros ns ns' Hs h|by intros ns1 ns2 ns3 H12 H23 h; rewrite H12]. Qed.

Lemma same_content_some ns ns' h c :
  same_content ns ns' → ns !! h = Some c → ∃ c', ns' !! h = Some c' ∧ content c' = content c.
Proof.
  intros Hs Hc. specialize (Hs h). rewrite Hc in Hs. cbn in Hs.
  destruct (ns' !! h) as [c'|]; [|done]. exists c'. split; [done|]. symmetry. by apply (inj Some).
Qed.

Lemma same_content_none ns ns' h : same_content ns ns' → ns !! h = None → ns' !! h = None.
Proof. intros Hs Hc. specialize (Hs h). rewrite Hc in Hs. by destruct (ns' !! h). Qed.

Lemma same_nodes_content ns ns' : same_nodes ns ns' → same_content ns ns'.
Proof. intros Hs h. specialize (Hs h). destruct (ns !! h), (ns' !! h); try done. injection Hs as E1 E2 _ _. cbn. unfold content. by rewrite E1, E2. Qed.

Lemma alike_content ns ns' : alike ns ns' → same_content ns ns'.
Proof. intros Hs h. specialize (Hs h). destruct (ns !! h), (ns' !! h); try done. injection Hs as E1 _ _ E2. cbn. unfold content. by rewrite E1, E2. Qed.

Lemma same_content_insert ns ns' h c c' :
  same_content ns ns' → content c = content c' → same_content (<[h := c]> ns) (<[h := c']> ns').
Proof.
  intros Hs Hc h'. destruct (decide (h = h')) as [<-|]; [by rewrite !lookup_insert_eq; cbn; rewrite Hc|].
  by rewrite !lookup_insert_ne.
Qed.

Lemma same_content_set ns h c c' : ns !! h = Some c → content c' = content c → same_content (<[h := c']> ns) ns.
Proof.
  intros Hc Hcc h'. destruct (decide (h = h')) as [<-|]; [rewrite lookup_insert_eq, Hc; cbn; by rewrite Hcc|].
  by rewrite lookup_insert_ne.
Qed.

Lemma obj_content c c' h gen : content c = content c' → obj c h gen = obj c' h gen.
Proof. intros [= E1 E2]. unfold obj. by rewrite E1. Qed.

(** ** Changes that keep the invariant *)

Lemma listed_zero db l : listed db l → 0 ∉ l.
Proof. intros Hl. apply (ch_zero _ _ _ _ (li_chain _ _ Hl)). Qed.

(** A database that holds the same nodes. *)
Lemma inv_same db db' :
  db_inv db → diskdb db' = diskdb db → same_content (nodes db) (nodes db') → (∃ l, listed db' l) →
  db_inv db' ∧ grows db db'.
Proof.
  intros Hinv Hdisk Hs Hl. assert (Hfiled : ∀ h, filed db' h ↔ filed db h) by (intros h; unfold filed; by rewrite Hdisk).
  assert (Hback : ∀ h c, nodes db' !! h = Some c → ∃ c', nodes db !! h = Some c' ∧ content c' = content c).
  { intros h c Hc. symmetry in Hs. by eapply same_content_some. }
  split.
  - split; [| | | | |done].
    + intros h c (c' & Hc' & Ec)%Hback Hh. eapply core_ok; [|by apply (di_nodes _ Hinv)]. by injection Ec.
    + rewrite Hdisk. apply (di_disk _ Hinv).
    + destruct (di_meta _ Hinv) as [c Hc]. destruct (same_content_some _ _ _ _ Hs Hc) as (c' & -> & _). eauto.
    + intros h c x (c' & Hc' & Ec)%Hback Hh Hx. injection Ec as _ Ec. rewrite <-Ec in Hx. by eapply (di_rank _ Hinv).
    + intros e x He. rewrite !Hfiled. by apply (di_closed _ Hinv).
  - intros h gen n. unfold db_node. destruct (nodes db !! h) as [c|] eqn:Hc.
    + destruct (same_content_some _ _ _ _ Hs Hc) as (c' & -> & Ec). by rewrite (obj_content c' c).
    + rewrite (same_content_none _ _ _ Hs Hc), Hdisk. done.
Qed.

(** A database with one node more. *)
Lemma inv_add db db' l e c :
  distinct E → E e → db_inv db → listed db l → nodes db !! keccak_hash e = None →
  cached_ok (keccak_hash e) c → children c = ∅ →
  (∀ x, x ∈ enc_refs e → (x ≠ 0 ∧ is_Some (nodes db !! x)) ∨ filed db x) →
  diskdb db' = diskdb db → same_content (<[keccak_hash e := c]> (nodes db)) (nodes db') →
  chain (nodes db') (oldest db') (newest db') (l ++ [keccak_hash e]) → db_inv db' ∧ grows db db'.
Proof.
  intros Hd He Hinv Hl Hnew Hc Hch Hrefs Hdisk Hs Hchain.
  assert (Hfiled : ∀ h, filed db' h ↔ filed db h) by (intros h; unfold filed; by rewrite Hdisk).
  assert (Hback : ∀ h c1, nodes db' !! h = Some c1 →
    (h = keccak_hash e ∧ content c1 = content c) ∨ (h ≠ keccak_hash e ∧ ∃ c', nodes db !! h = Some c' ∧ content c' = content c1)).
  { intros h c1 Hc1. symmetry in Hs. destruct (same_content_some _ _ _ _ Hs Hc1) as (c' & Hc' & Ec).
    destruct (decide (keccak_hash e = h)) as [<-|Hne].
    - rewrite lookup_insert_eq in Hc'. injection Hc' as <-. by left.
    - rewrite lookup_insert_ne in Hc' by done. right. eauto. }
  pose proof (d_zero _ Hd _ He) as Hz0.
  split.
  - split.
    + intros h c1 [[-> Ec]|(_ & c' & Hc' & Ec)]%Hback Hh; (eapply core_ok; [|done || by apply (di_nodes _ Hinv)]); by injection Ec.
    + rewrite Hdisk. apply (di_disk _ Hinv).
    + destruct (di_meta _ Hinv) as [m Hm]. destruct (same_content_some _ _ 0 m Hs) as (m' & -> & _); [|eauto].
      by rewrite lookup_insert_ne.
    + intros h c1 x [[-> Ec]|(_ & c' & Hc' & Ec)]%Hback Hh Hx; injection Ec as _ Ec.
      * rewrite Ec, Hch, lookup_empty in Hx. by destruct Hx.
      * rewrite <-Ec in Hx. by eapply (di_rank _ Hinv).
    + intros e' x He'. rewrite !Hfiled. by apply (di_closed _ Hinv).
    + exists (l ++ [keccak_hash e]). split; [done| |].
      * intros h [c1 [[-> _]|(_ & c' & Hc' & _)]%Hback]; [right; apply elem_of_app; right; by left|].
        destruct (li_all _ _ Hl h); [eauto|by left|]. right. apply elem_of_app. by left.
      * intros i e' x Hi He' Hx. destruct (decide (i < length l)%nat) as [Hlt|Hge].
        -- rewrite lookup_app_l in Hi by done. destruct (li_order _ _ Hl i e' x Hi He' Hx) as [?|(j & Hj & Hjl)].
           ++ left. by apply Hfiled.
           ++ right. exists j. split; [done|]. apply lookup_app_l_Some. done.
        -- rewrite lookup_app_r in Hi by lia. destruct (i - length l)%nat as [|?] eqn:Ei; [|done]. injection Hi as Hi.
           apply (distinct_hash E) in Hi as <-; [|done..].
           destruct (Hrefs x Hx) as [[Hx0 Hxs]|?]; [|left; by apply Hfiled].
           destruct (li_all _ _ Hl x Hxs) as [?|Hxl]; [done|]. apply list_elem_of_lookup in Hxl as [j Hj].
           right. exists j. split; [apply lookup_lt_Some in Hj; lia|]. by apply lookup_app_l_Some.
  - intros h gen n. unfold db_node. destruct (decide (keccak_hash e = h)) as [<-|Hne].
    + destruct (same_content_some _ _ (keccak_hash e) c Hs) as (c1 & -> & Ec); [by rewrite lookup_insert_eq|].
      rewrite Hnew. destruct (mem_Get (diskdb db) (HashBytes (keccak_hash e))) as [e'|] eqn:Hm; [|by intros [= <-]].
      destruct (di_disk _ Hinv _ _ (BytesToHash_range _) Hm) as [He' Hh].
      apply (distinct_hash E) in Hh as <-; [|done..].
      destruct Hc as (e' & He2 & Hh & _ & _ & Ho). apply (distinct_hash E) in Hh as <-; [|done..].
      rewrite (obj_content c1 c) by done. by rewrite Ho.
    + destruct (nodes db !! h) as [c'|] eqn:Hc'.
      * destruct (same_content_some _ _ h c' Hs) as (c1 & -> & Ec); [by rewrite lookup_insert_ne|].
        by rewrite (obj_content c1 c').
      * rewrite (same_content_none _ _ h Hs); [by rewrite Hdisk|]. by rewrite lookup_insert_ne.
Qed.

(** ** Inserting a node *)

Lemma rawt_cached t c : ok t → fits t → E (tenc t) → cnode c = rawt t → cached_ok (keccak_hash (tenc t)) c.
Proof.
  intros Hok Hf He Hc. exists (tenc t). pose proof (tenc_bound t Hok Hf).
  assert ((∃ k c, rawt t = rawShortNode k c) ∨ (∃ cs, rawt t = rawFullNode cs)) as Hraw
    by (destruct t; [inversion Hok|eauto..]).
  assert (encode_node (rawt t) = Some (tenc t)) as Henc by (apply encode_rawt; lia).
  pose proof (gather_refs t) as Hg. pose proof (λ gen, expand_rawt gen t (ok_keys t Hok)) as Hx.
  rewrite enc_refs_tenc by done.
  split_and!; [done|done|..]; unfold cached_rlp, own_refs, obj; rewrite Hc.
  - destruct Hraw as [(k & c' & Er)|[cs Er]]; rewrite Er in *; done.
  - destruct Hraw as [(k & c' & Er)|[cs Er]]; rewrite Er in *; done.
  - intros gen. rewrite mustDecodeNode_tenc by done. rewrite HashBytes_keccak. fold (thash t).
    destruct Hraw as [(k & c' & Er)|[cs Er]]; rewrite Er in *; apply Hx.
Qed.

Definition entry_of (t : tree) (last : Hash) : cachedNode :=
  {| cnode := rawt t; csize := uint16 (zlen (tenc t)); parents := 0; children := ∅; flushPrev := last; flushNext := 0 |}.

Lemma insert_fresh db n t :
  distinct E → db_inv db → ok t → fits t → E (tenc t) → simplifyNode n = Some (rawt t) →
  (∀ x, x ∈ enc_refs (tenc t) → (x ≠ 0 ∧ is_Some (nodes db !! x)) ∨ filed db x) →
  nodes db !! keccak_hash (tenc t) = None →
  wp (λ _, False) (insert (keccak_hash (tenc t)) (tenc t) n)
    (λ _ db', db_inv db' ∧ grows db db' ∧ is_Some (nodes db' !! keccak_hash (tenc t))) db.
Proof.
  intros Hd Hinv Hok Hf He Hs Hrefs Hnew. set (h := keccak_hash (tenc t)) in *. unfold insert.
  apply wp_bind, wp_gets. rewrite Hnew. apply wp_bind. eapply wp_must; [exact Hs|].
  apply wp_bind, wp_gets. cbv zeta. fold (entry_of t (newest db)). set (entry := entry_of t (newest db)).
  pose proof (rawt_cached t entry Hok Hf He eq_refl) as Hc. fold h in Hc.
  assert (Hcs : ∃ cs, childs entry = Some cs).
  { destruct Hc as (e & _ & _ & _ & Ho & _). apply childs_own in Ho. eauto. }
  destruct Hcs as [cs Hcs]. apply wp_bind. eapply wp_must; [exact Hcs|].
  apply wp_bind. apply wp_modify. apply wp_bind. apply wp_modify. cbn [nodes with_nodes].
  set (ns := foldl _ (nodes db) cs).
  assert (same_nodes ns (nodes db)) as Hns by by apply same_nodes_foldl.
  destruct (di_list _ Hinv) as [l Hl].
  assert (chain ns (oldest db) (newest db) l) as Hch.
  { eapply same_nodes_chain; [symmetry; exact Hns|]. apply Hl. }
  assert (same_content (<[h := entry]> (nodes db)) (<[h := entry]> ns)) as Hsn.
  { apply same_content_insert; [symmetry; by apply same_nodes_content|done]. }
  assert (h ∉ l) as Hhl.
  { intros Hin. apply (ch_some _ _ _ _ (li_chain _ _ Hl)) in Hin as [? Hin]. congruence. }
  destruct (chain_snoc ns (oldest db) (newest db) l h entry Hch Hhl (d_zero _ Hd _ He) eq_refl eq_refl) as [Hz Hnz].
  assert (Hdone : ∀ db' c', diskdb db' = diskdb db → same_content (<[h := entry]> ns) (nodes db') →
    chain (nodes db') (oldest db') (newest db') (l ++ [h]) → nodes db' !! h = Some c' →
    db_inv db' ∧ grows db db' ∧ is_Some (nodes db' !! h)).
  { intros db' c' Hdisk Hcont Hch' Hsome. rewrite Hsome.
    destruct (inv_add db db' l (tenc t) entry Hd He Hinv Hl Hnew Hc eq_refl Hrefs Hdisk) as [? ?];
      [by etrans|done|]. split_and!; [done..|eauto]. }
  apply wp_bind, wp_gets. cbn [oldest with_nodes]. apply wp_bind.
  destruct (Z.eqb_spec (oldest db) 0) as [Ho0|Ho0].
  - apply wp_modify, wp_modify. eapply Hdone; cbn; [done|done|by apply Hz|by rewrite lookup_insert_eq].
  - assert (Hlast : ∃ cn, ns !! newest db = Some cn ∧ newest db ≠ h).
    { destruct (ch_last _ _ _ _ Hch) as [->|Hlast]; [by destruct Ho0; apply (chain_o _ _ _ _ Hch)|].
      apply last_Some_elem_of in Hlast. destruct (ch_some _ _ _ _ Hch _ Hlast) as [cn Hcn]. exists cn. split; [done|]. by intros Ee; rewrite Ee in Hlast. }
    destruct Hlast as (cn & Hcn & Hnh).
    apply wp_bind, wp_write_node; cbn [nodes with_nodes]; [|rewrite lookup_insert_ne by done; eauto].
    intros c1 Hc1. rewrite lookup_insert_ne, Hcn in Hc1 by done. injection Hc1 as <-. apply wp_modify, wp_modify.
    eapply Hdone; cbn; [done| |by apply Hnz|by rewrite lookup_insert_ne, lookup_insert_eq].
    symmetry. eapply same_content_set; [by rewrite lookup_insert_ne|done].
Qed.

(** Afterwards the node can be loaded, and so can all that could before. *)
Lemma insert_tree db n t :
  distinct E → db_inv db → ok t → fits t → E (tenc t) → simplifyNode n = Some (rawt t) →
  (∀ s, s ∈ refs t → E (tenc s) ∧ entry (db_node db) s) →
  wp (λ _, False) (insert (keccak_hash (tenc t)) (tenc t) n)
    (λ _ db', db_inv db' ∧ grows db db' ∧ entry (db_node db') t ∧ is_Some (nodes db' !! keccak_hash (tenc t))) db.
Proof.
  intros Hd Hinv Hok Hf He Hs Hrefs. destruct (nodes db !! keccak_hash (tenc t)) as [c|] eqn:Hc.
  - unfold insert. apply wp_bind, wp_gets. rewrite Hc. apply wp_ret.
    split_and!; [done|done|by eapply nodes_entry|by rewrite Hc].
  - eapply wp_mono; [apply insert_fresh; try done|].
    + intros x Hx. rewrite enc_refs_tenc in Hx by done. apply list_elem_of_fmap in Hx as (s & -> & Hx).
      destruct (Hrefs s Hx) as [Hes Hent]. destruct (entry_there db s Hent); [left; split; [by eapply d_zero|done]|by right].
    + intros [] db' (Hinv' & Hg & [c Hc']). split_and!; [done|done|by eapply nodes_entry|by rewrite Hc'].
Qed.

(** ** References *)

(** A node with other counts and references from outside. *)
Lemma inv_set db h c c' :
  db_inv db → nodes db !! h = Some c → cnode c' = cnode c → flushPrev c' = flushPrev c → flushNext c' = flushNext c →
  (h ≠ 0 → ∀ x, is_Some (children c' !! x) → x ≠ 0 ∧ (rank x < rank h)%nat) →
  db_inv (with_nodes (<[h := c']> (nodes db)) db) ∧ grows db (with_nodes (<[h := c']> (nodes db)) db).
Proof.
  intros Hinv Hc Hn Hp Hx Hr. assert (Hlook : ∀ h' y, <[h := c']> (nodes db) !! h' = Some y →
    ∃ y0, nodes db !! h' = Some y0 ∧ cnode y = cnode y0 ∧ flushPrev y = flushPrev y0 ∧ flushNext y = flushNext y0 ∧
      (children y = children y0 ∨ h' = h ∧ y = c')).
  { intros h' y. destruct (decide (h = h')) as [<-|]; [|rewrite lookup_insert_ne by done; eauto 10].
    rewrite lookup_insert_eq. intros [= <-]. eauto 10. }
  assert (Hsome : ∀ h', is_Some (nodes db !! h') → is_Some (<[h := c']> (nodes db) !! h')).
  { intros h' Hs. destruct (decide (h = h')) as [<-|]; [rewrite lookup_insert_eq; eauto|by rewrite lookup_insert_ne]. }
  split; [split; cbn [nodes with_nodes diskdb]|].
  - intros h' y (y0 & Hy0 & Ey & _)%Hlook Hh'. eapply core_ok; [symmetry; exact Ey|]. by apply (di_nodes _ Hinv).
  - apply (di_disk _ Hinv).
  - apply Hsome, Hinv.
  - intros h' y x (y0 & Hy0 & _ & _ & _ & Hch)%Hlook Hh' Hy. destruct Hch as [Hch|[-> ->]]; [|by apply Hr].
    rewrite Hch in Hy. by eapply (di_rank _ Hinv).
  - apply (di_closed _ Hinv).
  - destruct (di_list _ Hinv) as [l Hl]. exists l. split; [|intros h' [y (y0 & Hy0 & _)%Hlook]; apply (li_all _ _ Hl); eauto|apply (li_order _ _ Hl)].
    eapply chain_same; [apply (li_chain _ _ Hl)|intros h' Hh'; by apply Hsome, (ch_some _ _ _ _ (li_chain _ _ Hl))|].
    intros h' y _ (y0 & Hy0 & _ & ? & ? & _)%Hlook. eauto.
  - intros h' gen n. unfold db_node. cbn. destruct (decide (h = h')) as [<-|]; [|by rewrite lookup_insert_ne].
    rewrite lookup_insert_eq, Hc. unfold obj. by rewrite Hn.
Qed.

Lemma reference_ok child parent db :
  db_inv db → is_Some (nodes db !! parent) → (parent ≠ 0 → child ≠ 0 ∧ (rank child < rank parent)%nat) →
  wp (λ _, False) (reference child parent)
    (λ _ db', db_inv db' ∧ grows db db' ∧ ∀ h, is_Some (nodes db !! h) → is_Some (nodes db' !! h)) db.
Proof.
  intros Hinv [p Hp] Hrank. unfold reference. apply wp_bind, wp_gets.
  destruct (nodes db !! child) as [c|] eqn:Hc; [|by apply wp_ret]. apply wp_bind. eapply wp_must; [exact Hp|].
  destruct (_ && _); [by apply wp_ret|]. apply wp_bind, wp_write_node; [|by rewrite Hc].
  intros c0 Hc0. rewrite Hc in Hc0. injection Hc0 as <-.
  destruct (inv_set db child c (with_parents (uint16 (parents c + 1)) c) Hinv Hc eq_refl eq_refl eq_refl) as [Hinv1 Hg1].
  { intros Hn x Hx. by eapply (di_rank _ Hinv). }
  assert (Hsome : ∀ (ns : gmap Hash cachedNode) k x h, is_Some (ns !! h) → is_Some (<[k := x]> ns !! h)).
  { intros ns k x h Hs. destruct (decide (k = h)) as [<-|]; [rewrite lookup_insert_eq; eauto|by rewrite lookup_insert_ne]. }
  apply wp_write_node; cbn [nodes with_nodes]; [|apply Hsome; eauto].
  intros p1 Hp1. set (db1 := with_nodes _ db) in *.
  destruct (inv_set db1 parent p1 (with_children (<[child := uint16 (default 0 (children p1 !! child) + 1)]> (children p1)) p1)
    Hinv1 Hp1 eq_refl eq_refl eq_refl) as [Hinv2 Hg2].
  { intros Hn x Hx. cbn in Hx. destruct (decide (child = x)) as [<-|Hne]; [by apply Hrank|].
    rewrite lookup_insert_ne in Hx by done. by eapply (di_rank _ Hinv1). }
  split_and!; [exact Hinv2|by etrans|]. intros h Hh. by apply Hsome, Hsome.
Qed.
End DbOk.
