(* ===== verification/TrieHashOk.v ===== *)
(** * Hashing a trie

    The hash of a live trie is the hash of its tree, whatever has been loaded,
    cached or stored before; with a database, the tree is stored in it. *)
From S2P Require Import Prelude BigMath Rlp VmTypes TrieEncoding TrieNode Trie TrieTree TrieRep TrieDb TrieHash TrieCodec TrieDbOk.

#[local] Arguments HashBytes : simpl never.
#[local] Arguments BytesToHash : simpl never.

Section HashOk.
Context `{!Crypto} `{!MapOrder}.
Variable E : list byte → Prop.
Variable rank : Hash → nat.
Variable h : hasher.

Notation keccak_hash e := (BytesToHash (Keccak256 e)).

(** A callback keeps the database in order and loses no node. *)
Definition leaf_ok (f : list byte → Hash → M Database ()) : Prop := ∀ v hash db,
  db_inv E rank db → is_Some (nodes db !! hash) →
  wp (λ _, False) (f v hash)
    (λ _ db', db_inv E rank db' ∧ grows db db' ∧ ∀ h, is_Some (nodes db !! h) → is_Some (nodes db' !! h)) db.

Hypothesis Hleaf : ∀ f, onleaf h = Some f → leaf_ok f.

(** ** With and without a database *)

(** Where a trie loads its nodes from; without a database to write to, it is [f]. *)
Definition world (f : Hash → Z → option node) (odb : option Database) : Hash → Z → option node :=
  match odb with Some db => db_node db | None => f end.

Definition oinv (odb : option Database) : Prop :=
  match odb with Some db => distinct E ∧ db_inv E rank db | None => True end.

Definition oext (odb odb' : option Database) : Prop :=
  match odb, odb' with
  | Some db, Some db' => grows db db'
  | None, None => True
  | _, _ => False
  end.

#[local] Instance oext_preorder : PreOrder oext.
Proof.
  split; [intros [db|]; cbn; [reflexivity|done]|].
  intros [db1|] [db2|] [db3|] H12 H23; try done. cbn in *. by etrans.
Qed.

Variable f : Hash → Z → option node.
Notation W := (world f).

Lemma entry_oext odb odb' t : oext odb odb' → entry (W odb) t → entry (W odb') t.
Proof. destruct odb, odb'; try done. apply entry_grows. Qed.

Lemma stored_oext odb odb' t : oext odb odb' → stored (W odb) t → stored (W odb') t.
Proof. destruct odb, odb'; try done. apply stored_grows. Qed.

Lemma Rep_oext odb odb' top n t : oext odb odb' → Rep (W odb) top n t → Rep (W odb') top n t.
Proof. destruct odb, odb'; try done. apply Rep_grows. Qed.

Lemma slot_oext odb odb' c ot : oext odb odb' → slot (W odb) c ot → slot (W odb') c ot.
Proof. intros He. destruct ot; cbn; [by apply Rep_oext|done]. Qed.

(** The encodings of a tree that get a hash of their own. *)
Definition encs (top : bool) (t : tree) : Prop := ∀ s,
  part t s → ¬ is_val s → top = true ∧ s = t ∨ big s → E (tenc s).

Lemma encs_below top t s : encs top t → part t s → encs false s.
Proof. intros He Hp r Hr Hv [[? _]|Hb]; [done|]. apply He; [by eapply part_trans|done|by right]. Qed.

Lemma encs_sub t s : encs true t → part t s → big s → encs true s.
Proof. intros He Hp Hb r Hr Hv [[_ ->]|Hbr]; (apply He; [by eapply part_trans|done|by right]). Qed.

(** What hashing a node promises. *)
Definition hashes (top : bool) (t : tree) (odb : option Database) (r : node * node) (odb' : option Database) : Prop :=
  oinv odb' ∧ oext odb odb' ∧
  simplifyNode r.1 = Some (if top then hashNode (thash t) else lref t (rawt t)) ∧
  Rep (W odb') top r.2 t ∧
  (odb' ≠ None → stored (W odb') t ∧ (top = true ∨ big t → entry (W odb') t)).

Definition hash_spec (t : tree) : Prop := ∀ odb top n,
  oinv odb → Rep (W odb) top n t → (odb ≠ None → encs top t) →
  wp (λ _, False) (hash_node h n top) (hashes top t odb) odb.

(** ** Storing *)

Lemma report_leaves_ok n hash db :
  db_inv E rank db → is_Some (nodes db !! hash) →
  wp (λ _, False) (report_leaves h n hash) (λ _ db', db_inv E rank db' ∧ grows db db') db.
Proof.
  intros Hinv Hs. unfold report_leaves. destruct (onleaf h) as [cb|] eqn:Ecb; [|by apply wp_ret].
  specialize (Hleaf cb eq_refl). destruct n as [|cs fl|k v fl| | | | |]; try by apply wp_ret.
  - set (P := λ db', db_inv E rank db' ∧ grows db db' ∧ is_Some (nodes db' !! hash)).
    assert (Hfold : ∀ l (m : M Database ()), wp (λ _, False) m (λ _, P) db →
      wp (λ _, False) (foldl (λ m c, _ ← m; match c with valueNode v => cb v hash | _ => mret () end) m l) (λ _, P) db).
    { intros l. induction l as [|c l IH]; intros m Hm; [done|]. cbn [foldl]. apply IH.
      apply wp_bind. eapply wp_mono; [exact Hm|]. intros [] db1 (Hi & Hg & Hs1).
      assert (wp (λ _, False) (mret ()) (λ _ : (), P) db1) as Hret by (apply wp_ret; done).
      destruct c; try exact Hret. eapply wp_mono; [by apply Hleaf|].
      intros [] db2 (Hi2 & Hg2 & Hs2). split_and!; [done|by etrans|auto]. }
    eapply wp_mono; [apply Hfold; apply wp_ret; split_and!; done|]. intros [] db' (? & ? & _). done.
  - destruct v; try by apply wp_ret. eapply wp_mono; [by apply Hleaf|]. intros [] db' (? & ? & _). done.
Qed.

Lemma wp_with_db F m Q odb :
  match odb with
  | None => Q () None
  | Some db => wp F m (λ _ db', Q () (Some db')) db
  end → wp F (with_db m) Q odb.
Proof. unfold with_db, wp. destruct odb as [db|]; [|done]. by destruct (m db) as [[] db'|]. Qed.

(** A short or full node, its children hashed already. *)
Definition inner (n : node) : Prop := match n with shortNode _ _ _ | fullNode _ _ => True | _ => False end.

Lemma small_or_big t n : ¬ is_val t → lref t n = if zlen (tenc t) <? 32 then n else hashNode (thash t).
Proof. destruct t; [by intros []|done..]. Qed.

Lemma store_ok odb n t top c :
  ok t → fits t → (odb ≠ None → top = true ∨ big t → E (tenc t)) →
  (odb ≠ None → ∀ s, s ∈ refs t → E (tenc s) ∧ entry (W odb) s) → oinv odb →
  inner n → simplifyNode n = Some (rawt t) → cache n = Some c → (∀ hh, c.1 = Some hh → hh = thash t) →
  wp (λ _, False) (store h n top)
    (λ hashed odb', oinv odb' ∧ oext odb odb' ∧
      simplifyNode hashed = Some (if top then hashNode (thash t) else lref t (rawt t)) ∧
      (odb' ≠ None → top = true ∨ big t → entry (W odb') t) ∧
      (match hashed with hashNode b => b = thash t ∧ (top = true ∨ big t) | _ => top = false ∧ ¬ big t end)) odb.
Proof.
  intros Hok Hf He Hrefs Hinv Hin Hs Hcache Hc. pose proof (tenc_bound t Hok Hf). pose proof (ok_not_val t Hok) as Hv.
  assert (encode_node n = Some (tenc t)) as Henc by (apply encode_simplified; [done|lia]).
  rewrite small_or_big by done.
  assert (wp (λ _, False) (tmp ← must (encode_node n);
      if (zlen tmp <? 32) && negb top then mret n
      else
        c ← must (cache n);
        let hash := match c.1 with Some hash => hash | None => makeHashNode tmp end in
        let key := BytesToHash hash in
        _ ← with_db (_ ← insert key tmp n; report_leaves h n key);
        mret (hashNode hash))
    (λ hashed odb', oinv odb' ∧ oext odb odb' ∧
      simplifyNode hashed = Some (if top then hashNode (thash t) else if zlen (tenc t) <? 32 then rawt t else hashNode (thash t)) ∧
      (odb' ≠ None → top = true ∨ big t → entry (W odb') t) ∧
      (match hashed with hashNode b => b = thash t ∧ (top = true ∨ big t) | _ => top = false ∧ ¬ big t end)) odb) as Hgo.
  { apply wp_bind. eapply wp_must; [exact Henc|]. destruct ((zlen (tenc t) <? 32) && negb top) eqn:Eb.
    - apply andb_true_iff in Eb as [Hlt Ht]. apply negb_true_iff in Ht as ->. rewrite Hlt. apply Z.ltb_lt in Hlt.
      assert (¬ big t) as Hnb by (unfold big; lia).
      apply wp_ret. split_and!; [done..|by intros _ [?|?]|]. by destruct n.
    - assert (top = true ∨ big t) as Htb.
      { apply andb_false_iff in Eb as [Hlt|Ht]; [right; by apply Z.ltb_ge in Hlt|left; by apply negb_false_iff in Ht]. }
      assert ((if top then hashNode (thash t) else if zlen (tenc t) <? 32 then rawt t else hashNode (thash t)) =
        hashNode (thash t)) as ->.
      { destruct top; [done|]. destruct Htb as [?|Hb]; [done|]. unfold big in Hb. by rewrite (proj2 (Z.ltb_ge _ _)). }
      apply wp_bind. eapply wp_must; [exact Hcache|].
      assert (match c.1 with Some hash => hash | None => makeHashNode (tenc t) end = thash t) as ->.
      { destruct c.1; [by apply Hc|done]. }
      cbv zeta. apply wp_bind, wp_with_db. destruct odb as [db|]; cbn in Hinv.
      + destruct Hinv as [Hd Hinv]. apply wp_bind. eapply wp_mono; [apply (insert_tree E rank db n t); auto|].
        intros [] db1 (Hi1 & Hg1 & Hent & Hin1). eapply wp_mono; [by apply report_leaves_ok|].
        intros [] db2 (Hi2 & Hg2). apply wp_ret.
        split_and!; [done|by cbn; etrans|done|by intros _ _; eapply entry_grows|done..].
      + apply wp_ret. split_and!; done. }
  by destruct n.
Qed.

(** ** Children *)

(** A child after hashing: what is encoded, and what stays in memory. *)
Definition child_hashed (odb : option Database) (a b : node) (ot : option tree) : Prop :=
  slot (W odb) b ot ∧
  match ot with
  | None => a = nil_node
  | Some t => a ≠ nil_node ∧ simplifyNode a = Some (lref t (rawt t)) ∧ (odb ≠ None → ¬ is_val t → stored (W odb) t)
  end.

Lemma child_hashed_oext odb odb' a b ot :
  oext odb odb' → (odb' ≠ None → odb ≠ None) → child_hashed odb a b ot → child_hashed odb' a b ot.
Proof.
  intros He Hn [Hs Hc]. split; [by eapply slot_oext|]. destruct ot as [t|]; [|done].
  destruct Hc as (? & ? & Hst). split_and!; [done..|]. intros Hne Hv. eapply stored_oext; [done|auto].
Qed.

Lemma oext_none odb odb' : oext odb odb' → odb' ≠ None → odb ≠ None.
Proof. by destruct odb, odb'. Qed.

Lemma simplify_not_nil n r : simplifyNode n = Some r → n ≠ nil_node.
Proof. by destruct n. Qed.

Lemma hash_each_ok cs : ∀ ts i odb,
  length cs = length ts → oinv odb →
  (∀ j c ot, cs !! j = Some c → ts !! j = Some ot → slot (W odb) c ot) →
  (∀ j t, ts !! j = Some (Some t) →
     if (i + j <? 16)%nat then hash_spec t ∧ (odb ≠ None → encs false t) else is_val t) →
  wp (λ _, False) (hash_each (λ c, hash_node h c false) i cs)
    (λ r odb', oinv odb' ∧ oext odb odb' ∧ length r.1 = length ts ∧ length r.2 = length ts ∧
       ∀ j ot, ts !! j = Some ot → ∃ a b, r.1 !! j = Some a ∧ r.2 !! j = Some b ∧ child_hashed odb' a b ot) odb.
Proof.
  induction cs as [|c cs IH]; intros [|ot ts] i odb Hl Hinv Hs Hc; try done.
  cbn [hash_each]. apply wp_bind.
  pose proof (Hs 0%nat c ot eq_refl eq_refl) as Hslot.
  assert (wp (λ _, False) (if (i <? 16)%nat && negb (is_nil c) then hash_node h c false else mret (c, c))
    (λ r odb', oinv odb' ∧ oext odb odb' ∧ child_hashed odb' r.1 r.2 ot) odb) as Hfirst.
  { destruct ot as [t|]; cbn [slot] in Hslot.
    - specialize (Hc 0%nat t eq_refl). rewrite Nat.add_0_r in Hc.
      assert (is_nil c = false) as -> by (apply not_nil; by eapply Rep_not_nil).
      destruct (i <? 16)%nat; cbn [andb negb].
      + destruct Hc as [Hspec Henc]. eapply wp_mono; [by apply Hspec|]. intros [a b] odb' (? & ? & Hsim & Hr & Hst).
        cbn in *. split_and!; [done..|]. split; [done|]. split_and!; [by eapply simplify_not_nil|done|].
        intros Hne _. by apply Hst.
      + apply wp_ret. destruct t; try done. inversion Hslot as [| | |? ? Hnv]; subst; [|by destruct Hnv].
        split_and!; [done|reflexivity|]. split; [done|]. split_and!; [done..|]. by intros _ [].
    - subst c. rewrite andb_false_r. apply wp_ret. split_and!; [done|reflexivity|done]. }
  eapply wp_mono; [exact Hfirst|]. intros [a b] odb1 (Hinv1 & He1 & Hch). apply wp_bind.
  eapply wp_mono; [apply (IH ts (S i) odb1); [by injection Hl|done| |]|].
  - intros j c' ot' Hc' Hot'. eapply slot_oext; [done|]. by apply (Hs (S j)).
  - intros j t Ht. specialize (Hc (S j) t Ht). rewrite Nat.add_succ_r in Hc. cbn [Nat.add].
    destruct (_ <? _)%nat; [|done]. destruct Hc as [Hspec Henc]. split; [done|]. intros Hne. by apply Henc, (oext_none odb odb1).
  - intros [hs ds] odb2 (Hinv2 & He2 & Hl1 & Hl2 & Hall). cbn in Hl1, Hl2. apply wp_ret. cbn.
    split_and!; [done|by etrans|by rewrite Hl1|by rewrite Hl2|].
    intros [|j] ot' Hot'; [|by apply Hall]. injection Hot' as <-. exists a, b. split_and!; [done..|].
    eapply child_hashed_oext; [done|by apply oext_none|done].
Qed.

Lemma simplify_full hs fl ts :
  length hs = length ts →
  (∀ j ot, ts !! j = Some ot → ∃ a, hs !! j = Some a ∧
     match ot with None => a = nil_node | Some t => a ≠ nil_node ∧ simplifyNode a = Some (lref t (rawt t)) end) →
  simplifyNode (fullNode hs fl) = Some (rawt (TFull ts)).
Proof.
  intros Hl Hall. cbn [simplifyNode rawt].
  assert (mapM (λ c, if is_nil c then Some c else simplifyNode c) hs =
    Some (map (λ c, match c with Some c => lref c (rawt c) | None => nil_node end) ts)) as ->; [|done].
  apply mapM_Some, Forall2_same_length_lookup. split; [by rewrite length_map|].
  intros j x y Hx Hy. change (map ?g ts) with (g <$> ts) in Hy. rewrite list_lookup_fmap in Hy.
  destruct (ts !! j) as [ot|] eqn:Hot; [|done]. injection Hy as <-.
  destruct (Hall j ot Hot) as (a & Ha & Hm). rewrite Hx in Ha. injection Ha as <-.
  destruct ot as [t|]; [|by subst]. destruct Hm as [Hn Hm]. by rewrite not_nil.
Qed.

(** ** A node *)

(** The flags of the copy that stays in memory. *)
Lemma set_flag_ok odb t fl hashed top :
  (match hashed with hashNode x => x = thash t ∧ (top = true ∨ big t) | _ => top = false ∧ ¬ big t end) →
  (odb ≠ None → stored (W odb) t ∧ (top = true ∨ big t → entry (W odb) t)) →
  (odb = None → hash fl = None ∧ (dirty fl = false → top = false ∧ ¬ big t)) →
  flag_ok (W odb) top
    {| hash := match hashed with hashNode b => Some b | _ => None end; gen := gen fl;
       dirty := if bool_decide (odb ≠ None) then false else dirty fl |} t.
Proof.
  intros Hh Hst Hno. unfold flag_ok. cbn [hash dirty].
  destruct hashed; try (by intros _). destruct Hh as [-> Htb]. split_and!; [done..|].
  case_bool_decide as Hdb; [intros _; destruct (Hst Hdb); auto|]. intros Hdirty.
  destruct (Hno Hdb) as [_ Hcl]. destruct (Hcl Hdirty) as [-> Hnb].
  by destruct Htb.
Qed.

Definition flag_of (n : node) : option nodeFlag :=
  match n with shortNode _ _ fl | fullNode _ fl => Some fl | _ => None end.

(** What is known without looking at the children. *)
Lemma known_ok odb top n t :
  ok t → oinv odb → Rep (W odb) top n t →
  ∃ quick, known h n (bool_decide (odb ≠ None)) = Some quick ∧
    match quick with
    | Some r => hashes top t odb r odb
    | None => is_hash n ∨ ∃ fl, flag_of n = Some fl ∧ flag_ok (W odb) top fl t ∧ (odb = None → hash fl = None)
    end.
Proof.
  intros Hok Hinv Hr. pose proof (ok_not_val t Hok) as Hv.
  assert (Hdone : ∀ hh m, hh = thash t → (top = true ∨ big t) → Rep (W odb) top m t →
    (odb ≠ None → entry (W odb) t ∧ stored (W odb) t) → hashes top t odb (hashNode hh, m) odb).
  { intros hh m -> Htb Hm Hst. split_and!; [done|reflexivity| |done|].
    - cbn. rewrite small_or_big by done. destruct top; [done|]. destruct Htb as [?|Hb]; [done|].
      unfold big in Hb. by rewrite (proj2 (Z.ltb_ge _ _)).
    - intros Hne. destruct (Hst Hne). auto. }
  assert (Hfl : ∀ fl, cache n = Some (hash fl, dirty fl) → canUnload n (h_cachegen h) (h_cachelimit h) =
      Some (flag_canUnload fl (h_cachegen h) (h_cachelimit h)) → flag_ok (W odb) top fl t → flag_of n = Some fl →
    ∃ quick, known h n (bool_decide (odb ≠ None)) = Some quick ∧
      match quick with
      | Some r => hashes top t odb r odb
      | None => is_hash n ∨ ∃ fl, flag_of n = Some fl ∧ flag_ok (W odb) top fl t ∧ (odb = None → hash fl = None)
      end).
  { intros fl Hc Hu Hf Hin. unfold known. rewrite Hc. cbn [mbind option_bind].
    destruct (hash fl) as [hh|] eqn:Ehh.
    2:{ eexists. split; [done|]. right. exists fl. rewrite Ehh. done. }
    pose proof Hf as Hf'. unfold flag_ok in Hf'. rewrite Ehh in Hf'. destruct Hf' as (Eh & Htb & Hclean).
    case_bool_decide as Hdb; cbn [negb].
    2:{ eexists. split; [done|]. apply Hdone; [done..|]. by intros. }
    rewrite Hu. cbn [mbind option_bind]. destruct (flag_canUnload _ _ _) eqn:Eu.
    { apply andb_true_iff in Eu as [Hdirty _]. apply negb_true_iff in Hdirty. destruct (Hclean Hdirty) as [He Hs].
      eexists. split; [done|]. apply Hdone; [done..| |done]. subst hh. by constructor. }
    destruct (dirty fl) eqn:Edirty; cbn [negb]; (eexists; split; [done|]); cbv iota.
    - right. exists fl. rewrite Ehh. split_and!; [done..|]. by intros ->.
    - apply Hdone; [done..|]. auto. }
  inversion Hr as [top' v|top' k m fl c Hm Hf|top' cs fl ts Hl Hn Hc Hf|top' t' Hv' Hb He Hs]; subst.
  - by destruct Hv.
  - by apply (Hfl fl).
  - by apply (Hfl fl).
  - exists None. split; [done|]. by left.
Qed.

Lemma stored_val db v : stored db (TVal v).
Proof. intros s Hp Hv. inversion Hp; subst. by destruct Hv. Qed.

(** The children of a tree are stored. *)
Definition below (db : Hash → Z → option node) (t : tree) : Prop :=
  match t with
  | TVal _ => True
  | TShort _ c => stored db c
  | TFull ts => ∀ i c, ts !! i = Some (Some c) → stored db c
  end.

Lemma stored_from_below db t : below db t → (big t → entry db t) → stored db t.
Proof.
  intros Hb He s Hp Hv Hbig. inversion Hp as [|k c s' Hc|ts i c s' Hi Hc]; subst; [by apply He|..].
  - by apply Hb.
  - by apply (Hb i c).
Qed.

Lemma below_oext odb odb' t : oext odb odb' → below (W odb) t → below (W odb') t.
Proof.
  intros He. destruct t; cbn; [done|by apply stored_oext|]. intros Hb i c Hc. eapply stored_oext; [done|by eapply Hb].
Qed.

(** What a node refers to is stored with its children. *)
Lemma below_refs db t s : below db t → s ∈ refs t → entry db s.
Proof.
  assert (Hc : ∀ c, stored db c → s ∈ ref_of c (refs c) → entry db s).
  { intros c Hst Hs. apply ref_of_cases in Hs as [Hv [[-> Hb]|[Hs _]]]; [by apply Hst; [apply part_refl|..]|].
    destruct (refs_part c s Hs) as (? & ? & ?). by apply Hst. }
  destruct t as [v|k c|ts]; cbn [below].
  - by intros _ ?%elem_of_nil.
  - apply Hc.
  - intros Hb (i & c & _ & Hi & Hs)%refs_full. apply (Hc c); [by eapply Hb|done].
Qed.

Definition reflag (fl : nodeFlag) (n : node) : node :=
  match n with shortNode k v _ => shortNode k v fl | fullNode cs _ => fullNode cs fl | _ => n end.

(** The children of a node, hashed. *)
Definition children_hashed (top : bool) (t : tree) (fl : nodeFlag) (odb : option Database)
    (r : node * node) (odb' : option Database) : Prop :=
  oinv odb' ∧ oext odb odb' ∧ inner r.1 ∧ simplifyNode r.1 = Some (rawt t) ∧
  cache r.1 = Some (hash fl, dirty fl) ∧
  (∀ hashed b, set_hash hashed r.2 b = reflag
     {| hash := match hashed with hashNode x => Some x | _ => None end; gen := gen fl;
        dirty := if b then false else dirty fl |} r.2) ∧
  (∀ odb2 fl', oext odb' odb2 → flag_ok (W odb2) top fl' t → Rep (W odb2) top (reflag fl' r.2) t) ∧
  (odb' ≠ None → below (W odb') t).

Lemma oext_db odb odb' : oext odb odb' → bool_decide (odb ≠ None) = bool_decide (odb' ≠ None).
Proof. by destruct odb, odb'. Qed.

Lemma hash_inner odb top n t fl :
  ok t → fits t → (odb ≠ None → encs top t) → oinv odb →
  flag_ok (W odb) top fl t → (odb = None → hash fl = None) →
  wp (λ _, False) (hashChildren (λ c, hash_node h c false) n) (children_hashed top t fl odb) odb →
  wp (λ _, False)
    ('(collapsed, cached) ← hashChildren (λ c, hash_node h c false) n;
     hashed ← store h collapsed top;
     mret (hashed, set_hash hashed cached (bool_decide (odb ≠ None)))) (hashes top t odb) odb.
Proof.
  intros Hok Hf Henc Hinv Hfl Hno Hch. apply wp_bind. eapply wp_mono; [exact Hch|].
  intros [a b] odb1 (Hinv1 & He1 & Hin & Hs & Hca & Hset & Hrep & Hbel). apply wp_bind.
  eapply wp_mono.
  { eapply (store_ok odb1 a t top); [exact Hok|exact Hf| | |exact Hinv1|exact Hin|exact Hs|exact Hca|].
    2:{ intros Hne s Hs'. destruct (refs_part t s Hs') as (Hp & Hb & Hv). split; [|by eapply below_refs; [apply Hbel|]].
        apply Henc; [by apply (oext_none odb odb1)|done|done|by right]. }
    - intros Hne Htb. apply Henc; [by apply (oext_none odb odb1)|apply part_refl|by apply ok_not_val|]. destruct Htb; auto.
    - intros hh Ehh. cbn in Ehh. unfold flag_ok in Hfl. rewrite Ehh in Hfl. by destruct Hfl. }
  intros hashed odb2 (Hinv2 & He2 & Hs2 & Hent & Hcase). apply wp_ret. cbn.
  assert (oext odb odb2) as He by by etrans.
  assert (odb2 ≠ None → stored (W odb2) t ∧ (top = true ∨ big t → entry (W odb2) t)) as Hst.
  { intros Hne. split; [|by apply Hent]. apply stored_from_below; [|intros Hb; apply Hent; auto].
    apply (below_oext odb1 odb2 t He2), Hbel. by apply (oext_none odb1 odb2). }
  split_and!; [done..| |done]. cbn in Hset. rewrite Hset. apply Hrep; [done|].
  rewrite (oext_db odb odb2) by done. apply set_flag_ok; [done..|]. intros ->.
  assert (odb = None) as -> by by destruct odb. specialize (Hno eq_refl). split; [done|].
  unfold flag_ok in Hfl. by rewrite Hno in Hfl.
Qed.

Lemma hashChildren_leaf odb top k v fl :
  ok (TShort k (TVal v)) → oinv odb →
  wp (λ _, False) (hashChildren (λ c, hash_node h c false) (shortNode k (valueNode v) fl))
    (children_hashed top (TShort k (TVal v)) fl odb) odb.
Proof.
  intros Hok Hinv. cbn [hashChildren]. destruct (compact_spec k) as [Hk _]; [by eapply (ok_keys _ Hok), part_refl|].
  apply wp_bind. eapply wp_must; [exact Hk|]. apply wp_ret.
  split_and!; [done|reflexivity|done|done|done|done| |].
  - intros odb2 fl' _ Hf. cbn. by constructor; [constructor|].
  - intros _. apply stored_val.
Qed.

Lemma hashChildren_ext odb top k m fl ts :
  ok (TShort k (TFull ts)) → oinv odb → Rep (W odb) false m (TFull ts) → (odb ≠ None → encs false (TFull ts)) → hash_spec (TFull ts) →
  wp (λ _, False) (hashChildren (λ c, hash_node h c false) (shortNode k m fl))
    (children_hashed top (TShort k (TFull ts)) fl odb) odb.
Proof.
  intros Hok Hinv Hm Henc IH. cbn [hashChildren]. destruct (compact_spec k) as [Hk _]; [by eapply (ok_keys _ Hok), part_refl|].
  apply wp_bind. eapply wp_must; [exact Hk|].
  assert (wp (λ _, False) ('(hv, cv) ← hash_node h m false; mret (shortNode (compact k) hv fl, shortNode k cv fl))
    (children_hashed top (TShort k (TFull ts)) fl odb) odb) as Hgo.
  { apply wp_bind. eapply wp_mono; [by apply IH|]. intros [a b] odb1 (Hinv1 & He1 & Hs & Hr & Hst). cbn in Hs, Hr.
    apply wp_ret. split_and!; [done|done|done| |done|done| |].
    - cbn [simplifyNode fst]. rewrite Hs. done.
    - intros odb2 fl' He2 Hfl'. cbn. constructor; [by eapply Rep_oext|done].
    - intros Hne. by apply Hst. }
  inversion Hm; subst; exact Hgo.
Qed.

Lemma hashChildren_full odb top cs fl ts :
  ok (TFull ts) → oinv odb → Rep (W odb) top (fullNode cs fl) (TFull ts) → (odb ≠ None → encs top (TFull ts)) →
  (∀ i t, (i < 16)%nat → ts !! i = Some (Some t) → hash_spec t) →
  wp (λ _, False) (hashChildren (λ c, hash_node h c false) (fullNode cs fl))
    (children_hashed top (TFull ts) fl odb) odb.
Proof.
  intros Hok Hinv Hr Henc IH. destruct (Rep_full_inv _ _ _ _ _ Hr) as (Hl & Hslots & _).
  destruct (ok_full_inv ts Hok) as (H17 & _ & Hval & _). cbn [hashChildren]. apply wp_bind.
  eapply wp_mono; [apply (hash_each_ok cs ts 0 odb Hl Hinv Hslots)|].
  { intros j t Ht. cbn [Nat.add]. destruct (Nat.ltb_spec j 16) as [Hj|Hj].
    - split; [by eapply IH|]. intros Hne. eapply encs_below; [by apply Henc|]. eapply part_full; [exact Ht|apply part_refl].
    - pose proof (lookup_lt_Some _ _ _ Ht). assert (j = 16%nat) as -> by lia.
      destruct (Hval t Ht) as (v & -> & _). done. }
  intros [hs ds] odb1 (Hinv1 & He1 & Hl1 & Hl2 & Hall). cbn in Hl1, Hl2, Hall. apply wp_ret.
  split_and!; [done|done|done| |done|done| |].
  - apply simplify_full; [done|]. intros j ot Hot. destruct (Hall j ot Hot) as (a & b & Ha & _ & [_ Hc]).
    exists a. split; [done|]. destruct ot; [|done]. by destruct Hc as (? & ? & _).
  - intros odb2 fl' He2 Hfl'. cbn. apply Rep_slots; [done| |done].
    intros j c ot Hc Hot. destruct (Hall j ot Hot) as (a & b & _ & Hb & [Hs _]). rewrite Hb in Hc. injection Hc as <-.
    by eapply slot_oext.
  - intros Hne i c Hc. destruct (Hall i _ Hc) as (a & b & _ & _ & [_ (_ & _ & Hst)]).
    destruct (is_val_dec c) as [Hv|Hv]; [destruct c; [apply stored_val|done..]|by apply Hst].
Qed.

Lemma hash_ref odb top t :
  ok t → oinv odb → Rep (W odb) top (hashNode (thash t)) t →
  wp (λ _, False) (hash_node h (hashNode (thash t)) top) (hashes top t odb) odb.
Proof.
  intros Hok Hinv Hr. inversion Hr as [| | |top' t' Hv Hb He Hs]; subst.
  cbn [hash_node]. apply wp_bind, wp_gets, wp_bind. eapply wp_must; [done|].
  apply wp_bind. cbn [hashChildren]. apply wp_ret. apply wp_bind. cbn [store]. apply wp_ret. apply wp_ret. cbn.
  split_and!; [done|reflexivity| |done|auto].
  cbn. rewrite small_or_big by done. destruct top; [done|]. destruct Hb as [?|Hb]; [done|].
  unfold big in Hb. by rewrite (proj2 (Z.ltb_ge _ _)).
Qed.

(** Hashing a node, from hashing its children. *)
Lemma hash_step t :
  ok t → fits t →
  (∀ odb top n fl, oinv odb → Rep (W odb) top n t → (odb ≠ None → encs top t) → flag_of n = Some fl →
     wp (λ _, False) (hashChildren (λ c, hash_node h c false) n) (children_hashed top t fl odb) odb) →
  hash_spec t.
Proof.
  intros Hok Hf Hch odb top n Hinv Hr Henc.
  destruct (known_ok odb top n t Hok Hinv Hr) as (quick & Hq & Hcase).
  destruct quick as [r|].
  - destruct n; cbn [hash_node]; apply wp_bind, wp_gets, wp_bind; (eapply wp_must; [exact Hq|]); by apply wp_ret.
  - destruct Hcase as [Hh|(fl & Hc & Hfl & Hno)].
    + destruct n; try done. inversion Hr; subst. by apply hash_ref.
    + pose proof (hash_inner odb top n t fl Hok Hf Henc Hinv Hfl Hno (Hch odb top n fl Hinv Hr Henc Hc)) as Hgo.
      destruct n; try done; cbn [hash_node]; apply wp_bind, wp_gets, wp_bind; (eapply wp_must; [exact Hq|]); exact Hgo.
Qed.

(** What is asked of the subtrees. *)
Definition subs_hash (t : tree) : Prop :=
  match t with
  | TVal _ => True
  | TShort _ c => ¬ is_val c → hash_spec c
  | TFull ts => ∀ i c, (i < 16)%nat → ts !! i = Some (Some c) → hash_spec c
  end.

Lemma hashChildren_ok t odb top n fl :
  ok t → subs_hash t → oinv odb → Rep (W odb) top n t → (odb ≠ None → encs top t) → flag_of n = Some fl →
  wp (λ _, False) (hashChildren (λ c, hash_node h c false) n) (children_hashed top t fl odb) odb.
Proof.
  intros Hok Hsub Hinv Hr Henc Hfl. inversion Hok as [ns v Hn Hv|ns ts Hn Hne Hts|ts Hl Hc Hv Htwo]; subst.
  - destruct n; try done; inversion Hr as [|? ? ? ? ? Hm| |]; subst; injection Hfl as ->.
    inversion Hm as [| | |? ? Hnv]; subst; [|by destruct Hnv]. by apply hashChildren_leaf.
  - destruct n; try done; inversion Hr as [|? ? ? ? ? Hm| |]; subst; injection Hfl as ->.
    apply hashChildren_ext; [done..| |by apply Hsub; intros []].
    intros Hdb. eapply encs_below; [by apply Henc|]. apply part_short, part_refl.
  - destruct n; try done; inversion Hr; subst; injection Hfl as ->. by apply hashChildren_full.
Qed.

Lemma hash_subs t : ok t → fits t → subs_hash t → hash_spec t.
Proof. intros Hok Hf Hsub. apply hash_step; [done..|]. intros. by apply hashChildren_ok. Qed.

Lemma subs_ok t : ok t → fits t → subs_hash t.
Proof.
  induction 1 as [ns v Hn Hv|ns ts Hn Hne Hts IH|ts Hl Hc IH Hv Htwo]; intros Hf.
  - by intros [].
  - intros _. apply hash_subs; [done|by eapply fits_short|]. apply IH. by eapply fits_short.
  - assert (ok (TFull ts)) as Hok by by constructor. intros i t Hi Ht.
    assert (fits t). { apply (fits_child ts (zb (Z.of_nat i))); [done|by apply nibble_zb|]. by rewrite pos_zb by lia. }
    apply hash_subs; [by eapply Hc|done|]. by apply (IH i).
Qed.

Lemma hash_ok t : ok t → fits t → hash_spec t.
Proof. intros Hok Hf. apply hash_subs; [done..|]. by apply subs_ok. Qed.
End HashOk.
