(* ===== verification/TrieTheorems.v ===== *)
(** * What the trie promises

    A trie is a finite map from keys to values, however much of it has been
    loaded; its root hash depends on the contents only, and determines them; and
    what has been committed can be opened again. *)
From S2P Require Import Prelude BigMath Rlp VmTypes VmSample TrieEncoding TrieNode Trie TrieTree TrieRep TrieOps TrieDb TrieHash TrieCodec TrieFlush TrieDbOk TrieHashOk.

#[local] Arguments HashBytes : simpl never.
#[local] Arguments BytesToHash : simpl never.

Notation contents := (gmap (list byte) (list byte)).

Lemma hexToKeybytes_inv hk k : hex_key hk → hexToKeybytes hk = Some k → hk = keybytesToHex k.
Proof.
  intros (ns & Hn & ->). unfold hexToKeybytes. rewrite without_term_key.
  destruct (Nat.odd (length ns)) eqn:Ho; [done|]. destruct (even_nibbles ns Hn) as [k' ->].
  { rewrite <-Nat.negb_odd, Ho. done. }
  rewrite length_key_nibbles, half_double, decodeNibbles_key. intros [= ->]. by rewrite keybytesToHex_nibbles.
Qed.

(** The tree holds the map: nothing under keys of odd length. *)
Definition holds (t : tree) (m : contents) : Prop :=
  ∀ hk, hex_key hk → tfind t hk = k ← hexToKeybytes hk; m !! k.

Lemma holds_get t m k : holds t m → tfind t (keybytesToHex k) = m !! k.
Proof. intros Hh. rewrite Hh by apply keybytesToHex_hex_key. by rewrite hexToKeybytes_key. Qed.

Lemma holds_set t m k ov t' :
  holds t m →
  (∀ hk, hex_key hk → tfind t' hk = if decide (hk = keybytesToHex k) then ov else tfind t hk) →
  holds t' (partial_alter (λ _, ov) k m).
Proof.
  intros Hh Hf hk Hk. rewrite Hf, Hh by done. destruct (decide (hk = keybytesToHex k)) as [->|Hne].
  - rewrite hexToKeybytes_key. cbn. by rewrite lookup_partial_alter_eq.
  - destruct (hexToKeybytes hk) as [k'|] eqn:E; [|done]. cbn.
    rewrite lookup_partial_alter_ne; [done|]. intros <-. apply Hne. by apply hexToKeybytes_inv.
Qed.

Section Represents.
Context `{!Crypto}.
Variable db_node : Hash → Z → option node.

(** The trie stands for the map. *)
Definition represents (t : Trie) (m : contents) : Prop :=
  (root t = nil_node ∧ m = ∅) ∨ ∃ tr, Rep db_node true (root t) tr ∧ ok tr ∧ holds tr m.

Lemma key_fuel_enough k : (2 * length k + 2 <= key_fuel k)%nat.
Proof. unfold key_fuel. lia. Qed.

Lemma key_fuel_S k : ∃ fuel, key_fuel k = S fuel.
Proof. exists (2 * length k + 2)%nat. unfold key_fuel. lia. Qed.

Lemma TryGet_ok t m key :
  represents t m → ∃ t', TryGet db_node t key = Some (inl (default [] (m !! key), t')) ∧ represents t' m.
Proof.
  intros Ht. unfold TryGet. set (k := keybytesToHex key). destruct Ht as [[Hr ->]|(tr & Hr & Hok & Hh)].
  - destruct (key_fuel_S k) as [fuel ->]. rewrite Hr, lookup_empty. exists t. split; [done|]. by left.
  - destruct (get_any db_node (cachegen t) tr (get_ok db_node (cachegen t) tr Hok) (key_fuel k) true (root t) k 0%nat)
      as (n' & d & -> & Hn'); [done|done|apply keybytesToHex_hex_key|apply key_fuel_enough|].
    rewrite drop_0. unfold k. rewrite (holds_get tr m) by done. tr_step.
    eexists. split; [done|]. right. exists tr. by destruct d.
Qed.

Lemma insert_root t m key value :
  represents t m → value ≠ [] →
  ∃ d n, Trie.insert db_node (cachegen t) (key_fuel (keybytesToHex key)) (root t) [] (keybytesToHex key) (valueNode value) =
           Some (inl (d, n)) ∧ represents (with_root n t) (<[key := value]> m).
Proof.
  intros Ht Hv. set (k := keybytesToHex key). destruct Ht as [[Hr ->]|(tr & Hr & Hok & Hh)].
  - rewrite Hr, insert_nil by (unfold key_fuel; lia). eexists _, _. split; [done|]. right.
    exists (mk k (TVal value)). unfold k. rewrite keybytesToHex_nibbles.
    assert (∀ r : list byte, r ++ [terminator] ≠ []) as Hne by by intros [].
    destruct (key_nibbles key ++ [terminator]) as [|b s] eqn:E; [by apply Hne in E|]. cbn [mk mkn root with_root].
    split_and!; [apply Rep_new; constructor|rewrite <-E; apply ok_leaf; [apply key_nibbles_nibbles|done]|].
    intros hk Hk. rewrite tfind_leaf, <-E, <-keybytesToHex_nibbles. destruct (decide (hk = _)) as [->|Hneq].
    + rewrite hexToKeybytes_key. cbn. by rewrite lookup_insert_eq.
    + destruct (hexToKeybytes hk) as [k'|] eqn:Ek; [|done]. cbn. rewrite lookup_insert_ne; [by rewrite lookup_empty|].
      intros <-. apply Hneq. by apply hexToKeybytes_inv.
  - destruct (insert_any db_node (cachegen t) tr (insert_ok db_node (cachegen t) tr Hok) (key_fuel k) true (root t) [] k value)
      as (d & n & -> & Hd); [done|done|apply keybytesToHex_hex_key|done|apply key_fuel_enough|].
    exists d, n. split; [done|]. right. destruct d.
    + destruct Hd as (t' & Hok' & Hr' & Ha & _). exists t'. split_and!; [done..|].
      apply (holds_set tr m key (Some value)); [done|]. intros hk Hk. by apply Ha.
    + destruct Hd as [Hr' Hf]. exists tr. split_and!; [done..|].
      rewrite insert_id; [done|]. by rewrite <-(holds_get tr).
Qed.

Lemma delete_root t m key :
  represents t m →
  ∃ d n, Trie.delete db_node (cachegen t) (key_fuel (keybytesToHex key)) (root t) [] (keybytesToHex key) = Some (inl (d, n)) ∧
    represents (with_root n t) (base.delete key m).
Proof.
  intros Ht. set (k := keybytesToHex key). destruct Ht as [[Hr ->]|(tr & Hr & Hok & Hh)].
  - destruct (key_fuel_S k) as [fuel ->]. rewrite Hr. eexists _, _. split; [done|].
    left. split; [done|]. by rewrite delete_empty.
  - destruct (delete_any db_node (cachegen t) tr (delete_ok db_node (cachegen t) tr Hok) (key_fuel k) true (root t) [] k)
      as (d & n & -> & Hd); [done|done|apply keybytesToHex_hex_key|apply key_fuel_enough|].
    exists d, n. split; [done|]. destruct d.
    + destruct Hd as (ot' & [Hn' Hf] & _).
      assert (Hm : ∀ hk, hex_key hk → (t' ← ot'; tfind t' hk) = k' ← hexToKeybytes hk; base.delete key m !! k').
      { intros hk Hk. rewrite Hf by done. destruct (decide (hk = k)) as [->|Hne].
        - unfold k. rewrite hexToKeybytes_key. cbn. by rewrite lookup_delete_eq.
        - rewrite Hh by done. destruct (hexToKeybytes hk) as [k'|] eqn:Ek; [|done]. cbn.
          rewrite lookup_delete_ne; [done|]. intros <-. apply Hne. by apply hexToKeybytes_inv. }
      destruct ot' as [t'|].
      * right. exists t'. destruct Hn' as (? & ? & _). done.
      * left. split; [done|]. apply map_empty. intros k'. specialize (Hm (keybytesToHex k') (keybytesToHex_hex_key k')).
        rewrite hexToKeybytes_key in Hm. by cbn in Hm.
    + destruct Hd as [Hr' Hf]. right. exists tr. split_and!; [done..|].
      rewrite delete_id; [done|]. by rewrite <-(holds_get tr).
Qed.
End Represents.

(** ** The root hash *)

(** Keys and values are far from the largest length a slice can have. *)
Definition fits_map (m : contents) : Prop := ∀ k v, m !! k = Some v → zlen k + zlen v < 2 ^ 55.

Lemma holds_fits `{!Crypto} tr m : holds tr m → fits_map m → fits tr.
Proof.
  intros Hh Hf hk v Hk E. rewrite Hh in E by done. destruct (hexToKeybytes hk) as [k|] eqn:Ek; [|done].
  apply hexToKeybytes_inv in Ek as ->; [|done]. specialize (Hf k v E).
  rewrite keybytesToHex_nibbles, zlen_app. unfold zlen in *. rewrite length_key_nibbles. cbn [length]. lia.
Qed.

Lemma holds_unique tr tr' m : ok tr → ok tr' → holds tr m → holds tr' m → tr = tr'.
Proof. intros Hok Hok' Hh Hh'. apply canonical; [done..|]. intros hk Hk. by rewrite Hh, Hh'. Qed.

Lemma holds_nonempty tr m : ok tr → holds tr m → m ≠ ∅.
Proof.
  intros Hok Hh ->. destruct (ok_has tr Hok) as (hk & v & Hk & E & _). rewrite Hh in E by done.
  destruct (hexToKeybytes hk); done.
Qed.

Lemma simplify_hash n b : simplifyNode n = Some (hashNode b) → n = hashNode b.
Proof.
  destruct n; cbn; try done; [by destruct (mapM _ _)|by destruct (simplifyNode _)|congruence].
Qed.

Section Hashes.
Context `{!Crypto} `{!MapOrder}.

(** The root hash of a map: of the encoding of its tree. *)
Definition is_root (m : contents) (h : Hash) : Prop :=
  (m = ∅ ∧ h = emptyRoot) ∨ ∃ tr, ok tr ∧ holds tr m ∧ h = BytesToHash (thash tr).

Lemma is_root_unique m h h' : is_root m h → is_root m h' → h = h'.
Proof.
  intros [[Hm ->]|(tr & Hok & Hh & ->)] [[Hm' ->]|(tr' & Hok' & Hh' & ->)]; [done|..].
  - by destruct (holds_nonempty tr' m).
  - by destruct (holds_nonempty tr m).
  - by rewrite (holds_unique tr tr' m).
Qed.

Lemma Trie_Hash_ok f t m :
  represents f t m → fits_map m →
  ∃ h t', Trie_Hash t = Some (h, t') ∧ represents f t' m ∧ is_root m h.
Proof.
  intros Ht Hfit. unfold Trie_Hash, hashRoot. destruct Ht as [[Hr ->]|(tr & Hr & Hok & Hh)].
  - rewrite Hr. exists (BytesToHash (HashBytes emptyRoot)), (with_root nil_node t).
    split_and!; [done|by left|left]. split; [done|]. vm_compute. reflexivity.
  - rewrite (not_nil (root t)) by by eapply Rep_not_nil.
    set (h := {| h_cachegen := _; h_cachelimit := _; onleaf := _ |}).
    pose proof (hash_ok (λ _, False) (λ _, 0%nat) h ltac:(done) f tr Hok (holds_fits tr m Hh Hfit) None true (root t)
      ltac:(done) Hr ltac:(done)) as Hw. unfold wp in Hw.
    destruct (hash_node h (root t) true None) as [[hashed cached] odb|]; [|done].
    destruct Hw as (_ & He & Hs & Hr' & _). cbn [fst snd] in Hs, Hr'. destruct odb; [done|].
    apply simplify_hash in Hs as ->. cbn. cbn in Hr'.
    eexists _, _. split; [done|]. split; [right; by exists tr|]. right. by exists tr.
Qed.

(** ** Equal encodings are of equal trees *)

Lemma loaded_not_hash gen t o b : loaded gen t o ≠ hashNode b.
Proof. by destruct t. Qed.

Lemma decoded_same t u : ok t → ok u → fits t → fits u → tenc t = tenc u → loaded 0 t None = loaded 0 u None.
Proof.
  intros Ht Hu Hft Hfu E. pose proof (decodeNode_tenc 0 t None Ht Hft) as H1.
  rewrite E, (decodeNode_tenc 0 u None Hu Hfu) in H1. by injection H1.
Qed.

Definition loads_apart (E : list byte → Prop) (t : tree) : Prop := ∀ u,
  ok u → fits t → fits u → encs E false t → encs E false u → loaded 0 t None = loaded 0 u None → t = u.

Lemma lref_inj E c c' :
  distinct E → loads_apart E c → ok c → ok c' → fits c → fits c' → encs E false c → encs E false c' →
  lref c (loaded 0 c None) = lref c' (loaded 0 c' None) → c = c'.
Proof.
  intros Hd IH Hc Hc' Hf Hf' He He' Eq.
  pose proof (ok_not_val c Hc) as Hv. pose proof (ok_not_val c' Hc') as Hv'.
  destruct (lref_cases c (loaded 0 c None) Hv) as [[_ E1]|[Hb E1]];
    destruct (lref_cases c' (loaded 0 c' None) Hv') as [[_ E2]|[Hb' E2]]; rewrite E1, E2 in Eq.
  - by apply IH.
  - by apply loaded_not_hash in Eq.
  - symmetry in Eq. by apply loaded_not_hash in Eq.
  - injection Eq as Eq. apply IH; [done..|]. apply decoded_same; [done..|].
    apply (d_inj E Hd); [apply He; auto using part_refl|apply He'; auto using part_refl|done].
Qed.

Lemma encs_short E k c : encs E false (TShort k c) → encs E false c.
Proof. intros He. eapply encs_below; [done|]. apply part_short, part_refl. Qed.

Lemma encs_child E ts i c : encs E false (TFull ts) → ts !! i = Some (Some c) → encs E false c.
Proof. intros He Hi. eapply encs_below; [done|]. eapply part_full; [exact Hi|apply part_refl]. Qed.

Lemma lref_not_value c v : ok c → lref c (loaded 0 c None) ≠ valueNode v.
Proof.
  intros Hc. destruct (lref_cases c (loaded 0 c None) (ok_not_val c Hc)) as [[_ ->]|[_ ->]]; [|done].
  destruct c; [by inversion Hc|done..].
Qed.

(** The children of two full nodes that are loaded alike. *)
Lemma child_inj E ts us i x y :
  distinct E → ok (TFull ts) → ok (TFull us) → fits (TFull ts) → fits (TFull us) →
  encs E false (TFull ts) → encs E false (TFull us) →
  (∀ i t, (i < 16)%nat → ts !! i = Some (Some t) → loads_apart E t) →
  ts !! i = Some x → us !! i = Some y →
  match x with Some c => lref c (loaded 0 c None) | None => nil_node end =
  match y with Some c => lref c (loaded 0 c None) | None => nil_node end → x = y.
Proof.
  intros Hd Ht Hu Hft Hfu Het Heu IH Hx Hy Eq.
  assert (Hnil : ∀ c, lref c (loaded 0 c None) ≠ nil_node) by (intros c; apply lref_not_nil, loaded_not_nil).
  destruct x as [t|], y as [u|]; [|by destruct (Hnil t)|by destruct (Hnil u)|done].
  f_equal. destruct (ok_child ts i t Ht Hx) as (b & -> & Hb). destruct (ok_child us (pos_of b) u Hu Hy) as (b' & Eb & Hb').
  apply pos_inj in Eb as <-. destruct Hb as [[Hb Hokt]|[-> (v & -> & _)]], Hb' as [[Hb' Hoku]|[Eb' (w & -> & _)]].
  - eapply (lref_inj E); [done| |done|done|by apply (fits_child ts b)|by apply (fits_child us b)
      |by apply (encs_child E ts (pos_of b))|by apply (encs_child E us (pos_of b))|done].
    apply (IH (pos_of b)); [by apply pos_nibble|done].
  - subst. by apply nibble_not_term in Hb.
  - by apply nibble_not_term in Hb'.
  - cbn in Eq. congruence.
Qed.

Lemma loaded_inj E t : distinct E → ok t → loads_apart E t.
Proof.
  intros Hd. induction 1 as [ns v Hn Hv|ns ts Hn Hne Hts IH|ts Hl Hc IH Hv Htwo];
    intros u Hu Hft Hfu Het Heu Eq.
  - destruct u as [|k' c'|us]; try done. injection Eq as -> Eq. f_equal.
    inversion Hu as [ms w Hm Hw|ms us Hm Hme Hus|]; subst; [cbn in Eq; congruence|].
    symmetry in Eq. by apply lref_not_value in Eq.
  - destruct u as [|k' c'|us]; try done. injection Eq as <- Eq. f_equal.
    change (lref (TFull ts) (loaded 0 (TFull ts) None) = lref c' (loaded 0 c' None)) in Eq.
    inversion Hu as [ms w Hm Hw|ms us Hm Hme Hus|]; subst; [by apply lref_not_value in Eq|].
    eapply (lref_inj E); [done..|by eapply fits_short|by eapply fits_short|by eapply encs_short|by eapply encs_short|done].
  - assert (ok (TFull ts)) as Hok by by constructor.
    destruct u as [|k' c'|us]; try done. f_equal. injection Eq as Eq.
    apply list_eq_same_length with 17%nat; [by apply ok_full_inv in Hu as [? _]|done|].
    intros i x y Hi Hx Hy. eapply (child_inj E ts us i); [done..|].
    apply (f_equal (λ l, l !! i)) in Eq. change (map ?g ts) with (g <$> ts) in Eq. change (map ?g us) with (g <$> us) in Eq.
    rewrite !list_lookup_fmap, Hx, Hy in Eq. by injection Eq.
Qed.

(** ** Committing and opening again *)

(** No two of the encodings have the same hash, and none has the hash of the empty trie. *)
Definition no_clash (E : list byte → Prop) : Prop :=
  distinct E ∧ ∀ x, E x → BytesToHash (Keccak256 x) ≠ emptyRoot.

(** The nodes of the trie of a map are among the encodings. *)
Definition nodes_in (E : list byte → Prop) (m : contents) : Prop :=
  ∀ tr, ok tr → holds tr m → encs E true tr.

Lemma nodes_in_root E tr m : nodes_in E m → ok tr → holds tr m → E (tenc tr).
Proof. intros Hn Hok Hh. apply (Hn tr Hok Hh); [apply part_refl|by apply ok_not_val|by left]. Qed.

Lemma represents_grows db db' t m :
  grows db db' → represents (db_node db) t m → represents (db_node db') t m.
Proof.
  intros Hg [?|(tr & Hr & ?)]; [by left|]. right. exists tr. split; [|done]. by eapply Rep_grows.
Qed.

Lemma New_ok E db tr m :
  no_clash E → E (tenc tr) → ok tr → holds tr m → entry (db_node db) tr → stored (db_node db) tr →
  ∃ t, New (db_node db) (BytesToHash (thash tr)) = Some (inl t) ∧ represents (db_node db) t m.
Proof.
  intros [Hd He] Hin Hok Hh Hent Hst. unfold New.
  rewrite (proj2 (Z.eqb_neq _ 0)) by by apply (d_zero E Hd).
  rewrite (proj2 (Z.eqb_neq _ emptyRoot)) by by apply He. cbn [negb andb].
  unfold resolveHash. rewrite HashBytes_BytesToHash by apply length_Keccak256. rewrite Hent.
  assert (Rep (db_node db) true (loaded 0 tr (Some (thash tr))) tr) as Hr.
  { apply Rep_loaded; [done|]. split_and!; [done|by left|done]. }
  pose proof (Rep_not_nil _ _ _ _ Hr) as Hn. destruct (loaded 0 tr _) eqn:El; try done;
    (eexists; split; [done|]; right; exists tr; done).
Qed.

Lemma Commit_ok E rank db t m onleaf :
  no_clash E → nodes_in E m → fits_map m → db_inv E rank db →
  (∀ f, onleaf = Some f → leaf_ok E rank f) → represents (db_node db) t m →
  ∃ h t' db', Trie_Commit t onleaf db = Done (h, t') db' ∧ db_inv E rank db' ∧ grows db db' ∧
    is_root m h ∧ represents (db_node db') t' m ∧
    ∃ t2, New (db_node db') h = Some (inl t2) ∧ represents (db_node db') t2 m.
Proof.
  intros [Hd He] Hin Hfit Hinv Hcb Ht. unfold Trie_Commit, hashRoot. destruct Ht as [[Hr ->]|(tr & Hr & Hok & Hh)].
  - rewrite Hr. exists (BytesToHash (HashBytes emptyRoot)), (next_gen (with_root nil_node t)), db.
    assert (BytesToHash (HashBytes emptyRoot) = emptyRoot) as Eroot by (vm_compute; reflexivity).
    split; [by generalize (HashBytes emptyRoot)|].
    split; [exact Hinv|]. split; [reflexivity|]. split; [left; split; [reflexivity|exact Eroot]|].
    split; [left; split; reflexivity|]. rewrite Eroot. clear Eroot. unfold New. rewrite Z.eqb_refl, andb_false_r. eexists. split; [done|]. by left.
  - rewrite (not_nil (root t)) by by eapply Rep_not_nil.
    set (h := {| h_cachegen := _; h_cachelimit := _; onleaf := _ |}).
    pose proof (hash_ok E rank h Hcb (db_node db) tr Hok (holds_fits tr m Hh Hfit) (Some db) true (root t)
      (conj Hd Hinv) Hr (λ _, Hin tr Hok Hh)) as Hw. unfold wp in Hw.
    destruct (hash_node h (root t) true (Some db)) as [[hashed cached] odb|]; [|done].
    destruct Hw as (Hinv' & Hg & Hs & Hr' & Hst). cbn [fst snd] in Hs, Hr'. destruct odb as [db'|]; [|done].
    apply simplify_hash in Hs as ->. cbn. destruct (Hst ltac:(done)) as [Hstored Hentry].
    eexists _, _, db'. split; [done|]. split_and!; [apply Hinv'|done|right; by exists tr|right; by exists tr|].
    eapply New_ok; [by split|by eapply nodes_in_root|done|done|apply Hentry; by left|done].
Qed.

(** Equal roots are of equal contents. *)
Lemma is_root_inj E m m' h :
  no_clash E → nodes_in E m → nodes_in E m' → fits_map m → fits_map m' →
  is_root m h → is_root m' h → m = m'.
Proof.
  intros [Hd He] Hin Hin' Hf Hf' [[-> ->]|(tr & Hok & Hh & ->)] [[-> Eh]|(tr' & Hok' & Hh' & Eh)]; [done|..].
  - by destruct (He (tenc tr') (nodes_in_root E tr' m' Hin' Hok' Hh')).
  - by destruct (He (tenc tr) (nodes_in_root E tr m Hin Hok Hh)).
  - apply keccak_hash_inj in Eh. apply (d_inj E Hd) in Eh; [|by apply (nodes_in_root E tr m)|by apply (nodes_in_root E tr' m')].
    assert (Henc : ∀ t n, nodes_in E n → ok t → holds t n → encs E false t).
    { intros t n Hn Hokt Hht s Hp Hv [[? _]|Hb]; [done|]. apply (Hn t); auto. }
    assert (tr = tr') as <-.
    { pose proof (holds_fits tr m Hh Hf). pose proof (holds_fits tr' m' Hh' Hf').
      apply (loaded_inj E tr Hd Hok); [done..|by apply (Henc tr m)|by apply (Henc tr' m')|by apply decoded_same]. }
    apply map_eq. intros k. by rewrite <-(holds_get tr m k), <-(holds_get tr m' k).
Qed.
End Hashes.

(** ** The properties *)

(** C6: A trie is a finite map.  Whatever part of it is in memory, in the
    database or known by its hash only, looking up a key returns its value (the
    empty string if there is none), updating a key binds it to the value, or
    removes it if the value is empty, and deleting removes it.  No operation
    panics or misses a node, and the trie stands for the updated map afterwards. *)
Theorem trie_is_map `{!Crypto} db_node t m key value :
  represents db_node t m →
  (∃ t', TryGet db_node t key = Some (inl (default [] (m !! key), t')) ∧ represents db_node t' m) ∧
  (∃ t', TryUpdate db_node t key value = Some (inl t') ∧
     represents db_node t' (if decide (value = []) then base.delete key m else <[key := value]> m)) ∧
  (∃ t', TryDelete db_node t key = Some (inl t') ∧ represents db_node t' (base.delete key m)).
Proof.
  intros Ht. split_and!; [by apply TryGet_ok| |].
  - unfold TryUpdate. destruct (decide (value = [])) as [->|Hv].
    + destruct (delete_root db_node t m key Ht) as (d & n & E & Hr). cbn [zlen length Z.of_nat Z.eqb negb].
      rewrite E. by eexists.
    + destruct (insert_root db_node t m key value Ht Hv) as (d & n & E & Hr).
      rewrite (proj2 (Z.eqb_neq (zlen value) 0)) by (by destruct value). cbn [negb]. rewrite E. by eexists.
  - unfold TryDelete. destruct (delete_root db_node t m key Ht) as (d & n & E & Hr). rewrite E. by eexists.
Qed.

(** C12: The root hash depends on the contents only: two tries with the same
    contents, however they were built, loaded or hashed before, and from
    whatever databases, have the same root hash.  Hashing keeps the contents. *)
Theorem Hash_canonical `{!Crypto} `{!MapOrder} f g t u m :
  represents f t m → represents g u m → fits_map m →
  ∃ h t' u', Trie_Hash t = Some (h, t') ∧ Trie_Hash u = Some (h, u') ∧ represents f t' m ∧ represents g u' m.
Proof.
  intros Ht Hu Hf. destruct (Trie_Hash_ok f t m Ht Hf) as (h & t' & Et & Ht' & Hh).
  destruct (Trie_Hash_ok g u m Hu Hf) as (h' & u' & Eu & Hu' & Hh').
  rewrite (is_root_unique m h' h) in Eu by done. by exists h, t', u'.
Qed.

(** C13: The root hash determines the contents: where no two encodings of nodes
    that occur have the same hash, tries with equal root hashes hold equal maps. *)
Theorem Hash_binding `{!Crypto} `{!MapOrder} E f g t u m m' h t' u' :
  no_clash E → nodes_in E m → nodes_in E m' → fits_map m → fits_map m' →
  represents f t m → represents g u m' →
  Trie_Hash t = Some (h, t') → Trie_Hash u = Some (h, u') → m = m'.
Proof.
  intros Hc Hin Hin' Hf Hf' Ht Hu Et Eu.
  destruct (Trie_Hash_ok f t m Ht Hf) as (h1 & t1 & E1 & _ & Hr).
  destruct (Trie_Hash_ok g u m' Hu Hf') as (h2 & u2 & E2 & _ & Hr').
  rewrite Et in E1. rewrite Eu in E2. simplify_eq. by eapply is_root_inj.
Qed.

(** What is committed can be opened again: [Commit] writes the trie to the
    database without a panic and returns its root hash; a trie opened at that
    hash holds the same map, and so does every other trie of the database still. *)
Theorem Commit_New `{!Crypto} `{!MapOrder} E rank db t m onleaf :
  no_clash E → nodes_in E m → fits_map m → db_inv E rank db →
  (∀ f, onleaf = Some f → leaf_ok E rank f) → represents (db_node db) t m →
  ∃ h t' db', Trie_Commit t onleaf db = Done (h, t') db' ∧
    (∃ u, Trie_Hash t = Some (h, u)) ∧
    db_inv E rank db' ∧ represents (db_node db') t' m ∧
    (∃ t2, New (db_node db') h = Some (inl t2) ∧ represents (db_node db') t2 m) ∧
    ∀ u m', represents (db_node db) u m' → represents (db_node db') u m'.
Proof.
  intros Hc Hin Hf Hinv Hcb Ht. destruct (Trie_Hash_ok _ t m Ht Hf) as (h & u & Eu & _ & Hr).
  destruct (Commit_ok E rank db t m onleaf Hc Hin Hf Hinv Hcb Ht) as (h' & t' & db' & E' & Hinv' & Hg & Hr' & Ht' & Hnew).
  exists h', t', db'. rewrite (is_root_unique m h h') in Eu by done.
  split_and!; [done|by exists u|done..|]. intros u' m' Hu. by eapply represents_grows.
Qed.

(** ** Concrete tries *)

#[local] Existing Instance sample_crypto.
#[local] Existing Instance sample_order.

Definition empty_trie : Trie := {| root := nil_node; originalRoot := 0; cachegen := 0; cachelimit := 0 |}.

(** One key, with a node made in generation [gen]. *)
Definition leaf_trie (gen : Z) : Trie :=
  with_root (shortNode (keybytesToHex [Byte.x01]) (valueNode [Byte.x02]) (newFlag gen)) empty_trie.

Definition leaf_map : contents := {[ [Byte.x01] := [Byte.x02] ]}.

Definition leaf_tree : tree := TShort (keybytesToHex [Byte.x01]) (TVal [Byte.x02]).

Lemma leaf_tree_ok : ok leaf_tree ∧ holds leaf_tree leaf_map.
Proof.
  split.
  - apply (ok_leaf [Byte.x00; Byte.x01]); [repeat constructor|done].
  - intros hk Hk. unfold leaf_tree. rewrite tfind_leaf. destruct (decide (hk = _)) as [->|Hne]; [done|].
    destruct (hexToKeybytes hk) as [k|] eqn:E; [|done]. cbn. unfold leaf_map.
    rewrite lookup_singleton_ne; [done|]. intros <-. apply Hne. by apply hexToKeybytes_inv.
Qed.

Lemma leaf_represents db_node gen : represents db_node (leaf_trie gen) leaf_map.
Proof.
  right. exists leaf_tree. split; [apply Rep_new; constructor|]. apply leaf_tree_ok.
Qed.

Lemma leaf_fits : fits_map leaf_map.
Proof. intros k v E. unfold leaf_map in E. apply lookup_singleton_Some in E as [<- <-]. reflexivity. Qed.

(** The only encoding that occurs; it has no references. *)
Definition leaf_rank (h : Hash) : nat := 0.

Definition leaf_encs (x : list byte) : Prop := x = tenc leaf_tree.

Lemma leaf_no_clash : no_clash leaf_encs.
Proof.
  split; [split|].
  - by intros x y -> ->.
  - intros x ->. vm_compute. discriminate.
  - intros x ->. vm_compute. discriminate.
Qed.

Lemma leaf_nodes_in : nodes_in leaf_encs leaf_map.
Proof.
  intros tr Hok Hh s Hp Hv _. destruct leaf_tree_ok as [Hok' Hh'].
  rewrite (holds_unique tr leaf_tree leaf_map) in Hp by done.
  inversion Hp as [|k c s' Hc|]; subst; [done|]. inversion Hc; subst. by destruct Hv.
Qed.

Definition empty_db : Database := NewDatabase {| entries := ∅ |}.

Lemma empty_db_inv E rank : db_inv E rank empty_db.
Proof.
  assert (Hn : ∀ h c, nodes empty_db !! h = Some c → h = 0).
  { intros h c Hc. unfold empty_db, NewDatabase in Hc. cbn [nodes] in Hc. by apply lookup_singleton_Some in Hc as [<- _]. }
  assert (Hd : ∀ h, ¬ filed empty_db h).
  { intros h [e Hm]. unfold mem_Get, empty_db in Hm. cbn in Hm. by rewrite lookup_empty in Hm. }
  split.
  - by intros h c ->%Hn.
  - intros h e _ Hm. destruct (Hd h). by exists e.
  - by exists metaRoot.
  - by intros h c x ->%Hn.
  - by intros e x _ ?%Hd.
  - exists []. split; [apply chain_nil|intros h [c ->%Hn]; by left|done].
Qed.

Lemma trie_is_map_witness :
  let db_node := db_node empty_db in
  (∃ t', TryGet db_node (leaf_trie 3) [Byte.x01] = Some (inl ([Byte.x02], t')) ∧ represents db_node t' leaf_map) ∧
  (∃ t', TryUpdate db_node (leaf_trie 3) [Byte.x01] [Byte.xff] = Some (inl t') ∧
     represents db_node t' (<[[Byte.x01] := [Byte.xff]]> leaf_map)) ∧
  (∃ t', TryDelete db_node (leaf_trie 3) [Byte.x01] = Some (inl t') ∧
     represents db_node t' (base.delete [Byte.x01] leaf_map)).
Proof.
  exact (trie_is_map (db_node empty_db) (leaf_trie 3) leaf_map [Byte.x01] [Byte.xff] (leaf_represents _ 3)).
Defined.

Lemma Hash_canonical_witness :
  ∃ h t' u', Trie_Hash (leaf_trie 0) = Some (h, t') ∧ Trie_Hash (leaf_trie 3) = Some (h, u') ∧
    represents (db_node empty_db) t' leaf_map ∧ represents (λ _ _, None) u' leaf_map.
Proof.
  exact (Hash_canonical (db_node empty_db) (λ _ _, None) (leaf_trie 0) (leaf_trie 3) leaf_map
    (leaf_represents _ 0) (leaf_represents _ 3) leaf_fits).
Defined.

Lemma Hash_binding_witness :
  ∃ h t' u', Trie_Hash (leaf_trie 0) = Some (h, t') ∧ Trie_Hash (leaf_trie 3) = Some (h, u') ∧ leaf_map = leaf_map.
Proof.
  eexists _, _, _. split; [vm_compute; reflexivity|]. split; [vm_compute; reflexivity|].
  refine (Hash_binding leaf_encs (db_node empty_db) (db_node empty_db) (leaf_trie 0) (leaf_trie 3) leaf_map leaf_map _ _ _
    leaf_no_clash leaf_nodes_in leaf_nodes_in leaf_fits leaf_fits (leaf_represents _ 0) (leaf_represents _ 3) _ _);
    vm_compute; reflexivity.
Defined.

Lemma Commit_New_witness :
  ∃ h t' db', Trie_Commit (leaf_trie 0) None empty_db = Done (h, t') db' ∧
    (∃ u, Trie_Hash (leaf_trie 0) = Some (h, u)) ∧
    db_inv leaf_encs leaf_rank db' ∧ represents (db_node db') t' leaf_map ∧
    (∃ t2, New (db_node db') h = Some (inl t2) ∧ represents (db_node db') t2 leaf_map) ∧
    ∀ u m', represents (db_node empty_db) u m' → represents (db_node db') u m'.
Proof.
  refine (Commit_New leaf_encs leaf_rank empty_db (leaf_trie 0) leaf_map None
    leaf_no_clash leaf_nodes_in leaf_fits (empty_db_inv _ _) _ (leaf_represents _ 0)). by intros f.
Defined.
