(* ===== verification/TrieProof.v ===== *)
(** * Merkle proofs

    [Prove], [VerifyProof] and [get] of [trie/proof.go]: the encoded nodes on the
    path to a key, and the value under a key read off such nodes. *)
From S2P Require Import Prelude BigMath Rlp VmTypes VmSample TrieEncoding TrieNode Trie TrieTree TrieRep TrieOps TrieDb TrieHash TrieCodec TrieDbOk TrieHashOk TrieTheorems.

#[local] Arguments HashBytes : simpl never.
#[local] Arguments BytesToHash : simpl never.
#[local] Arguments mem_Get : simpl never.
#[local] Arguments mem_Put : simpl never.

(** The key does not go through a short node. *)
Definition leaves_key (Key key : list byte) : bool :=
  (length key <? length Key)%nat || negb (bool_decide (Key = take (length Key) key)).

(** Down from a node as far as it is loaded: the rest of the key and what is there. *)
Fixpoint get (tn : node) (key : list byte) : option (list byte * node) :=
  match tn with
  | shortNode Key Val _ =>
      if leaves_key Key key then Some ([], nil_node) else get Val (drop (length Key) key)
  | fullNode cs _ =>
      match key with
      | [] => None
      | k0 :: ks =>
          (fix pick (i : nat) (cs : list node) {struct cs} : option (list byte * node) :=
             match cs, i with
             | [], _ => None
             | c :: _, O => get c ks
             | _ :: cs, S i => pick i cs
             end) (pos_of k0) cs
      end
  | hashNode _ => Some (key, tn)
  | nil_node => Some (key, nil_node)
  | valueNode _ => Some ([], tn)
  | _ => None
  end.

Inductive proof_error :=
  | ProofMissing (i : Z) (hash : list byte)
  | BadProofNode (i : Z) (err : decodeError).

Section Proof.
Context `{!Crypto} `{!MapOrder}.

(** The value, the number of nodes read, the error. *)
Notation verified := (option (list byte) * Z * option proof_error)%type.

(** The loop of [VerifyProof] from its [i]-th round. *)
Fixpoint verify (fuel : nat) (i : Z) (wantHash key : list byte) (Get : list byte → option (list byte)) : M () verified :=
  match fuel with
  | O => fail OutOfFuel
  | S fuel =>
      match Get wantHash with
      | None => mret (None, i, Some (ProofMissing i wantHash))
      | Some buf =>
          r ← must (decodeNode (Some wantHash) buf 0);
          match r with
          | inr err => mret (None, i, Some (BadProofNode i err))
          | inl n =>
              '(keyrest, cld) ← must (get n key);
              match cld with
              | nil_node => mret (None, i, None)
              | hashNode h => verify fuel (i + 1) (overlay h wantHash) keyrest Get
              | valueNode v => mret (Some v, i + 1, None)
              | _ => verify fuel (i + 1) wantHash key Get
              end
          end
      end
  end.

Definition VerifyProof (fuel : nat) (rootHash : Hash) (key : list byte) (proofDb : list byte → option (list byte)) : M () verified :=
  verify fuel 0 (HashBytes rootHash) (keybytesToHex key) proofDb.

Variable db_node : Hash → Z → option node.

(** The nodes on the path to a key, loading them where needed. *)
Fixpoint path_nodes (gen : Z) (fuel : nat) (tn : node) (key : list byte) : TR (list node) :=
  match fuel with
  | O => None
  | S fuel =>
      match key with
      | [] => mret []
      | k0 :: ks =>
          match tn with
          | nil_node => mret []
          | shortNode Key Val _ =>
              if leaves_key Key key then mret [tn]
              else ns ← path_nodes gen fuel Val (drop (length Key) key); mret (tn :: ns)
          | fullNode cs _ =>
              c ← at_index (cs !! pos_of k0);
              ns ← path_nodes gen fuel c ks; mret (tn :: ns)
          | hashNode h => rn ← resolveHash db_node gen h []; path_nodes gen fuel rn key
          | _ => None
          end
      end
  end.

Definition proof_hasher : hasher := {| h_cachegen := 0; h_cachelimit := 0; onleaf := None |}.

(** A node with its children collapsed, and what stands for it in its parent. *)
Definition collapse_node (n : node) : M (option Database) (node * node) :=
  '(c, _) ← hashChildren (λ c, hash_node proof_hasher c false) n;
  hn ← store proof_hasher c false;
  mret (c, hn).

Definition proof_node (n : node) : option (node * node) :=
  match collapse_node n None with
  | Done r _ => Some r
  | Fault _ => None
  end.

Fixpoint put_nodes (i : nat) (fromLevel : Z) (ns : list node) (proofDb : MemDatabase) : option MemDatabase :=
  match ns with
  | [] => Some proofDb
  | n :: ns =>
      '(n, hn) ← proof_node n;
      let hash := match hn with hashNode b => Some b | _ => None end in
      if bool_decide (is_Some hash) || (i =? 0)%nat then
        if fromLevel >? 0 then put_nodes (S i) (fromLevel - 1) ns proofDb
        else
          enc ← encode_node n;
          put_nodes (S i) fromLevel ns (mem_Put (default (Keccak256 enc) hash) enc proofDb)
      else put_nodes (S i) fromLevel ns proofDb
  end.

Definition Prove (t : Trie) (key : list byte) (fromLevel : Z) (proofDb : MemDatabase) : TR MemDatabase :=
  let k := keybytesToHex key in
  ns ← path_nodes (cachegen t) (key_fuel k) (root t) k;
  at_index (put_nodes 0 fromLevel ns proofDb).
End Proof.

(** ** Reading a proof *)

Lemma bind_must {St A B} (o : option A) (k : A → M St B) a s : o = Some a → (x ← must o; k x) s = k a s.
Proof. by intros ->. Qed.

Lemma leaves_key_spec k key : leaves_key k key = negb (bool_decide (k `prefix_of` key)).
Proof.
  unfold leaves_key. destruct (decide (k `prefix_of` key)) as [Hk|Hk].
  - rewrite (bool_decide_eq_true_2 (k `prefix_of` key)) by done. destruct Hk as [s ->]. rewrite take_app_length, length_app.
    rewrite bool_decide_eq_true_2 by done. rewrite (proj2 (Nat.ltb_ge _ _)) by lia. done.
  - rewrite (bool_decide_eq_false_2 (k `prefix_of` key)) by done. rewrite bool_decide_eq_false_2, orb_true_r; [done|].
    intros E. apply Hk. rewrite E. apply prefix_take.
Qed.

Lemma get_full cs fl b ks :
  get (fullNode cs fl) (b :: ks) = match cs !! pos_of b with Some c => get c ks | None => None end.
Proof.
  cbn [get]. generalize (pos_of b) as i. induction cs as [|c cs IH]; intros [|i]; done || apply IH.
Qed.

Section ProofOk.
Context `{!Crypto} `{!MapOrder}.

(** The inner trees on the way to a key. *)
Fixpoint trail (t : tree) (key : list byte) : list tree :=
  match t with
  | TVal _ => []
  | TShort k c => t :: if bool_decide (k `prefix_of` key) then trail c (drop (length k) key) else []
  | TFull ts =>
      t :: match key with
           | [] => []
           | b :: ks =>
               match map (λ c, match c with Some c => trail c | None => λ _, [] end) ts !! pos_of b with
               | Some f => f ks
               | None => []
               end
           end
  end.

Lemma trail_full ts b ks :
  trail (TFull ts) (b :: ks) = TFull ts :: match ts !! pos_of b with Some (Some c) => trail c ks | _ => [] end.
Proof.
  cbn [trail]. change (map ?f ts) with (f <$> ts). rewrite list_lookup_fmap.
  by destruct (ts !! pos_of b) as [[c|]|].
Qed.

Lemma trail_short k c s : trail (TShort k c) (k ++ s) = TShort k c :: trail c s.
Proof. cbn [trail]. rewrite bool_decide_eq_true_2 by by apply prefix_app_r. by rewrite drop_app_length. Qed.

Lemma trail_head t key : ¬ is_val t → ∃ l, trail t key = t :: l.
Proof. destruct t; [by intros []|eexists; reflexivity..]. Qed.

(** What is found on the way down to a key, with less than [bound] left of it. *)
Definition found (bound : nat) (t : tree) (key kr : list byte) (n : node) : Prop :=
  match n with
  | nil_node => tfind t key = None
  | valueNode v => tfind t key = Some v
  | hashNode b => ∃ s, ok s ∧ fits s ∧ part t s ∧ big s ∧ b = thash s ∧ tfind t key = tfind s kr ∧
      hex_key kr ∧ (length kr < bound)%nat ∧ trail s kr `suffix_of` trail t key
  | _ => False
  end.

Lemma found_below bound bound' t c key key' kr n :
  tfind t key = tfind c key' → (bound' <= bound)%nat → part t c → trail c key' `suffix_of` trail t key →
  found bound' c key' kr n → found bound t key kr n.
Proof.
  intros Hf Hb Hp Ht. destruct n; cbn [found]; rewrite ?Hf; try done.
  intros (s & Hok & Hfs & Hps & Hbig & -> & Es & Hk & Hl & Hts). exists s.
  split_and!; [done|done|by eapply part_trans|done|done|done|done|lia|by etrans].
Qed.

Definition gets_to (t : tree) : Prop := ∀ gen h key, hex_key key →
  ∃ kr n, get (loaded gen t h) key = Some (kr, n) ∧ found (length key) t key kr n.

Lemma get_ref c gen key :
  ok c → fits c → gets_to c → hex_key key →
  ∃ kr n, get (lref c (loaded gen c None)) key = Some (kr, n) ∧ found (S (length key)) c key kr n.
Proof.
  intros Hok Hf IH Hk. destruct (lref_cases c (loaded gen c None) (ok_not_val c Hok)) as [[_ ->]|[Hb ->]].
  - destruct (IH gen None key Hk) as (kr & n & -> & Hn). exists kr, n. split; [done|].
    eapply (found_below _ (length key) c c key key); [done|lia|apply part_refl|done|done].
  - exists key, (hashNode (thash c)). split; [done|]. exists c. split_and!; [done..|apply part_refl|done|done|done|done|lia|done].
Qed.

Lemma get_loaded t : ok t → fits t → gets_to t.
Proof.
  induction 1 as [ns v Hn Hv|ns ts Hn Hne Hts IH|ts Hl Hc IH Hv Htwo]; intros Hf gen h key Hk.
  - cbn [loaded get]. rewrite leaves_key_spec. case_bool_decide as Hp; cbn [negb].
    + destruct Hp as [s ->]. apply hex_key_prefix in Hk as ->; [|by apply hex_key_snoc].
      eexists _, _. split; [done|]. cbn [found]. by rewrite app_nil_r, tfind_leaf, decide_True.
    + eexists _, _. split; [done|]. by apply tfind_short_none.
  - cbn [loaded get]. rewrite leaves_key_spec. case_bool_decide as Hp; cbn [negb].
    + destruct Hp as [s ->]. rewrite drop_app_length. apply hex_key_app in Hk; [|done].
      destruct (get_ref (TFull ts) gen s) as (kr & n & E & Hfn); [done|by eapply fits_short|by apply IH; eapply fits_short|done|].
      exists kr, n. split; [exact E|]. eapply (found_below _ (S (length s)) _ (TFull ts) _ s); [apply tfind_short| | | |done].
      * rewrite length_app. destruct ns; [done|]. cbn. lia.
      * apply part_short, part_refl.
      * rewrite trail_short. by apply suffix_cons_r.
    + eexists _, _. split; [done|]. by apply tfind_short_none.
  - assert (ok (TFull ts)) as Hok by by constructor.
    destruct key as [|b ks]; [by apply hex_key_nil in Hk|]. cbn [loaded]. rewrite get_full.
    change (map ?f ts) with (f <$> ts). rewrite list_lookup_fmap.
    pose proof (hex_key_byte _ _ Hk) as Hb. pose proof (pos_key_byte b Hb).
    destruct (lookup_lt_is_Some_2 ts (pos_of b) ltac:(lia)) as [ot Hot]. rewrite Hot. cbn [fmap option_fmap option_map].
    destruct ot as [c|].
    + destruct (ok_child_at ts b c Hok Hb Hot) as [[Hnb Hokc]|[-> (v & -> & Hvne)]].
      * apply hex_key_cons in Hk as [[-> _]|[_ Hk]]; [by apply nibble_not_term in Hnb|].
        assert (fits c) as Hfc by by eapply (fits_child ts b).
        destruct (get_ref c gen ks) as (kr & n & -> & Hfn); [done|done| |done|].
        { apply (IH (pos_of b)); [by apply pos_nibble|done..]. }
        exists kr, n. split; [done|]. eapply (found_below _ (S (length ks)) _ c _ ks); [by rewrite tfind_full, Hot|done| | |done].
        -- eapply part_full; [exact Hot|apply part_refl].
        -- rewrite trail_full, Hot. by apply suffix_cons_r.
      * apply hex_key_cons in Hk as [[_ ->]|[Hnb _]]; [|by apply nibble_not_term in Hnb].
        eexists _, _. split; [done|]. cbn [found lref loaded]. by rewrite tfind_full, Hot.
    + eexists _, _. split; [done|]. cbn [found]. by rewrite tfind_full, Hot.
Qed.

(** ** Verifying *)

(** Every entry of the proof is filed under its hash. *)
Definition proof_set (E : list byte → Prop) (Get : list byte → option (list byte)) : Prop :=
  ∀ k e, Get k = Some e → E e ∧ k = Keccak256 e.

Definition missing_on (t : tree) (key : list byte) (Get : list byte → option (list byte)) : Prop :=
  ∃ s, s ∈ trail t key ∧ (s = t ∨ big s) ∧ Get (thash s) = None.

Lemma verify_ok E Get : distinct E → proof_set E Get → ∀ fuel i t key,
  ok t → fits t → encs E true t → hex_key key → (length key < fuel)%nat →
  ∃ n (err : option proof_error), verify fuel i (thash t) key Get () = Done (if err then None else tfind t key, n, err) () ∧
    (err = None ∨ ∃ h, err = Some (ProofMissing n h) ∧ Get h = None ∧ missing_on t key Get).
Proof.
  intros Hd Hp. induction fuel as [|fuel IH]; intros i t key Hok Hf He Hk Hl; [lia|]. cbn [verify].
  destruct (trail_head t key (ok_not_val t Hok)) as [l Hl0].
  destruct (Get (thash t)) as [buf|] eqn:Eg.
  2:{ exists i, (Some (ProofMissing i (thash t))). split; [done|]. right. exists (thash t). split_and!; [done..|].
      exists t. rewrite Hl0. split_and!; [by left|by left|done]. }
  destruct (Hp _ _ Eg) as [Hb Eh]. apply (d_inj E Hd) in Eh; [subst buf| |done].
  2:{ apply He; [apply part_refl|by apply ok_not_val|by left]. }
  rewrite (bind_must _ _ _ _ (decodeNode_tenc 0 t (Some (thash t)) Hok Hf)).
  destruct (get_loaded t Hok Hf 0 (Some (thash t)) key Hk) as (kr & n & Eget & Hn).
  rewrite (bind_must _ _ _ _ Eget). destruct n; try done; cbn [found] in Hn.
  - exists i, None. split; [by rewrite Hn|]. by left.
  - destruct Hn as (s & Hoks & Hfs & Hps & Hbig & -> & Es & Hkr & Hlr & Hsuf).
    rewrite overlay_full by (unfold thash; by rewrite !length_Keccak256).
    destruct (IH (i + 1) s kr) as (n & err & Ev & Hres); [done|done|by eapply encs_sub|done|lia|].
    exists n, err. rewrite Es. split; [done|]. destruct Hres as [?|(h & -> & Hh & r & Hr & Hrb & Hrn)]; [by left|right].
    exists h. split_and!; [done..|]. exists r. split_and!; [|destruct Hrb as [->|?]; by right|done].
    destruct Hsuf as [pre ->]. apply elem_of_app. by right.
  - exists (i + 1), None. split; [by rewrite Hn|]. by left.
Qed.

(** ** Making a proof *)

Section Prove.
Variable db_node : Hash → Z → option node.

(** A node on the path stands for its tree. *)
Definition stands (n : node) (s : tree) : Prop :=
  ok s ∧ fits s ∧ is_Some (flag_of n) ∧ ∃ top, Rep db_node top n s.

Definition paths_to (t : tree) : Prop := ∀ gen fuel top n key,
  Rep db_node top n t → ¬ is_hash n → hex_key key → (2 * length key + 1 <= fuel)%nat →
  ∃ ns, path_nodes db_node gen fuel n key = Some (inl ns) ∧ Forall2 stands ns (trail t key).

Lemma paths_any t gen fuel top n key :
  paths_to t → Rep db_node top n t → hex_key key → (2 * length key + 2 <= fuel)%nat →
  ∃ ns, path_nodes db_node gen fuel n key = Some (inl ns) ∧ Forall2 stands ns (trail t key).
Proof.
  intros Ht Hr Hk Hl. destruct (is_hash_dec n) as [Hn|Hn].
  - destruct (resolve_rep db_node top _ t gen [] Hr Hn) as (h & m & -> & Em & Hm & Hrm).
    destruct fuel as [|fuel]; [lia|]. destruct key as [|b ks]; [by apply hex_key_nil in Hk|]. cbn [path_nodes].
    rewrite Em. cbn. apply (Ht gen fuel top m (b :: ks)); [done..|]. lia.
  - apply (Ht gen fuel top n key); [done..|lia].
Qed.

Lemma path_stands top n t ns l :
  ok t → fits t → is_Some (flag_of n) → Rep db_node top n t → Forall2 stands ns l → Forall2 stands (n :: ns) (t :: l).
Proof. intros Hok Hf Hfl Hr Hs. constructor; [|done]. split_and!; [done..|]. by exists top. Qed.

Lemma path_ok t : ok t → fits t → paths_to t.
Proof.
  induction 1 as [ns v Hn Hv|ns ts Hn Hne Hts IH|ts Hl Hc IH Hv Htwo]; intros Hf gen fuel top n key Hr Hh Hk Hfuel;
    (destruct fuel as [|fuel]; [lia|]); (destruct key as [|b ks]; [by apply hex_key_nil in Hk|]).
  - destruct (Rep_shape _ _ _ _ Hr Hh) as (m & fl & -> & Hm & _). cbn [path_nodes trail]. rewrite leaves_key_spec.
    assert (ok (TShort (ns ++ [terminator]) (TVal v))) as Hok by by constructor.
    case_bool_decide as Hp; cbn [negb].
    + destruct Hp as [s Es]. rewrite Es, drop_app_length. rewrite Es in Hk. apply hex_key_prefix in Hk as ->; [|by apply hex_key_snoc].
      destruct fuel as [|fuel]; [cbn in Hfuel; lia|]. eexists. split; [done|]. by eapply path_stands.
    + eexists. split; [done|]. by eapply path_stands.
  - destruct (Rep_shape _ _ _ _ Hr Hh) as (m & fl & -> & Hm & _). cbn [path_nodes].
    rewrite leaves_key_spec. assert (ok (TShort ns (TFull ts))) as Hok by by constructor.
    case_bool_decide as Hp; cbn [negb].
    + destruct Hp as [s Es]. rewrite Es, drop_app_length, trail_short. rewrite Es in Hk, Hfuel. apply hex_key_app in Hk; [|done].
      assert (fits (TFull ts)) as Hft by by eapply fits_short.
      destruct (paths_any (TFull ts) gen fuel false m s) as (l & -> & Hs); [by apply IH|done|done| |].
      { rewrite length_app in Hfuel. destruct ns; [done|]. cbn [length] in Hfuel. lia. }
      eexists. split; [done|]. by eapply path_stands.
    + cbn [trail]. rewrite bool_decide_eq_false_2 by done. eexists. split; [done|]. by eapply path_stands.
  - assert (ok (TFull ts)) as Hok by by constructor.
    destruct (Rep_shape _ _ _ _ Hr Hh) as (cs & fl & ->). cbn [path_nodes].
    destruct (Rep_full_inv _ _ _ _ _ Hr) as (Hlc & Hslots & _). rewrite trail_full.
    pose proof (hex_key_byte _ _ Hk) as Hb. pose proof (pos_key_byte b Hb).
    destruct (lookup_lt_is_Some_2 cs (pos_of b) ltac:(lia)) as [c Ec].
    destruct (lookup_lt_is_Some_2 ts (pos_of b) ltac:(lia)) as [ot Eot]. rewrite Ec, Eot. cbn [at_index fmap option_fmap option_map].
    pose proof (Hslots _ _ _ Ec Eot) as Hslot.
    assert (∃ l, path_nodes db_node gen fuel c ks = Some (inl l) ∧
      Forall2 stands l (match ot with Some t => trail t ks | None => [] end)) as (l & El & Hs).
    { destruct fuel as [|fuel]; [cbn in Hfuel; lia|]. destruct ot as [t|]; cbn [slot] in Hslot.
      - destruct (ok_child_at ts b t Hok Hb Eot) as [[Hnb Hokc]|[-> (v & -> & Hvne)]].
        + apply hex_key_cons in Hk as [[-> _]|[_ Hk]]; [by apply nibble_not_term in Hnb|].
          apply (paths_any t gen (S fuel) false c ks); [|done|done|cbn [length] in Hfuel; lia].
          apply (IH (pos_of b)); [by apply pos_nibble|done|by eapply (fits_child ts b)].
        + apply hex_key_cons in Hk as [[_ ->]|[Hnb _]]; [|by apply nibble_not_term in Hnb]. exists []. done.
      - subst c. exists []. by destruct ks. }
    tr_step. rewrite El. eexists. split; [done|]. destruct ot; by eapply path_stands.
Qed.

Lemma proof_node_ok n s :
  stands n s → ∃ c hn, proof_node n = Some (c, hn) ∧ encode_node c = Some (tenc s) ∧
    match hn with hashNode b => b = thash s ∧ big s | _ => ¬ big s end.
Proof.
  intros (Hok & Hf & [fl Hfl] & top & Hr). set (E := λ _ : list byte, False). set (rank := λ _ : Hash, 0%nat).
  assert (∀ f, onleaf proof_hasher = Some f → leaf_ok E rank f) as Hleaf by done.
  pose proof (hashChildren_ok E rank proof_hasher db_node s None top n fl Hok
    (subs_ok E rank proof_hasher Hleaf db_node s Hok Hf) I Hr ltac:(done) Hfl) as Hw.
  assert (wp (λ _, False) (collapse_node n)
    (λ r _, encode_node r.1 = Some (tenc s) ∧ match r.2 with hashNode b => b = thash s ∧ big s | _ => ¬ big s end) None) as Hgo.
  { apply wp_bind. eapply wp_mono; [exact Hw|]. intros [a b] odb1 (Hi & He & Hin & Hs & Hca & _).
    destruct odb1; [done|]. apply wp_bind. cbn [fst] in *.
    eapply wp_mono; [eapply (store_ok E rank proof_hasher Hleaf db_node None a s false); [done..|exact Hca|]|].
    - intros hh Ehh. inversion Hr; subst; try discriminate Hfl; injection Hfl as ->; cbn in Ehh;
        match goal with Hflag : flag_ok _ _ _ _ |- _ => unfold flag_ok in Hflag; rewrite Ehh in Hflag; by destruct Hflag end.
    - intros hn odb2 (_ & _ & _ & _ & Hcase). apply wp_ret. cbn [fst snd]. pose proof (tenc_bound s Hok Hf). split.
      + apply encode_simplified; [done|lia].
      + destruct hn; try apply Hcase. destruct Hcase as [-> [?|?]]; done. }
  unfold wp in Hgo. unfold proof_node. destruct (collapse_node n None) as [[c hn] odb|]; [|done]. by exists c, hn.
Qed.

(** Entries are never overwritten by others. *)
Lemma mem_Put_other E p k e :
  distinct E → proof_set E (mem_Get p) → E e → k = Keccak256 e →
  proof_set E (mem_Get (mem_Put k e p)) ∧
  (∀ k' e', mem_Get p k' = Some e' → mem_Get (mem_Put k e p) k' = Some e') ∧ mem_Get (mem_Put k e p) k = Some e.
Proof.
  intros Hd Hp He ->. unfold mem_Get, mem_Put in *. cbn [entries]. split_and!.
  - intros k' e' [[<- <-]|[_ Hk]]%lookup_insert_Some; [done|by apply Hp].
  - intros k' e' Hk. destruct (decide (Keccak256 e = k')) as [<-|Hne]; [|by rewrite lookup_insert_ne].
    rewrite lookup_insert_eq. f_equal. destruct (Hp _ _ Hk). by apply (d_inj E Hd).
  - by rewrite lookup_insert_eq.
Qed.

Lemma put_ok E : distinct E → ∀ ns ss i p,
  Forall2 stands ns ss → proof_set E (mem_Get p) →
  (∀ j s, ss !! j = Some s → (i + j = 0)%nat ∨ big s → E (tenc s)) →
  ∃ p', put_nodes i 0 ns p = Some p' ∧ proof_set E (mem_Get p') ∧
    (∀ k e, mem_Get p k = Some e → mem_Get p' k = Some e) ∧
    ∀ j s, ss !! j = Some s → (i + j = 0)%nat ∨ big s → mem_Get p' (thash s) = Some (tenc s).
Proof.
  intros Hd ns ss i p Hs. revert i p. induction Hs as [|n s ns ss Hn Hs IH]; intros i p Hp He; [by exists p|].
  cbn [put_nodes]. destruct (proof_node_ok n s Hn) as (c & hn & -> & Henc & Hhn). cbn [mbind option_bind].
  assert (∀ j s', ss !! j = Some s' → (S i + j = 0)%nat ∨ big s' → E (tenc s')) as He'.
  { intros j s' Hj [?|?]; [lia|]. apply (He (S j)); auto. }
  destruct (bool_decide (is_Some match hn with hashNode b => Some b | _ => None end) || (i =? 0)%nat) eqn:Eb.
  - cbn [Z.gtb Z.compare]. rewrite Henc. cbn [mbind option_bind].
    assert (default (Keccak256 (tenc s)) match hn with hashNode b => Some b | _ => None end = thash s) as Eh.
    { destruct hn; try done. by destruct Hhn as [-> _]. }
    rewrite Eh. assert (E (tenc s)) as Hes.
    { apply (He 0%nat s eq_refl). apply orb_true_iff in Eb as [Eb|Eb]; [|left; apply Nat.eqb_eq in Eb; lia].
      right. apply bool_decide_eq_true in Eb. destruct hn; try by destruct Eb. by destruct Hhn. }
    destruct (mem_Put_other E p (thash s) (tenc s) Hd Hp Hes eq_refl) as (Hp1 & Hk1 & Hs1).
    destruct (IH (S i) _ Hp1 He') as (p' & -> & Hp' & Hk' & Hall). exists p'. split_and!; [done|done|auto|].
    intros [|j] s' Hj Hb; [injection Hj as <-; by apply Hk'|]. apply (Hall j s' Hj). destruct Hb; [lia|by right].
  - apply orb_false_iff in Eb as [Eb Ei]. apply Nat.eqb_neq in Ei. apply bool_decide_eq_false in Eb.
    assert (¬ big s) as Hnb. { destruct hn; try done. by destruct Eb. }
    destruct (IH (S i) p Hp He') as (p' & -> & Hp' & Hk' & Hall). exists p'. split_and!; [done..|].
    intros [|j] s' Hj Hb; [injection Hj as <-; destruct Hb; [lia|done]|]. apply (Hall j s' Hj). destruct Hb; [lia|by right].
Qed.
End Prove.

Lemma trail_part t : ∀ key s, s ∈ trail t key → part t s ∧ ¬ is_val s.
Proof.
  induction t as [v|k c IH|ts IH] using tree_ind'; intros key s Hs.
  - by apply elem_of_nil in Hs.
  - cbn [trail] in Hs. apply elem_of_cons in Hs as [->|Hs]; [split; [apply part_refl|by intros []]|].
    case_bool_decide; [|by apply elem_of_nil in Hs]. destruct (IH _ _ Hs). split; [by apply part_short|done].
  - destruct key as [|b ks].
    { cbn [trail] in Hs. apply list_elem_of_singleton in Hs as ->. split; [apply part_refl|by intros []]. }
    rewrite trail_full in Hs. apply elem_of_cons in Hs as [->|Hs]; [split; [apply part_refl|by intros []]|].
    destruct (ts !! pos_of b) as [[c|]|] eqn:Ec; try by apply elem_of_nil in Hs.
    destruct (IH _ _ Ec _ _ Hs). split; [by eapply part_full|done].
Qed.

Lemma HashBytes_thash tr : HashBytes (BytesToHash (thash tr)) = thash tr.
Proof. apply HashBytes_BytesToHash, length_Keccak256. Qed.
End ProofOk.

(** ** The properties *)

(** C9: A proof that verifies is right: given nodes filed under their hashes,
    where no two encodings that occur have the same hash, and the root hash of a
    trie, [VerifyProof] ends without a panic and returns the value the trie has
    for the key, or that it has none, unless a node of the proof is missing,
    which it reports. *)
Theorem VerifyProof_sound `{!Crypto} `{!MapOrder} E f t m h t' key proofDb fuel :
  no_clash E → nodes_in E m → fits_map m → represents f t m → Trie_Hash t = Some (h, t') →
  proof_set E proofDb → (length (keybytesToHex key) < fuel)%nat →
  ∃ n (err : option proof_error),
    VerifyProof fuel h key proofDb () = Done (if err then None else m !! key, n, err) () ∧
    (err = None ∨ ∃ hash, err = Some (ProofMissing n hash) ∧ proofDb hash = None).
Proof.
  intros [Hd He] Hin Hf Ht Eh Hp Hfuel. destruct (Trie_Hash_ok f t m Ht Hf) as (h1 & t1 & E1 & _ & Hr).
  rewrite Eh in E1. injection E1 as <- <-. unfold VerifyProof. destruct Hr as [[-> ->]|(tr & Hok & Hh & ->)].
  - destruct fuel as [|fuel]; [lia|]. cbn [verify]. destruct (proofDb (HashBytes emptyRoot)) as [e|] eqn:Eg.
    + destruct (Hp _ _ Eg) as [HE Ek]. destruct (He e HE). rewrite <-Ek. vm_compute. reflexivity.
    + eexists _, (Some (ProofMissing 0 (HashBytes emptyRoot))). split; [done|]. right. eauto.
  - rewrite HashBytes_thash, <-(holds_get tr m) by done.
    destruct (verify_ok E proofDb Hd Hp fuel 0 tr (keybytesToHex key)) as (n & err & Ev & Hres);
      [done|by eapply holds_fits|by apply Hin|apply keybytesToHex_hex_key|done|].
    exists n, err. split; [done|]. destruct Hres as [?|(hash & ? & ? & _)]; [by left|right; by exists hash].
Qed.

(** C8: A proof that is made verifies: for every trie that is not empty and every
    key, in it or not, [Prove] adds nodes to a proof, and from them and the root
    hash alone [VerifyProof] reads the value of the key, or that there is none.
    The proof starts at the root ([fromLevel] 0), and no two different nodes
    that occur have the same hash ([no_clash]). *)
Theorem Prove_VerifyProof `{!Crypto} `{!MapOrder} E f t m h t' key proofDb fuel :
  no_clash E → nodes_in E m → fits_map m → represents f t m → m ≠ ∅ → Trie_Hash t = Some (h, t') →
  proof_set E (mem_Get proofDb) → (length (keybytesToHex key) < fuel)%nat →
  ∃ proofDb' n, Prove f t key 0 proofDb = Some (inl proofDb') ∧
    proof_set E (mem_Get proofDb') ∧
    VerifyProof fuel h key (mem_Get proofDb') () = Done (m !! key, n, None) ().
Proof.
  intros [Hd He] Hin Hf Ht Hm Eh Hp Hfuel. destruct (Trie_Hash_ok f t m Ht Hf) as (h1 & t1 & E1 & _ & Hroot).
  rewrite Eh in E1. injection E1 as <- <-. destruct Ht as [[_ ?]|(tr & Hr & Hok & Hh)]; [done|].
  destruct Hroot as [[? _]|(tr' & Hok' & Hh' & ->)]; [done|]. rewrite (holds_unique tr' tr m) by done. clear tr' Hok' Hh' Eh.
  pose proof (holds_fits tr m Hh Hf) as Hft. pose proof (Hin tr Hok Hh) as Henc. set (k := keybytesToHex key).
  assert (hex_key k) as Hk by apply keybytesToHex_hex_key.
  destruct (paths_any f tr (cachegen t) (key_fuel k) true (root t) k) as (ns & Ens & Hns);
    [by apply path_ok|done|done|apply key_fuel_enough|].
  assert (Hparts : ∀ s, s ∈ trail tr k → part tr s ∧ ¬ is_val s) by apply trail_part.
  destruct (put_ok f E Hd ns (trail tr k) 0 proofDb Hns Hp) as (p' & Ep & Hp' & _ & Hall).
  { intros j s Hj Hb. destruct (trail_head tr k (ok_not_val tr Hok)) as [l El].
    destruct (Hparts s (list_elem_of_lookup_2 _ _ _ Hj)). apply Henc; [done..|].
    destruct Hb as [Hj0|?]; [|by right]. left. split; [done|]. assert (j = 0%nat) as -> by lia.
    rewrite El in Hj. by injection Hj as ->. }
  destruct (verify_ok E (mem_Get p') Hd Hp' fuel 0 tr k Hok Hft Henc Hk Hfuel) as (n & err & Ev & Hres).
  exists p', n. split_and!; [unfold Prove; fold k; rewrite Ens; tr_step; by rewrite Ep|done|].
  unfold VerifyProof. rewrite HashBytes_thash, <-(holds_get tr m) by done.
  destruct Hres as [-> |(hash & _ & _ & s & Hs & Hb & Hnone)]; [done|].
  apply list_elem_of_lookup in Hs as [j Hj]. destruct (trail_head tr k (ok_not_val tr Hok)) as [l El].
  assert (mem_Get p' (thash s) = Some (tenc s)) as Hsome; [|by rewrite Hnone in Hsome].
  destruct Hb as [->|Hb]; [apply (Hall 0%nat); [by rewrite El|by left]|apply (Hall j); [done|by right]].
Qed.

(** A node with an empty key is well formed, and decoding it panics. *)
Lemma decodeNode_panics h gen : decodeNode h (Rlp.enc (Rlp.Lst [Rlp.Str []; Rlp.Str []])) gen = None.
Proof. reflexivity. Qed.

(** ** Concrete proofs *)

#[local] Existing Instance sample_crypto.
#[local] Existing Instance sample_order.

Lemma leaf_hash : ∃ h t', Trie_Hash (leaf_trie 0) = Some (h, t').
Proof. destruct (Trie_Hash_ok (λ _ _, None) (leaf_trie 0) leaf_map (leaf_represents _ 0) leaf_fits) as (h & t' & ? & _). by exists h, t'. Qed.

Lemma empty_proof_set E : proof_set E (mem_Get {| entries := ∅ |}).
Proof. intros k e Hk. unfold mem_Get in Hk. cbn [entries] in Hk. by rewrite lookup_empty in Hk. Qed.

Lemma VerifyProof_sound_witness :
  ∃ h t', Trie_Hash (leaf_trie 0) = Some (h, t') ∧
  ∃ n (err : option proof_error),
    VerifyProof 6 h [Byte.x01] (mem_Get {| entries := ∅ |}) () = Done (if err then None else leaf_map !! [Byte.x01], n, err) () ∧
    (err = None ∨ ∃ hash, err = Some (ProofMissing n hash) ∧ mem_Get {| entries := ∅ |} hash = None).
Proof.
  destruct leaf_hash as (h & t' & E). exists h, t'. split; [done|].
  refine (VerifyProof_sound leaf_encs (λ _ _, None) (leaf_trie 0) leaf_map h t' [Byte.x01] (mem_Get {| entries := ∅ |}) 6
    leaf_no_clash leaf_nodes_in leaf_fits (leaf_represents _ 0) E (empty_proof_set _) _).
  vm_compute. lia.
Defined.

Lemma Prove_VerifyProof_witness :
  ∃ h t', Trie_Hash (leaf_trie 0) = Some (h, t') ∧
  ∃ proofDb' n, Prove (λ _ _, None) (leaf_trie 0) [Byte.x01] 0 {| entries := ∅ |} = Some (inl proofDb') ∧
    proof_set leaf_encs (mem_Get proofDb') ∧
    VerifyProof 6 h [Byte.x01] (mem_Get proofDb') () = Done (Some [Byte.x02], n, None) ().
Proof.
  destruct leaf_hash as (h & t' & E). exists h, t'. split; [done|].
  refine (Prove_VerifyProof leaf_encs (λ _ _, None) (leaf_trie 0) leaf_map h t' [Byte.x01] {| entries := ∅ |} 6
    leaf_no_clash leaf_nodes_in leaf_fits (leaf_represents _ 0) _ E (empty_proof_set _) _).
  - intros Hm. by apply (f_equal (λ m, m !! [Byte.x01])) in Hm.
  - vm_compute. lia.
Defined.
