(* ===== verification/TrieStore.v ===== *)
(** * Writing the node database to disk

    [Commit] writes a trie to disk and drops it from memory, [Cap] does so with
    the nodes that have been in memory the longest.  Neither changes what can be
    loaded, and a trie that has been committed survives a restart. *)
From S2P Require Import Prelude BigMath Rlp VmTypes VmSample TrieEncoding TrieNode Trie TrieTree TrieRep TrieOps TrieDb TrieHash TrieCodec TrieFlush TrieDbOk TrieHashOk TrieTheorems.

#[local] Arguments HashBytes : simpl never.
#[local] Arguments BytesToHash : simpl never.
#[local] Arguments mem_Get : simpl never.
#[local] Arguments mem_Put : simpl never.

(** ** The disk with a batch written to it *)

Definition virt (b : memBatch) (db : Database) : MemDatabase := batch_Write b (diskdb db).

Lemma virt_put k v b db : virt (batch_Put k v b) db = mem_Put k v (virt b db).
Proof. unfold virt, batch_Write, batch_Put, mem_Put. cbn. by rewrite foldl_app. Qed.

Lemma virt_new db : virt NewBatch db = diskdb db.
Proof. unfold virt, batch_Write, NewBatch. cbn. by destruct (diskdb db). Qed.

Lemma with_disk_same db : with_disk (diskdb db) db = db.
Proof. by destruct db. Qed.

(** Writing the batch early makes no difference. *)
Lemma wp_write_if F full b Q db :
  (∀ b' d, virt b' (with_disk d db) = virt b db → Q b' (with_disk d db)) → wp F (write_if full b) Q db.
Proof.
  intros HQ. unfold write_if. destruct full.
  - apply wp_bind, wp_modify, wp_ret. apply HQ. by rewrite virt_new.
  - apply wp_ret. rewrite <-(with_disk_same db). apply HQ. by rewrite with_disk_same.
Qed.

Section Store.
Context `{!Crypto} `{!MapOrder}.
Variable E : list byte → Prop.
Variable rank : Hash → nat.
Hypothesis Hd : distinct E.
Hypothesis Hrank : acyclic E rank.

Notation keccak_hash e := (BytesToHash (Keccak256 e)).

Definition disk_ok (d : MemDatabase) : Prop := ∀ h e,
  0 <= h < 2 ^ 256 → mem_Get d (HashBytes h) = Some e → E e ∧ h = keccak_hash e.

Definition on_disk (d : MemDatabase) (h : Hash) : Prop := is_Some (mem_Get d (HashBytes h)).

(** Nothing that is addressed by a hash is lost. *)
Definition keeps (d d' : MemDatabase) : Prop := ∀ h e, mem_Get d (HashBytes h) = Some e → mem_Get d' (HashBytes h) = Some e.

#[local] Instance keeps_preorder : PreOrder keeps.
Proof. split; [by intros d h e|]. intros d1 d2 d3 H12 H23 h e He. auto. Qed.

Lemma keeps_has d d' h : keeps d d' → on_disk d h → on_disk d' h.
Proof. intros Hk [e He]. exists e. by apply Hk. Qed.

Lemma put_node d e :
  disk_ok d → E e →
  disk_ok (mem_Put (HashBytes (keccak_hash e)) e d) ∧ keeps d (mem_Put (HashBytes (keccak_hash e)) e d) ∧
  on_disk (mem_Put (HashBytes (keccak_hash e)) e d) (keccak_hash e) ∧
  ∀ h, 0 <= h < 2 ^ 256 → on_disk (mem_Put (HashBytes (keccak_hash e)) e d) h → on_disk d h ∨ h = keccak_hash e.
Proof.
  intros Hok He. pose proof (BytesToHash_range (Keccak256 e)) as Hr.
  assert (Hinj : ∀ h, 0 <= h < 2 ^ 256 → HashBytes (keccak_hash e) = HashBytes h → h = keccak_hash e).
  { intros h Hh Eh. rewrite <-(BytesToHash_HashBytes h), <-Eh by done. by rewrite BytesToHash_HashBytes. }
  unfold disk_ok, keeps, on_disk, mem_Put, mem_Get in *. cbn [entries]. split_and!.
  - intros h e' Hh [[Eh <-]|[_ Hm]]%lookup_insert_Some; [|by apply Hok]. split; [done|]. by apply Hinj.
  - intros h e' Hm. destruct (decide (HashBytes (keccak_hash e) = HashBytes h)) as [Eh|Hne].
    + rewrite Eh, lookup_insert_eq. rewrite <-Eh in Hm. destruct (Hok _ _ Hr Hm) as [He' Hh].
      f_equal. symmetry. by apply (distinct_hash E).
    + by rewrite lookup_insert_ne.
  - rewrite lookup_insert_eq. eauto.
  - intros h Hh [e' [[Eh _]|[_ Hm]]%lookup_insert_Some]; [right; by apply Hinj|left; eauto].
Qed.

Lemma get_secure d h p h' : mem_Get (mem_Put (secureKey (HashBytes h)) p d) (HashBytes h') = mem_Get d (HashBytes h').
Proof.
  unfold mem_Get, mem_Put. cbn [entries]. rewrite lookup_insert_ne; [done|]. intros Eh.
  apply (f_equal length) in Eh. unfold secureKey in Eh. rewrite length_app, !length_HashBytes in Eh.
  change (length secureKeyPrefix) with 11%nat in Eh. lia.
Qed.

(** The preimages do not touch what is addressed by a hash. *)
Definition same_hashes (d d' : MemDatabase) : Prop := ∀ h, mem_Get d' (HashBytes h) = mem_Get d (HashBytes h).

Lemma put_preimages_ok F ps : ∀ b db,
  wp F (put_preimages ps b) (λ b' db', ∃ d, db' = with_disk d db ∧ same_hashes (virt b db) (virt b' db')) db.
Proof.
  induction ps as [|[h p] ps IH]; intros b db; cbn [put_preimages].
  - apply wp_ret. exists (diskdb db). by rewrite with_disk_same.
  - apply wp_bind, wp_write_if. intros b1 d1 Hv. eapply wp_mono; [apply IH|].
    intros b2 db2 (d2 & -> & Hs). exists d2. split; [done|]. intros h'. rewrite Hs, Hv, virt_put. apply get_secure.
Qed.

Lemma same_hashes_ok d d' : same_hashes d d' → disk_ok d → disk_ok d' ∧ keeps d d' ∧ ∀ h, on_disk d' h → on_disk d h.
Proof.
  intros Hs Hok. unfold disk_ok, keeps, on_disk. split_and!.
  - intros h e. rewrite Hs. apply Hok.
  - intros h e He. by rewrite Hs.
  - intros h. by rewrite Hs.
Qed.

(** ** Nodes in memory *)

(** What a walk over the nodes relies on. *)
Record cached_inv (ns : gmap Hash cachedNode) : Prop := {
  ci_ok h c : ns !! h = Some c → h ≠ 0 → cached_ok E h c;
  ci_rank h c x : ns !! h = Some c → h ≠ 0 → is_Some (children c !! x) → x ≠ 0 ∧ (rank x < rank h)%nat;
  ci_refs e x : is_Some (ns !! keccak_hash e) → E e → x ∈ enc_refs e → x ≠ 0
}.

Lemma filed_nonzero db x : db_inv E rank db → filed db x → x ≠ 0.
Proof.
  intros Hinv [e He] ->. destruct (di_disk _ _ _ Hinv 0 e) as [HE Hh]; [done|done|]. by apply (d_zero E Hd e).
Qed.

Lemma inv_cached db : db_inv E rank db → cached_inv (nodes db).
Proof.
  intros Hinv. split; [apply (di_nodes _ _ _ Hinv)|apply (di_rank _ _ _ Hinv)|].
  intros e x Hs He Hx. destruct (di_list _ _ _ Hinv) as [l Hl].
  destruct (li_all _ _ _ Hl _ Hs) as [Hz|Hin]; [by destruct (d_zero E Hd e)|].
  apply list_elem_of_lookup in Hin as [i Hi]. destruct (li_order _ _ _ Hl i e x Hi He Hx) as [Hf|(j & _ & Hj)].
  - by apply (filed_nonzero db).
  - intros ->. apply (listed_zero _ _ _ Hl). by eapply list_elem_of_lookup_2.
Qed.

(** The children of a node that is in memory. *)
Lemma childs_ok ns h c :
  cached_inv ns → ns !! h = Some c → h ≠ 0 →
  ∃ e cs, E e ∧ h = keccak_hash e ∧ cached_rlp c = Some e ∧ childs c = Some cs ∧
    (∀ x, x ∈ cs → x ≠ 0 ∧ (rank x < rank h)%nat) ∧ ∀ x, x ∈ enc_refs e → x ∈ cs.
Proof.
  intros Hci Hc Hh. destruct (ci_ok _ Hci h c Hc Hh) as (e & He & Eh & Hr & Ho & _).
  exists e, (map fst (range (children c)) ++ enc_refs e). split_and!; [done..|by apply childs_own| |].
  - intros x [Hx|Hx]%elem_of_app.
    + apply (ci_rank _ Hci h c); [done..|]. apply list_elem_of_fmap in Hx as ([k v] & -> & Hx). cbn.
      rewrite range_perm in Hx. apply elem_of_map_to_list in Hx. eauto.
    + split; [apply (ci_refs _ Hci e); [by rewrite <-Eh, Hc|done..]|]. rewrite Eh. by apply Hrank.
  - intros x Hx. apply elem_of_app. by right.
Qed.

(** What is reached from a node without leaving the memory. *)
Inductive reach (ns : gmap Hash cachedNode) : Hash → Hash → Prop :=
  | reach_here h : is_Some (ns !! h) → reach ns h h
  | reach_child h c cs x y : ns !! h = Some c → childs c = Some cs → x ∈ cs → reach ns x y → reach ns h y.

Lemma reach_ok ns h y : cached_inv ns → h ≠ 0 → reach ns h y → y ≠ 0 ∧ is_Some (ns !! y) ∧ (y = h ∨ (rank y < rank h)%nat).
Proof.
  intros Hci Hh. induction 1 as [h Hs|h c cs x y Hc Hcs Hx Hr IH]; [auto|].
  destruct (childs_ok ns h c Hci Hc Hh) as (e & cs' & _ & _ & _ & Hcs' & Hlt & _). rewrite Hcs in Hcs'. injection Hcs' as <-.
  destruct (Hlt x Hx) as [Hx0 Hxr]. destruct (IH Hx0) as (? & ? & Hy). split_and!; [done..|].
  right. destruct Hy as [->|?]; lia.
Qed.

Lemma reach_trans ns x y z : reach ns x y → reach ns y z → reach ns x z.
Proof. induction 1; [done|]. eauto using reach. Qed.

(** The nodes a walk is below of: their number bounds the fuel it has used. *)
Record above (ns : gmap Hash cachedNode) (P : list Hash) (h : Hash) : Prop := {
  ab_nodup : NoDup P;
  ab_some p : p ∈ P → is_Some (ns !! p);
  ab_rank p : p ∈ P → (rank h < rank p)%nat
}.

Lemma above_length ns P h : above ns P h → (length P <= size ns)%nat.
Proof.
  intros Ha. rewrite <-size_dom, <-(size_list_to_set (C := gset Hash) P) by apply Ha.
  apply subseteq_size. intros p Hp. rewrite elem_of_list_to_set in Hp. apply elem_of_dom. by apply (ab_some _ _ _ Ha).
Qed.

Lemma above_child ns P h x :
  above ns P h → is_Some (ns !! h) → (rank x < rank h)%nat → above ns (h :: P) x.
Proof.
  intros Ha Hs Hx. split.
  - apply list.NoDup_cons. split; [|apply Ha]. intros Hin. apply (ab_rank _ _ _ Ha) in Hin. lia.
  - intros p [->|Hp]%elem_of_cons; [done|]. by apply (ab_some _ _ _ Ha).
  - intros p [->|Hp]%elem_of_cons; [done|]. apply (ab_rank _ _ _ Ha) in Hp. lia.
Qed.

(** ** [commit] *)

(** From one disk to another: the nodes of [R] are written, and nothing else. *)
Record written (R : Hash → Prop) (d d' : MemDatabase) : Prop := {
  wr_ok : disk_ok d';
  wr_keeps : keeps d d';
  wr_has y : R y → on_disk d' y;
  wr_only y : 0 <= y < 2 ^ 256 → on_disk d' y → on_disk d y ∨ R y
}.

Lemma written_trans R1 R2 (R : Hash → Prop) d1 d2 d3 :
  written R1 d1 d2 → written R2 d2 d3 → (∀ y, R y ↔ R1 y ∨ R2 y) → written R d1 d3.
Proof.
  intros W1 W2 HR. split.
  - apply W2.
  - etrans; [apply W1|apply W2].
  - intros y [Hy|Hy]%HR; [|by apply W2]. eapply keeps_has; [apply W2|]. by apply W1.
  - intros y Hy Hh. rewrite HR. destruct (wr_only _ _ _ W2 y Hy Hh) as [Hh2|?]; [|auto].
    destruct (wr_only _ _ _ W1 y Hy Hh2); auto.
Qed.

Lemma written_none d : disk_ok d → written (λ _, False) d d.
Proof. intros Hok. split; [done|done|done|auto]. Qed.

Definition commits (ns : gmap Hash cachedNode) (R : Hash → Prop) (b : memBatch) (db : Database) (b' : memBatch) (db' : Database) : Prop :=
  (∃ d, db' = with_disk d db) ∧ written R (virt b db) (virt b' db').

Lemma commit_each ns f cs :
  (∀ x b db, x ∈ cs → nodes db = ns → disk_ok (virt b db) → wp (λ _, False) (f x b) (commits ns (reach ns x) b db) db) →
  ∀ b db, nodes db = ns → disk_ok (virt b db) →
  wp (λ _, False) (for_each f cs b) (commits ns (λ y, ∃ x, x ∈ cs ∧ reach ns x y) b db) db.
Proof.
  induction cs as [|x cs IH]; intros Hf b db Hns Hok; cbn [for_each].
  - apply wp_ret. split; [exists (diskdb db); by rewrite with_disk_same|].
    destruct (written_none _ Hok) as [? ? _ Ho]. split; [done|done|by intros y (x & ?%elem_of_nil & _)|].
    intros y Hy Hh. destruct (Ho y Hy Hh); [by left|done].
  - apply wp_bind. eapply wp_mono; [apply Hf; [by left|done|done]|]. intros b1 db1 ((d1 & ->) & W1).
    eapply wp_mono; [apply IH; [|done|apply W1]|].
    { intros x' b' db' Hx'. apply Hf. by right. }
    intros b2 db2 ((d2 & ->) & W2). split; [by exists d2|]. eapply written_trans; [exact W1|exact W2|].
    intros y. split.
    + intros (x' & [->|Hx']%elem_of_cons & Hr); [by left|right; eauto].
    + intros [?|(x' & Hx' & ?)]; [exists x; split; [by left|done]|exists x'; split; [by right|done]].
Qed.

Lemma commit_ok fuel : ∀ P h b db,
  cached_inv (nodes db) → h ≠ 0 → above (nodes db) P h → (size (nodes db) < fuel + length P)%nat → disk_ok (virt b db) →
  wp (λ _, False) (commit fuel h b) (commits (nodes db) (reach (nodes db) h) b db) db.
Proof.
  induction fuel as [|fuel IH]; intros P h b db Hci Hh Ha Hfuel Hok.
  { apply above_length in Ha. lia. }
  cbn [commit]. apply wp_bind, wp_gets. set (ns := nodes db) in *. destruct (ns !! h) as [c|] eqn:Hc.
  2:{ apply wp_ret. split; [exists (diskdb db); by rewrite with_disk_same|]. destruct (written_none _ Hok) as [? ? _ Ho].
      assert (Hno : ∀ y, ¬ reach ns h y).
      { intros y Hr. inversion Hr as [? [? Hs]|]; congruence. }
      split; [done|done|by intros y ?%Hno|]. intros y Hy Hhas. destruct (Ho y Hy Hhas); [by left|done]. }
  destruct (childs_ok ns h c Hci Hc Hh) as (e & cs & He & Eh & Hr & Hcs & Hlt & _).
  apply wp_bind. eapply wp_must; [exact Hcs|]. apply wp_bind.
  eapply wp_mono; [apply (commit_each ns (commit fuel) cs); [|done|done]|].
  { intros x b' db' Hx Hns Hok'. destruct (Hlt x Hx) as [Hx0 Hxr]. rewrite <-Hns.
    apply (IH (h :: P)); rewrite ?Hns; [done|done| |cbn [length]; lia|done].
    apply above_child; [done|by rewrite Hc|done]. }
  intros b1 db1 ((d1 & ->) & W1). apply wp_bind. eapply wp_must; [exact Hr|].
  destruct (put_node (virt b1 (with_disk d1 db)) e (wr_ok _ _ _ W1) He) as (P1 & P2 & P3 & P4). rewrite <-Eh in *.
  apply wp_write_if. intros b2 d2 Hv. split; [by exists d2|]. rewrite virt_put in Hv. unfold commits.
  change (with_disk d2 (with_disk d1 db)) with (with_disk d2 db) in *. rewrite Hv.
  eapply (written_trans _ (λ y, y = h)); [exact W1|split; [exact P1|exact P2|by intros y ->|exact P4]|].
  intros y. split.
  - intros Hy. inversion Hy as [? Hs|? c' cs' x ? Hc' Hcs' Hx Hxy]; subst; [by right|left].
    rewrite Hc in Hc'. injection Hc' as <-. rewrite Hcs in Hcs'. injection Hcs' as <-. eauto.
  - intros [(x & Hx & Hxy)| ->]; [by eapply reach_child|]. apply reach_here. by rewrite Hc.
Qed.

(** ** [uncache] *)

(** Part of the nodes. *)
Definition fewer (ns' ns : gmap Hash cachedNode) : Prop := ∀ x c', ns' !! x = Some c' → ∃ c, ns !! x = Some c ∧ content c = content c'.

#[local] Instance fewer_preorder : PreOrder fewer.
Proof.
  split; [intros ns x c Hc; eauto|]. intros ns1 ns2 ns3 H12 H23 x c Hc.
  destruct (H12 x c Hc) as (c2 & Hc2 & E2). destruct (H23 x c2 Hc2) as (c3 & Hc3 & E3). exists c3. split; [done|congruence].
Qed.

Lemma alike_fewer ns ns' : alike ns' ns → fewer ns' ns.
Proof.
  intros Ha x c' Hc'. apply alike_content in Ha. destruct (same_content_some _ _ _ _ Ha Hc') as (c & Hc & Ec). eauto.
Qed.

Lemma childs_content c c' : content c = content c' → childs c = childs c'.
Proof. intros [= E1 E2]. unfold childs. by rewrite E1, E2. Qed.

Lemma reach_fewer ns' ns h y : fewer ns' ns → reach ns' h y → reach ns h y.
Proof.
  intros Hf. induction 1 as [h [c Hc]|h c cs x y Hc Hcs Hx Hr IH].
  - destruct (Hf h c Hc) as (c' & Hc' & _). apply reach_here. by rewrite Hc'.
  - destruct (Hf h c Hc) as (c' & Hc' & Ec). eapply reach_child; [exact Hc'| |exact Hx|exact IH].
    by rewrite (childs_content c' c).
Qed.

Lemma cached_inv_fewer ns' ns : fewer ns' ns → cached_inv ns → cached_inv ns'.
Proof.
  intros Hf Hci. split.
  - intros h c' (c & Hc & Ec)%Hf Hh. eapply core_ok; [|by apply (ci_ok _ Hci)]. by injection Ec.
  - intros h c' x (c & Hc & Ec)%Hf Hh Hx. injection Ec as _ Ec. rewrite <-Ec in Hx. by eapply (ci_rank _ Hci).
  - intros e x [c' (c & Hc & _)%Hf]. apply (ci_refs _ Hci). by rewrite Hc.
Qed.

Lemma fewer_size ns' ns : fewer ns' ns → (size ns' <= size ns)%nat.
Proof.
  intros Hf. rewrite <-!size_dom. apply subseteq_size. intros x [c Hc]%elem_of_dom.
  destruct (Hf x c Hc) as (c' & Hc' & _). apply elem_of_dom. eauto.
Qed.

(** The list of the nodes that are not taken out already. *)
Record in_list (db : Database) (l D : list Hash) : Prop := {
  il_chain : chain (nodes db) (oldest db) (newest db) l;
  il_all x : is_Some (nodes db !! x) → x = 0 ∨ x ∈ l ∨ x ∈ D;
  il_zero : is_Some (nodes db !! 0)
}.

Record shrunk (R : Hash → Prop) (l D : list Hash) (db db' : Database) : Prop := {
  sh_list : ∃ l', in_list db' l' D ∧ l' `sublist_of` l;
  sh_disk : diskdb db' = diskdb db;
  sh_same : fewer (nodes db') (nodes db);
  sh_gone x : is_Some (nodes db !! x) → is_Some (nodes db' !! x) ∨ R x
}.

Lemma uncache_each (f : Hash → () → M Database ()) cs D N :
  (∀ x l db, x ∈ cs → cached_inv (nodes db) → in_list db l D → Forall (λ p, is_Some (nodes db !! p)) D →
     (size (nodes db) <= N)%nat →
     wp (λ _, False) (f x ()) (λ _ db', shrunk (reach (nodes db) x) l D db db' ∧ Forall (λ p, is_Some (nodes db' !! p)) D) db) →
  ∀ l db, cached_inv (nodes db) → in_list db l D → Forall (λ p, is_Some (nodes db !! p)) D → (size (nodes db) <= N)%nat →
  wp (λ _, False) (for_each f cs ())
    (λ _ db', shrunk (λ y, ∃ x, x ∈ cs ∧ reach (nodes db) x y) l D db db' ∧ Forall (λ p, is_Some (nodes db' !! p)) D) db.
Proof.
  induction cs as [|x cs IH]; intros Hf l db Hci Hil HD HN; cbn [for_each].
  - apply wp_ret. split; [|done]. split; [by exists l|done|done|by left].
  - apply wp_bind. eapply wp_mono; [apply (Hf x l); [by left|done..]|]. intros [] db1 [S1 HD1].
    destruct (sh_list _ _ _ _ _ S1) as (l1 & Hil1 & Hsub1).
    eapply wp_mono; [apply (IH ltac:(intros; apply Hf; [by right|done..]) l1); [|done|done|]|].
    { eapply cached_inv_fewer; [apply S1|done]. }
    { pose proof (fewer_size _ _ (sh_same _ _ _ _ _ S1)). lia. }
    intros [] db2 [S2 HD2]. split; [|done]. split.
    + destruct (sh_list _ _ _ _ _ S2) as (l2 & Hil2 & Hsub2). exists l2. split; [done|by etrans].
    + rewrite (sh_disk _ _ _ _ _ S2). apply S1.
    + etrans; [apply S2|apply S1].
    + intros y Hy. destruct (sh_gone _ _ _ _ _ S1 y Hy) as [Hy1|Hr]; [|right; exists x; split; [by left|done]].
      destruct (sh_gone _ _ _ _ _ S2 y Hy1) as [?|(x' & Hx' & Hr)]; [by left|right].
      exists x'. split; [by right|]. eapply reach_fewer; [apply S1|done].
Qed.

(** A node that is taken out of the list can be removed. *)
Lemma in_list_delete db l D h :
  in_list db l (h :: D) → h ≠ 0 → h ∉ l →
  in_list (with_nodes (base.delete h (nodes db)) db) l D.
Proof.
  intros Hil Hh Hhl. split; cbn [nodes oldest newest with_nodes].
  - eapply chain_same; [apply Hil| |].
    + intros x Hx. rewrite lookup_delete_ne by (by intros <-). by apply (ch_some _ _ _ _ (il_chain _ _ _ Hil)).
    + intros x c _ [_ Hc]%lookup_delete_Some. exists c. done.
  - intros x [c [Hne Hc]%lookup_delete_Some]. destruct (il_all _ _ _ Hil x) as [?|[?|[->|?]%elem_of_cons]]; [eauto|auto|auto|done|auto].
  - rewrite lookup_delete_ne by done. apply (il_zero _ _ _ Hil).
Qed.

Lemma uncache_ok fuel : ∀ l D h db,
  cached_inv (nodes db) → h ≠ 0 → in_list db l D → above (nodes db) D h → (size (nodes db) < fuel + length D)%nat →
  wp (λ _, False) (uncache fuel h)
    (λ _ db', shrunk (reach (nodes db) h) l D db db' ∧ Forall (λ p, is_Some (nodes db' !! p)) D) db.
Proof.
  induction fuel as [|fuel IH]; intros l D h db Hci Hh Hil Ha Hfuel.
  { apply above_length in Ha. lia. }
  cbn [uncache]. apply wp_bind, wp_gets. destruct (nodes db !! h) as [c|] eqn:Hc.
  2:{ apply wp_ret. split; [|apply list.Forall_forall, (ab_some _ _ _ Ha)]. split; [by exists l|done|done|by left]. }
  destruct (childs_ok _ h c Hci Hc Hh) as (e & cs & He & Eh & Hr & Hcs & Hlt & _).
  destruct (il_all _ _ _ Hil h) as [?|[Hin|Hin]]; [eauto|done| |apply (ab_rank _ _ _ Ha) in Hin; lia].
  apply list_elem_of_lookup in Hin as [i Hi]. pose proof (il_chain _ _ _ Hil) as Hch.
  destruct (NoDup_delete l i h (ch_nodup _ _ _ _ Hch) Hi) as [_ Hmem].
  apply wp_bind. eapply wp_mono; [apply (unlink_ok _ db l i h c); [done..|apply (il_zero _ _ _ Hil)]|].
  intros [] db1 (ns1 & o1 & n1 & -> & Hal & Hch1). set (db1 := with_ends o1 n1 (with_nodes ns1 db)).
  assert (fewer (nodes db1) (nodes db)) as Hf1 by by apply alike_fewer.
  assert (Hsome1 : ∀ x, is_Some (nodes db !! x) → is_Some (nodes db1 !! x)) by (intros x; apply (alike_is_Some ns1 (nodes db) x Hal)).
  assert (in_list db1 (base.delete i l) (h :: D)) as Hil1.
  { split; [done| |apply Hsome1, (il_zero _ _ _ Hil)]. intros x Hx. apply (alike_is_Some ns1 (nodes db) x Hal) in Hx.
    destruct (il_all _ _ _ Hil x Hx) as [?|[Hxl|?]]; [by left| |right; right; by right].
    destruct (decide (x = h)) as [->|]; [right; right; by left|]. right. left. by apply Hmem. }
  apply wp_bind. eapply wp_must; [exact Hcs|]. apply wp_bind.
  eapply wp_mono; [apply (uncache_each (λ x _, uncache fuel x) cs (h :: D) (size (nodes db)) )|].
  { intros x l' db' Hx Hci' Hil' HD' HN. destruct (Hlt x Hx) as [Hx0 Hxr].
    apply IH; [done|done|done| |cbn [length]; lia]. split.
    - apply list.NoDup_cons. split; [|apply Ha]. intros Hin. apply (ab_rank _ _ _ Ha) in Hin. lia.
    - by apply list.Forall_forall.
    - intros p [->|Hp]%elem_of_cons; [done|]. apply (ab_rank _ _ _ Ha) in Hp. lia. }
  { by eapply cached_inv_fewer. }
  { exact Hil1. }
  { constructor; [apply Hsome1; eauto|]. apply list.Forall_forall. intros p Hp. by apply Hsome1, (ab_some _ _ _ Ha). }
  { by apply fewer_size. }
  intros [] db2 [S2 HD2]. apply Forall_cons_1 in HD2 as [Hh2 HD2]. destruct (sh_list _ _ _ _ _ S2) as (l2 & Hil2 & Hsub2).
  assert (h ∉ l2) as Hhl2.
  { intros Hin. pose proof (elem_of_sublist _ _ _ Hin Hsub2) as [_ ?]%Hmem. done. }
  apply wp_bind, wp_modify, wp_modify. split.
  - split; cbn [nodes diskdb with_nodes add_nodesSize].
    + exists l2. destruct (in_list_delete db2 l2 D h Hil2 Hh Hhl2) as [? ? ?]. split; [done|]. etrans; [exact Hsub2|apply sublist_delete].
    + apply (sh_disk _ _ _ _ _ S2).
    + etrans; [|exact Hf1]. etrans; [|apply S2]. intros x c' [_ Hc']%lookup_delete_Some. eauto.
    + intros x Hx. destruct (decide (h = x)) as [<-|Hne]; [right; by apply reach_here|].
      rewrite lookup_delete_ne by done. destruct (sh_gone _ _ _ _ _ S2 x (Hsome1 x Hx)) as [?|(y & Hy & Hry)]; [by left|right].
      eapply reach_child; [exact Hc|exact Hcs|exact Hy|]. by eapply reach_fewer.
  - apply list.Forall_forall. intros p Hp. cbn [nodes with_nodes add_nodesSize]. rewrite lookup_delete_ne.
    + by eapply list.Forall_forall in HD2.
    + intros <-. apply (ab_rank _ _ _ Ha) in Hp. lia.
Qed.

(** ** Nodes that move to disk *)

Lemma sublist_before (l' l : list Hash) : l' `sublist_of` l → NoDup l → ∀ i i0 j0 a x,
  l' !! i = Some a → l !! i0 = Some a → l !! j0 = Some x → (j0 < i0)%nat → x ∈ l' → ∃ j, (j < i)%nat ∧ l' !! j = Some x.
Proof.
  induction 1 as [|y l' l Hs IH|y l' l Hs IH]; intros Hnd i i0 j0 a x Hi Hi0 Hj0 Hlt Hx; [done|..];
    apply list.NoDup_cons in Hnd as [Hy Hnd].
  - destruct i0 as [|i0]; [lia|]. cbn in Hi0. destruct i as [|i].
    { cbn in Hi. injection Hi as ->. destruct Hy. by eapply list_elem_of_lookup_2. }
    cbn in Hi. destruct j0 as [|j0].
    { cbn in Hj0. exists 0%nat. split; [lia|done]. }
    cbn in Hj0. apply elem_of_cons in Hx as [->|Hx].
    { destruct Hy. by eapply list_elem_of_lookup_2. }
    destruct (IH Hnd i i0 j0 a x) as (j & ? & ?); [done..|lia|done|]. exists (S j). split; [lia|done].
  - destruct i0 as [|i0]; [lia|]. destruct j0 as [|j0].
    { cbn in Hj0. injection Hj0 as ->. destruct Hy. by eapply elem_of_sublist. }
    eapply (IH Hnd i i0 j0); [done..|lia|done].
Qed.

Lemma inv_moved (R : Hash → Prop) l l' db db' :
  db_inv E rank db → listed E db l → written R (diskdb db) (diskdb db') →
  (∀ x, R x → x ≠ 0 ∧ is_Some (nodes db !! x)) →
  (∀ e x, R (keccak_hash e) → E e → x ∈ enc_refs e → filed db x ∨ R x) →
  fewer (nodes db') (nodes db) → (∀ x, is_Some (nodes db !! x) → is_Some (nodes db' !! x) ∨ R x) →
  in_list db' l' [] → l' `sublist_of` l → db_inv E rank db' ∧ grows db db'.
Proof.
  intros Hinv Hl W HR Hrefs Hf Hgone Hil Hsub.
  assert (Hfk : ∀ x, filed db x → filed db' x) by (intros x; apply (keeps_has _ _ x (wr_keeps _ _ _ W))).
  split.
  - split.
    + intros h c' (c & Hc & Ec)%Hf Hh. eapply core_ok; [|by apply (di_nodes _ _ _ Hinv)]. by injection Ec.
    + apply (wr_ok _ _ _ W).
    + apply (il_zero _ _ _ Hil).
    + intros h c' x (c & Hc & Ec)%Hf Hh Hx. injection Ec as _ Ec. rewrite <-Ec in Hx. by eapply (di_rank _ _ _ Hinv).
    + intros e x He Hfe Hx. destruct (wr_only _ _ _ W _ (BytesToHash_range _) Hfe) as [Hold|Hnew].
      * apply Hfk. by eapply (di_closed _ _ _ Hinv).
      * destruct (Hrefs e x Hnew He Hx) as [?|?]; [by apply Hfk|by apply (wr_has _ _ _ W)].
    + exists l'. split; [apply Hil|intros h Hh; destruct (il_all _ _ _ Hil h Hh) as [?|[?|?%elem_of_nil]]; [auto..|done]|].
      intros i e x Hi He Hx. pose proof (list_elem_of_lookup_2 _ _ _ Hi) as Hin.
      pose proof (elem_of_sublist _ _ _ Hin Hsub) as [i0 Hi0]%list_elem_of_lookup.
      destruct (li_order _ _ _ Hl i0 e x Hi0 He Hx) as [?|(j0 & Hj0 & Hxl)]; [left; by apply Hfk|].
      assert (x ≠ 0) as Hx0 by (intros ->; apply (listed_zero _ _ _ Hl); by eapply list_elem_of_lookup_2).
      destruct (Hgone x) as [Hs|Hr]; [apply (ch_some _ _ _ _ (li_chain _ _ _ Hl)); by eapply list_elem_of_lookup_2| |].
      * destruct (il_all _ _ _ Hil x Hs) as [?|[Hx'|?%elem_of_nil]]; [done| |done]. right.
        eapply (sublist_before l' l); [done|apply (ch_nodup _ _ _ _ (li_chain _ _ _ Hl))|done..].
      * left. by apply (wr_has _ _ _ W).
  - intros h gen n Hn Hne. unfold db_node in *. destruct (nodes db !! h) as [c|] eqn:Hc.
    + destruct (nodes db' !! h) as [c'|] eqn:Hc'.
      { destruct (Hf h c' Hc') as (c0 & Hc0 & Ec). rewrite Hc in Hc0. injection Hc0 as <-. by rewrite (obj_content c' c). }
      destruct (Hgone h) as [Hs|Hr]; [eauto|rewrite Hc' in Hs; by destruct Hs|].
      destruct (HR h Hr) as [Hh0 _]. destruct (di_nodes _ _ _ Hinv h c Hc Hh0) as (e & He & Eh & _ & _ & Ho).
      destruct (wr_has _ _ _ W h Hr) as [e' He']. rewrite He'.
      assert (0 <= h < 2 ^ 256) as Hrange by (rewrite Eh; apply BytesToHash_range).
      destruct (wr_ok _ _ _ W h e' Hrange He') as [HE' Eh']. rewrite Eh in Eh'. apply (distinct_hash E) in Eh' as <-; [|done..].
      by rewrite <-Ho.
    + destruct (nodes db' !! h) as [c'|] eqn:Hc'; [destruct (Hf h c' Hc') as (c & ? & _); congruence|].
      destruct (mem_Get (diskdb db) (HashBytes h)) as [e|] eqn:Hm; [|by injection Hn as <-].
      by rewrite (wr_keeps _ _ _ W h e Hm).
Qed.

(** What a node in memory refers to is in memory or on disk. *)
Lemma refs_there db e x :
  db_inv E rank db → is_Some (nodes db !! keccak_hash e) → E e → x ∈ enc_refs e → filed db x ∨ is_Some (nodes db !! x).
Proof.
  intros Hinv Hs He Hx. destruct (di_list _ _ _ Hinv) as [l Hl].
  destruct (li_all _ _ _ Hl _ Hs) as [Hz|Hin]; [by destruct (d_zero E Hd e)|].
  apply list_elem_of_lookup in Hin as [i Hi]. destruct (li_order _ _ _ Hl i e x Hi He Hx) as [?|(j & _ & Hj)]; [by left|right].
  apply (ch_some _ _ _ _ (li_chain _ _ _ Hl)). by eapply list_elem_of_lookup_2.
Qed.

Lemma written_same R d d1 d2 : same_hashes d d1 → disk_ok d → written R d1 d2 → written R d d2.
Proof.
  intros Hs Hok W. destruct (same_hashes_ok d d1 Hs Hok) as (_ & Hk & Hb). split; [apply W|etrans; [exact Hk|apply W]|apply W|].
  intros y Hy Hh. destruct (wr_only _ _ _ W y Hy Hh); [left; by apply Hb|by right].
Qed.

(** ** [Commit] *)

Lemma Commit_moves root db :
  db_inv E rank db → root ≠ 0 →
  wp (λ _, False) (Commit root)
    (λ _ db', db_inv E rank db' ∧ grows db db' ∧ (is_Some (nodes db !! root) ∨ filed db root → filed db' root)) db.
Proof.
  intros Hinv Hroot. pose proof (inv_cached db Hinv) as Hci. destruct (di_list _ _ _ Hinv) as [l Hl].
  assert (disk_ok (diskdb db)) as Hok0 by exact (di_disk _ _ _ Hinv).
  unfold Commit. apply wp_bind, wp_gets, wp_bind, wp_gets, wp_bind.
  eapply wp_mono; [apply put_preimages_ok|]. intros b1 db1 (d1 & -> & Hs1). rewrite virt_new in Hs1.
  destruct (same_hashes_ok _ _ Hs1 Hok0) as (Hok1 & _). set (R := reach (nodes db) root).
  assert (Habove : above (nodes db) [] root) by (split; [constructor|by intros ? ?%elem_of_nil..]).
  apply wp_bind. eapply wp_mono; [apply (commit_ok _ []); [exact Hci|done|exact Habove|unfold walk_fuel; cbn; lia|exact Hok1]|].
  intros b2 db2 ((d2 & ->) & W). cbn [nodes with_disk] in W. fold R in W.
  apply (written_same R (diskdb db)) in W; [|done..]. apply wp_bind, wp_modify, wp_bind, wp_modify, wp_bind.
  set (db3 := with_preimages ∅ 0 (with_disk _ _)).
  assert (diskdb db3 = virt b2 (with_disk d2 (with_disk d1 db))) as Hd3 by done. rewrite <-Hd3 in W.
  assert (in_list db3 l []) as Hil3.
  { split; [apply (li_chain _ _ _ Hl)| |apply (di_meta _ _ _ Hinv)]. intros x Hx. destruct (li_all _ _ _ Hl x Hx); auto. }
  eapply wp_mono; [apply (uncache_ok _ l [] root db3); [exact Hci|done|exact Hil3|exact Habove|unfold walk_fuel; cbn; lia]|].
  intros [] db4 [S4 _]. apply wp_modify. destruct (sh_list _ _ _ _ _ S4) as (l4 & Hil4 & Hsub4).
  set (db5 := with_stats 0 0 0 0 db4). assert (diskdb db5 = diskdb db3) as Hd5 by apply (sh_disk _ _ _ _ _ S4).
  destruct (inv_moved R l l4 db db5) as [? ?]; [done|done|by rewrite Hd5| | |apply S4|apply (sh_gone _ _ _ _ _ S4)| |done|].
  - intros x Hx. destruct (reach_ok _ root x Hci Hroot Hx) as (? & ? & _). done.
  - intros e x Hre He Hx. destruct (reach_ok _ root _ Hci Hroot Hre) as (Hz & Hs & _).
    destruct (refs_there db e x Hinv Hs He Hx) as [?|Hxs]; [by left|right].
    destruct Hs as [c Hc]. destruct (childs_ok _ _ c Hci Hc Hz) as (e' & cs & He' & Eh & _ & Hcs & _ & Hin).
    apply (distinct_hash E) in Eh as <-; [|done..]. eapply reach_trans; [exact Hre|].
    eapply reach_child; [exact Hc|exact Hcs|by apply Hin|by apply reach_here].
  - destruct Hil4. by split.
  - split_and!; [done..|]. unfold filed. rewrite Hd5. intros [Hs|Hf0].
    + apply (wr_has _ _ _ W). by apply reach_here.
    + eapply keeps_has; [apply W|done].
Qed.

(** ** [Cap] *)

(** The sizes of nodes, summed. *)
Definition csizes (ns : gmap Hash cachedNode) (l : list Hash) : Z :=
  foldr (λ h a, match ns !! h with Some c => csize c + a | None => a end) 0 l.

Lemma flush_nodes_ok l fuel : ∀ i size limit b db,
  cached_inv (nodes db) → chain (nodes db) (oldest db) (newest db) l → disk_ok (virt b db) → (length l < fuel + i)%nat → (i <= length l)%nat →
  wp (λ _, False) (flush_nodes fuel size limit (default 0 (l !! i)) b)
    (λ r db', ∃ k, (i <= k <= length l)%nat ∧ r.1 = default 0 (l !! k) ∧
       commits (nodes db) (λ y, ∃ j, (i <= j < k)%nat ∧ l !! j = Some y) b db r.2 db' ∧
       (size - (96 * Z.of_nat (k - i) + csizes (nodes db) (take (k - i) (drop i l))) <= limit ∨ k = length l)) db.
Proof.
  induction fuel as [|fuel IH]; intros i sz limit b db Hci Hch Hok Hfuel Hi; [lia|]. cbn [flush_nodes].
  assert (Hstop : sz <= limit ∨ i = length l → wp (λ _, False) (mret (default 0 (l !! i), b))
    (λ r db', ∃ k, (i <= k <= length l)%nat ∧ r.1 = default 0 (l !! k) ∧
       commits (nodes db) (λ y, ∃ j, (i <= j < k)%nat ∧ l !! j = Some y) b db r.2 db' ∧
       (sz - (96 * Z.of_nat (k - i) + csizes (nodes db) (take (k - i) (drop i l))) <= limit ∨ k = length l)) db).
  { intros Hs. apply wp_ret. exists i. rewrite Nat.sub_diag, take_0. change (csizes (nodes db) []) with 0. split_and!; [lia|lia|done| |].
    - split; [exists (diskdb db); by rewrite with_disk_same|]. destruct (written_none _ Hok) as [? ? _ Ho].
      split; [done|done|intros y (j & ? & _); lia|]. intros y Hy Hh. destruct (Ho y Hy Hh); [by left|done].
    - destruct Hs; [left; lia|by right]. }
  destruct (l !! i) as [h|] eqn:Hl; cbn [default from_option id].
  2:{ cbn [Z.eqb negb]. rewrite andb_false_r. apply Hstop. right. apply lookup_ge_None in Hl. lia. }
  assert (h ≠ 0) as Hh by (intros ->; apply (ch_zero _ _ _ _ Hch); by eapply list_elem_of_lookup_2).
  rewrite (proj2 (Z.eqb_neq h 0)) by done. cbn [negb]. rewrite andb_true_r, Z.gtb_ltb.
  destruct (Z.ltb_spec limit sz) as [Hlt|Hge]; [|apply Hstop; by left]. clear Hstop.
  destruct (ch_some _ _ _ _ Hch h) as [c Hc]; [by eapply list_elem_of_lookup_2|].
  destruct (childs_ok _ h c Hci Hc Hh) as (e & _ & He & Eh & Hr & _).
  apply wp_bind, wp_gets, wp_bind. eapply wp_must; [exact Hc|]. apply wp_bind. eapply wp_must; [exact Hr|].
  destruct (put_node (virt b db) e Hok He) as (P1 & P2 & P3 & P4). rewrite <-Eh in *.
  apply wp_bind, wp_write_if. intros b1 d1 Hv. rewrite virt_put in Hv.
  rewrite (ch_next _ _ _ _ Hch i h c Hl Hc). pose proof (lookup_lt_Some _ _ _ Hl).
  eapply wp_mono; [apply (IH (S i)); [exact Hci|exact Hch|by rewrite Hv|lia|lia]|].
  intros [first b2] db2 (k & Hk & Hf & ((d2 & ->) & W) & Hsz). exists k. rewrite Hv in W. split_and!; [lia|lia|done| |].
  - split; [by exists d2|]. eapply (written_trans (λ y, y = h)); [split; [exact P1|exact P2|by intros y ->|exact P4]|exact W|].
    intros y. split.
    + intros (j & Hj & Hy). destruct (decide (j = i)) as [->|]; [left; congruence|]. right. exists j. split; [lia|done].
    + intros [-> |(j & Hj & Hy)]; [exists i; split; [lia|done]|exists j; split; [lia|done]].
  - destruct Hsz as [Hsz|?]; [left|by right]. cbn [nodes with_disk] in Hsz.
    replace (k - i)%nat with (S (k - S i)) by lia. rewrite (drop_S l h i Hl). cbn [firstn csizes foldr]. rewrite Hc.
    fold (csizes (nodes db) (take (k - S i) (drop (S i) l))). lia.
Qed.

(** The first node of the list leaves the memory. *)
Lemma chain_tail ns o n h l : chain ns o n (h :: l) → chain (base.delete h ns) (default 0 (list.head l)) n l.
Proof.
  intros Hc. pose proof (ch_nodup _ _ _ _ Hc) as [Hh Hnd]%list.NoDup_cons.
  assert (Hlook : ∀ x, x ∈ l → base.delete h ns !! x = ns !! x) by (intros x Hx; rewrite lookup_delete_ne; [done|by intros ->]).
  split.
  - done.
  - intros Hz. apply (ch_zero _ _ _ _ Hc). by right.
  - intros x Hx. rewrite Hlook by done. apply (ch_some _ _ _ _ Hc). by right.
  - done.
  - destruct (ch_last _ _ _ _ Hc) as [?|Hl]; [done|]. destruct l; [by left|right; exact Hl].
  - intros i x c Hi. rewrite Hlook by by eapply list_elem_of_lookup_2. apply (ch_next _ _ _ _ Hc (S i)). done.
  - intros i x c Hi. rewrite Hlook by by eapply list_elem_of_lookup_2. apply (ch_prev _ _ _ _ Hc (S i)). done.
Qed.

Lemma drop_until_ok F fuel : ∀ k l db,
  in_list db l [] → (k <= length l)%nat → (k < fuel)%nat →
  wp F (drop_until fuel (default 0 (l !! k)))
    (λ _ db', in_list db' (drop k l) [] ∧ diskdb db' = diskdb db ∧ fewer (nodes db') (nodes db) ∧
       (∀ x, is_Some (nodes db !! x) → is_Some (nodes db' !! x) ∨ ∃ j, (j < k)%nat ∧ l !! j = Some x) ∧
       nodesSize db' = nodesSize db - (32 * Z.of_nat k + csizes (nodes db) (take k l)) ∧
       size (nodes db) = (size (nodes db') + k)%nat) db.
Proof.
  induction fuel as [|fuel IH]; intros k l db Hil Hk Hfuel; [lia|]. cbn [drop_until]. apply wp_bind, wp_gets.
  pose proof (il_chain _ _ _ Hil) as Hch. rewrite (ch_first _ _ _ _ Hch). destruct k as [|k].
  { assert (default 0 (list.head l) = default 0 (l !! 0%nat)) as -> by by destruct l. rewrite Z.eqb_refl. apply wp_ret.
    rewrite take_0, drop_0. change (csizes (nodes db) []) with 0. split_and!; [done|done|done|by left|lia|lia]. }
  destruct l as [|h l]; [cbn in Hk; lia|]. cbn [list.head default from_option id].
  assert (h ≠ default 0 ((h :: l) !! S k)) as Hne.
  { cbn. destruct (l !! k) as [x|] eqn:Hx; cbn.
    - intros ->. apply (ch_nodup _ _ _ _), list.NoDup_cons in Hch as [Hx' _]. apply Hx'. by eapply list_elem_of_lookup_2.
    - intros ->. apply (ch_zero _ _ _ _ Hch). by left. }
  rewrite (proj2 (Z.eqb_neq h _)) by done. destruct (ch_some _ _ _ _ Hch h ltac:(by left)) as [c Hc].
  apply wp_bind, wp_gets, wp_bind. eapply wp_must; [exact Hc|]. apply wp_bind, wp_modify, wp_bind, wp_modify, wp_bind, wp_modify.
  cbn [with_nodes with_ends add_nodesSize newest nodes].
  rewrite (ch_next _ _ _ _ Hch 0 h c eq_refl Hc). change ((h :: l) !! 1%nat) with (l !! 0%nat). change ((h :: l) !! S k) with (l !! k).
  set (db1 := add_nodesSize _ _).
  assert (0 ≠ h) as Hh0 by (intros <-; apply (ch_zero _ _ _ _ Hch); by left).
  assert (in_list db1 l []) as Hil1.
  { split; cbn.
    - assert (default 0 (l !! 0%nat) = default 0 (list.head l)) as -> by by destruct l. by apply (chain_tail _ (oldest db)).
    - intros x [cx [Hnx Hx]%lookup_delete_Some]. destruct (il_all _ _ _ Hil x) as [?|[[->|?]%elem_of_cons|?%elem_of_nil]]; [eauto|auto|done|auto|done].
    - rewrite lookup_delete_ne by done. apply (il_zero _ _ _ Hil). }
  eapply wp_mono; [apply (IH k l db1 Hil1); [cbn in Hk; lia|lia]|].
  intros [] db2 (Hil2 & Hd2 & Hf2 & Hg2 & Hs2 & Hz2). cbn [nodes diskdb nodesSize db1 add_nodesSize with_ends with_nodes] in *.
  split_and!; [done|done| | | |].
  - etrans; [exact Hf2|]. intros x cx [_ Hx]%lookup_delete_Some. eauto.
  - intros x Hx. destruct (decide (h = x)) as [<-|Hnx]; [right; exists 0%nat; split; [lia|done]|].
    destruct (Hg2 x) as [?|(j & Hj & Hx')]; [by rewrite lookup_delete_ne|by left|right; exists (S j); split; [lia|done]].
  - rewrite Hs2. cbn [firstn csizes foldr]. rewrite Hc. fold (csizes (nodes db) (take k l)).
    assert (csizes (base.delete h (nodes db)) (take k l) = csizes (nodes db) (take k l)) as ->; [|lia].
    pose proof (ch_nodup _ _ _ _ Hch) as [Hh _]%list.NoDup_cons. clear -Hh.
    assert (∀ l', (∀ x, x ∈ l' → x ≠ h) → csizes (base.delete h (nodes db)) l' = csizes (nodes db) l') as Hcs.
    { induction l' as [|y l' IH]; intros Hl'; [done|]. cbn. rewrite lookup_delete_ne by (apply not_eq_sym, Hl'; by left).
      unfold csizes in IH. rewrite IH by (intros x Hx; apply Hl'; by right). done. }
    apply Hcs. intros x Hx ->. apply Hh. apply elem_of_take in Hx as (j & Hj & _). by eapply list_elem_of_lookup_2.
  - rewrite map_size_delete_Some in Hz2 by eauto.
    assert (0 < size (nodes db))%nat; [|lia]. destruct (size (nodes db)) eqn:Es; [|lia].
    apply map_size_empty_inv in Es. rewrite Es, lookup_empty in Hc. done.
Qed.

Lemma chain_length ns o n l : chain ns o n l → is_Some (ns !! 0) → (length l < size ns)%nat.
Proof.
  intros Hc Hz. rewrite <-size_dom. apply Nat.lt_le_trans with (size (list_to_set (0 :: l) : gset Hash)).
  - rewrite size_list_to_set; [cbn; lia|]. apply list.NoDup_cons. split; apply Hc.
  - apply subseteq_size. intros x Hx. rewrite elem_of_list_to_set in Hx. apply elem_of_dom.
    apply elem_of_cons in Hx as [->|Hx]; [done|]. by apply (ch_some _ _ _ _ Hc).
Qed.

(** The first node of the list has nothing before it. *)
Lemma chain_front ns o n l c : chain ns o n l → ns !! o = Some c → chain (<[o := with_flushPrev 0 c]> ns) o n l.
Proof.
  intros Hc Ho. destruct l as [|h l]; [pose proof (ch_first _ _ _ _ Hc); subst; apply chain_nil|].
  assert (o = h) as -> by apply (ch_first _ _ _ _ Hc).
  assert (Hlook : ∀ x c', <[h := with_flushPrev 0 c]> ns !! x = Some c' → ∃ c0, ns !! x = Some c0 ∧
    flushNext c' = flushNext c0 ∧ (x ≠ h → flushPrev c' = flushPrev c0)).
  { intros x c'. destruct (decide (h = x)) as [<-|]; [rewrite lookup_insert_eq; intros [= <-]; by exists c|].
    rewrite lookup_insert_ne by done. eauto. }
  split; try apply Hc.
  - intros x Hx. destruct (decide (h = x)) as [<-|]; [rewrite lookup_insert_eq; eauto|].
    rewrite lookup_insert_ne by done. by apply (ch_some _ _ _ _ Hc).
  - intros i x c' Hi (c0 & Hc0 & -> & _)%Hlook. by eapply (ch_next _ _ _ _ Hc).
  - intros i x c' Hi (c0 & Hc0 & _ & Hp)%Hlook. rewrite Hp; [by eapply (ch_prev _ _ _ _ Hc)|].
    intros ->. pose proof (NoDup_lookup _ _ _ _ (ch_nodup _ _ _ _ Hc) Hi (eq_refl : (h :: l) !! 0%nat = Some h)). done.
Qed.

Lemma front_ok F db l :
  in_list db l [] →
  wp F (if negb (oldest db =? 0) then write_node (oldest db) (with_flushPrev 0) else mret ())
    (λ _ db', in_list db' l [] ∧ diskdb db' = diskdb db ∧ alike (nodes db') (nodes db) ∧ nodesSize db' = nodesSize db) db.
Proof.
  intros Hil. pose proof (il_chain _ _ _ Hil) as Hch. destruct (Z.eqb_spec (oldest db) 0) as [Ho|Ho]; cbn [negb].
  { by apply wp_ret. }
  assert (is_Some (nodes db !! oldest db)) as [c Hc].
  { apply (ch_some _ _ _ _ Hch). rewrite (ch_first _ _ _ _ Hch) in *. destruct l; [done|by left]. }
  apply wp_write_node; [|eauto]. intros c' Hc'. rewrite Hc in Hc'. injection Hc' as <-.
  assert (alike (<[oldest db := with_flushPrev 0 c]> (nodes db)) (nodes db)) as Hal by by eapply alike_insert.
  split_and!; [|done..]. split; cbn [nodes oldest newest with_nodes].
  - by apply chain_front.
  - intros x Hx. apply (il_all _ _ _ Hil). by apply (alike_is_Some _ _ x Hal).
  - apply (alike_is_Some _ _ 0 Hal), (il_zero _ _ _ Hil).
Qed.

Lemma alike_size ns ns' : alike ns ns' → size ns = size ns'.
Proof.
  intros Ha. rewrite <-!size_dom. f_equal. apply set_eq. intros x. rewrite !elem_of_dom. by apply alike_is_Some.
Qed.

Lemma Cap_moves limit db :
  db_inv E rank db →
  wp (λ _, False) (Cap limit)
    (λ _ db', db_inv E rank db' ∧ grows db db' ∧ ((Size db').1 <= limit ∨ ∀ h, is_Some (nodes db' !! h) → h = 0)) db.
Proof.
  intros Hinv. pose proof (inv_cached db Hinv) as Hci. destruct (di_list _ _ _ Hinv) as [l Hl].
  pose proof (li_chain _ _ _ Hl) as Hch. pose proof (chain_length _ _ _ _ Hch (di_meta _ _ _ Hinv)) as Hlen.
  assert (disk_ok (diskdb db)) as Hok0 by exact (di_disk _ _ _ Hinv).
  unfold Cap. apply wp_bind, wp_gets, wp_bind, wp_gets, wp_bind, wp_gets. cbv zeta. apply wp_bind, wp_gets, wp_bind, wp_gets, wp_bind.
  set (flush := _ >? _). eapply (wp_mono _ _ (λ b1 db1, ∃ d, db1 = with_disk d db ∧ same_hashes (diskdb db) (virt b1 db1))).
  { destruct flush; [eapply wp_mono; [apply put_preimages_ok|]; intros b' db' (d & -> & Hs); rewrite virt_new in Hs; eauto|]. apply wp_ret. exists (diskdb db).
    rewrite with_disk_same, virt_new. done. }
  intros b1 db1 (d1 & -> & Hs1). destruct (same_hashes_ok _ _ Hs1 Hok0) as (Hok1 & _). apply wp_bind, wp_gets, wp_bind.
  cbn [oldest with_disk]. assert (oldest db = default 0 (l !! 0%nat)) as -> by (rewrite (ch_first _ _ _ _ Hch); by destruct l).
  eapply wp_mono; [apply (flush_nodes_ok l _ 0); [exact Hci|exact Hch|exact Hok1|unfold walk_fuel; lia|lia]|].
  intros [first b2] db2 (k & Hk & Hfirst & ((d2 & ->) & W) & Hsz). cbn [fst snd nodes with_disk] in *.
  rewrite Nat.sub_0_r, drop_0 in Hsz. set (R := λ y : Hash, ∃ j : nat, (0 <= j < k)%nat ∧ l !! j = Some y) in W.
  apply (written_same R (diskdb db)) in W; [|done..]. apply wp_bind, wp_modify, wp_bind.
  set (db3 := with_disk _ _). eapply (wp_mono _ _ (λ _ db4, nodes db4 = nodes db ∧ oldest db4 = oldest db ∧ newest db4 = newest db ∧
    diskdb db4 = diskdb db3 ∧ nodesSize db4 = nodesSize db)).
  { destruct flush; [by apply wp_modify|by apply wp_ret]. }
  intros [] db4 (Hn4 & Ho4 & Hw4 & Hd4 & Hs4).
  assert (in_list db4 l []) as Hil4.
  { split; rewrite ?Hn4, ?Ho4, ?Hw4; [done| |apply (di_meta _ _ _ Hinv)]. intros x Hx. destruct (li_all _ _ _ Hl x Hx); auto. }
  apply wp_bind. subst first. eapply wp_mono; [apply (drop_until_ok _ _ k l db4 Hil4); [lia|unfold walk_fuel; lia]|].
  intros [] db5 (Hil5 & Hd5 & Hf5 & Hg5 & Hs5 & Hz5). rewrite Hn4 in *.
  apply wp_bind, wp_gets, wp_bind. eapply wp_mono; [by apply (front_ok _ db5 (drop k l))|].
  intros [] db6 (Hil6 & Hd6 & Hal6 & Hs6). apply wp_modify.
  set (db7 := with_stats _ _ _ _ db6). assert (diskdb db7 = diskdb db3) as Hd7 by (transitivity (diskdb db6); [done|]; by rewrite Hd6, Hd5).
  destruct (inv_moved R l (drop k l) db db7) as [? ?]; [done|done| | | | | |by destruct Hil6; split|apply sublist_drop|].
  - rewrite Hd7. exact W.
  - intros x (j & Hj & Hx). split; [intros ->; apply (listed_zero _ _ _ Hl)|apply (ch_some _ _ _ _ Hch)]; by eapply list_elem_of_lookup_2.
  - intros e x (i & Hi & He') He Hx. destruct (li_order _ _ _ Hl i e x He' He Hx) as [?|(j & Hj & Hjx)]; [by left|right].
    exists j. split; [lia|done].
  - etrans; [by apply alike_fewer|done].
  - intros x Hx. destruct (Hg5 x Hx) as [?|(j & Hj & Hjx)]; [left; by apply (alike_is_Some _ _ x Hal6)|right].
    exists j. split; [lia|done].
  - split_and!; [done..|]. destruct Hsz as [Hsz| ->].
    + left. unfold Size. cbn [fst nodesSize nodes db7 with_stats]. rewrite (alike_size _ _ Hal6), Hs6, Hs5, Hs4.
      rewrite Hz5 in Hsz. lia.
    + right. intros h Hh. destruct (il_all _ _ _ Hil6 h Hh) as [?|[Hin|?%elem_of_nil]]; [done| |done].
      rewrite drop_all in Hin. by apply elem_of_nil in Hin.
Qed.

(** ** After a restart *)

Lemma filed_parts db t : ∀ n, (rank (tkey t) < n)%nat →
  db_inv E rank db → ok t → fits t → encs E true t → filed db (tkey t) →
  ∀ s, part t s → ¬ is_val s → big s → ok s ∧ fits s ∧ E (tenc s) ∧ filed db (tkey s).
Proof.
  intros n. revert t. induction n as [|n IH]; intros t Hn Hinv Hok Hf He Hfiled s Hp Hv Hb; [lia|].
  assert (E (tenc t)) as Het by (apply He; [apply part_refl|by apply ok_not_val|by left]).
  destruct (part_refs t Hok s Hp Hv Hb) as [->|(r & Hr & Hpr)]; [done|].
  destruct (refs_part t r Hr) as (Hpt & Hbr & Hvr). destruct (refs_ok t Hok Hf r Hr) as [Hokr Hfr].
  assert (tkey r ∈ enc_refs (tenc t)) as Hx by (rewrite enc_refs_tenc by done; apply list_elem_of_fmap; eauto).
  apply (IH r); [|done|done|done|by eapply encs_sub|by eapply (di_closed _ _ _ Hinv)|done|done|done].
  pose proof (Hrank (tenc t) (tkey r) Het Hx) as Hlt. fold (thash t) in Hlt. fold (tkey t) in Hlt. lia.
Qed.

Lemma restart_entry db t :
  db_inv E rank db → ok t → fits t → E (tenc t) → filed db (tkey t) → entry (db_node (NewDatabase (diskdb db))) t.
Proof.
  intros Hinv Hok Hf He [e Hm] gen. fold (tkey t). unfold db_node, NewDatabase. cbn [nodes diskdb].
  rewrite lookup_singleton_ne by (intros Hz; by apply (d_zero E Hd (tenc t))). rewrite Hm.
  destruct (di_disk _ _ _ Hinv (tkey t) e (BytesToHash_range _) Hm) as [He' Hh].
  apply (distinct_hash E) in Hh as <-; [|done..]. unfold tkey. rewrite HashBytes_BytesToHash by apply length_Keccak256.
  by apply mustDecodeNode_tenc.
Qed.

(** What can be opened is there. *)
Lemma New_there db tr t m :
  E (tenc tr) → New (db_node db) (tkey tr) = Some (inl t) → represents (db_node db) t m → m ≠ ∅ →
  is_Some (nodes db !! tkey tr) ∨ filed db (tkey tr).
Proof.
  intros He En Hr Hm. unfold New in En. rewrite (proj2 (Z.eqb_neq _ 0)) in En by by apply (d_zero E Hd).
  destruct (Z.eqb_spec (tkey tr) emptyRoot) as [_|_]; cbn [negb andb] in En.
  - injection En as <-. destruct Hr as [[_ ?]|(u & Hu & _)]; [done|]. by apply Rep_not_nil in Hu.
  - unfold resolveHash in En. unfold tkey in En. rewrite HashBytes_BytesToHash in En by apply length_Keccak256.
    fold (tkey tr) in En. unfold db_node in En. unfold filed. destruct (nodes db !! tkey tr); [eauto|].
    destruct (mem_Get _ _); [eauto|done].
Qed.

(** A trie whose root is on disk can be opened from the disk alone. *)
Lemma restart_ok db m h :
  no_clash E → nodes_in E m → fits_map m → db_inv E rank db → is_root m h → (m ≠ ∅ → filed db h) →
  ∃ t, New (db_node (NewDatabase (diskdb db))) h = Some (inl t) ∧ represents (db_node (NewDatabase (diskdb db))) t m.
Proof.
  intros Hc Hin Hfit Hinv [[-> ->]|(tr & Hok & Hh & ->)] Hfiled.
  - unfold New. rewrite Z.eqb_refl, andb_false_r. eexists. split; [done|]. by left.
  - assert (filed db (tkey tr)) as Hft by by apply Hfiled, (holds_nonempty tr m).
    pose proof (holds_fits tr m Hh Hfit) as Hf. pose proof (Hin tr Hok Hh) as He.
    pose proof (nodes_in_root E tr m Hin Hok Hh) as Htr.
    eapply New_ok; [done|done|done|done|by apply restart_entry|].
    intros s Hp Hv Hb. destruct (filed_parts db tr (S (rank (tkey tr))) ltac:(lia) Hinv Hok Hf He Hft s Hp Hv Hb) as (? & ? & ? & ?).
    by apply restart_entry.
Qed.
End Store.
