(* ===== verification/TrieStoreTheorems.v ===== *)
(** * What the node database promises

    Durability of a commit, that freeing memory loses nothing, and the limits of
    the reference counts: 16 bits, and none for a node that is known as a blob. *)
From S2P Require Import Prelude BigMath Rlp VmTypes VmSample TrieEncoding TrieNode Trie TrieTree TrieRep TrieOps TrieDb TrieHash TrieCodec TrieFlush TrieDbOk TrieHashOk TrieTheorems TrieStore.

#[local] Arguments HashBytes : simpl never.
#[local] Arguments BytesToHash : simpl never.
#[local] Arguments mem_Get : simpl never.

(** ** The properties *)

(** C7: What has been committed survives a restart: after [Commit] of a trie
    and of its root in the node database, neither of which panics, a new
    database on the same disk has the whole trie, and nothing of any other trie
    is lost.  Assumed is that no two encodings that occur have the same hash, that
    none refers to itself through others, and of the callback at leaves that it
    keeps the database in order. *)
Theorem Commit_durable `{!Crypto} `{!MapOrder} E rank db t m onleaf :
  no_clash E → acyclic E rank → nodes_in E m → fits_map m → db_inv E rank db →
  (∀ f, onleaf = Some f → leaf_ok E rank f) → represents (db_node db) t m →
  ∃ h t' db1 db2, Trie_Commit t onleaf db = Done (h, t') db1 ∧ Commit h db1 = Done () db2 ∧
    db_inv E rank db2 ∧ represents (db_node db2) t' m ∧
    (∀ u m', represents (db_node db) u m' → represents (db_node db2) u m') ∧
    ∃ t2, New (db_node (NewDatabase (diskdb db2))) h = Some (inl t2) ∧
      represents (db_node (NewDatabase (diskdb db2))) t2 m.
Proof.
  intros Hc Hrank Hin Hf Hinv Hcb Ht.
  destruct (Commit_ok E rank db t m onleaf Hc Hin Hf Hinv Hcb Ht) as (h & t' & db1 & E1 & Hinv1 & Hg1 & Hroot & Ht' & (t2 & Enew & Hnew)).
  assert (Hd : distinct E) by apply Hc.
  assert (h ≠ 0 ∧ (m ≠ ∅ → is_Some (nodes db1 !! h) ∨ filed db1 h)) as [Hh0 Hthere].
  { destruct Hroot as [[-> ->]|(tr & Hok & Hh & ->)]; [by split|].
    pose proof (nodes_in_root E tr m Hin Hok Hh) as Htr. split; [by apply (d_zero E Hd (tenc tr))|]. intros _.
    apply (New_there E Hd db1 tr t2 m Htr Enew Hnew); by eapply holds_nonempty. }
  pose proof (Commit_moves E rank Hd Hrank h db1 Hinv1 Hh0) as Hw. unfold wp in Hw.
  destruct (Commit h db1) as [[] db2|] eqn:E2; [|done]. destruct Hw as (Hinv2 & Hg2 & Hfiled).
  exists h, t', db1, db2. split_and!; [done|done|done|by eapply represents_grows| |].
  - intros u m' Hu. eapply represents_grows; [|exact Hu]. by etrans.
  - apply (restart_ok E rank Hd Hrank db2 m h); [done..|]. auto.
Qed.


(** ** References are counted with 16 bits *)

Fixpoint times {St} (n : nat) (m : M St ()) : M St () :=
  match n with O => mret () | S n => _ ← times n m; m end.

(** A node and the root of all roots after [n] references between them. *)
Definition referenced (n : nat) (h : Hash) (c p : cachedNode) (ns : gmap Hash cachedNode) : gmap Hash cachedNode :=
  match n with
  | O => ns
  | _ => <[0 := with_children (<[h := uint16 (Z.of_nat n)]> (children p)) p]> (<[h := with_parents (uint16 (Z.of_nat n)) c]> ns)
  end.

Lemma uint16_succ n : uint16 (uint16 (Z.of_nat n) + 1) = uint16 (Z.of_nat (S n)).
Proof. unfold uint16. rewrite Zplus_mod_idemp_l. f_equal. lia. Qed.

Lemma references_ok n h c p db :
  nodes db !! h = Some c → h ≠ 0 → parents c = 0 → nodes db !! 0 = Some p → children p !! h = None →
  times n (reference h 0) db = Done () (with_nodes (referenced n h c p (nodes db)) db).
Proof.
  intros Hc Hh Hp0 Hp Hch. induction n as [|n IH]; [by destruct db|]. cbn [times].
  unfold mbind, M_bind at 1. rewrite IH. set (db1 := with_nodes _ db).
  assert (∃ c1 p1, nodes db1 !! h = Some c1 ∧ nodes db1 !! 0 = Some p1 ∧
    with_parents (uint16 (parents c1 + 1)) c1 = with_parents (uint16 (Z.of_nat (S n))) c ∧
    with_children (<[h := uint16 (default 0 (children p1 !! h) + 1)]> (children p1)) p1 =
      with_children (<[h := uint16 (Z.of_nat (S n))]> (children p)) p ∧
    ∀ x y, <[0 := x]> (<[h := y]> (nodes db1)) = <[0 := x]> (<[h := y]> (nodes db))) as (c1 & p1 & Hc1 & Hp1 & Ec & Ep & Hns).
  { unfold db1. cbn [nodes with_nodes]. destruct n as [|n]; cbn [referenced].
    - exists c, p. rewrite Hp0, Hch. done.
    - eexists _, _. rewrite (lookup_insert_ne _ 0 h) by done. rewrite !lookup_insert_eq. split_and!; [done|done| | |].
      + unfold with_parents at 1 2. cbn [parents cnode csize children flushPrev flushNext]. by rewrite uint16_succ.
      + cbn [children with_children]. rewrite lookup_insert_eq. cbn [default from_option id]. rewrite uint16_succ, insert_insert_eq. done.
      + intros x y. rewrite (insert_insert_ne _ h 0) by done. rewrite insert_insert_eq. by rewrite insert_insert_eq. }
  unfold reference, mbind, M_bind, gets. rewrite Hc1. unfold must at 1. rewrite Hp1. cbn [mret M_ret]. rewrite andb_false_r.
  unfold write_node, mbind, M_bind, gets, on_nodes, modify. rewrite Hc1. cbn [must mret M_ret nodes with_nodes].
  rewrite lookup_insert_ne by done. rewrite Hp1. cbn [must mret M_ret]. unfold db1 in Hns. cbn [nodes with_nodes] in Hns.
  rewrite Ec, Ep. cbn [referenced]. by rewrite <-Hns.
Qed.

Lemma referenced_same n h c p ns :
  ns !! h = Some c → h ≠ 0 → ns !! 0 = Some p → ∀ x y, referenced n h c p ns !! x = Some y →
  ∃ y0, ns !! x = Some y0 ∧ cnode y = cnode y0 ∧ flushNext y = flushNext y0 ∧ flushPrev y = flushPrev y0 ∧
    (x ≠ 0 → children y = children y0).
Proof.
  intros Hc Hh Hp x y. destruct n as [|n]; cbn [referenced]; [eauto 10|].
  destruct (decide (0 = x)) as [<-|Hx]; [rewrite lookup_insert_eq; intros [= <-]; by exists p|]. rewrite lookup_insert_ne by done.
  destruct (decide (h = x)) as [<-|Hx']; [rewrite lookup_insert_eq; intros [= <-]; by exists c|]. rewrite lookup_insert_ne by done. eauto 10.
Qed.

(** A node without references is removed. *)
Lemma Dereference_zero `{!MapOrder} db l i h c p :
  chain (nodes db) (oldest db) (newest db) l → l !! i = Some h →
  nodes db !! h = Some c → parents c = 0 → childs c = Some [] →
  nodes db !! 0 = Some p → children p !! h = Some 0 →
  wp (λ _, False) (Dereference h) (λ _ db2, nodes db2 !! h = None) db.
Proof.
  intros Hch Hi Hc Hc0 Hcs Hp Hp0. assert (Hsame : ∀ k x, nodes db !! k = Some x → with_nodes (<[k := x]> (nodes db)) db = db).
  { intros k x Hx. rewrite insert_id by done. by destruct db. }
  unfold Dereference. apply wp_bind, wp_gets, wp_bind, wp_gets, wp_bind, wp_gets, wp_bind. unfold walk_fuel. cbn [dereference].
  apply wp_bind, wp_write_node; [|eauto]. intros p' Hp'. rewrite Hp in Hp'. injection Hp' as <-.
  assert (unreference h p = p) as -> by (unfold unreference; by rewrite Hp0). rewrite Hsame by done.
  apply wp_bind, wp_gets. rewrite Hc. apply wp_bind, wp_write_node; [|eauto]. intros c' Hc'. rewrite Hc in Hc'. injection Hc' as <-.
  rewrite Hc0. cbn [Z.gtb Z.compare]. rewrite Hsame by done.
  apply wp_bind, wp_gets, wp_bind. eapply wp_must; [exact Hc|]. rewrite Hc0, Z.eqb_refl. apply wp_bind.
  eapply wp_mono; [apply (unlink_ok _ db l i h c); [done|done|done|eauto]|].
  intros [] db2 (ns2 & o2 & n2 & -> & Hal & _). apply wp_bind. eapply wp_must; [exact Hcs|]. cbn [for_each].
  apply wp_bind, wp_ret, wp_bind, wp_modify, wp_modify, wp_modify. cbn. by rewrite lookup_delete_eq.
Qed.

(** A node that is referenced 65536 times has lost count: its counter is 0
    again, and the first [Dereference] removes it from memory although 65535
    references are left. *)
Theorem parents_overflow `{!Crypto} `{!MapOrder} E rank db h c p :
  db_inv E rank db → nodes db !! h = Some c → h ≠ 0 → parents c = 0 → childs c = Some [] →
  nodes db !! 0 = Some p → children p !! h = None →
  ∃ db1 db2, times (Z.to_nat 65536) (reference h 0) db = Done () db1 ∧ Dereference h db1 = Done () db2 ∧
    is_Some (nodes db1 !! h) ∧ nodes db2 !! h = None.
Proof.
  intros Hinv Hc Hh Hp0 Hcs Hp Hch. rewrite (references_ok _ h c p db) by done. set (n := Z.to_nat 65536).
  set (ns1 := referenced n h c p (nodes db)). set (db1 := with_nodes ns1 db).
  pose proof (referenced_same n h c p (nodes db) Hc Hh Hp) as Hsame. fold ns1 in Hsame.
  assert (∃ m, n = S m) as [m Em] by (exists (pred n); unfold n; lia).
  assert (uint16 (Z.of_nat n) = 0) as Hwrap by (unfold n; rewrite Z2Nat.id by lia; reflexivity). clearbody n.
  assert (ns1 !! h = Some (with_parents 0 c)) as Hc1.
  { unfold ns1. rewrite Em. cbn [referenced]. rewrite <-Em, Hwrap. by rewrite lookup_insert_ne, lookup_insert_eq by done. }
  assert (ns1 !! 0 = Some (with_children (<[h := 0]> (children p)) p)) as Hp1.
  { unfold ns1. rewrite Em. cbn [referenced]. rewrite <-Em, Hwrap. by rewrite lookup_insert_eq. }
  destruct (di_list _ _ _ Hinv) as [l Hl]. pose proof (li_chain _ _ _ Hl) as Hchain.
  assert (chain (nodes db1) (oldest db1) (newest db1) l) as Hchain1.
  { eapply chain_same; [exact Hchain| |intros x y _ (y0 & ? & _ & ? & ? & _)%Hsame; eauto].
    intros x Hx. destruct (ch_some _ _ _ _ Hchain x Hx) as [y Hy]. unfold db1, ns1. cbn [nodes with_nodes]. rewrite Em. cbn [referenced].
    destruct (decide (0 = x)) as [<-|]; [rewrite lookup_insert_eq; eauto|]. rewrite lookup_insert_ne by done.
    destruct (decide (h = x)) as [<-|]; [rewrite lookup_insert_eq; eauto|]. rewrite lookup_insert_ne by done. eauto. }
  destruct (li_all _ _ _ Hl h) as [?|[i Hi]%list_elem_of_lookup]; [eauto|done|].
  pose proof (Dereference_zero db1 l i h _ _ Hchain1 Hi Hc1 eq_refl Hcs Hp1 ltac:(cbn; by rewrite lookup_insert_eq)) as Hw.
  unfold wp in Hw. destruct (Dereference h db1) as [[] db2|] eqn:E2; [|done]. exists db1, db2.
  split_and!; [done|done|by cbn [nodes db1 with_nodes]; rewrite Hc1|done].
Qed.

(** ** Blobs have no references *)

Lemma range_empty `{!MapOrder} {A} : range (∅ : gmap Z A) = [].
Proof. apply Permutation_nil_r. rewrite range_perm. by rewrite map_to_list_empty. Qed.

Lemma childs_blob `{!MapOrder} c blob : cnode c = rawNode blob → children c = ∅ → childs c = Some [].
Proof. intros Hc Hch. unfold childs. by rewrite Hc, Hch, range_empty. Qed.

(** A blob hides the trie node with the same encoding: once a contract code
    that is the encoding of a trie node has been stored with [InsertBlob], storing
    the trie node does nothing, whatever it refers to, and [Commit] writes the
    blob and none of the nodes it refers to. *)
Theorem blob_hides_children `{!MapOrder} db l h c blob :
  in_list db l [] → nodes db !! h = Some c → cnode c = rawNode blob → children c = ∅ → 0 < h < 2 ^ 256 →
  (∀ e n, insert h e n db = Done () db) ∧
  ∃ db', Commit h db = Done () db' ∧
    ∀ x, 0 <= x < 2 ^ 256 → x ≠ h → mem_Get (diskdb db') (HashBytes x) = mem_Get (diskdb db) (HashBytes x).
Proof.
  intros Hil Hc Hb Hch Hh. split.
  { intros e n. unfold insert, mbind, M_bind, gets. by rewrite Hc. }
  pose proof (childs_blob c blob Hb Hch) as Hcs.
  assert (Hin : ∃ i, l !! i = Some h).
  { destruct (il_all _ _ _ Hil h) as [?|[?|?%elem_of_nil]]; [eauto|lia|by apply list_elem_of_lookup|done]. }
  destruct Hin as [i Hi].
  assert (wp (λ _, False) (Commit h) (λ _ db', ∀ x, 0 <= x < 2 ^ 256 → x ≠ h →
    mem_Get (diskdb db') (HashBytes x) = mem_Get (diskdb db) (HashBytes x)) db) as Hw.
  { unfold Commit. apply wp_bind, wp_gets, wp_bind, wp_gets, wp_bind.
    eapply wp_mono; [apply put_preimages_ok|]. intros b1 db1 (d1 & -> & Hs1). rewrite virt_new in Hs1.
    unfold walk_fuel. cbn [commit]. apply wp_bind, wp_bind, wp_gets. cbn [nodes with_disk]. rewrite Hc.
    apply wp_bind. eapply wp_must; [exact Hcs|]. apply wp_bind, wp_ret, wp_bind.
    eapply wp_must; [unfold cached_rlp; by rewrite Hb|]. apply wp_write_if. intros b2 d2 Hv. rewrite virt_put in Hv.
    apply wp_bind, wp_modify, wp_bind, wp_modify, wp_bind. cbn [uncache]. apply wp_bind, wp_gets. cbn [nodes with_disk with_preimages].
    rewrite Hc. apply wp_bind. set (db3 := with_preimages _ _ _).
    eapply wp_mono; [apply (unlink_ok _ db3 l i h c (il_chain _ _ _ Hil) Hi Hc (il_zero _ _ _ Hil))|].
    intros [] db4 (ns4 & o4 & n4 & -> & _). apply wp_bind. eapply wp_must; [exact Hcs|].
    apply wp_bind, wp_ret, wp_bind, wp_modify, wp_modify, wp_modify. intros x Hx Hne.
    change (mem_Get (virt b2 (with_disk d2 (with_disk d1 db))) (HashBytes x) = mem_Get (diskdb db) (HashBytes x)).
    rewrite Hv. unfold mem_Get, mem_Put. cbn [entries]. rewrite lookup_insert_ne; [apply Hs1|].
    intros Eh. apply Hne. rewrite <-(BytesToHash_HashBytes x), <-(BytesToHash_HashBytes h), Eh by lia. done. }
  unfold wp in Hw. destruct (Commit h db) as [[] db'|]; [|done]. by exists db'.
Qed.

(** ** Concrete databases *)

#[local] Existing Instance sample_crypto.
#[local] Existing Instance sample_order.

Lemma leaf_acyclic : acyclic leaf_encs leaf_rank.
Proof.
  intros e x -> Hx. rewrite enc_refs_tenc in Hx; [by apply elem_of_nil in Hx|apply leaf_tree_ok|].
  eapply holds_fits; [apply leaf_tree_ok|apply leaf_fits].
Qed.

Lemma no_leaf E rank : ∀ f, (None : option (list byte → Hash → M Database ())) = Some f → leaf_ok E rank f.
Proof. done. Qed.

Lemma Commit_durable_witness :
  ∃ h t' db1 db2, Trie_Commit (leaf_trie 0) None empty_db = Done (h, t') db1 ∧ Commit h db1 = Done () db2 ∧
    db_inv leaf_encs leaf_rank db2 ∧ represents (db_node db2) t' leaf_map ∧
    (∀ u m', represents (db_node empty_db) u m' → represents (db_node db2) u m') ∧
    ∃ t2, New (db_node (NewDatabase (diskdb db2))) h = Some (inl t2) ∧
      represents (db_node (NewDatabase (diskdb db2))) t2 leaf_map.
Proof.
  exact (Commit_durable leaf_encs leaf_rank empty_db (leaf_trie 0) leaf_map None
    leaf_no_clash leaf_acyclic leaf_nodes_in leaf_fits (empty_db_inv _ _) (no_leaf _ _) (leaf_represents _ 0)).
Defined.



Definition leaf_node : node := shortNode (compact (keybytesToHex [Byte.x01])) (valueNode [Byte.x02]) (newFlag 0).

(** The database with this node, as it is inserted. *)
Definition leaf_state : Database :=
  match insert (tkey leaf_tree) (tenc leaf_tree) leaf_node empty_db with Done _ db => db | Fault _ => empty_db end.

Lemma leaf_state_inv : db_inv leaf_encs leaf_rank leaf_state.
Proof.
  destruct leaf_tree_ok as [Hok Hh]. pose proof (holds_fits _ _ Hh leaf_fits) as Hf.
  assert (wp (λ _, False) (insert (tkey leaf_tree) (tenc leaf_tree) leaf_node)
    (λ _ db, db_inv leaf_encs leaf_rank db ∧ grows empty_db db ∧ is_Some (nodes db !! tkey leaf_tree)) empty_db) as Hw.
  { apply insert_fresh; [apply leaf_no_clash|apply empty_db_inv|exact Hok|exact Hf|done|done| |].
    - intros x Hx. rewrite enc_refs_tenc in Hx by done. by apply elem_of_nil in Hx.
    - apply lookup_singleton_ne. vm_compute. discriminate. }
  unfold wp in Hw. unfold leaf_state. destruct (insert _ _ _ _) as [[] db|]; [apply Hw|done].
Qed.

Lemma parents_overflow_witness :
  ∃ db1 db2, times (Z.to_nat 65536) (reference (tkey leaf_tree) 0) leaf_state = Done () db1 ∧
    Dereference (tkey leaf_tree) db1 = Done () db2 ∧
    is_Some (nodes db1 !! tkey leaf_tree) ∧ nodes db2 !! tkey leaf_tree = None.
Proof.
  refine (parents_overflow leaf_encs leaf_rank leaf_state (tkey leaf_tree) (entry_of leaf_tree 0) metaRoot leaf_state_inv _ _ _ _ _ _).
  - vm_compute. reflexivity.
  - vm_compute. discriminate.
  - reflexivity.
  - vm_compute. reflexivity.
  - vm_compute. reflexivity.
  - reflexivity.
Defined.

(** The database with a blob, as it is stored. *)
Definition blob_state : Database :=
  match InsertBlob 7 [Byte.x01] empty_db with Done _ db => db | Fault _ => empty_db end.

Lemma blob_state_list : in_list blob_state [7] [].
Proof.
  split.
  - split.
    + apply NoDup_singleton.
    + by intros ?%list_elem_of_singleton.
    + intros h ->%list_elem_of_singleton. by eexists.
    + reflexivity.
    + by right.
    + intros [|i] h c; [|done]. intros [= <-]. by intros [= <-].
    + by intros [|i] h c.
  - intros x [c Hx]. change (nodes blob_state) with (<[7 := {| cnode := rawNode [Byte.x01]; csize := 1; parents := 0;
      children := ∅; flushPrev := 0; flushNext := 0 |}]> ({[0 := metaRoot]} : gmap Hash cachedNode)) in Hx.
    apply lookup_insert_Some in Hx as [[<- _]|[_ [<- _]%lookup_singleton_Some]]; [right; left; by left|by left].
  - by eexists.
Qed.

Lemma blob_hides_children_witness :
  (∀ e n, insert 7 e n blob_state = Done () blob_state) ∧
  ∃ db', Commit 7 blob_state = Done () db' ∧
    ∀ x, 0 <= x < 2 ^ 256 → x ≠ 7 → mem_Get (diskdb db') (HashBytes x) = mem_Get (diskdb blob_state) (HashBytes x).
Proof.
  refine (blob_hides_children blob_state [7] 7 {| cnode := rawNode [Byte.x01]; csize := 1; parents := 0;
    children := ∅; flushPrev := 0; flushNext := 0 |} [Byte.x01] blob_state_list _ _ _ _); [reflexivity..|lia].
Defined.
