(* ===== verification/CliqueVotes.v ===== *)
(** * Proof of authority: the votes

    [consensus/clique/snapshot.go], with the recovery of the signer of a header
    from [consensus/clique/clique.go].  The cache of signatures is the one of
    [hashicorp/golang-lru], which is a parameter: what it may return is what has
    been put into it. *)
From stdpp Require Import sorting.
From S2P Require Import Prelude BigMath Params OpCodes VmAnalysis VmMemory Rlp VmTypes VmLaws Chain BlockTypes.

(** ** Caches *)

(** [lru.ARCCache]: [contains c k v] when a lookup of [k] may yet yield [v]. *)
Class ARCCache := {
  Cache : Type → Type;
  NewARC {V} : Z → Cache V;
  cache_Get {V} : Hash → Cache V → option V * Cache V;
  cache_Add {V} : Hash → V → Cache V → Cache V;
  contains {V} : Cache V → Hash → V → Prop;
  NewARC_contains {V} n k (v : V) : ¬ contains (NewARC n) k v;
  Get_contains {V} c k (v : V) c' : cache_Get k c = (Some v, c') → contains c k v;
  Get_keeps {V} c k c' (o : option V) k' v' : cache_Get k c = (o, c') → contains c' k' v' → contains c k' v';
  Add_contains {V} c k (v : V) k' v' : contains (cache_Add k v c) k' v' → (k' = k ∧ v' = v) ∨ contains c k' v'
}.

(** ** Errors *)

Inductive clique_error :=
  | errUnknownBlock
  | errInvalidCheckpointBeneficiary
  | errInvalidVote
  | errInvalidCheckpointVote
  | errMissingVanity
  | errMissingSignature
  | errExtraSigners
  | errInvalidCheckpointSigners
  | errInvalidMixDigest
  | errInvalidUncleHash
  | errInvalidDifficulty
  | ErrInvalidTimestamp
  | errInvalidVotingChain
  | errUnauthorized
  | errWaitTransactions
  | errUnclesNotAllowed
  | ErrFutureBlock
  | ErrUnknownAncestor
  | errForkHash
  | errRecover
  | errSign.

(** A call that returns a value or an error, which the caller passes on. *)
Definition check {St A B E} (m : M St (A + E)) (k : A → M St (B + E)) : M St (B + E) :=
  r ← m;
  match r with
  | inl a => k a
  | inr err => mret (inr err)
  end.
Notation "x ←? m ; k" := (check m (λ x, k)) (at level 20, m at level 100, k at level 200, right associativity).

Notation extraVanity := 32 (only parsing).
Notation extraSeal := 65 (only parsing).
Notation nonceAuthVote := 0xffffffffffffffff (only parsing).
Notation nonceDropVote := 0 (only parsing).

Section Recover.
Context `{!Crypto} `{!ARCCache}.

(** The header without its signature; [None] is the panic on short extra data. *)
Definition sigHash (h : Header) : option Hash :=
  if zlen (Block.Extra h) <? extraSeal then None
  else
    Some (rlpHash (Rlp.VList
      [Rlp.VBytes (HashBytes (Block.ParentHash h)); Rlp.VBytes (HashBytes (Block.UncleHash h));
       Rlp.VBytes (AddressBytes (Block.Coinbase h)); Rlp.VBytes (HashBytes (Block.Root h));
       Rlp.VBytes (HashBytes (Block.TxHash h)); Rlp.VBytes (HashBytes (Block.ReceiptHash h));
       Rlp.VBytes (be_bytes 256 (Block.Bloom h)); Rlp.VBigInt (Block.Difficulty h);
       Rlp.VBigInt (Block.Number h); Rlp.VUint (Block.GasLimit h); Rlp.VUint (Block.GasUsed h);
       Rlp.VBigInt (Block.Time h);
       Rlp.VBytes (take (length (Block.Extra h) - Z.to_nat extraSeal) (Block.Extra h));
       Rlp.VBytes (HashBytes (Block.MixDigest h)); Rlp.VBytes (be_bytes 8 (Block.Nonce h))])).

Definition ecrecover (header : Header) : M (Cache Address) (Address + clique_error) :=
  let hash := Header_Hash header in
  found ← (λ c, let '(o, c) := cache_Get hash c in Done o c);
  match found with
  | Some address => mret (inl address)
  | None =>
      if zlen (Block.Extra header) <? extraSeal then mret (inr errMissingSignature)
      else
        let signature := drop (length (Block.Extra header) - Z.to_nat extraSeal) (Block.Extra header) in
        sighash ← must (sigHash header);
        match Ecrecover (HashBytes sighash) signature with
        | None => mret (inr errRecover)
        | Some pubkey =>
            let signer := BytesToAddress (drop 12 (Keccak256 (drop 1 pubkey))) in
            _ ← modify (cache_Add hash signer);
            mret (inl signer)
        end
  end.
End Recover.

(** ** Snapshots *)

Record Vote := {
  v_Signer : Address;
  v_Block : Z;
  v_Address : Address;
  v_Authorize : bool
}.

Record Tally := {
  t_Authorize : bool;
  t_Votes : Z
}.

Record Snapshot := {
  sn_config : CliqueConfig;
  sn_Number : Z;
  sn_Hash : Hash;
  sn_Signers : gset Address;
  sn_Recents : gmap Z Address;
  sn_Votes : list Vote;
  sn_Tally : gmap Address Tally
}.

Definition with_Signers (x : gset Address) (s : Snapshot) : Snapshot :=
  {| sn_config := sn_config s; sn_Number := sn_Number s; sn_Hash := sn_Hash s; sn_Signers := x;
     sn_Recents := sn_Recents s; sn_Votes := sn_Votes s; sn_Tally := sn_Tally s |}.
Definition with_Recents (x : gmap Z Address) (s : Snapshot) : Snapshot :=
  {| sn_config := sn_config s; sn_Number := sn_Number s; sn_Hash := sn_Hash s; sn_Signers := sn_Signers s;
     sn_Recents := x; sn_Votes := sn_Votes s; sn_Tally := sn_Tally s |}.
Definition with_Votes (x : list Vote) (s : Snapshot) : Snapshot :=
  {| sn_config := sn_config s; sn_Number := sn_Number s; sn_Hash := sn_Hash s; sn_Signers := sn_Signers s;
     sn_Recents := sn_Recents s; sn_Votes := x; sn_Tally := sn_Tally s |}.
Definition with_Tally (x : gmap Address Tally) (s : Snapshot) : Snapshot :=
  {| sn_config := sn_config s; sn_Number := sn_Number s; sn_Hash := sn_Hash s; sn_Signers := sn_Signers s;
     sn_Recents := sn_Recents s; sn_Votes := sn_Votes s; sn_Tally := x |}.
Definition with_Number_Hash (n : Z) (h : Hash) (s : Snapshot) : Snapshot :=
  {| sn_config := sn_config s; sn_Number := n; sn_Hash := h; sn_Signers := sn_Signers s;
     sn_Recents := sn_Recents s; sn_Votes := sn_Votes s; sn_Tally := sn_Tally s |}.

Definition newSnapshot (config : CliqueConfig) (number : Z) (hash : Hash) (signers : list Address) : Snapshot :=
  {| sn_config := config; sn_Number := number; sn_Hash := hash; sn_Signers := list_to_set signers;
     sn_Recents := ∅; sn_Votes := []; sn_Tally := ∅ |}.

Definition validVote (s : Snapshot) (address : Address) (authorize : bool) : bool :=
  let signer := bool_decide (address ∈ sn_Signers s) in
  (signer && negb authorize) || (negb signer && authorize).

Definition cast (address : Address) (authorize : bool) (s : Snapshot) : bool * Snapshot :=
  if negb (validVote s address authorize) then (false, s)
  else
    (true,
     match sn_Tally s !! address with
     | Some old => with_Tally (<[address := {| t_Authorize := t_Authorize old; t_Votes := t_Votes old + 1 |}]> (sn_Tally s)) s
     | None => with_Tally (<[address := {| t_Authorize := authorize; t_Votes := 1 |}]> (sn_Tally s)) s
     end).

Definition uncast (address : Address) (authorize : bool) (s : Snapshot) : bool * Snapshot :=
  match sn_Tally s !! address with
  | None => (false, s)
  | Some tally =>
      if negb (Bool.eqb (t_Authorize tally) authorize) then (false, s)
      else if t_Votes tally >? 1 then
        (true, with_Tally (<[address := {| t_Authorize := t_Authorize tally; t_Votes := t_Votes tally - 1 |}]> (sn_Tally s)) s)
      else (true, with_Tally (delete address (sn_Tally s)) s)
  end.

(** ** Applying headers *)

(** A signer signs at most one block in so many. *)
Definition sign_limit (s : Snapshot) : Z := Z.of_nat (size (sn_Signers s) / 2) + 1.

(** The oldest signer of the window may sign again. *)
Definition shift_recents (number : Z) (s : Snapshot) : Snapshot :=
  if sign_limit s <=? number then with_Recents (delete (number - sign_limit s) (sn_Recents s)) s else s.

(** The vote a signer has cast before on the same account, if any, is taken back. *)
Definition discard_previous (signer address : Address) (s : Snapshot) : Snapshot :=
  match list_find (λ v, v_Signer v = signer ∧ v_Address v = address) (sn_Votes s) with
  | Some (i, vote) =>
      let s := (uncast (v_Address vote) (v_Authorize vote) s).2 in
      with_Votes (delete i (sn_Votes s)) s
  | None => s
  end.

(** The votes a signer has cast leave the list from position [i] on, each taken
    back from the tally. *)
Fixpoint discard_votes_of (signer : Address) (votes : list Vote) (s : Snapshot) : list Vote * Snapshot :=
  match votes with
  | [] => ([], s)
  | vote :: votes =>
      if v_Signer vote =? signer then
        discard_votes_of signer votes (uncast (v_Address vote) (v_Authorize vote) s).2
      else
        let '(rest, s) := discard_votes_of signer votes s in (vote :: rest, s)
  end.

(** The votes on an account leave the list. *)
Definition discard_votes_on (address : Address) (votes : list Vote) : list Vote :=
  filter (λ v, v_Address v ≠ address) votes.

(** The signers change when more than half of them want it. *)
Definition pass_vote (number : Z) (address : Address) (s : Snapshot) : Snapshot :=
  let tally := default {| t_Authorize := false; t_Votes := 0 |} (sn_Tally s !! address) in
  if t_Votes tally >? Z.of_nat (size (sn_Signers s) / 2) then
    let s :=
      if t_Authorize tally then with_Signers ({[ address ]} ∪ sn_Signers s) s
      else
        let s := shift_recents number (with_Signers (sn_Signers s ∖ {[ address ]}) s) in
        let '(votes, s) := discard_votes_of address (sn_Votes s) s in
        with_Votes votes s in
    let s := with_Votes (discard_votes_on address (sn_Votes s)) s in
    with_Tally (delete address (sn_Tally s)) s
  else s.

Section Apply.
Context `{!Crypto} `{!ARCCache}.

Definition vote_nonce (nonce : Z) : option bool :=
  if nonce =? nonceAuthVote then Some true
  else if nonce =? nonceDropVote then Some false
  else None.

(** A header whose signer is known. *)
Definition apply_signed (number : Z) (header : Header) (signer : Address) (snap : Snapshot) : Snapshot + clique_error :=
  if negb (bool_decide (signer ∈ sn_Signers snap)) then inr errUnauthorized
  else if bool_decide (map_Exists (λ _ recent, recent = signer) (sn_Recents snap)) then inr errUnauthorized
  else
    let snap := with_Recents (<[number := signer]> (sn_Recents snap)) snap in
    let snap := discard_previous signer (Block.Coinbase header) snap in
    match vote_nonce (Block.Nonce header) with
    | None => inr errInvalidVote
    | Some authorize =>
        let '(done, snap) := cast (Block.Coinbase header) authorize snap in
        let snap :=
          if done then
            with_Votes (sn_Votes snap ++ [{| v_Signer := signer; v_Block := number; v_Address := Block.Coinbase header;
                                             v_Authorize := authorize |}]) snap
          else snap in
        inl (pass_vote number (Block.Coinbase header) snap)
    end.

(** What happens before the signer is looked at. *)
Definition before_signer (epoch number : Z) (snap : Snapshot) : Snapshot :=
  shift_recents number (if number mod epoch =? 0 then with_Tally ∅ (with_Votes [] snap) else snap).

(** An epoch of 0 is a division by zero. *)
Definition apply_header (epoch : Z) (header : Header) (snap : Snapshot) : M (Cache Address) (Snapshot + clique_error) :=
  let number := Uint64 (Block.Number header) in
  if epoch =? 0 then panic
  else
    let snap := before_signer epoch number snap in
    signer ←? ecrecover header;
    mret (apply_signed number header signer snap).

Fixpoint apply_headers (epoch : Z) (headers : list Header) (snap : Snapshot) : M (Cache Address) (Snapshot + clique_error) :=
  match headers with
  | [] => mret (inl snap)
  | header :: headers =>
      snap ←? apply_header epoch header snap;
      apply_headers epoch headers snap
  end.

Fixpoint contiguous (headers : list Header) : bool :=
  match headers with
  | h :: ((h' :: _) as rest) =>
      (Uint64 (Block.Number h') =? uint64 (Uint64 (Block.Number h) + 1)) && contiguous rest
  | _ => true
  end.

(** The snapshot is copied first, so that the one at hand stays as it is. *)
Definition apply (s : Snapshot) (headers : list Header) : M (Cache Address) (Snapshot + clique_error) :=
  match headers with
  | [] => mret (inl s)
  | first :: _ =>
      if negb (contiguous headers) then mret (inr errInvalidVotingChain)
      else if negb (Uint64 (Block.Number first) =? uint64 (sn_Number s + 1)) then mret (inr errInvalidVotingChain)
      else
        snap ←? apply_headers (cliqueEpoch (sn_config s)) headers s;
        mret (inl (with_Number_Hash (uint64 (sn_Number snap + zlen headers))
                     (Header_Hash (List.last headers first)) snap))
  end.
End Apply.

(** ** Turns *)

(** In ascending order of their bytes, which is that of their values. *)
Definition signers (s : Snapshot) : list Address := merge_sort Z.le (elements (sn_Signers s)).

(** The position of a signer, or the number of signers. *)
Fixpoint signer_offset (l : list Address) (signer : Address) : Z :=
  match l with
  | [] => 0
  | a :: l => if a =? signer then 0 else 1 + signer_offset l signer
  end.

(** [None] is the division by zero when there are no signers. *)
Definition inturn (s : Snapshot) (number : Z) (signer : Address) : option bool :=
  let l := signers s in
  if zlen l =? 0 then None
  else Some (number mod zlen l =? signer_offset l signer).
