(* ===== verification/CliqueVotesOk.v ===== *)
(** * Proof of authority: the votes are counted right

    The tally is a cache of the list of votes, and the list stands for a set:
    who wants the status of whom to change.  [vote_step] is the rule of the vote
    on that set, [votes_step] that a header follows it.  [recents_ok] bounds the
    window of recent signers. *)
From stdpp Require Import sorting.
From S2P Require Import Prelude BigMath Params OpCodes VmAnalysis VmMemory Rlp VmTypes VmLaws Chain BlockTypes CliqueVotes.

#[local] Arguments discard_votes_on : simpl never.
#[local] Arguments Nat.div : simpl never.

(** ** The rule *)

Record ballot := {
  b_signers : gset Address;
  b_votes : gset (Address * Address)
}.

Definition supporters (a : Address) (votes : gset (Address * Address)) : gset Address :=
  set_map fst (filter (λ p, p.2 = a) votes).

(** More than half of the signers change the status of [a]; the votes on [a]
    and those of who is no signer any more are dropped. *)
Definition decided (a : Address) (b : ballot) : ballot :=
  if decide (size (b_signers b) / 2 < size (supporters a (b_votes b)))%nat then
    let new := if decide (a ∈ b_signers b) then b_signers b ∖ {[ a ]} else {[ a ]} ∪ b_signers b in
    {| b_signers := new; b_votes := filter (λ p, p.2 ≠ a ∧ p.1 ∈ new) (b_votes b) |}
  else b.

(** A header signed by [signer] with a vote on [a]; the votes start anew at a
    checkpoint, and a new vote replaces the one before. *)
Definition vote_step (checkpoint : bool) (signer a : Address) (authorize : bool) (b : ballot) : ballot :=
  let votes := (if checkpoint then ∅ else b_votes b) ∖ {[ (signer, a) ]} in
  let votes := if Bool.eqb authorize (negb (bool_decide (a ∈ b_signers b))) then {[ (signer, a) ]} ∪ votes else votes in
  decided a {| b_signers := b_signers b; b_votes := votes |}.

(** ** The invariant *)

Definition pair_of (v : Vote) : Address * Address := (v_Signer v, v_Address v).

Definition pairs (vs : list Vote) : gset (Address * Address) := list_to_set (pair_of <$> vs).

#[global] Arguments pairs : simpl never.

Definition abs (s : Snapshot) : ballot := {| b_signers := sn_Signers s; b_votes := pairs (sn_Votes s) |}.

(** What the tally of an account is, counted from the list. *)
Definition tally_of (S : gset Address) (vs : list Vote) (a : Address) : option Tally :=
  match length (filter (λ v, v_Address v = a) vs) with
  | O => None
  | n => Some {| t_Authorize := negb (bool_decide (a ∈ S)); t_Votes := Z.of_nat n |}
  end.

Definition counts (T : gmap Address Tally) (S : gset Address) (vs : list Vote) : Prop := ∀ a, T !! a = tally_of S vs a.

Definition valid_in (S : gset Address) (v : Vote) : Prop := v_Authorize v = negb (bool_decide (v_Address v ∈ S)).

Record ballot_ok (S : gset Address) (vs : list Vote) (T : gmap Address Tally) : Prop := {
  bo_signer v : v ∈ vs → v_Signer v ∈ S;
  bo_valid v : v ∈ vs → valid_in S v;
  bo_once : NoDup (pair_of <$> vs);
  bo_tally : counts T S vs
}.

(** Every vote is by a signer and makes sense, nobody votes twice on the same
    account, and the tally is right. *)
Definition votes_ok (s : Snapshot) : Prop := ballot_ok (sn_Signers s) (sn_Votes s) (sn_Tally s).

(** ** Sets of votes *)

Lemma elem_of_pairs vs p : p ∈ pairs vs ↔ ∃ v, v ∈ vs ∧ pair_of v = p.
Proof. unfold pairs. rewrite elem_of_list_to_set, list_elem_of_fmap. naive_solver. Qed.

Lemma pairs_app vs vs' : pairs (vs ++ vs') = pairs vs ∪ pairs vs'.
Proof. unfold pairs. by rewrite fmap_app, list_to_set_app_L. Qed.

Lemma pairs_filter (P : Vote → Prop) (Q : Address * Address → Prop) `{!∀ v, Decision (P v)} `{!∀ p, Decision (Q p)} vs :
  (∀ v, P v ↔ Q (pair_of v)) → pairs (filter P vs) = filter Q (pairs vs).
Proof.
  intros HPQ. apply set_eq. intros p. rewrite elem_of_filter, !elem_of_pairs. split.
  - intros (v & [HP Hv]%list_elem_of_filter & <-). split; [by apply HPQ|eauto].
  - intros [HQ (v & Hv & <-)]. exists v. split; [|done]. apply list_elem_of_filter. by rewrite HPQ.
Qed.

(** With at most one vote each, counting votes is counting supporters. *)
Lemma size_supporters a vs :
  NoDup (pair_of <$> vs) → size (supporters a (pairs vs)) = length (filter (λ v, v_Address v = a) vs).
Proof.
  intros Hnd. assert (supporters a (pairs vs) = list_to_set (v_Signer <$> filter (λ v, v_Address v = a) vs)) as ->.
  { apply set_eq. intros x. unfold supporters. rewrite elem_of_map, elem_of_list_to_set, list_elem_of_fmap. split.
    - intros ([y z] & -> & [Hz (v & Hv & E)%elem_of_pairs]%elem_of_filter). cbn in *. injection E as <- <-.
      exists v. split; [done|]. by apply list_elem_of_filter.
    - intros (v & -> & [Hv Hin]%list_elem_of_filter). exists (pair_of v). split; [done|].
      apply elem_of_filter. split; [done|]. apply elem_of_pairs. eauto. }
  rewrite size_list_to_set, length_fmap; [done|]. induction vs as [|v vs IH]; [constructor|].
  rewrite fmap_cons in Hnd. apply list.NoDup_cons in Hnd as [Hv Hnd]. rewrite filter_cons. case_decide as Ha; [|by apply IH].
  rewrite fmap_cons. apply list.NoDup_cons. split; [|by apply IH]. intros (w & Ew & [Hw Hin]%list_elem_of_filter)%list_elem_of_fmap.
  apply Hv, list_elem_of_fmap. exists w. split; [|done]. unfold pair_of. by rewrite Ew, Ha, Hw.
Qed.

(** ** The tally *)

Lemma counts_perm T S vs vs' : vs ≡ₚ vs' → counts T S vs → counts T S vs'.
Proof. intros Hp Hc a. rewrite (Hc a). unfold tally_of. by rewrite Hp. Qed.

Lemma tally_of_other S v vs a : v_Address v ≠ a → tally_of S (v :: vs) a = tally_of S vs a.
Proof. intros Hn. unfold tally_of. by rewrite filter_cons_False. Qed.

Lemma tally_of_same S v vs :
  tally_of S (v :: vs) (v_Address v) = Some {| t_Authorize := negb (bool_decide (v_Address v ∈ S));
    t_Votes := Z.of_nat (length (filter (λ w, v_Address w = v_Address v) vs)) + 1 |}.
Proof. unfold tally_of. rewrite filter_cons_True by done. cbn [length]. do 2 f_equal. lia. Qed.

Lemma with_Tally_same s : with_Tally (sn_Tally s) s = s.
Proof. by destruct s. Qed.

Lemma uncast_counts s S v vs :
  counts (sn_Tally s) S (v :: vs) → valid_in S v →
  ∃ T, (uncast (v_Address v) (v_Authorize v) s).2 = with_Tally T s ∧ counts T S vs.
Proof.
  intros Hc Hv. pose proof (Hc (v_Address v)) as Ha. rewrite tally_of_same in Ha. unfold uncast. rewrite Ha.
  cbn [t_Authorize t_Votes]. rewrite Hv, eqb_reflx. cbn [negb]. set (n := length _) in *.
  assert (Hoth : ∀ (T : gmap Address Tally) b, T !! v_Address v = tally_of S vs (v_Address v) → (∀ b, v_Address v ≠ b → T !! b = sn_Tally s !! b) →
    T !! b = tally_of S vs b).
  { intros T b Hsame Hother. destruct (decide (v_Address v = b)) as [<-|Hn]; [done|].
    by rewrite Hother, (Hc b), tally_of_other by done. }
  destruct (Z.gtb_spec (Z.of_nat n + 1) 1) as [Hgt|Hle]; eexists; (split; [reflexivity|]); intros b; apply Hoth.
  - rewrite lookup_insert_eq. unfold tally_of. fold n. destruct n as [|n]; [lia|]. do 2 f_equal. lia.
  - intros c Hn. by rewrite lookup_insert_ne.
  - rewrite lookup_delete_eq. unfold tally_of. fold n. by destruct n; [|lia].
  - intros c Hn. by rewrite lookup_delete_ne.
Qed.

Lemma validVote_spec s a authorize : validVote s a authorize = Bool.eqb authorize (negb (bool_decide (a ∈ sn_Signers s))).
Proof. unfold validVote. by destruct (bool_decide _), authorize. Qed.

Lemma cast_counts s v vs :
  counts (sn_Tally s) (sn_Signers s) vs → valid_in (sn_Signers s) v →
  ∃ T, cast (v_Address v) (v_Authorize v) s = (true, with_Tally T s) ∧ counts T (sn_Signers s) (vs ++ [v]).
Proof.
  intros Hc Hv. unfold cast. rewrite validVote_spec, Hv, eqb_reflx. cbn [negb]. set (S := sn_Signers s) in *.
  pose proof (Hc (v_Address v)) as Ha. set (n := length (filter (λ w, v_Address w = v_Address v) vs)).
  assert (∃ T, (match sn_Tally s !! v_Address v with
     | Some old => with_Tally (<[v_Address v := {| t_Authorize := t_Authorize old; t_Votes := t_Votes old + 1 |}]> (sn_Tally s)) s
     | None => with_Tally (<[v_Address v := {| t_Authorize := negb (bool_decide (v_Address v ∈ S)); t_Votes := 1 |}]> (sn_Tally s)) s
     end) = with_Tally (<[v_Address v := T]> (sn_Tally s)) s ∧
     T = {| t_Authorize := negb (bool_decide (v_Address v ∈ S)); t_Votes := Z.of_nat n + 1 |}) as (T & -> & ->).
  { rewrite Ha. unfold tally_of. fold n. destruct n; eexists; (split; [reflexivity|]); done. }
  eexists. split; [reflexivity|]. apply (counts_perm _ _ (v :: vs)); [by rewrite Permutation_app_comm|]. intros b.
  destruct (decide (v_Address v = b)) as [<-|Hn].
  - by rewrite lookup_insert_eq, tally_of_same.
  - by rewrite lookup_insert_ne, tally_of_other.
Qed.

Lemma discard_votes_of_ok S a vs : ∀ s kept,
  counts (sn_Tally s) S (kept ++ vs) → Forall (valid_in S) vs →
  ∃ T, discard_votes_of a vs s = (filter (λ v, v_Signer v ≠ a) vs, with_Tally T s) ∧
    counts T S (kept ++ filter (λ v, v_Signer v ≠ a) vs).
Proof.
  induction vs as [|v vs IH]; intros s kept Hc Hv; cbn [discard_votes_of].
  { exists (sn_Tally s). by rewrite with_Tally_same. }
  apply list.Forall_cons in Hv as [Hv Hvs]. rewrite filter_cons. destruct (Z.eqb_spec (v_Signer v) a) as [Ea|Hn].
  - rewrite decide_False by naive_solver.
    destruct (uncast_counts s S v (kept ++ vs)) as (T & -> & HT); [|done|].
    { eapply counts_perm; [|exact Hc]. symmetry. apply Permutation_middle. }
    destruct (IH (with_Tally T s) kept) as (T' & -> & HT'); [done..|]. by exists T'.
  - rewrite decide_True by done. destruct (IH s (kept ++ [v])) as (T & -> & HT); [by rewrite <-app_assoc|done|].
    exists T. by rewrite <-app_assoc in HT.
Qed.

(** ** A header *)

Lemma ballot_ok_empty S : ballot_ok S [] ∅.
Proof. split; [by intros ? ?%elem_of_nil..|constructor|done]. Qed.

Lemma ballot_ok_filter (P : Vote → Prop) `{!∀ v, Decision (P v)} S vs T :
  (∀ v, v ∈ vs → v_Signer v ∈ S) → (∀ v, v ∈ vs → valid_in S v) → NoDup (pair_of <$> vs) →
  counts T S (filter P vs) → ballot_ok S (filter P vs) T.
Proof.
  intros Hs Hv Hn Hc. split; [| | |done].
  - intros v [_ ?]%list_elem_of_filter. by apply Hs.
  - intros v [_ ?]%list_elem_of_filter. by apply Hv.
  - eapply sublist_NoDup; [exact Hn|]. apply fmap_sublist, sublist_filter.
Qed.

Lemma pairs_delete vs i v :
  NoDup (pair_of <$> vs) → vs !! i = Some v →
  pairs (delete i vs) = pairs vs ∖ {[ pair_of v ]} ∧ NoDup (pair_of <$> delete i vs).
Proof.
  intros Hn Hi. pose proof (delete_Permutation vs i v Hi) as Hp.
  assert (NoDup (pair_of <$> (v :: delete i vs))) as Hn' by by rewrite <-Hp.
  rewrite fmap_cons in Hn'. apply list.NoDup_cons in Hn' as [Hv Hn']. split; [|done].
  apply set_eq. intros p. rewrite elem_of_difference, elem_of_singleton, !elem_of_pairs. split.
  - intros (w & Hw & <-). split; [exists w; split; [|done]; rewrite Hp; by right|].
    intros E. apply Hv. rewrite <-E. by apply list_elem_of_fmap_2.
  - intros [(w & Hw & <-) Hne]. exists w. split; [|done]. rewrite Hp in Hw. by apply elem_of_cons in Hw as [->|].
Qed.

Lemma discard_previous_ok signer a s :
  votes_ok s → ∃ vs T, discard_previous signer a s = with_Votes vs (with_Tally T s) ∧
    ballot_ok (sn_Signers s) vs T ∧ pairs vs = pairs (sn_Votes s) ∖ {[ (signer, a) ]}.
Proof.
  intros [Hs Hv Hn Hc]. unfold discard_previous. destruct (list_find _ _) as [[i v]|] eqn:Ef.
  - apply list_find_Some in Ef as (Hi & [<- <-] & _). pose proof (delete_Permutation _ _ _ Hi) as Hp.
    destruct (uncast_counts s (sn_Signers s) v (delete i (sn_Votes s))) as (T & -> & HT).
    { by eapply counts_perm. } { apply Hv. by eapply list_elem_of_lookup_2. }
    destruct (pairs_delete _ _ _ Hn Hi) as [Hpairs Hn']. eexists _, T. split; [reflexivity|]. split; [|exact Hpairs].
    split; [| |done|done]; intros w Hw; [apply Hs|apply Hv]; rewrite Hp; by right.
  - apply list_find_None in Ef. exists (sn_Votes s), (sn_Tally s). split; [by destruct s|]. split; [done|].
    apply set_eq. intros p. rewrite elem_of_difference, elem_of_singleton, elem_of_pairs. split; [|by intros []].
    intros (v & Hin & <-). split; [eauto|]. intros [= E1 E2]. eapply list.Forall_forall in Ef; [|exact Hin]. by apply Ef.
Qed.

Lemma tally_size S vs T a :
  ballot_ok S vs T →
  t_Votes (default {| t_Authorize := false; t_Votes := 0 |} (T !! a)) = Z.of_nat (size (supporters a (pairs vs))) ∧
  ((0 < size (supporters a (pairs vs)))%nat →
   t_Authorize (default {| t_Authorize := false; t_Votes := 0 |} (T !! a)) = negb (bool_decide (a ∈ S))).
Proof.
  intros [_ _ Hn Hc]. rewrite (Hc a), size_supporters by done. unfold tally_of. destruct (length _); cbn; [split; [done|lia]|done].
Qed.

(** The change of one account leaves the tallies of the others. *)
Lemma counts_changed T S S' vs a :
  counts T S vs → (∀ b, b ≠ a → b ∈ S ↔ b ∈ S') → counts (delete a T) S' (discard_votes_on a vs).
Proof.
  intros Hc HS b. unfold tally_of, discard_votes_on. destruct (decide (a = b)) as [<-|Hn].
  - rewrite lookup_delete_eq. destruct (filter _ (filter _ vs)) as [|v l] eqn:E; [done|].
    assert (v ∈ v :: l) as Hv by by left. rewrite <-E in Hv. rewrite !list_elem_of_filter in Hv. naive_solver.
  - rewrite list_filter_filter. rewrite lookup_delete_ne by done. rewrite (Hc b). unfold tally_of.
    rewrite (list_filter_iff (λ v, v_Address v = b) (λ v, v_Address v = b ∧ v_Address v ≠ a) vs) by naive_solver.
    rewrite (bool_decide_ext (b ∈ S) (b ∈ S')) by naive_solver. done.
Qed.

(** The votes that are left when the status of [a] has changed. *)
Lemma ballot_changed S S' vs vs' T T' a :
  ballot_ok S vs T → (∀ b, b ≠ a → b ∈ S ↔ b ∈ S') → vs' `sublist_of` vs →
  (∀ v, v ∈ vs → v ∈ vs' ↔ v_Address v ≠ a ∧ v_Signer v ∈ S') → counts T' S' vs' →
  ballot_ok S' vs' T' ∧ pairs vs' = filter (λ p, p.2 ≠ a ∧ p.1 ∈ S') (pairs vs).
Proof.
  intros [Hs Hv Hn _] HS Hsub Hin Hc. assert (Hin' : ∀ v, v ∈ vs' → v ∈ vs) by (intros v Hv'; by eapply elem_of_sublist).
  split; [split; [| | |done]|].
  - intros v Hv'. by apply Hin; [auto|].
  - intros v Hv'. unfold valid_in. rewrite (Hv v) by auto. f_equal. apply bool_decide_ext. apply HS. by apply Hin; [auto|].
  - eapply sublist_NoDup; [exact Hn|]. by apply fmap_sublist.
  - apply set_eq. intros p. rewrite elem_of_filter, !elem_of_pairs. split.
    + intros (v & Hv' & <-). split; [|eauto]. cbn. apply Hin; [auto|done].
    + intros [Hp (v & Hvs & <-)]. exists v. split; [|done]. by apply Hin.
Qed.

Lemma pass_vote_ok number a s :
  votes_ok s →
  let s' := pass_vote number a s in
  votes_ok s' ∧ abs s' = decided a (abs s) ∧
  sn_Recents s' = (if decide (a ∈ sn_Signers s ∧ a ∉ sn_Signers s') then
    sn_Recents (shift_recents number (with_Signers (sn_Signers s') s)) else sn_Recents s) ∧
  sn_config s' = sn_config s ∧ sn_Number s' = sn_Number s ∧ sn_Hash s' = sn_Hash s.
Proof.
  intros Hok. pose proof Hok as [Hs Hv _ Hc]. destruct (tally_size _ _ _ a Hok) as [Hsz Hau]. unfold pass_vote, decided, abs, votes_ok.
  rewrite Hsz. cbn [b_signers b_votes]. destruct (Z.gtb_spec (Z.of_nat (size (supporters a (pairs (sn_Votes s))))) (Z.of_nat (size (sn_Signers s) / 2))) as [Hgt|Hle].
  2: { rewrite decide_False by lia. rewrite decide_False by naive_solver. done. }
  rewrite (decide_True (P := (_ < _)%nat)) by lia. rewrite Hau by lia. destruct (decide (a ∈ sn_Signers s)) as [Ha|Ha].
  - rewrite bool_decide_true by done. cbn [negb]. set (s1 := shift_recents number _).
    assert (s1 = with_Recents (sn_Recents s1) (with_Signers (sn_Signers s ∖ {[a]}) s)) as Es1
      by (unfold s1, shift_recents; destruct (_ <=? _); by destruct s).
    assert (sn_Votes s1 = sn_Votes s ∧ sn_Tally s1 = sn_Tally s) as [Ev Et] by (by rewrite Es1).
    rewrite Ev. destruct (discard_votes_of_ok (sn_Signers s) a (sn_Votes s) s1 []) as (T & -> & HT); [by rewrite Et|by apply list.Forall_forall|].
    rewrite Es1. cbn. cbn [app] in HT.
    apply (counts_changed _ _ (sn_Signers s ∖ {[a]}) _ a) in HT; [|set_solver].
    opose proof (ballot_changed _ _ _ _ _ _ a Hok _ _ _ HT) as [Hb ->].
    + set_solver.
    + unfold discard_votes_on. etrans; apply sublist_filter.
    + intros v Hv'. unfold discard_votes_on. rewrite !list_elem_of_filter. pose proof (Hs v Hv'). set_solver.
    + split_and!; try done. rewrite decide_True by set_solver. done.
  - rewrite bool_decide_false by done. cbn. apply (counts_changed _ _ ({[a]} ∪ sn_Signers s) _ a) in Hc; [|set_solver].
    opose proof (ballot_changed _ _ _ _ _ _ a Hok _ _ _ Hc) as [Hb ->].
    + set_solver.
    + apply sublist_filter.
    + intros v Hv'. unfold discard_votes_on. rewrite !list_elem_of_filter. pose proof (Hs v Hv'). set_solver.
    + split_and!; try done. rewrite decide_False by naive_solver. done.
Qed.

(** ** The window of recent signers *)

Record recents_ok (n : Z) (S : gset Address) (R : gmap Z Address) : Prop := {
  ro_range k a : R !! k = Some a → 0 <= k <= n ∧ n < k + (Z.of_nat (size S / 2) + 1);
  ro_once k k' a : R !! k = Some a → R !! k' = Some a → k = k'
}.

Lemma recents_ok_empty n S : recents_ok n S ∅.
Proof. by split. Qed.

Lemma recents_sub n S S' (R R' : gmap Z Address) :
  recents_ok n S R → R' ⊆ R → (∀ k a, R' !! k = Some a → n < k + (Z.of_nat (size S' / 2) + 1)) → recents_ok n S' R'.
Proof.
  intros [Hr Ho] Hsub Hn. split.
  - intros k a Hk. split; [|by eapply Hn]. eapply Hr. by eapply lookup_weaken.
  - intros k k' a Hk Hk'. eapply Ho; by eapply lookup_weaken.
Qed.

Definition within (n : Z) (S : gset Address) (R : gmap Z Address) : Prop :=
  ∀ k a, R !! k = Some a → 0 <= k ∧ n <= k + (Z.of_nat (size S / 2) + 1).

(** The window one block on: the oldest entry leaves. *)
Lemma shift_recents_ok n s :
  within n (sn_Signers s) (sn_Recents s) →
  ∃ R, shift_recents n s = with_Recents R s ∧ R ⊆ sn_Recents s ∧
    ∀ k a, R !! k = Some a → n < k + (Z.of_nat (size (sn_Signers s) / 2) + 1).
Proof.
  intros Hr. unfold shift_recents. fold (sign_limit s) in *. destruct (Z.leb_spec (sign_limit s) n) as [Hle|Hlt].
  - eexists. split; [reflexivity|]. split; [apply delete_subseteq|]. intros k a [Hne Hk]%lookup_delete_Some.
    destruct (Hr k a Hk). unfold sign_limit in *. lia.
  - exists (sn_Recents s). split; [by destruct s|]. split; [done|]. intros k a Hk. destruct (Hr k a Hk). unfold sign_limit in *. lia.
Qed.

Lemma size_remove (S : gset Address) a : (size S / 2 <= size (S ∖ {[a]}) / 2 + 1)%nat.
Proof.
  destruct (decide (a ∈ S)) as [Ha|Ha].
  - rewrite size_difference by set_solver. rewrite size_singleton.
    transitivity ((size S - 1 + 1 * 2) / 2)%nat; [apply Nat.Div0.div_le_mono; lia|]. rewrite Nat.div_add by lia. lia.
  - replace (S ∖ {[a]}) with S by set_solver. lia.
Qed.

(** ** One header *)

Record header_applied (checkpoint : bool) (n : Z) (h : Header) (signer : Address) (s s' : Snapshot) : Prop := {
  ha_vote authorize : vote_nonce (Block.Nonce h) = Some authorize →
    abs s' = vote_step checkpoint signer (Block.Coinbase h) authorize (abs s);
  ha_nonce : is_Some (vote_nonce (Block.Nonce h));
  ha_signer : signer ∈ sn_Signers s;
  ha_votes : votes_ok s';
  ha_recents : recents_ok n (sn_Signers s') (sn_Recents s');
  ha_config : sn_config s' = sn_config s;
  ha_Number : sn_Number s' = sn_Number s
}.

(** The snapshot with the new vote, before it is looked at whether it passes. *)
Lemma cast_ok number h signer authorize s :
  votes_ok s → signer ∈ sn_Signers s → (∀ v, v ∈ sn_Votes s → pair_of v ≠ (signer, Block.Coinbase h)) →
  let '(done, s1) := cast (Block.Coinbase h) authorize s in
  ∃ vs T, (if done then with_Votes (sn_Votes s1 ++ [{| v_Signer := signer; v_Block := number; v_Address := Block.Coinbase h;
                                              v_Authorize := authorize |}]) s1 else s1) = with_Votes vs (with_Tally T s) ∧
    ballot_ok (sn_Signers s) vs T ∧
    pairs vs = (if Bool.eqb authorize (negb (bool_decide (Block.Coinbase h ∈ sn_Signers s)))
                then {[ (signer, Block.Coinbase h) ]} ∪ pairs (sn_Votes s) else pairs (sn_Votes s)).
Proof.
  intros [Hs Hv Hn Hc] Hsig Hnew. set (v := {| v_Signer := signer; v_Block := number; v_Address := Block.Coinbase h; v_Authorize := authorize |}).
  destruct (Bool.eqb authorize _) eqn:Ea.
  - apply eqb_prop in Ea. destruct (cast_counts s v (sn_Votes s) Hc Ea) as (T & EC & HT). cbn in EC. rewrite EC.
    eexists _, T. split; [reflexivity|]. cbn [sn_Votes with_Tally]. split; [split; [| | |done]|].
    + intros w [Hw| ->%list_elem_of_singleton]%elem_of_app; [by apply Hs|done].
    + intros w [Hw| ->%list_elem_of_singleton]%elem_of_app; [by apply Hv|done].
    + rewrite fmap_app. apply list.NoDup_app. split_and!; [done| |apply NoDup_singleton].
      intros p (w & -> & Hw)%list_elem_of_fmap E%list_elem_of_singleton. by apply (Hnew w).
    + rewrite pairs_app, (comm_L (∪)). f_equal. unfold pairs. cbn. by rewrite (right_id_L ∅ (∪)).
  - unfold cast. rewrite validVote_spec, Ea. cbn [negb]. exists (sn_Votes s), (sn_Tally s). by destruct s.
Qed.

Lemma decided_signers a b :
  b_signers (decided a b) = b_signers b ∨ (a ∈ b_signers b ∧ b_signers (decided a b) = b_signers b ∖ {[ a ]}) ∨
  (a ∉ b_signers b ∧ b_signers (decided a b) = {[ a ]} ∪ b_signers b).
Proof. unfold decided. case_decide; [|by left]. cbn. case_decide; auto. Qed.

(** What [pass_vote] does to the window. *)
Lemma pass_vote_recents n a s :
  votes_ok s → recents_ok n (sn_Signers s) (sn_Recents s) →
  recents_ok n (sn_Signers (pass_vote n a s)) (sn_Recents (pass_vote n a s)).
Proof.
  intros Hok Hr. destruct (pass_vote_ok n a s Hok) as (_ & Habs & -> & _).
  assert (sn_Signers (pass_vote n a s) = b_signers (decided a (abs s))) as ES by by rewrite <-Habs.
  destruct (decided_signers a (abs s)) as [E|[[Ha E]|[Ha E]]]; cbn in E; rewrite <-ES in E.
  - rewrite decide_False by (rewrite E; naive_solver). by rewrite E.
  - cbn in Ha. rewrite E, decide_True by set_solver.
    destruct (shift_recents_ok n (with_Signers (sn_Signers s ∖ {[a]}) s)) as (R & -> & Hsub & Hn).
    { intros k x Hk. destruct (ro_range _ _ _ Hr k x Hk). cbn. pose proof (size_remove (sn_Signers s) a). lia. }
    by eapply recents_sub.
  - cbn in Ha. rewrite E, decide_False by set_solver. eapply recents_sub; [done..|]. intros k x Hk.
    destruct (ro_range _ _ _ Hr k x Hk). assert (size (sn_Signers s) <= size ({[a]} ∪ sn_Signers s))%nat as Hsz by (apply subseteq_size; set_solver).
    apply (Nat.Div0.div_le_mono _ _ 2) in Hsz. lia.
Qed.

Lemma before_signer_ok epoch n s :
  votes_ok s → recents_ok n (sn_Signers s) (sn_Recents s) →
  ∃ vs T R, before_signer epoch (n + 1) s = with_Recents R (with_Votes vs (with_Tally T s)) ∧
    ballot_ok (sn_Signers s) vs T ∧ pairs vs = (if (n + 1) mod epoch =? 0 then ∅ else pairs (sn_Votes s)) ∧
    R ⊆ sn_Recents s ∧ ∀ k a, R !! k = Some a → n + 1 < k + (Z.of_nat (size (sn_Signers s) / 2) + 1).
Proof.
  intros Hok Hr. unfold before_signer. set (s0 := if _ =? 0 then _ else _).
  assert (∃ vs T, s0 = with_Votes vs (with_Tally T s) ∧ ballot_ok (sn_Signers s) vs T ∧
    pairs vs = (if (n + 1) mod epoch =? 0 then ∅ else pairs (sn_Votes s))) as (vs & T & E0 & Hb & Hp).
  { unfold s0. destruct (_ =? 0).
    - exists [], ∅. split_and!; [done|apply ballot_ok_empty|done].
    - exists (sn_Votes s), (sn_Tally s). by destruct s. }
  destruct (shift_recents_ok (n + 1) s0) as (R & -> & Hsub & Hn).
  { rewrite E0. intros k x Hk. destruct (ro_range _ _ _ Hr k x Hk). cbn. lia. }
  exists vs, T, R. rewrite E0 in *. done.
Qed.

Lemma insert_recent n S (R R' : gmap Z Address) signer :
  0 <= n → recents_ok n S R → R' ⊆ R → (∀ k a, R' !! k = Some a → n + 1 < k + (Z.of_nat (size S / 2) + 1)) →
  ¬ map_Exists (λ _ recent, recent = signer) R' → recents_ok (n + 1) S (<[n + 1 := signer]> R').
Proof.
  intros Hn Hr Hsub Hin Hnew. assert (Hno : ∀ k, R' !! k ≠ Some signer) by (intros k Hk; apply Hnew; by exists k, signer). split.
  - intros k a [[<- <-]|[Hne Hk]]%lookup_insert_Some; [lia|]. pose proof (Hin k a Hk).
    destruct (ro_range _ _ _ Hr k a); [by eapply lookup_weaken|]. lia.
  - intros k k' a [[<- <-]|[Hne Hk]]%lookup_insert_Some [[<- E]|[Hne' Hk']]%lookup_insert_Some.
    + done. + by apply Hno in Hk'. + subst. by apply Hno in Hk. + eapply (ro_once _ _ _ Hr); by eapply lookup_weaken.
Qed.

(** A header that is accepted follows the rule and keeps the invariants. *)
Lemma apply_signed_ok epoch n h signer s s' :
  0 <= n → votes_ok s → recents_ok n (sn_Signers s) (sn_Recents s) →
  apply_signed (n + 1) h signer (before_signer epoch (n + 1) s) = inl s' →
  header_applied ((n + 1) mod epoch =? 0) (n + 1) h signer s s'.
Proof.
  intros Hn Hok Hr. destruct (before_signer_ok epoch n s Hok Hr) as (vs & T & R & -> & Hb & Hp & Hsub & Hin). unfold apply_signed.
  cbn [sn_Signers sn_Recents with_Recents with_Votes with_Tally].
  destruct (bool_decide_reflect (signer ∈ sn_Signers s)) as [Hsig|]; [|done]. cbn [negb].
  destruct (bool_decide_reflect (map_Exists (λ _ recent, recent = signer) R)) as [|Hnew]; [done|].
  pose proof (insert_recent n _ _ R signer Hn Hr Hsub Hin Hnew) as Hr1.
  set (s1 := with_Recents (<[n + 1 := signer]> R) (with_Recents R (with_Votes vs (with_Tally T s)))).
  destruct (discard_previous_ok signer (Block.Coinbase h) s1 Hb) as (vs2 & T2 & -> & Hb2 & Hp2).
  destruct (vote_nonce (Block.Nonce h)) as [authorize|] eqn:En; [|done].
  opose proof (cast_ok (n + 1) h signer authorize (with_Votes vs2 (with_Tally T2 s1)) Hb2 Hsig _) as HC.
  { intros v Hv E. assert (pair_of v ∈ pairs vs2) as Hin' by (apply elem_of_pairs; eauto). rewrite Hp2, E in Hin'. set_solver. }
  destruct (cast _ _ _) as [done s3]. destruct HC as (vs3 & T3 & -> & Hb3 & Hp3). intros [= <-].
  set (s4 := with_Votes vs3 _). assert (votes_ok s4) as Hok4 by exact Hb3.
  destruct (pass_vote_ok (n + 1) (Block.Coinbase h) s4 Hok4) as (Hok' & Habs & _ & Ec & EN & _).
  split; [|by eexists|done|done|by apply pass_vote_recents|by rewrite Ec|by rewrite EN].
  intros authorize'. rewrite En. intros [= <-]. rewrite Habs. unfold vote_step, abs. cbn in *. by rewrite Hp3, Hp2, Hp.
Qed.
