(* ===== verification/CliqueApply.v ===== *)
(** * Proof of authority: applying headers

    [apply] without its cache: where no two headers in question have the same
    hash and different signers, the cache changes nothing ([apply_pure]).  Then
    what a run of headers does to the votes, and that headers can be applied
    piecewise. *)
From stdpp Require Import sorting.
From S2P Require Import Prelude BigMath Params OpCodes VmAnalysis VmMemory Rlp VmTypes VmLaws Chain BlockTypes CliqueVotes CliqueVotesOk.

Section Apply.
Context `{!Crypto} `{!ARCCache}.

(** ** The signer of a header *)

Definition recovered (h : Header) : Address + clique_error :=
  match sigHash h with
  | None => inr errMissingSignature
  | Some sighash =>
      match Ecrecover (HashBytes sighash) (drop (length (Block.Extra h) - 65) (Block.Extra h)) with
      | None => inr errRecover
      | Some pubkey => inl (BytesToAddress (drop 12 (Keccak256 (drop 1 pubkey))))
      end
  end.

Context (known : Header → Prop).

(** Among the known headers the hash determines the signer. *)
Definition same_signer : Prop := ∀ h h', known h → known h' → Header_Hash h = Header_Hash h' → recovered h = recovered h'.

(** The cache knows only right signers. *)
Definition sigs_ok (c : Cache Address) : Prop := ∀ h a, known h → contains c (Header_Hash h) a → recovered h = inl a.

Context (Hsame : same_signer).

Lemma ecrecover_ok h c : known h → sigs_ok c → ∃ c', ecrecover h c = Done (recovered h) c' ∧ sigs_ok c'.
Proof.
  intros Hh Hc. unfold ecrecover, mbind, M_bind. destruct (cache_Get (Header_Hash h) c) as [o c1] eqn:Eg.
  assert (sigs_ok c1) as Hc1 by (intros h' a Hh' Ha; eapply Hc; [done|by eapply Get_keeps]).
  destruct o as [a|].
  { rewrite (Hc h a Hh) by by eapply Get_contains. by exists c1. }
  unfold recovered. unfold sigHash. destruct (Z.ltb_spec (zlen (Block.Extra h)) 65) as [|Hl]; [by exists c1|]. cbn [must mret M_ret].
  change (Z.to_nat 65) with 65%nat. set (sh := rlpHash _). destruct (Ecrecover _ _) as [pub|] eqn:Er; [|by exists c1].
  cbn [modify]. eexists. split; [reflexivity|]. intros h' a Hh' [[Eh ->]|Ha]%Add_contains; [|by eapply Hc1].
  rewrite (Hsame h' h) by done. unfold recovered, sigHash. rewrite (proj2 (Z.ltb_ge _ _)) by done.
  change (Z.to_nat 65) with 65%nat. fold sh. by rewrite Er.
Qed.

(** ** Without the cache *)

Definition number_of (h : Header) : Z := Uint64 (Block.Number h).

Definition header_next (epoch : Z) (h : Header) (s : Snapshot) : Snapshot + clique_error :=
  match recovered h with
  | inr err => inr err
  | inl signer => apply_signed (number_of h) h signer (before_signer epoch (number_of h) s)
  end.

Fixpoint headers_next (epoch : Z) (hs : list Header) (s : Snapshot) : Snapshot + clique_error :=
  match hs with
  | [] => inl s
  | h :: hs =>
      match header_next epoch h s with
      | inr err => inr err
      | inl s => headers_next epoch hs s
      end
  end.

Definition apply_next (s : Snapshot) (hs : list Header) : Snapshot + clique_error :=
  match hs with
  | [] => inl s
  | first :: _ =>
      if negb (contiguous hs) || negb (number_of first =? uint64 (sn_Number s + 1)) then inr errInvalidVotingChain
      else
        match headers_next (cliqueEpoch (sn_config s)) hs s with
        | inr err => inr err
        | inl s' => inl (with_Number_Hash (uint64 (sn_Number s' + zlen hs)) (Header_Hash (List.last hs first)) s')
        end
  end.

Lemma apply_headers_pure epoch hs : epoch ≠ 0 → Forall known hs → ∀ s c, sigs_ok c →
  ∃ c', apply_headers epoch hs s c = Done (headers_next epoch hs s) c' ∧ sigs_ok c'.
Proof.
  intros He Hhs. induction Hhs as [|h hs Hh Hhs IH]; intros s c Hc; [by exists c|]. cbn [apply_headers headers_next].
  unfold check, apply_header, header_next. rewrite (proj2 (Z.eqb_neq _ _)) by done. unfold check, mbind, M_bind.
  destruct (ecrecover_ok h c Hh Hc) as (c1 & -> & Hc1). destruct (recovered h) as [signer|err]; [|by exists c1]. cbn [mret M_ret].
  fold (number_of h). destruct (apply_signed _ _ _ _) as [s1|err]; [|by exists c1]. by apply IH.
Qed.

Lemma apply_pure s hs c :
  cliqueEpoch (sn_config s) ≠ 0 → Forall known hs → sigs_ok c →
  ∃ c', apply s hs c = Done (apply_next s hs) c' ∧ sigs_ok c'.
Proof.
  intros He Hhs Hc. destruct hs as [|h hs]; [by exists c|]. unfold apply, apply_next. fold (number_of h).
  destruct (contiguous (h :: hs)); [|by exists c]. destruct (_ =? _); [|by exists c]. cbn [negb orb].
  unfold check, mbind, M_bind. destruct (apply_headers_pure _ _ He Hhs s c Hc) as (c1 & -> & Hc1).
  exists c1. split; [|done]. by destruct (headers_next _ _ _).
Qed.
End Apply.

(** ** What a run of headers does *)

Record snap_ok (s : Snapshot) : Prop := {
  sk_number : 0 <= sn_Number s;
  sk_votes : votes_ok s;
  sk_recents : recents_ok (sn_Number s) (sn_Signers s) (sn_Recents s)
}.

Lemma newSnapshot_ok config n hash l : 0 <= n → snap_ok (newSnapshot config n hash l).
Proof. intros Hn. split; [done|apply ballot_ok_empty|apply recents_ok_empty]. Qed.

Section Run.
Context `{!Crypto}.

(** The rule of the vote for a header. *)
Definition ballot_step (epoch : Z) (b : ballot) (h : Header) : ballot :=
  match recovered h, vote_nonce (Block.Nonce h) with
  | inl signer, Some authorize => vote_step (number_of h mod epoch =? 0) signer (Block.Coinbase h) authorize b
  | _, _ => b
  end.

Lemma header_next_ok epoch n h s s' :
  0 <= n → votes_ok s → recents_ok n (sn_Signers s) (sn_Recents s) → number_of h = n + 1 →
  header_next epoch h s = inl s' →
  abs s' = ballot_step epoch (abs s) h ∧ votes_ok s' ∧ recents_ok (n + 1) (sn_Signers s') (sn_Recents s') ∧
  sn_config s' = sn_config s ∧ sn_Number s' = sn_Number s.
Proof.
  intros Hn Hv Hr Eh. unfold header_next, ballot_step. destruct (recovered h) as [signer|]; [|done]. rewrite Eh.
  intros [Hvote [au Ea] _ Hv' Hr' Hc' HN']%apply_signed_ok; [|done..]. rewrite (Hvote au Ea), Ea. done.
Qed.

(** The numbers of a contiguous run. *)
Lemma contiguous_numbers n h hs :
  contiguous (h :: hs) = true → number_of h = n + 1 → 0 <= n → n + zlen (h :: hs) < 2 ^ 64 →
  ∀ i x, (h :: hs) !! i = Some x → number_of x = n + 1 + Z.of_nat i.
Proof.
  revert n h. induction hs as [|h' hs IH]; intros n h Hc Hh Hn Hb [|i] x; cbn [lookup list_lookup].
  - intros [= <-]. lia.
  - done.
  - intros [= <-]. lia.
  - cbn [contiguous] in Hc. apply andb_true_iff in Hc as [E Hc]. apply Z.eqb_eq in E. fold (number_of h) (number_of h') in E.
    unfold zlen in Hb. cbn [length] in Hb. rewrite uint64_id in E by (unfold is_uint64; lia). intros Hx.
    rewrite (IH (n + 1) h') with (i := i); [lia|done|lia|lia|unfold zlen; cbn [length]; lia|done].
Qed.

Lemma headers_next_ok epoch hs : ∀ n s s',
  0 <= n → votes_ok s → recents_ok n (sn_Signers s) (sn_Recents s) →
  (∀ i x, hs !! i = Some x → number_of x = n + 1 + Z.of_nat i) → headers_next epoch hs s = inl s' →
  abs s' = foldl (ballot_step epoch) (abs s) hs ∧ votes_ok s' ∧ recents_ok (n + zlen hs) (sn_Signers s') (sn_Recents s') ∧
  sn_config s' = sn_config s ∧ sn_Number s' = sn_Number s.
Proof.
  induction hs as [|h hs IH]; intros n s s' Hn Hv Hr Hnum; cbn [headers_next foldl].
  { intros [= <-]. split_and!; [done|done| |done|done]. unfold zlen. cbn. by rewrite Z.add_0_r. }
  destruct (header_next epoch h s) as [s1|] eqn:E1; [|done]. intros E2.
  destruct (header_next_ok epoch n h s s1) as (A1 & V1 & R1 & C1 & N1); [done..| |done|].
  { rewrite (Hnum 0%nat h) by done. lia. }
  destruct (IH (n + 1) s1 s') as (A2 & V2 & R2 & C2 & N2); [lia|done|done| |done|].
  { intros i x Hx. rewrite (Hnum (S i) x) by done. lia. }
  rewrite A2, A1, C2, N2. split_and!; try done. unfold zlen in *. cbn [length]. by replace (n + Z.of_nat (S (length hs))) with (n + 1 + Z.of_nat (length hs)) by lia.
Qed.

Lemma apply_next_ok s hs s' :
  snap_ok s → sn_Number s + zlen hs < 2 ^ 64 → apply_next s hs = inl s' →
  snap_ok s' ∧ sn_Number s' = sn_Number s + zlen hs ∧ sn_config s' = sn_config s ∧
  abs s' = foldl (ballot_step (cliqueEpoch (sn_config s))) (abs s) hs.
Proof.
  intros [Hn Hv Hr] Hb. destruct hs as [|h hs].
  { cbn. intros [= <-]. unfold zlen. cbn. rewrite Z.add_0_r. done. }
  unfold apply_next. destruct (contiguous (h :: hs)) eqn:Ec; [|done]. destruct (Z.eqb_spec (number_of h) (uint64 (sn_Number s + 1))) as [Eh|]; [|done].
  cbn [negb orb]. pose proof (zlen_nonneg hs). assert (zlen (h :: hs) = zlen hs + 1) as El by (unfold zlen; cbn [length]; lia).
  rewrite uint64_id in Eh by (unfold is_uint64; lia).
  destruct (headers_next _ (h :: hs) s) as [s1|] eqn:E1; [|done]. intros [= <-].
  destruct (headers_next_ok _ _ (sn_Number s) s s1 Hn Hv Hr (contiguous_numbers _ _ _ Ec Eh Hn Hb) E1) as (A & V & R & C & N).
  rewrite N. rewrite uint64_id by (unfold is_uint64; lia). split; [split; [cbn; lia|done|done]|done].
Qed.
End Run.

(** ** Piecewise *)

(** The configuration, the number and the hash of a snapshot play no role until
    the end. *)
Definition relabel (config : CliqueConfig) (n : Z) (hash : Hash) (s : Snapshot) : Snapshot :=
  {| sn_config := config; sn_Number := n; sn_Hash := hash; sn_Signers := sn_Signers s;
     sn_Recents := sn_Recents s; sn_Votes := sn_Votes s; sn_Tally := sn_Tally s |}.

Section Renumber.
Context (config : CliqueConfig) (n : Z) (hash : Hash).
Notation renumber := (relabel config n hash).

Lemma uncast_renumber a au s : (uncast a au (renumber s)).2 = renumber (uncast a au s).2.
Proof. unfold uncast. cbn. destruct (sn_Tally s !! a) as [t|]; [|done]. destruct (Bool.eqb _ _); [|done]. by destruct (_ >? _). Qed.

Lemma discard_votes_of_renumber a vs : ∀ s,
  discard_votes_of a vs (renumber s) = ((discard_votes_of a vs s).1, renumber (discard_votes_of a vs s).2).
Proof.
  induction vs as [|v vs IH]; intros s; cbn [discard_votes_of]; [done|].
  destruct (_ =? _); [by rewrite uncast_renumber, IH|]. rewrite IH. by destruct (discard_votes_of a vs s).
Qed.

Lemma shift_renumber k s : shift_recents k (renumber s) = renumber (shift_recents k s).
Proof. unfold shift_recents, sign_limit. cbn. by destruct (_ <=? _). Qed.

Lemma discard_previous_renumber x a s : discard_previous x a (renumber s) = renumber (discard_previous x a s).
Proof. unfold discard_previous. cbn. destruct (list_find _ _) as [[i v]|]; [|done]. by rewrite uncast_renumber. Qed.

Lemma cast_renumber a au s : cast a au (renumber s) = ((cast a au s).1, renumber (cast a au s).2).
Proof. unfold cast, validVote. cbn. destruct (negb _); [done|]. by destruct (sn_Tally s !! a). Qed.

Lemma pass_vote_renumber k a s : pass_vote k a (renumber s) = renumber (pass_vote k a s).
Proof.
  unfold pass_vote. cbn [sn_Tally sn_Signers relabel]. destruct (_ >? _); [|done]. destruct (t_Authorize _); [done|].
  change (with_Signers ?S (renumber s)) with (renumber (with_Signers S s)). rewrite shift_renumber, discard_votes_of_renumber.
  cbn [sn_Votes relabel]. by destruct (discard_votes_of _ _ _).
Qed.

Lemma before_signer_renumber epoch k s : before_signer epoch k (renumber s) = renumber (before_signer epoch k s).
Proof. unfold before_signer. rewrite <-shift_renumber. by destruct (_ =? 0). Qed.

Lemma apply_signed_renumber k h x s :
  apply_signed k h x (renumber s) = match apply_signed k h x s with inl s => inl (renumber s) | inr err => inr err end.
Proof.
  unfold apply_signed. cbn [sn_Signers sn_Recents relabel]. destruct (negb _); [done|]. destruct (bool_decide _); [done|].
  change (with_Recents ?R (renumber s)) with (renumber (with_Recents R s)). rewrite discard_previous_renumber.
  destruct (vote_nonce _) as [au|]; [|done]. rewrite cast_renumber. destruct (cast _ _ _) as [[|] s1]; cbn [fst snd].
  - change (with_Votes ?V (renumber s1)) with (renumber (with_Votes V s1)). by rewrite pass_vote_renumber.
  - by rewrite pass_vote_renumber.
Qed.

Lemma headers_next_renumber `{!Crypto} epoch hs : ∀ s,
  headers_next epoch hs (renumber s) = match headers_next epoch hs s with inl s => inl (renumber s) | inr err => inr err end.
Proof.
  induction hs as [|h hs IH]; intros s; cbn [headers_next]; [done|]. unfold header_next. destruct (recovered h) as [x|]; [|done].
  rewrite before_signer_renumber, apply_signed_renumber. destruct (apply_signed _ _ _ _); [apply IH|done].
Qed.
End Renumber.

Lemma last_default {A} (x : A) l a b : List.last (x :: l) a = List.last (x :: l) b.
Proof. revert x. induction l as [|y l IH]; intros x; [done|]. exact (IH y). Qed.

Lemma last_lookup_cons {A} (x : A) l a : (x :: l) !! length l = Some (List.last (x :: l) a).
Proof. revert x. induction l as [|y l IH]; intros x; [done|]. exact (IH y). Qed.

Section Pieces.
Context `{!Crypto}.

Lemma headers_next_app epoch hs1 hs2 : ∀ s,
  headers_next epoch (hs1 ++ hs2) s =
  match headers_next epoch hs1 s with inl s1 => headers_next epoch hs2 s1 | inr err => inr err end.
Proof.
  induction hs1 as [|h hs1 IH]; intros s; cbn [app headers_next]; [done|]. destruct (header_next _ _ _); [apply IH|done].
Qed.

Lemma contiguous_app h1 hs1 h2 hs2 :
  contiguous ((h1 :: hs1) ++ h2 :: hs2) =
  contiguous (h1 :: hs1) && (number_of h2 =? uint64 (number_of (List.last (h1 :: hs1) h1) + 1)) && contiguous (h2 :: hs2).
Proof.
  revert h1. induction hs1 as [|h hs1 IH]; intros h1.
  - cbn [app contiguous]. by rewrite andb_true_l.
  - change ((h1 :: h :: hs1) ++ h2 :: hs2) with (h1 :: (h :: hs1) ++ h2 :: hs2).
    change (contiguous (h1 :: (h :: hs1) ++ h2 :: hs2)) with
      ((Uint64 (Block.Number h) =? uint64 (Uint64 (Block.Number h1) + 1)) && contiguous ((h :: hs1) ++ h2 :: hs2)).
    change (List.last (h1 :: h :: hs1) h1) with (List.last (h :: hs1) h1). rewrite IH, (last_default h hs1 h1 h).
    change (contiguous (h1 :: h :: hs1)) with
      ((Uint64 (Block.Number h) =? uint64 (Uint64 (Block.Number h1) + 1)) && contiguous (h :: hs1)).
    by rewrite !andb_assoc.
Qed.

(** The number of the last header of a run that can be applied. *)
Lemma last_number s h hs :
  0 <= sn_Number s → sn_Number s + zlen (h :: hs) < 2 ^ 64 → contiguous (h :: hs) = true → number_of h = sn_Number s + 1 →
  number_of (List.last (h :: hs) h) = sn_Number s + zlen (h :: hs).
Proof.
  intros Hn Hb Hc Hh. rewrite (contiguous_numbers _ _ _ Hc Hh Hn Hb (length hs)).
  - unfold zlen. cbn [length]. lia.
  - apply last_lookup_cons.
Qed.

Lemma zlen_cons {A} (x : A) l : zlen (x :: l) = zlen l + 1.
Proof. unfold zlen. cbn [length]. lia. Qed.

Lemma headers_next_labels epoch hs s s' :
  headers_next epoch hs s = inl s' → sn_Number s' = sn_Number s ∧ sn_config s' = sn_config s.
Proof.
  assert (s = relabel (sn_config s) (sn_Number s) (sn_Hash s) s) as E by by destruct s. rewrite E at 1.
  rewrite headers_next_renumber. destruct (headers_next epoch hs s); [|done]. by intros [= <-].
Qed.

Lemma apply_next_cons s h hs s' :
  apply_next s (h :: hs) = inl s' ↔ contiguous (h :: hs) = true ∧ number_of h = uint64 (sn_Number s + 1) ∧
    ∃ s1, headers_next (cliqueEpoch (sn_config s)) (h :: hs) s = inl s1 ∧
      s' = relabel (sn_config s) (uint64 (sn_Number s + zlen (h :: hs))) (Header_Hash (List.last (h :: hs) h)) s1.
Proof.
  unfold apply_next. destruct (contiguous (h :: hs)); [|naive_solver]. destruct (Z.eqb_spec (number_of h) (uint64 (sn_Number s + 1))); [|naive_solver].
  cbn [negb orb]. destruct (headers_next _ (h :: hs) s) as [s1|] eqn:E; [|naive_solver].
  apply headers_next_labels in E as [E1 E2]. unfold with_Number_Hash, relabel. rewrite E1, E2. naive_solver.
Qed.

(** Headers can be applied in one go or in two. *)
Lemma apply_next_app s hs1 hs2 s2 :
  0 <= sn_Number s → sn_Number s + zlen (hs1 ++ hs2) < 2 ^ 64 →
  apply_next s (hs1 ++ hs2) = inl s2 ↔ ∃ s1, apply_next s hs1 = inl s1 ∧ apply_next s1 hs2 = inl s2.
Proof.
  intros Hn Hb. destruct hs1 as [|h1 hs1]; [split; [by eexists|by intros (? & [= ->] & ?)]|].
  destruct hs2 as [|h2 hs2]; [rewrite app_nil_r; split; [by eexists|by intros (? & ? & [= ->])]|].
  rewrite zlen_app, !zlen_cons in Hb. pose proof (zlen_nonneg hs1). pose proof (zlen_nonneg hs2).
  assert (∀ l, (h1 :: hs1) ++ l = h1 :: (hs1 ++ l)) as Ec by done.
  assert (uint64 (sn_Number s + 1) = sn_Number s + 1) as E1 by (apply uint64_id; unfold is_uint64; lia).
  assert (List.last ((h1 :: hs1) ++ h2 :: hs2) h1 = List.last (h2 :: hs2) h2) as El.
  { apply (inj Some). rewrite Ec, <-last_lookup_cons, <-Ec, <-last_lookup_cons. rewrite lookup_app_r; rewrite length_app; cbn [length]; [f_equal; lia|lia]. }
  rewrite Ec, apply_next_cons, <-Ec, headers_next_app, contiguous_app, El, zlen_app, !andb_true_iff, Z.eqb_eq.
  split.
  - intros (([Hc1 Hj] & Hc2) & Hh1 & s1 & Es1 & ->). rewrite E1 in Hh1.
    destruct (headers_next _ (h1 :: hs1) s) as [s0|] eqn:E0; [|done]. eexists. split; [by apply apply_next_cons; rewrite E1; eauto|].
    apply apply_next_cons. cbn [sn_Number sn_config relabel]. rewrite headers_next_renumber, Es1.
    rewrite (last_number s) in Hj by (rewrite ?zlen_cons; done || lia). rewrite (uint64_id (sn_Number s + zlen (h1 :: hs1))) by (unfold is_uint64; rewrite zlen_cons; lia).
    split_and!; [done|done|]. eexists. split; [done|]. unfold relabel. cbn. by rewrite Z.add_assoc.
  - intros (s1 & (Hc1 & Hh1 & s0 & Es0 & ->)%apply_next_cons & E2). apply apply_next_cons in E2 as (Hc2 & Hh2 & s3 & Es3 & ->).
    cbn [sn_Number sn_config relabel] in *. rewrite headers_next_renumber in Es3. rewrite Es0. rewrite E1 in Hh1.
    rewrite (uint64_id (sn_Number s + zlen (h1 :: hs1))) in * by (unfold is_uint64; rewrite zlen_cons; lia).
    destruct (headers_next _ (h2 :: hs2) s0) as [s4|] eqn:E4; [|done]. injection Es3 as <-.
    split_and!; [done| |done|by rewrite E1|]. { rewrite Hh2. by rewrite (last_number s) by (rewrite ?zlen_cons; done || lia). }
    eexists. split; [done|]. unfold relabel. cbn. by rewrite Z.add_assoc.
Qed.
End Pieces.

(** ** One more header *)

Lemma before_signer_fields epoch n s :
  sn_Signers (before_signer epoch n s) = sn_Signers s ∧
  sn_Recents (before_signer epoch n s) =
    (if sign_limit s <=? n then delete (n - sign_limit s) (sn_Recents s) else sn_Recents s).
Proof. unfold before_signer, shift_recents. destruct (n mod epoch =? 0); cbn; by destruct (_ <=? _). Qed.

(** A header is accepted when its signer is one, is not in the window that is
    left, and its vote is well formed. *)
Lemma apply_one `{!Crypto} s h x :
  0 <= sn_Number s → sn_Number s + 1 < 2 ^ 64 → number_of h = sn_Number s + 1 → recovered h = inl x → x ∈ sn_Signers s →
  (∀ seen, sn_Recents s !! seen = Some x → sign_limit s <= number_of h ∧ seen = number_of h - sign_limit s) →
  is_Some (vote_nonce (Block.Nonce h)) → ∃ s', apply_next s [h] = inl s'.
Proof.
  intros Hn Hb Eh Er Hx Hrec [au Ea]. unfold apply_next. rewrite uint64_id by (unfold is_uint64; lia). rewrite Eh, Z.eqb_refl.
  cbn [contiguous negb orb headers_next]. unfold header_next. rewrite Er. unfold apply_signed.
  destruct (before_signer_fields (cliqueEpoch (sn_config s)) (number_of h) s) as [-> ->].
  rewrite bool_decide_true by done. rewrite bool_decide_false.
  2: { intros (k & y & Hk & ->). destruct (Z.leb_spec (sign_limit s) (number_of h)) as [Hle|Hgt].
       - apply lookup_delete_Some in Hk as [Hne Hk]. destruct (Hrec k Hk). lia.
       - destruct (Hrec k Hk). lia. }
  rewrite Ea. cbn [negb]. destruct (cast _ _ _). by eexists.
Qed.

(** A signer of the window that is left is refused. *)
Lemma apply_refused `{!Crypto} s h x seen :
  0 <= sn_Number s → sn_Number s + 1 < 2 ^ 64 → number_of h = sn_Number s + 1 → recovered h = inl x →
  sn_Recents s !! seen = Some x → (sign_limit s <= number_of h → seen ≠ number_of h - sign_limit s) →
  apply_next s [h] = inr errUnauthorized.
Proof.
  intros Hn Hb Eh Er Hseen Hne. unfold apply_next. rewrite uint64_id by (unfold is_uint64; lia). rewrite Eh, Z.eqb_refl.
  cbn [contiguous negb orb headers_next]. unfold header_next. rewrite Er. unfold apply_signed.
  destruct (before_signer_fields (cliqueEpoch (sn_config s)) (number_of h) s) as [-> ->].
  destruct (bool_decide (x ∈ sn_Signers s)); [|done]. cbn [negb]. rewrite bool_decide_true; [done|]. exists seen, x. split; [|done].
  destruct (Z.leb_spec (sign_limit s) (number_of h)); [|done]. rewrite lookup_delete_ne; [done|]. intros E. by apply Hne.
Qed.
