(* ===== verification/CliqueEngine.v ===== *)
(** * Proof of authority: the engine

    [consensus/clique/clique.go], and what [consensus/clique/api.go] changes.  The
    chain, the clock, the source of random numbers and the signing function are
    parameters; so is the encoding of snapshots on disk ([encoding/json] with the
    tags of the structures), of which it is assumed that it can be read back. *)
From stdpp Require Import sorting.
From S2P Require Import Prelude BigMath Params OpCodes VmAnalysis VmMemory Rlp VmTypes VmLaws Chain BlockTypes Yochash TrieDb CliqueVotes.

Notation checkpointInterval := 1024 (only parsing).
Notation inmemorySnapshots := 128 (only parsing).
Notation inmemorySignatures := 4096 (only parsing).
Notation epochLength := 30000 (only parsing).
Notation diffInTurn := 2 (only parsing).
Notation diffNoTurn := 1 (only parsing).

Definition with_config (config : CliqueConfig) (s : Snapshot) : Snapshot :=
  {| sn_config := config; sn_Number := sn_Number s; sn_Hash := sn_Hash s; sn_Signers := sn_Signers s;
     sn_Recents := sn_Recents s; sn_Votes := sn_Votes s; sn_Tally := sn_Tally s |}.

(** [json.Marshal] and [json.Unmarshal] on a snapshot; the configuration is not
    among the fields that are written. *)
Class SnapshotCodec := {
  Marshal : Snapshot → list byte;
  Unmarshal : list byte → option Snapshot;
  Unmarshal_Marshal config s : with_config config <$> Unmarshal (Marshal s) = Some (with_config config s)
}.

Section Engine.
Context `{!Crypto} `{!ARCCache} `{!SnapshotCodec} `{!MapOrder}.

Record Clique := {
  c_config : CliqueConfig;
  c_db : MemDatabase;
  c_recents : Cache Snapshot;
  c_signatures : Cache Address;
  c_proposals : gmap Address bool;
  c_signer : Address
}.

Definition with_db (x : MemDatabase) (c : Clique) : Clique :=
  {| c_config := c_config c; c_db := x; c_recents := c_recents c; c_signatures := c_signatures c;
     c_proposals := c_proposals c; c_signer := c_signer c |}.
Definition with_recents (x : Cache Snapshot) (c : Clique) : Clique :=
  {| c_config := c_config c; c_db := c_db c; c_recents := x; c_signatures := c_signatures c;
     c_proposals := c_proposals c; c_signer := c_signer c |}.
Definition with_signatures (x : Cache Address) (c : Clique) : Clique :=
  {| c_config := c_config c; c_db := c_db c; c_recents := c_recents c; c_signatures := x;
     c_proposals := c_proposals c; c_signer := c_signer c |}.
Definition with_proposals (x : gmap Address bool) (c : Clique) : Clique :=
  {| c_config := c_config c; c_db := c_db c; c_recents := c_recents c; c_signatures := c_signatures c;
     c_proposals := x; c_signer := c_signer c |}.

Definition New (config : CliqueConfig) (db : MemDatabase) : Clique :=
  {| c_config := {| cliquePeriod := cliquePeriod config;
                    cliqueEpoch := if cliqueEpoch config =? 0 then epochLength else cliqueEpoch config |};
     c_db := db; c_recents := NewARC inmemorySnapshots; c_signatures := NewARC inmemorySignatures;
     c_proposals := ∅; c_signer := 0 |}.

Definition Authorize (signer : Address) : M Clique () :=
  modify (λ c, {| c_config := c_config c; c_db := c_db c; c_recents := c_recents c; c_signatures := c_signatures c;
                  c_proposals := c_proposals c; c_signer := signer |}).

Definition Propose (address : Address) (auth : bool) : M Clique () :=
  modify (λ c, with_proposals (<[address := auth]> (c_proposals c)) c).
Definition Discard (address : Address) : M Clique () :=
  modify (λ c, with_proposals (delete address (c_proposals c)) c).

Definition on_signatures {A} (m : M (Cache Address) A) : M Clique A := zoom c_signatures with_signatures m.

Definition Author (header : Header) : M Clique (Address + clique_error) := on_signatures (ecrecover header).

(** ** Snapshots on disk *)

(** "clique-" *)
Definition snapshot_key (hash : Hash) : list byte :=
  (zb <$> [0x63; 0x6c; 0x69; 0x71; 0x75; 0x65; 0x2d]) ++ HashBytes hash.

Definition loadSnapshot (hash : Hash) : M Clique (option Snapshot) :=
  gets (λ c, blob ← mem_Get (c_db c) (snapshot_key hash); with_config (c_config c) <$> Unmarshal blob).

Definition store (s : Snapshot) : M Clique () :=
  modify (λ c, with_db (mem_Put (snapshot_key (sn_Hash s)) (Marshal s) (c_db c)) c).

(** ** Checks of a header *)

Context (GetHeader : Hash → Z → option Header) (GetHeaderByNumber : Z → option Header).
Context (config : ChainConfig) (now : Z).

Notation result := (() + clique_error)%type.

(** What the header alone decides; an epoch of 0 is a division by zero. *)
Definition verify_alone (epoch : Z) (header : Header) : result :=
  let number := Uint64 (Block.Number header) in
  let checkpoint := number mod epoch =? 0 in
  let signersBytes := zlen (Block.Extra header) - extraVanity - extraSeal in
  if Block.Time header >? now then inr ErrFutureBlock
  else if checkpoint && negb (Block.Coinbase header =? 0) then inr errInvalidCheckpointBeneficiary
  else if negb (Block.Nonce header =? nonceAuthVote) && negb (Block.Nonce header =? nonceDropVote) then inr errInvalidVote
  else if checkpoint && negb (Block.Nonce header =? nonceDropVote) then inr errInvalidCheckpointVote
  else if zlen (Block.Extra header) <? extraVanity then inr errMissingVanity
  else if zlen (Block.Extra header) <? extraVanity + extraSeal then inr errMissingSignature
  else if negb checkpoint && negb (signersBytes =? 0) then inr errExtraSigners
  else if checkpoint && negb (signersBytes mod Z.of_nat AddressLength =? 0) then inr errInvalidCheckpointSigners
  else if negb (Block.MixDigest header =? 0) then inr errInvalidMixDigest
  else if negb (Block.UncleHash header =? CalcUncleHash []) then inr errInvalidUncleHash
  else if (number >? 0) && negb (Block.Difficulty header =? diffInTurn) && negb (Block.Difficulty header =? diffNoTurn)
  then inr errInvalidDifficulty
  else
    match VerifyForkHashes config header false with
    | Some _ => inr errForkHash
    | None => inl ()
    end.

Section Verify.
(** [c.snapshot(chain, number, hash, parents)], which verifies the first header
    of the chain with the functions here. *)
Context (snapshot : Z → Hash → list Header → M Clique (Snapshot + clique_error)).

Definition verifySeal (header : Header) (parents : list Header) : M Clique result :=
  let number := Uint64 (Block.Number header) in
  if number =? 0 then mret (inr errUnknownBlock)
  else
    snap ←? snapshot (uint64 (number - 1)) (Block.ParentHash header) parents;
    signer ←? on_signatures (ecrecover header);
    if negb (bool_decide (signer ∈ sn_Signers snap)) then mret (inr errUnauthorized)
    else if bool_decide (map_Exists (λ seen recent, recent = signer ∧ seen > uint64 (number - sign_limit snap))
                           (sn_Recents snap))
    then mret (inr errUnauthorized)
    else
      turn ← must (inturn snap number signer);
      if turn && negb (Block.Difficulty header =? diffInTurn) then mret (inr errInvalidDifficulty)
      else if negb turn && negb (Block.Difficulty header =? diffNoTurn) then mret (inr errInvalidDifficulty)
      else mret (inl ()).

Definition verifyCascadingFields (header : Header) (parents : list Header) : M Clique result :=
  let number := Uint64 (Block.Number header) in
  if number =? 0 then mret (inl ())
  else
    let parent := match list.last parents with
                  | Some parent => Some parent
                  | None => GetHeader (Block.ParentHash header) (uint64 (number - 1))
                  end in
    match parent with
    | None => mret (inr ErrUnknownAncestor)
    | Some parent =>
        if negb (Uint64 (Block.Number parent) =? uint64 (number - 1)) || negb (Header_Hash parent =? Block.ParentHash header)
        then mret (inr ErrUnknownAncestor)
        else
          c ← gets c_config;
          if uint64 (Uint64 (Block.Time parent) + cliquePeriod c) >? Uint64 (Block.Time header)
          then mret (inr ErrInvalidTimestamp)
          else
            snap ←? snapshot (uint64 (number - 1)) (Block.ParentHash header) parents;
            if (number mod cliqueEpoch c =? 0) &&
               negb (bool_decide (take (length (Block.Extra header) - 97) (drop 32 (Block.Extra header)) =
                                  concat (AddressBytes <$> signers snap)))
            then mret (inr errInvalidCheckpointSigners)
            else verifySeal header parents
    end.

Definition verifyHeader (header : Header) (parents : list Header) : M Clique result :=
  c ← gets c_config;
  if (cliqueEpoch c =? 0) && negb (Block.Time header >? now) then panic
  else
    match verify_alone (cliqueEpoch c) header with
    | inr err => mret (inr err)
    | inl _ => verifyCascadingFields header parents
    end.
End Verify.

(** ** Snapshots *)

(** The signers listed in the extra data of the first header. *)
Definition genesis_signers (extra : list byte) : list Address :=
  (λ i, BytesToAddress (take AddressLength (drop (32 + i * AddressLength) extra))) <$> seq 0 ((length extra - 97) / AddressLength).

(** In memory, or at a checkpoint on disk. *)
Definition known_snapshot (number : Z) (hash : Hash) : M Clique (option Snapshot) :=
  cached ← (λ c, let '(o, r) := cache_Get hash (c_recents c) in Done o (with_recents r c));
  match cached with
  | Some s => mret (Some s)
  | None => if number mod checkpointInterval =? 0 then loadSnapshot hash else mret None
  end.

(** The search for a known snapshot: going back from a header, gathering headers. *)
Fixpoint find_snapshot (verify : Header → M Clique result) (fuel : nat) (number : Z) (hash : Hash) (parents headers : list Header)
    : M Clique ((Snapshot * list Header) + clique_error) :=
  match fuel with
  | O => fail OutOfFuel
  | S fuel =>
      found ← known_snapshot number hash;
      match found with
      | Some s => mret (inl (s, headers))
      | None =>
          if number =? 0 then
            genesis ← must (GetHeaderByNumber 0);
            _ ←? verify genesis;
            c ← gets c_config;
            let snap := newSnapshot c 0 (Header_Hash genesis) (genesis_signers (Block.Extra genesis)) in
            _ ← store snap;
            mret (inl (snap, headers))
          else
            match list.last parents with
            | Some header =>
                if negb (Header_Hash header =? hash) || negb (Uint64 (Block.Number header) =? number)
                then mret (inr ErrUnknownAncestor)
                else find_snapshot verify fuel (uint64 (number - 1)) (Block.ParentHash header)
                       (take (length parents - 1) parents) (headers ++ [header])
            | None =>
                match GetHeader hash number with
                | None => mret (inr ErrUnknownAncestor)
                | Some header => find_snapshot verify fuel (uint64 (number - 1)) (Block.ParentHash header) [] (headers ++ [header])
                end
            end
      end
  end.

(** [depth] bounds how often the verification of the first header asks for a
    snapshot again, which it does only if its number is not 0. *)
Fixpoint snapshot (depth : nat) (number : Z) (hash : Hash) (parents : list Header) : M Clique (Snapshot + clique_error) :=
  match depth with
  | O => fail OutOfFuel
  | S depth =>
      found ←? find_snapshot (λ h, verifyHeader (snapshot depth) h []) (S (Z.to_nat number)) number hash parents [];
      let '(snap, headers) := found in
      snap ←? on_signatures (apply snap (reverse headers));
      _ ← modify (λ c, with_recents (cache_Add (sn_Hash snap) snap (c_recents c)) c);
      _ ← (if (sn_Number snap mod checkpointInterval =? 0) && negb (length headers =? 0)%nat then store snap else mret ());
      mret (inl snap)
  end.

Context (depth : nat).

Definition VerifyHeader (header : Header) : M Clique result := verifyHeader (snapshot depth) header [].
Definition VerifySeal (header : Header) : M Clique result := verifySeal (snapshot depth) header [].

(** The results for a batch that is not aborted, each header with those before it. *)
Fixpoint verify_batch (before headers : list Header) : M Clique (list result) :=
  match headers with
  | [] => mret []
  | header :: headers =>
      r ← verifyHeader (snapshot depth) header before;
      rs ← verify_batch (before ++ [header]) headers;
      mret (r :: rs)
  end.
Definition VerifyHeaders (headers : list Header) : M Clique (list result) := verify_batch [] headers.

Definition VerifyUncles (uncles : list Header) : result :=
  if (0 <? length uncles)%nat then inr errUnclesNotAllowed else inl ().

(** ** Making blocks *)

Definition calc_difficulty (snap : Snapshot) (signer : Address) : option Z :=
  turn ← inturn snap (uint64 (sn_Number snap + 1)) signer;
  Some (if (turn : bool) then diffInTurn else diffNoTurn).

(** No difficulty when there is no snapshot. *)
Definition CalcDifficulty (parent : Header) : M Clique (option Z) :=
  r ← snapshot depth (Uint64 (Block.Number parent)) (Header_Hash parent) [];
  match r with
  | inr _ => mret None
  | inl snap => signer ← gets c_signer; d ← must (calc_difficulty snap signer); mret (Some d)
  end.

Context (Intn : nat → nat).

(** The vote that goes into a header: the account and the nonce. *)
Definition pick_vote (snap : Snapshot) (proposals : gmap Address bool) : option (Address * Z) :=
  let addresses := fst <$> filter (λ p, validVote snap p.1 p.2 = true) (range proposals) in
  match addresses with
  | [] => Some (0, 0)
  | _ =>
      coinbase ← addresses !! Intn (length addresses);
      Some (coinbase, if default false (proposals !! coinbase) then nonceAuthVote else nonceDropVote)
  end.

Definition prepared_extra (checkpoint : bool) (snap : Snapshot) (extra : list byte) : list byte :=
  let extra := if zlen extra <? extraVanity then extra ++ zeros (32 - length extra) else extra in
  take 32 extra ++ (if checkpoint then concat (AddressBytes <$> signers snap) else []) ++ zeros 65.

Definition Prepare (header : Header) : M Clique (Header + clique_error) :=
  let number := Uint64 (Block.Number header) in
  snap ←? snapshot depth (uint64 (number - 1)) (Block.ParentHash header) [];
  c ← gets c_config;
  if cliqueEpoch c =? 0 then panic
  else
    let checkpoint := number mod cliqueEpoch c =? 0 in
    proposals ← gets c_proposals;
    '(coinbase, nonce) ← must (if checkpoint then Some (0, 0) else pick_vote snap proposals);
    signer ← gets c_signer;
    difficulty ← must (calc_difficulty snap signer);
    match GetHeader (Block.ParentHash header) (uint64 (number - 1)) with
    | None => mret (inr ErrUnknownAncestor)
    | Some parent =>
        let time := Block.Time parent + cliquePeriod c in
        mret (inl {| Block.ParentHash := Block.ParentHash header; Block.UncleHash := Block.UncleHash header;
                     Block.Coinbase := coinbase; Block.Root := Block.Root header; Block.TxHash := Block.TxHash header;
                     Block.ReceiptHash := Block.ReceiptHash header; Block.Bloom := Block.Bloom header;
                     Block.Difficulty := difficulty; Block.Number := Block.Number header;
                     Block.GasLimit := Block.GasLimit header; Block.GasUsed := Block.GasUsed header;
                     Block.Time := if Int64 time <? now then now else time;
                     Block.Extra := prepared_extra checkpoint snap (Block.Extra header);
                     Block.MixDigest := 0; Block.Nonce := nonce |})
    end.

Definition with_Extra (extra : list byte) (h : Header) : Header :=
  {| Block.ParentHash := Block.ParentHash h; Block.UncleHash := Block.UncleHash h; Block.Coinbase := Block.Coinbase h;
     Block.Root := Block.Root h; Block.TxHash := Block.TxHash h; Block.ReceiptHash := Block.ReceiptHash h;
     Block.Bloom := Block.Bloom h; Block.Difficulty := Block.Difficulty h; Block.Number := Block.Number h;
     Block.GasLimit := Block.GasLimit h; Block.GasUsed := Block.GasUsed h; Block.Time := Block.Time h;
     Block.Extra := extra; Block.MixDigest := Block.MixDigest h; Block.Nonce := Block.Nonce h |}.

(** [None] when it is stopped while it waits. *)
Notation sealing := (option Header + clique_error)%type.

(** The block has [txs] transactions; [stop] says whether the request to stop
    comes before the delay is over.  A signer that has to leave the block to
    others waits for that request. *)
Definition Seal (signFn : Address → list byte → option (list byte)) (txs : nat) (stop : bool) (header : Header)
    : M Clique sealing :=
  let number := Uint64 (Block.Number header) in
  c ← gets c_config;
  if number =? 0 then mret (inr errUnknownBlock)
  else if (cliquePeriod c =? 0) && (txs =? 0)%nat then mret (inr errWaitTransactions)
  else
    signer ← gets c_signer;
    snap ←? snapshot depth (uint64 (number - 1)) (Block.ParentHash header) [];
    if negb (bool_decide (signer ∈ sn_Signers snap)) then mret (inr errUnauthorized)
    else
      let limit := sign_limit snap in
      if bool_decide (map_Exists (λ seen recent, recent = signer ∧ (number < limit ∨ seen > uint64 (number - limit)))
                        (sn_Recents snap))
      then mret (inl None)
      else if stop then mret (inl None)
      else
        sighash ← must (sigHash header);
        match signFn signer (HashBytes sighash) with
        | None => mret (inr errSign)
        | Some sig =>
            let n := (length (Block.Extra header) - 65)%nat in
            mret (inl (Some (with_Extra (take n (Block.Extra header) ++ overlay sig (drop n (Block.Extra header))) header)))
        end.
End Engine.
