(* ===== verification/CliqueSample.v ===== *)
(** * Proof of authority: a concrete chain

    A cache that remembers everything, a way to write snapshots to disk, a
    signature scheme and a chain with four signers: the parameters of the clique
    engine can be met, and these are the values of the concrete runs. *)
From stdpp Require Import sorting.
From S2P Require Import Prelude BigMath Params OpCodes VmAnalysis VmMemory Rlp VmTypes VmLaws Chain BlockTypes Yochash TrieDb CliqueVotes CliqueVotesOk CliqueApply CliqueEngine.

(** ** Parameters *)

#[refine] Definition map_cache : ARCCache := {|
  Cache := λ V, gmap Hash V; NewARC := λ _ _, ∅; cache_Get := λ _ k c, (c !! k, c); cache_Add := λ _ k v c, <[k := v]> c;
  contains := λ _ c k v, c !! k = Some v |}.
Proof.
  - done.
  - by intros V c k v c' [= ? <-].
  - by intros V c k c' o k' v' [= _ <-].
  - intros V c k v k' v' [[-> ->]|[_ ?]]%lookup_insert_Some; auto.
Defined.

#[global] Instance config_eq_dec : EqDecision CliqueConfig.
Proof. solve_decision. Defined.
#[global] Instance vote_eq_dec : EqDecision Vote.
Proof. solve_decision. Defined.
#[global] Instance tally_eq_dec : EqDecision Tally.
Proof. solve_decision. Defined.
#[global] Instance snapshot_eq_dec : EqDecision Snapshot.
Proof. solve_decision. Defined.

#[global] Program Instance vote_countable : Countable Vote :=
  inj_countable' (λ v, (v_Signer v, v_Block v, v_Address v, v_Authorize v))
    (λ '(a, b, c, d), {| v_Signer := a; v_Block := b; v_Address := c; v_Authorize := d |}) _.
Next Obligation. by intros []. Qed.
#[global] Program Instance tally_countable : Countable Tally :=
  inj_countable' (λ t, (t_Authorize t, t_Votes t)) (λ '(a, b), {| t_Authorize := a; t_Votes := b |}) _.
Next Obligation. by intros []. Qed.
#[global] Program Instance snapshot_countable : Countable Snapshot :=
  inj_countable' (λ s, (cliquePeriod (sn_config s), cliqueEpoch (sn_config s), sn_Number s, sn_Hash s, sn_Signers s, sn_Recents s,
                        sn_Votes s, sn_Tally s))
    (λ '(a, b, c, d, e, f, g, h), {| sn_config := {| cliquePeriod := a; cliqueEpoch := b |}; sn_Number := c; sn_Hash := d;
       sn_Signers := e; sn_Recents := f; sn_Votes := g; sn_Tally := h |}) _.
Next Obligation. by intros [[]]. Qed.

#[refine] Definition number_codec : SnapshotCodec := {|
  Marshal := λ s, Bytes (Zpos (encode s)); Unmarshal := λ b, decode (Z.to_pos (SetBytes b)) |}.
Proof. intros config s. rewrite SetBytes_Bytes. change (Z.to_pos (Z.abs (Z.pos (encode s)))) with (encode s). by rewrite decode_encode. Defined.

(** A checksum in the place of the hash, except on public keys. *)
Definition clique_hash (l : list byte) : Z :=
  if (length l =? 64)%nat then SetBytes l else foldl (λ acc b, Z.land (acc * 5 + bz b + 1) 0xffffff) 0 l.

(** A signature is the address of the signer. *)
#[refine] Definition clique_crypto : Crypto :=
  {| Keccak256 := λ l, be_bytes 32 (clique_hash l); sha256_Sum256 := λ _, zeros 32; ripemd160_Sum := λ _, zeros 20;
     Ecrecover := λ h sig, Some (zb 4 :: be_bytes 64 (SetBytes (take 64 sig))); G1 := (); G2 := ();
     G1_Unmarshal := λ _, Some (); G2_Unmarshal := λ _, Some (); G1_Marshal := λ _, zeros 64;
     G1_Add := λ _ _, (); G1_ScalarMult := λ _ _, (); PairingCheck := λ _ _, true |}.
Proof.
  - intros. apply length_be_bytes.
  - intros. apply length_replicate.
  - intros. apply length_replicate.
  - intros h s p [= <-]. cbn [length]. by rewrite length_be_bytes.
  - done.
Defined.

Definition address_sign (a : Address) (hash : list byte) : option (list byte) := Some (be_bytes 64 a ++ [Byte.x00]).

#[global] Existing Instances map_cache number_codec clique_crypto.

(** ** A chain *)

Definition sample_clique : CliqueConfig := {| cliquePeriod := 15; cliqueEpoch := 30000 |}.

(** The first header lists four signers. *)
Definition clique_genesis : Header :=
  {| Block.ParentHash := 0; Block.UncleHash := CalcUncleHash []; Block.Coinbase := 0; Block.Root := 0; Block.TxHash := 0;
     Block.ReceiptHash := 0; Block.Bloom := 0; Block.Difficulty := 1; Block.Number := 0; Block.GasLimit := 5000; Block.GasUsed := 0;
     Block.Time := 0; Block.Extra := zeros 32 ++ concat (AddressBytes <$> [1; 2; 3; 4]) ++ zeros 65; Block.MixDigest := 0; Block.Nonce := 0 |}.

(** A block with a vote, signed by [x]. *)
Definition clique_header (parent : Header) (x coinbase nonce difficulty : Z) : Header :=
  {| Block.ParentHash := Header_Hash parent; Block.UncleHash := CalcUncleHash []; Block.Coinbase := coinbase; Block.Root := 0;
     Block.TxHash := 0; Block.ReceiptHash := 0; Block.Bloom := 0; Block.Difficulty := difficulty; Block.Number := Block.Number parent + 1;
     Block.GasLimit := 5000; Block.GasUsed := 0; Block.Time := Block.Time parent + 15;
     Block.Extra := zeros 32 ++ be_bytes 64 x ++ [Byte.x00]; Block.MixDigest := 0; Block.Nonce := nonce |}.

Definition block1 : Header := clique_header clique_genesis 1 9 0xffffffffffffffff 1.
Definition block2 : Header := clique_header block1 2 9 0xffffffffffffffff 1.
Definition block3 : Header := clique_header block2 3 9 0xffffffffffffffff 1.
(** The signer of the first block once more. *)
Definition block2_again : Header := clique_header block1 1 9 0xffffffffffffffff 1.

Definition sample_headers : list Header := [clique_genesis; block1; block2; block3; block2_again].
Definition sample_known (h : Header) : Prop := h ∈ sample_headers.

Lemma fmap_inj_on {A B} (f : A → B) l x y : NoDup (f <$> l) → x ∈ l → y ∈ l → f x = f y → x = y.
Proof.
  intros Hn [i Hi]%list_elem_of_lookup [j Hj]%list_elem_of_lookup E.
  assert (i = j) as ->; [|congruence]. apply (NoDup_lookup (f <$> l) i j (f x) Hn); rewrite list_lookup_fmap; [by rewrite Hi|by rewrite Hj, E].
Qed.

Lemma sample_inj h h' : sample_known h → sample_known h' → Header_Hash h = Header_Hash h' → h = h'.
Proof. apply fmap_inj_on. apply (bool_decide_unpack _). by vm_compute. Qed.

Lemma sample_signer : same_signer sample_known.
Proof. intros h h' Hh Hh' E. by rewrite (sample_inj h h'). Qed.

Definition no_signatures : Cache Address := NewARC 4096.

Lemma no_signatures_ok known : sigs_ok known no_signatures.
Proof. intros h a _ []%NewARC_contains. Qed.

Lemma sample_blocks : Forall sample_known [block1; block2; block3].
Proof.
  constructor; [by apply (list_elem_of_lookup_2 sample_headers 1)|]. constructor; [by apply (list_elem_of_lookup_2 sample_headers 2)|].
  constructor; [by apply (list_elem_of_lookup_2 sample_headers 3)|]. constructor.
Qed.

Definition sample_snapshot : Snapshot := newSnapshot sample_clique 0 (Header_Hash clique_genesis) [1; 2; 3; 4].

Lemma sample_snapshot_ok : snap_ok sample_snapshot.
Proof. by apply newSnapshot_ok. Qed.

Lemma sample_size : size (sn_Signers sample_snapshot) = 4%nat.
Proof. by vm_compute. Qed.

Lemma sample_recovered : recovered block1 = inl 1 ∧ recovered block2 = inl 2 ∧ recovered block3 = inl 3 ∧ recovered block2_again = inl 1.
Proof. split_and!; by vm_compute. Qed.

(** ** An engine on the chain *)

Definition sample_get (hash : Hash) (number : Z) : option Header :=
  List.find (λ h, (Header_Hash h =? hash) && (number_of h =? number)) sample_headers.
Definition sample_by_number (number : Z) : option Header := if number =? 0 then Some clique_genesis else None.

Definition sample_engine (signer : Address) : Clique :=
  match Authorize signer (New sample_clique {| entries := ∅ |}) with Done _ c => c | Fault _ => New sample_clique {| entries := ∅ |} end.

Lemma sample_get_ok :
  sample_get (Header_Hash clique_genesis) 0 = Some clique_genesis ∧ sample_get (Header_Hash block1) (number_of block1) = Some block1 ∧
  sample_get (Header_Hash block2) (number_of block2) = Some block2.
Proof. split_and!; by vm_compute. Qed.

Definition accepted {A} (r : A + clique_error) : bool := match r with inl _ => true | inr _ => false end.

Lemma accepted_inl {A} (r : A + clique_error) : accepted r = true → ∃ a, r = inl a.
Proof. destruct r; [by eexists|done]. Qed.
