(* ===== verification/CliqueTheorems.v ===== *)
(** * Proof of authority: what the vote promises

    The signers follow the rule of the vote, a majority gets what it wants, the
    chain can always go on, and how it can stop for good. *)
From stdpp Require Import sorting.
From S2P Require Import Prelude BigMath Params OpCodes VmAnalysis VmMemory Rlp VmTypes VmLaws Chain BlockTypes TrieDb CliqueVotes CliqueVotesOk CliqueApply CliqueEngine CliqueSample.

#[local] Arguments Nat.div : simpl never.

(** ** Majorities *)

Section Majority.
Context `{!Crypto}.

(** A run of votes on [a]: who casts them. *)
Definition votes_run (epoch : Z) (a : Address) (authorize : bool) (hs : list Header) (sgs : list Address) : Prop :=
  Forall2 (λ h x, recovered h = inl x ∧ Block.Coinbase h = a ∧ vote_nonce (Block.Nonce h) = Some authorize ∧
    number_of h mod epoch ≠ 0) hs sgs.

Lemma supporters_union a x votes : supporters a ({[ (x, a) ]} ∪ votes) = {[ x ]} ∪ supporters a votes.
Proof.
  apply set_eq. intros y. unfold supporters. rewrite elem_of_union, elem_of_singleton, !elem_of_map. split.
  - intros ([p q] & -> & [Hq Hp]%elem_of_filter). cbn in *. subst q. apply elem_of_union in Hp as [[= ->]%elem_of_singleton|Hp]; [by left|].
    right. exists (p, a). split; [done|]. by apply elem_of_filter.
  - intros [->|(p & -> & [Hq Hp]%elem_of_filter)].
    + exists (x, a). split; [done|]. apply elem_of_filter. split; [done|]. by apply elem_of_union_l, elem_of_singleton.
    + exists p. split; [done|]. apply elem_of_filter. split; [done|]. by apply elem_of_union_r.
Qed.

Lemma vote_step_counts x a authorize b :
  authorize = negb (bool_decide (a ∈ b_signers b)) →
  let b' := vote_step false x a authorize b in
  bool_decide (a ∈ b_signers b') = authorize ∨
  (b_signers b' = b_signers b ∧ (size (supporters a (b_votes b')) <= size (b_signers b) / 2)%nat ∧
   {[ x ]} ∪ supporters a (b_votes b) ⊆ supporters a (b_votes b')).
Proof.
  intros Ea. unfold vote_step. rewrite Ea, eqb_reflx. unfold decided. cbn [b_signers b_votes].
  destruct (decide (_ < _)%nat) as [Hs|Hs]; cbn [b_signers b_votes].
  - left. destruct (bool_decide_reflect (a ∈ b_signers b)) as [Ha|Ha]; cbn [negb].
    + rewrite decide_True by done. apply bool_decide_false. set_solver.
    + rewrite decide_False by done. apply bool_decide_true. set_solver.
  - right. split_and!; [done|lia|]. rewrite supporters_union. intros y [Hy|Hy]%elem_of_union; [by apply elem_of_union_l|].
    destruct (decide (y = x)) as [->|Hne]; [by apply elem_of_union_l, elem_of_singleton|]. apply elem_of_union_r. unfold supporters in *.
    apply elem_of_map in Hy as ([p q] & -> & [Hq Hp]%elem_of_filter). apply elem_of_map. exists (p, q). split; [done|].
    apply elem_of_filter. split; [done|]. apply elem_of_difference. split; [done|]. rewrite elem_of_singleton. cbn in Hne. congruence.
Qed.

(** Either the status of the account changes on the way, or all votes are still standing. *)
Lemma majority_run epoch a authorize hs sgs : votes_run epoch a authorize hs sgs → ∀ b,
  authorize = negb (bool_decide (a ∈ b_signers b)) →
  (∃ k, (k <= length hs)%nat ∧ bool_decide (a ∈ b_signers (foldl (ballot_step epoch) b (take k hs))) = authorize) ∨
  let b' := foldl (ballot_step epoch) b hs in
  b_signers b' = b_signers b ∧ list_to_set sgs ∪ supporters a (b_votes b) ⊆ supporters a (b_votes b') ∧
  (hs ≠ [] → (size (supporters a (b_votes b')) <= size (b_signers b) / 2)%nat).
Proof.
  induction 1 as [|h x hs sgs (Hx & Hc & Hn & He) Hrun IH]; intros b Ea; [right; split_and!; [done|by rewrite list_to_set_nil, (left_id_L ∅ (∪))|done]|].
  assert (ballot_step epoch b h = vote_step false x a authorize b) as Estep.
  { unfold ballot_step. rewrite Hx, Hn, Hc. by rewrite (proj2 (Z.eqb_neq _ _)). }
  cbn [foldl]. destruct (vote_step_counts x a authorize b Ea) as [Hdone|(HS & Hle & Hsup)].
  { left. exists 1%nat. split; [cbn; lia|]. cbn [take foldl]. by rewrite Estep. }
  rewrite Estep. destruct (IH (vote_step false x a authorize b)) as [(k & Hk & E)|(HS' & Hsup' & Hle')]; [by rewrite HS| |].
  - left. exists (S k). split; [cbn; lia|]. cbn [take foldl]. by rewrite Estep.
  - right. rewrite HS', HS. split_and!; [done| |].
    { etrans; [|exact Hsup']. intros y Hy. rewrite list_to_set_cons in Hy.
      apply elem_of_union in Hy as [[Hy|Hy]%elem_of_union|Hy]; [apply elem_of_union_r, Hsup; by apply elem_of_union_l|by apply elem_of_union_l|].
      apply elem_of_union_r, Hsup. by apply elem_of_union_r. }
    intros _. destruct hs as [|h' hs]; [exact Hle|].
    rewrite HS in Hle'. by apply Hle'.
Qed.

Lemma majority_ballot epoch a authorize hs sgs b :
  votes_run epoch a authorize hs sgs → NoDup sgs → authorize = negb (bool_decide (a ∈ b_signers b)) →
  (size (b_signers b) / 2 < length hs)%nat →
  ∃ k, (k <= length hs)%nat ∧ bool_decide (a ∈ b_signers (foldl (ballot_step epoch) b (take k hs))) = authorize.
Proof.
  intros Hrun Hnd Ea Hlen. destruct (majority_run _ _ _ _ _ Hrun b Ea) as [?|(_ & Hsup & Hle)]; [done|].
  assert (hs ≠ []) as Hne by (intros ->; cbn in Hlen; lia). specialize (Hle Hne).
  assert (length sgs <= size (supporters a (b_votes (foldl (ballot_step epoch) b hs))))%nat.
  { rewrite <-(size_list_to_set (C := gset Address)) by done. apply subseteq_size. etrans; [|exact Hsup]. apply union_subseteq_l. }
  apply Forall2_length in Hrun. lia.
Qed.
End Majority.

(** ** The window *)

(** So many keys fit into a window. *)
Lemma window_size (R : gmap Z Address) lo (m : nat) : (∀ k a, R !! k = Some a → lo < k <= lo + Z.of_nat m) → (size R <= m)%nat.
Proof.
  intros Hk. rewrite <-size_dom. assert (dom R ⊆ (list_to_set (seqZ (lo + 1) (Z.of_nat m)) : gset Z)) as Hsub.
  { intros k [a Ha]%elem_of_dom. apply elem_of_list_to_set, elem_of_seqZ. specialize (Hk k a Ha). lia. }
  apply subseteq_size in Hsub. rewrite size_list_to_set in Hsub by apply NoDup_seqZ. by rewrite length_seqZ, Nat2Z.id in Hsub.
Qed.

Definition recent_signers (R : gmap Z Address) : gset Address := list_to_set (snd <$> map_to_list R).

Lemma elem_of_recent_signers R a : a ∈ recent_signers R ↔ ∃ k, R !! k = Some a.
Proof.
  unfold recent_signers. rewrite elem_of_list_to_set, list_elem_of_fmap. split.
  - intros ([k x] & -> & Hk%elem_of_map_to_list). by exists k.
  - intros [k Hk]. exists (k, a). split; [done|]. by apply elem_of_map_to_list.
Qed.

Lemma size_list_le (l : list Address) : (size (list_to_set l : gset Address) <= length l)%nat.
Proof.
  induction l as [|x l IH]; [done|]. rewrite list_to_set_cons, size_union_alt, size_singleton. cbn [length].
  assert (size ((list_to_set l : gset Address) ∖ {[x]}) <= size (list_to_set l : gset Address))%nat by (apply subseteq_size; set_solver). lia.
Qed.

Lemma size_recent_signers R : (size (recent_signers R) <= size R)%nat.
Proof. unfold recent_signers. etrans; [apply size_list_le|]. by rewrite length_fmap, length_map_to_list. Qed.

(** ** The properties *)

Section Theorems.
Context `{!Crypto} `{!ARCCache}.

(** C20: The signers change by the rule of the vote and in no other way: applying
    headers to a snapshot never panics, and when all are accepted, the signers
    and the standing votes are what the rule makes of them one header after the
    other: a new vote replaces the one before, all votes end at a checkpoint, and
    more than half of the signers change the status of an account.  The tally is
    right again, nobody votes twice, and the window of recent signers is not
    too long.  The cache of signatures plays no role. *)
Theorem apply_votes known s hs c :
  same_signer known → sigs_ok known c → Forall known hs → cliqueEpoch (sn_config s) ≠ 0 →
  snap_ok s → sn_Number s + zlen hs < 2 ^ 64 →
  ∃ r c', apply s hs c = Done r c' ∧ sigs_ok known c' ∧
    ∀ s', r = inl s' → snap_ok s' ∧ sn_Number s' = sn_Number s + zlen hs ∧
      abs s' = foldl (ballot_step (cliqueEpoch (sn_config s))) (abs s) hs.
Proof.
  intros Hsame Hc Hhs He Hok Hb. destruct (apply_pure known Hsame s hs c He Hhs Hc) as (c' & E & Hc').
  exists (apply_next s hs), c'. split_and!; [done|done|]. intros s' E'. destruct (apply_next_ok s hs s' Hok Hb E') as (? & ? & _ & ?). done.
Qed.

(** C21: A majority gets what it wants: when more than half of the signers, one
    after the other and within an epoch, vote to admit an account or to drop one,
    then at the latest after the last of these blocks it has happened. *)
Theorem majority_passes known s hs sgs a authorize s' c c' :
  same_signer known → sigs_ok known c → Forall known hs → cliqueEpoch (sn_config s) ≠ 0 →
  snap_ok s → sn_Number s + zlen hs < 2 ^ 64 → apply s hs c = Done (inl s') c' →
  votes_run (cliqueEpoch (sn_config s)) a authorize hs sgs → NoDup sgs →
  authorize = negb (bool_decide (a ∈ sn_Signers s)) → (size (sn_Signers s) / 2 < length hs)%nat →
  ∃ k sk ck, (k <= length hs)%nat ∧ apply s (take k hs) c = Done (inl sk) ck ∧ bool_decide (a ∈ sn_Signers sk) = authorize.
Proof.
  intros Hsame Hc Hhs He Hok Hb E Hrun Hnd Ea Hlen.
  destruct (apply_pure known Hsame s hs c He Hhs Hc) as (c1 & E1 & _). rewrite E in E1. injection E1 as E1 _. symmetry in E1.
  destruct (majority_ballot _ a authorize hs sgs (abs s) Hrun Hnd Ea Hlen) as (k & Hk & Hpass).
  rewrite <-(take_drop k hs) in E1. apply apply_next_app in E1 as (sk & Ek & _); [|apply Hok|by rewrite take_drop].
  destruct (apply_pure known Hsame s (take k hs) c He) as (ck & EA & _); [by apply Forall_take|done|]. rewrite Ek in EA.
  exists k, sk, ck. split_and!; [done|done|]. rewrite <-Hpass. destruct (apply_next_ok s (take k hs) sk Hok) as (_ & _ & _ & <-); [|done|done].
  unfold zlen in *. rewrite length_take. lia.
Qed.

(** Who may sign the next block. *)
Lemma next_signers s :
  snap_ok s → sn_Number s + 1 < 2 ^ 64 →
  ∃ E, E ⊆ sn_Signers s ∧ (size (sn_Signers s) - size (sn_Signers s) / 2 <= size E)%nat ∧
    ∀ h, number_of h = sn_Number s + 1 → (∃ signer, signer ∈ E ∧ recovered h = inl signer) →
      is_Some (vote_nonce (Block.Nonce h)) → ∃ s', apply_next s [h] = inl s'.
Proof.
  intros [Hn Hv Hr] Hb. set (epoch := cliqueEpoch (sn_config s)) in *.
  destruct (before_signer_ok epoch (sn_Number s) s Hv Hr) as (vs & T & R & EB & _ & _ & Hsub & Hin).
  exists (sn_Signers s ∖ recent_signers R). split_and!.
  - set_solver.
  - assert (size R <= size (sn_Signers s) / 2)%nat as HR.
    { apply (window_size R (sn_Number s - Z.of_nat (size (sn_Signers s) / 2))). intros k a Hk. specialize (Hin k a Hk).
      destruct (ro_range _ _ _ Hr k a); [by eapply lookup_weaken|]. lia. }
    pose proof (size_recent_signers R). pose proof (size_union_alt (recent_signers R) (sn_Signers s)).
    assert (size (sn_Signers s) <= size (recent_signers R ∪ sn_Signers s))%nat by (apply subseteq_size; set_solver). lia.
  - intros h Eh (signer & [Hsig Hnr]%elem_of_difference & Er) [au Ea].
    unfold apply_next. rewrite uint64_id by (unfold is_uint64; lia). rewrite Eh, Z.eqb_refl. cbn [contiguous negb orb headers_next].
    unfold header_next. fold epoch. rewrite Er, Eh, EB. unfold apply_signed. cbn [sn_Signers sn_Recents with_Recents with_Votes with_Tally].
    rewrite bool_decide_true by done. rewrite bool_decide_false.
    2: { intros (k & x & Hk & ->). apply Hnr, elem_of_recent_signers. by exists k. }
    rewrite Ea. cbn [negb]. destruct (cast _ _ _). by eexists.
Qed.

(** C22: The chain can go on: while there are signers, at least half of them may
    sign the next block, and a block with a well formed vote that one of them
    signs is accepted. *)
Theorem signers_can_go_on s :
  snap_ok s → cliqueEpoch (sn_config s) ≠ 0 → sn_Number s + 1 < 2 ^ 64 →
  ∃ E, E ⊆ sn_Signers s ∧ (size (sn_Signers s) - size (sn_Signers s) / 2 <= size E)%nat ∧
    ∀ known c h, same_signer known → sigs_ok known c → known h → number_of h = sn_Number s + 1 →
      (∃ signer, signer ∈ E ∧ recovered h = inl signer) → is_Some (vote_nonce (Block.Nonce h)) →
      ∃ s' c', apply s [h] c = Done (inl s') c'.
Proof.
  intros Hok He Hb. destruct (next_signers s Hok Hb) as (E & Hsub & Hsz & Hnext). exists E. split_and!; [done..|].
  intros known c h Hsame Hc Hh Eh Hsig Hvote. destruct (Hnext h Eh Hsig Hvote) as [s' Es'].
  destruct (apply_pure known Hsame s [h] c He) as (c' & EA & _); [by constructor|done|]. rewrite Es' in EA. by exists s', c'.
Qed.

(** Without signers nothing is accepted any more. *)
Lemma no_signers s hs s' : sn_Signers s = ∅ → hs ≠ [] → apply_next s hs ≠ inl s'.
Proof.
  intros ES Hne. destruct hs as [|h hs]; [done|]. intros (_ & _ & s1 & E & _)%apply_next_cons. cbn [headers_next] in E.
  unfold header_next in E. destruct (recovered h) as [x|]; [|done]. unfold apply_signed in E. rewrite bool_decide_false in E; [done|].
  unfold before_signer, shift_recents. destruct (_ <=? _); destruct (_ =? 0); cbn [sn_Signers with_Recents with_Votes with_Tally]; rewrite ES; apply not_elem_of_empty.
Qed.

(** The last signer can vote itself out, and then the chain has ended: no
    block is accepted any more, whoever signs it, and asking whose turn it is
    panics. *)
Theorem last_signer_leaves known s h a c :
  same_signer known → sigs_ok known c → known h → cliqueEpoch (sn_config s) ≠ 0 →
  snap_ok s → sn_Number s + 1 < 2 ^ 64 → sn_Signers s = {[ a ]} →
  number_of h = sn_Number s + 1 → recovered h = inl a → Block.Coinbase h = a → Block.Nonce h = 0 →
  ∃ s' c', apply s [h] c = Done (inl s') c' ∧ sn_Signers s' = ∅ ∧ (∀ number x, inturn s' number x = None) ∧
    ∀ hs s'' c'', hs ≠ [] → Forall known hs → apply s' hs c' ≠ Done (inl s'') c''.
Proof.
  intros Hsame Hc Hh He Hok Hb ES Eh Er Ea En. assert (size (sn_Signers s) = 1%nat) as Hsz by (rewrite ES; apply size_singleton).
  destruct (next_signers s Hok Hb) as (E & Hsub & HE & Hnext). rewrite Hsz in HE. change (1 - 1 / 2)%nat with 1%nat in HE.
  destruct (Hnext h Eh) as [s' Es'].
  { exists a. split; [|done]. destruct (size_pos_elem_of E) as [x Hx]; [lia|]. pose proof (Hsub x Hx) as Hxs. rewrite ES in Hxs.
    by apply elem_of_singleton in Hxs as ->. }
  { rewrite En. by eexists. }
  destruct (apply_pure known Hsame s [h] c He) as (c' & EA & Hc'); [by constructor|done|]. rewrite Es' in EA.
  destruct (apply_next_ok s [h] s' Hok) as (_ & _ & Hcfg & Habs); [done|done|].
  assert (sn_Signers s' = ∅) as ES'.
  { change (sn_Signers s') with (b_signers (abs s')). rewrite Habs. cbn [foldl]. unfold ballot_step. rewrite Er, Ea, En. cbn [vote_nonce Z.eqb].
    unfold vote_step. cbn [abs b_signers b_votes]. rewrite ES. rewrite bool_decide_true by by apply elem_of_singleton. cbn [negb Bool.eqb].
    unfold decided. cbn [b_signers b_votes]. rewrite supporters_union, size_singleton. change (1 / 2)%nat with 0%nat.
    rewrite decide_True. 2: { rewrite size_union_alt, size_singleton. lia. }
    cbn [b_signers]. rewrite decide_True by by apply elem_of_singleton. apply difference_diag_L. }
  exists s', c'. split_and!; [done|done| |].
  - intros number x. unfold inturn, signers. by rewrite ES', elements_empty.
  - intros hs s'' c'' Hne Hhs E2. destruct (apply_pure known Hsame s' hs c') as (c3 & E3 & _); [by rewrite Hcfg|done|done|].
    rewrite E2 in E3. injection E3 as E3 _. by eapply (no_signers s' hs s'').
Qed.
End Theorems.

(** ** Concrete runs *)

Notation sample_run := [block1; block2; block3].

Lemma apply_votes_witness :
  ∃ r c', apply sample_snapshot sample_run no_signatures = Done r c' ∧ sigs_ok sample_known c' ∧
    ∀ s', r = inl s' → snap_ok s' ∧ sn_Number s' = sn_Number sample_snapshot + zlen sample_run ∧
      abs s' = foldl (ballot_step (cliqueEpoch (sn_config sample_snapshot))) (abs sample_snapshot) sample_run.
Proof.
  exact (apply_votes sample_known sample_snapshot sample_run no_signatures sample_signer (no_signatures_ok _) sample_blocks
    ltac:(done) sample_snapshot_ok ltac:(done)).
Defined.

(** The three votes for account 9. *)
Lemma sample_votes_run : votes_run 30000 9 true sample_run [1; 2; 3].
Proof.
  destruct sample_recovered as (E1 & E2 & E3 & _).
  constructor; [split_and!; [exact E1|done|done|done]|]. constructor; [split_and!; [exact E2|done|done|done]|].
  constructor; [split_and!; [exact E3|done|done|done]|]. constructor.
Qed.

Lemma sample_accepted : accepted (apply_next sample_snapshot sample_run) = true.
Proof. by vm_compute. Qed.

Lemma sample_applied : ∃ s' c', apply sample_snapshot sample_run no_signatures = Done (inl s') c'.
Proof.
  destruct (apply_pure sample_known sample_signer sample_snapshot sample_run no_signatures ltac:(done) sample_blocks (no_signatures_ok _)) as (c' & E & _).
  pose proof sample_accepted as Ha. destruct (apply_next sample_snapshot sample_run) as [s'|]; [|discriminate Ha]. exists s', c'. exact E.
Qed.

Lemma sample_nodup : NoDup [1; 2; 3].
Proof. apply (bool_decide_unpack _). by vm_compute. Qed.

Lemma majority_passes_witness :
  ∃ k sk ck, (k <= length sample_run)%nat ∧ apply sample_snapshot (take k sample_run) no_signatures = Done (inl sk) ck ∧
    bool_decide (9 ∈ sn_Signers sk) = true.
Proof.
  destruct sample_applied as (s' & c' & E).
  refine (majority_passes sample_known sample_snapshot sample_run [1; 2; 3] 9 true s' no_signatures c' sample_signer (no_signatures_ok _)
    sample_blocks _ sample_snapshot_ok _ E sample_votes_run sample_nodup _ _); [done|done|by vm_compute|].
  rewrite sample_size. change (2 < 3)%nat. lia.
Defined.

Lemma signers_can_go_on_witness :
  ∃ E, E ⊆ sn_Signers sample_snapshot ∧ (size (sn_Signers sample_snapshot) - size (sn_Signers sample_snapshot) / 2 <= size E)%nat ∧
    ∀ known c h, same_signer known → sigs_ok known c → known h → number_of h = sn_Number sample_snapshot + 1 →
      (∃ signer, signer ∈ E ∧ recovered h = inl signer) → is_Some (vote_nonce (Block.Nonce h)) →
      ∃ s' c', apply sample_snapshot [h] c = Done (inl s') c'.
Proof. exact (signers_can_go_on sample_snapshot sample_snapshot_ok ltac:(done) ltac:(done)). Defined.

(** A chain with one signer, which votes against itself. *)
Definition lonely_snapshot : Snapshot := newSnapshot sample_clique 0 (Header_Hash clique_genesis) [1].
Definition suicide_block : Header := clique_header clique_genesis 1 1 0 2.

Lemma suicide_recovered : recovered suicide_block = inl 1.
Proof. by vm_compute. Qed.

Lemma last_signer_leaves_witness :
  let known h := h = suicide_block in
  ∃ s' c', apply lonely_snapshot [suicide_block] no_signatures = Done (inl s') c' ∧ sn_Signers s' = ∅ ∧
    (∀ number x, inturn s' number x = None) ∧
    ∀ hs s'' c'', hs ≠ [] → Forall known hs → apply s' hs c' ≠ Done (inl s'') c''.
Proof.
  refine (last_signer_leaves (λ h, h = suicide_block) lonely_snapshot suicide_block 1 no_signatures _ _ eq_refl _ _ _ _ _ suicide_recovered _ _).
  - by intros h h' -> ->.
  - apply no_signatures_ok.
  - done.
  - by apply newSnapshot_ok.
  - done.
  - cbn. by rewrite (right_id_L ∅ (∪)).
  - done.
  - done.
  - done.
Defined.
