(* ===== verification/CliqueEngineOk.v ===== *)
(** * Proof of authority: the snapshots of the engine

    Whatever is cached in memory and on disk, [snapshot] returns what applying
    all headers since the first one returns ([snapshot_ok]), where no two of the
    headers in question have the same hash. *)
From stdpp Require Import sorting.
From S2P Require Import Prelude BigMath Params OpCodes VmAnalysis VmMemory Rlp VmTypes VmLaws Chain BlockTypes Yochash TrieDb CliqueVotes CliqueVotesOk CliqueApply CliqueEngine.

#[local] Arguments Nat.div : simpl never.
#[local] Arguments HashBytes : simpl never.

(** ** Applying in two steps, with errors *)

Lemma apply_next_split `{!Crypto} s hs1 hs2 :
  0 <= sn_Number s → sn_Number s + zlen (hs1 ++ hs2) < 2 ^ 64 → contiguous (hs1 ++ hs2) = true →
  (∀ h, list.head (hs1 ++ hs2) = Some h → number_of h = sn_Number s + 1) →
  apply_next s (hs1 ++ hs2) = match apply_next s hs1 with inl s1 => apply_next s1 hs2 | inr err => inr err end.
Proof.
  intros Hn Hb Hc Hh. destruct hs1 as [|h1 hs1]; [done|]. destruct hs2 as [|h2 hs2]; [rewrite app_nil_r; by destruct (apply_next s _)|].
  destruct (apply_next s ((h1 :: hs1) ++ h2 :: hs2)) as [s2|err] eqn:E.
  { apply apply_next_app in E as (s1 & -> & ->); done. }
  rewrite zlen_app, !zlen_cons in Hb. pose proof (zlen_nonneg hs1). pose proof (zlen_nonneg hs2).
  specialize (Hh h1 eq_refl). assert (uint64 (sn_Number s + 1) = sn_Number s + 1) as E1 by (apply uint64_id; unfold is_uint64; lia).
  pose proof Hc as Hc'. rewrite contiguous_app, !andb_true_iff, Z.eqb_eq in Hc'. destruct Hc' as [[Hc1 Hj] Hc2].
  rewrite (last_number s) in Hj by (rewrite ?zlen_cons; done || lia).
  unfold apply_next in E |- *. cbn [app] in E. change (h1 :: hs1 ++ h2 :: hs2) with ((h1 :: hs1) ++ h2 :: hs2) in E.
  rewrite Hc, headers_next_app in E. rewrite Hh, E1, Z.eqb_refl in E |- *. cbn [negb orb] in E.
  rewrite Hc1. cbn [negb orb]. destruct (headers_next _ (h1 :: hs1) s) as [s1|] eqn:E0; [|by injection E as <-].
  apply headers_next_labels in E0 as [EN EC]. cbn [sn_Number sn_config with_Number_Hash]. rewrite Hc2, Hj, EN.
  rewrite (uint64_id (sn_Number s + zlen (h1 :: hs1))) by (unfold is_uint64; rewrite zlen_cons; lia). rewrite Z.eqb_refl. cbn [negb orb].
  assert (with_Number_Hash (sn_Number s + zlen (h1 :: hs1)) (Header_Hash (List.last (h1 :: hs1) h1)) s1 =
    relabel (sn_config s) (sn_Number s + zlen (h1 :: hs1)) (Header_Hash (List.last (h1 :: hs1) h1)) s1) as -> by (unfold relabel; by rewrite <-EC).
  rewrite headers_next_renumber, EC. destruct (headers_next _ (h2 :: hs2) s1); [done|by injection E as <-].
Qed.

Section EngineOk.
Context `{!Crypto} `{!ARCCache} `{!SnapshotCodec}.
Context (GetHeader : Hash → Z → option Header) (GetHeaderByNumber : Z → option Header).
Context (config : ChainConfig) (now : Z) (cfg : CliqueConfig).

(** The headers in question, and the first one. *)
Context (known : Header → Prop) (genesis : Header).

Record setting : Prop := {
  se_inj h h' : known h → known h' → Header_Hash h = Header_Hash h' → h = h';
  se_epoch : cliqueEpoch cfg ≠ 0;
  se_genesis : GetHeaderByNumber 0 = Some genesis;
  se_known : known genesis;
  se_number : number_of genesis = 0;
  se_verifies : verify_alone config now (cliqueEpoch cfg) genesis = inl ()
}.

(** The headers after the first one up to the one with a hash. *)
Inductive chain_to : list Header → Hash → Prop :=
  | chain_first : chain_to [] (Header_Hash genesis)
  | chain_next l h : chain_to l (Block.ParentHash h) → known h → number_of h = zlen l + 1 →
      chain_to (l ++ [h]) (Header_Hash h).

(** All headers applied from the first one on. *)
Definition first_snapshot : Snapshot :=
  newSnapshot cfg 0 (Header_Hash genesis) (genesis_signers (Block.Extra genesis)).
Definition replay (l : list Header) : Snapshot + clique_error := apply_next first_snapshot l.

(** An engine with its signer: whatever it has cached is right. *)
Context (signer : Address).

Record engine_ok (c : Clique) : Prop := {
  eo_config : c_config c = cfg;
  eo_signer : c_signer c = signer;
  eo_recents hash s l : contains (c_recents c) hash s → chain_to l hash → replay l = inl s;
  eo_disk hash blob s l : mem_Get (c_db c) (snapshot_key hash) = Some blob → with_config cfg <$> Unmarshal blob = Some s →
    chain_to l hash → replay l = inl s;
  eo_sigs : sigs_ok known (c_signatures c)
}.

Context (Hset : setting).

Lemma known_signer : same_signer known.
Proof. intros h h' Hh Hh' E. by rewrite (se_inj Hset h h'). Qed.

Lemma chain_unique l hash : chain_to l hash → ∀ l', chain_to l' hash → l' = l.
Proof.
  induction 1 as [|l h Hl IH Hh Hn]; intros l' Hl'.
  - remember (Header_Hash genesis) as hash eqn:E. destruct Hl' as [|l' h' _ Hh' Hn']; [done|].
    assert (h' = genesis) as -> by (apply (se_inj Hset); [done|apply Hset|done]). rewrite (se_number Hset) in Hn'. pose proof (zlen_nonneg l'). lia.
  - remember (Header_Hash h) as hash eqn:E. destruct Hl' as [|l' h' Hl' Hh' Hn'].
    + assert (h = genesis) as -> by (apply (se_inj Hset); [done|apply Hset|done]). rewrite (se_number Hset) in Hn. pose proof (zlen_nonneg l). lia.
    + assert (h' = h) as -> by by apply (se_inj Hset). by rewrite (IH l').
Qed.

Lemma chain_known l hash : chain_to l hash → Forall known l.
Proof. induction 1 as [|l h Hl IH Hh]; [constructor|]. apply Forall_app_2; [done|by constructor]. Qed.

Lemma chain_last l hash h : chain_to (l ++ [h]) hash → hash = Header_Hash h ∧ chain_to l (Block.ParentHash h) ∧ number_of h = zlen l + 1.
Proof.
  intros Hc. remember (l ++ [h]) as l' eqn:E. destruct Hc as [|l0 h0 Hl Hh Hn]; [by destruct l|].
  apply app_inj_tail in E as [-> ->]. done.
Qed.

Lemma chain_hash_range l hash : chain_to l hash → 0 <= hash < 2 ^ 256.
Proof. intros []; apply BytesToHash_range. Qed.

Lemma chain_numbers l hash : chain_to l hash → zlen l < 2 ^ 64 → contiguous l = true ∧ (∀ h, list.head l = Some h → number_of h = 1).
Proof.
  induction 1 as [|l h Hl IH Hh Hn]; intros Hb; [done|]. rewrite zlen_app in Hb. change (zlen [h]) with 1 in Hb.
  destruct IH as [Hc Hf]; [lia|]. destruct l as [|x l].
  - split; [done|]. intros y [= <-]. done.
  - split; [|by intros y [= <-]; apply Hf]. rewrite contiguous_app, Hc. cbn [contiguous]. rewrite andb_true_r, andb_true_l.
    pose proof (zlen_nonneg l). rewrite zlen_cons in *. specialize (Hf x eq_refl).
    opose proof (contiguous_numbers 0 x l Hc Hf ltac:(lia) _ (length l) _ (last_lookup_cons x l x)) as ->; [rewrite zlen_cons; lia|].
    rewrite Hn. apply Z.eqb_eq. unfold zlen in *. rewrite uint64_id by (unfold is_uint64; lia). lia.
Qed.

Lemma replay_labels l hash s :
  chain_to l hash → zlen l < 2 ^ 64 → replay l = inl s → sn_config s = cfg ∧ sn_Number s = zlen l ∧ sn_Hash s = hash.
Proof.
  intros Hl Hb. destruct l as [|h l _] using rev_ind.
  - intros [= <-]. remember [] as l eqn:E. destruct Hl as [|l h]; [done|by destruct l].
  - apply chain_last in Hl as (-> & _ & _). destruct (l ++ [h]) as [|x l'] eqn:El; [by destruct l|]. rewrite <-El.
    intros E. rewrite El in E. apply apply_next_cons in E as (_ & _ & s1 & _ & ->). cbn [sn_config sn_Number sn_Hash relabel first_snapshot newSnapshot].
    rewrite <-El in *. rewrite uint64_id by (unfold is_uint64; pose proof (zlen_nonneg (l ++ [h])); lia). split_and!; [done|done|].
    rewrite List.last_last. done.
Qed.

(** ** The cache and the disk *)

Lemma HashBytes_inj h h' : 0 <= h < 2 ^ 256 → 0 <= h' < 2 ^ 256 → HashBytes h = HashBytes h' → h = h'.
Proof. intros Hh Hh' E%(f_equal SetBytes). unfold HashBytes in E. rewrite !SetBytes_be_bytes, !Z.mod_small in E by done. done. Qed.

Lemma snapshot_key_inj h h' : 0 <= h < 2 ^ 256 → 0 <= h' < 2 ^ 256 → snapshot_key h = snapshot_key h' → h = h'.
Proof. intros Hh Hh' E%(app_inv_head _). by apply HashBytes_inj. Qed.

Lemma engine_store c s l hash :
  engine_ok c → chain_to l hash → zlen l < 2 ^ 64 → replay l = inl s →
  engine_ok (with_db (mem_Put (snapshot_key (sn_Hash s)) (Marshal s) (c_db c)) c).
Proof.
  intros [Hcfg Hsg Hr Hd Hs] Hl Hb Es. destruct (replay_labels l hash s Hl Hb Es) as (Ec & _ & Eh). split; [done|done|done| |done].
  intros hash' blob s' l'. unfold mem_Get, mem_Put. cbn [c_db with_db entries]. intros [[Ek <-]|[_ Hk]]%lookup_insert_Some Eu Hl'; [|by eapply Hd].
  rewrite Eh in Ek. apply snapshot_key_inj in Ek as <-; [|by eapply chain_hash_range..].
  rewrite (Unmarshal_Marshal cfg s) in Eu. injection Eu as <-. rewrite (chain_unique l hash Hl l' Hl'), Es. f_equal. rewrite <-Ec. by destruct s.
Qed.

Lemma engine_add c s l hash :
  engine_ok c → chain_to l hash → zlen l < 2 ^ 64 → replay l = inl s →
  engine_ok (with_recents (cache_Add (sn_Hash s) s (c_recents c)) c).
Proof.
  intros [Hcfg Hsg Hr Hd Hs] Hl Hb Es. destruct (replay_labels l hash s Hl Hb Es) as (_ & _ & Eh). split; [done|done| |done|done].
  intros hash' s' l' [[-> ->]|Hin]%Add_contains Hl'; [|by eapply Hr]. rewrite Eh in Hl'. by rewrite (chain_unique l hash Hl l' Hl').
Qed.

Lemma engine_get c hash o r :
  engine_ok c → cache_Get hash (c_recents c) = (o, r) → engine_ok (with_recents r c).
Proof. intros [Hcfg Hsg Hr Hd Hs] E. split; [done|done| |done|done]. intros hash' s' l' Hin. eapply Hr. by eapply Get_keeps. Qed.

(** ** The search *)

Definition available (l : list Header) : Prop := Forall (λ h, GetHeader (Header_Hash h) (number_of h) = Some h) l.

Lemma known_snapshot_ok n l hash c :
  chain_to l hash → engine_ok c →
  ∃ o c', known_snapshot n hash c = Done o c' ∧ engine_ok c' ∧ ∀ s, o = Some s → replay l = inl s.
Proof.
  intros Hl Hok. unfold known_snapshot, mbind, M_bind. destruct (cache_Get _ _) as [o r] eqn:Eg. pose proof (engine_get _ _ _ _ Hok Eg) as Hok1.
  destruct o as [s|].
  { exists (Some s), (with_recents r c). split_and!; [done|done|]. intros s' [= <-].
    eapply (eo_recents _ Hok); [by eapply Get_contains|done]. }
  destruct (_ =? 0); [|by exists None, (with_recents r c)]. unfold loadSnapshot, gets. eexists _, _. split_and!; [done|done|].
  rewrite (eo_config _ Hok1). intros s Es. destruct (mem_Get _ _) as [blob|] eqn:Eb; [|done]. by eapply (eo_disk _ Hok1).
Qed.

Lemma find_snapshot_ok verify :
  (∀ c, engine_ok c → verify genesis c = Done (inl ()) c) →
  ∀ l hash, chain_to l hash → zlen l < 2 ^ 64 → ∀ fuel l0 parents acc c,
  (length l < fuel)%nat → l = l0 ++ parents → available l0 → engine_ok c →
  ∃ c' l1 l2 s, find_snapshot GetHeader GetHeaderByNumber verify fuel (zlen l) hash parents acc c = Done (inl (s, acc ++ reverse l2)) c' ∧
    l = l1 ++ l2 ∧ replay l1 = inl s ∧ engine_ok c'.
Proof.
  intros Hverify l hash Hl. induction Hl as [|l h Hl IH Hh Hn]; intros Hb [|fuel] l0 parents acc c Hf El Hav Hok; try lia; cbn [find_snapshot].
  - pose proof chain_first as Hl. change (zlen (@nil Header)) with 0 in *. destruct (known_snapshot_ok 0 [] _ c Hl Hok) as (o & c1 & EK & Hok1 & Ho).
    unfold mbind, M_bind at 1. rewrite EK. destruct o as [s|].
    { exists c1, [], [], s. cbn [reverse]. rewrite app_nil_r. by auto. }
    cbn [Z.eqb]. rewrite (se_genesis Hset). unfold check, mbind, M_bind, gets. cbn [must mret M_ret].
    rewrite Hverify by done. rewrite (eo_config _ Hok1). cbn [store modify]. eexists _, [], [], _. cbn [reverse]. rewrite app_nil_r.
    split_and!; [reflexivity|done|reflexivity|]. by apply (engine_store _ first_snapshot [] (Header_Hash genesis)).
  - assert (chain_to (l ++ [h]) (Header_Hash h)) as Hlh by by constructor.
    destruct (known_snapshot_ok (zlen (l ++ [h])) _ _ c Hlh Hok) as (o & c1 & EK & Hok1 & Ho).
    unfold mbind, M_bind at 1. rewrite EK. destruct o as [s|].
    { exists c1, (l ++ [h]), [], s. cbn [reverse]. rewrite !app_nil_r. by auto. }
    rewrite zlen_app in *. change (zlen [h]) with 1 in *. pose proof (zlen_nonneg l).
    rewrite (proj2 (Z.eqb_neq _ _)) by lia. rewrite (uint64_id (zlen l + 1 - 1)) by (unfold is_uint64; lia).
    replace (zlen l + 1 - 1) with (zlen l) by lia. rewrite length_app in Hf. cbn [length] in Hf.
    destruct parents as [|p parents _] using rev_ind.
    + rewrite app_nil_r in El. subst l0. apply Forall_app in Hav as [Hav Hh']. apply Forall_cons_1 in Hh' as [Hget _]. rewrite Hn in Hget.
      cbn [list.last]. rewrite Hget. destruct (IH ltac:(lia) fuel l [] (acc ++ [h]) c1) as (c' & l1 & l2 & s & E & -> & Hs & Hok'); [lia|by rewrite app_nil_r|done|done|].
      exists c', l1, (l2 ++ [h]), s. split_and!; [by rewrite E, reverse_snoc, <-app_assoc|by rewrite app_assoc|done|done].
    + rewrite app_assoc in El. apply app_inj_tail in El as [El ->]. rewrite last_snoc, Z.eqb_refl. fold (number_of p). rewrite Hn, Z.eqb_refl. cbn [negb orb].
      rewrite length_app, Nat.add_sub. rewrite take_app_length.
      destruct (IH ltac:(lia) fuel l0 parents (acc ++ [p]) c1) as (c' & l1 & l2 & s & E & El' & Hs & Hok'); [lia|done|done|done|].
      exists c', l1, (l2 ++ [p]), s. split_and!; [by rewrite E, reverse_snoc, <-app_assoc|by rewrite app_assoc, <-El'|done|done].
Qed.

(** ** The snapshot *)

Lemma verify_genesis snapshot c : engine_ok c → verifyHeader GetHeader config now snapshot genesis [] c = Done (inl ()) c.
Proof.
  intros Hok. unfold verifyHeader, mbind, M_bind, gets. rewrite (eo_config _ Hok), (proj2 (Z.eqb_neq _ _)) by apply Hset.
  rewrite (se_verifies Hset). unfold verifyCascadingFields. fold (number_of genesis). rewrite (se_number Hset). done.
Qed.

Lemma chain_prefix l2 : ∀ l1 hash, chain_to (l1 ++ l2) hash → ∃ hash1, chain_to l1 hash1.
Proof.
  induction l2 as [|h l2 IH] using rev_ind; intros l1 hash Hl; [rewrite app_nil_r in Hl; by exists hash|].
  rewrite app_assoc in Hl. apply chain_last in Hl as (_ & Hl & _). by eapply IH.
Qed.

Lemma replay_app l1 l2 hash s :
  chain_to (l1 ++ l2) hash → zlen (l1 ++ l2) < 2 ^ 64 → replay l1 = inl s → replay (l1 ++ l2) = apply_next s l2.
Proof.
  intros Hl Hb Es. destruct (chain_numbers _ _ Hl Hb) as [Hc Hf]. unfold replay.
  rewrite apply_next_split by done. fold (replay l1). by rewrite Es.
Qed.

Lemma snapshot_ok depth l l0 hash parents c :
  chain_to l hash → zlen l < 2 ^ 64 → l = l0 ++ parents → available l0 → engine_ok c →
  ∃ c', snapshot GetHeader GetHeaderByNumber config now (S depth) (zlen l) hash parents c = Done (replay l) c' ∧ engine_ok c'.
Proof.
  intros Hl Hb El Hav Hok. cbn [snapshot]. set (verify := λ h, verifyHeader _ _ _ _ h []).
  destruct (find_snapshot_ok verify (verify_genesis _) l hash Hl Hb (S (Z.to_nat (zlen l))) l0 parents [] c)
    as (c1 & l1 & l2 & s & EF & Els & Es & Hok1); [unfold zlen; lia|done|done|done|].
  unfold check, mbind, M_bind at 1. rewrite EF. cbn [app]. rewrite reverse_involutive, length_reverse.
  subst l. rewrite Els in Hl, Hb |- *. rewrite (replay_app l1 l2 hash s Hl Hb Es).
  destruct (chain_prefix _ _ _ Hl) as [hash1 Hl1]. rewrite zlen_app in Hb. pose proof (zlen_nonneg l2).
  destruct (replay_labels l1 hash1 s Hl1 ltac:(lia) Es) as (Ec & En & _).
  destruct (apply_pure known known_signer s l2 (c_signatures c1)) as (sg & EA & Hsg).
  { rewrite Ec. apply Hset. } { by apply chain_known, Forall_app in Hl as [_ ?]. } { apply Hok1. }
  unfold on_signatures, zoom, mbind, M_bind. rewrite EA.
  assert (engine_ok (with_signatures sg c1)) as Hok2 by (by destruct Hok1).
  destruct (apply_next s l2) as [s'|err] eqn:E'; [|by eexists]. cbn [modify].
  assert (replay (l1 ++ l2) = inl s') as Er by (rewrite (replay_app l1 l2 hash s), E'; rewrite ?zlen_app; done || lia).
  pose proof (engine_add _ s' _ hash Hok2 Hl ltac:(rewrite zlen_app; lia) Er) as Hok3.
  destruct (_ && _); cbn [store modify mret M_ret]; (eexists; split; [reflexivity|]); [|exact Hok3].
  by apply (engine_store _ s' (l1 ++ l2) hash Hok3 Hl ltac:(rewrite zlen_app; lia)).
Qed.
End EngineOk.
