(* ===== verification/CliqueEngineTheorems.v ===== *)
(** * Proof of authority: what the engine promises

    The caches change nothing, blocks that are made are accepted, and where
    the check of a seal and the votes disagree. *)
From stdpp Require Import sorting.
From S2P Require Import Prelude BigMath Params OpCodes VmAnalysis VmMemory Rlp VmTypes VmLaws VmSample Chain BlockTypes Yochash TrieDb CliqueVotes CliqueVotesOk CliqueApply CliqueEngine CliqueEngineOk CliqueSample.

#[local] Arguments Nat.div : simpl never.
#[local] Arguments HashBytes : simpl never.

(** ** Signatures in the extra data *)

(** The signing function gives signatures that recover the address. *)
Definition signs `{!Crypto} (signFn : Address → list byte → option (list byte)) (x : Address) : Prop :=
  ∀ hash sig, signFn x hash = Some sig → length sig = 65%nat ∧
    ∃ pub, Ecrecover hash sig = Some pub ∧ BytesToAddress (drop 12 (Keccak256 (drop 1 pub))) = x.

Definition signed_extra (sig extra : list byte) : list byte :=
  take (length extra - 65) extra ++ overlay sig (drop (length extra - 65) extra).

Lemma signed_extra_spec sig extra :
  length sig = 65%nat → (65 <= length extra)%nat →
  length (signed_extra sig extra) = length extra ∧
  take (length extra - 65) (signed_extra sig extra) = take (length extra - 65) extra ∧
  drop (length extra - 65) (signed_extra sig extra) = sig.
Proof.
  intros Hs He. unfold signed_extra. rewrite (overlay_full sig) by (rewrite length_drop; lia).
  assert (length (take (length extra - 65) extra) = (length extra - 65)%nat) as Ht by (rewrite length_take; lia).
  rewrite length_app, Ht, Hs. split; [lia|]. set (t := take _ extra) in *. clearbody t. rewrite <-Ht.
  by rewrite take_app_length, drop_app_length.
Qed.

Lemma recovered_signed `{!Crypto} signFn x h sh sig :
  signs signFn x → sigHash h = Some sh → signFn x (HashBytes sh) = Some sig →
  recovered (with_Extra (signed_extra sig (Block.Extra h)) h) = inl x.
Proof.
  intros Hsig Esh Es. destruct (Hsig _ _ Es) as (Hl & pub & Ep & Ex).
  assert (65 <= length (Block.Extra h))%nat as He.
  { unfold sigHash in Esh. destruct (Z.ltb_spec (zlen (Block.Extra h)) 65); [done|]. unfold zlen in *. lia. }
  destruct (signed_extra_spec sig (Block.Extra h) Hl He) as (E1 & E2 & E3).
  assert (sigHash (with_Extra (signed_extra sig (Block.Extra h)) h) = Some sh) as E4.
  { rewrite <-Esh. unfold sigHash. cbn [with_Extra Block.ParentHash Block.UncleHash Block.Coinbase Block.Root Block.TxHash Block.ReceiptHash
      Block.Bloom Block.Difficulty Block.Number Block.GasLimit Block.GasUsed Block.Time Block.Extra Block.MixDigest Block.Nonce].
    unfold zlen. rewrite E1. change (Z.to_nat 65) with 65%nat. by rewrite E2. }
  unfold recovered. rewrite E4. cbn [with_Extra Block.Extra]. rewrite E1, E3, Ep, Ex. done.
Qed.

(** ** Extra data of a prepared header *)

Lemma length_signers s : length (signers s) = size (sn_Signers s).
Proof. unfold signers. by rewrite merge_sort_Permutation. Qed.

Lemma length_concat_addresses l : length (concat (AddressBytes <$> l)) = (20 * length l)%nat.
Proof.
  induction l as [|a l IH]; [done|]. rewrite fmap_cons. cbn [concat]. rewrite length_app, IH. unfold AddressBytes.
  rewrite length_be_bytes. unfold AddressLength. cbn [length]. lia.
Qed.

Lemma prepared_extra_spec (checkpoint : bool) s extra :
  let lst := if checkpoint then concat (AddressBytes <$> signers s) else [] in
  length (prepared_extra checkpoint s extra) = (97 + length lst)%nat ∧
  take (length lst) (drop 32 (prepared_extra checkpoint s extra)) = lst.
Proof.
  cbv zeta. set (lst := if checkpoint then _ else _). unfold prepared_extra. fold lst.
  set (e := if _ <? _ then _ else _). assert (length (take 32 e) = 32%nat) as He.
  { rewrite length_take. unfold e. destruct (Z.ltb_spec (zlen extra) 32); unfold zlen, zeros in *; rewrite ?length_app, ?length_replicate; lia. }
  rewrite !length_app, He. unfold zeros. rewrite length_replicate. split; [lia|].
  rewrite <-He at 1. rewrite drop_app_length. apply take_app_length.
Qed.

(** ** Which headers are accepted *)

Record alone_ok `{!Crypto} (config : ChainConfig) (now epoch : Z) (h : Header) : Prop := {
  al_time : Block.Time h <= now;
  al_nonce : Block.Nonce h = nonceAuthVote ∨ Block.Nonce h = nonceDropVote;
  al_checkpoint : number_of h mod epoch = 0 → Block.Coinbase h = 0 ∧ Block.Nonce h = nonceDropVote ∧
    (zlen (Block.Extra h) - 97) mod 20 = 0;
  al_long : 97 <= zlen (Block.Extra h);
  al_extra : number_of h mod epoch ≠ 0 → zlen (Block.Extra h) = 97;
  al_mix : Block.MixDigest h = 0;
  al_uncles : Block.UncleHash h = CalcUncleHash [];
  al_difficulty : 0 < number_of h → Block.Difficulty h = 1 ∨ Block.Difficulty h = 2;
  al_fork : VerifyForkHashes config h false = None
}.

Lemma if_err {A E} (b : bool) (e : E) (r : A + E) a : (if b then inr e else r) = inl a ↔ b = false ∧ r = inl a.
Proof. by destruct b; naive_solver. Qed.

Lemma verify_alone_exact `{!Crypto} config now epoch h :
  verify_alone config now epoch h = inl () ↔ alone_ok config now epoch h.
Proof.
  unfold verify_alone. fold (number_of h). change (Z.of_nat AddressLength) with 20. rewrite !if_err.
  replace (zlen (Block.Extra h) - 32 - 65) with (zlen (Block.Extra h) - 97) by lia.
  set (m := (zlen (Block.Extra h) - 97) mod 20). set (n := number_of h mod epoch). split.
  - intros (Ht & Hcb & Hn & Hcn & Hl & Hl' & He & Hm & Hx & Hu & Hd & Hf). destruct (VerifyForkHashes config h false) eqn:Ef; [done|].
    split; fold n m; try lia; done.
  - intros [Ht Hn Hcp Hl He Hm Hu Hd Hf]. fold n m in Hcp, He. rewrite Hf. split_and!; try lia; done.
Qed.

Record header_ok `{!Crypto} (config : ChainConfig) (now : Z) (cfg : CliqueConfig) (parent : Header) (s : Snapshot) (h : Header) : Prop := {
  hk_alone : alone_ok config now (cliqueEpoch cfg) h;
  hk_time : uint64 (Uint64 (Block.Time parent) + cliquePeriod cfg) <= Uint64 (Block.Time h);
  hk_signers : number_of h mod cliqueEpoch cfg = 0 →
    take (length (Block.Extra h) - 97) (drop 32 (Block.Extra h)) = concat (AddressBytes <$> signers s);
  hk_signer : ∃ x turn, recovered h = inl x ∧ x ∈ sn_Signers s ∧
    (∀ seen, sn_Recents s !! seen = Some x → seen <= uint64 (number_of h - sign_limit s)) ∧
    inturn s (number_of h) x = Some turn ∧ Block.Difficulty h = (if turn then 2 else 1)
}.

Lemma inturn_some s number x : x ∈ sn_Signers s → is_Some (inturn s number x).
Proof.
  intros Hx. unfold inturn. destruct (Z.eqb_spec (zlen (signers s)) 0) as [E|]; [|eauto].
  unfold zlen in E. rewrite length_signers in E. assert (size (sn_Signers s) = 0%nat) as Hz%size_empty_inv by lia.
  exfalso. apply (not_elem_of_empty (C := gset Address) x). by rewrite <-(Hz x).
Qed.

Section Engine.
Context `{!Crypto} `{!ARCCache} `{!SnapshotCodec} `{!MapOrder}.
Context (GetHeader : Hash → Z → option Header) (GetHeaderByNumber : Z → option Header).
Context (config : ChainConfig) (cfg : CliqueConfig) (known : Header → Prop) (genesis : Header).

Notation chain_to := (chain_to known genesis).
Notation replay := (replay cfg genesis).

(** The header a chain ends with. *)
Definition head_of (l : list Header) : Header := default genesis (list.last l).

(** The chain is in the database, the first header included. *)
Definition reachable (l : list Header) : Prop :=
  available GetHeader l ∧ GetHeader (Header_Hash genesis) 0 = Some genesis.

Lemma chain_head now l hash :
  setting GetHeaderByNumber config now cfg known genesis → chain_to l hash → reachable l →
  Header_Hash (head_of l) = hash ∧ number_of (head_of l) = zlen l ∧ GetHeader hash (zlen l) = Some (head_of l).
Proof.
  intros Hset Hl [Hav Hg]. destruct Hl as [|l h Hl Hh Hn].
  - split_and!; [done|apply Hset|done].
  - unfold head_of. rewrite last_snoc. cbn. rewrite zlen_app. apply Forall_app in Hav as [_ [Hh' _]%Forall_cons_1].
    rewrite Hn in Hh'. done.
Qed.

(** What is checked of the seal. *)
Lemma verifySeal_exact now signer depth l s h c :
  setting GetHeaderByNumber config now cfg known genesis → engine_ok cfg known genesis signer c →
  chain_to l (Block.ParentHash h) → reachable l → zlen l + 1 < 2 ^ 64 → number_of h = zlen l + 1 → known h → replay l = inl s →
  ∃ r c', verifySeal (snapshot GetHeader GetHeaderByNumber config now (S depth)) h [] c = Done r c' ∧
    engine_ok cfg known genesis signer c' ∧
    (r = inl () ↔ ∃ x turn, recovered h = inl x ∧ x ∈ sn_Signers s ∧
      (∀ seen, sn_Recents s !! seen = Some x → seen <= uint64 (number_of h - sign_limit s)) ∧
      inturn s (number_of h) x = Some turn ∧ Block.Difficulty h = (if turn then 2 else 1)).
Proof.
  intros Hset Hok Hl [Hav Hg] Hb Hn Hh Es. pose proof (zlen_nonneg l). unfold verifySeal. fold (number_of h). rewrite Hn.
  rewrite (proj2 (Z.eqb_neq _ _)) by lia. replace (zlen l + 1 - 1) with (zlen l) by lia. rewrite (uint64_id (zlen l)) by (unfold is_uint64; lia).
  destruct (snapshot_ok _ _ _ _ _ _ _ _ Hset depth l l (Block.ParentHash h) [] c Hl ltac:(lia) ltac:(by rewrite app_nil_r) Hav Hok)
    as (c1 & E1 & Hok1). unfold check, mbind, M_bind. rewrite E1, Es.
  destruct (ecrecover_ok known (known_signer _ _ _ _ _ _ Hset) h (c_signatures c1) Hh (eo_sigs _ _ _ _ _ Hok1)) as (sg & E2 & Hsg).
  unfold on_signatures, zoom. rewrite E2. assert (engine_ok cfg known genesis signer (with_signatures sg c1)) as Hok2 by (by destruct Hok1).
  destruct (recovered h) as [x|err]; [|eexists _, _; split_and!; [done|done|naive_solver]].
  destruct (bool_decide_reflect (x ∈ sn_Signers s)) as [Hx|]; cbn [negb]; [|eexists _, _; split_and!; [done|done|naive_solver]].
  case_bool_decide as Hrec.
  { eexists _, _; split_and!; [done|done|]. split; [done|]. intros (x' & turn & [= <-] & _ & Hr & _).
    destruct Hrec as (seen & y & Hy & -> & Hgt). specialize (Hr seen Hy). lia. }
  assert (∀ seen, sn_Recents s !! seen = Some x → seen <= uint64 (zlen l + 1 - sign_limit s)) as Hr.
  { intros seen Hseen. destruct (Z.le_gt_cases seen (uint64 (zlen l + 1 - sign_limit s))); [done|]. destruct Hrec. exists seen, x. split_and!; [done|done|lia]. }
  destruct (inturn_some s (zlen l + 1) x Hx) as [turn Et]. rewrite Et. cbn [must mret M_ret].
  destruct turn; cbn [andb negb]; destruct (Z.eqb_spec (Block.Difficulty h) 2); destruct (Z.eqb_spec (Block.Difficulty h) 1); cbn [negb]; try lia;
    (eexists _, _; split_and!; [done|done|]); (split; [try done; intros _; exists x; eexists; split_and!; try done; by rewrite Et|]);
    intros (x' & turn & [= <-] & _ & _ & Et' & Hd); rewrite Et in Et'; injection Et' as <-; first [done|lia].
Qed.
(** A header is accepted exactly when it should be: it obeys the format, it
    does not come too early after its parent, at a checkpoint it lists the
    signers, and it is signed by a signer that is not in the window, with the
    difficulty that its turn demands.  Verifying never panics. *)
Lemma verifyHeader_spec now signer depth l s h c :
  setting GetHeaderByNumber config now cfg known genesis → engine_ok cfg known genesis signer c →
  chain_to l (Block.ParentHash h) → reachable l → zlen l + 1 < 2 ^ 64 → number_of h = zlen l + 1 → known h → replay l = inl s →
  ∃ r c', VerifyHeader GetHeader GetHeaderByNumber config now (S depth) h c = Done r c' ∧
    engine_ok cfg known genesis signer c' ∧ (r = inl () ↔ header_ok config now cfg (head_of l) s h).
Proof.
  intros Hset Hok Hl Hre Hb Hn Hh Es. pose proof (zlen_nonneg l). destruct (chain_head now l _ Hset Hl Hre) as (Eh & Enum & Eget).
  unfold VerifyHeader, verifyHeader, mbind, M_bind at 1, gets. rewrite (eo_config _ _ _ _ _ Hok), (proj2 (Z.eqb_neq _ _)) by apply Hset. cbn [andb].
  destruct (verify_alone config now (cliqueEpoch cfg) h) as [[]|err] eqn:Ea.
  2: { eexists _, c. split_and!; [done|done|]. split; [done|]. intros [Hal%verify_alone_exact _ _ _]. congruence. }
  apply verify_alone_exact in Ea. unfold verifyCascadingFields. fold (number_of h). rewrite Hn.
  rewrite (proj2 (Z.eqb_neq _ _)) by lia. replace (zlen l + 1 - 1) with (zlen l) by lia. rewrite (uint64_id (zlen l)) by (unfold is_uint64; lia).
  cbn [list.last]. rewrite Eget. fold (number_of (head_of l)). rewrite Enum, Eh, !Z.eqb_refl. cbn [negb orb].
  unfold mbind, M_bind at 1, gets. rewrite (eo_config _ _ _ _ _ Hok).
  destruct (Z.gtb_spec (uint64 (Uint64 (Block.Time (head_of l)) + cliquePeriod cfg)) (Uint64 (Block.Time h))) as [Ht|Ht].
  { eexists _, c. split_and!; [done|done|]. split; [done|]. intros [_ Ht' _ _]. lia. }
  destruct (snapshot_ok _ _ _ _ _ _ _ _ Hset depth l l (Block.ParentHash h) [] c Hl ltac:(lia) ltac:(by rewrite app_nil_r) (proj1 Hre) Hok)
    as (c1 & E1 & Hok1). unfold check at 1, mbind, M_bind at 1. rewrite E1, Es.
  destruct (verifySeal_exact now signer depth l s h c1 Hset Hok1 Hl Hre Hb Hn Hh Es) as (r & c2 & E2 & Hok2 & Hr).
  destruct ((_ =? 0) && _) eqn:Ecp.
  - apply andb_true_iff in Ecp as [Ecp Hne]. eexists _, c1. split_and!; [done|done|]. split; [done|]. intros [_ _ Hs _].
    apply negb_true_iff, bool_decide_eq_false in Hne. destruct Hne. apply Hs. rewrite Hn. lia.
  - exists r, c2. split_and!; [done|done|]. rewrite Hr. split; [|by intros []]. intros Hsig. split; [done|lia| |done].
    rewrite Hn. intros Hcp. rewrite Hcp in Ecp. cbn in Ecp. by apply negb_false_iff, bool_decide_eq_true in Ecp.
Qed.
(** ** Blocks that are made *)

Record prepared (now : Z) (signer : Address) (parent : Header) (s : Snapshot) (h0 h1 : Header) : Prop := {
  pr_parent : Block.ParentHash h1 = Block.ParentHash h0;
  pr_number : Block.Number h1 = Block.Number h0;
  pr_nonce : Block.Nonce h1 = nonceAuthVote ∨ Block.Nonce h1 = nonceDropVote;
  pr_checkpoint : number_of h0 mod cliqueEpoch cfg = 0 → Block.Coinbase h1 = 0 ∧ Block.Nonce h1 = nonceDropVote;
  pr_difficulty : ∃ turn, inturn s (number_of h0) signer = Some turn ∧ Block.Difficulty h1 = (if turn then 2 else 1);
  pr_extra : Block.Extra h1 = prepared_extra (number_of h0 mod cliqueEpoch cfg =? 0) s (Block.Extra h0);
  pr_time : Block.Time h1 = (if Int64 (Block.Time parent + cliquePeriod cfg) <? now then now else Block.Time parent + cliquePeriod cfg);
  pr_mix : Block.MixDigest h1 = 0
}.

Lemma Prepare_spec now signer depth Intn l h0 h1 c c1 :
  setting GetHeaderByNumber config now cfg known genesis → engine_ok cfg known genesis signer c →
  chain_to l (Block.ParentHash h0) → reachable l → zlen l + 1 < 2 ^ 64 → number_of h0 = zlen l + 1 →
  Prepare GetHeader GetHeaderByNumber config now (S depth) Intn h0 c = Done (inl h1) c1 →
  ∃ s, replay l = inl s ∧ prepared now signer (head_of l) s h0 h1.
Proof.
  intros Hset Hok Hl Hre Hb Hn. pose proof (zlen_nonneg l). destruct (chain_head now l _ Hset Hl Hre) as (Eh & Enum & Eget).
  unfold Prepare. fold (number_of h0). rewrite Hn. replace (zlen l + 1 - 1) with (zlen l) by lia. rewrite (uint64_id (zlen l)) by (unfold is_uint64; lia).
  destruct (snapshot_ok _ _ _ _ _ _ _ _ Hset depth l l (Block.ParentHash h0) [] c Hl ltac:(lia) ltac:(by rewrite app_nil_r) (proj1 Hre) Hok)
    as (c2 & E2 & Hok2). unfold check, mbind, M_bind, gets. rewrite E2. destruct (replay l) as [s|] eqn:Es; [|done].
  destruct (replay_labels _ _ _ l _ s Hl ltac:(lia) Es) as (_ & EN & _). intros EP. exists s. split; [done|]. revert EP.
  rewrite (eo_config _ _ _ _ _ Hok2), (proj2 (Z.eqb_neq _ _)) by apply Hset. rewrite Eget.
  set (cp := (zlen l + 1) mod cliqueEpoch cfg =? 0).
  destruct (if cp then Some (0, 0) else pick_vote Intn s (c_proposals c2)) as [[cb nc]|] eqn:Epick; [|done]. cbn [must mret M_ret].
  rewrite (eo_signer _ _ _ _ _ Hok2).
  unfold calc_difficulty. rewrite EN, (uint64_id (zlen l + 1)) by (unfold is_uint64; lia).
  destruct (inturn s (zlen l + 1) signer) as [turn|] eqn:Et; [|done]. cbn [mbind option_bind must mret M_ret].
  intros [= <- _]. split; cbn; rewrite ?Hn; try done; [| |by exists turn].
  - destruct cp; [injection Epick as <- <-; by right|]. unfold pick_vote in Epick.
    destruct (fst <$> _) as [|a l']; [injection Epick as <- <-; by right|]. destruct (_ !! _); [|done]. injection Epick as _ <-.
    destruct (default false _); auto.
  - unfold cp in Epick. intros Hcp. rewrite Hcp in Epick. by injection Epick as <- <-.
Qed.

Lemma Seal_spec now signer depth signFn txs stop l h2 h3 c c1 :
  setting GetHeaderByNumber config now cfg known genesis → engine_ok cfg known genesis signer c →
  chain_to l (Block.ParentHash h2) → reachable l → zlen l + 1 < 2 ^ 64 → number_of h2 = zlen l + 1 →
  Seal GetHeader GetHeaderByNumber config now (S depth) signFn txs stop h2 c = Done (inl (Some h3)) c1 →
  ∃ s sh sig, replay l = inl s ∧ signer ∈ sn_Signers s ∧
    (∀ seen, sn_Recents s !! seen = Some signer → sign_limit s <= zlen l + 1 ∧ seen <= zlen l + 1 - sign_limit s) ∧
    sigHash h2 = Some sh ∧ signFn signer (HashBytes sh) = Some sig ∧ h3 = with_Extra (signed_extra sig (Block.Extra h2)) h2.
Proof.
  intros Hset Hok Hl Hre Hb Hn. pose proof (zlen_nonneg l).
  unfold Seal. fold (number_of h2). rewrite Hn. unfold check, mbind, M_bind, gets. rewrite (proj2 (Z.eqb_neq _ _)) by lia.
  destruct (_ && _); [done|]. replace (zlen l + 1 - 1) with (zlen l) by lia. rewrite (uint64_id (zlen l)) by (unfold is_uint64; lia).
  destruct (snapshot_ok _ _ _ _ _ _ _ _ Hset depth l l (Block.ParentHash h2) [] c Hl ltac:(lia) ltac:(by rewrite app_nil_r) (proj1 Hre) Hok)
    as (c2 & E2 & Hok2). rewrite E2. destruct (replay l) as [s|] eqn:Es; [|done]. rewrite (eo_signer _ _ _ _ _ Hok).
  destruct (bool_decide_reflect (signer ∈ sn_Signers s)) as [Hx|]; [|done]. cbn [negb]. case_bool_decide as Hrec; [done|]. destruct stop; [done|].
  destruct (sigHash h2) as [sh|] eqn:Esh; [|done]. cbn [must mret M_ret]. destruct (signFn signer (HashBytes sh)) as [sig|] eqn:Esig; [|done].
  intros [= <- _]. exists s, sh, sig. split_and!; try done. intros seen Hseen.
  assert (¬ (zlen l + 1 < sign_limit s ∨ seen > uint64 (zlen l + 1 - sign_limit s))) as Hno.
  { intros Hor. apply Hrec. exists seen, signer. done. }
  assert (sign_limit s <= zlen l + 1) by lia. split; [done|]. rewrite (uint64_id (zlen l + 1 - sign_limit s)) in Hno; [lia|].
  unfold is_uint64, sign_limit in *. lia.
Qed.
(** The rest of a block goes into its header, which the engine leaves open. *)
Record finalized (h1 h2 : Header) : Prop := {
  fi_parent : Block.ParentHash h2 = Block.ParentHash h1;
  fi_uncles : Block.UncleHash h2 = CalcUncleHash [];
  fi_coinbase : Block.Coinbase h2 = Block.Coinbase h1;
  fi_difficulty : Block.Difficulty h2 = Block.Difficulty h1;
  fi_number : Block.Number h2 = Block.Number h1;
  fi_time : Block.Time h2 = Block.Time h1;
  fi_extra : Block.Extra h2 = Block.Extra h1;
  fi_mix : Block.MixDigest h2 = Block.MixDigest h1;
  fi_nonce : Block.Nonce h2 = Block.Nonce h1
}.

Lemma first_snapshot_ok l hash s :
  chain_to l hash → zlen l < 2 ^ 64 → replay l = inl s → snap_ok s ∧ sn_Number s = zlen l.
Proof.
  intros Hl Hb Es. destruct (apply_next_ok _ _ _ (newSnapshot_ok cfg 0 (Header_Hash genesis) (genesis_signers (Block.Extra genesis)) ltac:(lia)) Hb Es)
    as (? & -> & _). by split.
Qed.

(** A header that was prepared and sealed passes all checks. *)
Lemma sealed_header_ok now now' signer l s h0 h1 h2 sh sig signFn :
  0 <= Block.Time (head_of l) → 0 <= cliquePeriod cfg → Block.Time (head_of l) + cliquePeriod cfg < 2 ^ 63 → now < 2 ^ 63 →
  prepared now signer (head_of l) s h0 h1 → finalized h1 h2 → signs signFn signer → 
  sigHash h2 = Some sh → signFn signer (HashBytes sh) = Some sig → signer ∈ sn_Signers s →
  (∀ seen, sn_Recents s !! seen = Some signer → seen <= uint64 (number_of h0 - sign_limit s)) →
  let h3 := with_Extra (signed_extra sig (Block.Extra h2)) h2 in
  VerifyForkHashes config h3 false = None → Block.Time h1 <= now' → header_ok config now' cfg (head_of l) s h3.
Proof.
  intros Ht Hper Htp Hnow [P1 P2 P3 P4 (turn & P5 & P6) P7 P8 P9] [F1 F2 F3 F4 F5 F6 F7 F8 F9] Hsig Esh Es Hx Hrec h3 Hfork Hnow'.
  assert (number_of h3 = number_of h0) as En by (unfold number_of, h3; cbn; by rewrite F5, P2).
  destruct (Hsig _ _ Es) as [Hl _]. pose proof (prepared_extra_spec (number_of h0 mod cliqueEpoch cfg =? 0) s (Block.Extra h0)) as [Lx Tx].
  rewrite <-P7, <-F7 in Lx, Tx. destruct (signed_extra_spec sig (Block.Extra h2) Hl ltac:(lia)) as (E1 & E2 & E3).
  set (cp := number_of h0 mod cliqueEpoch cfg =? 0) in *. set (lst := if cp then _ else _) in *.
  assert (Hlen : zlen (Block.Extra h3) = 97 + Z.of_nat (length lst)) by (unfold h3, zlen; cbn [with_Extra Block.Extra]; rewrite E1, Lx; lia).
  assert (Hdrop : take (length (Block.Extra h3) - 97) (drop 32 (Block.Extra h3)) = lst).
  { unfold h3. cbn [with_Extra Block.Extra]. rewrite E1, Lx. replace (97 + length lst - 97)%nat with (length lst) by lia.
    etrans; [|exact Tx]. rewrite !take_drop_commute. replace (32 + length lst)%nat with (length (Block.Extra h2) - 65)%nat by lia. by rewrite E2. }
  split.
  - split; rewrite ?En; try done.
    + unfold h3. cbn. by rewrite F6.
    + unfold h3. cbn. by rewrite F9.
    + intros Hcp. unfold h3. cbn [with_Extra Block.Coinbase Block.Nonce]. rewrite F3, F9. destruct (P4 Hcp) as [-> ->]. split_and!; [done|done|].
      fold h3. rewrite Hlen. unfold lst, cp. rewrite Hcp. cbn [Z.eqb]. rewrite length_concat_addresses.
      replace (97 + Z.of_nat (20 * length (signers s)) - 97) with (Z.of_nat (length (signers s)) * 20) by lia. by apply Z_mod_mult.
    + rewrite Hlen. lia.
    + intros Hcp. rewrite Hlen. unfold lst, cp. rewrite (proj2 (Z.eqb_neq _ _)) by done. done.
    + unfold h3. cbn. by rewrite F8.
    + intros _. unfold h3. cbn. rewrite F4, P6. destruct turn; auto.
  - unfold h3. cbn [with_Extra Block.Time]. rewrite F6, P8. rewrite (Uint64_id (Block.Time (head_of l))) by (unfold is_uint64; lia).
    rewrite uint64_id by (unfold is_uint64; lia). rewrite Int64_id by lia. destruct (Z.ltb_spec (Block.Time (head_of l) + cliquePeriod cfg) now); rewrite Uint64_id by (unfold is_uint64; lia); lia.
  - rewrite En. intros Hcp. rewrite Hdrop. unfold lst, cp. by rewrite Hcp.
  - exists signer, turn. rewrite En. split_and!; [by eapply recovered_signed|done|done|done|]. unfold h3. cbn. by rewrite F4, P6.
Qed.
(** ** The properties *)

(** C23: The caches change nothing: whatever snapshots and signatures an engine
    has in memory and on disk, asking for the snapshot of a block gives what
    applying all headers since the first one gives, the same error included;
    the search ends, and what is cached afterwards is right again.  The headers
    may come from the database or from the batch that is being verified.  Assumed
    is that no two of the headers in question have the same hash. *)
Theorem snapshot_exact now signer depth l l0 hash parents c :
  setting GetHeaderByNumber config now cfg known genesis → engine_ok cfg known genesis signer c →
  chain_to l hash → zlen l < 2 ^ 64 → l = l0 ++ parents → available GetHeader l0 →
  ∃ c', snapshot GetHeader GetHeaderByNumber config now (S depth) (zlen l) hash parents c =
          Done (apply_next (first_snapshot cfg genesis) l) c' ∧ engine_ok cfg known genesis signer c'.
Proof. intros Hset Hok Hl Hb El Hav. by apply (snapshot_ok _ _ _ _ _ _ _ _ Hset depth l l0). Qed.

(** C19: Blocks that are made are accepted: a header that [Prepare] set up on one
    block, that was completed with the results of its transactions and signed
    by [Seal], is accepted by [VerifyHeader] of any engine on the same chain once
    its time has come, and its vote can be applied, so that the next block can
    be built on it. *)
Theorem sealed_verifies now now' signer signer' depth Intn signFn txs stop l h0 h1 h2 h3 c c1 c' c1' c'' :
  setting GetHeaderByNumber config now cfg known genesis → setting GetHeaderByNumber config now' cfg known genesis →
  engine_ok cfg known genesis signer c → engine_ok cfg known genesis signer c' → engine_ok cfg known genesis signer' c'' →
  chain_to l (Block.ParentHash h0) → reachable l → zlen l + 1 < 2 ^ 64 → number_of h0 = zlen l + 1 →
  0 <= Block.Time (head_of l) → 0 <= cliquePeriod cfg → Block.Time (head_of l) + cliquePeriod cfg < 2 ^ 63 → now < 2 ^ 63 →
  signs signFn signer → known h3 → VerifyForkHashes config h3 false = None → Block.Time h1 <= now' →
  Prepare GetHeader GetHeaderByNumber config now (S depth) Intn h0 c = Done (inl h1) c1 → finalized h1 h2 →
  Seal GetHeader GetHeaderByNumber config now (S depth) signFn txs stop h2 c' = Done (inl (Some h3)) c1' →
  (∃ c2, VerifyHeader GetHeader GetHeaderByNumber config now' (S depth) h3 c'' = Done (inl ()) c2 ∧ engine_ok cfg known genesis signer' c2) ∧
  ∃ s', replay (l ++ [h3]) = inl s'.
Proof.
  intros Hset Hset' Hok Hok' Hok'' Hl Hre Hb Hn Ht Hper Htp Hnow Hsig Hknown Hfork Hnow' EP Hfin ES. pose proof (zlen_nonneg l).
  destruct (Prepare_spec _ _ _ _ _ _ _ _ _ Hset Hok Hl Hre Hb Hn EP) as (s & Es & Hprep).
  assert (Block.ParentHash h2 = Block.ParentHash h0) as Ep by (rewrite (fi_parent _ _ Hfin); apply Hprep).
  assert (number_of h2 = zlen l + 1) as En2 by (unfold number_of in *; rewrite (fi_number _ _ Hfin), (pr_number _ _ _ _ _ _ Hprep); done).
  rewrite <-Ep in Hl. destruct (Seal_spec _ _ _ _ _ _ _ _ _ _ _ Hset Hok' Hl Hre Hb En2 ES) as (s0 & sh & sig & Es0 & Hx & Hrec & Esh & Esig & ->).
  rewrite Es in Es0. injection Es0 as <-. destruct (first_snapshot_ok l _ s Hl ltac:(lia) Es) as [Hsok EN].
  set (h3 := with_Extra _ h2) in *. assert (number_of h3 = zlen l + 1) as En3 by done.
  split.
  - destruct (verifyHeader_spec now' signer' depth l s h3 c'' Hset' Hok'' Hl Hre Hb En3 Hknown Es) as (r & c2 & E & Hok2 & Hr).
    exists c2. split; [|done]. rewrite E. f_equal. apply Hr. eapply sealed_header_ok; try done. intros seen Hseen. destruct (Hrec seen Hseen).
    rewrite Hn, uint64_id; [lia|]. unfold is_uint64, sign_limit in *. lia.
  - assert (chain_to (l ++ [h3]) (Header_Hash h3)) as Hl3 by (by constructor).
    rewrite (replay_app _ _ _ _ _ _ s Hl3); [|rewrite zlen_app; change (zlen [h3]) with 1; lia|done].
    apply (apply_one s h3 signer); [lia|lia|lia|by eapply recovered_signed|done| |].
    + intros seen Hseen. destruct (Hrec seen Hseen). destruct (ro_range _ _ _ (sk_recents _ Hsok) seen signer Hseen) as [_ Hlo].
      rewrite En3, EN in *. unfold sign_limit in *. lia.
    + change (Block.Nonce h3) with (Block.Nonce h2). rewrite (fi_nonce _ _ Hfin). destruct (pr_nonce _ _ _ _ _ _ Hprep) as [-> | ->]; by eexists.
Qed.

(** C38: In the first blocks the check of a seal lets a signer sign again at once:
    while the number of the block is below the length of the window, the
    difference wraps around and the window is not looked at.  The header is
    accepted, but applying its vote fails, so no block can be built on it. *)
Theorem window_ignored now signer depth l s h x seen turn c :
  setting GetHeaderByNumber config now cfg known genesis → engine_ok cfg known genesis signer c →
  chain_to l (Block.ParentHash h) → reachable l → zlen l + 1 < 2 ^ 63 → number_of h = zlen l + 1 → known h → replay l = inl s →
  zlen l + 1 < sign_limit s → sign_limit s < 2 ^ 63 → recovered h = inl x → x ∈ sn_Signers s → sn_Recents s !! seen = Some x →
  inturn s (number_of h) x = Some turn → Block.Difficulty h = (if turn then 2 else 1) →
  (∃ c', VerifySeal GetHeader GetHeaderByNumber config now (S depth) h c = Done (inl ()) c') ∧
  replay (l ++ [h]) = inr errUnauthorized.
Proof.
  intros Hset Hok Hl Hre Hb Hn Hh Es Hlim Hlim' Er Hx Hseen Et Hd. pose proof (zlen_nonneg l).
  destruct (first_snapshot_ok l _ s Hl ltac:(lia) Es) as [Hsok EN]. split.
  - destruct (verifySeal_exact now signer depth l s h c Hset Hok Hl Hre ltac:(lia) Hn Hh Es) as (r & c' & E & _ & Hr).
    exists c'. unfold VerifySeal. rewrite E. f_equal. apply Hr. exists x, turn. split_and!; try done. intros seen' Hseen'.
    destruct (ro_range _ _ _ (sk_recents _ Hsok) seen' x Hseen') as [Hhi _]. rewrite Hn, EN in *.
    unfold uint64. rewrite <-(Z_mod_plus_full _ 1), Z.mod_small by lia. lia.
  - assert (chain_to (l ++ [h]) (Header_Hash h)) as Hl3 by (by constructor).
    rewrite (replay_app _ _ _ _ _ _ s Hl3); [|rewrite zlen_app; change (zlen [h]) with 1; lia|done].
    apply (apply_refused s h x seen); [lia|lia|lia|done|done|]. lia.
Qed.
End Engine.

(** ** Concrete runs *)

#[local] Existing Instance sample_order.

Notation sample_settings := (λ now known, setting sample_by_number MainnetChainConfig now sample_clique known clique_genesis).

Lemma sample_setting : sample_settings 100 sample_known.
Proof. split; [apply sample_inj|done|done|by apply (list_elem_of_lookup_2 sample_headers 0)|done|by vm_compute]. Qed.

Lemma new_engine_ok known signer : engine_ok sample_clique known clique_genesis signer (sample_engine signer).
Proof.
  split; [done|done| | |].
  - intros hash s l []%NewARC_contains.
  - intros hash blob s l E. unfold mem_Get in E. cbn in E. by rewrite lookup_empty in E.
  - intros h a _ []%NewARC_contains.
Qed.

Lemma sample_chain1 : chain_to sample_known clique_genesis [block1] (Header_Hash block1).
Proof. apply (chain_next _ _ [] block1); [apply chain_first|by apply (list_elem_of_lookup_2 sample_headers 1)|done]. Qed.

Lemma sample_chain2 : chain_to sample_known clique_genesis [block1; block2] (Header_Hash block2).
Proof. apply (chain_next _ _ [block1] block2); [apply sample_chain1|by apply (list_elem_of_lookup_2 sample_headers 2)|done]. Qed.

Lemma sample_available1 : available sample_get [block1].
Proof. constructor; [apply sample_get_ok|constructor]. Qed.

Lemma sample_reachable1 : reachable sample_get clique_genesis [block1].
Proof. split; [apply sample_available1|apply sample_get_ok]. Qed.

Lemma snapshot_exact_witness :
  ∃ c', snapshot sample_get sample_by_number MainnetChainConfig 100 1 (zlen [block1; block2]) (Header_Hash block2) [block2] (sample_engine 2) =
      Done (apply_next (first_snapshot sample_clique clique_genesis) [block1; block2]) c' ∧
    engine_ok sample_clique sample_known clique_genesis 2 c'.
Proof.
  exact (snapshot_exact sample_get sample_by_number MainnetChainConfig sample_clique sample_known clique_genesis 100 2 0 [block1; block2] [block1]
    (Header_Hash block2) [block2] (sample_engine 2) sample_setting (new_engine_ok _ _) sample_chain2 ltac:(done) eq_refl sample_available1).
Defined.

Lemma sample_replay1 : accepted (replay sample_clique clique_genesis [block1]) = true.
Proof. by vm_compute. Qed.

(** The first block after the first header: prepared, completed and signed. *)
Definition open_header : Header :=
  {| Block.ParentHash := Header_Hash clique_genesis; Block.UncleHash := 0; Block.Coinbase := 0; Block.Root := 0; Block.TxHash := 0;
     Block.ReceiptHash := 0; Block.Bloom := 0; Block.Difficulty := 0; Block.Number := 1; Block.GasLimit := 5000; Block.GasUsed := 0;
     Block.Time := 0; Block.Extra := []; Block.MixDigest := 0; Block.Nonce := 0 |}.

Definition sample_prepare : outcome Clique (Header + clique_error) :=
  Prepare sample_get sample_by_number MainnetChainConfig 100 1 (λ _, 0%nat) open_header (sample_engine 1).
Definition prepared_header : Header := match sample_prepare with Done (inl h) _ => h | _ => open_header end.

Definition with_UncleHash (x : Hash) (h : Header) : Header :=
  {| Block.ParentHash := Block.ParentHash h; Block.UncleHash := x; Block.Coinbase := Block.Coinbase h; Block.Root := Block.Root h;
     Block.TxHash := Block.TxHash h; Block.ReceiptHash := Block.ReceiptHash h; Block.Bloom := Block.Bloom h;
     Block.Difficulty := Block.Difficulty h; Block.Number := Block.Number h; Block.GasLimit := Block.GasLimit h;
     Block.GasUsed := Block.GasUsed h; Block.Time := Block.Time h; Block.Extra := Block.Extra h;
     Block.MixDigest := Block.MixDigest h; Block.Nonce := Block.Nonce h |}.
Lemma uncles_finalized h : finalized h (with_UncleHash (CalcUncleHash []) h).
Proof. by split. Qed.
Definition complete_header : Header := with_UncleHash (CalcUncleHash []) prepared_header.

Definition sample_seal : outcome Clique (option Header + clique_error) :=
  Seal sample_get sample_by_number MainnetChainConfig 100 1 address_sign 0 false complete_header (sample_engine 1).
Definition sealed_header : Header := match sample_seal with Done (inl (Some h)) _ => h | _ => open_header end.

Lemma sample_prepared : ∃ c, sample_prepare = Done (inl prepared_header) c.
Proof.
  assert (match sample_prepare with Done (inl _) _ => true | _ => false end = true) as E by by vm_compute.
  unfold prepared_header. destruct sample_prepare as [[h|] c|]; [by exists c|discriminate E..].
Qed.

Lemma sample_sealed : ∃ c, sample_seal = Done (inl (Some sealed_header)) c.
Proof.
  assert (match sample_seal with Done (inl (Some _)) _ => true | _ => false end = true) as E by by vm_compute.
  unfold sealed_header. destruct sample_seal as [[[h|]|] c|]; [by exists c|discriminate E..].
Qed.

Definition sealed_known (h : Header) : Prop := h ∈ [clique_genesis; sealed_header].

Lemma sealed_is_known : sealed_known sealed_header.
Proof. by apply (list_elem_of_lookup_2 _ 1). Qed.

Lemma sealed_setting now : 0 <= now → sample_settings now sealed_known.
Proof.
  intros Hnow. split; [|done|done|by apply (list_elem_of_lookup_2 _ 0)|done|].
  - intros h h'. apply fmap_inj_on. apply (bool_decide_unpack _). by vm_compute.
  - apply verify_alone_exact.
    assert (verify_alone MainnetChainConfig 0 30000 clique_genesis = inl ()) as [? ? ? ? ? ? ? ? ?]%verify_alone_exact by by vm_compute.
    by split.
Qed.

Lemma address_signs : signs address_sign 1.
Proof. intros hash sig [= <-]. split; [done|]. eexists. split; [reflexivity|]. by vm_compute. Qed.

Lemma sealed_facts :
  VerifyForkHashes MainnetChainConfig sealed_header false = None ∧ Block.Time prepared_header <= 200.
Proof. split; by vm_compute. Qed.

Lemma sealed_verifies_witness :
  (∃ c2, VerifyHeader sample_get sample_by_number MainnetChainConfig 200 1 sealed_header (sample_engine 2) = Done (inl ()) c2 ∧
     engine_ok sample_clique sealed_known clique_genesis 2 c2) ∧
  ∃ s', replay sample_clique clique_genesis ([] ++ [sealed_header]) = inl s'.
Proof.
  destruct sample_prepared as [c1 EP]. destruct sample_sealed as [c2 ES].
  refine (sealed_verifies sample_get sample_by_number MainnetChainConfig sample_clique sealed_known clique_genesis 100 200 1 2 0 (λ _, 0%nat)
    address_sign 0 false [] open_header prepared_header complete_header sealed_header (sample_engine 1) c1 (sample_engine 1) c2 (sample_engine 2)
    (sealed_setting 100 _) (sealed_setting 200 _) (new_engine_ok _ _) (new_engine_ok _ _) (new_engine_ok _ _)
    (chain_first _ _) (conj _ (proj1 sample_get_ok)) _ _ _ _ _ _ address_signs sealed_is_known
    (proj1 sealed_facts) (proj2 sealed_facts) EP (uncles_finalized _) ES).
  - lia.
  - lia.
  - constructor.
  - change (1 < 2 ^ 64). lia.
  - reflexivity.
  - change (0 <= 0). lia.
  - change (0 <= 15). lia.
  - change (15 < 2 ^ 63). lia.
  - lia.
Defined.

Lemma sample_window s :
  replay sample_clique clique_genesis [block1] = inl s →
  sign_limit s = 3 ∧ 1 ∈ sn_Signers s ∧ sn_Recents s !! 1 = Some 1 ∧ inturn s 2 1 = Some false.
Proof.
  intros E. set (f (r : Snapshot + clique_error) := match r with
    | inl s => (sign_limit s =? 3) && bool_decide (1 ∈ sn_Signers s) && bool_decide (sn_Recents s !! 1 = Some 1) && bool_decide (inturn s 2 1 = Some false)
    | inr _ => false end).
  assert (f (replay sample_clique clique_genesis [block1]) = true) as Ef by by vm_compute. rewrite E in Ef. cbn in Ef.
  rewrite !andb_true_iff, !bool_decide_eq_true, Z.eqb_eq in Ef. tauto.
Qed.

Lemma window_ignored_witness :
  (∃ c', VerifySeal sample_get sample_by_number MainnetChainConfig 100 1 block2_again (sample_engine 2) = Done (inl ()) c') ∧
  replay sample_clique clique_genesis ([block1] ++ [block2_again]) = inr errUnauthorized.
Proof.
  destruct (accepted_inl _ sample_replay1) as [s Es]. destruct (sample_window s Es) as (E1 & E2 & E3 & E4).
  refine (window_ignored sample_get sample_by_number MainnetChainConfig sample_clique sample_known clique_genesis 100 2 0 [block1] s block2_again 1 1 false
    (sample_engine 2) sample_setting (new_engine_ok _ _) sample_chain1 sample_reachable1 _ _ (list_elem_of_lookup_2 sample_headers 4 _ eq_refl) Es _ _
    (proj2 (proj2 (proj2 sample_recovered))) E2 E3 E4 _).
  - change (2 < 2 ^ 63). lia.
  - reflexivity.
  - rewrite E1. change (2 < 3). lia.
  - rewrite E1. lia.
  - reflexivity.
Defined.
