(* ===== verification/KeccakRef.v ===== *)
(** * Keccak-f[1600] as the standard defines it

    The step mappings of FIPS 202 on a state of 25 lanes (the lane of column [x]
    and row [y] at index [x + 5 * y]), with the rotation offsets and the round
    constants computed from their definitions, and the proof that the four
    unrolled rounds of [crypto/sha3/keccakf.go] compute them. *)
From S2P Require Import Prelude Keccakf.

Open Scope lane_scope.

(** ** The step mappings *)

Definition at_xy (A : list Z) (x y : nat) : Z := nth (x mod 5 + 5 * (y mod 5)) A 0.

(** The list of the values at all 25 positions *)
Definition state_of (f : nat → nat → Z) : list Z :=
  y ← seq 0 5; x ← seq 0 5; [f x y].

(** Rotation to the left; the lane that is not rotated stays as it is. *)
Definition rot (t : Z) (n : nat) : Z := if (n =? 0)%nat then t else rotl t (Z.of_nat n).

Definition theta (A : list Z) : list Z :=
  let C x := at_xy A x 0 ⊕ at_xy A x 1 ⊕ at_xy A x 2 ⊕ at_xy A x 3 ⊕ at_xy A x 4 in
  let D x := C (x + 4)%nat ⊕ rot (C (x + 1)%nat) 1 in
  state_of (λ x y, at_xy A x y ⊕ D x).

(** The walk [(x, y) := (y, 2x + 3y)] that starts at [(1, 0)] and meets every
    lane but the first; the [t]-th one is rotated by [(t + 1)(t + 2) / 2]. *)
Fixpoint offset_walk (n t x y : nat) : list (nat * nat * nat) :=
  match n with
  | O => []
  | S n => (x, y, ((t + 1) * (t + 2) / 2) mod 64)%nat :: offset_walk n (S t) y ((2 * x + 3 * y) mod 5)
  end.

Definition offset (x y : nat) : nat :=
  match List.find (λ '(x', y', _), (x' =? x) && (y' =? y))%nat (offset_walk 24 0 1 0) with
  | Some (_, _, n) => n
  | None => 0
  end.

Definition rho (A : list Z) : list Z := state_of (λ x y, rot (at_xy A x y) (offset x y)).

Definition pi (A : list Z) : list Z := state_of (λ x y, at_xy A (x + 3 * y) x).

Definition chi (A : list Z) : list Z :=
  state_of (λ x y, at_xy A x y ⊕ (at_xy A (x + 2) y ∖∖ at_xy A (x + 1) y)).

(** The shift register of the round constants, eight bits wide *)
Definition lfsr_step (R : list bool) : list bool :=
  let R := false :: R in
  let b := nth 8 R false in
  take 8 (foldr (alter (xorb b)) R [0; 4; 5; 6]%nat).

Definition lfsr (t : nat) : bool :=
  nth 0 (Nat.iter (t mod 255) lfsr_step [true; false; false; false; false; false; false; false]) false.

(** The constant of round [i]: bit [2^j - 1] is the register after [j + 7i] steps. *)
Definition round_constant (i : nat) : Z :=
  foldl (λ acc j, if lfsr (j + 7 * i) then Z.setbit acc (2 ^ Z.of_nat j - 1) else acc) 0 (seq 0 7).

Definition iota (i : nat) (A : list Z) : list Z := alter (λ a, a ⊕ round_constant i) 0%nat A.

Definition Rnd (A : list Z) (i : nat) : list Z := iota i (chi (pi (rho (theta A)))).

Definition keccak_f (A : list Z) : list Z := foldl Rnd A (seq 0 24).

(** ** Tables *)

Lemma rc_correct : rc = round_constant <$> seq 0 24.
Proof. vm_compute. reflexivity. Qed.

(** ** The layouts of the lanes after the first three rounds of a pass *)

(** Position [i] of the array holds lane [p(i)] of the state. *)
Definition layout (p : list nat) (A : list Z) : lanes := lanes_of (λ i, nth (nth i p 0%nat) A 0).

Definition layout0 : list nat := seq 0 25.
Definition layout1 : list nat := [0; 11; 22; 8; 19; 15; 1; 12; 23; 9; 5; 16; 2; 13; 24; 20; 6; 17; 3; 14; 10; 21; 7; 18; 4]%nat.
Definition layout2 : list nat := [0; 16; 7; 23; 14; 20; 11; 2; 18; 9; 15; 6; 22; 13; 4; 10; 1; 17; 8; 24; 5; 21; 12; 3; 19]%nat.
Definition layout3 : list nat := [0; 6; 12; 18; 24; 10; 16; 22; 3; 9; 20; 1; 7; 13; 19; 5; 11; 17; 23; 4; 15; 21; 2; 8; 14]%nat.

(** The value of a round, apart from the constant it adds *)
Definition Rnd_with (c : Z) (A : list Z) : list Z := alter (λ a, a ⊕ c) 0%nat (chi (pi (rho (theta A)))).

(** ** One round at a time *)

(** The parity of a column does not depend on the order of its rows. *)
Ltac column x y z t u to :=
  replace (x ⊕ y ⊕ z ⊕ t ⊕ u) with to
    by (apply Z.bits_inj; intros ?; rewrite !Z.lxor_spec;
        repeat destruct (Z.testbit _ _); reflexivity).

Ltac rounds_agree := cbv -[Z.lxor Z.ldiff rotl]; reflexivity.

Section rounds.
Context (c a0 a1 a2 a3 a4 a5 a6 a7 a8 a9 a10 a11 a12 a13 a14 a15 a16 a17 a18 a19 a20 a21 a22 a23 a24 : Z).
Let A : list Z :=
  [a0; a1; a2; a3; a4; a5; a6; a7; a8; a9; a10; a11; a12; a13; a14; a15; a16; a17; a18; a19; a20; a21; a22; a23; a24].

Lemma round1_step : round1 c (layout layout0 A) = layout layout1 (Rnd_with c A).
Proof.
  rounds_agree.
Qed.

Lemma round2_step : round2 c (layout layout1 A) = layout layout2 (Rnd_with c A).
Proof.
  change (layout layout1 A) with (Lanes a0 a11 a22 a8 a19 a15 a1 a12 a23 a9 a5 a16 a2 a13 a24 a20 a6 a17 a3 a14 a10 a21 a7 a18 a4). cbv beta iota delta [round2].
  column a0 a15 a5 a20 a10 (a0 ⊕ a5 ⊕ a10 ⊕ a15 ⊕ a20).
  column a11 a1 a16 a6 a21 (a1 ⊕ a6 ⊕ a11 ⊕ a16 ⊕ a21).
  column a22 a12 a2 a17 a7 (a2 ⊕ a7 ⊕ a12 ⊕ a17 ⊕ a22).
  column a8 a23 a13 a3 a18 (a3 ⊕ a8 ⊕ a13 ⊕ a18 ⊕ a23).
  column a19 a9 a24 a14 a4 (a4 ⊕ a9 ⊕ a14 ⊕ a19 ⊕ a24).
  rounds_agree.
Qed.

Lemma round3_step : round3 c (layout layout2 A) = layout layout3 (Rnd_with c A).
Proof.
  change (layout layout2 A) with (Lanes a0 a16 a7 a23 a14 a20 a11 a2 a18 a9 a15 a6 a22 a13 a4 a10 a1 a17 a8 a24 a5 a21 a12 a3 a19). cbv beta iota delta [round3].
  column a0 a20 a15 a10 a5 (a0 ⊕ a5 ⊕ a10 ⊕ a15 ⊕ a20).
  column a16 a11 a6 a1 a21 (a1 ⊕ a6 ⊕ a11 ⊕ a16 ⊕ a21).
  column a7 a2 a22 a17 a12 (a2 ⊕ a7 ⊕ a12 ⊕ a17 ⊕ a22).
  column a23 a18 a13 a8 a3 (a3 ⊕ a8 ⊕ a13 ⊕ a18 ⊕ a23).
  column a14 a9 a4 a24 a19 (a4 ⊕ a9 ⊕ a14 ⊕ a19 ⊕ a24).
  rounds_agree.
Qed.

Lemma round4_step : round4 c (layout layout3 A) = layout layout0 (Rnd_with c A).
Proof.
  change (layout layout3 A) with (Lanes a0 a6 a12 a18 a24 a10 a16 a22 a3 a9 a20 a1 a7 a13 a19 a5 a11 a17 a23 a4 a15 a21 a2 a8 a14). cbv beta iota delta [round4].
  column a0 a10 a20 a5 a15 (a0 ⊕ a5 ⊕ a10 ⊕ a15 ⊕ a20).
  column a6 a16 a1 a11 a21 (a1 ⊕ a6 ⊕ a11 ⊕ a16 ⊕ a21).
  column a12 a22 a7 a17 a2 (a2 ⊕ a7 ⊕ a12 ⊕ a17 ⊕ a22).
  column a18 a3 a13 a23 a8 (a3 ⊕ a8 ⊕ a13 ⊕ a18 ⊕ a23).
  column a24 a9 a19 a4 a14 (a4 ⊕ a9 ⊕ a14 ⊕ a19 ⊕ a24).
  rounds_agree.
Qed.

End rounds.

(** ** The whole permutation *)

Lemma lanes_list_length s : length (lanes_list s) = 25%nat.
Proof. by destruct s. Qed.

Lemma layout0_list s : layout layout0 (lanes_list s) = s.
Proof. by destruct s. Qed.

Lemma lanes_of_list (A : list Z) : length A = 25%nat → lanes_list (layout layout0 A) = A.
Proof. intros H. do 25 (destruct A as [|? A]; [done|]). by destruct A. Qed.

Lemma Rnd_with_length c A : length (Rnd_with c A) = 25%nat.
Proof. unfold Rnd_with. by rewrite length_alter. Qed.

Lemma lanes_named (A : list Z) :
  length A = 25%nat →
  ∃ a0 a1 a2 a3 a4 a5 a6 a7 a8 a9 a10 a11 a12 a13 a14 a15 a16 a17 a18 a19 a20 a21 a22 a23 a24,
    A = [a0; a1; a2; a3; a4; a5; a6; a7; a8; a9; a10; a11; a12; a13; a14; a15; a16; a17; a18; a19; a20; a21; a22; a23; a24].
Proof. intros H. do 25 (destruct A as [|? A]; [done|]). destruct A; [|done]. by repeat eexists. Qed.

Ltac name_lanes H :=
  apply lanes_named in H as
    (? & ? & ? & ? & ? & ? & ? & ? & ? & ? & ? & ? & ? & ? & ? & ? & ? & ? & ? & ? & ? & ? & ? & ? & ? & ->).

Lemma four_rounds_step c1 c2 c3 c4 (A : list Z) :
  length A = 25%nat →
  round4 c4 (round3 c3 (round2 c2 (round1 c1 (layout layout0 A)))) =
  layout layout0 (Rnd_with c4 (Rnd_with c3 (Rnd_with c2 (Rnd_with c1 A)))).
Proof.
  intros H. assert (round1 c1 (layout layout0 A) = layout layout1 (Rnd_with c1 A)) as ->.
  { name_lanes H. apply round1_step. }
  pose proof (Rnd_with_length c1 A) as H1. set (A1 := Rnd_with c1 A) in *. clearbody A1.
  assert (round2 c2 (layout layout1 A1) = layout layout2 (Rnd_with c2 A1)) as ->.
  { name_lanes H1. apply round2_step. }
  pose proof (Rnd_with_length c2 A1) as H2. set (A2 := Rnd_with c2 A1) in *. clearbody A2.
  assert (round3 c3 (layout layout2 A2) = layout layout3 (Rnd_with c3 A2)) as ->.
  { name_lanes H2. apply round3_step. }
  pose proof (Rnd_with_length c3 A2) as H3. set (A3 := Rnd_with c3 A2) in *. clearbody A3.
  name_lanes H3. apply round4_step.
Qed.

Lemma Rnd_rc A i : (i < 24)%nat → Rnd A i = Rnd_with (nth i rc 0) A.
Proof.
  intros Hi. unfold Rnd, Rnd_with, iota. rewrite rc_correct.
  rewrite nth_lookup, list_lookup_fmap, lookup_seq_lt by done. reflexivity.
Qed.

Lemma Rnd_length A i : length (Rnd A i) = 25%nat.
Proof. apply (Rnd_with_length (round_constant i)). Qed.

Lemma four_rounds_ref (A : list Z) i :
  length A = 25%nat → (i + 3 < 24)%nat →
  four_rounds (layout layout0 A) i = layout layout0 (foldl Rnd A [i; i + 1; i + 2; i + 3])%nat.
Proof. intros HA Hi. unfold four_rounds. cbn [foldl]. rewrite four_rounds_step, !Rnd_rc by (done || lia). done. Qed.

Lemma foldl_Rnd_length (A : list Z) l : length A = 25%nat → length (foldl Rnd A l) = 25%nat.
Proof. revert A. induction l as [|i l IH]; [done|]. intros A HA. apply IH, Rnd_length. Qed.

Lemma passes_ref (A : list Z) l :
  length A = 25%nat → Forall (λ i, i + 3 < 24)%nat l →
  foldl four_rounds (layout layout0 A) l =
  layout layout0 (foldl Rnd A (l ≫= λ i, [i; i + 1; i + 2; i + 3]%nat)).
Proof.
  intros HA Hl. revert A HA. induction Hl as [|i l Hi Hl IH]; [done|]. intros A HA.
  rewrite bind_cons, foldl_app. cbn [foldl]. rewrite four_rounds_ref by done. apply IH, Rnd_length.
Qed.

(** The unrolled, in-place loop is the permutation. *)
Lemma keccakF1600_ref s : lanes_list (keccakF1600 s) = keccak_f (lanes_list s).
Proof.
  pose proof (lanes_list_length s) as Hs. rewrite <-(layout0_list s) at 1. unfold keccakF1600.
  rewrite passes_ref by (done || (repeat constructor; lia)).
  rewrite lanes_of_list by by apply foldl_Rnd_length. reflexivity.
Qed.
