(* ===== verification/Sha3.v ===== *)
(** * The sponge: [crypto/sha3] and the Keccak functions of [crypto/crypto.go]

    The state of a hash is the record [state]; [buf] is a slice of the array
    [storage], given by its offset and its length, and nil at first.  Methods run
    in the state monad, where an index or a slice bound out of range is a panic.
    Which pair of [xorIn] and [copyOut] the package uses depends on the build:
    both pairs are instances of the class [XorImpl]. *)
From S2P Require Import Prelude Keccakf.

Open Scope lane_scope.

Definition maxRate : nat := 168.

(** [binary.LittleEndian.Uint64(b)] *)
Definition le_Uint64 (b : list byte) : option Z :=
  if (length b <? 8)%nat then None else Some (SetBytes (reverse (take 8 b))).

(** [d.a[i]], which panics past the array *)
Definition get_lane (s : lanes) (i : nat) : option Z := lanes_list s !! i.

(** [d.a[i] ^= x] *)
Definition xor_lane (s : lanes) (i : nat) (x : Z) : option lanes :=
  if (i <? 25)%nat then Some (alter_lane (λ a, a ⊕ x) i s) else None.

(** ** [xor_generic.go] *)

(** The loop, at index [i] with [n] passes left *)
Fixpoint xorInGeneric_from (n i : nat) (s : lanes) (buf : list byte) : option lanes :=
  match n with
  | O => Some s
  | S n => a ← le_Uint64 buf; s ← xor_lane s i a; xorInGeneric_from n (S i) s (drop 8 buf)
  end.

Definition xorInGeneric (s : lanes) (buf : list byte) : option lanes :=
  xorInGeneric_from (length buf / 8) 0 s buf.

(** The new content of [b]; fewer than eight bytes at its end stay as they are. *)
Fixpoint copyOutGeneric_from (i : nat) (s : lanes) (b : list byte) : option (list byte) :=
  match b with
  | _ :: _ :: _ :: _ :: _ :: _ :: _ :: _ :: b =>
      a ← get_lane s i; rest ← copyOutGeneric_from (S i) s b; Some (le_bytes 8 a ++ rest)
  | _ => Some b
  end.

Definition copyOutGeneric (s : lanes) (b : list byte) : option (list byte) := copyOutGeneric_from 0 s b.

(** ** [xor_unaligned.go]

    The machine is little-endian: word [i] of the bytes at [buf] is read as such,
    and the lanes are read as bytes. *)

(** [d.a[i] ^= bw[i]] for the [k] indices from [i] on *)
Definition xor_words (i k : nat) (buf : list byte) (s : lanes) : lanes :=
  foldl (λ s j, alter_lane (λ a, a ⊕ SetBytes (reverse (take 8 (drop (8 * j) buf)))) j s) s (seq i k).

Definition xorInUnaligned (s : lanes) (buf : list byte) : option lanes :=
  if (length buf =? 0)%nat then None else
  let n := length buf in
  let s := if (72 <=? n)%nat then xor_words 0 9 buf s else s in
  let s := if (104 <=? n)%nat then xor_words 9 4 buf s else s in
  let s := if (136 <=? n)%nat then xor_words 13 4 buf s else s in
  let s := if (144 <=? n)%nat then xor_words 17 1 buf s else s in
  let s := if (168 <=? n)%nat then xor_words 18 3 buf s else s in
  Some s.

Definition copyOutUnaligned (s : lanes) (buf : list byte) : option (list byte) :=
  let ab := take maxRate (mjoin (le_bytes 8 <$> lanes_list s)) in
  Some (overlay ab buf).

Class XorImpl := {
  xorIn : lanes → list byte → option lanes;
  copyOut : lanes → list byte → option (list byte)
}.

Definition generic_impl : XorImpl := {| xorIn := xorInGeneric; copyOut := copyOutGeneric |}.
Definition unaligned_impl : XorImpl := {| xorIn := xorInUnaligned; copyOut := copyOutUnaligned |}.

(** ** The state *)

Inductive spongeDirection := spongeAbsorbing | spongeSqueezing.

(** A slice of [storage] *)
Record slice := Slice { sl_off : nat; sl_len : nat }.

Record state := {
  st_a : lanes;
  st_buf : option slice;
  st_rate : nat;
  st_dsbyte : byte;
  st_storage : list byte;
  st_outputLen : nat;
  st_dir : spongeDirection
}.

Definition set_a (a : lanes) (d : state) : state :=
  {| st_a := a; st_buf := st_buf d; st_rate := st_rate d; st_dsbyte := st_dsbyte d; st_storage := st_storage d;
     st_outputLen := st_outputLen d; st_dir := st_dir d |}.
Definition set_buf (b : slice) (d : state) : state :=
  {| st_a := st_a d; st_buf := Some b; st_rate := st_rate d; st_dsbyte := st_dsbyte d; st_storage := st_storage d;
     st_outputLen := st_outputLen d; st_dir := st_dir d |}.
Definition set_storage (l : list byte) (d : state) : state :=
  {| st_a := st_a d; st_buf := st_buf d; st_rate := st_rate d; st_dsbyte := st_dsbyte d; st_storage := l;
     st_outputLen := st_outputLen d; st_dir := st_dir d |}.
Definition set_dir (s : spongeDirection) (d : state) : state :=
  {| st_a := st_a d; st_buf := st_buf d; st_rate := st_rate d; st_dsbyte := st_dsbyte d; st_storage := st_storage d;
     st_outputLen := st_outputLen d; st_dir := s |}.

(** [len(d.buf)], [cap(d.buf)] and the bytes of [d.buf] *)
Definition buf_len (d : state) : nat := match st_buf d with Some b => sl_len b | None => 0 end.
Definition buf_cap (d : state) : nat := match st_buf d with Some b => maxRate - sl_off b | None => 0 end.
Definition buf_bytes (d : state) : list byte :=
  match st_buf d with Some b => take (sl_len b) (drop (sl_off b) (st_storage d)) | None => [] end.

(** [storage[i:j]] *)
Definition storage_slice (i j : Z) : option slice :=
  if (0 <=? i) && (i <=? j) && (j <=? Z.of_nat maxRate)
  then Some (Slice (Z.to_nat i) (Z.to_nat (j - i)))
  else None.

(** ** [sha3.go] *)

Definition BlockSize (d : state) : nat := st_rate d.
Definition Size (d : state) : nat := st_outputLen d.

Definition Reset : M state () :=
  modify (λ d, set_buf (Slice 0 0) (set_dir spongeAbsorbing (set_a zero_lanes d))).

(** The copy has a [storage] of its own. *)
Definition clone (d : state) : option state :=
  b ← match st_dir d with
      | spongeAbsorbing => storage_slice 0 (Z.of_nat (buf_len d))
      | spongeSqueezing => storage_slice (Z.of_nat (st_rate d) - Z.of_nat (buf_cap d)) (Z.of_nat (st_rate d))
      end;
  Some (set_buf b d).

(** [d.buf[k] = x] on the whole array, for indices that are in range *)
Definition set_bytes (ks : list nat) (x : byte) (l : list byte) : list byte := foldl (λ l k, <[k := x]> l) l ks.

Section methods.
Context `{!XorImpl}.

(** [d.buf = d.storage[:d.rate]] followed by [copyOut(d, d.buf)] *)
Definition refill : M state () :=
  d ← gets id;
  b ← must (storage_slice 0 (Z.of_nat (st_rate d)));
  out ← must (copyOut (st_a d) (take (st_rate d) (st_storage d)));
  modify (λ d, set_storage (overlay out (st_storage d)) (set_buf b d)).

Definition permute : M state () :=
  d ← gets id;
  match st_dir d with
  | spongeAbsorbing =>
      a ← must (xorIn (st_a d) (buf_bytes d));
      modify (λ d, set_a (keccakF1600 a) (set_buf (Slice 0 0) d))
  | spongeSqueezing =>
      _ ← modify (λ d, set_a (keccakF1600 (st_a d)) d);
      refill
  end.

(** [if d.buf == nil { d.buf = d.storage[:0] }] *)
Definition alloc_buf : M state () :=
  modify (λ d, match st_buf d with Some _ => d | None => set_buf (Slice 0 0) d end).

(** [d.buf = append(d.buf, p...)], in place while the capacity lasts.  A slice
    that outgrew [storage] would be moved elsewhere; that is a fault here, and
    no state of the package gets there, since its rates are at most [maxRate]. *)
Definition append_buf (p : list byte) : M state () :=
  d ← gets id;
  b ← must (st_buf d);
  if (sl_off b + sl_len b + length p <=? maxRate)%nat
  then modify (λ d, set_buf (Slice (sl_off b) (sl_len b + length p))
                      (set_storage (list_inserts (sl_off b + sl_len b) p (st_storage d)) d))
  else panic.

Definition padAndPermute (dsbyte : byte) : M state () :=
  _ ← alloc_buf;
  _ ← append_buf [dsbyte];
  zerosStart ← gets buf_len;
  rate ← gets st_rate;
  b ← must (storage_slice 0 (Z.of_nat rate));
  _ ← modify (set_buf b);
  _ ← modify (λ d, set_storage (set_bytes (seq zerosStart (rate - zerosStart)) Byte.x00 (st_storage d)) d);
  d ← gets id;
  last ← must (if (rate =? 0)%nat then None else st_storage d !! (rate - 1)%nat);
  _ ← modify (λ d, set_storage (<[(rate - 1)%nat := zb (bz last ⊕ 0x80)]> (st_storage d)) d);
  _ ← permute;
  _ ← modify (set_dir spongeSqueezing);
  refill.

(** The loop of [Write]: every pass but one that finds [buf] full takes at least
    one byte of [p]. *)
Fixpoint absorb (fuel : nat) (p : list byte) : M state () :=
  if (length p =? 0)%nat then mret () else
  match fuel with
  | O => fail OutOfFuel
  | S fuel =>
      d ← gets id;
      if (buf_len d =? 0)%nat && (st_rate d <=? length p)%nat then
        a ← must (xorIn (st_a d) (take (st_rate d) p));
        _ ← modify (set_a (keccakF1600 a));
        absorb fuel (drop (st_rate d) p)
      else
        let todo := Nat.min (st_rate d - buf_len d) (length p) in
        _ ← append_buf (take todo p);
        full ← gets (λ d, buf_len d =? st_rate d)%nat;
        _ ← (if full : bool then permute else mret ());
        absorb fuel (drop todo p)
  end.

(** Returns the number of bytes written; the error is always nil. *)
Definition Write (p : list byte) : M state nat :=
  d ← gets id;
  match st_dir d with
  | spongeSqueezing => panic
  | spongeAbsorbing =>
      _ ← alloc_buf;
      _ ← absorb (S (length p)) p;
      mret (length p)
  end.

(** The loop of [Read], with [n] bytes of [out] left; every pass but one that
    finds [buf] empty fills at least one. *)
Fixpoint squeeze (fuel n : nat) : M state (list byte) :=
  if (n =? 0)%nat then mret [] else
  match fuel with
  | O => fail OutOfFuel
  | S fuel =>
      d ← gets id;
      b ← must (st_buf d);
      let k := Nat.min n (sl_len b) in
      _ ← modify (set_buf (Slice (sl_off b + k) (sl_len b - k)));
      _ ← (if (sl_len b - k =? 0)%nat then permute else mret ());
      rest ← squeeze fuel (n - k);
      mret (take k (buf_bytes d) ++ rest)
  end.

(** [Read(out)] for an [out] of [n] bytes: what it holds afterwards *)
Definition Read (n : nat) : M state (list byte) :=
  d ← gets id;
  _ ← match st_dir d with
      | spongeAbsorbing => padAndPermute (st_dsbyte d)
      | spongeSqueezing => mret ()
      end;
  squeeze (S n) n.

(** The receiver is not changed: [dup] is padded and read. *)
Definition Sum (input : list byte) : M state (list byte) :=
  d ← gets id;
  dup ← must (clone d);
  match Read (st_outputLen dup) dup with
  | Done hash _ => mret (input ++ hash)
  | Fault f => fail f
  end.

(** ** [hashes.go] and [shake.go] *)

(** [&state{rate: rate, outputLen: outputLen, dsbyte: dsbyte}] *)
Definition new_state (rate outputLen : nat) (dsbyte : byte) : state :=
  {| st_a := zero_lanes; st_buf := None; st_rate := rate; st_dsbyte := dsbyte; st_storage := zeros maxRate;
     st_outputLen := outputLen; st_dir := spongeAbsorbing |}.

Definition NewKeccak256 : state := new_state 136 32 (zb 0x01).
Definition NewKeccak512 : state := new_state 72 64 (zb 0x01).
Definition New224 : state := new_state 144 28 (zb 0x06).
Definition New256 : state := new_state 136 32 (zb 0x06).
Definition New384 : state := new_state 104 48 (zb 0x06).
Definition New512 : state := new_state 72 64 (zb 0x06).
Definition NewShake128 : state := new_state 168 0 (zb 0x1f).
Definition NewShake256 : state := new_state 136 0 (zb 0x1f).

(** The value a call returns; [None] is a panic. *)
Definition result {A} (m : M state A) (d : state) : option A :=
  match m d with Done x _ => Some x | Fault _ => None end.

(** [h.Sum(digest[:0])] for a zero [digest] of [n] bytes: written in place when
    the hash fits, and else left as it was. *)
Definition sum_into (n : nat) : M state (list byte) :=
  hash ← Sum []; mret (if (length hash <=? n)%nat then overlay hash (zeros n) else zeros n).

Definition Sum224 (data : list byte) : option (list byte) := result (_ ← Write data; sum_into 28) New224.
Definition Sum256 (data : list byte) : option (list byte) := result (_ ← Write data; sum_into 32) New256.
Definition Sum384 (data : list byte) : option (list byte) := result (_ ← Write data; sum_into 48) New384.
Definition Sum512 (data : list byte) : option (list byte) := result (_ ← Write data; sum_into 64) New512.

(** What the [n] bytes of [hash] hold afterwards *)
Definition ShakeSum128 (n : nat) (data : list byte) : option (list byte) := result (_ ← Write data; Read n) NewShake128.
Definition ShakeSum256 (n : nat) (data : list byte) : option (list byte) := result (_ ← Write data; Read n) NewShake256.

(** ** [crypto.go] *)

Fixpoint write_all (data : list (list byte)) : M state () :=
  match data with [] => mret () | b :: data => _ ← Write b; write_all data end.

Definition crypto_Keccak256 (data : list (list byte)) : option (list byte) :=
  result (_ ← write_all data; Sum []) NewKeccak256.

Definition crypto_Keccak256Hash (data : list (list byte)) : option (list byte) :=
  result (_ ← write_all data; sum_into 32) NewKeccak256.

Definition crypto_Keccak512 (data : list (list byte)) : option (list byte) :=
  result (_ ← write_all data; Sum []) NewKeccak512.

End methods.
