(* ===== verification/Sha3Spec.v ===== *)
(** * The sponge construction as the standard defines it

    The functions of FIPS 202 on byte strings: the permutation of a state of 200
    bytes, the padding, absorbing block by block and squeezing byte by byte.
    Then what both pairs of [xorIn] and [copyOut] promise to the sponge of
    [crypto/sha3]: the class [XorLaws] and its two instances. *)
From Stdlib Require Import ZifyBool.
From S2P Require Import Prelude Keccakf KeccakRef Sha3.

Open Scope lane_scope.

(** ** Lanes and bytes *)

(** The little-endian word at the front of [l] *)
Definition word (l : list byte) : Z := SetBytes (reverse (take 8 l)).

Fixpoint words (n : nat) (l : list byte) : list Z :=
  match n with O => [] | S n => word l :: words n (drop 8 l) end.

Definition lanes_bytes (A : list Z) : list byte := mjoin (le_bytes 8 <$> A).

Definition bxor (x y : byte) : byte := zb (bz x ⊕ bz y).
Definition xor_bytes (l k : list byte) : list byte := zip_with bxor l k.

(** ** The sponge *)

(** Keccak-f[1600] on a string of 200 bytes *)
Definition Keccak_p (S : list byte) : list byte := lanes_bytes (keccak_f (words 25 S)).

(** The bytes after a message of [n] bytes: the domain bits with the first bit of
    the padding, zeros, and the last bit of the padding at the end of a block *)
Definition padding (rate : nat) (ds : byte) (n : nat) : list byte :=
  let q := (rate - n mod rate)%nat in
  if (q =? 1)%nat then [bxor ds (zb 0x80)] else ds :: zeros (q - 2) ++ [zb 0x80].

Definition absorb_block (S b : list byte) : list byte := Keccak_p (xor_bytes S (b ++ zeros (200 - length b))).

Definition chunk (rate : nat) (P : list byte) (i : nat) : list byte := take rate (drop (i * rate) P).

(** The state after the blocks of [P] *)
Definition absorbed (rate : nat) (P : list byte) : list byte :=
  foldl absorb_block (zeros 200) (chunk rate P <$> seq 0 (length P / rate)).

(** The state from which the output of message [m] is read *)
Definition final_state (rate : nat) (ds : byte) (m : list byte) : list byte :=
  absorbed rate (m ++ padding rate ds (length m)).

(** Byte [i] of the output: the first [rate] bytes of the state, then those of the
    permuted state, and so on *)
Definition output_byte (rate : nat) (ds : byte) (m : list byte) (i : nat) : byte :=
  nth (i mod rate) (Nat.iter (i / rate) Keccak_p (final_state rate ds m)) Byte.x00.

(** The [n] bytes of the output from position [k] on *)
Definition output (rate : nat) (ds : byte) (m : list byte) (k n : nat) : list byte :=
  output_byte rate ds m <$> seq k n.

Definition sponge (rate : nat) (ds : byte) (m : list byte) (n : nat) : list byte := output rate ds m 0 n.

(** ** 64-bit lanes *)

Lemma is_uint64_land z : is_uint64 z ↔ Z.land z (Z.ones 64) = z.
Proof.
  rewrite Z.land_ones by lia. unfold is_uint64. split; intros H; [by apply Z.mod_small|].
  rewrite <-H. apply Z.mod_pos_bound. lia.
Qed.

Lemma is_uint64_lxor x y : is_uint64 x → is_uint64 y → is_uint64 (x ⊕ y).
Proof.
  rewrite !is_uint64_land. intros Hx Hy. rewrite <-Hx, <-Hy at 2. apply Z.bits_inj. intros i.
  rewrite !Z.lxor_spec, !Z.land_spec, Z.lxor_spec. by repeat destruct (Z.testbit _ _).
Qed.

Lemma is_uint64_ldiff x y : is_uint64 x → is_uint64 (x ∖∖ y).
Proof.
  rewrite !is_uint64_land. intros H. rewrite <-H at 2. apply Z.bits_inj. intros i.
  rewrite !Z.land_spec, !Z.ldiff_spec, Z.land_spec. by repeat destruct (Z.testbit _ _).
Qed.

Lemma is_uint64_rotl t n : is_uint64 t → 0 <= n <= 64 → is_uint64 (rotl t n).
Proof.
  intros Ht Hn. unfold rotl. pose proof (uint64_range (Z.shiftl t n)) as Hl.
  assert (is_uint64 (Z.shiftr t (64 - n))) as Hr.
  { unfold is_uint64 in *. rewrite Z.shiftr_div_pow2 by lia. pose proof (Z.pow_pos_nonneg 2 (64 - n)).
    split; [apply Z.div_pos; lia|]. apply Z.div_lt_upper_bound; nia. }
  rewrite is_uint64_land in *. by rewrite Z.land_lor_distr_l, Hl, Hr.
Qed.

(** Bit [i] of a rotated lane is bit [i - n], counted around the lane. *)
Lemma rotl_spec t n i :
  is_uint64 t → 0 <= n < 64 → 0 <= i < 64 → Z.testbit (rotl t n) i = Z.testbit t ((i - n) mod 64).
Proof.
  intros Ht Hn Hi. unfold rotl, uint64. rewrite Z.lor_spec, Z.mod_pow2_bits_low by lia.
  rewrite Z.shiftl_spec, Z.shiftr_spec by lia. destruct (Z_lt_le_dec i n).
  - rewrite (Z.testbit_neg_r t (i - n)) by lia. cbn. f_equal. symmetry.
    rewrite <-(Z.mod_add _ 1) by lia. rewrite Z.mod_small; lia.
  - rewrite (Z.mod_small (i - n)) by lia.
    replace (Z.testbit t (i + (64 - n))) with false; [by rewrite orb_false_r|]. symmetry.
    unfold is_uint64 in Ht. rewrite <-(Z.mod_small t (2 ^ 64)) by lia. apply Z.mod_pow2_bits_high. lia.
Qed.

Definition lanes_ok (A : list Z) : Prop := length A = 25%nat ∧ Forall is_uint64 A.

Lemma at_xy_range A x y : lanes_ok A → is_uint64 (at_xy A x y).
Proof.
  intros [Hl HA]. unfold at_xy. rewrite nth_lookup.
  destruct (A !! _) as [z|] eqn:E; [|split; cbn; lia]. by eapply Forall_lookup_1.
Qed.

Lemma state_of_ok f : (∀ x y, (x < 5)%nat → (y < 5)%nat → is_uint64 (f x y)) → lanes_ok (state_of f).
Proof. intros H. split; [done|]. unfold state_of. cbn. repeat (constructor; [apply H; lia|]). constructor. Qed.

Lemma offset_range x y : (x < 5)%nat → (y < 5)%nat → (offset x y <= 64)%nat.
Proof.
  intros Hx Hy. do 5 (destruct x as [|x]; [do 5 (destruct y as [|y]; [vm_compute; lia|]); lia|]). lia.
Qed.

Lemma is_uint64_rot t n : is_uint64 t → (n <= 64)%nat → is_uint64 (rot t n).
Proof. intros. unfold rot. destruct (n =? 0)%nat; [done|]. apply is_uint64_rotl; [done|lia]. Qed.

Lemma round_constant_range i : (i < 24)%nat → is_uint64 (round_constant i).
Proof.
  assert (Forall is_uint64 rc) as H by (repeat constructor; vm_compute; (done || intros; done)).
  intros Hi. rewrite rc_correct, list.Forall_fmap, Forall_seq in H. apply (H i). lia.
Qed.

#[local] Hint Resolve is_uint64_lxor is_uint64_ldiff is_uint64_rot at_xy_range offset_range : yoc.

Lemma Rnd_ok A i : (i < 24)%nat → lanes_ok A → lanes_ok (Rnd A i).
Proof.
  intros Hi HA. unfold Rnd.
  assert (lanes_ok (theta A)) as HT 
    by (apply state_of_ok; intros; repeat first [apply is_uint64_lxor | apply is_uint64_rot | apply at_xy_range]; (done || lia)).
  assert (lanes_ok (rho (theta A))) as HR by (apply state_of_ok; auto with yoc).
  assert (lanes_ok (pi (rho (theta A)))) as HP by (apply state_of_ok; auto with yoc).
  assert (lanes_ok (chi (pi (rho (theta A))))) as [HL HC] by (apply state_of_ok; auto with yoc).
  split; [unfold iota; by rewrite length_alter|]. unfold iota. apply Forall_alter; [done|].
  intros x Hx Hr. apply is_uint64_lxor; [done|]. by apply round_constant_range.
Qed.

Lemma keccak_f_ok A : lanes_ok A → lanes_ok (keccak_f A).
Proof.
  unfold keccak_f. assert (Forall (λ i, i < 24)%nat (seq 0 24)) as H by (apply Forall_seq; lia).
  revert A. induction H as [|i l Hi Hl IH]; [done|]. intros A HA. apply IH, Rnd_ok; done.
Qed.

(** ** Words *)

Lemma SetBytes_reverse_cons b l : SetBytes (reverse (b :: l)) = SetBytes (reverse l) * 256 + bz b.
Proof. by rewrite reverse_cons, SetBytes_snoc. Qed.

Lemma testbit_join x b i :
  0 <= i → Z.testbit (x * 256 + bz b) i = if i <? 8 then Z.testbit (bz b) i else Z.testbit x (i - 8).
Proof.
  intros Hi. pose proof (bz_range b) as Hb. destruct (Z.ltb_spec i 8).
  - rewrite <-(Z.mod_pow2_bits_low _ 8) by lia. change (2 ^ 8) with 256.
    by rewrite Z.add_comm, Z.mod_add, Z.mod_small by lia.
  - replace i with ((i - 8) + 8) at 1 by lia. rewrite <-Z.div_pow2_bits by lia.
    change (2 ^ 8) with 256. by rewrite Z.div_add_l, (Z.div_small (bz b)), Z.add_0_r by lia.
Qed.

Lemma bz_bxor x y : bz (bxor x y) = bz x ⊕ bz y.
Proof.
  unfold bxor. rewrite bz_zb. apply Z.mod_small. pose proof (bz_range x). pose proof (bz_range y).
  split; [apply Z.lxor_nonneg; lia|].
  destruct (Z.eq_dec (bz x ⊕ bz y) 0) as [->|]; [lia|].
  apply Z.log2_lt_pow2 with (b := 8); [pose proof (proj2 (Z.lxor_nonneg (bz x) (bz y))); lia|].
  pose proof (Z.log2_lxor (bz x) (bz y)).
  assert (∀ z, 0 <= z < 256 → Z.log2 z < 8) as Hl.
  { intros z Hz. destruct (Z.eq_dec z 0) as [->|]; [done|]. apply Z.log2_lt_pow2; lia. }
  pose proof (Hl (bz x)). pose proof (Hl (bz y)). lia.
Qed.

Lemma SetBytes_xor l k :
  length l = length k → SetBytes (reverse (xor_bytes l k)) = SetBytes (reverse l) ⊕ SetBytes (reverse k).
Proof.
  revert k. induction l as [|x l IH]; intros [|y k] H; try done. cbn [xor_bytes zip_with].
  rewrite !SetBytes_reverse_cons. fold (xor_bytes l k). rewrite IH by (cbn in H; lia). rewrite bz_bxor.
  apply Z.bits_inj'. intros i Hi. rewrite Z.lxor_spec, !testbit_join by done.
  rewrite <-bz_bxor, testbit_join, bz_bxor by done. destruct (i <? 8); by rewrite Z.lxor_spec.
Qed.

Lemma length_words n l : length (words n l) = n.
Proof. revert l. induction n; intros; cbn; auto. Qed.

Lemma words_lookup n l i : (i < n)%nat → words n l !! i = Some (word (drop (8 * i) l)).
Proof.
  revert l i. induction n as [|n IH]; intros l [|i] Hi; try lia; [done|]. cbn [words lookup list_lookup].
  rewrite IH, drop_drop by lia. do 3 f_equal. lia.
Qed.

Lemma word_range l : is_uint64 (word l).
Proof.
  unfold word, is_uint64. split; [apply SetBytes_nonneg|]. pose proof (SetBytes_bound (reverse (take 8 l))) as H.
  eapply Z.lt_le_trans; [exact H|]. change (2 ^ 64) with (256 ^ 8). apply Z.pow_le_mono_r; [lia|].
  unfold zlen. rewrite length_reverse, length_take. lia.
Qed.

Lemma words_ok l : lanes_ok (words 25 l).
Proof.
  split; [apply length_words|]. generalize 25%nat as n. intros n. revert l.
  induction n as [|n IH]; intros l; cbn; constructor; [apply word_range|apply IH].
Qed.

Lemma le_bytes_word l : (8 <= length l)%nat → le_bytes 8 (word l) = take 8 l.
Proof.
  intros H. unfold word. rewrite <-(reverse_involutive (le_bytes 8 _)). fold (be_bytes 8 (SetBytes (reverse (take 8 l)))).
  replace 8%nat with (length (reverse (take 8 l))) at 1 by (rewrite length_reverse, length_take; lia).
  by rewrite be_bytes_SetBytes, reverse_involutive.
Qed.

Lemma word_le_bytes z l : is_uint64 z → word (le_bytes 8 z ++ l) = z.
Proof.
  intros Hz. unfold word. rewrite take_app_length' by (by rewrite length_le_bytes). fold (be_bytes 8 z).
  rewrite SetBytes_be_bytes. apply Z.mod_small. done.
Qed.

Lemma lanes_bytes_cons z A : lanes_bytes (z :: A) = le_bytes 8 z ++ lanes_bytes A.
Proof. done. Qed.

Lemma length_lanes_bytes A : length (lanes_bytes A) = (8 * length A)%nat.
Proof. induction A as [|z A IH]; [done|]. rewrite lanes_bytes_cons, length_app, length_le_bytes, IH. cbn. lia. Qed.

Lemma lanes_bytes_words n l : length l = (8 * n)%nat → lanes_bytes (words n l) = l.
Proof.
  revert l. induction n as [|n IH]; intros l H; [by destruct l|]. cbn [words].
  rewrite lanes_bytes_cons, le_bytes_word, IH by (rewrite ?length_drop; lia). apply take_drop.
Qed.

Lemma words_lanes_bytes A : Forall is_uint64 A → words (length A) (lanes_bytes A) = A.
Proof.
  induction 1 as [|z A Hz HA IH]; [done|]. cbn [length words]. rewrite lanes_bytes_cons, word_le_bytes by done.
  f_equal. rewrite drop_app_length' by (by rewrite length_le_bytes). exact IH.
Qed.

(** ** The state as a string of 200 bytes *)

Definition holds (a : lanes) (S : list byte) : Prop := length S = 200%nat ∧ lanes_list a = words 25 S.

Lemma length_Keccak_p S : length (Keccak_p S) = 200%nat.
Proof.
  unfold Keccak_p. rewrite length_lanes_bytes. destruct (keccak_f_ok (words 25 S) (words_ok S)) as [-> _]. done.
Qed.

Lemma keccakF1600_holds a S : holds a S → holds (keccakF1600 a) (Keccak_p S).
Proof.
  intros [HS Ha]. split; [apply length_Keccak_p|]. rewrite keccakF1600_ref, Ha.
  destruct (keccak_f_ok (words 25 S) (words_ok S)) as [Hl Hf]. unfold Keccak_p.
  rewrite <-Hl at 2. by rewrite words_lanes_bytes.
Qed.

Lemma holds_bytes a S : holds a S → lanes_bytes (lanes_list a) = S.
Proof. intros [HS ->]. by apply lanes_bytes_words. Qed.

Lemma zero_holds : holds zero_lanes (zeros 200).
Proof. split; [done|]. vm_compute. reflexivity. Qed.

(** ** Writing into the state *)

Lemma lane_lanes_of f j : lane (lanes_of f) j = if (j <? 25)%nat then f j else 0.
Proof. do 25 (destruct j as [|j]; [done|]). by destruct j. Qed.

Lemma lane_alter_lane f i s j :
  (i < 25)%nat → lane (alter_lane f i s) j = if (j =? i)%nat then f (lane s j) else lane s j.
Proof.
  intros Hi. unfold alter_lane. rewrite lane_lanes_of. destruct (Nat.ltb_spec j 25); [done|].
  destruct (Nat.eqb_spec j i); [lia|]. unfold lane. rewrite nth_overflow; [done|]. rewrite lanes_list_length. lia.
Qed.

Lemma lane_xor_words i k b s j :
  (i + k <= 25)%nat →
  lane (xor_words i k b s) j = if (i <=? j)%nat && (j <? i + k)%nat then lane s j ⊕ word (drop (8 * j) b) else lane s j.
Proof.
  intros Hk. induction k as [|k IH].
  - destruct (_ && _) eqn:E; [lia|done].
  - unfold xor_words. rewrite seq_S, foldl_app. cbn [foldl]. fold (xor_words i k b s).
    rewrite lane_alter_lane, IH by lia.
    destruct (Nat.eqb_spec j (i + k)) as [->|], (_ && (_ <? i + k)%nat) eqn:E, (_ && (_ <? i + S k)%nat) eqn:E'; (done || lia).
Qed.

Lemma xor_words_add i k k' b s : xor_words (i + k) k' b (xor_words i k b s) = xor_words i (k + k') b s.
Proof. unfold xor_words. by rewrite seq_app, foldl_app. Qed.

Lemma word_zeros n : word (zeros n) = 0.
Proof. unfold word, zeros. rewrite take_replicate, reverse_replicate. apply SetBytes_zeros. Qed.

Lemma word_app l k : (8 <= length l)%nat → word (l ++ k) = word l.
Proof. intros H. unfold word. by rewrite take_app_le. Qed.

Lemma word_xor l k i :
  length l = length k → word (drop i (xor_bytes l k)) = word (drop i l) ⊕ word (drop i k).
Proof.
  intros H. unfold word, xor_bytes. rewrite zip_with_drop, zip_with_take. apply SetBytes_xor.
  rewrite !length_take, !length_drop. lia.
Qed.

(** The word at position [8j] of a block of [n] words that is filled up with zeros *)
Lemma block_word (b : list byte) n m j :
  length b = (8 * n)%nat → word (drop (8 * j) (b ++ zeros m)) = if (j <? n)%nat then word (drop (8 * j) b) else 0.
Proof.
  intros Hb. destruct (Nat.ltb_spec j n).
  - rewrite drop_app_le by lia. apply word_app. rewrite length_drop. lia.
  - rewrite drop_app_ge by lia. unfold zeros. rewrite drop_replicate. apply word_zeros.
Qed.

Lemma lanes_list_lookup s j : (j < 25)%nat → lanes_list s !! j = Some (lane s j).
Proof.
  intros Hj. unfold lane. rewrite nth_lookup. destruct (lanes_list s !! j) eqn:E; [done|].
  apply lookup_ge_None_1 in E. rewrite lanes_list_length in E. lia.
Qed.

Lemma length_xor_bytes l k : length (xor_bytes l k) = Nat.min (length l) (length k).
Proof. apply length_zip_with. Qed.

(** Xoring a block of [n] words into the lanes is xoring its bytes into the string. *)
Lemma xor_words_holds a S b n :
  holds a S → length b = (8 * n)%nat → (n <= 25)%nat →
  holds (xor_words 0 n b a) (xor_bytes S (b ++ zeros (200 - length b))).
Proof.
  intros [HS Ha] Hb Hn.
  assert (length (b ++ zeros (200 - length b)) = 200%nat) as Hk by (rewrite length_app; unfold zeros; rewrite length_replicate; lia).
  split; [rewrite length_xor_bytes; lia|]. apply list_eq_same_length with 25%nat; [apply length_words|apply lanes_list_length|].
  intros j x y Hj Hx Hy. rewrite lanes_list_lookup in Hx by done. rewrite words_lookup in Hy by done.
  apply (inj Some) in Hx as <-. apply (inj Some) in Hy as <-. rewrite word_xor by lia.
  rewrite (block_word b n) by done.
  rewrite lane_xor_words by lia. cbn [Nat.leb andb Nat.add].
  assert (lane a j = word (drop (8 * j) S)) as ->.
  { pose proof (lanes_list_lookup a j Hj) as E. rewrite Ha, words_lookup in E by done. congruence. }
  destruct (Nat.ltb_spec j n); [done|]. by rewrite Z.lxor_0_r.
Qed.

(** ** What the two implementations promise *)

Definition rates : list nat := [72; 104; 136; 144; 168]%nat.

Class XorLaws `{!XorImpl} := {
  xorIn_ok s b : length b ∈ rates → xorIn s b = Some (xor_words 0 (length b / 8) b s);
  copyOut_ok s b : length b ∈ rates → copyOut s b = Some (take (length b) (lanes_bytes (lanes_list s)))
}.

Lemma rates_cases r : r ∈ rates → r = 72%nat ∨ r = 104%nat ∨ r = 136%nat ∨ r = 144%nat ∨ r = 168%nat.
Proof. unfold rates. rewrite !elem_of_cons, elem_of_nil. tauto. Qed.

Lemma rates_words r : r ∈ rates → ∃ n, r = (8 * n)%nat ∧ (2 <= n <= 21)%nat ∧ (r / 8)%nat = n.
Proof.
  intros [->|[->|[->|[->| ->]]]]%rates_cases; [exists 9%nat|exists 13%nat|exists 17%nat|exists 18%nat|exists 21%nat];
    (split; [done|split; [lia|done]]).
Qed.

Lemma xorInGeneric_from_words n i s b :
  (8 * (i + n) <= length b)%nat → (i + n <= 25)%nat →
  xorInGeneric_from n i s (drop (8 * i) b) = Some (xor_words i n b s).
Proof.
  revert i s. induction n as [|n IH]; intros i s Hb Hi; [done|]. cbn [xorInGeneric_from].
  unfold le_Uint64. rewrite length_drop. destruct (Nat.ltb_spec (length b - 8 * i) 8); [lia|].
  cbn [mbind option_bind]. unfold xor_lane. destruct (Nat.ltb_spec i 25); [|lia]. cbn [mbind option_bind].
  rewrite drop_drop. replace (8 * i + 8)%nat with (8 * S i)%nat by lia. rewrite IH by lia. reflexivity.
Qed.

#[global] Instance generic_laws : @XorLaws generic_impl.
Proof.
  split; intros s b H.
  - destruct (rates_words _ H) as (n & Hn & Hr & Hd). cbn [xorIn generic_impl]. unfold xorInGeneric. rewrite Hd.
    apply (xorInGeneric_from_words n 0); lia.
  - destruct (rates_words _ H) as (n & Hn & Hr & _). cbn [copyOut generic_impl]. unfold copyOutGeneric.
    enough (∀ i b, length b = (8 * n)%nat → (i + n <= 25)%nat →
      copyOutGeneric_from i s b = Some (take (length b) (lanes_bytes (drop i (lanes_list s))))) as E by (apply (E 0%nat); lia).
    clear -s. induction n as [|n IH]; intros i b Hb Hi.
    + by destruct b.
    + do 8 (destruct b as [|? b]; [cbn in Hb; lia|]). cbn [copyOutGeneric_from]. unfold get_lane.
      rewrite lanes_list_lookup by lia. cbn [mbind option_bind]. rewrite IH by (cbn in Hb; lia).
      cbn [mbind option_bind]. rewrite (drop_S _ _ i (lanes_list_lookup s i ltac:(lia))), lanes_bytes_cons.
      rewrite take_app_ge by (rewrite length_le_bytes; cbn; lia). rewrite length_le_bytes. cbn [length].
      do 3 f_equal. lia.
Qed.

#[global] Instance unaligned_laws : @XorLaws unaligned_impl.
Proof.
  split; intros s b H.
  - cbn [xorIn unaligned_impl]. unfold xorInUnaligned.
    apply rates_cases in H as [H|[H|[H|[H|H]]]]; rewrite H; cbn [Nat.eqb Nat.leb]; f_equal;
      rewrite ?(xor_words_add 0 9 4), ?(xor_words_add 0 13 4), ?(xor_words_add 0 17 1), ?(xor_words_add 0 18 3); reflexivity.
  - cbn [copyOut unaligned_impl]. unfold copyOutUnaligned. f_equal. destruct (rates_words _ H) as (n & Hn & Hr & _).
    assert (length (lanes_bytes (lanes_list s)) = 200%nat) as Hl by (rewrite length_lanes_bytes, lanes_list_length; done).
    fold (lanes_bytes (lanes_list s)). revert Hl. generalize (lanes_bytes (lanes_list s)) as l. intros l Hl.
    rewrite <-(take_drop (length b) (take maxRate l)), take_take, Nat.min_l by (unfold maxRate; lia).
    assert (length (take (length b) l) = length b) as Ht by (rewrite length_take; lia). revert Ht.
    generalize (take (length b) l) as p, (drop (length b) (take maxRate l)) as q. clear. intros p q.
    revert p. induction b as [|x b IH]; intros [|y p] E; try done; cbn; [by destruct q|]. f_equal. apply IH. cbn in E. lia.
Qed.
