(* ===== verification/Sha3Ok.v ===== *)
(** * The sponge of [crypto/sha3] against its specification: invariants

    A state that has absorbed a message [m], and one from which [k] bytes of the
    output of [m] have been read; every method takes such a state to the next
    and returns the bytes of the specification. *)
From Stdlib Require Import ZifyBool.
From S2P Require Import Prelude Keccakf KeccakRef Sha3 Sha3Spec.

Open Scope lane_scope.

#[local] Arguments absorb_block : simpl never.
#[local] Arguments Keccak_p : simpl never.
#[local] Arguments zeros : simpl never.
#[local] Arguments keccakF1600 : simpl never.

(** ** Blocks *)

Lemma chunk_app_l rate P b i :
  (i * rate + rate <= length P)%nat → chunk rate (P ++ b) i = chunk rate P i.
Proof. intros H. unfold chunk. rewrite drop_app_le, take_app_le by (rewrite ?length_drop; lia). done. Qed.

Lemma absorbed_snoc rate P b k :
  length P = (k * rate)%nat → length b = rate → (0 < rate)%nat →
  absorbed rate (P ++ b) = absorb_block (absorbed rate P) b.
Proof.
  intros HP Hb Hr. unfold absorbed.
  replace (length (P ++ b) / rate)%nat with (S k) by (rewrite length_app, HP, Hb; apply Nat.div_unique with 0%nat; lia).
  replace (length P / rate)%nat with k by (rewrite HP, Nat.div_mul; lia).
  rewrite seq_S, fmap_app, foldl_app. cbn [fmap list_fmap foldl Nat.add]. apply (f_equal2 absorb_block).
  - apply (f_equal (foldl absorb_block (zeros 200))). apply list_fmap_ext. intros j i [Hi1 Hi2]%lookup_seq. rewrite Hi1 in *. apply chunk_app_l; nia.
  - unfold chunk. rewrite <-HP, drop_app_length, <-Hb. apply firstn_all.
Qed.

Lemma absorbed_nil rate : absorbed rate [] = zeros 200.
Proof. by destruct rate. Qed.

Lemma length_absorbed rate P : length (absorbed rate P) = 200%nat.
Proof.
  unfold absorbed. set (l := chunk rate P <$> _). clearbody l.
  induction l as [|b l _] using rev_ind; [reflexivity|].
  rewrite foldl_app. cbn [foldl]. unfold absorb_block. apply length_Keccak_p.
Qed.

Lemma length_iter_p n S : length S = 200%nat → length (Nat.iter n Keccak_p S) = 200%nat.
Proof. intros HS. destruct n as [|n]; [exact HS|]. cbn [Nat.iter nat_rect]. apply length_Keccak_p. Qed.

(** ** A slice of [storage] *)

Lemma list_inserts_app (i : nat) (p l : list byte) :
  (i + length p <= length l)%nat → list_inserts i p l = take i l ++ p ++ drop (i + length p) l.
Proof.
  intros H. apply list_eq. intros j. rewrite !lookup_app, length_take, Nat.min_l by lia.
  destruct (decide (i <= j < i + length p)%nat) as [Hj|Hj].
  - rewrite list_lookup_inserts by lia. rewrite (lookup_take_ge l) by lia.
    destruct (p !! (j - i)%nat) eqn:E; [done|]. apply lookup_ge_None_1 in E. lia.
  - destruct (Nat.lt_ge_cases j i).
    + rewrite list_lookup_inserts_lt, lookup_take by lia. rewrite decide_True by lia.
      destruct (l !! j) eqn:E; [done|]. apply lookup_ge_None_1 in E. lia.
    + rewrite list_lookup_inserts_ge by lia. rewrite (lookup_take_ge l), (lookup_ge_None_2 p) by lia.
      rewrite lookup_drop. f_equal. lia.
Qed.

Lemma set_bytes_inserts i n (l : list byte) :
  (i + n <= length l)%nat → set_bytes (seq i n) Byte.x00 l = take i l ++ zeros n ++ drop (i + n) l.
Proof.
  revert i l. induction n as [|n IH]; intros i l H.
  - change (zeros 0) with (@nil byte). by rewrite Nat.add_0_r, app_nil_l, take_drop.
  - unfold set_bytes. cbn [seq foldl]. fold (set_bytes (seq (S i) n) Byte.x00 (<[i:=Byte.x00]> l)).
    rewrite IH by (rewrite length_insert; lia). rewrite insert_take_drop by lia.
    rewrite take_app_ge, drop_app_ge by (rewrite length_take; lia). rewrite length_take, Nat.min_l by lia.
    replace (S i - i)%nat with 1%nat by lia. replace (S i + n - i)%nat with (S n) by lia. cbn [take drop].
    rewrite drop_drop, <-app_assoc. replace (S i + n)%nat with (i + S n)%nat by lia. reflexivity.
Qed.

(** ** The invariant *)

Section sponge.
Context {IMPL : XorImpl} {LAWS : XorLaws} (rate outputLen : nat) (ds : byte) (Hrate : rate ∈ rates).

Lemma rate_range : (16 <= rate <= maxRate)%nat.
Proof. destruct (rates_words _ Hrate) as (n & -> & Hn & _). unfold maxRate. lia. Qed.

(** What no method changes *)
Record params (d : state) : Prop := {
  p_rate : st_rate d = rate;
  p_ds : st_dsbyte d = ds;
  p_out : st_outputLen d = outputLen;
  p_storage : length (st_storage d) = maxRate
}.

(** The message absorbed so far is [m]: its whole blocks [P] are in the state and
    the rest is in the buffer. *)
Record absorbing (m : list byte) (d : state) : Prop := {
  ab_params : params d;
  ab_dir : st_dir d = spongeAbsorbing;
  ab_buf : match st_buf d with Some b => sl_off b = 0%nat ∧ (sl_len b < rate)%nat | None => True end;
  ab_split : ∃ P k, m = P ++ buf_bytes d ∧ length P = (k * rate)%nat ∧ holds (st_a d) (absorbed rate P)
}.

(** [k] bytes of the output of [m] have been read. *)
Record squeezing (m : list byte) (k : nat) (d : state) : Prop := {
  sq_params : params d;
  sq_dir : st_dir d = spongeSqueezing;
  sq_buf : st_buf d = Some (Slice (k mod rate) (rate - k mod rate));
  sq_a : holds (st_a d) (Nat.iter (k / rate) Keccak_p (final_state rate ds m));
  sq_storage : take rate (st_storage d) = take rate (Nat.iter (k / rate) Keccak_p (final_state rate ds m))
}.

Notation safe m Q d := (wp (λ _, False) m Q d).

Lemma storage_slice_ok i j :
  (i <= j <= maxRate)%nat → storage_slice (Z.of_nat i) (Z.of_nat j) = Some (Slice i (j - i)).
Proof.
  intros H. unfold storage_slice. destruct (_ && _) eqn:E; [|lia]. do 2 f_equal; lia.
Qed.

Lemma new_absorbing : absorbing [] (new_state rate outputLen ds).
Proof.
  split; [done..|]. exists [], 0%nat. split; [done|]. split; [done|]. rewrite absorbed_nil. apply zero_holds.
Qed.

Lemma Reset_ok d : params d → safe Reset (λ _ d', absorbing [] d') d.
Proof.
  intros [? ? ? ?]. apply wp_modify. pose proof rate_range. split; [done|done|split; [done|cbn; lia]|].
  exists [], 0%nat. split; [done|]. split; [done|]. rewrite absorbed_nil. apply zero_holds.
Qed.

(** ** Writing *)

Lemma append_buf_ok (b : slice) p d :
  st_buf d = Some b → sl_off b = 0%nat → (sl_len b + length p <= maxRate)%nat → length (st_storage d) = maxRate →
  safe (append_buf p) (λ _ d', ∃ storage,
    d' = set_buf (Slice 0 (sl_len b + length p)) (set_storage storage d) ∧ length storage = maxRate ∧
    take (sl_len b + length p) storage = buf_bytes d ++ p) d.
Proof.
  intros Hb Ho Hp Hs. unfold append_buf. apply wp_bind, wp_gets. eapply wp_bind, wp_must; [exact Hb|].
  destruct (Nat.leb_spec (sl_off b + sl_len b + length p) maxRate); [|lia]. apply wp_modify.
  rewrite Ho. cbn [Nat.add]. eexists. split; [reflexivity|]. split; [by rewrite length_inserts|].
  unfold buf_bytes. rewrite Hb, Ho, drop_0, list_inserts_app by lia. rewrite app_assoc.
  apply take_app_length'. rewrite length_app, length_take. lia.
Qed.

(** A full buffer is absorbed. *)
Lemma permute_absorbing P k d :
  params d → st_dir d = spongeAbsorbing → length (buf_bytes d) = rate →
  length P = (k * rate)%nat → holds (st_a d) (absorbed rate P) →
  safe permute (λ _ d', absorbing (P ++ buf_bytes d) d' ∧ is_Some (st_buf d')) d.
Proof.
  intros Hp Hd Hb HP Ha. pose proof rate_range as Hr. unfold permute. apply wp_bind, wp_gets. unfold id. rewrite Hd.
  eapply wp_bind, wp_must; [apply xorIn_ok; by rewrite Hb|]. apply wp_modify. split; [|done].
  destruct Hp. split; [done|done|split; [done|cbn; lia]|].
  exists (P ++ buf_bytes d), (S k). split; [symmetry; apply app_nil_r|]. split; [rewrite length_app; lia|].
  rewrite (absorbed_snoc rate P (buf_bytes d) k HP Hb) by lia. cbn [st_a set_a]. unfold absorb_block. apply keccakF1600_holds.
  destruct (rates_words _ Hrate) as (n & Hn & Hn' & Hd8). 
  replace (length (buf_bytes d) / 8)%nat with n by (by rewrite Hb). apply xor_words_holds; [exact Ha|lia|lia].
Qed.

Lemma absorbing_len m d : absorbing m d → length (buf_bytes d) = buf_len d ∧ (buf_len d < rate)%nat.
Proof.
  intros [[? ? ? Hs] _ Hb _]. pose proof rate_range. unfold buf_bytes, buf_len. destruct (st_buf d) as [b|]; [|cbn; lia].
  destruct Hb as [-> Hb]. rewrite drop_0, length_take. lia.
Qed.

Lemma alloc_buf_ok m d :
  absorbing m d → safe alloc_buf (λ _ d', absorbing m d' ∧ is_Some (st_buf d')) d.
Proof.
  intros Hd. apply wp_modify. destruct (st_buf d) as [b|] eqn:E; [by split|]. split; [|done].
  destruct Hd as [[? ? ? ?] Hdir _ (P & k & Hm & HP & Ha)]. pose proof rate_range.
  split; [done|done|split; [done|cbn; lia]|]. exists P, k. split; [|done]. rewrite Hm. unfold buf_bytes at 1. by rewrite E.
Qed.

(** The fast path: a block straight from the input *)
Lemma fast_block m p d :
  absorbing m d → is_Some (st_buf d) → buf_len d = 0%nat → (rate <= length p)%nat →
  absorbing (m ++ take rate p) (set_a (keccakF1600 (xor_words 0 (length (take rate p) / 8) (take rate p) (st_a d))) d).
Proof.
  intros Hd Hsome H0 Hp. destruct (absorbing_len _ _ Hd) as [Hl _]. destruct Hd as [[? ? ? ?] Hdir Hb (P & k & Hm & HP & Ha)].
  assert (buf_bytes d = []) as Hnil by (apply nil_length_inv; lia). rewrite Hnil, app_nil_r in Hm. subst m.
  assert (length (take rate p) = rate) as Ht by (rewrite length_take; lia). pose proof rate_range.
  split; [done|done|done|]. exists (P ++ take rate p), (S k).
  change (buf_bytes (set_a _ d)) with (buf_bytes d). rewrite Hnil.
  split; [symmetry; apply app_nil_r|]. split; [rewrite length_app; lia|].
  rewrite (absorbed_snoc rate P (take rate p) k HP Ht) by lia. cbn [st_a set_a]. unfold absorb_block. apply keccakF1600_holds.
  destruct (rates_words _ Hrate) as (n & Hn & Hn' & Hd8).
  replace (length (take rate p) / 8)%nat with n by (by rewrite Ht). apply xor_words_holds; [exact Ha|lia|lia].
Qed.

(** The slow path: some bytes of the input go to the buffer. *)
Lemma slow_block m p d :
  absorbing m d → is_Some (st_buf d) → (buf_len d + length p <= rate)%nat →
  safe (_ ← append_buf p; full ← gets (λ d, buf_len d =? st_rate d)%nat; if full : bool then permute else mret ())
    (λ _ d', absorbing (m ++ p) d' ∧ is_Some (st_buf d')) d.
Proof.
  intros Hd [b Hb] Hp. destruct (absorbing_len _ _ Hd) as [Hl Hlt].
  destruct Hd as [[Hr ? ? ?] Hdir Hbuf (P & k & Hm & HP & Ha)]. rewrite Hb in Hbuf. destruct Hbuf as [Ho _].
  unfold buf_len in Hp, Hl. rewrite Hb in Hp, Hl. pose proof rate_range.
  apply wp_bind. eapply wp_mono; [apply (append_buf_ok b); [done|done|lia|done]|].
  intros _ d' (storage & -> & Hs & Ht). apply wp_bind, wp_gets. cbn [buf_len st_buf set_buf sl_len st_rate set_storage]. rewrite Hr.
  set (d' := set_buf _ _). assert (buf_bytes d' = buf_bytes d ++ p) as Hbytes by (rewrite <-Ht; unfold d', buf_bytes; cbn; by rewrite drop_0).
  destruct (Nat.eqb_spec (sl_len b + length p) rate) as [Hfull|Hfull].
  - rewrite Hm, <-app_assoc, <-Hbytes. apply (permute_absorbing P k); [done|done| |done|done].
    rewrite Hbytes, length_app. lia.
  - apply wp_ret. split; [|done]. split; [done|done|cbn; lia|]. exists P, k. by rewrite Hbytes, Hm, <-app_assoc.
Qed.

Lemma absorb_ok fuel : ∀ m p d,
  absorbing m d → is_Some (st_buf d) → (length p <= fuel)%nat →
  safe (absorb fuel p) (λ _ d', absorbing (m ++ p) d') d.
Proof.
  induction fuel as [|fuel IH]; intros m p d Hd Hb Hf.
  - destruct p; [|cbn in Hf; lia]. apply wp_ret. by rewrite app_nil_r.
  - cbn [absorb]. destruct (Nat.eqb_spec (length p) 0) as [E|E].
    { apply nil_length_inv in E as ->. apply wp_ret. by rewrite app_nil_r. }
    pose proof (p_rate _ (ab_params _ _ Hd)) as Hr. destruct (absorbing_len _ _ Hd) as [_ Hlt]. pose proof rate_range.
    apply wp_bind, wp_gets. unfold id. rewrite Hr. destruct (_ && _) eqn:Efast.
    + eapply wp_bind, wp_must; [apply xorIn_ok; rewrite length_take, Nat.min_l by lia; exact Hrate|].
      apply wp_bind, wp_modify. replace (m ++ p) with ((m ++ take rate p) ++ drop rate p) by (by rewrite <-app_assoc, take_drop).
      apply IH; [apply fast_block; (done || lia)|done|rewrite length_drop; lia].
    + set (todo := Nat.min (rate - buf_len d) (length p)).
      opose proof (slow_block m (take todo p) d Hd Hb _) as Hslow; [rewrite length_take; lia|].
      replace (m ++ p) with ((m ++ take todo p) ++ drop todo p) by (by rewrite <-app_assoc, take_drop).
      assert (length (drop todo p) <= fuel)%nat as Hdrop by (rewrite length_drop; lia).
      revert Hslow. unfold wp, mbind, M_bind, gets. destruct (append_buf _ d) as [[] d1|]; [|done].
      destruct ((if _ : bool then permute else _) d1) as [[] d2|]; [|done]. intros [Hd2 Hb2]. by apply IH.
Qed.

Lemma Write_ok m p d :
  absorbing m d → safe (Write p) (λ n d', n = length p ∧ absorbing (m ++ p) d') d.
Proof.
  intros Hd. unfold Write. apply wp_bind, wp_gets. unfold id. rewrite (ab_dir _ _ Hd). apply wp_bind.
  eapply wp_mono; [by apply alloc_buf_ok|]. intros _ d1 [Hd1 Hb1]. apply wp_bind.
  eapply wp_mono; [apply absorb_ok; [done|done|lia]|]. intros ? d2 Hd2. by apply wp_ret.
Qed.

(** ** Reading *)

(** [buf] becomes the first [rate] bytes of the state. *)
Lemma refill_ok S d :
  params d → holds (st_a d) S →
  safe refill (λ _ d', ∃ storage,
    d' = set_storage storage (set_buf (Slice 0 rate) d) ∧ length storage = maxRate ∧ take rate storage = take rate S) d.
Proof.
  intros [Hr ? ? Hs] Ha. pose proof rate_range. unfold refill. apply wp_bind, wp_gets. unfold id. rewrite Hr.
  eapply wp_bind, wp_must; [apply (storage_slice_ok 0); lia|]. rewrite Nat.sub_0_r.
  assert (length (take rate (st_storage d)) = rate) as Ht by (rewrite length_take; lia).
  eapply wp_bind, wp_must; [apply copyOut_ok; by rewrite Ht|]. apply wp_modify. rewrite Ht, (holds_bytes _ S Ha).
  assert (length (take rate S) = rate) as HtS by (rewrite length_take; destruct Ha as [-> _]; unfold maxRate in *; lia).
  eexists. split; [reflexivity|]. split; [by rewrite length_overlay|].
  cbn [st_storage set_buf]. rewrite overlay_app by lia. rewrite HtS. by apply take_app_length'.
Qed.

Lemma length_final m : length (final_state rate ds m) = 200%nat.
Proof. apply length_absorbed. Qed.

(** The buffer is filled with the next block of the output. *)
Lemma permute_squeezing m k d :
  params d → st_dir d = spongeSqueezing → holds (st_a d) (Nat.iter k Keccak_p (final_state rate ds m)) →
  safe permute (λ _ d', squeezing m (S k * rate) d') d.
Proof.
  intros Hp Hdir Ha. pose proof rate_range. unfold permute. apply wp_bind, wp_gets. unfold id. rewrite Hdir.
  apply wp_bind, wp_modify. apply keccakF1600_holds in Ha.
  eapply wp_mono; [eapply (refill_ok (Keccak_p _) (set_a (keccakF1600 (st_a d)) d)); [by destruct Hp|exact Ha]|].
  intros _ d' (storage & -> & Hs & Ht).
  assert (S k * rate / rate = S k)%nat as Ediv by (apply Nat.div_mul; lia).
  assert ((S k * rate) mod rate = 0)%nat as Emod by (apply Nat.Div0.mod_mul).
  destruct Hp. split; rewrite ?Ediv, ?Emod; cbn [st_dir set_storage set_buf set_a st_buf st_a st_storage Nat.iter nat_rect].
  - done.
  - done.
  - by rewrite Nat.sub_0_r.
  - exact Ha.
  - exact Ht.
Qed.

(** What [padAndPermute] leaves in the buffer before it permutes *)
Lemma padding_written (buf storage : list byte) :
  (length buf < rate)%nat → length storage = maxRate → take (length buf + 1) storage = buf ++ [ds] →
  ∃ last,
    let storage' := set_bytes (seq (length buf + 1) (rate - (length buf + 1))) Byte.x00 storage in
    length storage' = maxRate ∧ storage' !! (rate - 1)%nat = Some last ∧
    take rate (<[(rate - 1)%nat := zb (bz last ⊕ 0x80)]> storage') = buf ++ padding rate ds (length buf).
Proof.
  intros Hl Hs Ht. pose proof rate_range as Hr. unfold maxRate in *. set (n := length buf) in *.
  rewrite set_bytes_inserts by lia. rewrite Ht. replace (n + 1 + (rate - (n + 1)))%nat with rate by lia.
  unfold padding. rewrite (Nat.mod_small n) by lia.
  destruct (Nat.eqb_spec (rate - n) 1) as [E|E].
  - exists ds. replace (rate - (n + 1))%nat with 0%nat by lia. change (zeros 0) with (@nil byte). rewrite app_nil_l.
    replace (rate - 1)%nat with (length buf + 0)%nat by lia.
    rewrite <-app_assoc, lookup_app_r, Nat.add_comm, Nat.add_sub by lia. split; [|split; [done|]].
    + rewrite !length_app, length_drop. cbn. lia.
    + rewrite Nat.add_comm, insert_app_r. cbn [app insert list_insert]. rewrite cons_middle, app_assoc.
      apply take_app_length'. rewrite length_app. cbn. lia.
  - exists Byte.x00.
    assert (zeros (rate - (n + 1)) = zeros (rate - n - 2) ++ [Byte.x00]) as Ez.
    { unfold zeros. rewrite <-replicate_S_end. f_equal. lia. }
    set (l := (buf ++ [ds]) ++ zeros (rate - n - 2)).
    assert (length l = rate - 1)%nat as Hll by (unfold l, zeros; rewrite !length_app, length_replicate; cbn; lia).
    replace ((buf ++ [ds]) ++ zeros (rate - (n + 1)) ++ drop rate storage) with (l ++ [Byte.x00] ++ drop rate storage)
      by (unfold l; rewrite Ez, <-!app_assoc; done).
    replace (rate - 1)%nat with (length l + 0)%nat by lia. split; [|split].
    + rewrite !length_app, length_drop, Hll. cbn. lia.
    + by rewrite lookup_app_r, Nat.add_comm, Nat.add_sub by lia.
    + rewrite insert_app_r. cbn [app insert list_insert]. rewrite cons_middle, app_assoc.
      rewrite take_app_length' by (rewrite length_app, Hll; cbn; lia). unfold l. rewrite <-!app_assoc. done.
Qed.

Lemma padding_mod k n : (n < rate)%nat → padding rate ds (k * rate + n) = padding rate ds n.
Proof.
  intros Hn. pose proof rate_range. unfold padding.
  by rewrite Nat.add_comm, Nat.Div0.mod_add.
Qed.

Lemma length_padding n : (n < rate)%nat → length (padding rate ds n) = (rate - n)%nat.
Proof.
  intros Hn. unfold padding. rewrite Nat.mod_small by done. destruct (Nat.eqb_spec (rate - n) 1) as [->|]; [done|].
  cbn [length]. rewrite length_app. unfold zeros. rewrite length_replicate. cbn. lia.
Qed.

(** After whole blocks the buffer is empty. *)
Lemma absorbing_whole m j d : absorbing m d → length m = (j * rate)%nat → holds (st_a d) (absorbed rate m).
Proof.
  intros Hd Hm. destruct (absorbing_len _ _ Hd) as [Hl Hlt]. destruct Hd as [_ _ _ (P & k & E & HP & Ha)].
  assert (buf_bytes d = []) as Hnil.
  { apply nil_length_inv. rewrite E, length_app, HP in Hm. destruct (Nat.le_gt_cases j k); nia. }
  rewrite Hnil, app_nil_r in E. by subst.
Qed.

Lemma filled_squeezing m d d' :
  params d → holds (st_a d) (final_state rate ds m) →
  (∃ storage, d' = set_storage storage (set_buf (Slice 0 rate) (set_dir spongeSqueezing d)) ∧
     length storage = maxRate ∧ take rate storage = take rate (final_state rate ds m)) →
  squeezing m 0 d'.
Proof.
  intros [? ? ? ?] Ha (storage & -> & Hs & Ht). pose proof rate_range.
  assert (0 / rate = 0)%nat as Ediv by (apply Nat.div_small; lia).
  assert (0 mod rate = 0)%nat as Emod by (apply Nat.mod_small; lia).
  split; rewrite ?Ediv, ?Emod; cbn [st_dir set_storage set_buf set_dir st_buf st_a st_storage Nat.iter nat_rect].
  - done.
  - done.
  - by rewrite Nat.sub_0_r.
  - exact Ha.
  - exact Ht.
Qed.

Lemma padAndPermute_ok m d : absorbing m d → safe (padAndPermute ds) (λ _ d', squeezing m 0 d') d.
Proof.
  intros Hd. pose proof rate_range as Hr. unfold padAndPermute. apply wp_bind.
  eapply wp_mono; [by apply alloc_buf_ok|]. clear d Hd. intros _ d [Hd [b Hb]]. destruct (absorbing_len _ _ Hd) as [Hl Hlt].
  destruct Hd as [[Hrt ? ? ?] Hdir Hbuf (P & k & Hm & HP & Ha)]. rewrite Hb in Hbuf. destruct Hbuf as [Ho _].
  unfold buf_len in Hl, Hlt. rewrite Hb in Hl, Hlt. apply wp_bind.
  eapply wp_mono; [apply (append_buf_ok b); [done|done|cbn; lia|done]|]. intros _ d1 (storage & -> & Hs & Ht).
  apply wp_bind, wp_gets, wp_bind, wp_gets. cbn [buf_len st_buf set_buf st_rate set_storage sl_len length]. rewrite Hrt.
  eapply wp_bind, wp_must; [apply (storage_slice_ok 0); lia|]. rewrite Nat.sub_0_r. do 2 apply wp_bind, wp_modify.
  apply wp_bind, wp_gets. unfold id. cbn [length] in Ht. rewrite <-Hl in Ht |- *.
  destruct (padding_written (buf_bytes d) storage) as (last & Hs' & Hlast & Hpad); [lia|done|done|].
  cbn [st_storage set_storage set_buf]. set (storage' := set_bytes _ _ _) in *.
  destruct (Nat.eqb_spec rate 0); [lia|]. eapply wp_bind, wp_must; [exact Hlast|]. apply wp_bind, wp_modify.
  cbn [st_storage set_storage set_buf]. set (storage2 := <[_ := _]> storage') in *.
  apply wp_bind. eapply wp_mono.
  { apply (permute_absorbing P k); [split; try done; cbn; unfold storage2; by rewrite length_insert|done| |done|exact Ha].
    unfold buf_bytes. cbn [st_buf set_storage set_buf sl_len sl_off st_storage]. rewrite drop_0, length_take.
    unfold storage2. rewrite length_insert, Hs'. lia. }
  intros _ d2 [Hd2 _]. unfold buf_bytes in Hd2 at 1. cbn [st_buf set_storage set_buf sl_len sl_off st_storage] in Hd2.
  rewrite drop_0, Hpad, app_assoc, <-Hm in Hd2. apply wp_bind, wp_modify.
  assert (padding rate ds (length (buf_bytes d)) = padding rate ds (length m)) as Epad.
  { rewrite Hm, length_app, HP, padding_mod; [done|lia]. }
  assert (holds (st_a d2) (final_state rate ds m)) as Ha2.
  { unfold final_state. rewrite <-Epad. apply (absorbing_whole _ (S k)); [done|].
    rewrite Hm, !length_app, length_padding by lia. lia. }
  eapply wp_mono; [apply (refill_ok (final_state rate ds m) (set_dir spongeSqueezing d2)); [by destruct (ab_params _ _ Hd2)|exact Ha2]|].
  intros ? d3 H3. exact (filled_squeezing m d2 d3 (ab_params _ _ Hd2) Ha2 H3).
Qed.

(** ** Squeezing *)

(** The next bytes of the output, up to the end of the block *)
Lemma output_block m k j :
  (j <= rate - k mod rate)%nat →
  output rate ds m k j = take j (drop (k mod rate) (take rate (Nat.iter (k / rate) Keccak_p (final_state rate ds m)))).
Proof.
  intros Hj. pose proof rate_range as Hr. unfold maxRate in Hr.
  pose proof (length_iter_p (k / rate) _ (length_final m)) as HS.
  pose proof (Nat.mod_upper_bound k rate ltac:(lia)) as Hmod.
  assert (∀ i, i < j → (k + i) / rate = k / rate ∧ (k + i) mod rate = k mod rate + i)%nat as Hblock.
  { intros i Hi. pose proof (Nat.div_mod_eq k rate). split; symmetry;
      [apply Nat.div_unique with (k mod rate + i)%nat|apply Nat.mod_unique with (k / rate)%nat]; lia. }
  apply list_eq_same_length with j.
  - rewrite length_take, length_drop, length_take, HS. lia.
  - unfold output. by rewrite length_fmap, length_seq.
  - intros i x y Hi Hx Hy. unfold output in Hx. rewrite list_lookup_fmap, lookup_seq_lt in Hx by done.
    cbn [fmap option_fmap option_map] in Hx. apply (inj Some) in Hx as <-. unfold output_byte.
    destruct (Hblock i Hi) as [-> ->]. rewrite lookup_take, decide_True, lookup_drop, lookup_take, decide_True in Hy by lia.
    rewrite nth_lookup. by rewrite Hy.
Qed.

Lemma output_app m k i j : output rate ds m k (i + j) = output rate ds m k i ++ output rate ds m (k + i) j.
Proof. unfold output. by rewrite seq_app, fmap_app. Qed.

Lemma squeezing_bytes m k d : squeezing m k d → buf_bytes d = output rate ds m k (rate - k mod rate).
Proof.
  intros [[? ? ? Hs] _ Hb _ Ht]. pose proof rate_range. rewrite output_block by lia. rewrite <-Ht.
  unfold buf_bytes. rewrite Hb. cbn [sl_len sl_off]. rewrite !take_drop_commute, take_take.
  pose proof (Nat.mod_upper_bound k rate ltac:(lia)).
  replace (k mod rate + (rate - k mod rate))%nat with rate by lia. by rewrite Nat.min_id.
Qed.

(** Reading [j] bytes of the buffer without emptying it *)
Lemma squeezing_advance m k j d :
  squeezing m k d → (j < rate - k mod rate)%nat →
  squeezing m (k + j) (set_buf (Slice (k mod rate + j) (rate - k mod rate - j)) d).
Proof.
  intros [[? ? ? ?] Hdir Hb Ha Ht] Hj. pose proof rate_range. pose proof (Nat.div_mod_eq k rate).
  assert ((k + j) / rate = k / rate)%nat as Ediv by (symmetry; apply Nat.div_unique with (k mod rate + j)%nat; lia).
  assert ((k + j) mod rate = k mod rate + j)%nat as Emod by (symmetry; apply Nat.mod_unique with (k / rate)%nat; lia).
  split; rewrite ?Ediv, ?Emod; try done. cbn. do 2 f_equal. lia.
Qed.

Lemma squeeze_ok fuel : ∀ m k n d,
  squeezing m k d → (n <= fuel)%nat →
  safe (squeeze fuel n) (λ out d', out = output rate ds m k n ∧ squeezing m (k + n) d') d.
Proof.
  pose proof rate_range as Hr. induction fuel as [|fuel IH]; intros m k n d Hd Hn.
  - destruct n; [|lia]. apply wp_ret. by rewrite Nat.add_0_r.
  - cbn [squeeze]. destruct (Nat.eqb_spec n 0) as [->|E]; [apply wp_ret; by rewrite Nat.add_0_r|].
    apply wp_bind, wp_gets. unfold id. eapply wp_bind, wp_must; [apply (sq_buf _ _ _ Hd)|]. cbn [sl_len sl_off].
    rewrite (squeezing_bytes _ _ _ Hd). pose proof (Nat.mod_upper_bound k rate ltac:(lia)) as Hmod.
    set (j := Nat.min n (rate - k mod rate)).
    assert (take j (output rate ds m k (rate - k mod rate)) = output rate ds m k j) as ->.
    { replace (rate - k mod rate)%nat with (j + (rate - k mod rate - j))%nat by lia. rewrite output_app.
      apply take_app_length'. unfold output. by rewrite length_fmap, length_seq. }
    assert (output rate ds m k n = output rate ds m k j ++ output rate ds m (k + j) (n - j)) as ->
      by (rewrite <-output_app; f_equal; lia).
    replace (k + n)%nat with (k + j + (n - j))%nat by lia.
    apply wp_bind, wp_modify, wp_bind.
    eapply (wp_mono _ _ (λ _ d', squeezing m (k + j) d')).
    + destruct (Nat.eqb_spec (rate - k mod rate - j) 0) as [Ez|Ez].
      * destruct Hd as [[? ? ? ?] Hdir Hb Ha Ht]. pose proof (Nat.div_mod_eq k rate).
        replace (k + j)%nat with (S (k / rate) * rate)%nat by lia. apply permute_squeezing; done.
      * apply wp_ret, squeezing_advance; [done|lia].
    + intros _ d1 Hd1. apply wp_bind. eapply wp_mono; [apply (IH m (k + j)%nat); [done|lia]|].
      intros out d2 [-> Hd2]. by apply wp_ret.
Qed.

Lemma Read_squeezing m k n d :
  squeezing m k d → safe (Read n) (λ out d', out = output rate ds m k n ∧ squeezing m (k + n) d') d.
Proof.
  intros Hd. unfold Read. apply wp_bind, wp_gets. unfold id. rewrite (sq_dir _ _ _ Hd).
  apply wp_bind, wp_ret. apply squeeze_ok; [done|lia].
Qed.

Lemma Read_absorbing m n d :
  absorbing m d → safe (Read n) (λ out d', out = sponge rate ds m n ∧ squeezing m n d') d.
Proof.
  intros Hd. unfold Read. apply wp_bind, wp_gets. unfold id. rewrite (ab_dir _ _ Hd), (p_ds _ (ab_params _ _ Hd)).
  apply wp_bind. eapply wp_mono; [by apply padAndPermute_ok|]. intros ? d1 Hd1. apply (squeeze_ok (S n) m 0); [done|lia].
Qed.

(** ** Copies *)

Lemma clone_absorbing m d : absorbing m d → ∃ d', clone d = Some d' ∧ absorbing m d'.
Proof.
  intros Hd. destruct (absorbing_len _ _ Hd) as [Hl Hlt]. destruct Hd as [[? ? ? ?] Hdir Hb (P & k & Hm & HP & Ha)].
  pose proof rate_range. unfold clone. rewrite Hdir. rewrite (storage_slice_ok 0) by lia. rewrite Nat.sub_0_r.
  eexists. split; [reflexivity|]. split; [done|done|done|]. exists P, k. split; [|done].
  rewrite Hm. unfold buf_bytes, buf_len in *. destruct (st_buf d) as [b|]; [|done]. by destruct Hb as [-> _].
Qed.

(** The offset of the copy is counted from the end of [storage]; it is right only
    where the rate fills [storage]. *)
Lemma clone_squeezing m k d :
  squeezing m k d →
  match clone d with
  | None => (k mod rate < maxRate - rate)%nat
  | Some d' => (maxRate - rate <= k mod rate)%nat ∧ squeezing m (k - (maxRate - rate)) d'
  end.
Proof.
  intros [[Hr ? ? ?] Hdir Hb Ha Ht]. pose proof rate_range. pose proof (Nat.mod_upper_bound k rate ltac:(lia)).
  pose proof (Nat.div_mod_eq k rate). unfold clone. rewrite Hdir, Hr. unfold buf_cap. rewrite Hb. cbn [sl_off].
  unfold storage_slice. destruct (_ && _) eqn:E; cbn [mbind option_bind]; [|lia]. split; [lia|]. set (c := (maxRate - rate)%nat) in *.
  assert ((k - c) / rate = k / rate)%nat as Ediv by (symmetry; apply Nat.div_unique with (k mod rate - c)%nat; lia).
  assert ((k - c) mod rate = k mod rate - c)%nat as Emod by (symmetry; apply Nat.mod_unique with (k / rate)%nat; lia).
  split; rewrite ?Ediv, ?Emod; try done. cbn [st_buf set_buf]. do 2 f_equal; lia.
Qed.

Lemma Sum_absorbing m input d :
  absorbing m d → Sum input d = Done (input ++ sponge rate ds m outputLen) d.
Proof.
  intros Hd. destruct (clone_absorbing m d Hd) as (dup & Hc & Hdup). unfold Sum, mbind, M_bind, gets, id. rewrite Hc. cbn [must]. unfold mret, M_ret.
  pose proof (Read_absorbing m outputLen dup Hdup) as Hread. unfold wp in Hread. rewrite (p_out _ (ab_params _ _ Hdup)).
  destruct (Read outputLen dup) as [out d'|]; [|done]. by destruct Hread as [-> _].
Qed.

End sponge.
