(* ===== verification/Sha3Theorems.v ===== *)
(** * Theorems on [crypto/sha3] and the Keccak functions of [crypto/crypto.go]

    The unrolled permutation against the standard, every sequence of calls of a
    hash against an abstract sponge, the functions the rest of the program
    hashes with, and what [Clone] does to a hash that has been read. *)
From S2P Require Import Prelude BigMath Rlp VmTypes VmSample Keccakf KeccakRef Sha3 Sha3Spec Sha3Ok.

(** ** Padding, bit by bit *)

(** The bits of a byte string in the order of the standard *)
Definition byte_bits (b : byte) : list bool := (λ i, Z.testbit (bz b) (Z.of_nat i)) <$> seq 0 8.
Definition bits (l : list byte) : list bool := l ≫= byte_bits.

(** The domain separation bits of the hash functions *)
Definition suffix_of (ds : byte) : list bool :=
  if bz ds =? 0x06 then [false; true] else if bz ds =? 0x1f then [true; true; true; true] else [].

Lemma bits_zeros n : bits (zeros n) = replicate (8 * n) false.
Proof.
  induction n as [|n IH]; [done|]. change (zeros (S n)) with (Byte.x00 :: zeros n). unfold bits. rewrite bind_cons.
  fold (bits (zeros n)). rewrite IH. replace (8 * S n)%nat with (8 + 8 * n)%nat by lia. by rewrite replicate_add.
Qed.

(** The padding is the suffix, a one, as few zeros as fit, and a one. *)
Lemma padding_bits rate ds n :
  (0 < rate)%nat → In (bz ds) [0x01; 0x06; 0x1f] →
  ∃ z, bits (padding rate ds n) = suffix_of ds ++ true :: replicate z false ++ [true] ∧
       (length (bits (padding rate ds n)) <= 8 * rate)%nat.
Proof.
  intros Hr Hds. pose proof (Nat.mod_upper_bound n rate ltac:(lia)) as Hmod.
  assert (Forall (λ ds, ∃ z, byte_bits ds = suffix_of ds ++ true :: replicate (S z) false ∧
     byte_bits (bxor ds (zb 0x80)) = suffix_of ds ++ true :: replicate z false ++ [true]) [zb 0x01; zb 0x06; zb 0x1f]) as Hall.
  { repeat constructor; [exists 6%nat|exists 4%nat|exists 2%nat]; (split; vm_compute; reflexivity). }
  assert (ds ∈ [zb 0x01; zb 0x06; zb 0x1f]) as Hin.
  { rewrite <-(zb_bz ds). destruct Hds as [<-|[<-|[<-|[]]]]; set_solver. }
  rewrite Forall_forall in Hall. apply list_elem_of_In, Hall in Hin as (z & Ez & Ex). unfold padding.
  destruct (Nat.eqb_spec (rate - n mod rate) 1) as [E|E].
  - exists z. unfold bits. cbn [mbind list_bind]. rewrite app_nil_r, Ex. split; [done|].
    rewrite <-Ex. unfold byte_bits. rewrite length_fmap, length_seq. lia.
  - exists (S z + 8 * (rate - n mod rate - 2) + 7)%nat. unfold bits. rewrite bind_cons, bind_app.
    fold (bits (zeros (rate - n mod rate - 2))). rewrite bits_zeros, Ez. split.
    + change ([zb 0x80] ≫= byte_bits) with (replicate 7 false ++ [true]).
      rewrite <-!app_assoc, !replicate_add. cbn [app]. by rewrite <-!app_assoc.
    + rewrite <-Ez, !length_app, length_replicate. change (length ([zb 0x80] ≫= byte_bits)) with 8%nat.
      unfold byte_bits. rewrite length_fmap, length_seq. lia.
Qed.

(** ** The permutation *)

(** C15: the permutation that [keccakF1600] computes in place, with four unrolled
    rounds per pass on moving layouts of the lanes, is Keccak-f[1600] of the
    standard: 24 rounds of theta, rho, pi, chi and iota, with the rotation
    offsets and round constants computed from their definitions. *)
Theorem keccakF1600_correct s : lanes_list (keccakF1600 s) = keccak_f (lanes_list s).
Proof. apply keccakF1600_ref. Qed.

(** ** Calls of a hash *)

Inductive op :=
  | OpWrite (p : list byte)
  | OpRead (n : nat)
  | OpSum (input : list byte)
  | OpReset
  | OpClone.

Inductive reply := Wrote (n : nat) | Bytes (l : list byte) | Unit.

(** A call; after [Clone] the copy is used. *)
Definition impl_step `{!XorImpl} (o : op) : M state reply :=
  match o with
  | OpWrite p => n ← Write p; mret (Wrote n)
  | OpRead n => l ← Read n; mret (Bytes l)
  | OpSum input => l ← Sum input; mret (Bytes l)
  | OpReset => _ ← Reset; mret Unit
  | OpClone => λ d, match clone d with Some d' => Done Unit d' | None => Fault Panic end
  end.

(** What the calls return, up to the first that panics *)
Fixpoint impl_run `{!XorImpl} (ops : list op) (d : state) : list (option reply) :=
  match ops with
  | [] => []
  | o :: ops =>
      match impl_step o d with
      | Done r d => Some r :: impl_run ops d
      | Fault _ => [None]
      end
  end.

(** The abstract sponge: the message absorbed, and how much of its output has been
    read once reading has begun *)
Inductive sponge_state := Absorbing (m : list byte) | Squeezing (m : list byte) (k : nat).

Section abstract.
Context (rate outputLen : nat) (ds : byte).

Definition spec_step (o : op) (s : sponge_state) : option (reply * sponge_state) :=
  match o, s with
  | OpWrite p, Absorbing m => Some (Wrote (length p), Absorbing (m ++ p))
  | OpWrite _, Squeezing _ _ => None
  | OpRead n, Absorbing m => Some (Bytes (sponge rate ds m n), Squeezing m n)
  | OpRead n, Squeezing m k => Some (Bytes (output rate ds m k n), Squeezing m (k + n))
  | OpSum input, Absorbing m => Some (Bytes (input ++ sponge rate ds m outputLen), s)
  | OpSum input, Squeezing m k => Some (Bytes (input ++ output rate ds m k outputLen), s)
  | OpReset, _ => Some (Unit, Absorbing [])
  | OpClone, _ => Some (Unit, s)
  end.

Fixpoint spec_run (ops : list op) (s : sponge_state) : list (option reply) :=
  match ops with
  | [] => []
  | o :: ops =>
      match spec_step o s with
      | Some (r, s) => Some r :: spec_run ops s
      | None => [None]
      end
  end.

(** No copy of a hash that has been read, unless its blocks fill [storage] *)
Definition copies_ok (o : op) (s : sponge_state) : bool :=
  match o, s with
  | OpSum _, Squeezing _ _ | OpClone, Squeezing _ _ => (rate =? maxRate)%nat
  | _, _ => true
  end.

Fixpoint legal (ops : list op) (s : sponge_state) : bool :=
  match ops with
  | [] => true
  | o :: ops => copies_ok o s && match spec_step o s with Some (_, s) => legal ops s | None => true end
  end.

End abstract.

Section simulation.
Context {IMPL : XorImpl} {LAWS : XorLaws} (rate outputLen : nat) (ds : byte) (Hrate : rate ∈ rates).

Definition in_state (s : sponge_state) (d : state) : Prop :=
  match s with
  | Absorbing m => absorbing rate outputLen ds m d
  | Squeezing m k => squeezing rate outputLen ds m k d
  end.

Lemma in_state_params s d : in_state s d → params rate outputLen ds d.
Proof. destruct s; [apply ab_params|apply sq_params]. Qed.

Lemma clone_full m k d :
  rate = maxRate → squeezing rate outputLen ds m k d → ∃ d', clone d = Some d' ∧ squeezing rate outputLen ds m k d'.
Proof.
  intros E Hd. pose proof (clone_squeezing rate outputLen ds Hrate m k d Hd) as H. 
  assert (maxRate - rate = 0)%nat as Ez by lia. rewrite Ez in H.
  destruct (clone d) as [d'|]; [|lia]. destruct H as [_ H]. rewrite Nat.sub_0_r in H. by exists d'.
Qed.

Lemma Sum_full m k input d :
  rate = maxRate → squeezing rate outputLen ds m k d → Sum input d = Done (input ++ output rate ds m k outputLen) d.
Proof.
  intros E Hd. destruct (clone_full m k d E Hd) as (dup & Hc & Hdup). unfold Sum, mbind, M_bind, gets, id. rewrite Hc.
  cbn [must]. unfold mret, M_ret. rewrite (p_out _ _ _ _ (sq_params _ _ _ _ _ _ Hdup)).
  pose proof (Read_squeezing rate outputLen ds Hrate m k outputLen dup Hdup) as H. unfold wp in H.
  destruct (Read outputLen dup) as [out d'|]; [|done]. by destruct H as [-> _].
Qed.

(** One call: the same reply, or a panic on both sides *)
Lemma step_simulates o s d :
  in_state s d → copies_ok rate o s = true →
  match spec_step rate outputLen ds o s with
  | Some (r, s') => ∃ d', impl_step o d = Done r d' ∧ in_state s' d'
  | None => ∃ f, impl_step o d = Fault f
  end.
Proof.
  intros Hd Hc. destruct o as [p|n|input| |], s as [m|m k]; cbn [spec_step impl_step in_state copies_ok] in *.
  - pose proof (Write_ok rate outputLen ds Hrate m p d Hd) as H. unfold wp in H. unfold mbind, M_bind.
    destruct (Write p d) as [x d'|]; [|done]. destruct H as [-> H]. by exists d'.
  - exists Panic. unfold Write, mbind, M_bind, gets, id. by rewrite (sq_dir _ _ _ _ _ _ Hd).
  - pose proof (Read_absorbing rate outputLen ds Hrate m n d Hd) as H. unfold wp in H. unfold mbind, M_bind.
    destruct (Read n d) as [x d'|]; [|done]. destruct H as [-> H]. by exists d'.
  - pose proof (Read_squeezing rate outputLen ds Hrate m k n d Hd) as H. unfold wp in H. unfold mbind, M_bind.
    destruct (Read n d) as [x d'|]; [|done]. destruct H as [-> H]. by exists d'.
  - unfold mbind, M_bind. rewrite (Sum_absorbing rate outputLen ds Hrate m input d Hd). by exists d.
  - apply Nat.eqb_eq in Hc. unfold mbind, M_bind. rewrite (Sum_full m k input d Hc Hd). by exists d.
  - pose proof (Reset_ok rate outputLen ds Hrate d (ab_params _ _ _ _ _ Hd)) as H. by eexists.
  - pose proof (Reset_ok rate outputLen ds Hrate d (sq_params _ _ _ _ _ _ Hd)) as H. by eexists.
  - destruct (clone_absorbing rate outputLen ds Hrate m d Hd) as (d' & -> & H). by exists d'.
  - apply Nat.eqb_eq in Hc. destruct (clone_full m k d Hc Hd) as (d' & -> & H). by exists d'.
Qed.

Lemma run_simulates ops : ∀ s d,
  in_state s d → legal rate outputLen ds ops s = true → impl_run ops d = spec_run rate outputLen ds ops s.
Proof.
  induction ops as [|o ops IH]; intros s d Hd Hl; [done|]. cbn [legal] in Hl. apply andb_true_iff in Hl as [Hc Hl].
  cbn [impl_run spec_run]. pose proof (step_simulates o s d Hd Hc) as H.
  destruct (spec_step rate outputLen ds o s) as [[r s']|].
  - destruct H as (d' & -> & Hd'). f_equal. by apply IH.
  - by destruct H as [f ->].
Qed.

End simulation.

(** C14: every sequence of calls of [Write], [Read], [Sum], [Reset] and [Clone] on a
    new hash returns what the abstract sponge returns, for every rate of the
    package and for both ways of reading and writing the state: [Sum] and [Read]
    give the bytes of the specification for everything written since the last
    reset, however the writes were cut, [Sum] does not disturb the hash, and a
    write after a read panics.  Copies of a hash that has been read are left out,
    unless its rate is [maxRate]. *)
Theorem sponge_refines {IMPL : XorImpl} {LAWS : XorLaws} rate outputLen ds ops :
  rate ∈ rates → legal rate outputLen ds ops (Absorbing []) = true →
  impl_run ops (new_state rate outputLen ds) = spec_run rate outputLen ds ops (Absorbing []).
Proof. intros Hr Hl. apply run_simulates; [done| |done]. apply (new_absorbing rate outputLen ds). Qed.

Lemma sponge_refines_witness :
  let ops := [OpWrite [Byte.x61]; OpSum []; OpWrite [Byte.x62; Byte.x63]; OpRead 200; OpRead 1; OpWrite []; OpReset] in
  @impl_run unaligned_impl ops NewShake256 = spec_run 136 0 (zb 0x1f) ops (Absorbing []).
Proof. intros ops. apply (@sponge_refines unaligned_impl unaligned_laws); [apply list_elem_of_In; cbn; auto|reflexivity]. Defined.

(** ** The hash functions *)

Section functions.
Context {IMPL : XorImpl} {LAWS : XorLaws} (rate outputLen : nat) (ds : byte) (Hrate : rate ∈ rates).

Lemma write_all_ok data : ∀ m d,
  absorbing rate outputLen ds m d →
  wp (λ _, False) (write_all data) (λ _ d', absorbing rate outputLen ds (m ++ mjoin data) d') d.
Proof.
  induction data as [|b data IH]; intros m d Hd; cbn [write_all].
  - apply wp_ret. by rewrite app_nil_r.
  - apply wp_bind. eapply wp_mono; [by apply (Write_ok rate outputLen ds Hrate m b)|]. intros n d' [_ Hd'].
    cbn [mjoin list_join]. rewrite app_assoc. by apply IH.
Qed.

Lemma length_sponge m n : length (sponge rate ds m n) = n.
Proof. unfold sponge, output. by rewrite length_fmap, length_seq. Qed.

Lemma written_Sum data :
  result (_ ← write_all data; Sum []) (new_state rate outputLen ds) = Some (sponge rate ds (mjoin data) outputLen).
Proof.
  unfold result, mbind, M_bind. pose proof (write_all_ok data [] _ (new_absorbing rate outputLen ds)) as H. unfold wp in H.
  destruct (write_all data _) as [u d|]; [|done]. by rewrite (Sum_absorbing rate outputLen ds Hrate _ _ _ H).
Qed.

Lemma written_sum_into data :
  result (_ ← write_all data; sum_into outputLen) (new_state rate outputLen ds) = Some (sponge rate ds (mjoin data) outputLen).
Proof.
  pose proof (write_all_ok data [] _ (new_absorbing rate outputLen ds)) as H. unfold wp in H.
  unfold result, mbind at 1, M_bind at 1. destruct (write_all data _) as [u d|]; [|done].
  unfold sum_into, mbind, M_bind. rewrite (Sum_absorbing rate outputLen ds Hrate _ _ _ H). cbn. rewrite length_sponge, Nat.leb_refl.
  f_equal. apply overlay_full. rewrite length_sponge. unfold zeros. by rewrite length_replicate.
Qed.

Lemma written_Read data n :
  result (_ ← Write data; Read n) (new_state rate outputLen ds) = Some (sponge rate ds data n).
Proof.
  pose proof (Write_ok rate outputLen ds Hrate [] data _ (new_absorbing rate outputLen ds)) as H. unfold wp in H.
  unfold result, mbind, M_bind. destruct (Write data _) as [u d|]; [|done]. destruct H as [_ H].
  pose proof (Read_absorbing rate outputLen ds Hrate data n d H) as H'. unfold wp in H'.
  destruct (Read n d) as [out d'|]; [|done]. by destruct H' as [-> _].
Qed.

(** One [Write] is a list of one. *)
Lemma written_once data :
  result (_ ← Write data; sum_into outputLen) (new_state rate outputLen ds) = Some (sponge rate ds data outputLen).
Proof.
  pose proof (written_sum_into [data]) as H. cbn [mjoin list_join] in H. rewrite app_nil_r in H. rewrite <-H.
  unfold result, mbind, M_bind. cbn [write_all]. unfold mbind, M_bind. destruct (Write data _) as [u d|]; reflexivity.
Qed.

End functions.

Ltac in_rates := apply list_elem_of_In; cbn; tauto.

(** C27: the hash functions never panic, and return the standard functions of the
    concatenation of their arguments: [crypto.Keccak256], [Keccak256Hash] and
    [Keccak512] with the original padding, [Sum224] to [Sum512] with the domain
    bits of SHA-3, [ShakeSum128] and [ShakeSum256] with those of SHAKE and an
    output of any length. *)
Theorem hashes_correct {IMPL : XorImpl} {LAWS : XorLaws} (data : list (list byte)) (m : list byte) (n : nat) :
  crypto_Keccak256 data = Some (sponge 136 (zb 0x01) (mjoin data) 32) ∧
  crypto_Keccak256Hash data = crypto_Keccak256 data ∧
  crypto_Keccak512 data = Some (sponge 72 (zb 0x01) (mjoin data) 64) ∧
  Sum224 m = Some (sponge 144 (zb 0x06) m 28) ∧
  Sum256 m = Some (sponge 136 (zb 0x06) m 32) ∧
  Sum384 m = Some (sponge 104 (zb 0x06) m 48) ∧
  Sum512 m = Some (sponge 72 (zb 0x06) m 64) ∧
  ShakeSum128 n m = Some (sponge 168 (zb 0x1f) m n) ∧
  ShakeSum256 n m = Some (sponge 136 (zb 0x1f) m n).
Proof.
  unfold crypto_Keccak256Hash, crypto_Keccak256, NewKeccak256. rewrite written_sum_into, written_Sum by in_rates.
  split_and!; [done|done|apply written_Sum|apply written_once|apply written_once|apply written_once|apply written_once
    |apply written_Read|apply written_Read]; in_rates.
Qed.

Lemma hashes_correct_witness :
  @crypto_Keccak256 generic_impl [[Byte.x61]; []; [Byte.x62]] = Some (sponge 136 (zb 0x01) [Byte.x61; Byte.x62] 32).
Proof. exact (proj1 (@hashes_correct generic_impl generic_laws [[Byte.x61]; []; [Byte.x62]] [] 0)). Defined.

(** The hash of the empty string, known from every Merkle trie of the program *)
Example Keccak256_empty :
  @crypto_Keccak256 generic_impl [] =
  Some (be_bytes 32 0xc5d2460186f7233c927e7db2dcc703c0e500b653ca82273b7bfad8045d85a470).
Proof. vm_compute. reflexivity. Qed.

(** ** The hash the rest of the program uses *)

(** [crypto.Keccak256] of one argument *)
Definition keccak {IMPL : XorImpl} (l : list byte) : list byte := default [] (crypto_Keccak256 [l]).

Lemma length_keccak {IMPL : XorImpl} {LAWS : XorLaws} l : length (keccak l) = 32%nat.
Proof. unfold keccak, crypto_Keccak256, NewKeccak256. rewrite written_Sum by in_rates. cbn [default]. apply length_sponge. Qed.

(** What the other components assume of the package [crypto] holds with the
    modelled Keccak-256 in place of a parameter. *)
#[local] Program Definition with_sha3 {IMPL : XorImpl} {LAWS : XorLaws} (c : Crypto) : Crypto :=
  {| Keccak256 := keccak; sha256_Sum256 := sha256_Sum256; ripemd160_Sum := ripemd160_Sum; Ecrecover := Ecrecover;
     G1 := G1; G2 := G2; G1_Unmarshal := G1_Unmarshal; G2_Unmarshal := G2_Unmarshal; G1_Marshal := G1_Marshal;
     G1_Add := G1_Add; G1_ScalarMult := G1_ScalarMult; PairingCheck := PairingCheck |}.
Solve All Obligations with
  (intros; first [apply length_keccak | apply length_sha256 | apply length_ripemd160 | by eapply length_Ecrecover | apply length_G1_Marshal]).

(** ** A copy of a hash that has been read *)

(** C37: [clone] takes the offset of a hash that is being read from the capacity of
    its buffer, which ends at [maxRate] and not at [rate].  A SHAKE-256 hash from
    which [n] bytes have been read cannot be cloned when [n mod 136 < 32]: the
    slice bounds are out of range and it panics.  Otherwise the copy goes on 32
    bytes too early and returns again what has been read, while the original
    returns the next bytes. *)
Theorem clone_after_read {IMPL : XorImpl} {LAWS : XorLaws} (m : list byte) (n j : nat) :
  let peek d := match clone d with Some dup => result (Read j) dup | None => None end in
  match (_ ← Write m; Read n) NewShake256 with
  | Done _ d =>
      result (Read j) d = Some (output 136 (zb 0x1f) m n j) ∧
      peek d = if (n mod 136 <? 32)%nat then None else Some (output 136 (zb 0x1f) m (n - 32) j)
  | Fault _ => False
  end.
Proof.
  assert (136%nat ∈ rates) as Hr by in_rates. intros peek.
  pose proof (Write_ok 136 0 (zb 0x1f) Hr [] m _ (new_absorbing 136 0 (zb 0x1f))) as H. unfold wp in H.
  unfold NewShake256, mbind, M_bind. destruct (Write m _) as [u d|]; [|done]. destruct H as [_ H].
  pose proof (Read_absorbing 136 0 (zb 0x1f) Hr m n d H) as H'. unfold wp in H'. clear H.
  destruct (Read n d) as [out d1|]; [|done]. destruct H' as [_ Hd1].
  assert (∀ k d, squeezing 136 0 (zb 0x1f) m k d → result (Read j) d = Some (output 136 (zb 0x1f) m k j)) as Hread.
  { intros k d' Hd'. pose proof (Read_squeezing 136 0 (zb 0x1f) Hr m k j d' Hd') as H. unfold wp in H. unfold result.
    destruct (Read j d') as [out' d2|]; [|done]. by destruct H as [-> _]. }
  split; [by apply Hread|]. unfold peek. pose proof (clone_squeezing 136 0 (zb 0x1f) Hr m n d1 Hd1) as H.
  change (maxRate - 136)%nat with 32%nat in H. destruct (clone d1) as [dup|].
  - destruct H as [Hge Hdup]. rewrite (proj2 (Nat.ltb_ge _ _) Hge). by apply Hread.
  - by rewrite (proj2 (Nat.ltb_lt _ _) H).
Qed.

Lemma clone_after_read_witness :
  match (_ ← @Write generic_impl [Byte.x61]; @Read generic_impl 40) NewShake256 with
  | Done _ d => ∃ dup, clone d = Some dup ∧ result (@Read generic_impl 8) dup = Some (output 136 (zb 0x1f) [Byte.x61] 8 8)
  | Fault _ => False
  end.
Proof.
  pose proof (@clone_after_read generic_impl generic_laws [Byte.x61] 40 8) as H. cbv zeta in H.
  destruct ((_ ← @Write generic_impl [Byte.x61]; @Read generic_impl 40) NewShake256) as [out d|]; [|exact H].
  apply proj2 in H. change (40 mod 136 <? 32)%nat with false in H. change (40 - 32)%nat with 8%nat in H. cbv iota in H.
  destruct (clone d) as [dup|]; [|discriminate H]. exact (ex_intro _ dup (conj eq_refl H)).
Defined.
