(* ===== verification/Bitutil.v ===== *)
(** * Byte vectors and their compression: [common/bitutil]

    The bulk operations of [bitutil.go], word by word and byte by byte, and the
    compression of sparse vectors of [compress.go].  The three operations of
    [bitutil.go] are the same code with another operator; the destination may be
    one of the arguments, since every position is read before it is written. *)
From Stdlib Require Import ZifyBool.
From S2P Require Import Prelude.

(** ** [bitutil.go] *)

Section bulk.
(** [wordSize] is 4 or 8; [op] is [^], [&] or [|]. *)
Context (wordSize : nat) (op : Z → Z → Z).

(** [a[i] op b[i]] *)
Definition byte_op (x y : byte) : byte := zb (op (bz x) (bz y)).

(** [dst[i] = a[i] op b[i]] for the [n] indices from [i] on *)
Definition byte_loop (i n : nat) (a b dst : list byte) : list byte :=
  foldl (λ dst k, <[k := byte_op (nth k a Byte.x00) (nth k b Byte.x00)]> dst) dst (seq i n).

(** The word at index [i] of the bytes [l], and [dw[i] = v] *)
Definition get_word (l : list byte) (i : nat) : Z := SetBytes (take wordSize (drop (i * wordSize) l)).
Definition put_word (i : nat) (v : Z) (dst : list byte) : list byte := list_inserts (i * wordSize) (be_bytes wordSize v) dst.

(** [None]: the destination has not enough space, which the code takes for granted:
    the loop over bytes panics, the one over words writes past the end. *)
Definition safeBytes (dst a b : list byte) : option (list byte * nat) :=
  let n := Nat.min (length a) (length b) in
  if (length dst <? n)%nat then None else Some (byte_loop 0 n a b dst, n).

Definition fastBytes (dst a b : list byte) : option (list byte * nat) :=
  let n := Nat.min (length a) (length b) in
  if (length dst <? n)%nat then None else
  let w := (n / wordSize)%nat in
  let dst := foldl (λ dst i, put_word i (op (get_word a i) (get_word b i)) dst) dst (seq 0 w) in
  Some (byte_loop (n - n mod wordSize) (n mod wordSize) a b dst, n).

End bulk.

Definition fastXORBytes (wordSize : nat) := fastBytes wordSize Z.lxor.
Definition safeXORBytes := safeBytes Z.lxor.
Definition fastANDBytes (wordSize : nat) := fastBytes wordSize Z.land.
Definition safeANDBytes := safeBytes Z.land.
Definition fastORBytes (wordSize : nat) := fastBytes wordSize Z.lor.
Definition safeORBytes := safeBytes Z.lor.

Definition fastTestBytes (wordSize : nat) (p : list byte) : bool :=
  let n := length p in
  existsb (λ i, negb (get_word wordSize p i =? 0)) (seq 0 (n / wordSize)) ||
  existsb (λ i, negb (bz (nth i p Byte.x00) =? 0)) (seq (n - n mod wordSize) (n mod wordSize)).

Definition safeTestBytes (p : list byte) : bool := existsb (λ b, negb (bz b =? 0)) p.

(** What an architecture has: the size of its words, and whether they may be read
    from any address *)
Class Arch := { wordSize : nat; supportsUnaligned : bool; wordSize_pos : (0 < wordSize)%nat }.

Section dispatch.
Context {ARCH : Arch}.

Definition XORBytes := if supportsUnaligned then fastXORBytes wordSize else safeXORBytes.
Definition ANDBytes := if supportsUnaligned then fastANDBytes wordSize else safeANDBytes.
Definition ORBytes := if supportsUnaligned then fastORBytes wordSize else safeORBytes.
Definition TestBytes := if supportsUnaligned then fastTestBytes wordSize else safeTestBytes.

End dispatch.

(** ** [compress.go] *)

Inductive bitutil_error := errMissingData | errUnreferencedData | errExceededTarget | errZeroContent.

(** [l[i/8] |= 1 << byte(7-i%8)] *)
Definition set_bit (i : nat) (l : list byte) : list byte :=
  alter (λ x, zb (Z.lor (bz x) (Z.shiftl 1 (7 - Z.of_nat (i mod 8))))) (i / 8)%nat l.

(** [l[i/8]&(1<<byte(7-i%8)) != 0], for an index that is in range *)
Definition test_bit (i : nat) (l : list byte) : bool :=
  negb (Z.land (bz (nth (i / 8) l Byte.x00)) (Z.shiftl 1 (7 - Z.of_nat (i mod 8))) =? 0).

(** The loop over the data: the bitset and the bytes that are not zero *)
Definition gather_bytes (data : list byte) : list byte * list byte :=
  foldl (λ '(bitset, bytes) '(i, b),
    if bz b =? 0 then (bitset, bytes) else (set_bit i bitset, bytes ++ [b]))
    (zeros ((length data + 7) / 8), []) (zip (seq 0 (length data)) data).

(** Nil and the empty slice are the same list.  [None] is fuel that ran out; a
    bitset of more than one byte is shorter than its data. *)
Fixpoint bitsetEncode (fuel : nat) (data : list byte) : option (list byte) :=
  match fuel with
  | O => None
  | S fuel =>
      if (length data =? 0)%nat then Some []
      else if (length data =? 1)%nat then Some (if bz (nth 0 data Byte.x00) =? 0 then [] else data)
      else
        let '(nonZeroBitset, nonZeroBytes) := gather_bytes data in
        if (length nonZeroBytes =? 0)%nat then Some []
        else out ← bitsetEncode fuel nonZeroBitset; Some (out ++ nonZeroBytes)
  end.

Definition bitsetEncodeBytes (data : list byte) : option (list byte) := bitsetEncode (S (length data)) data.

Definition CompressBytes (data : list byte) : option (list byte) :=
  out ← bitsetEncodeBytes data; Some (if (length out <? length data)%nat then out else data).

(** The loop over the bits of the bitset, from index [i] on with [n] left *)
Fixpoint distribute (n i : nat) (bitset data decomp : list byte) (ptr : nat) : bitutil_error + list byte * nat :=
  match n with
  | O => inr (decomp, ptr)
  | S n =>
      if test_bit i bitset then
        if (length data <=? ptr)%nat then inl errMissingData
        else if (length decomp <=? i)%nat then inl errExceededTarget
        else
          let b := nth ptr data Byte.x00 in
          if bz b =? 0 then inl errZeroContent
          else distribute n (S i) bitset data (<[i := b]> decomp) (S ptr)
      else distribute n (S i) bitset data decomp ptr
  end.

Fixpoint bitsetDecodePartial (fuel : nat) (data : list byte) (target : nat) : option (bitutil_error + list byte * nat) :=
  match fuel with
  | O => None
  | S fuel =>
      if (target =? 0)%nat then Some (inr ([], 0%nat))
      else if (length data =? 0)%nat then Some (inr (zeros target, 0%nat))
      else if (target =? 1)%nat then
        let b := nth 0 data Byte.x00 in Some (inr ([b], if bz b =? 0 then 0%nat else 1%nat))
      else
        r ← bitsetDecodePartial fuel data ((target + 7) / 8);
        match r with
        | inl err => Some (inl err)
        | inr (nonZeroBitset, ptr) =>
            Some (distribute (8 * length nonZeroBitset) 0 nonZeroBitset data (zeros target) ptr)
        end
  end.

Definition bitsetDecodePartialBytes (data : list byte) (target : nat) : option (bitutil_error + list byte * nat) :=
  bitsetDecodePartial (S target) data target.

Definition bitsetDecodeBytes (data : list byte) (target : nat) : option (bitutil_error + list byte) :=
  r ← bitsetDecodePartialBytes data target;
  match r with
  | inl err => Some (inl err)
  | inr (out, size) => Some (if (size =? length data)%nat then inr out else inl errUnreferencedData)
  end.

Definition DecompressBytes (data : list byte) (target : nat) : option (bitutil_error + list byte) :=
  if (target <? length data)%nat then Some (inl errExceededTarget)
  else if (length data =? target)%nat then Some (inr data)
  else bitsetDecodeBytes data target.

(** ** Bits of a vector *)

#[local] Arguments set_bit : simpl never.
#[local] Arguments Nat.div : simpl never.
#[local] Arguments Nat.modulo : simpl never.
#[local] Arguments zeros : simpl never.

Lemma land_single x k : 0 <= k → negb (Z.land x (Z.shiftl 1 k) =? 0) = Z.testbit x k.
Proof.
  intros Hk. destruct (Z.testbit x k) eqn:E.
  - destruct (Z.eqb_spec (Z.land x (Z.shiftl 1 k)) 0) as [H|]; [|done].
    apply (f_equal (λ z, Z.testbit z k)) in H. rewrite Z.land_spec, E, Z.shiftl_spec, Z.sub_diag, Z.bits_0 in H by lia. done.
  - replace (Z.land x (Z.shiftl 1 k)) with 0; [done|]. symmetry. apply Z.bits_inj'. intros n Hn.
    rewrite Z.land_spec, Z.bits_0, Z.shiftl_spec by lia. destruct (Z.eq_dec n k) as [->|Hne]; [by rewrite E|].
    replace (Z.testbit 1 (n - k)) with false; [apply andb_false_r|]. symmetry.
    destruct (Z.lt_ge_cases (n - k) 0); [by apply Z.testbit_neg_r|]. apply Z.bits_above_log2; cbn; lia.
Qed.

(** Bit [i] of the vector, the highest bit of a byte first *)
Lemma test_bit_spec i l : test_bit i l = Z.testbit (bz (nth (i / 8) l Byte.x00)) (7 - Z.of_nat (i mod 8)).
Proof. apply land_single. pose proof (Nat.mod_upper_bound i 8 ltac:(lia)). lia. Qed.

Lemma byte_bits_eq x y : (∀ k, 0 <= k < 8 → Z.testbit (bz x) k = Z.testbit (bz y) k) → x = y.
Proof.
  intros H. apply bz_inj, Z.bits_inj'. intros k Hk. destruct (Z_lt_le_dec k 8); [by apply H|].
  pose proof (bz_range x). pose proof (bz_range y).
  rewrite <-(Z.mod_small (bz x) (2 ^ 8)), <-(Z.mod_small (bz y) (2 ^ 8)) by lia. by rewrite !Z.mod_pow2_bits_high by lia.
Qed.

Lemma test_bit_ext (l k : list byte) :
  length l = length k → (∀ i, (i < 8 * length l)%nat → test_bit i l = test_bit i k) → l = k.
Proof.
  intros Hlen H. apply list_eq_same_length with (length l); [done|done|]. intros j x y Hj Hx Hy. apply byte_bits_eq. intros b Hb.
  specialize (H (8 * j + (7 - Z.to_nat b))%nat ltac:(lia)). rewrite !test_bit_spec in H.
  assert ((8 * j + (7 - Z.to_nat b)) / 8 = j)%nat as Ed by (symmetry; apply Nat.div_unique with (7 - Z.to_nat b)%nat; lia).
  assert ((8 * j + (7 - Z.to_nat b)) mod 8 = 7 - Z.to_nat b)%nat as Em by (symmetry; apply Nat.mod_unique with j; lia).
  rewrite Ed, Em, !nth_lookup, Hx, Hy in H. cbn in H.
  replace (7 - Z.of_nat (7 - Z.to_nat b)) with b in H by lia. done.
Qed.

Lemma length_set_bit i l : length (set_bit i l) = length l.
Proof. apply length_alter. Qed.

Lemma test_set_bit i j l :
  (i / 8 < length l)%nat → test_bit j (set_bit i l) = test_bit j l || (j =? i)%nat.
Proof.
  intros Hi. rewrite !test_bit_spec. unfold set_bit. rewrite !nth_lookup. 
  pose proof (Nat.mod_upper_bound i 8 ltac:(lia)). pose proof (Nat.mod_upper_bound j 8 ltac:(lia)).
  pose proof (Nat.div_mod_eq i 8). pose proof (Nat.div_mod_eq j 8).
  destruct (decide (j / 8 = i / 8)%nat) as [E|E].
  - rewrite E, list_lookup_alter_eq. destruct (lookup_lt_is_Some_2 l (i / 8)%nat Hi) as [x Hx]. rewrite Hx. cbn [fmap option_fmap option_map from_option id].
    rewrite bz_zb. change 256 with (2 ^ 8). rewrite Z.mod_pow2_bits_low by lia.
    rewrite Z.lor_spec, Z.shiftl_spec by lia. f_equal. destruct (Nat.eqb_spec j i) as [->|Hne].
    + by rewrite Z.sub_diag.
    + destruct (Z.lt_ge_cases (7 - Z.of_nat (j mod 8) - (7 - Z.of_nat (i mod 8))) 0); [by apply Z.testbit_neg_r|].
      apply Z.bits_above_log2; [lia|change (Z.log2 1) with 0; lia].
  - rewrite list_lookup_alter_ne by done. destruct (Nat.eqb_spec j i) as [->|]; [done|]. by rewrite orb_false_r.
Qed.

Lemma test_bit_zeros i n : test_bit i (zeros n) = false.
Proof.
  rewrite test_bit_spec. unfold zeros. rewrite nth_lookup.
  destruct (replicate n Byte.x00 !! (i / 8)%nat) as [x|] eqn:E; cbn; [apply lookup_replicate in E as [-> _]|]; apply Z.bits_0.
Qed.

(** ** The bitset of a vector *)

(** The byte is not zero. *)
Definition nz (b : byte) : bool := negb (bz b =? 0).

(** Whether byte [i] of the data is there and not zero *)
Definition nz_at (data : list byte) (i : nat) : bool := match data !! i with Some b => nz b | None => false end.

Definition nz_bytes (data : list byte) : list byte := List.filter nz data.

Definition bitset_of (data : list byte) : list byte := (gather_bytes data).1.

Lemma gather_bytes_ok data :
  gather_bytes data = (bitset_of data, nz_bytes data) ∧ length (bitset_of data) = ((length data + 7) / 8)%nat ∧
  ∀ i, test_bit i (bitset_of data) = nz_at data i.
Proof.
  unfold bitset_of, gather_bytes. set (f := λ '(bitset, bytes) '(i, b), _). set (z := zeros ((length data + 7) / 8)).
  assert (∀ m, (m <= length data)%nat →
    let r := foldl f (z, []) (zip (seq 0 m) (take m data)) in
    r.2 = nz_bytes (take m data) ∧ length r.1 = ((length data + 7) / 8)%nat ∧ ∀ i, test_bit i r.1 = nz_at (take m data) i) as H.
  { induction m as [|m IH]; intros Hm.
    - cbn. split; [done|]. split; [apply length_replicate|]. intros i. apply test_bit_zeros.
    - destruct (lookup_lt_is_Some_2 data m) as [b Hb]; [lia|]. rewrite (take_S_r _ _ _ Hb), seq_S.
      rewrite zip_with_app by (rewrite length_seq, length_take; lia). rewrite foldl_app.
      destruct IH as (H2 & Hl & Ht); [lia|]. destruct (foldl f _ _) as [bs bytes]. cbn in *.
      unfold nz_bytes. rewrite List.filter_app. fold (nz_bytes (take m data)). rewrite <-H2. cbn. unfold nz at 1.
      assert (∀ i, nz_at (take m data ++ [b]) i = nz_at (take m data) i || ((i =? m)%nat && nz b)) as Hat.
      { intros i. unfold nz_at. rewrite lookup_app, length_take, Nat.min_l by lia.
        destruct (take m data !! i) eqn:E.
        - apply lookup_lt_Some in E. rewrite length_take in E. destruct (Nat.eqb_spec i m); [lia|]. cbn. by rewrite orb_false_r.
        - apply lookup_ge_None_1 in E. rewrite length_take in E. cbn. destruct (Nat.eqb_spec i m) as [->|].
          + by rewrite Nat.sub_diag.
          + rewrite lookup_ge_None_2; [done|]. cbn. lia. }
      destruct (Z.eqb_spec (bz b) 0) as [E|E]; cbn.
      + rewrite app_nil_r. split; [done|]. split; [done|]. intros i. rewrite Hat, Ht. unfold nz. rewrite E. cbn. by rewrite andb_false_r, orb_false_r.
      + split; [done|]. split; [by rewrite length_set_bit|]. intros i.
        rewrite test_set_bit by (rewrite Hl; apply Nat.div_lt_upper_bound; [lia|]; pose proof (Nat.div_mod_eq (length data + 7) 8); pose proof (Nat.mod_upper_bound (length data + 7) 8 ltac:(lia)); lia).
        rewrite Hat, Ht. unfold nz at 1. rewrite (proj2 (Z.eqb_neq _ _) E). cbn. by rewrite andb_true_r. }
  specialize (H (length data) ltac:(lia)). rewrite firstn_all in H. cbn in H. destruct H as (H2 & Hl & Ht).
  split; [|by split]. rewrite <-H2. apply surjective_pairing.
Qed.

Lemma length_bitset_of data : length (bitset_of data) = ((length data + 7) / 8)%nat.
Proof. apply gather_bytes_ok. Qed.

Lemma bitset_bits n : (n <= 8 * ((n + 7) / 8))%nat.
Proof. pose proof (Nat.div_mod_eq (n + 7) 8). pose proof (Nat.mod_upper_bound (n + 7) 8 ltac:(lia)). lia. Qed.

Lemma bitset_shorter n : (2 <= n)%nat → ((n + 7) / 8 < n)%nat ∧ (1 <= (n + 7) / 8)%nat.
Proof. intros H. split; [apply Nat.div_lt_upper_bound; lia|apply Nat.div_le_lower_bound; lia]. Qed.

(** The bitset is the only vector of its length with these bits. *)
Lemma bitset_unique data bs :
  length bs = ((length data + 7) / 8)%nat → (∀ i, (i < 8 * length bs)%nat → test_bit i bs = nz_at data i) → bs = bitset_of data.
Proof.
  intros Hl Hb. destruct (gather_bytes_ok data) as (_ & Hl' & Ht). apply test_bit_ext; [lia|].
  intros i Hi. by rewrite Hb, Ht.
Qed.

Lemma nz_bytes_nil data : nz_bytes data = [] → data = zeros (length data).
Proof.
  induction data as [|b data IH]; [done|]. unfold nz_bytes. cbn. unfold nz at 1.
  destruct (Z.eqb_spec (bz b) 0) as [E|E]; cbn; [|done]. intros H. change (zeros (S (length data))) with (Byte.x00 :: zeros (length data)).
  rewrite <-IH by done. f_equal. by apply bz_inj.
Qed.

Lemma nz_bytes_zeros n : nz_bytes (zeros n) = [].
Proof. induction n; [done|]. exact IHn. Qed.

Lemma nz_at_zeros n i : nz_at (zeros n) i = false.
Proof. unfold nz_at, zeros. destruct (replicate _ _ !! i) eqn:E; [|done]. by apply lookup_replicate in E as [-> _]. Qed.

Lemma nz_bytes_none data : (∀ i, nz_at data i = false) → nz_bytes data = [].
Proof.
  induction data as [|b data IH]; intros H; [done|]. unfold nz_bytes. cbn. pose proof (H 0%nat) as H0. unfold nz_at in H0. cbn in H0.
  rewrite H0. apply IH. intros i. apply (H (S i)).
Qed.

(** The bitset is zero exactly when the data are. *)
Lemma bitset_zero data : nz_bytes (bitset_of data) = [] ↔ nz_bytes data = [].
Proof.
  destruct (gather_bytes_ok data) as (_ & _ & Hbits). split; intros H.
  - apply nz_bytes_none. intros i. rewrite <-Hbits, (nz_bytes_nil _ H). apply test_bit_zeros.
  - replace (bitset_of data) with (zeros ((length data + 7) / 8)); [apply nz_bytes_zeros|].
    apply bitset_unique; [apply length_replicate|]. intros i _. rewrite test_bit_zeros, (nz_bytes_nil _ H). by rewrite nz_at_zeros.
Qed.

(** ** The encoder *)

(** One level of the encoder *)
Definition encode_level (enc : list byte → option (list byte)) (data : list byte) : option (list byte) :=
  if (length data <=? 1)%nat then Some (nz_bytes data)
  else if (length (nz_bytes data) =? 0)%nat then Some []
  else out ← enc (bitset_of data); Some (out ++ nz_bytes data).

Lemma bitsetEncode_S fuel data : bitsetEncode (S fuel) data = encode_level (bitsetEncode fuel) data.
Proof.
  cbn [bitsetEncode]. unfold encode_level. destruct (gather_bytes_ok data) as (-> & _).
  destruct data as [|b [|c data]]; [done| |done]. cbn. unfold nz. by destruct (bz b =? 0).
Qed.

Lemma bitsetEncode_fuel fuel : ∀ fuel' data,
  (length data < fuel)%nat → (length data < fuel')%nat → bitsetEncode fuel data = bitsetEncode fuel' data.
Proof.
  induction fuel as [|fuel IH]; intros [|fuel'] data H H'; [lia..|]. rewrite !bitsetEncode_S. unfold encode_level.
  destruct (Nat.leb_spec (length data) 1); [done|]. destruct (length (nz_bytes data) =? 0)%nat; [done|].
  destruct (bitset_shorter (length data)) as [? ?]; [lia|]. rewrite (IH fuel'); [done|rewrite length_bitset_of; lia..].
Qed.

Lemma bitsetEncodeBytes_eq data : bitsetEncodeBytes data = encode_level bitsetEncodeBytes data.
Proof.
  unfold bitsetEncodeBytes at 1. rewrite bitsetEncode_S. unfold encode_level. destruct (Nat.leb_spec (length data) 1); [done|].
  destruct (length (nz_bytes data) =? 0)%nat; [done|]. unfold bitsetEncodeBytes.
  rewrite (bitsetEncode_fuel _ (S (length (bitset_of data)))); [done| |lia].
  rewrite length_bitset_of. by apply bitset_shorter.
Qed.

(** The encoder returns. *)
Lemma bitsetEncodeBytes_total data : ∃ e, bitsetEncodeBytes data = Some e.
Proof.
  remember (length data) as n eqn:Hn. revert data Hn. induction n as [n IH] using lt_wf_ind. intros data ->.
  rewrite bitsetEncodeBytes_eq. unfold encode_level. destruct (Nat.leb_spec (length data) 1); [by eexists|].
  destruct (length (nz_bytes data) =? 0)%nat; [by eexists|].
  destruct (IH _ (proj1 (bitset_shorter (length data) ltac:(lia))) (bitset_of data)) as [e ->]; [by rewrite length_bitset_of|].
  by eexists.
Qed.

(** Only a vector of zeros has an empty encoding. *)
Lemma bitsetEncodeBytes_nil data : bitsetEncodeBytes data = Some [] ↔ nz_bytes data = [].
Proof.
  rewrite bitsetEncodeBytes_eq. unfold encode_level. destruct (Nat.leb_spec (length data) 1).
  { split; [by intros [= ->]|by intros ->]. }
  destruct (Nat.eqb_spec (length (nz_bytes data)) 0) as [E|E].
  - split; [|done]. intros _. by apply nil_length_inv.
  - split; [|intros Hz; by rewrite Hz in E]. destruct (bitsetEncodeBytes (bitset_of data)) as [e|]; [|done].
    cbn. intros [= Happ]. by apply app_eq_nil in Happ as [_ Happ].
Qed.

(** ** The decoder *)

(** Past the end of the output no bit may be set. *)
Lemma distribute_rest n : ∀ i bs data decomp ptr r,
  (length decomp <= i)%nat →
  distribute n i bs data decomp ptr = inr r ↔ r = (decomp, ptr) ∧ ∀ k, (k < n)%nat → test_bit (i + k) bs = false.
Proof.
  induction n as [|n IH]; intros i bs data decomp ptr r Hi; cbn [distribute].
  - split; [intros [= <-]; split; [done|lia]|by intros [-> _]].
  - destruct (test_bit i bs) eqn:E.
    + split; [|intros [_ H]; specialize (H 0%nat ltac:(lia)); rewrite Nat.add_0_r in H; congruence].
      destruct (length data <=? ptr)%nat; [done|]. destruct (Nat.leb_spec (length decomp) i); [done|lia].
    + rewrite IH by lia. split; intros [-> H]; (split; [done|]).
      * intros [|k] Hk; [by rewrite Nat.add_0_r|]. rewrite <-Nat.add_succ_comm. apply H. lia.
      * intros k Hk. rewrite Nat.add_succ_comm. apply H. lia.
Qed.

Lemma take_1_drop (data : list byte) ptr b l :
  take (S (length l)) (drop ptr data) = b :: l ↔ data !! ptr = Some b ∧ take (length l) (drop (S ptr) data) = l.
Proof.
  split.
  - intros H. destruct (data !! ptr) as [x|] eqn:E.
    + rewrite (drop_S _ _ _ E) in H. cbn in H. injection H as -> ->. done.
    + apply lookup_ge_None_1 in E. rewrite drop_ge in H by done. done.
  - intros [E H]. rewrite (drop_S _ _ _ E). cbn. by rewrite H.
Qed.

(** The bits from [i] on are the mask of [tail], and the data from [ptr] on hold
    its bytes that are not zero. *)
Definition fills (bs data : list byte) (i n ptr : nat) (tail : list byte) (p : nat) : Prop :=
  (∀ k, (k < n)%nat → test_bit (i + k) bs = nz_at tail k) ∧
  p = (ptr + length (nz_bytes tail))%nat ∧ take (length (nz_bytes tail)) (drop ptr data) = nz_bytes tail.

Lemma fills_cons bs data i n ptr b tail p :
  fills bs data i (S n) ptr (b :: tail) p ↔
  nz b = test_bit i bs ∧
  if test_bit i bs then data !! ptr = Some b ∧ fills bs data (S i) n (S ptr) tail p
  else fills bs data (S i) n ptr tail p.
Proof.
  unfold fills. assert ((∀ k, (k < S n)%nat → test_bit (i + k) bs = nz_at (b :: tail) k) ↔
    nz b = test_bit i bs ∧ ∀ k, (k < n)%nat → test_bit (S i + k) bs = nz_at tail k) as Hbits.
  { split.
    - intros H. split; [specialize (H 0%nat ltac:(lia)); by rewrite Nat.add_0_r in H|].
      intros k Hk. specialize (H (S k) ltac:(lia)). by rewrite Nat.add_succ_r in H.
    - intros [H0 H] [|k] Hk; [by rewrite Nat.add_0_r|]. rewrite Nat.add_succ_r. apply H. lia. }
  rewrite Hbits. unfold nz_bytes. cbn [List.filter]. fold (nz_bytes tail).
  destruct (test_bit i bs), (nz b); try (split; intros [[? ?] ?] || intros [? ?]; done); cbn [length]; rewrite ?take_1_drop;
    intuition (done || lia).
Qed.

(** The loop succeeds exactly with the bytes whose mask the bits are. *)
Lemma distribute_spec r : ∀ m bs data pre ptr out p,
  distribute (r + m) (length pre) bs data (pre ++ zeros r) ptr = inr (out, p) ↔
  ∃ tail, out = pre ++ tail ∧ length tail = r ∧ fills bs data (length pre) (r + m) ptr tail p.
Proof.
  induction r as [|r IH]; intros m bs data pre ptr out p.
  - change (zeros 0) with (@nil byte). rewrite app_nil_r, distribute_rest by done. split.
    + intros [[= -> ->] H]. exists []. rewrite app_nil_r. repeat split; [done|cbn; lia].
    + intros (tail & -> & Hl & Hk & -> & _). apply nil_length_inv in Hl as ->. cbn. by rewrite app_nil_r, Nat.add_0_r.
  - assert (∀ b q, distribute (r + m) (S (length pre)) bs data (pre ++ b :: zeros r) q = inr (out, p) ↔
      ∃ tail, out = pre ++ b :: tail ∧ length tail = r ∧ fills bs data (S (length pre)) (r + m) q tail p) as Hstep.
    { intros b q. replace (pre ++ b :: zeros r) with ((pre ++ [b]) ++ zeros r) by (by rewrite <-app_assoc).
      replace (S (length pre)) with (length (pre ++ [b])) by (rewrite length_app; cbn; lia).
      rewrite IH. f_equiv. intros tail. by rewrite <-app_assoc. }
    transitivity (∃ b tail, out = pre ++ b :: tail ∧ length tail = r ∧ fills bs data (length pre) (S (r + m)) ptr (b :: tail) p).
    2:{ split; [intros (b & tail & ? & ? & ?); exists (b :: tail); cbn; auto|].
        intros ([|b tail] & ? & Hl & ?); [done|]. injection Hl as Hl. by exists b, tail. }
    setoid_rewrite fills_cons. change (zeros (S r)) with (Byte.x00 :: zeros r). cbn [distribute Nat.add].
    destruct (test_bit (length pre) bs).
    + destruct (data !! ptr) as [b|] eqn:Eb; [apply lookup_lt_Some in Eb as Hlt|apply lookup_ge_None_1 in Eb as Hlt].
      * destruct (Nat.leb_spec (length data) ptr); [lia|]. rewrite length_app. cbn [length].
        destruct (Nat.leb_spec (length pre + S (length (zeros r))) (length pre)); [lia|].
        rewrite nth_lookup, Eb. cbn [from_option id]. destruct (Z.eqb_spec (bz b) 0) as [Ez|Ez].
        -- split; [done|]. intros (b' & tail & _ & _ & Hnz & [= <-] & _). unfold nz in Hnz. by rewrite Ez in Hnz.
        -- rewrite insert_app_r_alt, Nat.sub_diag by lia. cbn [insert list_insert]. rewrite Hstep.
           split; [intros (tail & ? & ? & ?); exists b, tail|intros (b' & tail & ? & ? & ? & [= <-] & ?); by exists tail].
           split; [done|]. split; [done|]. split; [|done]. unfold nz. by destruct (Z.eqb_spec (bz b) 0).
      * destruct (Nat.leb_spec (length data) ptr); [|lia]. split; [done|]. by intros (? & ? & ? & ? & ? & ? & ?).
    + rewrite Hstep. split; [intros (tail & ? & ? & ?); by exists Byte.x00, tail|].
      intros (b & tail & ? & ? & Hnz & ?). assert (b = Byte.x00) as -> by (apply bz_inj; unfold nz in Hnz; by destruct (Z.eqb_spec (bz b) 0)).
      by exists tail.
Qed.

(** The whole loop, for a bitset of the right length *)
Lemma distribute_all t bs data ptr out p :
  length bs = ((t + 7) / 8)%nat →
  distribute (8 * length bs) 0 bs data (zeros t) ptr = inr (out, p) ↔
  length out = t ∧ bs = bitset_of out ∧ p = (ptr + length (nz_bytes out))%nat ∧
  take (length (nz_bytes out)) (drop ptr data) = nz_bytes out.
Proof.
  intros Hl. pose proof (bitset_bits t). replace (8 * length bs)%nat with (t + (8 * length bs - t))%nat by lia.
  rewrite (distribute_spec t _ bs data [] ptr). cbn [app length]. split.
  - intros (tail & -> & Ht & Hb & -> & Hd). split; [done|]. split; [|done]. apply bitset_unique; [by rewrite Ht|].
    intros i Hi. apply (Hb i). lia.
  - intros (Ht & Hb & -> & Hd). exists out. split; [done|]. split; [done|]. split; [|done].
    intros k Hk. rewrite Hb. apply gather_bytes_ok.
Qed.

(** What has been decoded is the encoding of the output. *)
Lemma decode_sound fuel : ∀ data t out p,
  bitsetDecodePartial fuel data t = Some (inr (out, p)) →
  length out = t ∧ (p <= length data)%nat ∧ bitsetEncodeBytes out = Some (take p data).
Proof.
  induction fuel as [|fuel IH]; intros data t out p; [done|]. cbn [bitsetDecodePartial].
  destruct (Nat.eqb_spec t 0) as [->|Ht0]; [intros [= <- <-]; split; [done|split; [lia|done]]|].
  destruct (Nat.eqb_spec (length data) 0) as [Hd|Hd].
  { intros [= <- <-]. split; [apply length_replicate|]. split; [lia|]. apply bitsetEncodeBytes_nil, nz_bytes_zeros. }
  destruct (Nat.eqb_spec t 1) as [->|Ht1].
  { intros [= <- <-]. destruct data as [|b data]; [done|]. split; [done|]. rewrite bitsetEncodeBytes_eq.
    unfold encode_level, nz_bytes. cbn. unfold nz. destruct (bz b =? 0); cbn; (split; [lia|done]). }
  destruct (bitsetDecodePartial fuel data ((t + 7) / 8)) as [[err|[bs ptr]]|] eqn:E; [done| |done].
  apply IH in E as (Hl & Hp & Ebs). cbn [mbind option_bind]. intros [= H].
  apply distribute_all in H as (Ho & -> & -> & Hdrop); [|done].
  assert (ptr + length (nz_bytes out) <= length data)%nat as Hle.
  { apply (f_equal length) in Hdrop. rewrite length_take, length_drop in Hdrop. lia. }
  split; [done|]. split; [done|]. rewrite <-take_take_drop, Hdrop. rewrite bitsetEncodeBytes_eq. unfold encode_level.
  destruct (Nat.leb_spec (length out) 1); [lia|]. destruct (Nat.eqb_spec (length (nz_bytes out)) 0) as [E0|E0].
  - apply nil_length_inv in E0. rewrite E0, app_nil_r in *. enough (bitsetEncodeBytes (bitset_of out) = Some []) as E by congruence.
    by apply bitsetEncodeBytes_nil, bitset_zero.
  - by rewrite Ebs.
Qed.

(** An encoding is decoded, whatever follows it, unless it is empty. *)
Lemma decode_complete fuel : ∀ out e rest,
  (length out < fuel)%nat → bitsetEncodeBytes out = Some e → e ≠ [] ∨ rest = [] →
  bitsetDecodePartial fuel (e ++ rest) (length out) = Some (inr (out, length e)).
Proof.
  induction fuel as [|fuel IH]; intros out e rest Hf He Hne; [lia|]. cbn [bitsetDecodePartial].
  destruct (Nat.eqb_spec (length out) 0) as [E|Ht0].
  { apply nil_length_inv in E as ->. by injection He as <-. }
  destruct (decide (e = [])) as [->|Hnil].
  { destruct Hne as [?| ->]; [done|]. cbn. apply bitsetEncodeBytes_nil, nz_bytes_nil in He. by rewrite <-He. }
  destruct (Nat.eqb_spec (length (e ++ rest)) 0) as [E|_]; [rewrite length_app in E; destruct e; [done|cbn in E; lia]|].
  rewrite bitsetEncodeBytes_eq in He. unfold encode_level in He. destruct (Nat.eqb_spec (length out) 1) as [E1|E1].
  { destruct out as [|b [|? out]]; [done| |done]. cbn in He. injection He as <-. revert Hnil. unfold nz_bytes. cbn. unfold nz.
    destruct (bz b =? 0) eqn:Eb; cbn; [done|]. by rewrite Eb. }
  destruct (Nat.leb_spec (length out) 1); [lia|]. destruct (Nat.eqb_spec (length (nz_bytes out)) 0) as [|E0]; [congruence|].
  destruct (bitsetEncodeBytes (bitset_of out)) as [e'|] eqn:Ee; [|done]. injection He as <-.
  destruct (bitset_shorter (length out)) as [Hlt _]; [lia|].
  assert (e' ≠ []) as He'.
  { intros ->. apply bitsetEncodeBytes_nil in Ee. by rewrite (proj1 (bitset_zero out) Ee) in E0. }
  rewrite <-app_assoc, <-length_bitset_of, IH by (rewrite ?length_bitset_of; auto; lia). cbn [mbind option_bind].
  f_equal. apply distribute_all; [apply length_bitset_of|]. split; [done|]. split; [done|]. rewrite length_app. split; [done|].
  rewrite drop_app_length. by rewrite take_app_length.
Qed.

Lemma decode_total fuel : ∀ data t, (t < fuel)%nat → ∃ r, bitsetDecodePartial fuel data t = Some r.
Proof.
  induction fuel as [|fuel IH]; intros data t Hf; [lia|]. cbn [bitsetDecodePartial].
  destruct (Nat.eqb_spec t 0); [by eexists|]. destruct (length data =? 0)%nat; [by eexists|].
  destruct (Nat.eqb_spec t 1); [by eexists|]. destruct (bitset_shorter t) as [Hlt _]; [lia|].
  destruct (IH data ((t + 7) / 8)%nat) as [[err|[bs p]] ->]; [lia|by eexists..].
Qed.

(** The decoder accepts exactly the encodings, and inverts the encoder. *)
Lemma bitsetDecodeBytes_spec data t out :
  bitsetDecodeBytes data t = Some (inr out) ↔ length out = t ∧ bitsetEncodeBytes out = Some data.
Proof.
  unfold bitsetDecodeBytes, bitsetDecodePartialBytes. split.
  - destruct (bitsetDecodePartial (S t) data t) as [[err|[o p]]|] eqn:E; cbn; [done| |done].
    destruct (Nat.eqb_spec p (length data)) as [->|]; [|done]. intros [= ->].
    apply decode_sound in E as (? & _ & He). by rewrite firstn_all in He.
  - intros [<- He]. pose proof (decode_complete (S (length out)) out data [] ltac:(lia) He (or_intror eq_refl)) as E.
    rewrite app_nil_r in E. rewrite E. cbn. by rewrite Nat.eqb_refl.
Qed.

Lemma CompressBytes_ok data :
  ∃ c, CompressBytes data = Some c ∧ (length c <= length data)%nat ∧ DecompressBytes c (length data) = Some (inr data).
Proof.
  destruct (bitsetEncodeBytes_total data) as [e He]. unfold CompressBytes. rewrite He. cbn [mbind option_bind].
  eexists. split; [reflexivity|]. unfold DecompressBytes. destruct (Nat.ltb_spec (length e) (length data)).
  - split; [lia|]. destruct (Nat.ltb_spec (length data) (length e)); [lia|]. destruct (Nat.eqb_spec (length e) (length data)); [lia|].
    by apply bitsetDecodeBytes_spec.
  - split; [done|]. by rewrite Nat.ltb_irrefl, Nat.eqb_refl.
Qed.

(** C18: [DecompressBytes] undoes [CompressBytes] for every vector, both return for
    every input, and the decoder accepts nothing but what the encoder writes: input
    of the length of the target as it is, shorter input only if it is the encoding
    of the output, bit for bit, and longer input never. *)
Theorem compress_roundtrip data :
  (∃ c, CompressBytes data = Some c ∧ (length c <= length data)%nat ∧
        DecompressBytes c (length data) = Some (inr data)) ∧
  ∀ c t, ∃ r, DecompressBytes c t = Some r ∧
    ∀ out, r = inr out ↔
      length out = t ∧ (length c = t ∧ out = c ∨ (length c < t)%nat ∧ bitsetEncodeBytes out = Some c).
Proof.
  split; [apply CompressBytes_ok|]. intros c t. unfold DecompressBytes. destruct (Nat.ltb_spec t (length c)).
    { eexists. split; [reflexivity|]. intros out. split; [done|]. intros [? [[? ?]|[? ?]]]; lia. }
    destruct (Nat.eqb_spec (length c) t) as [E|E].
    { eexists. split; [reflexivity|]. intros out. split; [intros [= <-]; auto|]. intros [? [[? ->]|[? ?]]]; [done|lia]. }
    destruct (bitsetDecodeBytes c t) as [r|] eqn:Er.
    + exists r. split; [done|]. intros out. rewrite <-(inj_iff Some), <-Er, bitsetDecodeBytes_spec. intuition lia.
    + exfalso. revert Er. unfold bitsetDecodeBytes, bitsetDecodePartialBytes.
      by destruct (decode_total (S t) c t ltac:(lia)) as [[err|[o p]] ->].
Qed.

(** ** Bulk operations *)

(** The operators of the package work bit by bit. *)
Definition bitwise (op : Z → Z → Z) : Prop :=
  ∃ f : bool → bool → bool, f false false = false ∧
    ∀ x y i, 0 <= i → Z.testbit (op x y) i = f (Z.testbit x i) (Z.testbit y i).

Lemma bitwise_lxor : bitwise Z.lxor.
Proof. exists xorb. split; [done|]. intros. apply Z.lxor_spec. Qed.
Lemma bitwise_land : bitwise Z.land.
Proof. exists andb. split; [done|]. intros. apply Z.land_spec. Qed.
Lemma bitwise_lor : bitwise Z.lor.
Proof. exists orb. split; [done|]. intros. apply Z.lor_spec. Qed.

Section bulk_ok.
Context (op : Z → Z → Z) (Hop : bitwise op).

Lemma testbit_snoc x b i :
  0 <= i → Z.testbit (x * 256 + bz b) i = if i <? 8 then Z.testbit (bz b) i else Z.testbit x (i - 8).
Proof.
  intros Hi. pose proof (bz_range b) as Hb. destruct (Z.ltb_spec i 8).
  - rewrite <-(Z.mod_pow2_bits_low _ 8) by lia. change (2 ^ 8) with 256. by rewrite Z.add_comm, Z.mod_add, Z.mod_small by lia.
  - replace i with ((i - 8) + 8) at 1 by lia. rewrite <-Z.div_pow2_bits by lia.
    change (2 ^ 8) with 256. by rewrite Z.div_add_l, (Z.div_small (bz b)), Z.add_0_r by lia.
Qed.

Lemma be_bytes_op l : ∀ k,
  length l = length k → be_bytes (length l) (op (SetBytes l) (SetBytes k)) = zip_with (byte_op op) l k.
Proof.
  destruct Hop as (f & Hf & Hbit). induction l as [|x l IH] using rev_ind; intros k Hl.
  { by destruct k. }
  destruct k as [|y k _] using rev_ind; [rewrite length_app in Hl; cbn in Hl; lia|]. rewrite !length_app in Hl. cbn in Hl.
  rewrite zip_with_app by lia. rewrite <-IH by lia. rewrite !SetBytes_snoc, length_app. cbn [length]. rewrite Nat.add_1_r.
  unfold be_bytes. cbn [le_bytes]. rewrite reverse_cons. cbn [zip_with]. f_equal; [do 2 f_equal|f_equal].
  - apply Z.bits_inj'. intros i Hi. change 256 with (2 ^ 8). rewrite Z.div_pow2_bits, !Hbit by lia. change (2 ^ 8) with 256.
    rewrite !testbit_snoc by lia. destruct (Z.ltb_spec (i + 8) 8); [lia|]. by replace (i + 8 - 8) with i by lia.
  - apply byte_bits_eq. intros i Hi. unfold byte_op. rewrite !bz_zb. change 256 with (2 ^ 8). rewrite !Z.mod_pow2_bits_low by lia.
    change (2 ^ 8) with 256. rewrite !Hbit, !testbit_snoc by lia. destruct (Z.ltb_spec i 8); [done|lia].
Qed.

(** The result of the first [m] positions *)
Definition done_upto (m : nat) (a b dst : list byte) : list byte :=
  take m (zip_with (byte_op op) a b) ++ drop m dst.

Lemma byte_loop_upto i n a b dst :
  (i + n <= Nat.min (length a) (length b))%nat → (i + n <= length dst)%nat →
  byte_loop op i n a b (done_upto i a b dst) = done_upto (i + n) a b dst.
Proof.
  intros Hab Hd. induction n as [|n IH]; [by rewrite Nat.add_0_r|]. unfold byte_loop. rewrite seq_S, foldl_app. cbn [foldl].
  fold (byte_loop op i n a b (done_upto i a b dst)). rewrite IH by lia. clear IH. unfold done_upto.
  destruct (lookup_lt_is_Some_2 a (i + n)%nat) as [x Hx]; [lia|]. destruct (lookup_lt_is_Some_2 b (i + n)%nat) as [y Hy]; [lia|].
  rewrite !nth_lookup, Hx, Hy. cbn [from_option id].
  assert (zip_with (byte_op op) a b !! (i + n)%nat = Some (byte_op op x y)) as Hz by (rewrite lookup_zip_with, Hx; cbn; by rewrite Hy).
  assert (length (take (i + n) (zip_with (byte_op op) a b)) = i + n)%nat as Hl by (rewrite length_take, length_zip_with; lia).
  rewrite insert_app_r_alt by lia. rewrite Hl, Nat.sub_diag. rewrite Nat.add_succ_r, (take_S_r _ _ _ Hz), <-app_assoc. f_equal.
  destruct (lookup_lt_is_Some_2 dst (i + n)%nat) as [z Ez]; [lia|]. by rewrite (drop_S _ _ _ Ez).
Qed.

Lemma word_loop_upto ws w a b dst :
  (w * ws <= Nat.min (length a) (length b))%nat → (w * ws <= length dst)%nat →
  foldl (λ dst i, put_word ws i (op (get_word ws a i) (get_word ws b i)) dst) dst (seq 0 w) = done_upto (w * ws) a b dst.
Proof.
  intros Hab Hd. induction w as [|w IH]; [done|]. rewrite seq_S, foldl_app. cbn [foldl]. rewrite IH by lia. clear IH.
  unfold done_upto, put_word, get_word. cbn [Nat.add].
  assert (∀ l : list byte, (S w * ws <= length l)%nat → length (take ws (drop (w * ws) l)) = ws) as Hlen
    by (intros l Hl; rewrite length_take, length_drop; lia).
  pose proof (be_bytes_op (take ws (drop (w * ws) a)) (take ws (drop (w * ws) b))) as Hbe.
  rewrite !Hlen in Hbe by lia. rewrite Hbe by done. rewrite <-zip_with_take, <-zip_with_drop.
  assert (length (take (w * ws) (zip_with (byte_op op) a b)) = w * ws)%nat as Hl by (rewrite length_take, length_zip_with; lia).
  assert (length (take ws (drop (w * ws) (zip_with (byte_op op) a b))) = ws)%nat as Hl' by (rewrite length_take, length_drop, length_zip_with; lia).
  apply list_eq. intros j. destruct (decide (w * ws <= j < w * ws + ws)%nat) as [Hj|Hj].
  - rewrite list_lookup_inserts by (rewrite ?length_app, ?Hl, ?Hl', ?length_drop; lia).
    rewrite lookup_app_l by (rewrite length_take, length_zip_with; lia).
    rewrite !lookup_take, lookup_drop, !decide_True by lia. f_equal. lia.
  - destruct (Nat.lt_ge_cases j (w * ws)).
    + rewrite list_lookup_inserts_lt by done. rewrite !lookup_app_l by (rewrite length_take, length_zip_with; lia).
      by rewrite !lookup_take, !decide_True by lia.
    + rewrite list_lookup_inserts_ge by lia. rewrite !lookup_app_r by (rewrite length_take, length_zip_with; lia).
      rewrite !lookup_drop, !length_take, !length_zip_with. f_equal. lia.
Qed.

Lemma done_upto_all a b dst :
  (Nat.min (length a) (length b) <= length dst)%nat →
  done_upto (Nat.min (length a) (length b)) a b dst = overlay (zip_with (byte_op op) a b) dst.
Proof.
  intros H. unfold done_upto. rewrite overlay_app by (rewrite length_zip_with; lia). rewrite length_zip_with.
  f_equal. apply take_ge. rewrite length_zip_with. lia.
Qed.

(** Both loops write the operation of the two vectors over the destination. *)
Lemma safeBytes_ok dst a b :
  (Nat.min (length a) (length b) <= length dst)%nat →
  safeBytes op dst a b = Some (overlay (zip_with (byte_op op) a b) dst, Nat.min (length a) (length b)).
Proof.
  intros H. unfold safeBytes. destruct (Nat.ltb_spec (length dst) (Nat.min (length a) (length b))); [lia|].
  opose proof (byte_loop_upto 0 (Nat.min (length a) (length b)) a b dst _ _) as E; [cbn; lia..|].
  change (done_upto 0 a b dst) with dst in E. cbn [Nat.add] in E. by rewrite E, done_upto_all.
Qed.

Lemma fastBytes_ok ws dst a b :
  (0 < ws)%nat → (Nat.min (length a) (length b) <= length dst)%nat →
  fastBytes ws op dst a b = Some (overlay (zip_with (byte_op op) a b) dst, Nat.min (length a) (length b)).
Proof.
  intros Hws H. unfold fastBytes. set (n := Nat.min (length a) (length b)) in *. destruct (Nat.ltb_spec (length dst) n); [lia|].
  pose proof (Nat.div_mod_eq n ws). pose proof (Nat.mod_upper_bound n ws ltac:(lia)).
  rewrite word_loop_upto by lia. replace (n / ws * ws)%nat with (n - n mod ws)%nat by lia.
  rewrite byte_loop_upto by lia. replace (n - n mod ws + n mod ws)%nat with n by lia. unfold n. by rewrite done_upto_all.
Qed.

End bulk_ok.

(** A word is zero exactly when its bytes are. *)
Lemma SetBytes_zero l : SetBytes l = 0 ↔ existsb nz l = false.
Proof.
  induction l as [|b l IH] using rev_ind; [done|]. rewrite SetBytes_snoc, existsb_app, orb_false_iff, <-IH. cbn. unfold nz.
  pose proof (bz_range b). pose proof (SetBytes_nonneg l). rewrite orb_false_r, negb_false_iff, Z.eqb_eq. lia.
Qed.

Lemma words_exist ws p w :
  existsb (λ i, negb (get_word ws p i =? 0)) (seq 0 w) = existsb nz (take (w * ws) p).
Proof.
  induction w as [|w IH]; [done|]. rewrite seq_S, existsb_app, IH. cbn [existsb Nat.add].
  rewrite orb_false_r, Nat.mul_succ_l, <-take_take_drop, existsb_app. f_equal. unfold get_word.
  destruct (Z.eqb_spec (SetBytes (take ws (drop (w * ws) p))) 0) as [E|E]; cbn.
  - by rewrite (proj1 (SetBytes_zero _) E).
  - symmetry. apply not_false_is_true. intros E'. by apply E, SetBytes_zero.
Qed.

Lemma bytes_exist (p : list byte) i n :
  (i + n = length p)%nat → existsb (λ i, negb (bz (nth i p Byte.x00) =? 0)) (seq i n) = existsb nz (drop i p).
Proof.
  revert i. induction n as [|n IH]; intros i H.
  - rewrite drop_ge by lia. done.
  - destruct (lookup_lt_is_Some_2 p i) as [b Hb]; [lia|]. rewrite (drop_S _ _ _ Hb). cbn [seq existsb].
    rewrite IH by lia. by rewrite nth_lookup, Hb.
Qed.

Lemma fastTestBytes_ok ws p : (0 < ws)%nat → fastTestBytes ws p = safeTestBytes p.
Proof.
  intros Hws. unfold fastTestBytes. pose proof (Nat.div_mod_eq (length p) ws). pose proof (Nat.mod_upper_bound (length p) ws ltac:(lia)).
  rewrite words_exist, bytes_exist by lia. replace (length p / ws * ws)%nat with (length p - length p mod ws)%nat by lia.
  by rewrite <-existsb_app, take_drop.
Qed.

(** ** What the package promises *)

Section dispatch_ok.
Context {ARCH : Arch}.

Lemma ANDBytes_ok dst a b :
  (Nat.min (length a) (length b) <= length dst)%nat →
  ANDBytes dst a b = Some (overlay (zip_with (byte_op Z.land) a b) dst, Nat.min (length a) (length b)).
Proof.
  intros H. unfold ANDBytes. destruct supportsUnaligned; [|by apply safeBytes_ok].
  apply fastBytes_ok; [apply bitwise_land|apply wordSize_pos|done].
Qed.

Lemma ORBytes_ok dst a b :
  (Nat.min (length a) (length b) <= length dst)%nat →
  ORBytes dst a b = Some (overlay (zip_with (byte_op Z.lor) a b) dst, Nat.min (length a) (length b)).
Proof.
  intros H. unfold ORBytes. destruct supportsUnaligned; [|by apply safeBytes_ok].
  apply fastBytes_ok; [apply bitwise_lor|apply wordSize_pos|done].
Qed.

Lemma XORBytes_ok dst a b :
  (Nat.min (length a) (length b) <= length dst)%nat →
  XORBytes dst a b = Some (overlay (zip_with (byte_op Z.lxor) a b) dst, Nat.min (length a) (length b)).
Proof.
  intros H. unfold XORBytes. destruct supportsUnaligned; [|by apply safeBytes_ok].
  apply fastBytes_ok; [apply bitwise_lxor|apply wordSize_pos|done].
Qed.

Lemma TestBytes_ok p : TestBytes p = safeTestBytes p.
Proof. unfold TestBytes. destruct supportsUnaligned; [|done]. apply fastTestBytes_ok, wordSize_pos. Qed.

End dispatch_ok.
