(* ===== verification/BloomBits.v ===== *)
(** * The index of logs: [core/bloombits], [yoc/bloombits.go], [yoc/filters]

    Blooms of a section of blocks are turned by 90 degrees into one vector per bit
    ([Generator]), which the indexer compresses and stores; a matcher reads the
    vectors its filter needs and combines them into the blocks that may hold
    matching logs, and a filter reads the logs of these blocks.  The stages of the
    matcher are goroutines connected by channels that keep the order of the
    sections: a stage is a function on one section here, and closing a session
    early and failed retrievals are not modelled. *)
From S2P Require Import Prelude BigMath Params OpCodes VmAnalysis VmMemory Rlp VmTypes VmLaws Chain BlockTypes.
From S2P Require Import TrieEncoding TrieNode TrieDb Bitutil.

Definition BloomBitLength : nat := Z.to_nat 2048.
#[global] Arguments BloomBitLength : simpl never.
Notation BloomBitsBlocks := 4096 (only parsing).

(** ** [core/bloombits/generator.go] *)

Record Generator := {
  blooms : list (list byte);
  sections : nat;
  nextSec : nat
}.

Definition NewGenerator (sections : nat) : option Generator :=
  if negb (sections mod 8 =? 0)%nat then None
  else Some {| blooms := replicate BloomBitLength (zeros (sections / 8)); sections := sections; nextSec := 0 |}.

(** [(bloom[bloomByteIndex] & bloomBitMask) != 0] *)
Definition has_bit (bloom : list byte) (i : nat) : bool :=
  negb (Z.land (bz (nth (256 - 1 - i / 8) bloom Byte.x00)) (Z.shiftl 1 (Z.of_nat (i mod 8))) =? 0).

Inductive bloom_error := errSectionOutOfBounds | errUnexpectedIndex | errBloomBitOutOfBounds | errNotGenerated.

(** The mask of the section in its byte is that of [set_bit]. *)
Definition AddBloom (index : Z) (bloom : list byte) (b : Generator) : bloom_error + Generator :=
  if (sections b <=? nextSec b)%nat then inl errSectionOutOfBounds
  else if negb (Z.of_nat (nextSec b) =? index) then inl errUnexpectedIndex
  else inr {| blooms := imap (λ i l, if has_bit bloom i then set_bit (nextSec b) l else l) (blooms b);
              sections := sections b; nextSec := S (nextSec b) |}.

Definition Bitset (idx : nat) (b : Generator) : bloom_error + list byte :=
  if negb (nextSec b =? sections b)%nat then inl errNotGenerated
  else if (BloomBitLength <=? idx)%nat then inl errBloomBitOutOfBounds
  else inr (nth idx (blooms b) []).

(** ** [core/bloombits/matcher.go] *)

Section matcher.
Context `{!Crypto} {ARCH : Arch}.

Definition calcBloomIndexes (b : list byte) : list Z :=
  let b := Keccak256 b in
  (λ i, Z.land (Z.shiftl (bz (nth (2 * i) b Byte.x00)) 8) 2047 + bz (nth (2 * i + 1) b Byte.x00)) <$> [0; 1; 2]%nat.

(** The filters of [NewMatcher]: a rule without clauses, or with a nil clause, is
    skipped. *)
Definition matcher_filters (filters : list (list (option (list byte)))) : list (list (list Z)) :=
  filters ≫= λ filter,
    if (length filter =? 0)%nat then []
    else match mapM (λ clause, clause) filter with
         | Some clauses => [calcBloomIndexes <$> clauses]
         | None => []
         end.

(** The vectors that arrive: of a bit, in a section *)
Context (sectionSize : Z) (fetch : Z → Z → list byte).

Definition section_bytes : nat := Z.to_nat (sectionSize / 8).

(** The vectors of one clause *)
Definition and_vector (section : Z) (bits : list Z) : option (option (list byte)) :=
  foldl (λ acc bit,
    andVector ← acc;
    let data := fetch bit section in
    match andVector with
    | None => Some (Some (overlay data (zeros section_bytes)))
    | Some v => r ← ANDBytes v v data; Some (Some r.1)
    end) (Some None) bits.

(** The clauses of one rule.  No vector is nil after the bits of a clause, since a
    clause has three. *)
Definition or_vector (section : Z) (bloom : list (list Z)) : option (option (list byte)) :=
  foldl (λ acc bits,
    orVector ← acc; andVector ← and_vector section bits;
    match orVector with
    | None => Some andVector
    | Some v => r ← ORBytes v v (default [] andVector); Some (Some r.1)
    end) (Some None) bloom.

(** One stage: [None] is a panic, [Some None] a section without matches. *)
Definition subMatch (bloom : list (list Z)) (section : Z) (bitset : list byte) : option (option (list byte)) :=
  orVector ← or_vector section bloom;
  let v := default (zeros section_bytes) orVector in
  r ← ANDBytes v v bitset;
  Some (if TestBytes r.1 then Some r.1 else None).

(** A section through all stages *)
Fixpoint pipeline (filters : list (list (list Z))) (section : Z) (bitset : list byte) : option (option (list byte)) :=
  match filters with
  | [] => Some (Some bitset)
  | bloom :: filters =>
      r ← subMatch bloom section bitset;
      match r with Some v => pipeline filters section v | None => Some None end
  end.

(** The loop over the blocks of a section: a byte without matches is skipped. *)
Fixpoint section_matches (fuel : nat) (i last sectionStart : Z) (bitset : list byte) : option (list Z) :=
  if last <? i then Some [] else
  match fuel with
  | O => None
  | S fuel =>
      next ← bitset !! Z.to_nat ((i - sectionStart) / 8);
      if bz next =? 0 then section_matches fuel (uint64 (if i mod 8 =? 0 then i + 8 else i + 1)) last sectionStart bitset
      else
        rest ← section_matches fuel (uint64 (i + 1)) last sectionStart bitset;
        Some (if negb (Z.land (bz next) (Z.shiftl 1 (7 - i mod 8)) =? 0) then i :: rest else rest)
  end.

(** The results that [Start] delivers, section after section *)
Definition matches_of (filters : list (list (list Z))) (begin end_ section : Z) : option (list Z) :=
  r ← pipeline filters section (replicate section_bytes (zb 0xff));
  match r with
  | None => Some []
  | Some bitset =>
      let sectionStart := uint64 (section * sectionSize) in
      let first := if sectionStart <? begin then begin else sectionStart in
      let last := uint64 (sectionStart + sectionSize - 1) in
      let last := if end_ <? last then end_ else last in
      section_matches (Z.to_nat (last - first + 1)) first last sectionStart bitset
  end.

(** [begin / sectionSize] to [end / sectionSize] *)
Definition section_range (begin end_ : Z) : list Z :=
  let lo := begin / sectionSize in let hi := end_ / sectionSize in
  (λ k, lo + Z.of_nat k) <$> seq 0 (Z.to_nat (hi - lo + 1)).

Definition Start (filters : list (list (list Z))) (begin end_ : Z) : option (list Z) :=
  mjoin <$> mapM (matches_of filters begin end_) (section_range begin end_).

End matcher.

(** ** The database: [core/rawdb] *)

Definition bloomBitsPrefix : byte := Byte.x42.
Definition headerPrefix : byte := Byte.x68.
Definition headerHashSuffix : byte := Byte.x6e.

Definition encodeBlockNumber (number : Z) : list byte := be_bytes 8 number.

Definition headerHashKey (number : Z) : list byte := headerPrefix :: encodeBlockNumber number ++ [headerHashSuffix].

Definition bloomBitsKey (bit section : Z) (hash : Hash) : list byte :=
  bloomBitsPrefix :: be_bytes 2 bit ++ be_bytes 8 section ++ HashBytes hash.

Definition ReadCanonicalHash (db : MemDatabase) (number : Z) : Hash :=
  match mem_Get db (headerHashKey number) with
  | Some (b :: data) => BytesToHash (b :: data)
  | _ => 0
  end.

Definition WriteCanonicalHash (hash : Hash) (number : Z) (db : MemDatabase) : MemDatabase :=
  mem_Put (headerHashKey number) (HashBytes hash) db.

Definition ReadBloomBits (db : MemDatabase) (bit section : Z) (head : Hash) : option (list byte) :=
  mem_Get db (bloomBitsKey bit section head).

Definition WriteBloomBits (bit section : Z) (head : Hash) (bits : list byte) (b : memBatch) : memBatch :=
  batch_Put (bloomBitsKey bit section head) bits b.

(** ** The indexer: [yoc/bloombits.go] *)

Section indexer.
Context `{!Crypto}.

Record BloomIndexer := {
  bi_size : Z;
  bi_db : MemDatabase;
  bi_gen : option Generator;
  bi_section : Z;
  bi_head : Hash
}.

(** [Reset(section, _)]: whether there was an error, and the indexer *)
Definition bi_Reset (section : Z) (b : BloomIndexer) : bool * BloomIndexer :=
  let gen := NewGenerator (Z.to_nat (bi_size b)) in
  (bool_decide (gen = None), {| bi_size := bi_size b; bi_db := bi_db b; bi_gen := gen; bi_section := section; bi_head := 0 |}).

(** An error of [AddBloom] is dropped.  [None]: there is no generator. *)
Definition bi_Process (header : Header) (b : BloomIndexer) : option BloomIndexer :=
  gen ← bi_gen b;
  let index := uint64 (uint64 (Block.Number header) - uint64 (bi_section b * bi_size b)) in
  let gen' := match AddBloom index (be_bytes 256 (Block.Bloom header)) gen with inr g => g | inl _ => gen end in
  Some {| bi_size := bi_size b; bi_db := bi_db b; bi_gen := Some gen'; bi_section := bi_section b; bi_head := Header_Hash header |}.

(** The vectors of the bits [0] to [n - 1] in a batch *)
Fixpoint commit_bits (n : nat) (section : Z) (head : Hash) (gen : Generator) : option (bloom_error + memBatch) :=
  match n with
  | O => Some (inr NewBatch)
  | S i =>
      r ← commit_bits i section head gen;
      match r with
      | inl err => Some (inl err)
      | inr batch =>
          match Bitset i gen with
          | inl err => Some (inl err)
          | inr bits => c ← CompressBytes bits; Some (inr (WriteBloomBits (Z.of_nat i) section head c batch))
          end
      end
  end.

Definition bi_Commit (b : BloomIndexer) : option (bloom_error + BloomIndexer) :=
  gen ← bi_gen b;
  r ← commit_bits BloomBitLength (bi_section b) (bi_head b) gen;
  match r with
  | inl err => Some (inl err)
  | inr batch =>
      Some (inr {| bi_size := bi_size b; bi_db := batch_Write batch (bi_db b); bi_gen := bi_gen b;
                   bi_section := bi_section b; bi_head := bi_head b |})
  end.

(** *** A section of the chain: [core/chain_indexer.go] *)

Inductive section_error := errReset | errUnknownBlock | errNotFound | errReorged | errCommit (err : bloom_error).

(** [rawdb.ReadHeader] decodes a header from the database. *)
Context (ReadHeader : Hash → Z → option Header).

(** The loop over the headers of a section, with [n] left *)
Fixpoint process_headers (n : nat) (number : Z) (lastHead : Hash) (b : BloomIndexer) : option (section_error + Hash * BloomIndexer) :=
  match n with
  | O => Some (inr (lastHead, b))
  | S n =>
      let hash := ReadCanonicalHash (bi_db b) number in
      if hash =? 0 then Some (inl errUnknownBlock)
      else
        match ReadHeader hash number with
        | None => Some (inl errNotFound)
        | Some header =>
            if negb (Block.ParentHash header =? lastHead) then Some (inl errReorged)
            else b ← bi_Process header b; process_headers n (uint64 (number + 1)) (Header_Hash header) b
        end
  end.

(** [None] is a panic.  After a failed [Reset] the caller also forgets what has been
    indexed. *)
Definition processSection (section : Z) (lastHead : Hash) (b : BloomIndexer) : option (section_error + Hash * BloomIndexer) :=
  let '(err, b) := bi_Reset section b in
  if err : bool then Some (inl errReset)
  else
    let lo := uint64 (section * bi_size b) in
    let hi := uint64 ((section + 1) * bi_size b) in
    r ← process_headers (Z.to_nat (hi - lo)) lo lastHead b;
    match r with
    | inl err => Some (inl err)
    | inr (lastHead, b) =>
        r ← bi_Commit b;
        match r with
        | inl err => Some (inl (errCommit err))
        | inr b => Some (inr (lastHead, b))
        end
    end.

(** One vector for a request of [startBloomHandlers]; [None] is an error or a
    missing vector. *)
Definition retrieve (db : MemDatabase) (bit section : Z) : option (list byte) :=
  let head := ReadCanonicalHash db (uint64 ((section + 1) * BloomBitsBlocks - 1)) in
  compVector ← ReadBloomBits db bit section head;
  r ← DecompressBytes compVector (Z.to_nat BloomBitsBlocks / 8);
  match r with inr blob => Some blob | inl _ => None end.

End indexer.

(** ** The filter: [yoc/filters/filter.go] *)

Definition includes (addresses : list Address) (a : Address) : bool := existsb (λ addr, addr =? a) addresses.

(** [sub] of the loop over the topics, at position [i] *)
Fixpoint topics_match (i : nat) (topics : list (list Hash)) (log : Log) : bool :=
  match topics with
  | [] => true
  | sub :: topics =>
      ((length sub =? 0)%nat || existsb (λ topic, nth i (log_Topics log) 0 =? topic) sub) && topics_match (S i) topics log
  end.

Definition log_passes (fromBlock toBlock : option Z) (addresses : list Address) (topics : list (list Hash)) (log : Log) : bool :=
  negb (match fromBlock with Some b => (0 <=? int64 b) && (log_BlockNumber log <? uint64 b) | None => false end) &&
  negb (match toBlock with Some b => (0 <=? int64 b) && (uint64 b <? log_BlockNumber log) | None => false end) &&
  negb (negb (length addresses =? 0)%nat && negb (includes addresses (log_Address log))) &&
  negb (length (log_Topics log) <? length topics)%nat &&
  topics_match 0 topics log.

Definition filterLogs (logs : list Log) (fromBlock toBlock : option Z) (addresses : list Address) (topics : list (list Hash)) : list Log :=
  List.filter (log_passes fromBlock toBlock addresses topics) logs.

Section filter.
Context `{!Crypto}.

Definition bloomFilter (bloom : list byte) (addresses : list Address) (topics : list (list Hash)) : bool :=
  ((length addresses =? 0)%nat || existsb (λ addr, BloomLookup bloom (AddressBytes addr)) addresses) &&
  forallb (λ sub, (length sub =? 0)%nat || existsb (λ topic, BloomLookup bloom (HashBytes topic)) sub) topics.

(** What the filter calls of its backend.  [None] is an error; [Some None] a header
    that is not there. *)
Class Backend := {
  HeaderByNumber : Z → option (option Header);
  LatestHeader : option Header;
  HeaderByHash : Hash → option (option Header);
  GetLogs : Hash → option (list (list Log));
  GetReceipts : Hash → option (list Receipt);
  BloomStatus : Z * Z;
  (** the hash of the transaction, a field of a log that storage fills in *)
  log_TxHash : Log → Hash
}.

Context {ARCH : Arch} {BACKEND : Backend} (fetch : Z → Z → list byte).

(** The size of its sections and its filters *)
Record Matcher := { m_sectionSize : Z; m_filters : list (list (list Z)) }.

Definition NewMatcher (sectionSize : Z) (filters : list (list (option (list byte)))) : Matcher :=
  {| m_sectionSize := sectionSize; m_filters := matcher_filters filters |}.

Record Filter := {
  addresses : list Address;
  topics : list (list Hash);
  f_block : Hash;
  f_begin : Z;
  f_end : Z;
  matcher : Matcher
}.

Definition set_begin (i : Z) (f : Filter) : Filter :=
  {| addresses := addresses f; topics := topics f; f_block := f_block f; f_begin := i; f_end := f_end f; matcher := matcher f |}.

Definition NewRangeFilter (begin end_ : Z) (addresses : list Address) (topics : list (list Hash)) : Filter :=
  let filters :=
    (if (0 <? length addresses)%nat then [(λ a : Address, Some (AddressBytes a)) <$> addresses] else []) ++
    ((λ topicList : list Hash, (λ t : Hash, Some (HashBytes t)) <$> topicList) <$> topics) in
  {| addresses := addresses; topics := topics; f_block := 0; f_begin := begin; f_end := end_;
     matcher := NewMatcher BloomStatus.1 filters |}.

Definition NewBlockFilter (block : Hash) (addresses : list Address) (topics : list (list Hash)) : Filter :=
  {| addresses := addresses; topics := topics; f_block := block; f_begin := 0; f_end := 0; matcher := {| m_sectionSize := 0; m_filters := [] |} |}.

(** [None] is an error. *)
Definition checkMatches (f : Filter) (header : Header) : option (list Log) :=
  logsList ← GetLogs (Header_Hash header);
  let logs := filterLogs (mjoin logsList) None None (addresses f) (topics f) in
  match logs with
  | [] => Some []
  | log :: _ =>
      if log_TxHash log =? 0 then
        receipts ← GetReceipts (Header_Hash header);
        Some (filterLogs (receipts ≫= rc_Logs) None None (addresses f) (topics f))
      else Some logs
  end.

Definition blockLogs (f : Filter) (header : Header) : option (list Log) :=
  if bloomFilter (be_bytes 256 (Block.Bloom header)) (addresses f) (topics f) then checkMatches f header else Some [].

(** A search returns the logs it found, whether an error ended it, and the filter
    with the block to go on from. *)
Fixpoint indexed_from (numbers : list Z) (end_ : Z) (logs : list Log) (f : Filter) : list Log * bool * Filter :=
  match numbers with
  | [] => (logs, false, set_begin (int64 (int64 end_ + 1)) f)
  | number :: numbers =>
      let f := set_begin (int64 (int64 number + 1)) f in
      match HeaderByNumber (int64 number) with
      | None => (logs, true, f)
      | Some None => (logs, false, f)
      | Some (Some header) =>
          match checkMatches f header with
          | None => (logs, true, f)
          | Some found => indexed_from numbers end_ (logs ++ found) f
          end
      end
  end.

(** [None] is a panic of the matcher. *)
Definition indexedLogs (end_ : Z) (f : Filter) : option (list Log * bool * Filter) :=
  numbers ← Start (m_sectionSize (matcher f)) fetch (m_filters (matcher f)) (uint64 (f_begin f)) end_;
  Some (indexed_from numbers end_ [] f).

(** The loop from [f.begin] to [end], with [n] blocks to go *)
Fixpoint unindexed_from (n : nat) (end_ : Z) (logs : list Log) (f : Filter) : list Log * bool * Filter :=
  match n with
  | O => (logs, false, f)
  | S n =>
      if int64 end_ <? f_begin f then (logs, false, f)
      else
        match HeaderByNumber (f_begin f) with
        | None => (logs, true, f)
        | Some None => (logs, false, f)
        | Some (Some header) =>
            match blockLogs f header with
            | None => (logs, true, f)
            | Some found => unindexed_from n end_ (logs ++ found) (set_begin (int64 (f_begin f + 1)) f)
            end
        end
  end.

Definition unindexedLogs (end_ : Z) (f : Filter) : list Log * bool * Filter :=
  unindexed_from (Z.to_nat (int64 end_ - f_begin f + 1)) end_ [] f.

Definition Logs (f : Filter) : option (list Log * bool * Filter) :=
  if negb (f_block f =? 0) then
    match HeaderByHash (f_block f) with
    | None | Some None => Some ([], true, f)
    | Some (Some header) =>
        match blockLogs f header with
        | None => Some ([], true, f)
        | Some logs => Some (logs, false, f)
        end
    end
  else
    match LatestHeader with
    | None => Some ([], false, f)
    | Some header =>
        let head := uint64 (Block.Number header) in
        let f := if f_begin f =? -1 then set_begin (int64 head) f else f in
        let end_ := if f_end f =? -1 then head else uint64 (f_end f) in
        let '(size, secs) := BloomStatus in
        let indexed := uint64 (secs * size) in
        '(logs, err, f) ← (if uint64 (f_begin f) <? indexed
                           then indexedLogs (if end_ <? indexed then end_ else uint64 (indexed - 1)) f
                           else Some ([], false, f));
        if err : bool then Some (logs, true, f)
        else let '(rest, err, f) := unindexedLogs end_ f in Some (logs ++ rest, err, f)
    end.

End filter.
