(* ===== verification/BloomBitsTheorems.v ===== *)
(** * Theorems on the index of logs

    The generator turns the blooms, the indexer stores vectors that can be read
    back, the matcher returns exactly the blocks whose bloom passes the filter,
    and a search over indexed and other blocks returns exactly the matching logs. *)
From Stdlib Require Import ZifyBool.
From S2P Require Import Prelude BigMath Params OpCodes VmAnalysis VmMemory Rlp VmTypes VmLaws VmSample Chain BlockTypes.
From S2P Require Import TrieEncoding TrieNode TrieDb Bitutil BloomBits.

#[local] Arguments Nat.div : simpl never.
#[local] Arguments Nat.modulo : simpl never.
#[local] Arguments zeros : simpl never.
#[local] Arguments set_bit : simpl never.

(** ** Vectors *)

(** The bit-wise operations on vectors of the same length *)
Lemma test_bit_op op f l k i :
  f false false = false → (∀ x y i, 0 <= i → Z.testbit (op x y) i = f (Z.testbit x i) (Z.testbit y i)) →
  length l = length k → test_bit i (zip_with (byte_op op) l k) = f (test_bit i l) (test_bit i k).
Proof.
  intros Hf Hop Hl. rewrite !test_bit_spec, !nth_lookup, lookup_zip_with.
  pose proof (Nat.mod_upper_bound i 8 ltac:(lia)).
  destruct (l !! (i / 8)%nat) as [x|] eqn:Ex; cbn [mbind option_bind].
  - destruct (lookup_lt_is_Some_2 k (i / 8)%nat) as [y Ey]; [apply lookup_lt_Some in Ex; lia|]. rewrite Ey. cbn [mbind option_bind from_option id].
    unfold byte_op. rewrite bz_zb. change 256 with (2 ^ 8). rewrite Z.mod_pow2_bits_low, Hop by lia. done.
  - rewrite (lookup_ge_None_2 k) by (apply lookup_ge_None_1 in Ex; lia). cbn. by rewrite !Z.bits_0.
Qed.

Lemma test_bit_and l k i :
  length l = length k → test_bit i (zip_with (byte_op Z.land) l k) = test_bit i l && test_bit i k.
Proof. apply test_bit_op; [done|]. intros. apply Z.land_spec. Qed.

Lemma test_bit_or l k i :
  length l = length k → test_bit i (zip_with (byte_op Z.lor) l k) = test_bit i l || test_bit i k.
Proof. apply test_bit_op; [done|]. intros. apply Z.lor_spec. Qed.

Lemma test_bit_past i (l : list byte) : (8 * length l <= i)%nat → test_bit i l = false.
Proof.
  intros H. rewrite test_bit_spec, nth_overflow; [apply Z.bits_0|]. apply Nat.div_le_lower_bound; lia.
Qed.

Lemma safeTestBytes_bits l : safeTestBytes l = false → ∀ i, test_bit i l = false.
Proof.
  intros H i. rewrite test_bit_spec, nth_lookup. destruct (l !! (i / 8)%nat) as [b|] eqn:E; [|apply Z.bits_0]. cbn [from_option id].
  assert (bz b = 0) as ->; [|apply Z.bits_0]. unfold safeTestBytes in H. destruct (Z.eqb_spec (bz b) 0) as [|Hne]; [done|]. exfalso.
  apply not_true_iff_false in H. apply H, existsb_exists. exists b. split; [by eapply list_elem_of_In, list_elem_of_lookup_2|].
  by rewrite (proj2 (Z.eqb_neq _ _)).
Qed.

Lemma test_bit_ones n i : (i < 8 * n)%nat → test_bit i (replicate n (zb 0xff)) = true.
Proof.
  intros Hi. rewrite test_bit_spec, nth_lookup, lookup_replicate_2 by (apply Nat.div_lt_upper_bound; lia). cbn [from_option id].
  pose proof (Nat.mod_upper_bound i 8 ltac:(lia)). rewrite bz_zb. change (0xff mod 256) with (Z.ones 8). apply Z.ones_spec_low. lia.
Qed.

(** ** The generator *)

(** The generator has taken the blooms [bs]. *)
Record gen_ok (bs : list (list byte)) (g : Generator) : Prop := {
  g_next : nextSec g = length bs;
  g_count : length (blooms g) = BloomBitLength;
  g_length : ∀ i l, blooms g !! i = Some l → length l = (sections g / 8)%nat;
  g_bits : ∀ i l k, blooms g !! i = Some l → test_bit k l = match bs !! k with Some b => has_bit b i | None => false end;
  g_size : (sections g mod 8 = 0)%nat
}.

Lemma NewGenerator_ok n g : NewGenerator n = Some g → gen_ok [] g ∧ sections g = n.
Proof.
  unfold NewGenerator. destruct (Nat.eqb_spec (n mod 8) 0) as [E|]; cbn [negb]; [|done]. intros Hg. apply (inj Some) in Hg as <-. split; [|done]. split; cbn [blooms sections nextSec].
  - done.
  - apply length_replicate.
  - intros i l [-> _]%lookup_replicate. apply length_replicate.
  - intros i l k [-> _]%lookup_replicate. apply test_bit_zeros.
  - done.
Qed.

Lemma AddBloom_ok bs b g :
  gen_ok bs g → (length bs < sections g)%nat →
  ∃ g', AddBloom (Z.of_nat (length bs)) b g = inr g' ∧ gen_ok (bs ++ [b]) g' ∧ sections g' = sections g.
Proof.
  intros [Hn Hc Hl Hb Hs] Hlt. unfold AddBloom. rewrite Hn. destruct (Nat.leb_spec (sections g) (length bs)); [lia|].
  rewrite Z.eqb_refl. cbn [negb]. eexists. split; [reflexivity|]. split; [|done].
  assert (length bs / 8 < sections g / 8)%nat as Hbyte.
  { apply Nat.div_lt_upper_bound; [lia|]. pose proof (Nat.div_mod_eq (sections g) 8). lia. }
  split; cbn [blooms sections nextSec].
  - rewrite length_app. cbn. lia.
  - by rewrite length_imap.
  - intros i l. rewrite list_lookup_imap. destruct (blooms g !! i) as [l'|] eqn:E; cbn; [|done]. intros [= <-].
    destruct (has_bit b i); [rewrite length_set_bit|]; by eapply Hl.
  - intros i l k. rewrite list_lookup_imap. destruct (blooms g !! i) as [l'|] eqn:E; cbn; [|done]. intros [= <-].
    assert (test_bit k (if has_bit b i then set_bit (length bs) l' else l') = test_bit k l' || ((k =? length bs)%nat && has_bit b i)) as ->.
    { destruct (has_bit b i); [|by rewrite andb_false_r, orb_false_r]. rewrite test_set_bit by (rewrite (Hl _ _ E); done). by rewrite andb_true_r. }
    rewrite (Hb _ _ k E), lookup_app. destruct (bs !! k) as [c|] eqn:Ek.
    + apply lookup_lt_Some in Ek. destruct (Nat.eqb_spec k (length bs)); [lia|]. by rewrite orb_false_r.
    + apply lookup_ge_None_1 in Ek. destruct (Nat.eqb_spec k (length bs)) as [->|]; [by rewrite Nat.sub_diag|].
      rewrite lookup_ge_None_2; [done|]. cbn. lia.
  - done.
Qed.

Lemma Bitset_ok bs g idx :
  gen_ok bs g → length bs = sections g → (idx < BloomBitLength)%nat →
  ∃ v, Bitset idx g = inr v ∧ length v = (sections g / 8)%nat ∧
    ∀ k, test_bit k v = match bs !! k with Some b => has_bit b idx | None => false end.
Proof.
  intros [Hn Hc Hl Hb Hs] Hlen Hidx. unfold Bitset. rewrite Hn, Hlen, Nat.eqb_refl. cbn [negb].
  destruct (Nat.leb_spec BloomBitLength idx); [lia|]. destruct (lookup_lt_is_Some_2 (blooms g) idx) as [l El]; [by rewrite Hc|].
  exists l. rewrite nth_lookup, El. split; [done|]. split; [by eapply Hl|]. intros k. by eapply Hb.
Qed.

(** ** Ranges of blocks *)

(** [lo], [lo + 1], ..., [hi] *)
Definition zrange (lo hi : Z) : list Z := (λ k, lo + Z.of_nat k) <$> seq 0 (Z.to_nat (hi - lo + 1)).

Lemma zrange_nil lo hi : hi < lo → zrange lo hi = [].
Proof. intros H. unfold zrange. by replace (Z.to_nat (hi - lo + 1)) with 0%nat by lia. Qed.

Lemma zrange_app lo mid hi : lo <= mid + 1 → mid <= hi → zrange lo hi = zrange lo mid ++ zrange (mid + 1) hi.
Proof.
  intros H1 H2. unfold zrange. replace (Z.to_nat (hi - lo + 1)) with (Z.to_nat (mid - lo + 1) + Z.to_nat (hi - (mid + 1) + 1))%nat by lia.
  rewrite seq_app, fmap_app. f_equal. apply list_eq. intros i. rewrite !list_lookup_fmap.
  destruct (decide (i < Z.to_nat (hi - (mid + 1) + 1))%nat); [rewrite !lookup_seq_lt by lia; cbn; f_equal; lia|].
  by rewrite !lookup_seq_ge by lia.
Qed.

Lemma zrange_cons lo hi : lo <= hi → zrange lo hi = lo :: zrange (lo + 1) hi.
Proof. intros H. rewrite (zrange_app lo lo) by lia. unfold zrange at 1. replace (Z.to_nat (lo - lo + 1)) with 1%nat by lia. cbn. f_equal. lia. Qed.

Lemma elem_of_zrange lo hi n : n ∈ zrange lo hi ↔ lo <= n <= hi.
Proof.
  unfold zrange. rewrite list_elem_of_fmap. setoid_rewrite elem_of_seq. split.
  - intros (k & -> & Hk). lia.
  - intros H. exists (Z.to_nat (n - lo)). lia.
Qed.

Lemma filter_none {A} (p : A → bool) l : (∀ x, x ∈ l → p x = false) → List.filter p l = [].
Proof.
  induction l as [|x l IH]; intros H; [done|]. cbn. rewrite H by set_solver. apply IH. intros y Hy. apply H. set_solver.
Qed.

Lemma filter_mjoin {A} (p : A → bool) (ls : list (list A)) : List.filter p (mjoin ls) = mjoin (List.filter p <$> ls).
Proof. induction ls as [|l ls IH]; [done|]. cbn. rewrite List.filter_app. f_equal. exact IH. Qed.

(** ** The stages of the matcher *)

Lemma overlay_same_length {A} (l k : list A) : length l = length k → overlay l k = l.
Proof. apply overlay_full. Qed.

Section matching.
Context {ARCH : Arch} (size : Z) (fetch : Z → Z → list byte) (bloom_of : Z → list byte).
Context (Hsize : 0 < size) (Hsize8 : size mod 8 = 0).

Lemma size_bytes : Z.of_nat (8 * section_bytes size) = size.
Proof.
  unfold section_bytes. pose proof (Z.div_mod size 8 ltac:(lia)). pose proof (Z.div_pos size 8 ltac:(lia) ltac:(lia)). lia.
Qed.

(** The vectors of section [s] arrive. *)
Definition delivered (s : Z) : Prop :=
  ∀ bit, 0 <= bit < 2048 → length (fetch bit s) = section_bytes size ∧
    ∀ k, (k < 8 * section_bytes size)%nat → test_bit k (fetch bit s) = has_bit (bloom_of (s * size + Z.of_nat k)) (Z.to_nat bit).

Definition clause_ok (n : Z) (bits : list Z) : bool := forallb (λ bit, has_bit (bloom_of n) (Z.to_nat bit)) bits.
Definition rule_ok (n : Z) (rule : list (list Z)) : bool := existsb (clause_ok n) rule.
Definition filters_ok (filters : list (list (list Z))) (n : Z) : bool := forallb (rule_ok n) filters.

Definition clause_wf (bits : list Z) : Prop := bits ≠ [] ∧ Forall (λ bit, 0 <= bit < 2048) bits.
Definition rule_wf (rule : list (list Z)) : Prop := rule ≠ [] ∧ Forall clause_wf rule.

(** A vector of the section that has the bits of [f] *)
Definition vector (s : Z) (v : list byte) (f : Z → bool) : Prop :=
  length v = section_bytes size ∧ ∀ k, (k < 8 * section_bytes size)%nat → test_bit k v = f (s * size + Z.of_nat k).

Lemma and_vector_ok s bits :
  delivered s → clause_wf bits →
  ∃ v, and_vector size fetch s bits = Some (Some v) ∧ vector s v (λ n, clause_ok n bits).
Proof.
  intros Hd [Hne Hbits]. destruct bits as [|b bits]; [done|]. inversion Hbits as [|? ? Hb Hbs]; subst.
  unfold and_vector. cbn [foldl mbind option_bind]. destruct (Hd b Hb) as [Hl Ht].
  rewrite overlay_same_length by (unfold zeros; rewrite length_replicate; done).
  enough (∀ v f, vector s v f → ∃ v', foldl (λ acc bit, andVector ← acc;
      match andVector with
      | None => Some (Some (overlay (fetch bit s) (zeros (section_bytes size))))
      | Some v => r ← ANDBytes v v (fetch bit s); Some (Some r.1)
      end) (Some (Some v)) bits = Some (Some v') ∧ vector s v' (λ n, f n && clause_ok n bits)) as H.
  { destruct (H (fetch b s) (λ n, has_bit (bloom_of n) (Z.to_nat b))) as (v' & E & Hv'); [by split|]. by exists v'. }
  clear Hl Ht Hb Hbits Hne b. induction Hbs as [|b bits Hb Hbs IH]; intros v f Hv; cbn [foldl mbind option_bind].
  - exists v. split; [done|]. destruct Hv as [Hl Ht]. split; [done|]. intros k Hk. rewrite Ht by done. cbn. by rewrite andb_true_r.
  - destruct Hv as [Hl Ht], (Hd b Hb) as [Hl' Ht']. rewrite ANDBytes_ok by lia. cbn [mbind option_bind fst].
    rewrite overlay_same_length by (rewrite length_zip_with; lia).
    destruct (IH (zip_with (byte_op Z.land) v (fetch b s)) (λ n, f n && has_bit (bloom_of n) (Z.to_nat b))) as (v' & E & [Hv1 Hv2]).
    { split; [rewrite length_zip_with; lia|]. intros k Hk. by rewrite test_bit_and, Ht, Ht' by lia. }
    exists v'. split; [done|]. split; [done|]. intros k Hk. rewrite Hv2 by done. cbn. by rewrite andb_assoc.
Qed.

Lemma or_vector_ok s rule :
  delivered s → rule_wf rule →
  ∃ v, or_vector size fetch s rule = Some (Some v) ∧ vector s v (λ n, rule_ok n rule).
Proof.
  intros Hd [Hne Hrule]. destruct rule as [|c rule]; [done|]. inversion Hrule as [|? ? Hc Hcs]; subst.
  unfold or_vector. cbn [foldl mbind option_bind]. destruct (and_vector_ok s c Hd Hc) as (v0 & E0 & Hv0). rewrite E0. cbn [mbind option_bind].
  enough (∀ v f, vector s v f → ∃ v', foldl (λ acc bits, orVector ← acc; andVector ← and_vector size fetch s bits;
      match orVector with
      | None => Some andVector
      | Some v => r ← ORBytes v v (default [] andVector); Some (Some r.1)
      end) (Some (Some v)) rule = Some (Some v') ∧ vector s v' (λ n, f n || rule_ok n rule)) as H.
  { destruct (H v0 _ Hv0) as (v' & E & Hv'). by exists v'. }
  clear v0 E0 Hv0 Hc Hrule Hne c. induction Hcs as [|c rule Hc Hcs IH]; intros v f Hv; cbn [foldl mbind option_bind].
  - exists v. split; [done|]. destruct Hv as [Hl Ht]. split; [done|]. intros k Hk. rewrite Ht by done. cbn. by rewrite orb_false_r.
  - destruct (and_vector_ok s c Hd Hc) as (w & Ew & Hw). rewrite Ew. cbn [mbind option_bind default from_option id].
    destruct Hv as [Hl Ht], Hw as [Hl' Ht']. rewrite ORBytes_ok by lia. cbn [mbind option_bind fst].
    rewrite overlay_same_length by (rewrite length_zip_with; lia).
    destruct (IH (zip_with (byte_op Z.lor) v w) (λ n, f n || clause_ok n c)) as (v' & E & [Hv1 Hv2]).
    { split; [rewrite length_zip_with; lia|]. intros k Hk. by rewrite test_bit_or, Ht, Ht' by lia. }
    exists v'. split; [done|]. split; [done|]. intros k Hk. rewrite Hv2 by done. cbn. by rewrite orb_assoc.
Qed.

(** A stage keeps the matches of its rule, or drops a section without any. *)
Lemma subMatch_ok s rule bitset f :
  delivered s → rule_wf rule → vector s bitset f →
  ∃ r, subMatch size fetch rule s bitset = Some r ∧
    match r with
    | Some v => vector s v (λ n, f n && rule_ok n rule)
    | None => ∀ k, (k < 8 * section_bytes size)%nat → f (s * size + Z.of_nat k) && rule_ok (s * size + Z.of_nat k) rule = false
    end.
Proof.
  intros Hd Hr [Hl Ht]. destruct (or_vector_ok s rule Hd Hr) as (v & E & [Hv Hb]). unfold subMatch. rewrite E. cbn [mbind option_bind default from_option id].
  rewrite ANDBytes_ok by lia. cbn [mbind option_bind fst]. rewrite overlay_same_length by (rewrite length_zip_with; lia).
  rewrite TestBytes_ok. set (w := zip_with _ _ _).
  assert (∀ k, (k < 8 * section_bytes size)%nat → test_bit k w = f (s * size + Z.of_nat k) && rule_ok (s * size + Z.of_nat k) rule) as Hw.
  { intros k Hk. unfold w. rewrite test_bit_and, Ht, Hb by lia. apply andb_comm. }
  eexists. split; [reflexivity|]. destruct (safeTestBytes w) eqn:Etest.
  - split; [|done]. unfold w. rewrite length_zip_with. lia.
  - intros k Hk. rewrite <-Hw by done. by apply safeTestBytes_bits.
Qed.

Lemma pipeline_ok s filters : ∀ bitset f,
  delivered s → Forall rule_wf filters → vector s bitset f →
  ∃ r, pipeline size fetch filters s bitset = Some r ∧
    match r with
    | Some v => vector s v (λ n, f n && filters_ok filters n)
    | None => ∀ k, (k < 8 * section_bytes size)%nat → f (s * size + Z.of_nat k) && filters_ok filters (s * size + Z.of_nat k) = false
    end.
Proof.
  induction filters as [|rule filters IH]; intros bitset f Hd Hwf Hv; cbn [pipeline].
  - eexists. split; [reflexivity|]. destruct Hv as [Hl Ht]. split; [done|]. intros k Hk. rewrite Ht by done. cbn. by rewrite andb_true_r.
  - inversion Hwf as [|? ? Hr Hrs]; subst. destruct (subMatch_ok s rule bitset f Hd Hr Hv) as ([v|] & -> & Hm); cbn [mbind option_bind].
    + destruct (IH v _ Hd Hrs Hm) as (r & -> & Hres). exists r. split; [done|]. destruct r as [w|].
      * destruct Hres as [Hw1 Hw2]. split; [done|]. intros k Hk. rewrite Hw2 by done. cbn. by rewrite andb_assoc.
      * intros k Hk. cbn. rewrite andb_assoc. by apply Hres.
    + eexists. split; [reflexivity|]. intros k Hk. cbn. by rewrite andb_assoc, Hm.
Qed.

(** ** The blocks of a section *)

Lemma section_matches_ok fuel : ∀ i last start bitset,
  start mod 8 = 0 → 0 <= start → start <= i → last - start < Z.of_nat (8 * length bitset) → last < 2 ^ 63 → i <= last + 8 →
  last - i + 1 <= Z.of_nat fuel →
  section_matches fuel i last start bitset =
  Some (List.filter (λ n, test_bit (Z.to_nat (n - start)) bitset) (zrange i last)).
Proof.
  induction fuel as [|fuel IH]; intros i last start bitset Hs Hs0 Hi Hl Hlast Hi8 Hf; cbn [section_matches].
  { destruct (Z.ltb_spec last i); [|lia]. by rewrite zrange_nil. }
  destruct (Z.ltb_spec last i) as [Hd|Hd]; [by rewrite zrange_nil|].
  set (j := Z.to_nat (i - start)). assert (Z.to_nat ((i - start) / 8) = j / 8)%nat as Ej by (unfold j; rewrite Z2Nat.inj_div by lia; done).
  assert (i mod 8 = Z.of_nat (j mod 8)) as Em.
  { unfold j. rewrite Nat2Z.inj_mod, Z2Nat.id by lia. change (Z.of_nat 8) with 8. rewrite Zminus_mod, Hs, Z.sub_0_r, Zmod_mod. done. }
  rewrite Ej. destruct (lookup_lt_is_Some_2 bitset (j / 8)%nat) as [next En]; [apply Nat.div_lt_upper_bound; lia|].
  rewrite En. cbn [mbind option_bind]. destruct (Z.eqb_spec (bz next) 0) as [Ez|Ez].
  - assert (∀ n, i <= n → (Z.to_nat (n - start) / 8 = j / 8)%nat → test_bit (Z.to_nat (n - start)) bitset = false) as Hzero.
    { intros n _ Hn. rewrite test_bit_spec, Hn, nth_lookup, En. cbn [from_option id]. rewrite Ez. apply Z.bits_0. }
    assert (∀ step, 1 <= step <= 8 → (step = 1 ∨ i mod 8 = 0) → uint64 (i + step) = i + step ∧
      List.filter (λ n, test_bit (Z.to_nat (n - start)) bitset) (zrange i last) =
      List.filter (λ n, test_bit (Z.to_nat (n - start)) bitset) (zrange (i + step) last)) as Hskip.
    { intros step Hstep Hal. split; [apply uint64_id; unfold is_uint64; lia|].
      rewrite (zrange_app i (Z.min last (i + step - 1)) last) by lia. rewrite List.filter_app, filter_none; [cbn [app]|].
      - destruct (Z.le_gt_cases (i + step) last); [by replace (Z.min last (i + step - 1) + 1) with (i + step) by lia|].
        by rewrite !zrange_nil by lia.
      - intros n Hn. apply elem_of_zrange in Hn. apply Hzero; [lia|]. replace (Z.to_nat (n - start)) with (j + Z.to_nat (n - i))%nat by lia.
        pose proof (Nat.div_mod_eq j 8). pose proof (Nat.mod_upper_bound j 8 ltac:(lia)). symmetry. apply Nat.div_unique with (j mod 8 + Z.to_nat (n - i))%nat; lia. }
    destruct (Z.eqb_spec (i mod 8) 0) as [E8|E8].
    + destruct (Hskip 8 ltac:(lia) ltac:(auto)) as [-> ->]. apply IH; lia.
    + destruct (Hskip 1 ltac:(lia) ltac:(auto)) as [-> ->]. apply IH; lia.
  - rewrite (uint64_id (i + 1)) by (unfold is_uint64; lia). rewrite IH by lia. cbn [mbind option_bind].
    rewrite (zrange_cons i) by done. cbn [List.filter]. fold j. rewrite Em.
    assert (test_bit j bitset = negb (Z.land (bz next) (Z.shiftl 1 (7 - Z.of_nat (j mod 8))) =? 0)) as -> by (unfold test_bit; by rewrite nth_lookup, En).
    done.
Qed.

(** ** All sections *)

Lemma matches_of_ok filters begin end_ s :
  0 <= begin → 0 <= s → end_ < 2 ^ 63 → begin <= end_ → s * size <= end_ → begin <= s * size + size - 1 → s * size + size <= 2 ^ 63 →
  delivered s → Forall rule_wf filters →
  matches_of size fetch filters begin end_ s =
  Some (List.filter (filters_ok filters) (zrange (Z.max begin (s * size)) (Z.min end_ (s * size + size - 1)))).
Proof.
  intros Hb Hs He Hbe Hse Hbs H63 Hd Hwf. unfold matches_of. pose proof size_bytes as Hsb.
  assert (vector s (replicate (section_bytes size) (zb 0xff)) (λ _, true)) as Hones.
  { split; [apply length_replicate|]. intros k Hk. by apply test_bit_ones. }
  destruct (pipeline_ok s filters _ _ Hd Hwf Hones) as (r & -> & Hr). cbn [mbind option_bind].
  assert (∀ n, n ∈ zrange (Z.max begin (s * size)) (Z.min end_ (s * size + size - 1)) →
    ∃ k, (k < 8 * section_bytes size)%nat ∧ n = s * size + Z.of_nat k) as Hin.
  { intros n Hn. apply elem_of_zrange in Hn. exists (Z.to_nat (n - s * size)). lia. }
  destruct r as [v|].
  - destruct Hr as [Hl Ht]. rewrite (uint64_id (s * size)), (uint64_id (s * size + size - 1)) by (unfold is_uint64; nia).
    replace (if s * size <? begin then begin else s * size) with (Z.max begin (s * size)) by (destruct (Z.ltb_spec (s * size) begin); lia).
    replace (if end_ <? s * size + size - 1 then end_ else s * size + size - 1) with (Z.min end_ (s * size + size - 1))
      by (destruct (Z.ltb_spec end_ (s * size + size - 1)); lia).
    rewrite section_matches_ok; try lia.
    + f_equal. apply filter_ext_in. intros n Hn. apply list_elem_of_In, Hin in Hn as (k & Hk & ->).
      replace (Z.to_nat (s * size + Z.of_nat k - s * size)) with k by lia. by rewrite Ht.
    + rewrite Zmult_mod, Hsize8, Z.mul_0_r. done.
  - f_equal. symmetry. apply filter_none. intros n Hn. destruct (Hin n Hn) as (k & Hk & ->). by apply Hr.
Qed.

Lemma sections_split n : ∀ begin end_ lo,
  lo * size <= begin < lo * size + size → (lo + Z.of_nat n) * size <= end_ < (lo + Z.of_nat n) * size + size → begin <= end_ →
  mjoin ((λ s, zrange (Z.max begin (s * size)) (Z.min end_ (s * size + size - 1))) <$> zrange lo (lo + Z.of_nat n)) = zrange begin end_.
Proof.
  induction n as [|n IH]; intros begin end_ lo Hb He Hbe; rewrite (zrange_cons lo), fmap_cons by lia; cbn [mjoin list_join].
  - rewrite (zrange_nil (lo + 1)) by lia. cbn. rewrite app_nil_r. f_equal; lia.
  - rewrite (zrange_app begin (lo * size + size - 1) end_) by nia. f_equal; [f_equal; nia|].
    replace (lo * size + size - 1 + 1) with ((lo + 1) * size) by lia.
    rewrite <-(IH ((lo + 1) * size) end_ (lo + 1)) by nia. replace (lo + Z.of_nat (S n)) with (lo + 1 + Z.of_nat n) by lia. f_equal.
    apply list_fmap_ext. intros i s Hs. apply list_elem_of_lookup_2, elem_of_zrange in Hs. f_equal. nia.
Qed.

(** The matcher returns exactly the blocks of the range whose bloom passes. *)
Lemma Start_ok filters begin end_ :
  0 <= begin → begin <= end_ → (end_ / size + 1) * size <= 2 ^ 63 → Forall rule_wf filters →
  (∀ s, begin / size <= s <= end_ / size → delivered s) →
  Start size fetch filters begin end_ = Some (List.filter (filters_ok filters) (zrange begin end_)).
Proof.
  intros Hb Hbe H63 Hwf Hd. unfold Start, section_range.
  set (lo := begin / size) in *. set (hi := end_ / size) in *. fold (zrange lo hi).
  pose proof (Z.div_mod begin size ltac:(lia)) as E1. pose proof (Z.mod_pos_bound begin size Hsize) as B1. fold lo in E1.
  pose proof (Z.div_mod end_ size ltac:(lia)) as E2. pose proof (Z.mod_pos_bound end_ size Hsize) as B2. fold hi in E2.
  assert (0 <= lo <= hi) as Hlh by (split; [apply Z.div_pos; lia|apply Z.div_le_mono; lia]).
  assert (mapM (matches_of size fetch filters begin end_) (zrange lo hi) =
    Some ((λ s, List.filter (filters_ok filters) (zrange (Z.max begin (s * size)) (Z.min end_ (s * size + size - 1)))) <$> zrange lo hi)) as ->.
  { apply mapM_Some. apply Forall2_fmap_r, Forall_Forall2_diag, Forall_forall. intros s Hs. apply list_elem_of_In, elem_of_zrange in Hs.
    apply matches_of_ok; try done; try nia. by apply Hd. }
  cbn [fmap option_fmap option_map]. f_equal. pose proof (sections_split (Z.to_nat (hi - lo)) begin end_ lo) as Hsplit.
  replace (lo + Z.of_nat (Z.to_nat (hi - lo))) with hi in Hsplit by lia. rewrite <-Hsplit by nia.
  by rewrite filter_mjoin, <-list_fmap_compose.
Qed.

End matching.

(** ** Filters and blooms *)

Lemma SetBytes_testbit l i :
  (i < 8 * length l)%nat → Z.testbit (SetBytes l) (Z.of_nat i) = Z.testbit (bz (nth (length l - 1 - i / 8) l Byte.x00)) (Z.of_nat (i mod 8)).
Proof.
  revert i. induction l as [|b l IH] using rev_ind; intros i Hi; [cbn in Hi; lia|]. rewrite length_app in Hi |- *. cbn [length] in Hi |- *.
  rewrite SetBytes_snoc, testbit_snoc by lia. pose proof (Nat.div_mod_eq i 8). pose proof (Nat.mod_upper_bound i 8 ltac:(lia)).
  destruct (Z.ltb_spec (Z.of_nat i) 8).
  - rewrite (Nat.div_small i 8), (Nat.mod_small i 8) by lia. rewrite app_nth2 by lia. by replace (length l + 1 - 1 - 0 - length l)%nat with 0%nat by lia.
  - replace (Z.of_nat i - 8) with (Z.of_nat (i - 8)) by lia. rewrite IH by lia.
    assert ((i - 8) / 8 = i / 8 - 1)%nat as -> by (symmetry; apply Nat.div_unique with (i mod 8)%nat; lia).
    assert ((i - 8) mod 8 = i mod 8)%nat as -> by (symmetry; apply Nat.mod_unique with (i / 8 - 1)%nat; lia).
    rewrite app_nth1 by lia. do 3 f_equal. lia.
Qed.

Lemma has_bit_spec bloom i :
  length bloom = 256%nat → (i < 2048)%nat → has_bit bloom i = Z.testbit (SetBytes bloom) (Z.of_nat i).
Proof.
  intros Hl Hi. rewrite SetBytes_testbit by lia. unfold has_bit. rewrite land_single by lia. by rewrite Hl.
Qed.

(** All bits of a union are set exactly when the bits of its parts are. *)
Lemma covers_lor v a b : Z.land v (Z.lor a b) = Z.lor a b ↔ Z.land v a = a ∧ Z.land v b = b.
Proof.
  assert (∀ x, Z.land v x = x ↔ ∀ n, 0 <= n → Z.testbit x n = true → Z.testbit v n = true) as Hc.
  { intros x. split.
    - intros E n Hn Hx. rewrite <-E, Z.land_spec in Hx. by apply andb_true_iff in Hx as [? _].
    - intros H. apply Z.bits_inj'. intros n Hn. rewrite Z.land_spec. destruct (Z.testbit x n) eqn:Ex; [|apply andb_false_r].
      by rewrite H. }
  rewrite !Hc. setoid_rewrite Z.lor_spec. setoid_rewrite orb_true_iff. naive_solver.
Qed.

Lemma covers_single v k : 0 <= k → Z.land v (Z.shiftl 1 k) = Z.shiftl 1 k ↔ Z.testbit v k = true.
Proof.
  intros Hk. split.
  - intros E. apply (f_equal (λ z, Z.testbit z k)) in E. rewrite Z.land_spec, Z.shiftl_spec, Z.sub_diag in E by lia.
    change (Z.testbit 1 0) with true in E. by rewrite andb_true_r in E.
  - intros Hv. apply Z.bits_inj'. intros n Hn. rewrite Z.land_spec, Z.shiftl_spec by lia.
    destruct (Z.eq_dec n k) as [->|Hne]; [by rewrite Hv|]. replace (Z.testbit 1 (n - k)) with false; [apply andb_false_r|]. symmetry.
    destruct (Z.lt_ge_cases (n - k) 0); [by apply Z.testbit_neg_r|]. apply Z.bits_above_log2; [lia|change (Z.log2 1) with 0; lia].
Qed.

Section blooms.
Context {CRYPTO : Crypto}.

Lemma calcBloomIndexes_bits b : calcBloomIndexes b = bloom_bit (Keccak256 b) <$> [0; 2; 4]%nat.
Proof.
  unfold calcBloomIndexes. generalize (Keccak256 b) as k. intros k.
  assert (∀ i, Z.land (Z.shiftl (bz (nth i k Byte.x00)) 8) 2047 + bz (nth (i + 1) k Byte.x00) = bloom_bit k i) as H.
  { intros i. unfold bloom_bit. rewrite !nth_lookup, Nat.add_1_r. set (x := bz (default Byte.x00 (k !! i))). set (y := bz (default Byte.x00 (k !! S i))).
    assert (0 <= x < 256 ∧ 0 <= y < 256) as [Hx Hy] by (split; apply bz_range). change 2047 with (Z.ones 11).
    rewrite !Z.land_ones, !Z.shiftl_mul_pow2 by lia. change (2 ^ 11) with 2048. change (2 ^ 8) with 256.
    rewrite (Z.add_mod y) by lia. rewrite (Z.mod_small y) by lia.
    assert ((x * 256) mod 2048 = x mod 8 * 256) as -> by (change 2048 with (8 * 256); by rewrite Z.mul_mod_distr_r by lia).
    pose proof (Z.mod_pos_bound x 8 ltac:(lia)). rewrite (Z.mod_small (y + _)); lia. }
  cbn [fmap list_fmap]. by rewrite !H.
Qed.

(** A clause of the matcher is the lookup of its bytes. *)
Lemma clause_lookup bloom_of n b :
  length (bloom_of n) = 256%nat → clause_ok bloom_of n (calcBloomIndexes b) = BloomLookup (bloom_of n) b.
Proof.
  intros Hl. rewrite calcBloomIndexes_bits. unfold clause_ok, BloomLookup, bloom9. cbn [fmap list_fmap foldl forallb].
  set (k := Keccak256 b). assert (∀ i, has_bit (bloom_of n) (Z.to_nat (bloom_bit k i)) = Z.testbit (SetBytes (bloom_of n)) (bloom_bit k i)) as Hbit.
  { intros i. pose proof (bloom_bit_range k i). rewrite has_bit_spec by (done || lia). f_equal. lia. }
  rewrite !Hbit, Z.lor_0_l. apply eq_true_iff_eq. rewrite !andb_true_iff, Z.eqb_eq, !covers_lor.
  pose proof (bloom_bit_range k). rewrite !covers_single by apply H. tauto.
Qed.

Lemma calcBloomIndexes_wf b : clause_wf (calcBloomIndexes b).
Proof.
  rewrite calcBloomIndexes_bits. split; [done|]. apply list.Forall_fmap, Forall_true. intros i. apply bloom_bit_range.
Qed.

(** The rules a range filter hands to its matcher *)
Definition rules (addresses : list Address) (topics : list (list Hash)) : list (list (list byte)) :=
  List.filter (λ r, negb (length r =? 0)%nat) ((AddressBytes <$> addresses) :: ((λ sub : list Hash, HashBytes <$> sub) <$> topics)).

Lemma matcher_filters_some (rs : list (list (list byte))) :
  matcher_filters ((λ r : list (list byte), Some <$> r) <$> rs) = (λ r : list (list byte), calcBloomIndexes <$> r) <$> List.filter (λ r, negb (length r =? 0)%nat) rs.
Proof.
  unfold matcher_filters. induction rs as [|r rs IH]; [done|]. rewrite fmap_cons, bind_cons, IH, length_fmap. cbn [List.filter].
  destruct (length r =? 0)%nat; cbn [negb]; [done|]. rewrite fmap_cons.
  replace (mapM (λ clause, clause) (Some <$> r)) with (Some r); [done|]. symmetry. apply mapM_Some.
  apply Forall2_fmap_l, Forall_Forall2_diag, Forall_true. done.
Qed.

Lemma range_filter_rules begin end_ addrs tops {BACKEND : Backend} :
  m_filters (matcher (NewRangeFilter begin end_ addrs tops)) = (λ r : list (list byte), calcBloomIndexes <$> r) <$> rules addrs tops.
Proof.
  cbn [matcher NewRangeFilter NewMatcher m_filters]. unfold rules. rewrite <-matcher_filters_some, fmap_cons.
  rewrite <-!list_fmap_compose. destruct addrs as [|a addrs]; cbn [length Nat.ltb Nat.leb app].
  - unfold matcher_filters at 2. rewrite bind_cons. cbn [fmap list_fmap length Nat.eqb app]. f_equal. apply list_fmap_ext.
    intros i sub _. cbn. by rewrite <-list_fmap_compose.
  - f_equal. f_equal. apply list_fmap_ext. intros i sub _. cbn. by rewrite <-list_fmap_compose.
Qed.

Lemma rules_wf addrs tops : Forall rule_wf ((λ r : list (list byte), calcBloomIndexes <$> r) <$> rules addrs tops).
Proof.
  apply list.Forall_fmap. apply Forall_forall. intros r Hr. unfold rules in Hr. apply filter_In in Hr as [_ Hr]. split.
  - cbn. by destruct r.
  - apply list.Forall_fmap, Forall_true. intros b. apply calcBloomIndexes_wf.
Qed.

Lemma forallb_filter_nonempty {A} (p : list A → bool) rs :
  forallb p (List.filter (λ r, negb (length r =? 0)%nat) rs) = forallb (λ r, (length r =? 0)%nat || p r) rs.
Proof. induction rs as [|r rs IH]; [done|]. cbn. destruct (length r =? 0)%nat; cbn; by rewrite IH. Qed.

Lemma forallb_same {A} (p q : A → bool) l : (∀ x, p x = q x) → forallb p l = forallb q l.
Proof. intros H. induction l as [|x l IH]; [done|]. cbn. by rewrite H, IH. Qed.

Lemma forallb_fmap {A B} (f : A → B) p (l : list A) : forallb p (f <$> l) = forallb (λ x, p (f x)) l.
Proof. induction l as [|x l IH]; [done|]. cbn. f_equal. exact IH. Qed.

Lemma existsb_fmap {A B} (f : A → B) p (l : list A) : existsb p (f <$> l) = existsb (λ x, p (f x)) l.
Proof. induction l as [|x l IH]; [done|]. cbn. f_equal. exact IH. Qed.

(** The matcher and the check of a single bloom agree. *)
Lemma filters_ok_bloomFilter bloom_of addrs tops n :
  length (bloom_of n) = 256%nat →
  filters_ok bloom_of ((λ r : list (list byte), calcBloomIndexes <$> r) <$> rules addrs tops) n = bloomFilter (bloom_of n) addrs tops.
Proof.
  intros Hl. assert (∀ r : list (list byte), rule_ok bloom_of n (calcBloomIndexes <$> r) = existsb (BloomLookup (bloom_of n)) r) as Hrule.
  { intros r. unfold rule_ok. rewrite existsb_fmap. induction r as [|b r IH]; [done|]. cbn [existsb]. by rewrite clause_lookup, IH. }
  unfold filters_ok, rules. rewrite forallb_fmap. unfold bloomFilter.
  rewrite (forallb_same _ (existsb (BloomLookup (bloom_of n)))) by apply Hrule.
  rewrite forallb_filter_nonempty. cbn [forallb]. rewrite length_fmap, existsb_fmap, forallb_fmap. f_equal.
  apply forallb_same. intros sub. by rewrite length_fmap, existsb_fmap.
Qed.

Lemma topics_match_in tops log : ∀ i,
  topics_match i tops log = true → (i + length tops <= length (log_Topics log))%nat →
  Forall (λ sub, sub = [] ∨ ∃ t, t ∈ sub ∧ t ∈ log_Topics log) tops.
Proof.
  induction tops as [|sub tops IH]; intros i H Hl; [constructor|]. cbn [topics_match length] in *. apply andb_true_iff in H as [H Hr].
  constructor; [|apply (IH (S i)); [done|lia]]. destruct (Nat.eqb_spec (length sub) 0) as [E|E]; [left; by apply nil_length_inv|].
  right. cbn [orb] in H. apply existsb_exists in H as (t & Ht & Et). apply Z.eqb_eq in Et as <-. exists (nth i (log_Topics log) 0).
  split; [by apply list_elem_of_In|]. apply list_elem_of_In, nth_In. lia.
Qed.

(** A block with a matching log passes the bloom filter. *)
Lemma passes_bloomFilter receipts bloom addrs tops log :
  CreateBloom receipts = Some bloom → log ∈ (receipts ≫= rc_Logs) → log_passes None None addrs tops log = true →
  bloomFilter bloom addrs tops = true.
Proof.
  intros Hb Hin Hp. destruct (CreateBloom_complete receipts) as (bloom' & Hb' & _ & Hlook).
  assert (bloom' = bloom) as -> by congruence. apply list_elem_of_bind in Hin as (r & Hlog & Hr).
  unfold log_passes in Hp. cbn [negb andb] in Hp. apply andb_true_iff in Hp as [Hp Ht]. apply andb_true_iff in Hp as [Ha Hn].
  apply andb_true_iff. split.
  - destruct (Nat.eqb_spec (length addrs) 0); [done|]. cbn [negb andb orb] in *. unfold includes in Ha.
    destruct (existsb _ addrs) eqn:E in Ha; [|done]. apply existsb_exists in E as (a & Hina & Ea). apply Z.eqb_eq in Ea as ->.
    apply existsb_exists. eexists. split; [exact Hina|]. eapply Hlook; [done|done|by left].
  - apply forallb_forall. intros sub Hsub. apply (topics_match_in tops log 0) in Ht; [|cbn; lia].
    rewrite Forall_forall in Ht. apply list_elem_of_In in Hsub.
    assert (sub = [] ∨ ∃ t, t ∈ sub ∧ t ∈ log_Topics log) as [->|(t & Hts & Htl)]; [by apply Ht, list_elem_of_In|done|].
    destruct (Nat.eqb_spec (length sub) 0); [done|]. cbn [orb]. apply existsb_exists. exists t.
    split; [by apply list_elem_of_In|]. eapply Hlook; [done|done|right; by exists t].
Qed.

(** ** The search *)

Context {ARCH : Arch} {BACKEND : Backend} (fetch : Z → Z → list byte).
Context (head : Z) (header : Z → Header) (receipts : Z → list Receipt).

(** The backend serves a chain of blocks up to [head], whose blooms are those of
    their receipts. *)
Record serves_chain : Prop := {
  sc_head : 0 <= head < 2 ^ 63 - 1;
  sc_latest : LatestHeader = Some (header head);
  sc_latest_number : Block.Number (header head) = head;
  sc_header n : 0 <= n <= head → HeaderByNumber n = Some (Some (header n));
  sc_logs n : 0 <= n <= head → GetLogs (Header_Hash (header n)) = Some (rc_Logs <$> receipts n);
  sc_receipts n : 0 <= n <= head → GetReceipts (Header_Hash (header n)) = Some (receipts n);
  sc_bloom n : 0 <= n <= head → CreateBloom (receipts n) = Some (be_bytes 256 (Block.Bloom (header n)))
}.

(** The first sections are indexed, and their vectors can be retrieved. *)
Record indexed : Prop := {
  ix_size : 0 < BloomStatus.1;
  ix_size8 : BloomStatus.1 mod 8 = 0;
  ix_sections : 0 <= BloomStatus.2 ∧ BloomStatus.2 * BloomStatus.1 <= head + 1;
  ix_vectors s : 0 <= s < BloomStatus.2 → delivered BloomStatus.1 fetch (λ n, be_bytes 256 (Block.Bloom (header n))) s
}.

(** The matching logs of one block *)
Definition found (f : Filter) (n : Z) : list Log := filterLogs (receipts n ≫= rc_Logs) None None (addresses f) (topics f).

Lemma mjoin_fmap_bind {A B} (f : A → list B) l : mjoin (f <$> l) = l ≫= f.
Proof. induction l as [|x l IH]; [done|]. cbn. f_equal. exact IH. Qed.

Lemma checkMatches_ok f n : serves_chain → 0 <= n <= head → checkMatches f (header n) = Some (found f n).
Proof.
  intros Hc Hn. unfold checkMatches. rewrite (sc_logs Hc n Hn). cbn [mbind option_bind]. rewrite mjoin_fmap_bind. fold (found f n).
  destruct (found f n) as [|log logs] eqn:E; [done|]. destruct (log_TxHash log =? 0); [|done].
  rewrite (sc_receipts Hc n Hn). cbn [mbind option_bind]. fold (found f n). by rewrite E.
Qed.

Lemma found_passes f n :
  serves_chain → 0 <= n <= head → bloomFilter (be_bytes 256 (Block.Bloom (header n))) (addresses f) (topics f) = false → found f n = [].
Proof.
  intros Hc Hn Hb. apply filter_none. intros log Hlog. destruct (log_passes _ _ _ _ log) eqn:E; [|done].
  rewrite (passes_bloomFilter _ _ _ _ log (sc_bloom Hc n Hn) Hlog E) in Hb. done.
Qed.

Lemma blockLogs_ok f n : serves_chain → 0 <= n <= head → blockLogs f (header n) = Some (found f n).
Proof.
  intros Hc Hn. unfold blockLogs. destruct (bloomFilter _ _ _) eqn:E; [by apply checkMatches_ok|]. by rewrite found_passes.
Qed.

Lemma found_begin i f n : found (set_begin i f) n = found f n.
Proof. done. Qed.

Lemma indexed_from_ok numbers end_ : ∀ logs f,
  serves_chain → Forall (λ n, 0 <= n <= head) numbers → 0 <= end_ <= head →
  ∃ f', indexed_from numbers end_ logs f = (logs ++ (numbers ≫= found f), false, f') ∧ f' = set_begin (end_ + 1) f.
Proof.
  induction numbers as [|n numbers IH]; intros logs f Hc Hns He; cbn [indexed_from]; pose proof (sc_head Hc) as Hh.
  - eexists. rewrite app_nil_r. split; [reflexivity|]. by rewrite !int64_id by (rewrite ?int64_id; lia).
  - inversion Hns as [|? ? Hn Hns']; subst. rewrite (int64_id n) by lia. rewrite (sc_header Hc n Hn), checkMatches_ok by done.
    destruct (IH (logs ++ found f n) (set_begin (int64 (n + 1)) f) Hc Hns' He) as (f' & E & ->). eexists. split; [|done].
    etrans; [exact E|]. rewrite bind_cons, <-app_assoc. done.
Qed.

Lemma unindexed_from_ok m : ∀ end_ logs f,
  serves_chain → 0 <= f_begin f → f_begin f <= end_ + 1 → end_ <= head → Z.of_nat m = end_ - f_begin f + 1 →
  ∃ f', unindexed_from m end_ logs f = (logs ++ (zrange (f_begin f) end_ ≫= found f), false, f') ∧ f' = set_begin (end_ + 1) f.
Proof.
  induction m as [|m IH]; intros end_ logs f Hc Hb Hbe He Hm; cbn [unindexed_from]; pose proof (sc_head Hc) as Hh.
  - rewrite zrange_nil by lia. exists f. rewrite app_nil_r. split; [done|]. replace (end_ + 1) with (f_begin f) by lia. by destruct f.
  - rewrite (int64_id end_) by lia. destruct (Z.ltb_spec end_ (f_begin f)); [lia|].
    rewrite (sc_header Hc) by lia. rewrite blockLogs_ok by (done || lia). rewrite (int64_id (f_begin f + 1)) by lia.
    destruct (IH end_ (logs ++ found f (f_begin f)) (set_begin (f_begin f + 1) f) Hc) as (f' & E & ->); cbn [f_begin set_begin] in *; [lia..|].
    eexists. split; [|done]. etrans; [exact E|]. rewrite (zrange_cons (f_begin f)), bind_cons, <-app_assoc by lia. done.
Qed.

(** What the bloom filters out has no matching logs. *)
Lemma filtered_bind f (p : Z → bool) l :
  (∀ n, n ∈ l → p n = false → found f n = []) → List.filter p l ≫= found f = l ≫= found f.
Proof.
  induction l as [|n l IH]; intros H; [done|]. cbn [List.filter]. rewrite (bind_cons (found f)), <-IH by set_solver.
  destruct (p n) eqn:E; [by rewrite bind_cons|]. by rewrite H by set_solver.
Qed.

Lemma indexedLogs_ok begin b e addrs tops end_ :
  serves_chain → indexed → let f := set_begin begin (NewRangeFilter b e addrs tops) in
  0 <= begin → begin <= end_ → end_ < BloomStatus.2 * BloomStatus.1 →
  indexedLogs fetch end_ f = Some (zrange begin end_ ≫= found f, false, set_begin (end_ + 1) f).
Proof.
  intros Hc [Hs Hs8 [Hsec Hcount] Hv] f Hb Hbe He. pose proof (sc_head Hc) as Hh. unfold indexedLogs.
  change (f_begin f) with begin. rewrite (uint64_id begin) by (unfold is_uint64; lia).
  change (matcher f) with (matcher (NewRangeFilter b e addrs tops)). rewrite range_filter_rules.
  change (m_sectionSize (matcher (NewRangeFilter b e addrs tops))) with (BloomStatus.1). set (size := BloomStatus.1) in *.
  assert (end_ / size < BloomStatus.2) as Hlast by (apply Z.div_lt_upper_bound; lia).
  rewrite (Start_ok size fetch (λ n, be_bytes 256 (Block.Bloom (header n)))); [|done|done|done|done|nia|apply rules_wf|].
  2:{ intros s Hsr. apply Hv. pose proof (Z.div_pos begin size ltac:(lia) ltac:(lia)). lia. }
  cbn [mbind option_bind]. f_equal. set (numbers := List.filter _ _).
  assert (Forall (λ n, 0 <= n <= head) numbers) as Hnum.
  { apply Forall_forall. intros n Hn. apply filter_In in Hn as [Hn _]. apply list_elem_of_In, elem_of_zrange in Hn. lia. }
  destruct (indexed_from_ok numbers end_ [] f Hc Hnum) as (f' & -> & ->); [lia|]. cbn [app]. unfold numbers. rewrite filtered_bind; [done|].
  intros n Hn Hno. apply elem_of_zrange in Hn. apply found_passes; [done|lia|]. by rewrite filters_ok_bloomFilter in Hno by apply length_be_bytes.
Qed.

(** A search over indexed and other blocks finds what a look at every block would. *)
Lemma Logs_ok b e addrs tops :
  serves_chain → indexed →
  let begin := if b =? -1 then head else b in let end_ := if e =? -1 then head else e in
  0 <= begin → begin <= end_ → end_ <= head →
  let f := NewRangeFilter b e addrs tops in
  ∃ f', Logs fetch f = Some (zrange begin end_ ≫= found f, false, f') ∧ f_begin f' = end_ + 1.
Proof.
  intros Hc Hix begin end_ Hb Hbe He f. pose proof (sc_head Hc) as Hh. unfold Logs. cbn [f_block f NewRangeFilter Z.eqb negb].
  rewrite (sc_latest Hc), (sc_latest_number Hc), (uint64_id head), (int64_id head) by (unfold is_uint64; lia).
  change (f_begin f) with b.
  replace (if b =? -1 then set_begin head f else f) with (set_begin begin f) by (unfold begin; by destruct (b =? -1)).
  change (f_end (set_begin begin f)) with e.
  assert ((if e =? -1 then head else uint64 e) = end_) as ->.
  { unfold end_ in *. destruct (e =? -1); [done|]. apply uint64_id. unfold is_uint64. lia. }
  pose proof (ix_sections Hix) as [Hsec Hcount]. pose proof (ix_size Hix) as Hs.
  assert (∀ A (k : Z → Z → A), (let '(size, secs) := BloomStatus in k size secs) = k BloomStatus.1 BloomStatus.2) as -> by (intros; by destruct BloomStatus).
  set (size := BloomStatus.1) in *. set (secs := BloomStatus.2) in *.
  assert (uint64 (secs * size) = secs * size) as -> by (apply uint64_id; unfold is_uint64; nia).
  cbn [f_begin set_begin]. rewrite (uint64_id begin) by (unfold is_uint64; lia).
  assert (∀ i, let f1 := set_begin i f in 0 <= i → i <= end_ + 1 →
    unindexedLogs end_ f1 = (zrange i end_ ≫= found f, false, set_begin (end_ + 1) f)) as Hrest.
  { intros i f1 Hi Hie. unfold unindexedLogs. cbn [f_begin f1 set_begin]. rewrite (int64_id end_) by lia.
    destruct (unindexed_from_ok (Z.to_nat (end_ - i + 1)) end_ [] f1 Hc) as (f' & -> & ->); cbn [f_begin f1 set_begin]; [lia..|]. done. }
  destruct (Z.ltb_spec begin (secs * size)) as [Hin|Hin].
  - set (end1 := if end_ <? secs * size then end_ else uint64 (secs * size - 1)).
    assert (begin <= end1 < secs * size ∧ end1 <= end_) as [H1 H2].
    { unfold end1. destruct (Z.ltb_spec end_ (secs * size)); [lia|]. rewrite uint64_id by (unfold is_uint64; lia). lia. }
    pose proof (indexedLogs_ok begin b e addrs tops end1 Hc Hix Hb ltac:(lia) ltac:(lia)) as E. fold f in E. rewrite E.
    cbn [mbind option_bind]. change (set_begin (end1 + 1) (set_begin begin f)) with (set_begin (end1 + 1) f).
    rewrite Hrest by lia. exists (set_begin (end_ + 1) f). split; [|reflexivity].
    rewrite (zrange_app begin end1 end_), bind_app by lia. done.
  - cbn [mbind option_bind]. rewrite Hrest by lia. by exists (set_begin (end_ + 1) f).
Qed.

End blooms.

(** ** The indexer *)

Lemma bloomBitsKey_inj bit s h bit' s' h' :
  0 <= bit < 65536 → 0 <= bit' < 65536 → is_uint64 s → is_uint64 s' →
  bloomBitsKey bit s h = bloomBitsKey bit' s' h' → bit = bit' ∧ s = s'.
Proof.
  intros Hb Hb' Hs Hs' E. unfold bloomBitsKey in E. apply (f_equal (@tail byte)) in E. cbn [tail] in E.
  apply app_inj_1 in E as [E1 E]; [|by rewrite !length_be_bytes]. apply app_inj_1 in E as [E2 _]; [|by rewrite !length_be_bytes].
  apply (f_equal SetBytes) in E1, E2. rewrite !SetBytes_be_bytes in E1, E2. unfold is_uint64 in *.
  rewrite !Z.mod_small in E1, E2 by (cbn; lia). done.
Qed.

Lemma headerHashKey_other n bit s h : headerHashKey n ≠ bloomBitsKey bit s h.
Proof. done. Qed.

Lemma batch_Put_Write key value b d :
  entries (batch_Write (batch_Put key value b) d) = <[key := value]> (entries (batch_Write b d)).
Proof. unfold batch_Write. cbn. by rewrite foldl_app. Qed.

Section indexing.
Context {CRYPTO : Crypto}.

(** The batch holds the vectors of the first [n] bits and nothing else. *)
Lemma commit_bits_ok n s h bs g :
  gen_ok bs g → length bs = sections g → (n <= BloomBitLength)%nat → is_uint64 s →
  ∃ batch, commit_bits n s h g = Some (inr batch) ∧ ∀ d,
    (∀ i, (i < n)%nat → ∃ v c, Bitset i g = inr v ∧ CompressBytes v = Some c ∧
       entries (batch_Write batch d) !! bloomBitsKey (Z.of_nat i) s h = Some c) ∧
    (∀ key, (∀ i, (i < n)%nat → key ≠ bloomBitsKey (Z.of_nat i) s h) → entries (batch_Write batch d) !! key = entries d !! key).
Proof.
  intros Hg Hl Hn Hs. assert (BloomBitLength = 2048)%nat as E2048 by done. induction n as [|n IH]; cbn [commit_bits].
  - eexists. split; [reflexivity|]. intros d. split; [lia|done].
  - destruct IH as (batch & -> & Hbatch); [lia|]. cbn [mbind option_bind].
    destruct (Bitset_ok bs g n Hg Hl ltac:(lia)) as (v & Ev & _). rewrite Ev.
    destruct (CompressBytes_ok v) as (c & Ec & _). rewrite Ec. cbn [mbind option_bind]. eexists. split; [reflexivity|].
    intros d. destruct (Hbatch d) as [Hin Hout]. unfold WriteBloomBits. rewrite batch_Put_Write. split.
    + intros i Hi. destruct (decide (i = n)) as [->|Hne]; [exists v, c; by rewrite lookup_insert_eq|].
      rewrite lookup_insert_ne; [apply Hin; lia|]. intros E. apply bloomBitsKey_inj in E as [E _]; [lia|lia|lia|done|done].
    + intros key Hkey. rewrite lookup_insert_ne; [apply Hout; intros i Hi; apply Hkey; lia|]. apply not_eq_sym, Hkey. lia.
Qed.

(** *** One section *)

Context (ReadHeader : Hash → Z → option Header) (header : Z → Header) (head : Z).

(** The canonical chain up to [head] can be read from the database. *)
Record canonical (db : MemDatabase) : Prop := {
  cn_head : head < 2 ^ 63 - 1;
  cn_hash n : 0 <= n <= head → ReadCanonicalHash db n = Header_Hash (header n);
  cn_nonzero n : 0 <= n <= head → Header_Hash (header n) ≠ 0;
  cn_read n : 0 <= n <= head → ReadHeader (Header_Hash (header n)) n = Some (header n);
  cn_number n : 0 <= n <= head → Block.Number (header n) = n;
  cn_parent n : 0 < n <= head → Block.ParentHash (header n) = Header_Hash (header (n - 1));
  cn_genesis : Block.ParentHash (header 0) = 0
}.

(** What the last header before block [n] hashes to *)
Definition last_hash (n : Z) : Hash := if n =? 0 then 0 else Header_Hash (header (n - 1)).

Definition bloom_at (n : Z) : list byte := be_bytes 256 (Block.Bloom (header n)).

(** The indexer has taken the first [k] headers of section [s]. *)
Record section_inv (db : MemDatabase) (size s : Z) (k : nat) (b : BloomIndexer) : Prop := {
  si_db : bi_db b = db;
  si_size : bi_size b = size;
  si_section : bi_section b = s;
  si_gen : ∃ g, bi_gen b = Some g ∧ sections g = Z.to_nat size ∧
    gen_ok (bloom_at <$> zrange (s * size) (s * size + Z.of_nat k - 1)) g;
  si_head : (0 < k)%nat → bi_head b = last_hash (s * size + Z.of_nat k)
}.

Lemma last_hash_succ n : 0 <= n → last_hash (n + 1) = Header_Hash (header n).
Proof. intros H. unfold last_hash. destruct (Z.eqb_spec (n + 1) 0); [lia|]. by replace (n + 1 - 1) with n by lia. Qed.

Lemma bi_Process_ok db size s k b :
  canonical db → section_inv db size s k b → 0 < size → 0 <= s → Z.of_nat k < size → s * size + Z.of_nat k <= head →
  ∃ b', bi_Process (header (s * size + Z.of_nat k)) b = Some b' ∧ section_inv db size s (S k) b'.
Proof.
  intros Hcn [Hdb Hsize Hsec (g & Hgen & Hgs & Hg) Hhead] H0 Hs Hk Hle. set (n := s * size + Z.of_nat k) in *.
  pose proof (cn_head _ Hcn) as Hh. assert (0 <= n <= head) as Hn by nia.
  unfold bi_Process. rewrite Hgen. cbn [mbind option_bind]. rewrite Hsec, Hsize, (cn_number _ Hcn n Hn).
  rewrite !(uint64_id n), !(uint64_id (s * size)), (uint64_id (n - s * size)) by (unfold is_uint64; nia).
  replace (n - s * size) with (Z.of_nat k) by lia. fold (bloom_at n).
  assert (length (bloom_at <$> zrange (s * size) (n - 1)) = k) as Hlen by (unfold zrange; rewrite !length_fmap, length_seq; lia).
  destruct (AddBloom_ok _ (bloom_at n) g Hg) as (g' & Eg & Hg' & Hs'); [lia|]. rewrite Hlen in Eg. rewrite Eg.
  eexists. split; [reflexivity|]. split; cbn; [done..| |].
  - exists g'. split; [done|]. split; [by rewrite Hs'|].
    replace (zrange (s * size) (s * size + Z.of_nat (S k) - 1)) with (zrange (s * size) (n - 1) ++ [n]); [by rewrite fmap_app|].
    rewrite (zrange_app (s * size) (n - 1) (s * size + Z.of_nat (S k) - 1)) by lia. f_equal. rewrite (zrange_cons (n - 1 + 1)), (zrange_nil (n - 1 + 1 + 1)) by lia. f_equal. lia.
  - intros _. replace (s * size + Z.of_nat (S k)) with (n + 1) by lia. symmetry. apply last_hash_succ. lia.
Qed.

(** One header *)
Lemma process_one db size s k b :
  canonical db → section_inv db size s k b → 0 < size → 0 <= s → Z.of_nat k < size → s * size + Z.of_nat k <= head →
  let n := s * size + Z.of_nat k in
  ∃ b', process_headers ReadHeader 1 n (last_hash n) b = Some (inr (last_hash (n + 1), b')) ∧ section_inv db size s (S k) b'.
Proof.
  intros Hcn Hinv H0 Hs Hk Hle n. destruct (bi_Process_ok db size s k b Hcn Hinv H0 Hs Hk Hle) as (b1 & E1 & Hinv1). fold n in E1.
  assert (0 <= n <= head) as Hn by nia. exists b1. split; [|done]. cbn [process_headers].
  rewrite (si_db _ _ _ _ _ Hinv), (cn_hash _ Hcn n Hn).
  destruct (Z.eqb_spec (Header_Hash (header n)) 0) as [E|_]; [by apply (cn_nonzero _ Hcn n Hn) in E|]. rewrite (cn_read _ Hcn n Hn).
  assert (Block.ParentHash (header n) = last_hash n) as ->.
  { unfold last_hash. destruct (Z.eqb_spec n 0) as [->|]; [apply (cn_genesis _ Hcn)|]. apply (cn_parent _ Hcn). lia. }
  rewrite Z.eqb_refl, E1. cbn [negb mbind option_bind]. by rewrite last_hash_succ by lia.
Qed.

(** The loop is one header after the other. *)
Lemma process_headers_S m n lastHead b :
  process_headers ReadHeader (S m) n lastHead b =
    (r ← process_headers ReadHeader 1 n lastHead b;
     match r with inl err => Some (inl err) | inr (lastHead, b) => process_headers ReadHeader m (uint64 (n + 1)) lastHead b end).
Proof.
  cbn [process_headers]. destruct (_ =? 0); [done|]. destruct (ReadHeader _ _) as [h|]; [|done]. destruct (negb _); [done|].
  by destruct (bi_Process h b).
Qed.

Lemma process_headers_ok db size s m : ∀ k b,
  canonical db → section_inv db size s k b → 0 < size → 0 <= s → Z.of_nat (k + m) = size → (s + 1) * size <= head + 1 →
  ∃ b', process_headers ReadHeader m (s * size + Z.of_nat k) (last_hash (s * size + Z.of_nat k)) b =
      Some (inr (last_hash ((s + 1) * size), b')) ∧ section_inv db size s (k + m) b'.
Proof.
  induction m as [|m IH]; intros k b Hcn Hinv H0 Hs Hk Hle.
  - exists b. rewrite Nat.add_0_r in *. by replace (s * size + Z.of_nat k) with ((s + 1) * size) by lia.
  - destruct (process_one db size s k b Hcn Hinv H0 Hs) as (b1 & E1 & Hinv1); [lia|lia|].
    pose proof (cn_head _ Hcn) as Hh. rewrite process_headers_S, E1. cbn [mbind option_bind].
    rewrite (uint64_id (s * size + Z.of_nat k + 1)) by (unfold is_uint64; nia).
    replace (s * size + Z.of_nat k + 1) with (s * size + Z.of_nat (S k)) by lia.
    destruct (IH (S k) b1 Hcn Hinv1 H0 Hs ltac:(lia) Hle) as (b' & E & Hinv'). exists b'. split; [exact E|].
    by rewrite Nat.add_succ_r.
Qed.

(** What processing keeps in any case *)
Lemma bi_Process_keeps h b b' :
  bi_Process h b = Some b' → bi_size b' = bi_size b ∧ bi_db b' = bi_db b ∧ bi_section b' = bi_section b ∧ is_Some (bi_gen b').
Proof. unfold bi_Process. destruct (bi_gen b); [|done]. cbn. intros E. apply (inj Some) in E as <-. done. Qed.

(** Section [s] is in the index: its vectors are stored under its last hash. *)
Definition stored (size : Z) (db : MemDatabase) (s : Z) : Prop :=
  ∀ i, (i < BloomBitLength)%nat → ∃ v c, CompressBytes v = Some c ∧
    ReadBloomBits db (Z.of_nat i) s (last_hash ((s + 1) * size)) = Some c ∧
    vector size s v (λ n, has_bit (bloom_at n) i).

Lemma canonical_same db db' :
  (∀ n, entries db' !! headerHashKey n = entries db !! headerHashKey n) → canonical db → canonical db'.
Proof.
  intros H [? Hhash ? ? ? ? ?]. split; try done. intros n Hn. rewrite <-Hhash by done. unfold ReadCanonicalHash, mem_Get. by rewrite H.
Qed.

(** [Commit] writes under the keys of its section and nowhere else. *)
Definition writes_section (s : Z) (db db' : MemDatabase) : Prop :=
  ∀ key, (∀ i h, 0 <= i < 65536 → key ≠ bloomBitsKey i s h) → entries db' !! key = entries db !! key.

Lemma commit_bits_writes n s h g : ∀ batch d,
  (n <= BloomBitLength)%nat → commit_bits n s h g = Some (inr batch) → writes_section s d (batch_Write batch d).
Proof.
  assert (BloomBitLength = 2048)%nat as E2048 by done. induction n as [|n IH]; intros batch d Hn E; cbn [commit_bits] in E.
  - apply (inj Some), (inj inr) in E as <-. by intros key _.
  - destruct (commit_bits n s h g) as [[|batch']|] eqn:E'; [done| |done]. cbn [mbind option_bind] in E.
    destruct (Bitset n g) as [|bits]; [done|]. destruct (CompressBytes bits) as [x|]; [|done]. cbn [mbind option_bind] in E.
    apply (inj Some), (inj inr) in E as <-. intros key Hkey. unfold WriteBloomBits. rewrite batch_Put_Write, lookup_insert_ne.
    + apply IH; [lia|done|done].
    + apply not_eq_sym, Hkey. lia.
Qed.

Lemma bi_Commit_writes b b' :
  bi_Commit b = Some (inr b') → bi_size b' = bi_size b ∧ writes_section (bi_section b) (bi_db b) (bi_db b').
Proof.
  unfold bi_Commit. destruct (bi_gen b) as [g|]; [|done]. cbn [mbind option_bind].
  destruct (commit_bits _ _ _ _) as [[|batch]|] eqn:E; [done| |done]. cbn [mbind option_bind].
  intros E'. apply (inj Some), (inj inr) in E' as <-. split; [done|]. by eapply commit_bits_writes.
Qed.

Lemma stored_kept size s s' db db' :
  writes_section s db db' → is_uint64 s → is_uint64 s' → s' ≠ s → stored size db s' → stored size db' s'.
Proof.
  intros Hw Hs Hs' Hne Hst i Hi. destruct (Hst i Hi) as (v & c & Ec & El & Hv). exists v, c. split; [done|]. split; [|done].
  rewrite <-El. apply Hw. intros j h Hj E. assert (BloomBitLength = 2048)%nat as E2048 by done.
  by apply bloomBitsKey_inj in E as [_ E]; [|lia|lia|..].
Qed.

Lemma bi_Commit_ok db size s b :
  section_inv db size s (Z.to_nat size) b → 0 < size → size mod 8 = 0 → is_uint64 s →
  ∃ b', bi_Commit b = Some (inr b') ∧ bi_size b' = size ∧ stored size (bi_db b') s ∧ writes_section s db (bi_db b').
Proof.
  intros [Hdb Hsize Hsec (g & Hgen & Hgs & Hg) Hhead] H0 H8 Hs64. unfold bi_Commit.
  rewrite Hgen, Hsec, Hhead by lia. cbn [mbind option_bind].
  replace (s * size + Z.of_nat (Z.to_nat size)) with ((s + 1) * size) in * by lia.
  set (bs := bloom_at <$> zrange (s * size) ((s + 1) * size - 1)) in *.
  assert (length bs = sections g) as Hlen by (unfold bs, zrange; rewrite !length_fmap, length_seq, Hgs; lia).
  destruct (commit_bits_ok BloomBitLength s (last_hash ((s + 1) * size)) bs g Hg Hlen ltac:(lia) Hs64) as (batch & -> & Hbatch).
  cbn [mbind option_bind]. eexists. split; [reflexivity|]. cbn [bi_db bi_size]. destruct (Hbatch (bi_db b)) as [Hin Hout].
  assert (BloomBitLength = 2048)%nat as E2048 by done. rewrite Hdb in *. split; [done|split].
  - intros i Hi. destruct (Hin i Hi) as (v & c & Ev & Ec & El). exists v, c. split; [done|]. split; [exact El|].
    destruct (Bitset_ok bs g i Hg Hlen Hi) as (v' & Ev' & Hvl & Hvb). assert (v' = v) as -> by congruence. split.
    + rewrite Hvl, Hgs. unfold section_bytes. rewrite <-(Nat2Z.id (Z.to_nat size / 8)), Nat2Z.inj_div, Z2Nat.id by lia. done.
    + intros k Hk. rewrite Hvb. unfold bs. rewrite list_lookup_fmap. unfold zrange. rewrite list_lookup_fmap, lookup_seq_lt; [done|].
      unfold section_bytes in Hk. replace ((s + 1) * size - 1 - s * size + 1) with size by lia. pose proof (Z.div_mod size 8 ltac:(lia)). lia.
  - intros key Hkey. apply Hout. intros i Hi. apply Hkey. lia.
Qed.

Lemma bi_Reset_ok s b :
  0 < bi_size b → bi_size b mod 8 = 0 → ∃ b', bi_Reset s b = (false, b') ∧ section_inv (bi_db b) (bi_size b) s 0 b'.
Proof.
  intros H0 H8. unfold bi_Reset. destruct (NewGenerator (Z.to_nat (bi_size b))) as [g|] eqn:Eg.
  - destruct (NewGenerator_ok _ _ Eg) as [Hg Hgs]. rewrite bool_decide_eq_false_2 by done. eexists. split; [reflexivity|].
    split; [done..| |lia]. exists g. split; [done|]. split; [done|]. by rewrite zrange_nil by lia.
  - exfalso. unfold NewGenerator in Eg. destruct (Nat.eqb_spec (Z.to_nat (bi_size b) mod 8) 0) as [|Hne]; [done|].
    apply Hne. apply Nat2Z.inj. rewrite Nat2Z.inj_mod, Z2Nat.id by lia. done.
Qed.

Lemma processSection_ok s b :
  canonical (bi_db b) → bi_size b = BloomBitsBlocks → 0 <= s → (s + 1) * BloomBitsBlocks <= head + 1 →
  ∃ b', processSection ReadHeader s (last_hash (s * BloomBitsBlocks)) b = Some (inr (last_hash ((s + 1) * BloomBitsBlocks), b')) ∧
    canonical (bi_db b') ∧ bi_size b' = BloomBitsBlocks ∧ stored BloomBitsBlocks (bi_db b') s ∧
    ∀ s', is_uint64 s' → s' ≠ s → stored BloomBitsBlocks (bi_db b) s' → stored BloomBitsBlocks (bi_db b') s'.
Proof.
  intros Hcn Hsize Hs Hle. pose proof (cn_head _ Hcn) as Hh. unfold processSection.
  destruct (bi_Reset_ok s b) as (b0 & E0 & Hinv0); [by rewrite Hsize..|]. rewrite E0, (si_size _ _ _ _ _ Hinv0). rewrite Hsize in *.
  set (size := BloomBitsBlocks) in *.
  rewrite (uint64_id (s * size)), (uint64_id ((s + 1) * size)) by (unfold is_uint64, size; lia).
  destruct (process_headers_ok (bi_db b) size s (Z.to_nat size) 0 b0 Hcn Hinv0) as (b1 & E1 & Hinv1); [done..|].
  replace (s * size + Z.of_nat 0) with (s * size) in E1 by lia. replace (Z.to_nat ((s + 1) * size - s * size)) with (Z.to_nat size) by lia.
  rewrite E1. cbn [mbind option_bind]. assert (is_uint64 s) as Hs64 by (unfold is_uint64, size in *; lia).
  destruct (bi_Commit_ok (bi_db b) size s b1 Hinv1) as (b2 & E2 & Hsize2 & Hst & Hw); [done..|]. rewrite E2. cbn [mbind option_bind].
  exists b2. split; [done|]. split; [|split; [done|split; [done|]]].
  - eapply canonical_same; [|exact Hcn]. intros n. apply Hw. intros i h _. apply headerHashKey_other.
  - intros s' Hs64' Hne. by apply (stored_kept size s).
Qed.

(** *** All sections *)

(** The indexer works through the first [n] sections. *)
Fixpoint index_chain (n : nat) (b : BloomIndexer) : option (section_error + Hash * BloomIndexer) :=
  match n with
  | O => Some (inr (0, b))
  | S n =>
      r ← index_chain n b;
      match r with
      | inl err => Some (inl err)
      | inr (lastHead, b) => processSection ReadHeader (Z.of_nat n) lastHead b
      end
  end.

Lemma index_chain_ok n b :
  canonical (bi_db b) → bi_size b = BloomBitsBlocks → Z.of_nat n * BloomBitsBlocks <= head + 1 →
  ∃ b', index_chain n b = Some (inr (last_hash (Z.of_nat n * BloomBitsBlocks), b')) ∧
    canonical (bi_db b') ∧ bi_size b' = BloomBitsBlocks ∧ ∀ s, 0 <= s < Z.of_nat n → stored BloomBitsBlocks (bi_db b') s.
Proof.
  intros Hcn Hsize. induction n as [|n IH]; intros Hn.
  - exists b. split; [done|]. split; [done|]. split; [done|lia].
  - destruct IH as (b1 & E1 & Hcn1 & Hsize1 & Hst1); [lia|]. cbn [index_chain]. rewrite E1. cbn [mbind option_bind].
    pose proof (cn_head _ Hcn) as Hh.
    destruct (processSection_ok (Z.of_nat n) b1 Hcn1 Hsize1) as (b2 & E2 & Hcn2 & Hsize2 & Hst2 & Hkeep); [lia|lia|].
    exists b2. rewrite E2. replace (Z.of_nat n + 1) with (Z.of_nat (S n)) by lia. split; [done|]. split; [done|]. split; [done|].
    intros s Hs. destruct (decide (s = Z.of_nat n)) as [->|Hne]; [done|]. apply Hkeep; [unfold is_uint64; lia|done|]. apply Hst1. lia.
Qed.

(** What a handler delivers of an indexed section *)
Lemma stored_delivered db s :
  canonical db → stored BloomBitsBlocks db s → 0 <= s → (s + 1) * BloomBitsBlocks <= head + 1 →
  delivered BloomBitsBlocks (λ bit s, default [] (retrieve db bit s)) bloom_at s.
Proof.
  intros Hcn Hst Hs Hle bit Hbit. pose proof (cn_head _ Hcn) as Hh. assert (BloomBitLength = 2048)%nat as E2048 by done.
  destruct (Hst (Z.to_nat bit)) as (v & c & Ec & El & Hvl & Hvb); [lia|]. rewrite Z2Nat.id in El by lia.
  assert (retrieve db bit s = Some v) as Er.
  { unfold retrieve. rewrite uint64_id by (unfold is_uint64; lia). rewrite (cn_hash _ Hcn) by lia.
    assert (Header_Hash (header ((s + 1) * BloomBitsBlocks - 1)) = last_hash ((s + 1) * BloomBitsBlocks)) as ->.
    { unfold last_hash. destruct (Z.eqb_spec ((s + 1) * BloomBitsBlocks) 0); [lia|done]. }
    rewrite El. cbn [mbind option_bind]. destruct (CompressBytes_ok v) as (c' & Ec' & _ & Ed). assert (c' = c) as -> by congruence.
    rewrite Hvl in Ed. change (section_bytes BloomBitsBlocks) with (Z.to_nat BloomBitsBlocks / 8)%nat in Ed. by rewrite Ed. }
  rewrite Er. cbn [default from_option id]. split; [done|]. intros k Hk. by rewrite Hvb.
Qed.

End indexing.

(** Searching logs through the index loses nothing and adds nothing.  For a
    chain whose first [n] sections the indexer has worked through (it succeeds:
    blooms turned by the generator, compressed, stored), a range filter on it,
    which reads the vectors back through the handlers, matches their bits and
    looks at the remaining blocks one by one, returns exactly the logs a look at
    every block of the range would find, in order, without an error, and goes on
    after the range. *)
Theorem log_search_exact {CRYPTO : Crypto} {ARCH : Arch} {BACKEND : Backend} ReadHeader head header receipts n ix b e addrs tops :
  serves_chain head header receipts → canonical ReadHeader header head (bi_db ix) → bi_size ix = BloomBitsBlocks →
  BloomStatus = (BloomBitsBlocks, Z.of_nat n) → Z.of_nat n * BloomBitsBlocks <= head + 1 →
  let begin := if b =? -1 then head else b in let end_ := if e =? -1 then head else e in
  0 <= begin → begin <= end_ → end_ <= head →
  ∃ lastHead ix' f', index_chain ReadHeader n ix = Some (inr (lastHead, ix')) ∧
    Logs (λ bit s, default [] (retrieve (bi_db ix') bit s)) (NewRangeFilter b e addrs tops) =
      Some (zrange begin end_ ≫= λ k, filterLogs (receipts k ≫= rc_Logs) None None addrs tops, false, f') ∧
    f_begin f' = end_ + 1.
Proof.
  intros Hc Hcn Hsize Hst Hn begin end_ Hb Hbe He.
  destruct (index_chain_ok ReadHeader header head n ix Hcn Hsize Hn) as (ix' & Ei & Hcn' & _ & Hstored).
  set (fetch := λ bit s, default [] (retrieve (bi_db ix') bit s)).
  assert (indexed fetch head header) as Hix.
  { split; rewrite ?Hst; cbn [fst snd]; [done|done|lia|]. intros s Hs. apply (stored_delivered ReadHeader header head); [done|by apply Hstored|lia|lia]. }
  destruct (Logs_ok fetch head header receipts b e addrs tops Hc Hix Hb Hbe He) as (f' & E & Ef).
  exists (last_hash header (Z.of_nat n * BloomBitsBlocks)), ix', f'. split; [done|]. split; [exact E|exact Ef].
Qed.

(** ** A concrete search

    A hash with one value, and a chain of 4101 blocks with the same log in each:
    one indexed section and five more blocks. *)
#[refine] Definition flat_crypto : Crypto :=
  {| Keccak256 := λ _, replicate 32 Byte.x01; sha256_Sum256 := @sha256_Sum256 sample_crypto;
     ripemd160_Sum := @ripemd160_Sum sample_crypto; Ecrecover := λ _ _, Some (zb 4 :: zeros 64);
     G1 := (); G2 := (); G1_Unmarshal := λ _, Some (); G2_Unmarshal := λ _, Some ();
     G1_Marshal := λ _, zeros 64; G1_Add := λ _ _, (); G1_ScalarMult := λ _ _, (); PairingCheck := λ _ _, true |}.
Proof.
  - done.
  - apply (@length_sha256 sample_crypto).
  - apply (@length_ripemd160 sample_crypto).
  - by intros h s p [= <-].
  - done.
Defined.

Definition flat_hash : Hash := BytesToHash (replicate 32 Byte.x01).
Definition flat_log : Log := {| log_Address := 7; log_Topics := [5]; log_Data := []; log_BlockNumber := 0 |}.
Definition flat_receipt : Receipt :=
  {| PostState := []; Status := 1; CumulativeGasUsed := 0; rc_Bloom := zeros 256; rc_Logs := [flat_log];
     rc_TxHash := 0; ContractAddress := 0; rc_GasUsed := 0 |}.
Definition flat_header (n : Z) : Header :=
  {| Block.ParentHash := if n =? 0 then 0 else flat_hash; Block.UncleHash := 0; Block.Coinbase := 0; Block.Root := 0;
     Block.TxHash := 0; Block.ReceiptHash := 0; Block.Bloom := SetBytes (default [] (@CreateBloom flat_crypto [flat_receipt]));
     Block.Difficulty := 1; Block.Number := n; Block.GasLimit := 0; Block.GasUsed := 0; Block.Time := n; Block.Extra := [];
     Block.MixDigest := 0; Block.Nonce := 0 |}.

Definition flat_arch : Arch := {| wordSize := 8; supportsUnaligned := true; wordSize_pos := Nat.lt_0_succ 7 |}.
Definition flat_backend : Backend :=
  {| HeaderByNumber := λ n, Some (Some (flat_header n)); LatestHeader := Some (flat_header 4100);
     HeaderByHash := λ _, Some (Some (flat_header 0)); GetLogs := λ _, Some [[flat_log]];
     GetReceipts := λ _, Some [flat_receipt]; BloomStatus := (BloomBitsBlocks, 1); log_TxHash := λ _, 1 |}.

Definition flat_db : MemDatabase :=
  {| entries := list_to_map ((λ n : Z, (headerHashKey n, HashBytes flat_hash)) <$> zrange 0 4100) |}.
Definition flat_indexer : BloomIndexer :=
  {| bi_size := BloomBitsBlocks; bi_db := flat_db; bi_gen := None; bi_section := 0; bi_head := 0 |}.

Lemma lookup_const_map {A K V} `{Countable K} (f : A → K) (v : V) l x :
  x ∈ l → (list_to_map ((λ y : A, (f y, v)) <$> l) : gmap K V) !! f x = Some v.
Proof.
  induction l as [|y l IH]; [by intros ?%not_elem_of_nil|]. intros Hx. cbn [fmap list_fmap list_to_map foldr fst snd].
  destruct (decide (f y = f x)) as [->|Hne]; [by apply lookup_insert_eq|].
  rewrite lookup_insert_ne by done. apply IH. by apply elem_of_cons in Hx as [->|?].
Qed.

Lemma flat_db_hash n : 0 <= n <= 4100 → ReadCanonicalHash flat_db n = flat_hash.
Proof.
  intros Hn. unfold ReadCanonicalHash, mem_Get, flat_db. cbn [entries].
  rewrite (lookup_const_map headerHashKey (HashBytes flat_hash)) by (by apply elem_of_zrange).
  unfold flat_hash. by rewrite HashBytes_BytesToHash.
Qed.

Lemma flat_header_hash n : @Header_Hash flat_crypto (flat_header n) = flat_hash.
Proof. reflexivity. Qed.

Lemma flat_canonical : @canonical flat_crypto (λ _ n, Some (flat_header n)) flat_header 4100 flat_db.
Proof.
  split; intros; rewrite ?flat_header_hash; [lia|by apply flat_db_hash|by vm_compute|done|done| |done].
  cbn [flat_header Block.ParentHash]. destruct (Z.eqb_spec n 0); [lia|done].
Qed.

Lemma flat_serves : @serves_chain flat_crypto flat_backend 4100 flat_header (λ _, [flat_receipt]).
Proof.
  split; intros; [lia|done|done|done|done|done|].
  destruct (@CreateBloom_complete flat_crypto [flat_receipt]) as (bloom & E & Hl & _).
  rewrite E. cbn [flat_header Block.Bloom]. rewrite E. cbn [default from_option]. f_equal.
  rewrite <-Hl. symmetry. apply be_bytes_SetBytes.
Qed.

Lemma log_search_exact_witness :
  ∃ lastHead ix' f', @index_chain flat_crypto (λ _ n, Some (flat_header n)) 1 flat_indexer = Some (inr (lastHead, ix')) ∧
    @Logs flat_crypto flat_arch flat_backend (λ bit s, default [] (retrieve (bi_db ix') bit s))
      (@NewRangeFilter flat_crypto flat_backend 4090 (-1) [7] [[5]]) =
      Some (zrange 4090 4100 ≫= λ _, filterLogs [flat_log] None None [7] [[5]], false, f') ∧ f_begin f' = 4101.
Proof.
  apply (@log_search_exact flat_crypto flat_arch flat_backend (λ _ n, Some (flat_header n)) 4100 flat_header
    (λ _, [flat_receipt]) 1 flat_indexer 4090 (-1) [7] [[5]]);
    [exact flat_serves|exact flat_canonical|reflexivity|reflexivity|..]; vm_compute; congruence.
Defined.
