(* ===== verification/ChainIndexer.v ===== *)
(** * The chain indexer: [core/chain_indexer.go]

    Two goroutines share the state of an indexer: the event loop, which is told
    about new heads and finds out about reorganisations, and the update loop,
    which processes one section after the other and gives up the lock while it
    does.  The chain changes under both.  Defined here are the indexer, its
    operations and the steps of the two loops, with the index of logs of [BloomBits]
    as the backend. *)
From S2P Require Import Prelude BigMath Params OpCodes VmAnalysis VmMemory Rlp VmTypes VmLaws VmSample Chain BlockTypes.
From S2P Require Import TrieEncoding TrieNode TrieDb Bitutil BloomBits BloomBitsTheorems.

(** ** The state of an indexer

    [update] is a channel with room for one message.  The prefixed view of the
    database in which the indexer keeps its own records is a database of its own.
    Children are other indexers: an operation returns the calls of their [newHead]
    it makes. *)
Record ChainIndexer := {
  indexDb : MemDatabase;
  sectionSize : Z;
  confirmsReq : Z;
  storedSections : Z;
  knownSections : Z;
  cascadedHead : Z;
  ci_update : bool
}.

Definition notification : Type := Z * bool.

Definition with_indexDb (db : MemDatabase) (c : ChainIndexer) : ChainIndexer :=
  {| indexDb := db; sectionSize := sectionSize c; confirmsReq := confirmsReq c; storedSections := storedSections c;
     knownSections := knownSections c; cascadedHead := cascadedHead c; ci_update := ci_update c |}.
Definition with_storedSections (n : Z) (c : ChainIndexer) : ChainIndexer :=
  {| indexDb := indexDb c; sectionSize := sectionSize c; confirmsReq := confirmsReq c; storedSections := n;
     knownSections := knownSections c; cascadedHead := cascadedHead c; ci_update := ci_update c |}.
Definition with_knownSections (n : Z) (c : ChainIndexer) : ChainIndexer :=
  {| indexDb := indexDb c; sectionSize := sectionSize c; confirmsReq := confirmsReq c; storedSections := storedSections c;
     knownSections := n; cascadedHead := cascadedHead c; ci_update := ci_update c |}.
Definition with_cascadedHead (n : Z) (c : ChainIndexer) : ChainIndexer :=
  {| indexDb := indexDb c; sectionSize := sectionSize c; confirmsReq := confirmsReq c; storedSections := storedSections c;
     knownSections := knownSections c; cascadedHead := n; ci_update := ci_update c |}.
Definition with_update (u : bool) (c : ChainIndexer) : ChainIndexer :=
  {| indexDb := indexDb c; sectionSize := sectionSize c; confirmsReq := confirmsReq c; storedSections := storedSections c;
     knownSections := knownSections c; cascadedHead := cascadedHead c; ci_update := u |}.

(** *** Records in the database *)

Definition mem_Delete (key : list byte) (d : MemDatabase) : MemDatabase := {| entries := delete key (entries d) |}.

(** "count" *)
Definition countKey : list byte := [Byte.x63; Byte.x6f; Byte.x75; Byte.x6e; Byte.x74].
(** "shead" and the section *)
Definition sheadKey (section : Z) : list byte := [Byte.x73; Byte.x68; Byte.x65; Byte.x61; Byte.x64] ++ be_bytes 8 section.

Definition SectionHead (section : Z) (c : ChainIndexer) : Hash :=
  match mem_Get (indexDb c) (sheadKey section) with
  | Some hash => if (length hash =? 32)%nat then BytesToHash hash else 0
  | None => 0
  end.

Definition setSectionHead (section : Z) (hash : Hash) (c : ChainIndexer) : ChainIndexer :=
  with_indexDb (mem_Put (sheadKey section) (HashBytes hash) (indexDb c)) c.

Definition removeSectionHead (section : Z) (c : ChainIndexer) : ChainIndexer :=
  with_indexDb (mem_Delete (sheadKey section) (indexDb c)) c.

Definition loadValidSections (c : ChainIndexer) : ChainIndexer :=
  match mem_Get (indexDb c) countKey with
  | Some data => if (length data =? 8)%nat then with_storedSections (SetBytes data) c else c
  | None => c
  end.

(** The loop that removes the heads of sections: [n] rounds, each of which counts
    [storedSections] down *)
Fixpoint drop_sections (n : nat) (c : ChainIndexer) : ChainIndexer :=
  match n with
  | O => c
  | S n =>
      let c := with_storedSections (storedSections c - 1) c in
      drop_sections n (removeSectionHead (storedSections c) c)
  end.

Definition setValidSections (sections : Z) (c : ChainIndexer) : ChainIndexer :=
  let c := with_indexDb (mem_Put countKey (be_bytes 8 sections) (indexDb c)) c in
  with_storedSections sections (drop_sections (Z.to_nat (storedSections c - sections)) c).

(** *** Operations under the lock *)

Definition NewChainIndexer (indexDb : MemDatabase) (section confirm : Z) : ChainIndexer :=
  loadValidSections {| indexDb := indexDb; sectionSize := section; confirmsReq := confirm; storedSections := 0;
                       knownSections := 0; cascadedHead := 0; ci_update := false |}.

Definition AddKnownSectionHead (section : Z) (shead : Hash) (c : ChainIndexer) : ChainIndexer :=
  if section <? storedSections c then c
  else setValidSections (uint64 (section + 1)) (setSectionHead section shead c).

(** Each child is sent the notifications, in order. *)
Definition newHead (head : Z) (reorg : bool) (c : ChainIndexer) : ChainIndexer * list notification :=
  if reorg then
    let changed := head / sectionSize c in
    let c := if changed <? knownSections c then with_knownSections changed c else c in
    let c := if changed <? storedSections c then setValidSections changed c else c in
    let head := uint64 (changed * sectionSize c) in
    if head <? cascadedHead c then (with_cascadedHead head c, [(head, true)]) else (c, [])
  else if confirmsReq c <=? head then
    let sections := uint64 (head + 1 - confirmsReq c) / sectionSize c in
    if knownSections c <? sections then (with_update true (with_knownSections sections c), []) else (c, [])
  else (c, []).

(** The count of sections, the number of the last block and its hash *)
Definition Sections (c : ChainIndexer) : Z * Z * Hash :=
  (storedSections c, uint64 (storedSections c * sectionSize c - 1), SectionHead (uint64 (storedSections c - 1)) c).

(** What a new child is told at once *)
Definition AddChildIndexer (c : ChainIndexer) : list notification :=
  if 0 <? storedSections c then [(uint64 (storedSections c * sectionSize c - 1), false)] else [].

(** *** The update loop, before and after a section is processed *)

(** Taking a message from [update]: the section to process, with the head of the
    one before it *)
Definition update_begin (c : ChainIndexer) : ChainIndexer * option (Z * Hash) :=
  let c := with_update false c in
  if storedSections c <? knownSections c then
    let section := storedSections c in
    (c, Some (section, if 0 <? section then SectionHead (section - 1) c else 0))
  else (c, None).

(** [result] is the new head, or [None] when there was an error. *)
Definition update_end (section : Z) (oldHead : Hash) (result : option Hash) (c : ChainIndexer) : ChainIndexer * list notification :=
  match result with
  | Some newHead =>
      if oldHead =? SectionHead (uint64 (section - 1)) c then
        let c := setValidSections (uint64 (section + 1)) (setSectionHead section newHead c) in
        let c := with_cascadedHead (uint64 (storedSections c * sectionSize c - 1)) c in
        (c, [(cascadedHead c, false)])
      else (with_knownSections (storedSections c) c, [])
  | None => (with_knownSections (storedSections c) c, [])
  end.

(** Whether a timer is set for the next section *)
Definition reschedule (c : ChainIndexer) : bool := storedSections c <? knownSections c.

(** ** The two loops and the chain *)

Section loops.
Context {CRYPTO : Crypto}.
(** [rawdb.ReadHeader] finds every header that has been stored, whether it is still
    part of the chain or not. *)
Context (ReadHeader : Hash → Z → option Header).

Definition parent_of (h : Header) : option Header :=
  ReadHeader (Block.ParentHash h) (uint64 (uint64 (Block.Number h) - 1)).

(** The first two loops of [FindCommonAncestor]: from [h] down to block [n].  The
    outer [None] is fuel that ran out, the inner one a header that is missing. *)
Fixpoint descend (fuel : nat) (n : Z) (h : Header) : option (option Header) :=
  if n <? uint64 (Block.Number h) then
    match fuel with
    | O => None
    | S fuel => match parent_of h with Some h => descend fuel n h | None => Some None end
    end
  else Some (Some h).

Fixpoint meet (fuel : nat) (a b : Header) : option (option Header) :=
  if Header_Hash a =? Header_Hash b then Some (Some a)
  else
    match fuel with
    | O => None
    | S fuel =>
        match parent_of a, parent_of b with
        | Some a, Some b => meet fuel a b
        | _, _ => Some None
        end
    end.

Definition FindCommonAncestor (a b : Header) : option (option Header) :=
  let fuel := Z.to_nat (uint64 (Block.Number a) + uint64 (Block.Number b)) in
  ra ← descend fuel (uint64 (Block.Number b)) a;
  match ra with
  | None => Some None
  | Some a =>
      rb ← descend fuel (uint64 (Block.Number a)) b;
      match rb with
      | None => Some None
      | Some b => meet fuel a b
      end
  end.

(** One event of the event loop: the header of a new block, after the one of the
    event before *)
Definition on_event (prevHeader header : Header) (c : ChainIndexer) : option ChainIndexer :=
  c ← (if Block.ParentHash header =? Header_Hash prevHeader then Some c
       else
         r ← FindCommonAncestor prevHeader header;
         match r with
         | Some h => Some (newHead (uint64 (Block.Number h)) true c).1
         | None => Some c
         end);
  Some (newHead (uint64 (Block.Number header)) false c).1.

(** The canonical chain: its headers and the number of the last one *)
Record chain := { at_ : Z → Header; top : Z }.

(** A section that is being processed: the number of the header to read next and the
    hash of the last one, or the result of [processSection] that the update loop has
    not taken up yet *)
Inductive phase := reading (number : Z) (lastHead : Hash) | processed (result : option Hash).
Record task := { t_section : Z; t_oldHead : Hash; t_phase : phase }.

Record world := {
  w_indexer : ChainIndexer;
  w_backend : BloomIndexer;
  w_task : option task;
  w_timers : nat;
  w_prev : Header;
  w_events : list Header;
  w_chain : chain
}.

(** The headers of a chain are linked and can be read. *)
Record chain_ok (c : chain) : Prop := {
  ch_top : 0 <= top c < 2 ^ 63 - 1;
  ch_nonzero n : 0 <= n <= top c → Header_Hash (at_ c n) ≠ 0;
  ch_read n : 0 <= n <= top c → ReadHeader (Header_Hash (at_ c n)) n = Some (at_ c n);
  ch_number n : 0 <= n <= top c → Block.Number (at_ c n) = n;
  ch_parent n : 0 < n <= top c → Block.ParentHash (at_ c n) = Header_Hash (at_ c (n - 1));
  ch_genesis : Block.ParentHash (at_ c 0) = 0
}.

(** The numbers of canonical blocks in the database; there are none above the last
    block. *)
Record assigned (c : chain) (db : MemDatabase) : Prop := {
  as_hash n : 0 <= n <= top c → ReadCanonicalHash db n = Header_Hash (at_ c n);
  as_above n : top c < n < 2 ^ 64 → ReadCanonicalHash db n = 0
}.

(** The chain manager writes numbers of blocks and nothing else that matters here. *)
Definition renumbered (db db' : MemDatabase) : Prop :=
  ∀ key, (∀ n, key ≠ headerHashKey n) → entries db' !! key = entries db !! key.

Definition with_db (db : MemDatabase) (b : BloomIndexer) : BloomIndexer :=
  {| bi_size := bi_size b; bi_db := db; bi_gen := bi_gen b; bi_section := bi_section b; bi_head := bi_head b |}.

Definition with_phase (p : phase) (t : task) : task := {| t_section := t_section t; t_oldHead := t_oldHead t; t_phase := p |}.

(** The goroutine that processes a section goes on. *)
Definition proceed (b : BloomIndexer) (t : task) (w : world) : world :=
  {| w_indexer := w_indexer w; w_backend := b; w_task := Some t; w_timers := w_timers w; w_prev := w_prev w;
     w_events := w_events w; w_chain := w_chain w |}.

(** The indexer changes, and what the update loop is doing. *)
Definition indexer_step (c : ChainIndexer) (t : option task) (timers : nat) (w : world) : world :=
  {| w_indexer := c; w_backend := w_backend w; w_task := t; w_timers := timers; w_prev := w_prev w;
     w_events := w_events w; w_chain := w_chain w |}.

(** [(section+1)*c.sectionSize] *)
Definition section_end (w : world) (t : task) : Z := uint64 ((t_section t + 1) * sectionSize (w_indexer w)).

(** The steps.  The chain moves to another head, in one step, and an event for it is
    queued; the event loop takes an event; the update loop takes a message, reads
    one header, commits, and takes up the result; a timer fires; the node is stopped
    after all events have been taken, and started again.  The indexer of blooms has
    no children, so the notifications go nowhere. *)
Inductive ci_step : world → world → Prop :=
  | step_chain w c db :
      chain_ok c → at_ c 0 = at_ (w_chain w) 0 → assigned c db → renumbered (bi_db (w_backend w)) db →
      ci_step w {| w_indexer := w_indexer w; w_backend := with_db db (w_backend w); w_task := w_task w; w_timers := w_timers w;
                w_prev := w_prev w; w_events := w_events w ++ [at_ c (top c)]; w_chain := c |}
  | step_event w header events ci :
      w_events w = header :: events → on_event (w_prev w) header (w_indexer w) = Some ci →
      ci_step w {| w_indexer := ci; w_backend := w_backend w; w_task := w_task w; w_timers := w_timers w;
                w_prev := header; w_events := events; w_chain := w_chain w |}
  | step_update w ci section oldHead err b :
      w_task w = None → ci_update (w_indexer w) = true → update_begin (w_indexer w) = (ci, Some (section, oldHead)) →
      bi_Reset section (w_backend w) = (err, b) →
      let phase := if err : bool then processed None else reading (uint64 (section * sectionSize ci)) oldHead in
      let ci := if err then setValidSections 0 ci else ci in
      let t := {| t_section := section; t_oldHead := oldHead; t_phase := phase |} in
      ci_step w (proceed b t (indexer_step ci None (w_timers w) w))
  | step_no_update w ci :
      w_task w = None → ci_update (w_indexer w) = true → update_begin (w_indexer w) = (ci, None) →
      ci_step w (indexer_step ci None (w_timers w) w)
  | step_header w t number lastHead r :
      w_task w = Some t → t_phase t = reading number lastHead → number < section_end w t →
      process_headers ReadHeader 1 number lastHead (w_backend w) = Some r →
      ci_step w match r with
             | inl _ => proceed (w_backend w) (with_phase (processed None) t) w
             | inr (lastHead, b) => proceed b (with_phase (reading (uint64 (number + 1)) lastHead) t) w
             end
  | step_commit w t number lastHead r :
      w_task w = Some t → t_phase t = reading number lastHead → section_end w t <= number →
      bi_Commit (w_backend w) = Some r →
      ci_step w match r with
             | inl _ => proceed (w_backend w) (with_phase (processed None) t) w
             | inr b => proceed b (with_phase (processed (Some lastHead)) t) w
             end
  | step_finish w t result :
      w_task w = Some t → t_phase t = processed result →
      let c := (update_end (t_section t) (t_oldHead t) result (w_indexer w)).1 in
      ci_step w (indexer_step c None (if reschedule c then S (w_timers w) else w_timers w) w)
  | step_timer w n :
      w_timers w = S n → ci_step w (indexer_step (with_update true (w_indexer w)) (w_task w) n w)
  | step_restart w :
      w_events w = [] →
      let c := NewChainIndexer (indexDb (w_indexer w)) (sectionSize (w_indexer w)) (confirmsReq (w_indexer w)) in
      let b := w_backend w in
      ci_step w {| w_indexer := (newHead (uint64 (top (w_chain w))) false c).1;
                w_backend := {| bi_size := bi_size b; bi_db := bi_db b; bi_gen := None; bi_section := 0; bi_head := 0 |};
                w_task := None; w_timers := 0; w_prev := at_ (w_chain w) (top (w_chain w)); w_events := []; w_chain := w_chain w |}.

(** A node that starts with an empty index *)
Record fresh_start (w : world) : Prop := {
  fs_indexer : ∃ size confirm, w_indexer w = (newHead (top (w_chain w)) false (NewChainIndexer {| entries := ∅ |} size confirm)).1;
  fs_sizes : 0 < sectionSize (w_indexer w) ∧ sectionSize (w_indexer w) mod 8 = 0 ∧ 0 <= confirmsReq (w_indexer w);
  fs_backend : bi_size (w_backend w) = sectionSize (w_indexer w);
  fs_idle : w_task w = None ∧ w_timers w = 0%nat ∧ w_events w = [];
  fs_chain : chain_ok (w_chain w) ∧ assigned (w_chain w) (bi_db (w_backend w)) ∧ w_prev w = at_ (w_chain w) (top (w_chain w))
}.

(** *** What a step must leave alone *)

(** The blocks of [c] below number [m] are also in [c']. *)
Definition keeps (m : Z) (c c' : chain) : Prop :=
  ∀ n, 0 <= n < m → n <= top c → n <= top c' ∧ at_ c' n = at_ c n.

(** The blocks that a section has been made from so far end here. *)
Definition taken (size : Z) (t : task) : Z :=
  match t_phase t with
  | reading number _ => number
  | processed (Some _) => (t_section t + 1) * size
  | processed None => t_section t * size
  end.

(** A switch of the chain that leaves the sections before the one in work alone also
    leaves alone the blocks that have been taken from it. *)
Definition calm (w w' : world) : Prop :=
  ∀ t, w_task w = Some t → let size := sectionSize (w_indexer w) in
    keeps (t_section t * size) (w_chain w) (w_chain w') → keeps (taken size t) (w_chain w) (w_chain w').

Definition calm_step (w w' : world) : Prop := ci_step w w' ∧ calm w w'.

End loops.

#[global] Arguments ch_top {_ _} _ _.
#[global] Arguments ch_nonzero {_ _} _ _ _ _.
#[global] Arguments ch_read {_ _} _ _ _ _.
#[global] Arguments ch_number {_ _} _ _ _ _.
#[global] Arguments ch_parent {_ _} _ _ _ _.
#[global] Arguments ch_genesis {_ _} _ _.
