(* ===== verification/ChainIndexerOk.v ===== *)
(** * The chain indexer: what its interleavings keep

    The invariant of all interleavings of the steps of [ChainIndexer], what a search
    finds in any reachable state, that the index catches up, and the interleaving in
    which a section that is no longer part of the chain is recorded. *)
From Stdlib Require Import ZifyBool.
From S2P Require Import Prelude BigMath Params OpCodes VmAnalysis VmMemory Rlp VmTypes VmLaws VmSample Chain BlockTypes.
From S2P Require Import TrieEncoding TrieNode TrieDb Bitutil BloomBits BloomBitsTheorems ChainIndexer.

#[local] Arguments HashBytes : simpl never.
#[local] Arguments BytesToHash : simpl never.

Section loops.
Context {CRYPTO : Crypto} (ReadHeader : Hash → Z → option Header).

#[local] Notation chain_ok := (chain_ok ReadHeader).
#[local] Notation parent_of := (parent_of ReadHeader).
#[local] Notation descend := (descend ReadHeader).
#[local] Notation meet := (meet ReadHeader).
#[local] Notation FindCommonAncestor := (FindCommonAncestor ReadHeader).
#[local] Notation on_event := (on_event ReadHeader).
#[local] Notation calm_step := (calm_step ReadHeader).
#[local] Notation ci_step := (ci_step ReadHeader).
#[local] Notation fresh_start := (fresh_start ReadHeader).

(** *** Chains *)

Lemma keeps_refl m c : keeps m c c.
Proof. by intros n Hn Ht. Qed.

Lemma keeps_mono m m' c c' : m' <= m → keeps m c c' → keeps m' c c'.
Proof. intros Hm H n Hn. apply H. lia. Qed.

(** Chains that share a block share the ones below. *)
Lemma shared_below c c' n : chain_ok c → chain_ok c' → 0 <= n <= top c → n <= top c' → at_ c' n = at_ c n → keeps (n + 1) c c'.
Proof.
  intros Hc Hc' Hn Hn' E k Hk Hkt. split; [lia|]. revert Hn Hn' E. replace n with (k + (n - k)) by lia.
  assert (0 <= n - k) as Hd by lia. revert Hd. generalize (n - k). clear Hkt. intros d Hd. pattern d. revert d Hd. apply natlike_ind.
  - by rewrite Z.add_0_r.
  - intros d Hd IH Hn1 Hn2 E. apply IH; [lia|lia|]. apply (inj Some).
    rewrite <-(ch_read _ Hc (k + d)), <-(ch_read _ Hc' (k + d)) by lia. f_equal.
    pose proof (ch_parent _ Hc (k + Z.succ d) ltac:(lia)) as E1. pose proof (ch_parent _ Hc' (k + Z.succ d) ltac:(lia)) as E2.
    rewrite E in E2. replace (k + Z.succ d - 1) with (k + d) in * by lia. congruence.
Qed.

Lemma same_hash c c' n : chain_ok c → chain_ok c' → 0 <= n <= top c → n <= top c' →
  Header_Hash (at_ c n) = Header_Hash (at_ c' n) → at_ c n = at_ c' n.
Proof. intros Hc Hc' Hn Hn' E. apply (inj Some). rewrite <-(ch_read _ Hc n), <-(ch_read _ Hc' n) by lia. by rewrite E. Qed.

Lemma number_at c n : chain_ok c → 0 <= n <= top c → uint64 (Block.Number (at_ c n)) = n.
Proof. intros Hc Hn. pose proof (ch_top _ Hc). rewrite (ch_number _ Hc), uint64_id by (unfold is_uint64; lia). done. Qed.

Lemma parent_of_at c n : chain_ok c → 0 < n <= top c → parent_of (at_ c n) = Some (at_ c (n - 1)).
Proof.
  intros Hc Hn. pose proof (ch_top _ Hc). unfold parent_of. rewrite number_at, uint64_id by (done || unfold is_uint64; lia).
  rewrite (ch_parent _ Hc) by lia. apply (ch_read _ Hc). lia.
Qed.

Lemma descend_at c m : chain_ok c → ∀ fuel n, 0 <= m <= n → n <= top c → n - m <= Z.of_nat fuel → descend fuel m (at_ c n) = Some (Some (at_ c m)).
Proof.
  intros Hc. induction fuel as [|fuel IH]; intros n Hm Hn Hf; cbn [descend]; rewrite number_at by (done || lia);
    destruct (Z.ltb_spec m n); [lia|by replace n with m by lia| |by replace n with m by lia].
  rewrite parent_of_at by (done || lia). apply IH; lia.
Qed.

Lemma descend_low c m : chain_ok c → ∀ fuel n, 0 <= n <= top c → n <= m → descend fuel m (at_ c n) = Some (Some (at_ c n)).
Proof. intros Hc fuel n Hn Hm. destruct fuel; cbn [descend]; rewrite number_at by done; destruct (Z.ltb_spec m n); (lia || done). Qed.

Lemma meet_at c c' : chain_ok c → chain_ok c' → at_ c' 0 = at_ c 0 → ∀ fuel n, 0 <= n <= top c → n <= top c' → n <= Z.of_nat fuel →
  ∃ a, meet fuel (at_ c n) (at_ c' n) = Some (Some (at_ c a)) ∧ 0 <= a <= n ∧ at_ c' a = at_ c a.
Proof.
  intros Hc Hc' H0. induction fuel as [|fuel IH]; intros n Hn Hn' Hf; cbn [meet].
  - replace n with 0 by lia. rewrite H0, Z.eqb_refl. exists 0. split; [done|]. split; [lia|done].
  - destruct (Z.eqb_spec (Header_Hash (at_ c n)) (Header_Hash (at_ c' n))) as [E|Hne].
    { exists n. split; [done|]. split; [lia|]. symmetry. by apply same_hash. }
    destruct (decide (n = 0)) as [->|]; [by rewrite H0 in Hne|]. rewrite !parent_of_at by (done || lia).
    destruct (IH (n - 1)) as (a & E & Ha & Ea); [lia..|]. exists a. split; [done|]. split; [lia|done].
Qed.

Lemma FindCommonAncestor_at c c' : chain_ok c → chain_ok c' → at_ c' 0 = at_ c 0 →
  ∃ a, FindCommonAncestor (at_ c (top c)) (at_ c' (top c')) = Some (Some (at_ c a)) ∧ 0 <= a <= top c ∧ a <= top c' ∧ keeps (a + 1) c c'.
Proof.
  intros Hc Hc' H0. pose proof (ch_top _ Hc). pose proof (ch_top _ Hc'). unfold FindCommonAncestor.
  rewrite !number_at by (done || lia). set (fuel := Z.to_nat _). set (m := Z.min (top c) (top c')).
  assert (descend fuel (top c') (at_ c (top c)) = Some (Some (at_ c m))) as ->.
  { unfold m. destruct (Z.le_gt_cases (top c) (top c')); [rewrite Z.min_l by done; apply descend_low; (done || lia)|].
    rewrite Z.min_r by lia. apply descend_at; (done || lia). }
  cbn [mbind option_bind]. rewrite number_at by (done || lia).
  rewrite (descend_at c' m Hc') by lia. cbn [mbind option_bind].
  destruct (meet_at c c' Hc Hc' H0 fuel m) as (a & E & Ha & Ea); [lia..|]. exists a. split; [done|]. split; [lia|]. split; [lia|].
  apply shared_below; (done || lia).
Qed.

(** ** The records of an indexer *)

Lemma sheadKey_inj s s' : is_uint64 s → is_uint64 s' → sheadKey s = sheadKey s' → s = s'.
Proof.
  unfold is_uint64. intros Hs Hs' E. unfold sheadKey in E. apply app_inv_head in E. apply (f_equal SetBytes) in E.
  rewrite !SetBytes_be_bytes, !Z.mod_small in E by (cbn; lia). done.
Qed.

(** The heads of the sections from [lo] to [hi - 1] are removed, the rest is as it was. *)
Definition removed (lo hi : Z) (c c' : ChainIndexer) : Prop :=
  c' = with_indexDb (indexDb c') (with_storedSections lo c) ∧ mem_Get (indexDb c') countKey = mem_Get (indexDb c) countKey ∧
  ∀ s, is_uint64 s → SectionHead s c' = if (lo <=? s) && (s <? hi) then 0 else SectionHead s c.

Lemma drop_sections_ok n : ∀ c, Z.of_nat n <= storedSections c < 2 ^ 64 →
  removed (storedSections c - Z.of_nat n) (storedSections c) c (drop_sections n c).
Proof.
  induction n as [|n IH]; intros c Hn; cbn [drop_sections].
  - rewrite Z.sub_0_r. split; [by destruct c|]. split; [done|]. intros s Hs. destruct (Z.leb_spec (storedSections c) s), (Z.ltb_spec s (storedSections c)); (lia || done).
  - set (c1 := removeSectionHead _ _). assert (storedSections c1 = storedSections c - 1) as E1 by done.
    destruct (IH c1) as (Ec & Ecount & Eh); [lia|]. rewrite E1 in *.
    replace (storedSections c - Z.of_nat (S n)) with (storedSections c - 1 - Z.of_nat n) by lia. split; [|split].
    + rewrite Ec. by destruct c.
    + rewrite Ecount. unfold mem_Get. cbn. by rewrite lookup_delete_ne.
    + intros s Hs. rewrite Eh by done. unfold SectionHead at 1, mem_Get. cbn [c1 removeSectionHead with_indexDb with_storedSections indexDb mem_Delete entries storedSections].
      destruct (decide (s = storedSections c - 1)) as [->|Hne].
      * rewrite lookup_delete_eq. destruct (Z.leb_spec (storedSections c - 1 - Z.of_nat n) (storedSections c - 1)); [|lia].
        destruct (Z.ltb_spec (storedSections c - 1) (storedSections c)); [|lia]. cbn. by rewrite Tauto.if_same.
      * rewrite lookup_delete_ne by (intros E; apply sheadKey_inj in E; [lia|unfold is_uint64; lia|done]).
        fold (mem_Get (indexDb c) (sheadKey s)). fold (SectionHead s c).
        replace (s <? storedSections c) with (s <? storedSections c - 1) by lia. done.
Qed.

Record index_ok (c : ChainIndexer) : Prop := {
  io_size : 0 < sectionSize c;
  io_size8 : sectionSize c mod 8 = 0;
  io_confirms : 0 <= confirmsReq c;
  io_stored : 0 <= storedSections c ∧ storedSections c * sectionSize c <= 2 ^ 63;
  io_known : 0 <= knownSections c ∧ knownSections c * sectionSize c <= 2 ^ 63;
  io_count : mem_Get (indexDb c) countKey = Some (be_bytes 8 (storedSections c)) ∨
             mem_Get (indexDb c) countKey = None ∧ storedSections c = 0;
  io_above s : storedSections c <= s < 2 ^ 64 → SectionHead s c = 0;
  io_below s : 0 <= s < storedSections c → SectionHead s c ≠ 0
}.

(** The constants of an indexer *)
Definition same_settings (c c' : ChainIndexer) : Prop := sectionSize c' = sectionSize c ∧ confirmsReq c' = confirmsReq c.

Lemma index_ok_known n u c : index_ok c → 0 <= n → n * sectionSize c <= 2 ^ 63 → index_ok (with_update u (with_knownSections n c)).
Proof. intros [] Hn Hb. by split. Qed.

Lemma index_ok_cascade n c : index_ok c → index_ok (with_cascadedHead n c).
Proof. intros []. by split. Qed.

Lemma SectionHead_count s n c :
  SectionHead s (with_indexDb (mem_Put countKey (be_bytes 8 n) (indexDb c)) c) = SectionHead s c.
Proof. unfold SectionHead, mem_Get. cbn. by rewrite lookup_insert_ne. Qed.

Lemma setValidSections_less n c :
  index_ok c → 0 <= n <= storedSections c →
  let c' := setValidSections n c in
  index_ok c' ∧ c' = with_indexDb (indexDb c') (with_storedSections n c) ∧ ∀ s, 0 <= s < n → SectionHead s c' = SectionHead s c.
Proof.
  intros Hi Hn c'. destruct (io_stored _ Hi) as [H0 Hs]. pose proof (io_size _ Hi).
  set (c1 := with_indexDb (mem_Put countKey (be_bytes 8 n) (indexDb c)) c).
  destruct (drop_sections_ok (Z.to_nat (storedSections c - n)) c1) as (Ec & Ecount & Eh); [cbn; nia|].
  rewrite Z2Nat.id in Ec, Eh by lia. change (storedSections c1) with (storedSections c) in Ec, Eh.
  replace (storedSections c - (storedSections c - n)) with n in * by lia.
  assert (c' = drop_sections (Z.to_nat (storedSections c - n)) c1) as E'.
  { unfold c', setValidSections. fold c1. change (storedSections c1) with (storedSections c). rewrite Ec. by destruct c. }
  rewrite <-E' in *. clearbody c'. assert (c' = with_indexDb (indexDb c') (with_storedSections n c)) as Ec' by (rewrite Ec; by destruct c).
  assert (∀ s, is_uint64 s → SectionHead s c' = if (n <=? s) && (s <? storedSections c) then 0 else SectionHead s c) as Eh'.
  { intros s Hs'. rewrite Eh by done. destruct (_ && _); [done|]. apply SectionHead_count. }
  assert (mem_Get (indexDb c') countKey = Some (be_bytes 8 n)) as Ecount'.
  { rewrite Ecount. unfold mem_Get. cbn. apply lookup_insert_eq. }
  split; [|split; [done|]].
  - rewrite Ec'. destruct Hi. split; cbn; [done..|nia|done|by left| |].
    + intros s Hs'. rewrite <-Ec', Eh' by (unfold is_uint64; lia). destruct (Z.leb_spec n s), (Z.ltb_spec s (storedSections c)); (lia || (cbn; done) || (cbn; apply io_above0; lia)).
    + intros s Hs'. rewrite <-Ec', Eh' by (unfold is_uint64; nia). destruct (Z.leb_spec n s); [lia|]. cbn. apply io_below0. lia.
  - intros s Hs'. rewrite Eh' by (unfold is_uint64; nia). destruct (Z.leb_spec n s); [lia|]. done.
Qed.

Lemma SectionHead_set s n h c :
  is_uint64 s → is_uint64 n → 0 <= h < 2 ^ 256 → SectionHead s (setSectionHead n h c) = if s =? n then h else SectionHead s c.
Proof.
  intros Hs Hn Hh. unfold SectionHead, mem_Get. cbn. destruct (Z.eqb_spec s n) as [->|Hne].
  - rewrite lookup_insert_eq, length_HashBytes. by apply BytesToHash_HashBytes.
  - rewrite lookup_insert_ne; [done|]. intros E. apply sheadKey_inj in E; [lia|done|done].
Qed.

(** A section is recorded. *)
Lemma record_section n h c :
  index_ok c → storedSections c = n → 0 < h < 2 ^ 256 → (n + 1) * sectionSize c <= 2 ^ 63 →
  let c' := setValidSections (uint64 (n + 1)) (setSectionHead n h c) in
  index_ok c' ∧ c' = with_indexDb (indexDb c') (with_storedSections (n + 1) c) ∧
  ∀ s, 0 <= s <= n → SectionHead s c' = if s =? n then h else SectionHead s c.
Proof.
  intros Hi En Hh Hb. destruct (io_stored _ Hi) as [H0 _]. pose proof (io_size _ Hi). assert (n < 2 ^ 63) as Hn by nia.
  rewrite uint64_id by (unfold is_uint64; lia). intros c'.
  assert (c' = with_indexDb (mem_Put countKey (be_bytes 8 (n + 1)) (indexDb (setSectionHead n h c))) (with_storedSections (n + 1) c)) as Ec.
  { unfold c', setValidSections. cbn [storedSections setSectionHead with_indexDb]. rewrite En. replace (Z.to_nat (n - (n + 1))) with 0%nat by lia. done. }
  assert (∀ s, is_uint64 s → SectionHead s c' = if s =? n then h else SectionHead s c) as Eh.
  { intros s Hs. rewrite <-SectionHead_set by (done || unfold is_uint64; lia).
    rewrite Ec. unfold SectionHead at 1, mem_Get. cbn. by rewrite lookup_insert_ne. }
  split; [|split].
  - destruct Hi. split; try (rewrite Ec; done).
    + rewrite Ec. cbn. lia.
    + left. rewrite Ec. unfold mem_Get. cbn. apply lookup_insert_eq.
    + intros s Hs. rewrite Ec in Hs. cbn in Hs. rewrite Eh by (unfold is_uint64; lia). destruct (Z.eqb_spec s n); [lia|]. apply io_above0. lia.
    + intros s Hs. rewrite Ec in Hs. cbn in Hs. rewrite Eh by (unfold is_uint64; lia). destruct (Z.eqb_spec s n); [lia|]. apply io_below0. lia.
  - rewrite Ec. by destruct c.
  - intros s Hs. apply Eh. unfold is_uint64. lia.
Qed.

(** A reorganisation after block [a] *)
Lemma newHead_reorg a c :
  index_ok c → 0 <= a →
  let c' := (newHead a true c).1 in
  index_ok c' ∧ same_settings c c' ∧ ci_update c' = ci_update c ∧ storedSections c' = Z.min (storedSections c) (a / sectionSize c) ∧
  knownSections c' = Z.min (knownSections c) (a / sectionSize c) ∧ ∀ s, 0 <= s < storedSections c' → SectionHead s c' = SectionHead s c.
Proof.
  intros Hi Ha. pose proof (io_size _ Hi) as H0. destruct (io_known _ Hi) as [Hk0 Hk]. set (changed := a / sectionSize c).
  assert (0 <= changed) as Hc0 by (apply Z.div_pos; lia).
  set (c1 := if changed <? knownSections c then with_knownSections changed c else c).
  assert (index_ok c1 ∧ c1 = with_knownSections (Z.min (knownSections c) changed) c) as [Hi1 E1].
  { unfold c1. destruct (Z.ltb_spec changed (knownSections c)).
    - split; [destruct Hi; split; try done; cbn; nia|]. by rewrite Z.min_r by lia.
    - split; [done|]. rewrite Z.min_l by lia. by destruct c. }
  set (c2 := if changed <? storedSections c1 then setValidSections changed c1 else c1).
  assert (index_ok c2 ∧ c2 = with_indexDb (indexDb c2) (with_storedSections (Z.min (storedSections c) changed) c1) ∧
    ∀ s, 0 <= s < storedSections c2 → SectionHead s c2 = SectionHead s c1) as (Hi2 & E2 & Eh).
  { unfold c2. assert (storedSections c1 = storedSections c) as Es by (rewrite E1; done).
    destruct (Z.ltb_spec changed (storedSections c1)).
    - destruct (setValidSections_less changed c1 Hi1) as (H1 & H2 & H3); [lia|]. rewrite Z.min_r by lia. split; [done|]. split; [done|].
      rewrite H2. cbn [storedSections with_indexDb with_storedSections]. intros s Hs. rewrite <-H2. by apply H3.
    - split; [done|]. split; [|done]. rewrite Z.min_l by lia. rewrite <-Es. by destruct c1. }
  assert ((newHead a true c).1 = c2 ∨ ∃ h, (newHead a true c).1 = with_cascadedHead h c2) as Ec'.
  { unfold newHead. fold changed. fold c1. fold c2. destruct (_ <? cascadedHead c2); [right; by eexists|by left]. }
  assert (∀ s, SectionHead s c1 = SectionHead s c) as Eh1 by (intros s; by rewrite E1).
  assert (index_ok c2 ∧ same_settings c c2 ∧ ci_update c2 = ci_update c ∧ storedSections c2 = Z.min (storedSections c) changed ∧
    knownSections c2 = Z.min (knownSections c) changed ∧ ∀ s, 0 <= s < storedSections c2 → SectionHead s c2 = SectionHead s c) as H2.
  { split; [done|]. repeat split; try (rewrite E2, E1; done). intros s Hs. rewrite <-Eh1. by apply Eh. }
  cbv zeta. destruct Ec' as [->|[h ->]]; [done|]. destruct H2 as (H2 & H3). split; [by apply index_ok_cascade|done].
Qed.

(** A new head *)
Lemma newHead_grow h c :
  index_ok c → 0 <= h < 2 ^ 63 - 1 →
  ∃ k u, (newHead h false c).1 = with_update u (with_knownSections k c) ∧ index_ok (with_update u (with_knownSections k c)) ∧
    (k = knownSections c ∧ u = ci_update c ∨ u = true ∧ knownSections c < k ∧ k * sectionSize c <= h + 1).
Proof.
  intros Hi Hh. pose proof (io_size _ Hi). pose proof (io_confirms _ Hi). destruct (io_known _ Hi).
  assert (∃ k u, c = with_update u (with_knownSections k c) ∧ index_ok (with_update u (with_knownSections k c)) ∧
    (k = knownSections c ∧ u = ci_update c ∨ u = true ∧ knownSections c < k ∧ k * sectionSize c <= h + 1)) as Hsame.
  { exists (knownSections c), (ci_update c). split; [by destruct c|]. split; [by apply index_ok_known|by left]. }
  unfold newHead. destruct (Z.leb_spec (confirmsReq c) h); [|exact Hsame].
  rewrite uint64_id by (unfold is_uint64; lia). set (k := (h + 1 - confirmsReq c) / sectionSize c).
  assert (k * sectionSize c <= h + 1) as Hk by (pose proof (Z.mul_div_le (h + 1 - confirmsReq c) (sectionSize c)); unfold k; lia).
  destruct (Z.ltb_spec (knownSections c) k); [|exact Hsame].
  exists k, true. split; [done|]. split; [apply index_ok_known; (done || lia)|]. by right.
Qed.

(** ** The invariant *)

(** Consecutive chains keep their blocks below [m]. *)
Fixpoint agree (m : Z) (cs : list chain) : Prop :=
  match cs with
  | c :: ((c' :: _) as cs) => keeps m c c' ∧ agree m cs
  | _ => True
  end.

Lemma agree_mono m m' cs : m' <= m → agree m cs → agree m' cs.
Proof.
  intros Hm. induction cs as [|c [|c' cs] IH]; [done..|]. intros [H1 H2]. split; [by eapply keeps_mono|by apply IH].
Qed.

Lemma agree_snoc m cs c c' : list.last cs = Some c → agree m (cs ++ [c']) ↔ agree m cs ∧ keeps m c c'.
Proof.
  induction cs as [|c1 [|c2 cs] IH]; intros Hl; [done| |].
  - injection Hl as ->. cbn. tauto.
  - cbn [app agree]. rewrite last_cons_cons in Hl. specialize (IH Hl). cbn [app] in IH. rewrite IH. tauto.
Qed.

(** Section [s] of the chain is in the index. *)
Definition indexed_section (c : chain) (ci : ChainIndexer) (db : MemDatabase) (s : Z) : Prop :=
  let size := sectionSize ci in
  (s + 1) * size <= top c + 1 ∧ SectionHead s ci = last_hash (at_ c) ((s + 1) * size) ∧ stored (at_ c) size db s.

Lemma last_hash_keeps c c' m : keeps m c c' → 0 <= m <= top c + 1 → last_hash (at_ c') m = last_hash (at_ c) m.
Proof. intros Hk Hm. unfold last_hash. destruct (Z.eqb_spec m 0); [done|]. f_equal. apply Hk; lia. Qed.

Lemma stored_keeps c c' size db s :
  keeps ((s + 1) * size) c c' → 0 < size → 0 <= s → (s + 1) * size <= top c + 1 → stored (at_ c) size db s → stored (at_ c') size db s.
Proof.
  intros Hk H0 Hs Ht Hst i Hi. destruct (Hst i Hi) as (v & x & Ex & El & Hvl & Hv). exists v, x. split; [done|]. split.
  - by rewrite (last_hash_keeps c c') by (done || nia).
  - split; [done|]. intros k Hk'. rewrite Hv by done. unfold bloom_at. f_equal. f_equal. f_equal. symmetry. 
    unfold section_bytes in Hk'. pose proof (Z.mul_div_le size 8 ltac:(lia)). apply Hk; nia.
Qed.

Lemma indexed_keeps c c' ci db s :
  keeps ((s + 1) * sectionSize ci) c c' → chain_ok c' → 0 < sectionSize ci → 0 <= s → indexed_section c ci db s → indexed_section c' ci db s.
Proof.
  intros Hk Hc' H0 Hs (Ht & Eh & Hst). assert (0 < (s + 1) * sectionSize ci) as Hpos by nia. split; [|split].
  - destruct (Hk ((s + 1) * sectionSize ci - 1)) as [? _]; lia.
  - rewrite Eh. symmetry. apply last_hash_keeps; [done|lia].
  - by apply (stored_keeps c).
Qed.

Lemma section_inv_keeps c c' db db' size s k b :
  keeps (s * size + Z.of_nat k) c c' → 0 <= s * size → s * size + Z.of_nat k <= top c + 1 →
  section_inv (at_ c) db size s k b → section_inv (at_ c') db' size s k (with_db db' b).
Proof.
  intros Hk H0 Ht [Hdb Hsize Hsec (g & Hg & Hgs & Hok) Hh]. split; cbn; [done..| |].
  - exists g. split; [done|]. split; [done|]. replace (bloom_at (at_ c') <$> _) with (bloom_at (at_ c) <$> zrange (s * size) (s * size + Z.of_nat k - 1)); [done|].
    apply list_fmap_ext. intros i n Hn. apply list_elem_of_lookup_2, elem_of_zrange in Hn. unfold bloom_at. do 2 f_equal. symmetry. apply Hk; lia.
  - intros Hpos. rewrite Hh by done. symmetry. apply last_hash_keeps; [done|lia].
Qed.

(** What holds of the section in work.  While no event is outstanding that concerns
    an earlier section, and none of them has been given up, it is made from blocks
    of the chain. *)
Definition phase_ok (c : chain) (size : Z) (b : BloomIndexer) (t : task) (current : Prop) : Prop :=
  let s := t_section t in
  match t_phase t with
  | reading number lastHead =>
      s * size <= number <= (s + 1) * size ∧ bi_section b = s ∧ is_Some (bi_gen b) ∧ (s * size < number → 0 < lastHead < 2 ^ 256) ∧
      (current → number <= top c + 1 ∧ lastHead = last_hash (at_ c) number ∧
                 section_inv (at_ c) (bi_db b) size s (Z.to_nat (number - s * size)) b)
  | processed None => True
  | processed (Some newHead) =>
      0 < newHead < 2 ^ 256 ∧
      (current → (s + 1) * size <= top c + 1 ∧ newHead = last_hash (at_ c) ((s + 1) * size) ∧ stored (at_ c) size (bi_db b) s)
  end.

Record task_ok (w : world) (cs : list chain) (t : task) : Prop := {
  tk_section : 0 <= t_section t;
  tk_end : (t_section t + 1) * sectionSize (w_indexer w) <= 2 ^ 63;
  tk_stored : storedSections (w_indexer w) <= t_section t;
  tk_oldHead : 0 < t_section t → t_oldHead t ≠ 0;
  tk_phase : phase_ok (w_chain w) (sectionSize (w_indexer w)) (w_backend w) t
    (storedSections (w_indexer w) = t_section t ∧ agree (t_section t * sectionSize (w_indexer w)) cs)
}.

(** [cs] are the chains of the last event taken, of the events that are outstanding,
    and the present one, which the last event is for. *)
Record world_ok (w : world) (cs : list chain) : Prop := {
  wo_index : index_ok (w_indexer w);
  wo_backend : bi_size (w_backend w) = sectionSize (w_indexer w);
  wo_chains : Forall chain_ok cs;
  wo_genesis : Forall (λ c, at_ c 0 = at_ (w_chain w) 0) cs;
  wo_heads : (λ c, at_ c (top c)) <$> cs = w_prev w :: w_events w;
  wo_last : list.last cs = Some (w_chain w);
  wo_assigned : assigned (w_chain w) (bi_db (w_backend w));
  wo_known c : list.head cs = Some c → storedSections (w_indexer w) < knownSections (w_indexer w) →
    knownSections (w_indexer w) * sectionSize (w_indexer w) <= top c + 1;
  wo_sections s : 0 <= s < storedSections (w_indexer w) → agree ((s + 1) * sectionSize (w_indexer w)) cs →
    indexed_section (w_chain w) (w_indexer w) (bi_db (w_backend w)) s;
  wo_task t : w_task w = Some t → task_ok w cs t;
  wo_scheduled : w_task w = None → storedSections (w_indexer w) < knownSections (w_indexer w) →
    ci_update (w_indexer w) = true ∨ w_timers w ≠ 0%nat
}.

Lemma wo_chain w cs : world_ok w cs → chain_ok (w_chain w).
Proof.
  intros H. pose proof (wo_last _ _ H) as Hl. apply last_Some in Hl as [l ->]. pose proof (wo_chains _ _ H) as Hc.
  apply Forall_app in Hc as [_ Hc]. by inversion Hc.
Qed.

Lemma Header_Hash_range h : 0 <= Header_Hash h < 2 ^ 256.
Proof. apply BytesToHash_range. Qed.

Lemma hash_pos c n : chain_ok c → 0 <= n <= top c → 0 < Header_Hash (at_ c n) < 2 ^ 256.
Proof. intros Hc Hn. pose proof (ch_nonzero _ Hc n Hn). pose proof (Header_Hash_range (at_ c n)). lia. Qed.

(** A hash is the hash of a block with one number. *)
Definition one_number : Prop := ∀ hash n n' h h', ReadHeader hash n = Some h → ReadHeader hash n' = Some h' → n = n'.

Context (Hone : one_number).

(** A header whose parent is the last header of a chain extends the chain. *)
Lemma child_keeps c c' : chain_ok c → chain_ok c' →
  Block.ParentHash (at_ c' (top c')) = Header_Hash (at_ c (top c)) → top c' = top c + 1 ∧ ∀ m, keeps m c c'.
Proof.
  intros Hc Hc' E. pose proof (ch_top _ Hc). pose proof (ch_top _ Hc'). destruct (decide (top c' = 0)) as [E0|Hne].
  { rewrite E0, (ch_genesis _ Hc') in E. exfalso. by apply (ch_nonzero _ Hc (top c)); [lia|]. }
  rewrite (ch_parent _ Hc') in E by lia.
  assert (top c' - 1 = top c) as Et.
  { eapply Hone; [apply (ch_read _ Hc'); lia|]. rewrite E. apply (ch_read _ Hc). lia. }
  split; [lia|]. intros m n Hn Ht. rewrite Et in E. apply same_hash in E; [|done|done|lia|lia].
  apply (shared_below c c' (top c)); (done || lia).
Qed.

Lemma on_event_ok c c' ci :
  chain_ok c → chain_ok c' → at_ c' 0 = at_ c 0 → index_ok ci → (storedSections ci < knownSections ci → knownSections ci * sectionSize ci <= top c + 1) →
  ∃ ci', on_event (at_ c (top c)) (at_ c' (top c')) ci = Some ci' ∧ index_ok ci' ∧ same_settings ci ci' ∧
    storedSections ci' <= storedSections ci ∧ keeps (storedSections ci' * sectionSize ci) c c' ∧
    (∀ s, 0 <= s < storedSections ci' → SectionHead s ci' = SectionHead s ci) ∧
    (storedSections ci' < knownSections ci' → knownSections ci' * sectionSize ci <= top c' + 1) ∧
    (storedSections ci' < knownSections ci' → ci_update ci' = true ∨ ci_update ci' = ci_update ci ∧ storedSections ci < knownSections ci).
Proof.
  intros Hc Hc' H0 Hi Hk. pose proof (ch_top _ Hc). pose proof (ch_top _ Hc'). pose proof (io_size _ Hi). unfold on_event.
  assert (∃ ci1, (if Block.ParentHash (at_ c' (top c')) =? Header_Hash (at_ c (top c)) then Some ci
       else r ← FindCommonAncestor (at_ c (top c)) (at_ c' (top c'));
         match r with Some h => Some (newHead (uint64 (Block.Number h)) true ci).1 | None => Some ci end) = Some ci1 ∧
    index_ok ci1 ∧ same_settings ci ci1 ∧ ci_update ci1 = ci_update ci ∧ storedSections ci1 <= storedSections ci ∧
    keeps (storedSections ci1 * sectionSize ci) c c' ∧ (∀ s, 0 <= s < storedSections ci1 → SectionHead s ci1 = SectionHead s ci) ∧
    (storedSections ci1 < knownSections ci1 → knownSections ci1 * sectionSize ci <= top c' + 1) ∧
    (storedSections ci1 < knownSections ci1 → storedSections ci < knownSections ci)) as (ci1 & -> & Hi1 & [Es Ec] & Eu & Hst & Hkeep & Hh & Hk1 & Hsch).
  { destruct (Z.eqb_spec (Block.ParentHash (at_ c' (top c'))) (Header_Hash (at_ c (top c)))) as [E|_].
    - destruct (child_keeps c c' Hc Hc' E) as [Et Hkeep]. exists ci.
      do 5 (split; [done|]). split; [apply Hkeep|]. split; [done|]. split; [lia|done].
    - destruct (FindCommonAncestor_at c c' Hc Hc' H0) as (a & -> & Ha & Ha' & Hkeep). cbn [mbind option_bind].
      rewrite number_at by (done || lia).
      destruct (newHead_reorg a ci Hi) as (Hi1 & Hset & Eu & Est & Ekn & Hh); [lia|]. eexists. split; [reflexivity|].
      pose proof (Z.mul_div_le a (sectionSize ci) ltac:(lia)). split; [done|]. split; [done|]. split; [done|]. rewrite Est, Ekn in *.
      split; [lia|]. split; [eapply keeps_mono; [|exact Hkeep]; nia|]. split; [done|]. split; [nia|]. lia. }
  cbn [mbind option_bind]. rewrite number_at by (done || lia).
  destruct (newHead_grow (top c') ci1 Hi1) as (k & u & -> & Hi2 & Hku); [lia|]. eexists. split; [reflexivity|].
  split; [done|]. split; [done|]. cbn [storedSections knownSections ci_update with_update with_knownSections].
  split; [done|]. split; [done|]. split; [exact Hh|]. rewrite <-Es in *. destruct Hku as [[-> ->]|(-> & Hlt & Hb)].
  - split; [done|]. rewrite Eu. intros Hlt. right. split; [done|]. by apply Hsch.
  - split; [done|]. by left.
Qed.

(** *** The steps keep it *)

Lemma stored_renumbered c size db db' s : renumbered db db' → stored (at_ c) size db s → stored (at_ c) size db' s.
Proof.
  intros Hr Hst i Hi. destruct (Hst i Hi) as (v & x & Ex & El & Hv). exists v, x. split; [done|]. split; [|done].
  rewrite <-El. unfold ReadBloomBits, mem_Get. apply Hr. intros n E. symmetry in E. by apply headerHashKey_other in E.
Qed.

Lemma phase_ok_mono c size b t (P P' : Prop) : (P' → P) → phase_ok c size b t P → phase_ok c size b t P'.
Proof.
  intros HP. unfold phase_ok. destruct (t_phase t) as [number lastHead|[newHead|]]; [| |done].
  - intros (H1 & H2 & H3 & H4 & H5). split; [done|]. split; [done|]. split; [done|]. split; [done|]. intros H. by apply H5, HP.
  - intros [H1 H2]. split; [done|]. intros H. by apply H2, HP.
Qed.

Lemma phase_ok_chain c c' size b db t (P P' : Prop) :
  chain_ok c' → renumbered (bi_db b) db → 0 < size → 0 <= t_section t → (P' → P ∧ keeps (taken size t) c c') →
  phase_ok c size b t P → phase_ok c' size (with_db db b) t P'.
Proof.
  intros Hc' Hr H0 Hs HP. unfold phase_ok, taken in *. destruct (t_phase t) as [number lastHead|[newHead|]]; [| |done].
  - intros (Hn & Hsec & Hgen & Hl & Hcur). split; [done|]. split; [done|]. split; [done|]. split; [done|].
    intros HPP. destruct (HP HPP) as [HP' Hkeep]. destruct (Hcur HP') as (Ht & El & Hinv). split; [|split].
    + destruct (decide (number = 0)); [pose proof (ch_top _ Hc'); lia|]. destruct (Hkeep (number - 1)); [nia|lia|lia].
    + rewrite El. symmetry. apply last_hash_keeps; [done|nia].
    + apply (section_inv_keeps c c' (bi_db b)); [|apply Z.mul_nonneg_nonneg; lia|lia|exact Hinv].
      by replace (t_section t * size + Z.of_nat (Z.to_nat (number - t_section t * size))) with number by lia.
  - intros (Hh & Hcur). split; [done|]. intros HPP. destruct (HP HPP) as [HP' Hkeep]. destruct (Hcur HP') as (Ht & El & Hst).
    assert (0 < (t_section t + 1) * size) by nia. destruct (Hkeep ((t_section t + 1) * size - 1)) as [Ht' _]; [lia|lia|].
    split; [lia|]. split; [rewrite El; symmetry; apply last_hash_keeps; [done|lia]|].
    cbn [with_db bi_db]. apply (stored_renumbered _ _ (bi_db b)); [done|]. by apply (stored_keeps c).
Qed.

Lemma ok_chain w cs c db :
  world_ok w cs → chain_ok c → at_ c 0 = at_ (w_chain w) 0 → assigned c db → renumbered (bi_db (w_backend w)) db →
  let w' := {| w_indexer := w_indexer w; w_backend := with_db db (w_backend w); w_task := w_task w; w_timers := w_timers w;
               w_prev := w_prev w; w_events := w_events w ++ [at_ c (top c)]; w_chain := c |} in
  calm w w' → world_ok w' (cs ++ [c]).
Proof.
  intros Hw Hc H0 Ha Hr w' Hcalm. pose proof (wo_index _ _ Hw) as Hi. pose proof (io_size _ Hi) as Hpos. pose proof (wo_last _ _ Hw) as Hl. split; cbn.
  - done.
  - apply (wo_backend _ _ Hw).
  - apply Forall_app. split; [apply (wo_chains _ _ Hw)|by apply Forall_singleton].
  - apply Forall_app. split; [|by apply Forall_singleton]. eapply list.Forall_impl; [apply (wo_genesis _ _ Hw)|]. intros c1 E. cbn in *. congruence.
  - rewrite fmap_app, (wo_heads _ _ Hw). done.
  - by rewrite last_snoc.
  - done.
  - intros c1 Hc1. apply (wo_known _ _ Hw). by destruct cs.
  - intros s Hs Hag. apply (agree_snoc _ _ _ c Hl) in Hag as [Hag Hkeep].
    destruct (wo_sections _ _ Hw s Hs Hag) as (Ht & Eh & Hst). 
    apply (indexed_keeps (w_chain w)); [done..|lia|]. split; [done|]. split; [done|]. by apply (stored_renumbered _ _ (bi_db (w_backend w))).
  - intros t Et. destruct (wo_task _ _ Hw t Et) as [H1 H2 H3 H4 H5]. split; cbn; [done..|].
    eapply phase_ok_chain; [..|exact H5]; [done..|]. intros [E Hag]. apply (agree_snoc _ _ _ c Hl) in Hag as [Hag Hkeep].
    split; [done|]. by apply (Hcalm t Et).
  - apply (wo_scheduled _ _ Hw).
Qed.

Lemma indexed_same c ci ci' db s :
  sectionSize ci' = sectionSize ci → SectionHead s ci' = SectionHead s ci → indexed_section c ci db s → indexed_section c ci' db s.
Proof. unfold indexed_section. by intros -> ->. Qed.

Lemma ok_event w cs header events ci :
  world_ok w cs → w_events w = header :: events → on_event (w_prev w) header (w_indexer w) = Some ci →
  world_ok {| w_indexer := ci; w_backend := w_backend w; w_task := w_task w; w_timers := w_timers w;
              w_prev := header; w_events := events; w_chain := w_chain w |} (tail cs).
Proof.
  intros Hw Ee Eci. pose proof (wo_heads _ _ Hw) as Hh. rewrite Ee in Hh.
  destruct cs as [|c [|c' cs]]; [done..|]. cbn in Hh. injection Hh as Ec Ec' Ecs. rewrite <-Ec, <-Ec' in *.
  pose proof (wo_chains _ _ Hw) as Hcs. apply list.Forall_cons in Hcs as [Hc [Hc' Hcs]%list.Forall_cons].
  pose proof (wo_genesis _ _ Hw) as Hgs. apply list.Forall_cons in Hgs as [H0 [H0' Hgs]%list.Forall_cons]. cbn in H0, H0'.
  pose proof (wo_index _ _ Hw) as Hi. pose proof (io_size _ Hi) as Hpos.
  destruct (on_event_ok c c' (w_indexer w)) as (ci' & E & Hi' & [Es Ec1] & Hst & Hkeep & Hsh & Hk & Hsch); [done|done|congruence|done|by apply (wo_known _ _ Hw)|].
  assert (ci' = ci) as -> by congruence. split; cbn.
  - done.
  - rewrite Es. apply (wo_backend _ _ Hw).
  - by constructor.
  - by constructor.
  - by rewrite Ecs.
  - pose proof (wo_last _ _ Hw) as Hl. by rewrite last_cons_cons in Hl.
  - apply (wo_assigned _ _ Hw).
  - intros c1 [= <-]. by rewrite Es.
  - intros s Hs Hag. eapply indexed_same; [exact Es|by apply Hsh|]. rewrite Es in Hag. apply (wo_sections _ _ Hw); [lia|].
    split; [|done]. eapply keeps_mono; [|exact Hkeep]. nia.
  - intros t Et. destruct (wo_task _ _ Hw t Et) as [H1 H2 H3 H4 H5]. split; cbn; rewrite ?Es; [done|done|lia|done|].
    eapply phase_ok_mono; [|exact H5]. intros [E1 Hag]. split; [lia|]. split; [|done]. by rewrite <-E1.
  - intros Et Hlt. destruct (Hsch Hlt) as [?|[-> Hlt']]; [by left|]. by apply (wo_scheduled _ _ Hw).
Qed.

Lemma canonical_of c db : chain_ok c → assigned c db → canonical ReadHeader (at_ c) (top c) db.
Proof. intros [[? ?] ? ? ? ? ?] [? ?]. by split. Qed.

(** The goroutine that processes the section changes the backend. *)
Lemma ok_proceed w cs b t :
  world_ok w cs → bi_size b = bi_size (w_backend w) → assigned (w_chain w) (bi_db b) →
  (∀ s, 0 <= s < storedSections (w_indexer w) → stored (at_ (w_chain w)) (sectionSize (w_indexer w)) (bi_db (w_backend w)) s →
     stored (at_ (w_chain w)) (sectionSize (w_indexer w)) (bi_db b) s) →
  task_ok (proceed b t w) cs t → world_ok (proceed b t w) cs.
Proof.
  intros Hw Hs Ha Hst Ht. destruct Hw. split; cbn; [done|congruence|done..| |by intros t' [= <-]|done].
  intros s Hs' Hag. destruct (wo_sections0 s Hs' Hag) as (H1 & H2 & H3). split; [done|]. split; [done|]. by apply Hst.
Qed.

Lemma section_end_ok w cs t : world_ok w cs → task_ok w cs t → section_end w t = (t_section t + 1) * sectionSize (w_indexer w).
Proof.
  intros Hw Ht. pose proof (io_size _ (wo_index _ _ Hw)). pose proof (tk_section _ _ _ Ht). pose proof (tk_end _ _ _ Ht).
  apply uint64_id. unfold is_uint64. nia.
Qed.

Lemma ok_header w cs t number lastHead r :
  world_ok w cs → w_task w = Some t → t_phase t = reading number lastHead → number < section_end w t →
  process_headers ReadHeader 1 number lastHead (w_backend w) = Some r →
  world_ok match r with
           | inl _ => proceed (w_backend w) (with_phase (processed None) t) w
           | inr (lastHead, b) => proceed b (with_phase (reading (uint64 (number + 1)) lastHead) t) w
           end cs.
Proof.
  intros Hw Et Ep Hend E. pose proof (wo_task _ _ Hw t Et) as Ht. pose proof (wo_chain _ _ Hw) as Hc. pose proof (wo_assigned _ _ Hw) as Ha.
  rewrite (section_end_ok w cs t Hw Ht) in Hend. destruct Ht as [Hs Hb Hst Hold Hph]. pose proof (io_size _ (wo_index _ _ Hw)) as Hpos.
  assert (world_ok (proceed (w_backend w) (with_phase (processed None) t) w) cs) as Hfail by (apply ok_proceed; done).
  unfold phase_ok in Hph. rewrite Ep in Hph. destruct Hph as (Hn & Hsec & Hgen & _ & Hcur).
  cbn [process_headers] in E. destruct (Z.eqb_spec (ReadCanonicalHash (bi_db (w_backend w)) number) 0) as [E0|Hne]; [by apply (inj Some) in E as <-|].
  assert (number <= top (w_chain w)) as Htop.
  { destruct (Z.le_gt_cases number (top (w_chain w))); [done|]. exfalso. apply Hne, (as_above _ _ Ha). lia. }
  assert (0 <= number <= top (w_chain w)) as Hn' by nia. rewrite (as_hash _ _ Ha) in E by done. rewrite (ch_read _ Hc) in E by done.
  destruct (negb _) eqn:Epar; [by apply (inj Some) in E as <-|]. 
  destruct (bi_Process (at_ (w_chain w) number) (w_backend w)) as [b|] eqn:Eb; [|done]. cbn [mbind option_bind] in E. apply (inj Some) in E as <-.
  pose proof (ch_top _ Hc). rewrite uint64_id by (unfold is_uint64; lia). destruct (bi_Process_keeps _ _ _ Eb) as (Es & Edb & Esec & Hg).
  apply ok_proceed; [done|done|by rewrite Edb|by rewrite Edb|]. split; cbn; [done..|]. split; [lia|]. split; [congruence|]. split; [done|]. split; [by intros _; apply hash_pos|].
  intros Hcurr. destruct (Hcur Hcurr) as (_ & El & Hinv). split; [lia|]. split; [rewrite <-(last_hash_succ (at_ (w_chain w))) by lia; done|].
  destruct (bi_Process_ok ReadHeader (at_ (w_chain w)) (top (w_chain w)) _ _ _ _ _ (canonical_of _ _ Hc Ha) Hinv) as (b' & Eb' & Hinv'); [done|done|lia|lia|].
  replace (t_section t * sectionSize (w_indexer w) + Z.of_nat (Z.to_nat (number - t_section t * sectionSize (w_indexer w)))) with number in Eb' by lia.
  assert (b' = b) as -> by congruence. rewrite Edb.
  by replace (Z.to_nat (number + 1 - t_section t * sectionSize (w_indexer w))) with (S (Z.to_nat (number - t_section t * sectionSize (w_indexer w)))) by lia.
Qed.

Lemma assigned_writes c db db' s : writes_section s db db' → assigned c db → assigned c db'.
Proof.
  intros Hw [H1 H2]. assert (∀ n, ReadCanonicalHash db' n = ReadCanonicalHash db n) as E; [|split; intros; rewrite E; auto].
  intros n. unfold ReadCanonicalHash, mem_Get. rewrite Hw; [done|]. intros i h _. apply headerHashKey_other.
Qed.

Lemma ok_commit w cs t number lastHead r :
  world_ok w cs → w_task w = Some t → t_phase t = reading number lastHead → section_end w t <= number →
  bi_Commit (w_backend w) = Some r →
  world_ok match r with
           | inl _ => proceed (w_backend w) (with_phase (processed None) t) w
           | inr b => proceed b (with_phase (processed (Some lastHead)) t) w
           end cs.
Proof.
  intros Hw Et Ep Hend E. pose proof (wo_task _ _ Hw t Et) as Ht. pose proof (wo_assigned _ _ Hw) as Ha.
  rewrite (section_end_ok w cs t Hw Ht) in Hend. destruct Ht as [Hs Hb Hst Hold Hph]. pose proof (wo_index _ _ Hw) as Hi. pose proof (io_size _ Hi) as Hpos.
  destruct r as [err|b]; [by apply ok_proceed|]. unfold phase_ok in Hph. rewrite Ep in Hph. destruct Hph as (Hn & Hsec & Hgen & Hl & Hcur).
  destruct (bi_Commit_writes _ _ E) as [Es Hwr]. rewrite Hsec in Hwr. assert (is_uint64 (t_section t)) as Hs64 by (unfold is_uint64; nia).
  apply ok_proceed; [done|done|by apply (assigned_writes _ (bi_db (w_backend w)) _ (t_section t))| |].
  - intros s Hs'. apply (stored_kept _ _ (t_section t)); [done|done|unfold is_uint64 in *; lia|lia].
  - split; cbn; [done..|]. split; [apply Hl; nia|]. intros Hcurr. destruct (Hcur Hcurr) as (Ht & El & Hinv).
    replace number with ((t_section t + 1) * sectionSize (w_indexer w)) in * by lia. split; [done|]. split; [done|].
    replace (Z.to_nat _) with (Z.to_nat (sectionSize (w_indexer w))) in Hinv by lia.
    destruct (bi_Commit_ok _ _ _ _ _ Hinv) as (b' & Eb' & _ & Hst' & _); [done|apply (io_size8 _ Hi)|done|]. by assert (b' = b) as -> by congruence.
Qed.

(** The indexer changes in a way that keeps the sections. *)
Lemma ok_indexer w cs ci t timers :
  world_ok w cs → index_ok ci → same_settings (w_indexer w) ci →
  (storedSections ci < knownSections ci → storedSections (w_indexer w) < knownSections (w_indexer w) ∧ knownSections ci = knownSections (w_indexer w)) →
  (∀ s, 0 <= s < storedSections ci → agree ((s + 1) * sectionSize ci) cs → indexed_section (w_chain w) ci (bi_db (w_backend w)) s) →
  (∀ t', t = Some t' → task_ok (indexer_step ci t timers w) cs t') →
  (t = None → storedSections ci < knownSections ci → ci_update ci = true ∨ timers ≠ 0%nat) → world_ok (indexer_step ci t timers w) cs.
Proof.
  intros Hw Hi [Es Ec] Hk Hsec Ht Hsch. destruct Hw. split; cbn; try done.
  - by rewrite Es.
  - intros c Hh Hlt. destruct (Hk Hlt) as [Hlt' ->]. rewrite Es. by apply wo_known0.
Qed.

Lemma same_head w cs ci s :
  world_ok w cs → sectionSize ci = sectionSize (w_indexer w) → SectionHead s ci = SectionHead s (w_indexer w) → 0 <= s < storedSections (w_indexer w) →
  agree ((s + 1) * sectionSize ci) cs → indexed_section (w_chain w) ci (bi_db (w_backend w)) s.
Proof. intros Hw Es Eh Hs Hag. eapply indexed_same; [exact Es|exact Eh|]. rewrite Es in Hag. by apply (wo_sections _ _ Hw). Qed.

Lemma ok_give_up w cs t timers :
  world_ok w cs → let ci := with_knownSections (storedSections (w_indexer w)) (w_indexer w) in
  t = None → world_ok (indexer_step ci t timers w) cs.
Proof.
  intros Hw ci ->. pose proof (wo_index _ _ Hw) as Hi. apply ok_indexer; [done|destruct Hi; by split|done|cbn; lia| |done|cbn; lia].
  intros s Hs. by apply (same_head w cs).
Qed.

Lemma ok_finish w cs t result :
  world_ok w cs → w_task w = Some t → t_phase t = processed result →
  let c := (update_end (t_section t) (t_oldHead t) result (w_indexer w)).1 in
  world_ok (indexer_step c None (if reschedule c then S (w_timers w) else w_timers w) w) cs.
Proof.
  intros Hw Et Ep c. pose proof (wo_task _ _ Hw t Et) as [Hs Hb Hst Hold Hph]. pose proof (wo_index _ _ Hw) as Hi. pose proof (io_size _ Hi) as Hpos.
  unfold phase_ok in Hph. rewrite Ep in Hph. unfold update_end in c. destruct result as [newHead|]; [|by apply ok_give_up].
  destruct Hph as [Hh Hcur]. destruct (Z.eqb_spec (t_oldHead t) (SectionHead (uint64 (t_section t - 1)) (w_indexer w))) as [Eold|_]; [|by apply ok_give_up].
  assert (storedSections (w_indexer w) = t_section t) as Est.
  { destruct (Z.eq_dec (storedSections (w_indexer w)) (t_section t)) as [|Hne]; [done|]. exfalso. destruct (io_stored _ Hi).
    apply Hold; [lia|]. rewrite Eold, uint64_id by (unfold is_uint64; nia). apply (io_above _ Hi). nia. }
  destruct (record_section (t_section t) newHead (w_indexer w) Hi Est Hh Hb) as (Hi1 & E1 & Hsh).
  set (c1 := setValidSections (uint64 (t_section t + 1)) (setSectionHead (t_section t) newHead (w_indexer w))) in *.
  assert (storedSections c1 = t_section t + 1 ∧ knownSections c1 = knownSections (w_indexer w) ∧ sectionSize c1 = sectionSize (w_indexer w) ∧
    confirmsReq c1 = confirmsReq (w_indexer w)) as (Es1 & Ek1 & Ez1 & Ec1) by (rewrite E1; done).
  assert (c = with_cascadedHead (uint64 (storedSections c1 * sectionSize c1 - 1)) c1) as Ec by done. clearbody c c1. subst c.
  apply ok_indexer; [done|by apply index_ok_cascade|by split| | |done|].
  - cbn. rewrite Es1, Ek1, Est. lia.
  - cbn [storedSections sectionSize with_cascadedHead]. rewrite Es1, Ez1. intros s Hs' Hag. destruct (decide (s = t_section t)) as [->|Hne].
    + destruct Hcur as (Ht & El & Hst'). { split; [done|]. eapply agree_mono; [|exact Hag]. nia. }
      split; cbn; rewrite Ez1; [done|]. split; [|done]. change (SectionHead (t_section t) c1 = last_hash (at_ (w_chain w)) ((t_section t + 1) * sectionSize (w_indexer w))).
      rewrite Hsh, Z.eqb_refl by lia. done.
    + apply (same_head w cs); [done|done| |lia|by cbn; rewrite Ez1]. change (SectionHead s c1 = SectionHead s (w_indexer w)).
      rewrite Hsh by lia. by destruct (Z.eqb_spec s (t_section t)).
  - intros _ Hlt. right. unfold reschedule. by rewrite (proj2 (Z.ltb_lt _ _) Hlt).
Qed.

Lemma ok_no_update w cs ci :
  world_ok w cs → w_task w = None → update_begin (w_indexer w) = (ci, None) → world_ok (indexer_step ci None (w_timers w) w) cs.
Proof.
  intros Hw Et E. unfold update_begin in E. cbn [storedSections knownSections with_update] in E.
  destruct (Z.ltb_spec (storedSections (w_indexer w)) (knownSections (w_indexer w))); [done|]. injection E as <-.
  apply ok_indexer; [done|destruct (wo_index _ _ Hw); by split|done|cbn; lia| |done|cbn; lia]. intros s Hs. by apply (same_head w cs).
Qed.

Lemma ok_timer w cs n :
  world_ok w cs → w_timers w = S n → world_ok (indexer_step (with_update true (w_indexer w)) (w_task w) n w) cs.
Proof.
  intros Hw Et. apply ok_indexer; [done|destruct (wo_index _ _ Hw); by split|done|cbn; lia| | |by left].
  - intros s Hs. by apply (same_head w cs).
  - intros t Ht. by destruct (wo_task _ _ Hw t Ht).
Qed.

Lemma ok_update w cs ci section oldHead err b :
  world_ok w cs → w_task w = None → update_begin (w_indexer w) = (ci, Some (section, oldHead)) →
  bi_Reset section (w_backend w) = (err, b) →
  let phase := if err : bool then processed None else reading (uint64 (section * sectionSize ci)) oldHead in
  let ci := if err then setValidSections 0 ci else ci in
  let t := {| t_section := section; t_oldHead := oldHead; t_phase := phase |} in
  world_ok (proceed b t (indexer_step ci None (w_timers w) w)) cs.
Proof.
  intros Hw Et Eu Er. pose proof (wo_index _ _ Hw) as Hi. pose proof (io_size _ Hi) as Hpos. destruct (io_stored _ Hi) as [Hst0 Hst]. destruct (io_known _ Hi) as [_ Hk].
  pose proof (ch_top _ (wo_chain _ _ Hw)) as Htop. pose proof (wo_backend _ _ Hw) as Hbs.
  destruct (bi_Reset_ok (at_ (w_chain w)) section (w_backend w)) as (b' & Er' & Hinv); [by rewrite Hbs|rewrite Hbs; apply (io_size8 _ Hi)|].
  rewrite Er' in Er. injection Er as <- <-. rewrite Hbs in Hinv. unfold update_begin in Eu. cbn [storedSections knownSections with_update] in Eu.
  destruct (Z.ltb_spec (storedSections (w_indexer w)) (knownSections (w_indexer w))) as [Hlt|]; [|done]. injection Eu as <- Esec Eold.
  rewrite Esec in Eold. cbv zeta. cbn [sectionSize with_update]. rewrite uint64_id by (unfold is_uint64; nia). set (t := {| t_section := section |}).
  assert (world_ok (proceed b' t w) cs) as Hw'.
  { apply ok_proceed; [done|by rewrite (si_size _ _ _ _ _ _ Hinv)|rewrite (si_db _ _ _ _ _ _ Hinv); apply (wo_assigned _ _ Hw)|by rewrite (si_db _ _ _ _ _ _ Hinv)|].
    split; cbn; [lia|nia|lia| |].
    - intros Hs. rewrite <-Eold, (proj2 (Z.ltb_lt _ _) Hs). change (SectionHead (section - 1) (w_indexer w) ≠ 0). apply (io_below _ Hi). lia.
    - split; [nia|]. split; [apply (si_section _ _ _ _ _ _ Hinv)|]. split; [destruct (si_gen _ _ _ _ _ _ Hinv) as (g & -> & _); done|]. split; [lia|].
      intros [_ Hag]. rewrite Z.sub_diag, (si_db _ _ _ _ _ _ Hinv). rewrite <-Eold. destruct (Z.ltb_spec 0 section).
      + destruct (wo_sections _ _ Hw (section - 1)) as (H1 & H2 & _); [lia|by replace (section - 1 + 1) with section by lia|].
        replace (section - 1 + 1) with section in * by lia. done.
      + replace section with 0 in * by lia. split; [lia|]. split; [done|exact Hinv]. }
  apply (ok_indexer (proceed b' t w) cs (with_update false (w_indexer w)) (Some t)); [done|destruct Hi; by split|done|cbn; lia| | |done].
  - intros s Hs. by apply (same_head (proceed b' t w) cs).
  - intros t' [= <-]. by destruct (wo_task _ _ Hw' t eq_refl).
Qed.

Lemma load_ok c size confirm :
  index_ok c → size = sectionSize c → confirm = confirmsReq c →
  NewChainIndexer (indexDb c) size confirm =
    {| indexDb := indexDb c; sectionSize := size; confirmsReq := confirm; storedSections := storedSections c;
       knownSections := 0; cascadedHead := 0; ci_update := false |}.
Proof.
  intros Hi -> ->. unfold NewChainIndexer, loadValidSections. cbn [indexDb]. destruct (io_stored _ Hi). pose proof (io_size _ Hi).
  destruct (io_count _ Hi) as [->|[-> ->]]; [|done]. rewrite length_be_bytes, SetBytes_be_bytes, Z.mod_small by (cbn; nia). done.
Qed.

Lemma ok_restart w cs :
  world_ok w cs → w_events w = [] →
  let c := NewChainIndexer (indexDb (w_indexer w)) (sectionSize (w_indexer w)) (confirmsReq (w_indexer w)) in
  let b := w_backend w in
  world_ok {| w_indexer := (newHead (uint64 (top (w_chain w))) false c).1;
              w_backend := {| bi_size := bi_size b; bi_db := bi_db b; bi_gen := None; bi_section := 0; bi_head := 0 |};
              w_task := None; w_timers := 0; w_prev := at_ (w_chain w) (top (w_chain w)); w_events := []; w_chain := w_chain w |} cs.
Proof.
  intros Hw Ee. pose proof (wo_index _ _ Hw) as Hi. pose proof (ch_top _ (wo_chain _ _ Hw)) as Htop. cbv zeta. rewrite load_ok, uint64_id by (done || unfold is_uint64; lia).
  assert (cs = [w_chain w]) as ->.
  { pose proof (wo_heads _ _ Hw) as Hh. rewrite Ee in Hh. pose proof (wo_last _ _ Hw) as Hl. destruct cs as [|c [|c' cs]]; [done| |done]. by injection Hl as ->. }
  set (c := {| indexDb := indexDb (w_indexer w) |}). assert (index_ok c) as Hic by (destruct Hi; by split).
  destruct (newHead_grow (top (w_chain w)) c Hic) as (k & u & -> & Hi' & Hku); [lia|]. destruct Hw. split; cbn; try done.
  - intros c1 [= <-] Hlt. destruct Hku as [[-> _]|(_ & _ & ?)]; [cbn in Hlt; destruct (io_stored _ Hi); lia|done].
  - intros _ Hlt. left. destruct Hku as [[-> _]|[-> _]]; [cbn in Hlt; destruct (io_stored _ Hi); lia|done].
Qed.

Lemma ok_start w : fresh_start w → world_ok w [w_chain w].
Proof.
  intros [(size & confirm & Ei) (H0 & H8 & Hconf) Hb (Et & En & Ee) (Hc & Ha & Hp)]. pose proof (ch_top _ Hc) as Htop.
  set (c := NewChainIndexer {| entries := ∅ |} size confirm) in Ei.
  assert (c = {| indexDb := {| entries := ∅ |}; sectionSize := size; confirmsReq := confirm; storedSections := 0; knownSections := 0; cascadedHead := 0; ci_update := false |}) as Ec by done.
  assert (0 < size ∧ size mod 8 = 0 ∧ 0 <= confirm) as (H0' & H8' & Hconf').
  { assert (sectionSize (w_indexer w) = size ∧ confirmsReq (w_indexer w) = confirm) as [<- <-]; [|done].
    rewrite Ei, Ec. unfold newHead. cbn. by repeat case_match. }
  assert (index_ok c) as Hic. { rewrite Ec. split; cbn; try done; try lia; try (by right). }
  destruct (newHead_grow (top (w_chain w)) c Hic) as (k & u & E & Hi' & Hku); [lia|]. rewrite E in Ei.
  split; try done; rewrite ?Ei, ?Et, ?En, ?Ee; cbn; try done.
  - by apply Forall_singleton.
  - by apply Forall_singleton.
  - by rewrite Hp.
  - intros c1 [= <-] Hlt. destruct Hku as [[-> _]|(_ & _ & ?)]; [by cbn in Hlt|done].
  - intros s Hs. rewrite Ec in Hs. cbn in Hs. lia.
  - intros _ Hlt. left. destruct Hku as [[-> _]|[-> _]]; [by cbn in Hlt|done].
Qed.

Lemma ok_step w w' cs : calm_step w w' → world_ok w cs → ∃ cs', world_ok w' cs'.
Proof.
  intros [Hstep Hcalm] Hw. destruct Hstep; eexists.
  - by apply ok_chain.
  - by eapply ok_event.
  - by eapply ok_update.
  - by eapply ok_no_update.
  - by eapply ok_header.
  - by eapply ok_commit.
  - by eapply ok_finish.
  - by eapply ok_timer.
  - by eapply ok_restart.
Qed.

Lemma ok_reachable w0 w : fresh_start w0 → rtc calm_step w0 w → ∃ cs, world_ok w cs.
Proof.
  intros H0 Hr. assert (∃ cs, world_ok w0 cs) as H by (eexists; by apply ok_start). clear H0.
  induction Hr as [|w0 w1 w Hs _ IH]; [done|]. destruct H as [cs Hw]. by eapply IH, ok_step.
Qed.

(** ** Progress *)

Lemma calm_same w w' : w_chain w' = w_chain w → calm w w'.
Proof. intros E t ? size _. rewrite E. apply keeps_refl. Qed.

(** All events have been taken. *)
Definition quiet (w : world) : Prop := world_ok w [w_chain w].

Lemma quiet_events w : quiet w → w_events w = [].
Proof. intros Hw. pose proof (wo_heads _ _ Hw) as Hh. by injection Hh as _ ->. Qed.

Lemma quiet_of w cs : world_ok w cs → w_events w = [] → quiet w.
Proof.
  intros Hw Ee. pose proof (wo_heads _ _ Hw) as Hh. pose proof (wo_last _ _ Hw) as Hl. rewrite Ee in Hh.
  destruct cs as [|c [|c' cs]]; [done| |done]. by injection Hl as ->.
Qed.

(** The headers of a section are read and its vectors are written. *)
Lemma section_done n : ∀ w t number lastHead,
  quiet w → w_task w = Some t → t_phase t = reading number lastHead → storedSections (w_indexer w) = t_section t →
  let e := (t_section t + 1) * sectionSize (w_indexer w) in e <= top (w_chain w) + 1 → e - number = Z.of_nat n →
  ∃ b h, rtc calm_step w (proceed b (with_phase (processed (Some h)) t) w) ∧ quiet (proceed b (with_phase (processed (Some h)) t) w).
Proof.
  induction n as [|n IH]; intros w t number lastHead Hw Et Ep Est e Htop Hn; pose proof (wo_task _ _ Hw t Et) as Ht;
    pose proof (section_end_ok _ _ _ Hw Ht) as Ee; pose proof (io_size _ (wo_index _ _ Hw)) as Hpos; pose proof (tk_phase _ _ _ Ht) as Hph;
    unfold phase_ok in Hph; rewrite Ep in Hph; destruct Hph as (Hb & Hsec & Hgen & Hl & Hcur); destruct Hcur as (Hnt & El & Hinv); try done;
    pose proof (tk_section _ _ _ Ht) as Hs.
  - replace number with e in Hinv by lia. unfold e in Hinv.
    replace (Z.to_nat _) with (Z.to_nat (sectionSize (w_indexer w))) in Hinv by lia.
    destruct (bi_Commit_ok _ _ _ _ _ Hinv Hpos (io_size8 _ (wo_index _ _ Hw))) as (b & Eb & _).
    { pose proof (tk_end _ _ _ Ht). unfold is_uint64. nia. }
    exists b, lastHead. split.
    + apply rtc_once. split; [|by apply calm_same]. by apply (step_commit ReadHeader w t number lastHead (inr b)); [done|done|lia|].
    + by apply (ok_commit w _ t number lastHead (inr b)); [done|done|done|lia|].
  - pose proof (canonical_of _ _ (wo_chain _ _ Hw) (wo_assigned _ _ Hw)) as Hcn. pose proof (cn_head _ _ _ _ Hcn) as Hh.
    destruct (process_one ReadHeader _ _ _ _ _ _ _ Hcn Hinv Hpos Hs) as (b & Eb & _); [lia|lia|].
    replace (_ + Z.of_nat (Z.to_nat _)) with number in Eb by lia. rewrite <-El in Eb. set (h := last_hash (at_ (w_chain w)) (number + 1)) in Eb.
    set (t1 := with_phase (reading (uint64 (number + 1)) h) t).
    assert (calm_step w (proceed b t1 w)) as Hstep.
    { split; [|by apply calm_same]. by apply (step_header ReadHeader w t number lastHead (inr (h, b))); [done|done|lia|]. }
    assert (quiet (proceed b t1 w)) as Hw1 by (by apply (ok_header w _ t number lastHead (inr (h, b))); [done|done|done|lia|]).
    destruct (IH (proceed b t1 w) t1 (number + 1) h Hw1) as (b2 & h2 & Hr & Hw2); [done| |done|done|cbn; lia|].
    { cbn. rewrite uint64_id by (unfold is_uint64; nia). done. }
    exists b2, h2. split; [|exact Hw2]. eapply rtc_l; [exact Hstep|exact Hr].
Qed.

(** The update loop takes up a section and processes it. *)
Lemma section_processed w :
  quiet w → w_task w = None → ci_update (w_indexer w) = true → storedSections (w_indexer w) < knownSections (w_indexer w) →
  let s := storedSections (w_indexer w) in let oldHead := if 0 <? s then SectionHead (s - 1) (w_indexer w) else 0 in
  ∃ b h, let t := {| t_section := s; t_oldHead := oldHead; t_phase := processed (Some h) |} in
    let w' := proceed b t (indexer_step (with_update false (w_indexer w)) None (w_timers w) w) in
    rtc calm_step w w' ∧ quiet w'.
Proof.
  intros Hw Et Eu Hlt s oldHead. pose proof (wo_index _ _ Hw) as Hi. pose proof (io_size _ Hi) as Hpos. destruct (io_stored _ Hi) as [H0 _]. destruct (io_known _ Hi) as [_ Hk].
  fold s in H0, Hlt.
  assert (update_begin (w_indexer w) = (with_update false (w_indexer w), Some (s, oldHead))) as Eb.
  { unfold update_begin. cbn [storedSections knownSections with_update]. fold s. by rewrite (proj2 (Z.ltb_lt _ _) Hlt). }
  destruct (bi_Reset_ok (at_ (w_chain w)) s (w_backend w)) as (b & Er & _); [by rewrite (wo_backend _ _ Hw)|rewrite (wo_backend _ _ Hw); apply (io_size8 _ Hi)|].
  pose proof (step_update ReadHeader w _ _ _ _ _ Et Eu Eb Er) as Hstep. pose proof (ok_update w _ _ _ _ _ _ Hw Et Eb Er) as Hw1. cbv zeta iota in Hstep, Hw1.
  set (w1 := proceed b _ _) in *. set (t := {| t_section := s |}) in *.
  assert (knownSections (w_indexer w) * sectionSize (w_indexer w) <= top (w_chain w) + 1) as Htop by (by apply (wo_known _ _ Hw)).
  destruct (section_done (Z.to_nat (sectionSize (w_indexer w))) w1 t (s * sectionSize (w_indexer w)) oldHead Hw1) as (b2 & h & Hr & Hw2);
    [done|cbn; rewrite uint64_id by (unfold is_uint64; nia); done|done|cbn; nia|cbn; nia|].
  exists b2, h. split; [|exact Hw2]. eapply rtc_l; [split; [exact Hstep|by apply calm_same]|exact Hr].
Qed.

(** The end of a section that has been processed, when none before it has been dropped *)
Lemma update_end_records s oldHead h c :
  index_ok c → storedSections c = s → oldHead = (if 0 <? s then SectionHead (s - 1) c else 0) → 0 < h < 2 ^ 256 → (s + 1) * sectionSize c <= 2 ^ 63 →
  let c' := (update_end s oldHead (Some h) c).1 in
  storedSections c' = s + 1 ∧ knownSections c' = knownSections c ∧ sectionSize c' = sectionSize c ∧ SectionHead s c' = h.
Proof.
  intros Hi Est Eold Hh Hb. pose proof (io_size _ Hi) as Hpos. destruct (io_stored _ Hi) as [H0 _]. unfold update_end.
  assert (oldHead = SectionHead (uint64 (s - 1)) c) as ->.
  { rewrite Eold. destruct (Z.ltb_spec 0 s); [by rewrite uint64_id by (unfold is_uint64; nia)|]. symmetry. apply (io_above _ Hi).
    rewrite Est. by replace s with 0 by lia. }
  rewrite Z.eqb_refl. destruct (record_section s h c Hi Est Hh Hb) as (_ & E & Hsh).
  set (c1 := setValidSections (uint64 (s + 1)) (setSectionHead s h c)) in *.
  assert (storedSections c1 = s + 1 ∧ knownSections c1 = knownSections c ∧ sectionSize c1 = sectionSize c) as (E1 & E2 & E3) by (rewrite E; done).
  split; [exact E1|]. split; [exact E2|]. split; [exact E3|]. change (SectionHead s c1 = h). rewrite Hsh, Z.eqb_refl by lia. done.
Qed.

(** The update loop indexes one more section. *)
Lemma one_section w :
  quiet w → w_task w = None → ci_update (w_indexer w) = true → storedSections (w_indexer w) < knownSections (w_indexer w) →
  ∃ w', rtc calm_step w w' ∧ quiet w' ∧ w_chain w' = w_chain w ∧ w_task w' = None ∧
    storedSections (w_indexer w') = storedSections (w_indexer w) + 1 ∧ knownSections (w_indexer w') = knownSections (w_indexer w) ∧
    sectionSize (w_indexer w') = sectionSize (w_indexer w).
Proof.
  intros Hw Et Eu Hlt. destruct (section_processed w Hw Et Eu Hlt) as (b & h & Hr & Hw2). cbv zeta in Hr, Hw2.
  pose proof (wo_index _ _ Hw) as Hi. pose proof (io_size _ Hi) as Hpos. destruct (io_stored _ Hi) as [H0 _]. destruct (io_known _ Hi) as [_ Hk].
  set (s := storedSections (w_indexer w)) in *. set (oldHead := if 0 <? s then _ else _) in *. set (w2 := proceed b _ _) in *.
  pose proof (step_finish ReadHeader w2 _ (Some h) eq_refl eq_refl) as Hfin. pose proof (ok_finish w2 _ _ (Some h) Hw2 eq_refl eq_refl) as Hw3.
  cbn [t_section t_oldHead] in Hfin, Hw3. cbv zeta in Hfin, Hw3. eexists. split; [|split; [exact Hw3|]].
  - etrans; [exact Hr|]. apply rtc_once. split; [exact Hfin|by apply calm_same].
  - split; [done|]. split; [done|].
    assert (0 < h < 2 ^ 256) as Hh by apply (tk_phase _ _ _ (wo_task _ _ Hw2 _ eq_refl)).
    destruct (update_end_records s oldHead h (w_indexer w2) (wo_index _ _ Hw2)) as (Es & Ek & Ez & _); [done|done|done|cbn; nia|]. done.
Qed.

(** All sections that are known to be complete are indexed. *)
Lemma catch_up n : ∀ w,
  quiet w → w_task w = None → knownSections (w_indexer w) - storedSections (w_indexer w) <= Z.of_nat n →
  ∃ w', rtc calm_step w w' ∧ quiet w' ∧ w_chain w' = w_chain w ∧ w_task w' = None ∧ sectionSize (w_indexer w') = sectionSize (w_indexer w) ∧
    storedSections (w_indexer w') = Z.max (storedSections (w_indexer w)) (knownSections (w_indexer w)).
Proof.
  induction n as [|n IH]; intros w Hw Et Hn.
  { exists w. split; [apply rtc_refl|]. rewrite Z.max_l by lia. done. }
  destruct (Z.lt_ge_cases (storedSections (w_indexer w)) (knownSections (w_indexer w))) as [Hlt|].
  2: { exists w. split; [apply rtc_refl|]. rewrite Z.max_l by lia. done. }
  assert (∃ w1, rtc calm_step w w1 ∧ quiet w1 ∧ w_chain w1 = w_chain w ∧ w_task w1 = None ∧ ci_update (w_indexer w1) = true ∧
    storedSections (w_indexer w1) = storedSections (w_indexer w) ∧ knownSections (w_indexer w1) = knownSections (w_indexer w) ∧
    sectionSize (w_indexer w1) = sectionSize (w_indexer w)) as (w1 & Hr1 & Hw1 & Ec1 & Et1 & Eu1 & Es1 & Ek1 & Ez1).
  { destruct (wo_scheduled _ _ Hw Et Hlt) as [Eu|Htm]; [exists w; split; [apply rtc_refl|done]|].
    destruct (w_timers w) as [|m] eqn:Em; [done|]. exists (indexer_step (with_update true (w_indexer w)) (w_task w) m w).
    split; [apply rtc_once; split; [by apply (step_timer ReadHeader)|by apply calm_same]|]. split; [by apply ok_timer|done]. }
  destruct (one_section w1 Hw1 Et1 Eu1) as (w2 & Hr2 & Hw2 & Ec2 & Et2 & Es2 & Ek2 & Ez2); [lia|].
  destruct (IH w2 Hw2 Et2) as (w3 & Hr3 & Hw3 & Ec3 & Et3 & Ez3 & Es3); [lia|]. exists w3. split; [etrans; [exact Hr1|]; etrans; [exact Hr2|exact Hr3]|].
  split; [done|]. split; [congruence|]. split; [done|]. split; [congruence|]. rewrite Es3. lia.
Qed.
End loops.

(** ** Theorems *)

(** C16: searching logs through the index is exact in every state the node can reach:
    after any interleaving of changes of the chain, events, steps of the update
    loop, timers and restarts (with no event outstanding) in which no switch of the chain takes away blocks that
    the section in work has been made from (while it leaves the earlier sections
    alone), and once the outstanding events have been taken, a range filter returns
    exactly the logs that a look at every block of the present chain would find, in
    order, and without an error.  In particular every section that is recorded
    is a section of this chain, and its vectors are those of its blooms. *)
Theorem reachable_search_exact {CRYPTO : Crypto} {ARCH : Arch} {BACKEND : Backend} ReadHeader w0 w receipts b e addrs tops :
  one_number ReadHeader → fresh_start ReadHeader w0 → rtc (calm_step ReadHeader) w0 w → w_events w = [] →
  sectionSize (w_indexer w) = BloomBitsBlocks → BloomStatus = (BloomBitsBlocks, (Sections (w_indexer w)).1.1) →
  let head := top (w_chain w) in serves_chain head (at_ (w_chain w)) receipts →
  let begin := if b =? -1 then head else b in let end_ := if e =? -1 then head else e in
  0 <= begin → begin <= end_ → end_ <= head →
  ∃ f', Logs (λ bit s, default [] (retrieve (bi_db (w_backend w)) bit s)) (NewRangeFilter b e addrs tops) =
      Some (zrange begin end_ ≫= λ k, filterLogs (receipts k ≫= rc_Logs) None None addrs tops, false, f') ∧
    f_begin f' = end_ + 1.
Proof.
  intros Hone H0 Hr Ee Esz Est head Hc begin end_ Hb Hbe He.
  destruct (ok_reachable ReadHeader Hone w0 w H0 Hr) as [cs Hw]. apply quiet_of in Hw; [|done].
  destruct (io_stored _ (wo_index _ _ _ Hw)) as [Hst0 _]. cbn [Sections fst] in Est.
  set (fetch := λ bit s, default [] (retrieve (bi_db (w_backend w)) bit s)).
  assert (∀ s, 0 <= s < storedSections (w_indexer w) → indexed_section (w_chain w) (w_indexer w) (bi_db (w_backend w)) s) as Hix0.
  { intros s Hs. by apply (wo_sections _ _ _ Hw). }
  assert (indexed fetch head (at_ (w_chain w))) as Hix.
  { split; rewrite ?Est; cbn [fst snd]; [done|done| |].
    - split; [done|]. destruct (Z.eq_dec (storedSections (w_indexer w)) 0) as [->|Hne]; [pose proof (ch_top _ (wo_chain _ _ _ Hw)); unfold head; lia|].
      destruct (Hix0 (storedSections (w_indexer w) - 1)) as [Ht _]; [lia|]. rewrite Esz in Ht. unfold head. lia.
    - intros s Hs. destruct (Hix0 s Hs) as (Ht & _ & Hst). rewrite Esz in Ht, Hst.
      apply (stored_delivered ReadHeader _ (top (w_chain w))); [|done|lia|done].
      apply canonical_of; [apply (wo_chain _ _ _ Hw)|apply (wo_assigned _ _ _ Hw)]. }
  destruct (Logs_ok fetch head (at_ (w_chain w)) receipts b e addrs tops Hc Hix Hb Hbe He) as (f' & E & Ef). by exists f'.
Qed.

(** C17: the index catches up: from every such state in which no event is outstanding and
    no section is in work there is a run, without a change of the chain, that ends
    with all sections that are known to be complete recorded and stored. *)
Theorem index_catches_up {CRYPTO : Crypto} ReadHeader w0 w :
  one_number ReadHeader → fresh_start ReadHeader w0 → rtc (calm_step ReadHeader) w0 w → w_events w = [] → w_task w = None →
  ∃ w', rtc (calm_step ReadHeader) w w' ∧ w_chain w' = w_chain w ∧ w_task w' = None ∧
    storedSections (w_indexer w') = Z.max (storedSections (w_indexer w)) (knownSections (w_indexer w)) ∧
    ∀ s, 0 <= s < knownSections (w_indexer w) → indexed_section (w_chain w') (w_indexer w') (bi_db (w_backend w')) s.
Proof.
  intros Hone H0 Hr Ee Et. destruct (ok_reachable ReadHeader Hone w0 w H0 Hr) as [cs Hw]. apply quiet_of in Hw; [|done].
  destruct (catch_up ReadHeader (Z.to_nat (knownSections (w_indexer w) - storedSections (w_indexer w))) w Hw Et) as (w' & Hr' & Hw' & Ec & Et' & _ & Es); [lia|].
  exists w'. split; [done|]. split; [done|]. split; [done|]. split; [done|]. intros s Hs. apply (wo_sections _ _ _ Hw'); [lia|done].
Qed.

(** ** Concrete chains

    A hash that is one more than the nonce of a header, which the encoding of the
    header ends with, and two chains of at most 4101 blocks that part after block 3. *)
#[refine] Definition nonce_crypto : Crypto :=
  {| Keccak256 := λ l, be_bytes 32 (SetBytes (drop (length l - 8) l) + 1); sha256_Sum256 := @sha256_Sum256 sample_crypto;
     ripemd160_Sum := @ripemd160_Sum sample_crypto; Ecrecover := λ _ _, Some (zb 4 :: zeros 64);
     G1 := (); G2 := (); G1_Unmarshal := λ _, Some (); G2_Unmarshal := λ _, Some ();
     G1_Marshal := λ _, zeros 64; G1_Add := λ _ _, (); G1_ScalarMult := λ _ _, (); PairingCheck := λ _ _, true |}.
Proof.
  - intros. apply length_be_bytes.
  - apply (@length_sha256 sample_crypto).
  - apply (@length_ripemd160 sample_crypto).
  - by intros h s p [= <-].
  - done.
Defined.
#[local] Existing Instance nonce_crypto | 100.

(** A log with the same address and topic is in every block. *)
Definition fork_log : Log := {| log_Address := 7; log_Topics := [5]; log_Data := []; log_BlockNumber := 0 |}.
Definition fork_receipt : Receipt :=
  {| PostState := []; Status := 1; CumulativeGasUsed := 0; rc_Bloom := zeros 256; rc_Logs := [fork_log];
     rc_TxHash := 0; ContractAddress := 0; rc_GasUsed := 0 |}.
Definition fork_bloom : Z := SetBytes (default [] (CreateBloom [fork_receipt])).

Definition fork_nonce (other : bool) (n : Z) : Z := if other && (4 <=? n) then n + 8192 else n.
Definition fork_header (other : bool) (n : Z) : Header :=
  {| Block.ParentHash := if n =? 0 then 0 else fork_nonce other (n - 1) + 1; Block.UncleHash := 0; Block.Coinbase := 0; Block.Root := 0;
     Block.TxHash := 0; Block.ReceiptHash := 0; Block.Bloom := fork_bloom; Block.Difficulty := 1; Block.Number := n; Block.GasLimit := 0;
     Block.GasUsed := 0; Block.Time := 0; Block.Extra := []; Block.MixDigest := 0; Block.Nonce := fork_nonce other n |}.
Definition fork_chain (last : Z) (other : bool) : chain := {| at_ := fork_header other; top := last |}.

Definition fork_read (hash : Hash) (n : Z) : option Header :=
  if negb ((0 <=? n) && (n <=? 4100)) then None
  else if hash =? n + 1 then Some (fork_header false n)
  else if (4 <=? n) && (hash =? n + 8193) then Some (fork_header true n) else None.

Lemma zlen_enc_str_bound l n : zlen l <= n → n < 2 ^ 64 → zlen (Rlp.enc_str l) <= n + 9.
Proof.
  intros Hl Hn. pose proof (zlen_nonneg l) as H0. assert (zlen (Bytes (zlen l)) <= 8) as Hb by (apply zlen_Bytes_bound; lia).
  assert (zlen (Rlp.enc_head 0x80 0xB7 (zlen l)) <= 9) as Hh.
  { unfold Rlp.enc_head. destruct (_ <? 56); [by vm_compute|]. unfold zlen in *. cbn [length]. lia. }
  assert (zlen (Rlp.enc_head 0x80 0xB7 (zlen l) ++ l) <= n + 9) as Happ by (rewrite zlen_app; lia).
  unfold Rlp.enc_str. destruct l as [|x [|y l]]; [exact Happ| |exact Happ]. destruct (bz x <=? 127); [lia|exact Happ].
Qed.

(** The fields of a header, as byte strings, before its nonce *)
Definition fork_fields (other : bool) (n : Z) : list (list byte) :=
  let h := fork_header other n in
  [HashBytes (Block.ParentHash h); HashBytes 0; AddressBytes 0; HashBytes 0; HashBytes 0; HashBytes 0; be_bytes 256 (Block.Bloom h);
   Bytes 1; Bytes n; Bytes 0; Bytes 0; Bytes 0; []; HashBytes 0].

Lemma enc_str_8 x : length x = 8%nat → Rlp.enc_str x = zb 0x88 :: x.
Proof. intros Hx. destruct x as [|x0 [|x1 x]]; [done..|]. unfold Rlp.enc_str, Rlp.enc_head, zlen. by rewrite Hx. Qed.

Lemma concat_enc_bound (ls : list (list byte)) b :
  Forall (λ l, zlen l <= b) ls → 0 <= b < 2 ^ 64 → zlen (concat (map Rlp.enc (Rlp.Str <$> ls))) <= zlen ls * (b + 9).
Proof.
  intros Hls Hb. induction Hls as [|l ls Hl Hls IH]; [done|]. cbn [fmap list_fmap map concat Rlp.enc].
  pose proof (zlen_enc_str_bound l b Hl ltac:(lia)). rewrite zlen_app. replace (zlen (l :: ls)) with (1 + zlen ls) by (unfold zlen; cbn [length]; lia). lia.
Qed.

Lemma fork_encoding other n :
  0 <= n <= 4100 → ∃ pre, Rlp.EncodeToBytes (header_value (fork_header other n)) = Some (Some (pre ++ be_bytes 8 (fork_nonce other n))).
Proof.
  intros Hn. set (x := be_bytes 8 (fork_nonce other n)). assert (length x = 8%nat) as Hx by apply length_be_bytes.
  set (c := concat (map Rlp.enc (Rlp.Str <$> (fork_fields other n ++ [x])))).
  assert (zlen c <= 15 * 265) as Hc.
  { apply (concat_enc_bound (fork_fields other n ++ [x]) 256); [|lia]. apply Forall_app. split; [|by apply Forall_singleton; unfold zlen; lia].
    assert (zlen (Bytes n) <= 256) by (apply zlen_Bytes_bound; lia).
    repeat constructor; try done; unfold zlen, HashBytes, AddressBytes; rewrite ?length_be_bytes; done. }
  assert (Rlp.EncodeToBytes (header_value (fork_header other n)) = Some (Some (Rlp.enc (Rlp.Lst (Rlp.Str <$> (fork_fields other n ++ [x])))))) as ->.
  { apply Rlp.EncodeToBytes_enc.
    - cbn -[be_bytes Bytes]. by destruct (Z.ltb_spec n 0); [lia|].
    - by cbn.
    - cbn [Rlp.enc]. fold c. rewrite zlen_app. unfold Rlp.enc_head. destruct (_ <? 56); [change (zlen [_]) with 1; lia|].
      assert (zlen (Bytes (zlen c)) <= 8) by (apply zlen_Bytes_bound; [lia|pose proof (zlen_nonneg c); lia]).
      unfold zlen in *. cbn [length]. lia. }
  exists (Rlp.enc_head 0xC0 0xF7 (zlen c) ++ concat (map Rlp.enc (Rlp.Str <$> fork_fields other n)) ++ [zb 0x88]). apply f_equal, f_equal.
  cbn [Rlp.enc]. fold c. rewrite <-!app_assoc. f_equal. unfold c. rewrite fmap_app, map_app, concat_app.
  apply f_equal. cbn [fmap list_fmap map concat Rlp.enc]. by rewrite enc_str_8, app_nil_r.
Qed.

Lemma fork_hash other n : 0 <= n <= 4100 → Header_Hash (fork_header other n) = fork_nonce other n + 1.
Proof.
  intros Hn. unfold Header_Hash, rlpHash, Keccak256Hash. destruct (fork_encoding other n Hn) as [pre ->]. cbn [Keccak256 nonce_crypto].
  rewrite length_app, length_be_bytes, Nat.add_sub, drop_app_length, SetBytes_be_bytes.
  assert (0 <= fork_nonce other n < 2 ^ 63) as Hr by (unfold fork_nonce; destruct (_ && _); lia).
  rewrite Z.mod_small by (cbn; lia). apply BytesToHash_HashBytes. lia.
Qed.

Lemma fork_read_some hash n h : fork_read hash n = Some h → 0 <= n <= 4100 ∧ (hash = n + 1 ∨ hash = n + 8193 ∧ 4 <= n).
Proof.
  unfold fork_read. destruct (negb _) eqn:E1; [done|]. destruct (Z.eqb_spec hash (n + 1)); [lia|].
  destruct (Z.leb_spec 4 n), (Z.eqb_spec hash (n + 8193)); (done || lia).
Qed.

Lemma fork_one_number : one_number fork_read.
Proof. intros hash n n' h h' H%fork_read_some H'%fork_read_some. lia. Qed.

Lemma fork_header_low n : n < 4 → fork_header true n = fork_header false n.
Proof. intros Hn. unfold fork_header, fork_nonce. cbn [andb]. destruct (Z.leb_spec 4 n), (Z.leb_spec 4 (n - 1)); (lia || done). Qed.

Lemma fork_read_hash other n : 0 <= n <= 4100 → fork_read (fork_nonce other n + 1) n = Some (fork_header other n).
Proof.
  intros Hn. unfold fork_read. destruct (negb _) eqn:E1; [lia|]. unfold fork_nonce at 1 2. destruct other; cbn [andb]; [|by rewrite Z.eqb_refl].
  destruct (Z.leb_spec 4 n).
  - destruct (Z.eqb_spec (n + 8192 + 1) (n + 1)); [lia|]. destruct (Z.eqb_spec (n + 8192 + 1) (n + 8193)); [done|lia].
  - by rewrite Z.eqb_refl, fork_header_low.
Qed.

Lemma fork_chain_ok last other : 0 <= last <= 4100 → chain_ok fork_read (fork_chain last other).
Proof.
  intros Hl. split; cbn [top fork_chain at_]; [lia|intros n Hn; rewrite fork_hash by lia..|done| |done].
  - unfold fork_nonce. destruct (_ && _); lia.
  - apply fork_read_hash. lia.
  - intros n Hn. rewrite fork_hash by lia. cbn [fork_header Block.ParentHash]. by destruct (Z.eqb_spec n 0); [lia|].
Qed.

(** The numbers of the blocks of a chain are written. *)
Definition write_chain (last : Z) (other : bool) (db : MemDatabase) : MemDatabase :=
  foldr (λ n, WriteCanonicalHash (fork_nonce other n + 1) n) db (zrange 0 last).

Lemma headerHashKey_inj n n' : is_uint64 n → is_uint64 n' → headerHashKey n = headerHashKey n' → n = n'.
Proof.
  intros Hn Hn' E. apply (f_equal (@tail byte)) in E. cbn [tail headerHashKey] in E. apply app_inv_tail in E.
  apply (f_equal SetBytes) in E. unfold encodeBlockNumber, is_uint64 in *. rewrite !SetBytes_be_bytes, !Z.mod_small in E by (cbn; lia). done.
Qed.

Lemma read_written h n m db :
  0 <= h < 2 ^ 256 → is_uint64 n → is_uint64 m → ReadCanonicalHash (WriteCanonicalHash h n db) m = if m =? n then h else ReadCanonicalHash db m.
Proof.
  intros Hh Hn Hm. unfold ReadCanonicalHash, mem_Get, WriteCanonicalHash. cbn [mem_Put entries]. destruct (Z.eqb_spec m n) as [->|Hne].
  - rewrite lookup_insert_eq. pose proof (length_HashBytes h) as El. destruct (HashBytes h) eqn:E; [done|]. rewrite <-E. by apply BytesToHash_HashBytes.
  - rewrite lookup_insert_ne; [done|]. intros E. by apply headerHashKey_inj in E.
Qed.

Lemma write_chain_read last other db m :
  0 <= last <= 4100 → is_uint64 m → ReadCanonicalHash (write_chain last other db) m = if m <=? last then fork_nonce other m + 1 else ReadCanonicalHash db m.
Proof.
  intros Hl Hm. unfold write_chain. set (l := zrange 0 last). assert (Forall (λ n, 0 <= n <= 4100) l) as Hf.
  { apply list.Forall_forall. intros n Hn. apply elem_of_zrange in Hn. lia. }
  transitivity (if decide (m ∈ l) then fork_nonce other m + 1 else ReadCanonicalHash db m).
  - induction Hf as [|n l' Hn Hf IH]; cbn [foldr]; [done|].
    rewrite read_written, IH by (done || unfold is_uint64, fork_nonce; try destruct (_ && _); lia).
    destruct (Z.eqb_spec m n) as [->|Hne]; [by rewrite decide_True by set_solver|].
    by apply decide_ext; set_solver.
  - unfold l, is_uint64 in *. destruct (Z.leb_spec m last); [by rewrite decide_True by (apply elem_of_zrange; lia)|].
    by rewrite decide_False by (rewrite elem_of_zrange; lia).
Qed.

Lemma write_chain_renumbered last other db : renumbered db (write_chain last other db).
Proof.
  intros key Hkey. unfold write_chain. induction (zrange 0 last) as [|n l IH]; [done|]. cbn. by rewrite lookup_insert_ne.
Qed.

Lemma write_chain_assigned last other db :
  0 <= last <= 4100 → (∀ n, last < n < 2 ^ 64 → ReadCanonicalHash db n = 0) → assigned (fork_chain last other) (write_chain last other db).
Proof.
  intros Hl Hdb. split; cbn [top at_ fork_chain]; intros n Hn; rewrite write_chain_read by (done || unfold is_uint64; lia); destruct (Z.leb_spec n last); try lia.
  - by rewrite fork_hash by lia.
  - by apply Hdb.
Qed.

Definition empty_db : MemDatabase := {| entries := ∅ |}.

(** A node with the first chain, without confirmations *)
Definition fork_start (size last : Z) : world :=
  {| w_indexer := (newHead last false (NewChainIndexer empty_db size 0)).1;
     w_backend := {| bi_size := size; bi_db := write_chain last false empty_db; bi_gen := None; bi_section := 0; bi_head := 0 |};
     w_task := None; w_timers := 0; w_prev := fork_header false last; w_events := []; w_chain := fork_chain last false |}.

Lemma fork_start_indexer size last :
  0 < size → 0 <= last <= 4100 → size <= last + 1 →
  w_indexer (fork_start size last) =
    {| indexDb := empty_db; sectionSize := size; confirmsReq := 0; storedSections := 0; knownSections := (last + 1) / size; cascadedHead := 0; ci_update := true |}.
Proof.
  intros Hs Hl Hle. cbn [fork_start w_indexer].
  assert (NewChainIndexer empty_db size 0 = {| indexDb := empty_db; sectionSize := size; confirmsReq := 0; storedSections := 0;
    knownSections := 0; cascadedHead := 0; ci_update := false |}) as -> by done.
  unfold newHead. cbn [confirmsReq sectionSize knownSections]. destruct (Z.leb_spec 0 last); [|lia]. rewrite Z.sub_0_r, uint64_id by (unfold is_uint64; lia).
  pose proof (Z.div_le_mono size (last + 1) size Hs Hle) as Hd. rewrite Z.div_same in Hd by lia. by destruct (Z.ltb_spec 0 ((last + 1) / size)); [|lia].
Qed.

Lemma fork_start_fresh size last : 0 < size → size mod 8 = 0 → 0 <= last <= 4100 → size <= last + 1 → fresh_start fork_read (fork_start size last).
Proof.
  intros Hs H8 Hl Hle. split; [by exists size, 0|rewrite fork_start_indexer by lia; cbn; lia|by rewrite fork_start_indexer by lia|done|].
  split; [by apply fork_chain_ok|]. split; [|done]. by apply write_chain_assigned.
Qed.

Lemma index_catches_up_witness :
  ∃ w', rtc (calm_step fork_read) (fork_start 8 7) w' ∧ w_chain w' = fork_chain 7 false ∧ w_task w' = None ∧
    storedSections (w_indexer w') = 1 ∧
    ∀ s, 0 <= s < 1 → indexed_section (w_chain w') (w_indexer w') (bi_db (w_backend w')) s.
Proof.
  apply (index_catches_up fork_read (fork_start 8 7) (fork_start 8 7) fork_one_number); [|apply rtc_refl|reflexivity|reflexivity].
  by apply fork_start_fresh.
Defined.

(** The node answers for the first chain, with one section indexed. *)
Definition fork_backend : Backend :=
  {| HeaderByNumber := λ n, Some (Some (fork_header false n)); LatestHeader := Some (fork_header false 4100);
     HeaderByHash := λ _, Some (Some (fork_header false 0)); GetLogs := λ _, Some [[fork_log]];
     GetReceipts := λ _, Some [fork_receipt]; BloomStatus := (BloomBitsBlocks, 1); log_TxHash := λ _, 1 |}.

Lemma fork_serves : @serves_chain nonce_crypto fork_backend 4100 (fork_header false) (λ _, [fork_receipt]).
Proof.
  split; intros; [lia|done|done|done|done|done|].
  destruct (CreateBloom_complete [fork_receipt]) as (bloom & E & Hl & _).
  cbn [fork_header Block.Bloom]. unfold fork_bloom. rewrite E. cbn [default from_option]. f_equal.
  rewrite <-Hl. symmetry. apply be_bytes_SetBytes.
Qed.

(** A run in which the first section of 4096 blocks is indexed *)
Lemma fork_indexed : ∃ w, rtc (calm_step fork_read) (fork_start BloomBitsBlocks 4100) w ∧ w_events w = [] ∧ w_chain w = fork_chain 4100 false ∧
  storedSections (w_indexer w) = 1 ∧ sectionSize (w_indexer w) = BloomBitsBlocks.
Proof.
  assert (quiet fork_read (fork_start BloomBitsBlocks 4100)) as Hw by (by apply ok_start, fork_start_fresh).
  destruct (catch_up fork_read 1 (fork_start BloomBitsBlocks 4100) Hw) as (w & Hr & Hw' & Ec & _ & Ez & Es); [done|by rewrite fork_start_indexer|].
  exists w. split; [exact Hr|]. split; [by apply (quiet_events fork_read)|]. split; [exact Ec|]. split; [by rewrite Es, fork_start_indexer|by rewrite Ez, fork_start_indexer].
Qed.

Lemma reachable_search_exact_witness :
  ∃ w, rtc (calm_step fork_read) (fork_start BloomBitsBlocks 4100) w ∧ storedSections (w_indexer w) = 1 ∧
    ∃ f', @Logs nonce_crypto flat_arch fork_backend (λ bit s, default [] (retrieve (bi_db (w_backend w)) bit s))
        (@NewRangeFilter nonce_crypto fork_backend 4090 (-1) [7] [[5]]) =
        Some (zrange 4090 4100 ≫= λ _, filterLogs [fork_log] None None [7] [[5]], false, f') ∧ f_begin f' = 4101.
Proof.
  destruct fork_indexed as (w & Hr & Ee & Ec & Es & Ez). exists w. split; [exact Hr|]. split; [exact Es|].
  pose proof (@reachable_search_exact nonce_crypto flat_arch fork_backend fork_read (fork_start BloomBitsBlocks 4100) w
    (λ _, [fork_receipt]) 4090 (-1) [7] [[5]] fork_one_number) as Hsearch. rewrite Ec in Hsearch. cbn [Sections fst] in Hsearch. rewrite Es in Hsearch.
  apply Hsearch; [by apply fork_start_fresh|exact Hr|exact Ee|exact Ez|reflexivity|exact fork_serves|..]; vm_compute; congruence.
Defined.

(** *** A section that is no longer part of the chain *)

(** The chain switches to the other one while the first section, which has been
    processed, is not recorded yet; the event loop handles the event. *)
Lemma fork_switch size last b h :
  let w := fork_start size last in let c := with_update false (w_indexer w) in
  let t := {| t_section := 0; t_oldHead := 0; t_phase := processed (Some h) |} in let w1 := proceed b t (indexer_step c None 0 w) in
  4 <= last <= 4100 → quiet fork_read w1 →
  ∃ w3, rtc (ci_step fork_read) w1 w3 ∧ w_task w3 = Some t ∧ w_events w3 = [] ∧ w_chain w3 = fork_chain last true ∧
    index_ok (w_indexer w3) ∧ sectionSize (w_indexer w3) = sectionSize c ∧ storedSections (w_indexer w3) = 0 ∧
    (storedSections (w_indexer w3) < knownSections (w_indexer w3) → knownSections (w_indexer w3) * sectionSize c <= last + 1).
Proof.
  intros w c t w1 Hl Hw. pose proof (wo_assigned _ _ _ Hw) as Ha. pose proof (wo_index _ _ _ Hw) as Hi.
  assert (0 <= last <= 4100) as Hl' by lia.
  pose proof (step_chain fork_read w1 (fork_chain last true) (write_chain last true (bi_db b)) (fork_chain_ok last true Hl') eq_refl
    (write_chain_assigned last true _ Hl' (as_above _ _ Ha)) (write_chain_renumbered _ _ _)) as Hs1.
  destruct (on_event_ok fork_read fork_one_number (fork_chain last false) (fork_chain last true) c) as (c2 & Ec2 & Hi2 & [Esz _] & Est & _ & _ & Hk2 & _);
    [by apply fork_chain_ok|by apply fork_chain_ok|done|done|by apply (wo_known _ _ _ Hw)|].
  set (w2 := {| w_indexer := w_indexer w1 |}) in Hs1. pose proof (step_event fork_read w2 _ [] c2 eq_refl Ec2) as Hs2.
  eexists. split; [eapply rtc_l; [exact Hs1|]; apply rtc_once; exact Hs2|]. split; [done|]. split; [done|]. split; [done|]. split; [done|]. split; [done|].
  split; [|done]. cbn [w_indexer]. destruct (io_stored _ Hi2). pose proof (tk_stored _ _ _ (wo_task _ _ _ Hw t eq_refl)) as Hst. change (storedSections (w_indexer w) <= 0) in Hst.
  change (storedSections c) with (storedSections (w_indexer w)) in Est. lia.
Qed.

(** C36: a reorganisation is missed when it takes away blocks that the section in work has
    already been made from: the update loop compares only the head of the section
    before with the one it began with.  In this run the section of the first eight
    blocks is processed, the chain switches to other blocks from number 4 on, the
    event loop handles the reorganisation, and then the update loop records the
    section with the hash of a block that has left the chain.  No event is
    outstanding and no section is left to do, so it stays recorded. *)
Theorem stale_section_recorded :
  fresh_start fork_read (fork_start 8 7) ∧
  ∃ w, rtc (ci_step fork_read) (fork_start 8 7) w ∧ w_events w = [] ∧ w_task w = None ∧ w_chain w = fork_chain 7 true ∧
    storedSections (w_indexer w) = 1 ∧ knownSections (w_indexer w) <= 1 ∧
    SectionHead 0 (w_indexer w) = Header_Hash (at_ (fork_chain 7 false) 7) ∧
    SectionHead 0 (w_indexer w) ≠ Header_Hash (at_ (w_chain w) 7).
Proof.
  assert (fresh_start fork_read (fork_start 8 7)) as Hfresh by (by apply fork_start_fresh). split; [exact Hfresh|].
  destruct (section_processed fork_read (fork_start 8 7) (ok_start _ _ Hfresh)) as (b & h & Hr & Hw); [done..|]. cbv zeta in Hr, Hw.
  destruct (tk_phase _ _ _ (wo_task _ _ _ Hw _ eq_refl)) as [Hh Hcur]. destruct Hcur as (_ & Eh & _); [done|].
  destruct (fork_switch 8 7 b h) as (w3 & Hr3 & Et & Ee & Ec & Hi & Esz & Est & Hk); [lia|exact Hw|].
  change (sectionSize (with_update false (w_indexer (fork_start 8 7)))) with 8 in Esz, Hk. change (h = Header_Hash (fork_header false 7)) in Eh.
  pose proof (step_finish fork_read w3 _ (Some h) Et eq_refl) as Hs. cbn [t_section t_oldHead] in Hs. cbv zeta in Hs.
  destruct (update_end_records 0 0 h (w_indexer w3) Hi Est) as (Est' & Ekn & _ & Ehead); [done|done|rewrite Esz; lia|].
  eexists. split; [etrans; [eapply rtc_subrel; [|exact Hr]; by intros ?? [??]|]; etrans; [exact Hr3|apply rtc_once; exact Hs]|].
  cbn [w_indexer w_events w_task w_chain indexer_step]. rewrite Est', Ekn, Ehead, Ee, Ec, Eh. cbn [at_ fork_chain]. rewrite !fork_hash by lia.
  do 4 (split; [reflexivity|]). split; [clear -Hk Est; lia|]. split; [reflexivity|]. clear. by vm_compute.
Qed.
